(* ===== verification/_CoqProject ===== *)
-Q . S2P
Prelude.v
GoBytes.v
HistExpand.v
NetIP.v
GoTime.v
GoPath.v
SafeFile.v
PasteReader.v
FlowScan.v
Router.v
FlowRun.v
Json.v
AuditChain.v
Frames.v
MonitorProto.v
SshMonitor.v
Session.v
Policy.v
AdminPlane.v
Gate.v
FourEyes.v
Lease.v
Guard.v
Grid.v
GridVbin.v
GoNum.v
TtyModes.v
SshAuth.v
SshServer.v
SshSpawn.v
Redirect.v
Mirror.v
Dispatch.v
CallbackUrl.v
AuditSink.v
Oidc.v
Identity.v
