(* ===== verification/Prelude.v ===== *)
(** * A verification library for adssh

    adssh is a shell that sends every command through an authorization gate
    and a hash-chained audit ledger.  This library is a shallow embedding of
    the parts that carry its security argument, written as the Go code is
    written: one definition per function, errors as values, state passed
    explicitly.  This file is the root: it documents the library and holds
    what every component shares, namely the representation of Go values, error
    results and the proof automation.

    ** The program and the files that model it

    A line typed at the terminal passes the paste filter and history expansion
    (internal/repl), is cut into chunks and classified as shell, Starlark or a
    brace form (parser), and is run.  Before a shell program runs, its
    declarations are scanned, and each simple command reaches the call handler
    (security/interceptor.go), which rewrites raw admin names and asks the gate.
    The gate reads the session table (internal/sys/session.go), the identity,
    policy and entitlements, the approval gate and the admin plane, and appends
    to the ledger (security/audit_chain.go).  In an SSH session the shell is a
    separate process whose gate is a client of the listener's monitor
    (internal/sys/monitor_frame.go, security/ssh_monitor.go).  Beside the shell
    stand the listener's jail (internal/guard), which bans addresses before the
    SSH handshake, the sah frame (internal/sah, main_sah_ee.go), which runs one
    command under a signed lease (security/execlease_ee.go), and the grid
    (internal/grid), which places agents with a budget and a worktree.

    - [GoBytes], [GoTime], [GoPath], [NetIP], [SafeFile]: the functions of Go's
      strings, bytes, strconv and path, of time, of path/filepath and of net
      used below, and internal/safefile.
    - [PasteReader]: internal/repl/paste.go, the bracketed-paste filter and the
      review token ([crunch], [fill], [Read], [handlePasteLine]).
    - [HistExpand]: internal/repl/histexpand.go.
    - [FlowScan]: parser/flow.go, the scanners and [ClassifyFlow].
    - [Router]: parser/parser.go, Starlark or shell.
    - [FlowRun]: internal/repl/flow.go and [runHeldPaste].
    - [Json], [AuditChain]: the encoder of encoding/json and
      security/audit_chain.go, with the replay walk of security/asof_ee.go.
    - [Frames], [MonitorProto], [SshMonitor]: the frames, the session's client
      and the listener's server, with the refusal tables.
    - [Session]: internal/sys/session.go and the limits of host.go.
    - [Policy]: security/policy.go, capabilities.go, roles.go, entitlements.go
      and the bound identities of engine.go.
    - [AdminPlane]: security/adminplane_ee.go, quarantine_ee.go,
      agentbudget_ee.go.
    - [Gate]: security/interceptor.go (gate, call handler, pre-scan),
      approval_gate.go with both gates, explain.go, denial.go.
    - [FourEyes]: security/foureyes_ee.go and foureyes_pending_ee.go, the request
      and decision protocol behind the enterprise gate's wait, as processes that
      share the four-eyes directory and the ledger.
    - [Guard]: internal/guard/guard.go, the jail: its files, its tables and
      every operation, over an explicit clock.
    - [Lease]: security/execlease_ee.go, internal/sah/sah_ee.go and sahExecute
      of main_sah_ee.go: verification, the one-time commit as processes that
      share a directory, envelopes, the frame and the run.
    - [Grid], [GridVbin]: internal/grid/grid_ee.go and vbin_ee.go: membership,
      agent flights, worktrees, the peer's handler and client, and the bodies
      of the grid, flight, agent, worktree and repo binaries.
    - [GoNum], [TtyModes]: Go's integer parsing and printing, and
      internal/sys/ttymodes.go with termios_linux.go: stty and the terminal
      modes of a pty-req.
    - [SshAuth], [SshServer]: internal/sys/ssh.go with ssh_revoke.go and
      ssh_audit.go: logins and their records; the daemon, its connections,
      session channels, requests and forwarded channels.
    - [SshSpawn]: internal/sys/ssh_spawn.go, session_child.go,
      session_limits.go and ssh_session.go: the process that a login gets, its
      environment, credential and limits.
    - [Redirect]: security/openhandler.go, what a redirection opens or dials.
    - [Mirror]: security/mirror.go, mirror_attach.go and both builds of
      mirror_share: who may attach to a session.
    - [Dispatch]: the exec handler of security/interceptor.go and
      internal/sys/dirstack.go: assignments, builtins and what runs.
    - [CallbackUrl]: security/callback_url.go and approval_notice_ee.go.
    - [AuditSink]: security/audit.go with redact.go: the flat log, the ledger
      and the copies to syslog and the webhook.
    - [Oidc], [Identity]: security/vbin_identity_ee.go, device_login_ee.go and
      vbin_elevate_ee.go.

    ** What the theorems show

    - [Gate]: the exact condition under which a command is authorized
      ([gate_allows_iff]); what the ledger then holds, on every branch and with
      failing writes ([gate_audit]): which refusals end it with a denial, and
      which (approval, restricted mode, a policy error) leave none; that the words the call handler passes on
      are those authorized ([callHandler_runs_gated]); that the pre-scan gates every
      declaration ([gateProgram_ok_iff]); when [why] predicts the gate that has
      the engine's restricted setting ([explain_matches_gate]) and where it does not
      ([agent_denial_forgotten]).
    - [AuditChain]: appending a readable entry to a sound ledger keeps the chain
      ([AppendChain_extends]); two verified ledgers with one final hash hold the
      same entries unless two messages hashed for them collide
      ([VerifyChain_tamper_evident], by the injectivity of the encoder that
      [Json] ends with: [json_object_inj]); and what the failure points leave
      behind.
    - [MonitorProto], [SshMonitor], [Frames]: framing round trips; an
      authorization answers one request by the SHA-256 of its encoding, which
      no other request shares; request ids are consecutive; a run that is not
      refused is the binary's on exactly the scoped words that were gated; the
      client gets the output.
    - [Policy], [Session], [AdminPlane]: fail-closed decisions, principals,
      the session table and its cap, the environment overlay, the rewrite and
      the spend of an agent.
    - [FourEyes]: over every interleaving and every failure, an approval that a
      requester sees is a recorded decision of an admissible second person
      ([approval_needs_second_person]); claims and markers are exclusive
      ([decisions_exclusive]); a decision alone is all or nothing
      ([decision_all_or_nothing]); deciders are wait-free; and the run in which
      an approval is seen and then reverted ([approval_seen_before_revert]).
    - [Guard]: when a connection is admitted ([admit_allows_iff]), when a ban is
      made ([handshake_threshold]) and when it ends ([ban_expires]); the tables
      stay within their bounds ([jail_well_formed]); failed writes close the
      jail ([failed_write_fails_closed]); bans survive a restart
      ([restart_keeps_bans]), unless the file outgrows what the loader takes
      ([oversized_state_trips_restart]).
    - [Lease]: what a verified lease was signed for ([verified_lease_binds]);
      one id commits once under any interleaving ([jti_single_use]) and one
      token runs once over any requests before its expiry ([sah_token_once]);
      when sah runs a command ([sah_runs_iff]) and what it answers
      ([Handle_executes]).
    - [Grid], [GridVbin]: every operation is a run of its locked regions
      ([operations_are_sections]), so an invariant of the regions
      ([flight_tables_agree]) holds for any interleaving; a worktree is removed
      by one destroy and under no flight ([removal_exclusive]); placing is all
      or nothing ([place_all_or_nothing]); a reap ends exactly the expired
      flights ([reap_ends_flights]); what a peer ([peer_confined]), an agent
      ([agent_confined]) and anybody without the elevation
      ([grid_needs_elevation]) can change; what [repoCat] can read
      ([repoCat_confined]).
    - [TtyModes]: the accepted mode strings ([ParseSSHModes_iff]) and what they
      set ([client_modes_set]); stty is its operand parser followed by its
      effect ([stty_parses_first]), writes only terminal modes of the right
      shape ([stty_writes]), and its saved form reads back
      ([save_reads_back]).
    - [SshAuth]: a login needs a line that binds its key or authority
      ([login_needs_binding]) and the revocation file as it is
      ([revocation_in_force]); its principals are the certificate's
      ([login_principals]); its record cannot be forged by what the client
      sends ([login_record_fields]) and failures cannot flood the ledger
      ([failure_records_bounded]).
    - [SshServer]: goroutines are operations on one state in any order.  A
      process runs only for a recorded login that authorized_keys grants
      ([process_needs_login]); slots and the session table hold exactly what is
      in use ([slots_exact], [sessions_registered]); each step of a channel's own
      brings it nearer its end, which gives both its slots back
      ([session_slot_returns]); what requests
      ([channel_requests_confined]) and forwarded channels
      ([forward_authorized]) can do.
    - [SshSpawn]: the command line of the session process reads back
      ([spawn_reads_back]); what a process runs as and with, down to the exec of
      the limit wrapper and each limit there ([spawn_confined],
      [session_env_allowlist]); limits are only lowered ([limits_never_raised]).
    - [Redirect]: when a redirection dials ([dial_iff]) and opens
      ([opened_iff]), and the device whose gated name is not the host dialed
      ([bracketed_host_dialed]).
    - [Mirror]: who attaches and what an attach changes ([attach_iff]), and that a peer without the role
      had a grant of the owner ([granted_attach_was_shared],
      [grants_well_formed]).
    - [Dispatch]: on top of the call handler, that at most one thing runs, on
      the words that the gate authorized ([command_runs_gated]), except behind
      the prefixes command and exec, whose target the interpreter hands over
      unasked ([wrapper_target_ungated]); what the handler itself can assign,
      and that the rest is its one callee's ([assignments_confined]); the directory stack ([pushd_popd]);
      and how a quoted time leaves restricted mode ([time_escapes_restriction]).
    - [CallbackUrl]: whatever DNS answers, what a request can reach
      ([callback_confined], over the address networks of [never_nets]), and
      what the private override changes ([override_effect]).
    - [AuditSink]: a record is durable before it is copied, and what it, its
      ledger entry and its copies hold ([records_durable]); what the webhook can reach ([audit_post_confined]);
      where a record is not redacted ([eval_record_unredacted]), is more than
      one line ([flat_line_forged]) or leaves the machine's checks by IDNA
      ([wide_host_reaches_loopback]).
    - [Oidc], [Identity]: what an accepted token shows ([import_verified]) and
      for which provider ([token_serves_one_provider]); issued certificates
      ([issued_certificate]); who can be elevated
      ([elevation_needs_admin_token]); what a device login changes
      ([device_login_effect]) and keeps ([elevation_survives_login]); that
      polling ends and is spaced ([device_polls_end]), unless the interval
      overflows ([slow_down_busy_polls]).
    - [NetIP]: an address prints to text that parses back ([ParseIP_String]).
    - [PasteReader]: the buffered reader refines an unbuffered event semantics,
      does not depend on how the terminal splits its input, and never submits
      unreviewed text.
    - [FlowScan], [FlowRun]: the classifier against an independent grammar;
      every body is parsed and gated before any statement runs, by a runner that
      writes down gate calls and statements ([RunFlow_gates_first]); chunk plans; when a held
      paste stops.

    ** Interfaces and parameters

    Code outside the repository is a class or an argument: SHA-256 and HMAC,
    Ed25519, the SSH library's keys, certificates and packets ([SshKeys],
    [SshWire]), the platform's terminal constants ([Constants]), the JSON and
    YAML decoders, URL parsing ([NetURL]), the resolver and what the network
    serves, RSA, git, the Go parsers and the shell runner, regular expressions
    and globs, the compiled Rego query, the clock, the
    environment and the file system's answers. What the exec handler calls (a
    virtual binary, a custom command, the next handler) is a transformer of the
    whole state of the shell, and what the interpreter hands to the exec handler
    is a function of the words the call handler passes on. Where the repository itself has
    an interface, the model has a class: [ApprovalGate] with [ApprovalLaws]
    has two instances, the core and the enterprise gate, and the gate's
    theorems hold for any.

    ** Fuel and bounds

    Loops that are not structural take fuel, always a length that the code
    itself cannot exceed: an output write has no more chunks than bytes
    ([emit_spec]), a ledger no more tail blocks than bytes ([tail_loop_line]),
    a run no more frames than the stream has bytes ([run_loop_frames]), and an
    editor that reads more often than it gets bytes has them all
    ([Read_refines_feed]); a walk up a path takes one step more than the path
    has elements ([no_world_writable_iff]).  Integers are [Z] with [wrapu] and [wraps] where
    the code can overflow: history ordinals, request ids, frame lengths, hook
    keys.

    ** Not modelled

    Process, terminal, file and network I/O and the vendor SDK bindings are
    left out: their state is outside the program.  So are the REPL's display
    and completion, the SSH transport, the connections of admin attach (its
    frames and its decision are modelled), the admin HTTP API and its client,
    the Starlark extensions, the plugin loader and the MCP server, which wire
    libraries to the modelled operations; the bodies of the virtual binaries
    not named above, which run processes and format their output; the reading
    of the configuration; and the assembly of the engine.
    Mutexes are modelled by the atomicity of each operation; the gate reads
    the clock once per call. A commit makes at most nine system calls and its
    model takes nine outcomes. A limit without bound is that of a Linux build
    (2^64-1; Darwin's is 2^63-1); a sweep of claims that finds a claim but
    cannot read it, for which the code takes 300 seconds, is left out. The
    regular expressions of the redaction are parameters, since their engine
    is. *)

From Stdlib Require Export ZArith Lia Ascii String.
From stdpp Require Export base tactics list gmap strings.

#[global] Open Scope Z_scope.
#[global] Unset Program Cases.

(** ** Go values

    A Go [byte] is an [ascii]; a Go [string] or [[]byte] that the code scans
    byte by byte is a list of them.  Names that are only compared or used as
    map keys are Stdlib [string]s. *)

Abbreviation byte := ascii.
Abbreviation bytes := (list ascii).

Definition lit (s : string) : bytes := list_ascii_of_string s.

Definition byte_val (c : byte) : Z := Z.of_N (N_of_ascii c).
Definition byte_of (z : Z) : byte := ascii_of_N (Z.to_N (z mod 256)).

Infix "=?b" := Ascii.eqb (at level 70).

(** Go [len]: lengths are compared with constants as large as 1 MiB, so they
    are [Z]. *)
Definition zlen {A} (l : list A) : Z := Z.of_nat (length l).

(** Fixed-width unsigned and two's complement signed wrap-around. *)
Definition wrapu (w z : Z) : Z := z mod 2 ^ w.
Definition wraps (w z : Z) : Z := (z + 2 ^ (w - 1)) mod 2 ^ w - 2 ^ (w - 1).

(** ** Results of fallible Go functions *)

Inductive result (E A : Type) : Type :=
| Ok (a : A)
| Err (e : E).
Arguments Ok {E A} a.
Arguments Err {E A} e.

Definition rbind {E A B} (r : result E A) (f : A -> result E B) : result E B :=
  match r with Ok a => f a | Err e => Err e end.

Definition is_ok {E A} (r : result E A) : bool :=
  match r with Ok _ => true | Err _ => false end.

Declare Scope go_scope.
Delimit Scope go_scope with go.
Notation "'let!' x ':=' r 'in' k" := (rbind r (fun x => k))
  (at level 10, x pattern, r at level 100, k at level 200) : go_scope.
#[global] Open Scope go_scope.

(** ** Proof automation *)

(** [invc H] inverts [H] and substitutes; [bsimp] turns boolean tests into
    propositions; [split_matches] destructs the scrutinees of the goal. *)
Ltac invc H := inversion H; subst; clear H.

Ltac bsimp :=
  repeat match goal with
  | H : _ && _ = true |- _ => apply andb_true_iff in H; destruct H
  | H : _ && _ = false |- _ => apply andb_false_iff in H
  | H : _ || _ = true |- _ => apply orb_true_iff in H
  | H : _ || _ = false |- _ => apply orb_false_iff in H; destruct H
  | H : negb _ = true |- _ => apply negb_true_iff in H
  | H : negb _ = false |- _ => apply negb_false_iff in H
  | H : (_ <? _) = true |- _ => apply Z.ltb_lt in H
  | H : (_ <? _) = false |- _ => apply Z.ltb_ge in H
  | H : (_ <=? _) = true |- _ => apply Z.leb_le in H
  | H : (_ <=? _) = false |- _ => apply Z.leb_gt in H
  | H : (_ =? _) = true |- _ => apply Z.eqb_eq in H
  | H : (_ =? _) = false |- _ => apply Z.eqb_neq in H
  | H : bool_decide _ = true |- _ => apply bool_decide_eq_true_1 in H
  | H : bool_decide _ = false |- _ => apply bool_decide_eq_false_1 in H
  end.

Ltac split_matches :=
  repeat match goal with
  | |- context [match ?x with _ => _ end] => destruct x eqn:?
  end.

Ltac split_matches_in H :=
  repeat match type of H with
  | context [match ?x with _ => _ end] => destruct x eqn:?
  end.

Create HintDb go discriminated.
Create Rewrite HintDb go.

(** ** Lengths, bytes and words *)

Lemma zlen_nonneg {A} (l : list A) : 0 <= zlen l.
Proof. unfold zlen; lia. Qed.

Lemma zlen_nil {A} : zlen (@nil A) = 0.
Proof. reflexivity. Qed.

Lemma zlen_cons {A} (x : A) l : zlen (x :: l) = 1 + zlen l.
Proof. unfold zlen; cbn [length]; lia. Qed.

Lemma zlen_app {A} (l k : list A) : zlen (l ++ k) = zlen l + zlen k.
Proof. unfold zlen; rewrite length_app; lia. Qed.

Lemma zlen_zero {A} (l : list A) : zlen l = 0 -> l = [].
Proof. destruct l; [done|]. rewrite zlen_cons. pose proof (zlen_nonneg l). lia. Qed.

#[export] Hint Rewrite @zlen_nil @zlen_cons @zlen_app : go.
#[export] Hint Resolve zlen_nonneg : go.

Lemma byte_val_range c : 0 <= byte_val c < 256.
Proof. unfold byte_val. pose proof (N_ascii_bounded c). lia. Qed.

Lemma byte_of_val c : byte_of (byte_val c) = c.
Proof.
  unfold byte_of. rewrite Z.mod_small by apply byte_val_range.
  unfold byte_val. rewrite N2Z.id. apply ascii_N_embedding.
Qed.

Lemma byte_val_of z : byte_val (byte_of z) = z mod 256.
Proof.
  unfold byte_of, byte_val.
  pose proof (Z.mod_pos_bound z 256 ltac:(lia)).
  rewrite N_ascii_embedding by lia. lia.
Qed.

Lemma byte_val_inj c d : byte_val c = byte_val d -> c = d.
Proof. intros H. rewrite <- (byte_of_val c), <- (byte_of_val d). by f_equal. Qed.

Lemma wraps_small w z : 0 < w -> - 2 ^ (w - 1) <= z < 2 ^ (w - 1) -> wraps w z = z.
Proof.
  intros Hw Hz. unfold wraps.
  assert (2 ^ w = 2 * 2 ^ (w - 1)) as ->.
  { rewrite <- Z.pow_succ_r by lia. f_equal. lia. }
  rewrite Z.mod_small; lia.
Qed.

Lemma wraps_range w z : 0 < w -> - 2 ^ (w - 1) <= wraps w z < 2 ^ (w - 1).
Proof.
  intros Hw. unfold wraps.
  assert (2 ^ w = 2 * 2 ^ (w - 1)) as E.
  { rewrite <- Z.pow_succ_r by lia. f_equal. lia. }
  assert (0 < 2 ^ (w - 1)) by (apply Z.pow_pos_nonneg; lia).
  pose proof (Z.mod_pos_bound (z + 2 ^ (w - 1)) (2 ^ w)). lia.
Qed.

(** Two's complement values that agree modulo 2^w wrap to the same value. *)
Lemma wraps_cong w a b : a mod 2 ^ w = b mod 2 ^ w -> wraps w a = wraps w b.
Proof.
  intros H. unfold wraps. f_equal.
  rewrite (Zplus_mod a), (Zplus_mod b), H. reflexivity.
Qed.

Lemma wraps_mod w z : 0 < w -> wraps w z mod 2 ^ w = z mod 2 ^ w.
Proof.
  intros Hw. unfold wraps. rewrite Zminus_mod_idemp_l. f_equal. lia.
Qed.

(** Past the positive end the value wraps to a negative one. *)
Lemma wraps_overflow w z :
  0 < w -> 2 ^ (w - 1) <= z < 2 ^ (w - 1) + 2 ^ w -> wraps w z = z - 2 ^ w.
Proof.
  intros Hw Hz. unfold wraps.
  assert (2 ^ w = 2 * 2 ^ (w - 1)) as E.
  { rewrite <- Z.pow_succ_r by lia. f_equal. lia. }
  assert (0 < 2 ^ (w - 1)) by (apply Z.pow_pos_nonneg; lia).
  replace (z + 2 ^ (w - 1)) with (z + 2 ^ (w - 1) - 2 ^ w + 1 * 2 ^ w) by lia.
  rewrite Z_mod_plus_full, Z.mod_small; lia.
Qed.
