(* ===== verification/GoBytes.v ===== *)
(** * Go byte and string functions

    Executable models of the functions of Go's [strings], [bytes], [unicode],
    [strconv], [path], [sort] and [bufio] packages that the components use, on
    [list ascii], with the lemmas that characterise them. *)

From S2P Require Import Prelude.
From stdpp Require Import pretty sorting.
#[local] Open Scope Z_scope.

(** ** Definitions *)

(** [strings.HasPrefix], [strings.HasSuffix]. *)
Fixpoint has_prefix (p s : bytes) : bool :=
  match p, s with
  | [], _ => true
  | _, [] => false
  | a :: p', b :: s' => Ascii.eqb a b && has_prefix p' s'
  end.

Definition has_suffix (p s : bytes) : bool := has_prefix (rev p) (rev s).

(** [bytes.Index]: the first position where the pattern starts. *)
Fixpoint index_of (p s : bytes) : option nat :=
  if has_prefix p s then Some 0%nat
  else match s with
       | [] => None
       | _ :: s' => S <$> index_of p s'
       end.

Definition contains (p s : bytes) : bool :=
  match index_of p s with Some _ => true | None => false end.

(** [strings.Count] of a one-byte pattern. *)
Fixpoint count_byte (c : byte) (s : bytes) : Z :=
  match s with
  | [] => 0
  | d :: s' => (if Ascii.eqb c d then 1 else 0) + count_byte c s'
  end.

(** [strings.TrimSuffix]. *)
Definition trim_suffix (p s : bytes) : bytes :=
  if has_suffix p s then take (length s - length p) s else s.

(** [strings.Replace(s, old, new, 1)]. *)
Definition replace_first (old new s : bytes) : bytes :=
  match index_of old s with
  | Some i => take i s ++ new ++ drop (i + length old) s
  | None => s
  end.

(** Split at the first occurrence of a byte ([strings.Cut], [IndexByte]). *)
Fixpoint cut_byte (c : byte) (s : bytes) : option (bytes * bytes) :=
  match s with
  | [] => None
  | d :: s' =>
      if Ascii.eqb c d then Some ([], s')
      else '(a, b) ← cut_byte c s'; Some (d :: a, b)
  end.

(** [strings.Join]. *)
Fixpoint join (sep : bytes) (l : list bytes) : bytes :=
  match l with
  | [] => []
  | [x] => x
  | x :: l' => x ++ sep ++ join sep l'
  end.

(** [unicode.IsSpace] on UTF-8 text: the width in bytes of the white-space
    rune that starts [s], 0 when none does.  No white-space encoding can start
    inside another rune, because each starts with a UTF-8 lead byte, so the
    byte-wise test agrees with Go's rune-wise one, on invalid UTF-8 too. *)
Definition space_width (s : bytes) : nat :=
  match map byte_val s with
  | b0 :: rest =>
      if (b0 =? 32) || ((9 <=? b0) && (b0 <=? 13)) then 1%nat
      else match rest with
      | b1 :: rest' =>
          if (b0 =? 194) && ((b1 =? 133) || (b1 =? 160)) then 2%nat
          else match rest' with
          | b2 :: _ =>
              if ((b0 =? 225) && (b1 =? 154) && (b2 =? 128))
                 || ((b0 =? 226) && (b1 =? 128) &&
                     (((128 <=? b2) && (b2 <=? 138)) || (b2 =? 168) || (b2 =? 169) || (b2 =? 175)))
                 || ((b0 =? 226) && (b1 =? 129) && (b2 =? 159))
                 || ((b0 =? 227) && (b1 =? 128) && (b2 =? 128))
              then 3%nat else 0%nat
          | [] => 0%nat
          end
      | [] => 0%nat
      end
  | [] => 0%nat
  end.

(** [strings.TrimLeftFunc(s, unicode.IsSpace)]; [skip] counts the remaining
    bytes of a multi-byte space. *)
Fixpoint trim_left_from (skip : nat) (s : bytes) : bytes :=
  match s with
  | [] => []
  | _ :: s' =>
      match skip with
      | S k => trim_left_from k s'
      | O => match space_width s with
             | O => s
             | S k => trim_left_from k s'
             end
      end
  end.

Definition trim_left (s : bytes) : bytes := trim_left_from 0 s.

(** The white-space rune that ends a string, given the string reversed. *)
Definition space_width_rev (r : bytes) : nat :=
  match r with
  | a :: _ =>
      match space_width [a] with
      | S _ => 1%nat
      | O => match r with
             | a :: b :: _ =>
                 if Nat.eqb (space_width [b; a]) 2 then 2%nat
                 else match r with
                      | a :: b :: c :: _ =>
                          if Nat.eqb (space_width [c; b; a]) 3 then 3%nat else 0%nat
                      | _ => 0%nat
                      end
             | _ => 0%nat
             end
      end
  | [] => 0%nat
  end.

Fixpoint trim_right_from (skip : nat) (r : bytes) : bytes :=
  match r with
  | [] => []
  | _ :: r' =>
      match skip with
      | S k => trim_right_from k r'
      | O => match space_width_rev r with
             | O => r
             | S k => trim_right_from k r'
             end
      end
  end.

(** [strings.TrimSpace]. *)
Definition trim_space (s : bytes) : bytes :=
  rev (trim_right_from 0 (rev (trim_left s))).

(** [strings.Fields]: [cur] is the field being read, reversed. *)
Fixpoint fields_from (skip : nat) (cur : bytes) (s : bytes) : list bytes :=
  match s with
  | [] => match cur with [] => [] | _ => [rev cur] end
  | c :: s' =>
      match skip with
      | S k => fields_from k cur s'
      | O => match space_width s with
             | O => fields_from 0 (c :: cur) s'
             | S k => match cur with
                      | [] => fields_from k [] s'
                      | _ => rev cur :: fields_from k [] s'
                      end
             end
      end
  end.

Definition fields (s : bytes) : list bytes := fields_from 0 [] s.

(** [bufio.Scanner] with [ScanLines] and a token buffer of [max] bytes: the
    lines it returns, each without its line end, up to the end of the input or
    a line that does not fit, which is the boolean ([bufio.ErrTooLong]).  A
    line fits when it and its newline fill at most the buffer; at the end of
    the input the buffer must not be full.  [cur] is the line being read,
    reversed. *)
Definition NL : byte := ascii_of_nat 10.
Definition drop_cr (s : bytes) : bytes := trim_suffix [ascii_of_nat 13] s.

Fixpoint scan_lines_from (max : Z) (cur : bytes) (s : bytes) : list bytes * bool :=
  match s with
  | [] =>
      match cur with
      | [] => ([], false)
      | _ => if max <=? zlen cur then ([], true) else ([drop_cr (rev cur)], false)
      end
  | c :: s' =>
      if Ascii.eqb c NL then
        if max <=? zlen cur then ([], true)
        else let '(l, e) := scan_lines_from max [] s' in (drop_cr (rev cur) :: l, e)
      else scan_lines_from max (c :: cur) s'
  end.

Definition scan_lines (max : Z) (s : bytes) : list bytes * bool := scan_lines_from max [] s.

(** Strip trailing bytes of a set ([strings.TrimRight] with an ASCII cutset). *)
Fixpoint drop_while (p : byte -> bool) (s : bytes) : bytes :=
  match s with
  | c :: s' => if p c then drop_while p s' else s
  | [] => []
  end.

Definition trim_right_set (p : byte -> bool) (s : bytes) : bytes :=
  rev (drop_while p (rev s)).

(** [strings.Split] at a one-byte separator. *)
Fixpoint split_byte (c : byte) (s : bytes) : list bytes :=
  match s with
  | [] => [[]]
  | d :: s' =>
      if c =?b d then [] :: split_byte c s'
      else match split_byte c s' with
           | x :: l => (d :: x) :: l
           | [] => [[d]]
           end
  end.

(** [strings.ReplaceAll] of a non-empty pattern; [fuel] is at least the length. *)
Fixpoint replace_all_from (fuel : nat) (old new s : bytes) : bytes :=
  match fuel, s with
  | S fuel', c :: s' =>
      if has_prefix old s then new ++ replace_all_from fuel' old new (drop (length old) s)
      else c :: replace_all_from fuel' old new s'
  | _, _ => []
  end.
Definition replace_all (old new s : bytes) : bytes := replace_all_from (length s) old new s.

(** [path.Base]. *)
Fixpoint after_last_slash (cur s : bytes) : bytes :=
  match s with
  | [] => rev cur
  | c :: s' => after_last_slash (if c =?b "/" then [] else c :: cur) s'
  end.
Definition path_base (s : bytes) : bytes :=
  match s with
  | [] => lit "."
  | _ => match trim_right_set (fun c => c =?b "/") s with
         | [] => lit "/"
         | t => after_last_slash [] t
         end
  end.

(** Byte-wise lexicographic order and [sort.Strings]. *)
Fixpoint bytes_leb (a b : bytes) : bool :=
  match a, b with
  | [], _ => true
  | _, [] => false
  | x :: a', y :: b' => (byte_val x <? byte_val y) || ((byte_val x =? byte_val y) && bytes_leb a' b')
  end.
Definition bytes_le (a b : bytes) : Prop := bytes_leb a b = true.
#[export] Instance bytes_le_dec : RelDecision bytes_le.
Proof. intros a b. unfold bytes_le. apply _. Defined.

Definition sort_strings : list bytes -> list bytes := merge_sort bytes_le.

(** [strings.ToLower] on the ASCII letters. *)
Definition lower (c : byte) : byte :=
  if (65 <=? byte_val c) && (byte_val c <=? 90) then byte_of (byte_val c + 32) else c.
Definition to_lower (s : bytes) : bytes := map lower s.

(** [strings.EqualFold] with an ASCII text: of the other characters only the
    long s and the Kelvin sign fold to ASCII letters. *)
Fixpoint fold_ascii (s : bytes) : bytes :=
  match s with
  | [] => []
  | a :: s1 =>
      let plain := lower a :: fold_ascii s1 in
      match s1 with
      | [] => plain
      | b :: s2 =>
          if (byte_val a =? 197) && (byte_val b =? 191) then "s"%char :: fold_ascii s2
          else match s2 with
          | [] => plain
          | c :: s3 => if (byte_val a =? 226) && (byte_val b =? 132) && (byte_val c =? 170)
                       then "k"%char :: fold_ascii s3 else plain
          end
      end
  end.
Definition EqualFold (s t : bytes) : bool := bool_decide (fold_ascii s = fold_ascii t).

(** [strconv.ParseUint(s, 10, bits)]: the value, absent on a syntax or range error. *)
Fixpoint parse_digits (acc : Z) (s : bytes) : option Z :=
  match s with
  | [] => Some acc
  | c :: s' =>
      if (48 <=? byte_val c) && (byte_val c <=? 57)
      then parse_digits (acc * 10 + (byte_val c - 48)) s' else None
  end.
Definition ParseUint (width : Z) (s : bytes) : option Z :=
  match s with
  | [] => None
  | _ => n ← parse_digits 0 s; if n <? 2 ^ width then Some n else None
  end.

(** ** Lemmas *)

Lemma has_prefix_spec p s : has_prefix p s = true <-> exists t, s = p ++ t.
Proof.
  revert s; induction p as [|a p IH]; intros s; cbn.
  - split; [by exists s|done].
  - destruct s as [|b s]; [split; [done|by intros [t ?]]|].
    rewrite andb_true_iff, Ascii.eqb_eq, IH. split.
    + intros [-> [t ->]]. by exists t.
    + intros [t [= -> ->]]. eauto.
Qed.

Lemma has_prefix_app p t : has_prefix p (p ++ t) = true.
Proof. apply has_prefix_spec. by exists t. Qed.

Lemma has_prefix_refl p : has_prefix p p = true.
Proof. apply has_prefix_spec. exists []. by rewrite app_nil_r. Qed.

Lemma has_suffix_spec p s : has_suffix p s = true <-> exists t, s = t ++ p.
Proof.
  unfold has_suffix. rewrite has_prefix_spec. split; intros [t H].
  - exists (rev t). rewrite <- (rev_involutive s), H, rev_app_distr.
    by rewrite rev_involutive.
  - exists (rev t). by rewrite H, rev_app_distr.
Qed.

(** [index_of] finds an occurrence, and the first one. *)
Lemma index_of_Some p s i :
  index_of p s = Some i ->
  s = take i s ++ p ++ drop (i + length p) s /\
  (forall j, (j < i)%nat -> has_prefix p (drop j s) = false) /\ (i <= length s)%nat.
Proof.
  revert i; induction s as [|c s IH]; intros i; cbn;
    destruct (has_prefix p _) eqn:E; intros Hi; simplify_eq.
  - apply has_prefix_spec in E as [t Ht].
    destruct p; [|done]. split; [done|split; [lia|cbn; lia]].
  - apply has_prefix_spec in E as [t ->]. cbn [take app Nat.add].
    rewrite drop_app_length. split; [done|split; [lia|lia]].
  - destruct (index_of p s) as [k|] eqn:Ek; cbn in Hi; simplify_eq.
    destruct (IH k eq_refl) as (H1 & H2 & H3).
    split; [cbn; by f_equal|split; [|lia]].
    intros [|j] Hj; [done|]. cbn. apply H2. lia.
Qed.

Lemma index_of_None p s :
  index_of p s = None -> forall j, has_prefix p (drop j s) = false.
Proof.
  induction s as [|c s IH]; cbn; destruct (has_prefix p _) eqn:E; intros H j; try done.
  - by rewrite drop_nil.
  - destruct j; [done|]. cbn. apply IH. by destruct (index_of p s).
Qed.

Lemma index_of_None_iff p s :
  index_of p s = None <-> forall u v, s <> u ++ p ++ v.
Proof.
  split.
  - intros H u v ->. pose proof (index_of_None _ _ H (length u)) as E.
    rewrite drop_app_length, has_prefix_app in E. done.
  - intros H. destruct (index_of p s) as [i|] eqn:E; [|done].
    apply index_of_Some in E as [E _]. by destruct (H _ _ E).
Qed.

Lemma contains_false p s : contains p s = false <-> forall u v, s <> u ++ p ++ v.
Proof.
  unfold contains. rewrite <- index_of_None_iff. by destruct (index_of p s).
Qed.

Lemma contains_true p s : contains p s = true <-> exists u v, s = u ++ p ++ v.
Proof.
  unfold contains. destruct (index_of p s) as [i|] eqn:E; split; try done.
  - intros _. apply index_of_Some in E as [E _]. eauto.
  - intros (u & v & ->). by destruct ((proj1 (index_of_None_iff _ _) E) u v).
Qed.

(** No occurrence in a string means none in any of its parts. *)
Lemma contains_app_false p s t :
  contains p (s ++ t) = false -> contains p s = false /\ contains p t = false.
Proof.
  rewrite !contains_false. intros H. split; intros u v ->.
  - apply (H u (v ++ t)). by rewrite <- !app_assoc.
  - apply (H (s ++ u) v). by rewrite <- !app_assoc.
Qed.

Lemma contains_false_l p s t : contains p (s ++ t) = false -> contains p s = false.
Proof. intros H. by apply contains_app_false in H as [H _]. Qed.

Lemma contains_false_r p s t : contains p (s ++ t) = false -> contains p t = false.
Proof. intros H. by apply contains_app_false in H as [_ H]. Qed.

Lemma index_of_length p s i :
  index_of p s = Some i -> (i + length p <= length s)%nat.
Proof.
  intros H. apply index_of_Some in H as (E & _ & Hi).
  apply (f_equal length) in E. rewrite !length_app, length_take in E. lia.
Qed.

Lemma index_of_at p s i : index_of p s = Some i -> has_prefix p (drop i s) = true.
Proof.
  intros H. apply index_of_Some in H as (E & _ & Hi).
  rewrite E, drop_app_ge by (rewrite length_take; lia).
  rewrite length_take. replace (i - _)%nat with 0%nat by lia. apply has_prefix_app.
Qed.

Lemma index_of_unique p s i :
  has_prefix p (drop i s) = true ->
  (forall j, (j < i)%nat -> has_prefix p (drop j s) = false) ->
  index_of p s = Some i.
Proof.
  intros Hi Hj. destruct (index_of p s) as [k|] eqn:Ek.
  - pose proof (index_of_at _ _ _ Ek). apply index_of_Some in Ek as (_ & Hk & _).
    destruct (Nat.lt_trichotomy i k) as [Hlt|[->|Hlt]]; [|done|].
    + by rewrite Hk in Hi.
    + by rewrite Hj in H.
  - by rewrite (index_of_None _ _ Ek) in Hi.
Qed.

Lemma drop_app_shift {A} (u v : list A) n : drop (length u + n) (u ++ v) = drop n v.
Proof. by rewrite <- drop_drop, drop_app_length. Qed.

Lemma count_byte_app c s t : count_byte c (s ++ t) = count_byte c s + count_byte c t.
Proof. induction s; cbn; lia. Qed.

Lemma count_byte_nonneg c s : 0 <= count_byte c s.
Proof. induction s; cbn; split_matches; lia. Qed.

Lemma count_byte_zero c s : count_byte c s = 0 <-> ~ In c s.
Proof.
  induction s as [|d s IH]; cbn; [tauto|].
  pose proof (count_byte_nonneg c s).
  destruct (Ascii.eqb_spec c d) as [->|Hne].
  - split; [lia|tauto].
  - rewrite Z.add_0_l, IH. split; [intros H0 [->|?]; tauto|tauto].
Qed.

Lemma trim_suffix_spec p s :
  (exists t, s = t ++ p /\ trim_suffix p s = t) \/
  ((forall t, s <> t ++ p) /\ trim_suffix p s = s).
Proof.
  unfold trim_suffix. destruct (has_suffix p s) eqn:E.
  - apply has_suffix_spec in E as [t ->]. left. exists t. split; [done|].
    rewrite length_app, Nat.add_sub. apply take_app_length.
  - right. split; [|done]. intros t ->.
    assert (has_suffix p (t ++ p) = true) by (apply has_suffix_spec; eauto). congruence.
Qed.

Lemma contains_single c s : contains [c] s = true <-> In c s.
Proof.
  rewrite contains_true. split.
  - intros (u & v & ->). apply in_app_iff. right. cbn. tauto.
  - intros H. apply in_split in H as (u & v & ->). by exists u, v.
Qed.

Lemma index_of_first c u v : ~ In c u -> index_of [c] (u ++ c :: v) = Some (length u).
Proof.
  induction u as [|d u IH]; intros H; cbn in H |- *.
  - by rewrite Ascii.eqb_refl.
  - destruct (Ascii.eqb_spec c d) as [->|_]; [tauto|]. cbn.
    rewrite IH by tauto. done.
Qed.

Lemma scan_lines_from_line max cur l s :
  ~ In NL l -> zlen cur + zlen l < max ->
  scan_lines_from max cur (l ++ NL :: s) =
  let '(ls, e) := scan_lines max s in (drop_cr (rev cur ++ l) :: ls, e).
Proof.
  revert cur. induction l as [|c l IH]; intros cur Hl Hm; cbn [app scan_lines_from].
  - rewrite Ascii.eqb_refl. rewrite zlen_nil in Hm. rewrite (proj2 (Z.leb_gt _ _)) by lia.
    by rewrite app_nil_r.
  - cbn [In] in Hl. destruct (Ascii.eqb_spec c NL) as [->|_]; [tauto|].
    rewrite zlen_cons in Hm. rewrite IH by (tauto || rewrite zlen_cons; lia).
    cbn [rev]. by rewrite <- app_assoc.
Qed.

Lemma scan_lines_line max l s :
  ~ In NL l -> zlen l < max ->
  scan_lines max (l ++ NL :: s) = let '(ls, e) := scan_lines max s in (drop_cr l :: ls, e).
Proof. intros. unfold scan_lines at 1. rewrite scan_lines_from_line; [done|done|]. rewrite zlen_nil. lia. Qed.

Lemma drop_while_app p s c t : p c = false -> forallb p s = true -> drop_while p (s ++ c :: t) = c :: t.
Proof.
  intros Hc. induction s as [|d s IH]; cbn; intros H; [by rewrite Hc|].
  bsimp. rewrite H. by apply IH.
Qed.

Lemma trim_right_set_app p s c t :
  p c = false -> forallb p t = true -> trim_right_set p (s ++ c :: t) = s ++ [c].
Proof.
  intros Hc Ht. unfold trim_right_set. rewrite rev_app_distr. cbn [rev]. rewrite <- app_assoc.
  cbn [app]. rewrite drop_while_app.
  - cbn [rev]. by rewrite rev_involutive.
  - done.
  - rewrite forallb_forall in *. intros x Hx. apply Ht. by apply in_rev.
Qed.

(** Decimal numerals hold digits and a minus sign. *)
Definition is_digit_or_minus (c : byte) : bool :=
  ((48 <=? byte_val c) && (byte_val c <=? 57)) || (byte_val c =? 45).

Lemma pretty_N_char_digit n : is_digit_or_minus (pretty_N_char n) = true.
Proof. destruct n as [|p]; [done|]. do 4 (destruct p as [p|p|]; try done). Qed.

Lemma pretty_N_go_digits n s :
  forallb is_digit_or_minus (lit s) = true ->
  forallb is_digit_or_minus (lit (pretty_N_go n s)) = true.
Proof.
  revert s. induction (N.lt_wf_0 n) as [n _ IH]. intros s Hs.
  destruct (decide (0 < n)%N) as [Hn|Hn].
  - rewrite pretty_N_go_step by done. apply IH.
    { apply N.div_lt; lia. }
    cbn. rewrite pretty_N_char_digit. exact Hs.
  - replace n with 0%N by lia. by rewrite pretty_N_go_0.
Qed.

Lemma pretty_Z_digits (z : Z) : forallb is_digit_or_minus (lit (pretty z)) = true.
Proof.
  assert (HN : forall n : N, forallb is_digit_or_minus (lit (pretty n)) = true).
  { intros n. unfold pretty, pretty_N. case_decide; [done|]. by apply pretty_N_go_digits. }
  destruct z; [done|apply HN|]. cbn. apply HN.
Qed.

Lemma split_byte_join c s : join [c] (split_byte c s) = s.
Proof.
  induction s as [|d s IH]; [done|]. cbn [split_byte].
  destruct (Ascii.eqb_spec c d) as [->|Hne].
  - destruct (split_byte d s) as [|x l] eqn:E; [|cbn [join app] in *; by rewrite IH].
    destruct s; cbn in E; [done|]. repeat case_match; done.
  - destruct (split_byte c s) as [|x [|y l]]; cbn [join app] in *; by rewrite <- IH.
Qed.

Lemma split_byte_no_sep c s : Forall (fun x => ~ In c x) (split_byte c s).
Proof.
  induction s as [|d s IH]; [repeat constructor; by intros []|]. cbn [split_byte].
  destruct (Ascii.eqb_spec c d) as [->|Hne]; [constructor; [by intros []|done]|].
  destruct (split_byte c s) as [|x l]; [repeat constructor; intros [H|[]]; by apply Hne|].
  inversion IH; subst. constructor; [|done]. intros [H|H]; [by apply Hne|done].
Qed.

Lemma split_byte_unique c l :
  l <> [] -> Forall (fun x => ~ In c x) l -> split_byte c (join [c] l) = l.
Proof.
  intros Hne Hf. induction l as [|x l IH]; [done|]. inversion Hf as [|? ? Hx Hl]; subst.
  assert (Hcons : forall (x : bytes) t r, ~ In c x -> split_byte c t = r ->
    match r with y :: k => split_byte c (x ++ t) = (x ++ y) :: k | [] => True end).
  { clear. induction x as [|d x IHx]; intros t r Hn Hr; cbn [app].
    - rewrite Hr. by destruct r.
    - destruct r as [|y k]; [done|]. cbn [split_byte].
      destruct (Ascii.eqb_spec c d) as [->|]; [destruct Hn; by left|].
      specialize (IHx t (y :: k)). cbn in IHx. rewrite IHx; [done| |done].
      intros H. apply Hn. by right. }
  destruct l as [|y l].
  - cbn [join]. specialize (Hcons x [] [[]] Hx eq_refl). cbn in Hcons. by rewrite !app_nil_r in Hcons.
  - change (join [c] (x :: y :: l)) with (x ++ c :: join [c] (y :: l)).
    specialize (Hcons x (c :: join [c] (y :: l)) ([] :: y :: l) Hx).
    cbn beta iota in Hcons. rewrite Hcons; [by rewrite app_nil_r|].
    cbn [split_byte]. rewrite Ascii.eqb_refl. f_equal. by apply IH.
Qed.

Lemma after_last_slash_app cur d n :
  forallb (fun c => negb (c =?b "/")) n = true -> after_last_slash cur (d ++ "/"%char :: n) = n.
Proof.
  intros Hn. assert (Hend : forall cur n, forallb (fun c => negb (c =?b "/")) n = true ->
    after_last_slash cur n = rev cur ++ n).
  { clear. intros cur n. revert cur. induction n as [|c n IH]; intros cur H; cbn in *; [by rewrite app_nil_r|].
    apply andb_true_iff in H as [Hc H]. apply negb_true_iff in Hc. rewrite Hc, IH by done.
    cbn [rev]. by rewrite <- app_assoc. }
  revert cur. induction d as [|c d IH]; intros cur; cbn; [by rewrite Hend|apply IH].
Qed.

(** A path's base is its last element. *)
Lemma path_base_app d n c :
  forallb (fun c => negb (c =?b "/")) (n ++ [c]) = true -> path_base (d ++ "/"%char :: n ++ [c]) = n ++ [c].
Proof.
  intros Hn. unfold path_base. destruct (d ++ "/"%char :: n ++ [c]) as [|x l] eqn:E; [by destruct d|].
  rewrite <- E. unfold trim_right_set. rewrite forallb_app in Hn.
  apply andb_true_iff in Hn as [Hn Hc]. cbn in Hc. apply andb_true_iff in Hc as [Hc _].
  apply negb_true_iff in Hc.
  assert (Hd : drop_while (fun c => c =?b "/") (rev (d ++ "/"%char :: n ++ [c])) =
               rev (d ++ "/"%char :: n ++ [c])).
  { rewrite app_comm_cons, app_assoc, rev_app_distr. cbn [rev app drop_while]. by rewrite Hc. }
  rewrite Hd, rev_involutive, E, <- E.
  apply after_last_slash_app. rewrite forallb_app, Hn. cbn. by rewrite Hc.
Qed.

(** *** Sorting *)

#[export] Instance bytes_le_trans : Transitive bytes_le.
Proof.
  unfold bytes_le. intros a b c. revert b c.
  induction a as [|x a IH]; intros [|y b] [|z c] H1 H2; cbn in *; try done.
  apply orb_true_iff in H1, H2. apply orb_true_iff.
  destruct H1 as [H1|H1], H2 as [H2|H2]; bsimp; [left; lia..|].
  right. apply andb_true_iff. split; [apply Z.eqb_eq; lia|eauto].
Qed.

#[export] Instance bytes_le_total : Total bytes_le.
Proof.
  unfold bytes_le. intros a. induction a as [|x a IH]; intros [|y b]; cbn; [by left..|by right|].
  destruct (Z.lt_total (byte_val x) (byte_val y)) as [H|[H|H]].
  - left. by rewrite (proj2 (Z.ltb_lt _ _) H).
  - rewrite H, !Z.eqb_refl, !Z.ltb_irrefl. cbn. apply IH.
  - right. by rewrite (proj2 (Z.ltb_lt _ _) H).
Qed.

#[export] Instance bytes_le_antisymm : AntiSymm (=) bytes_le.
Proof.
  unfold bytes_le. intros a. induction a as [|x a IH]; intros [|y b] H1 H2; cbn in *; try done.
  apply orb_true_iff in H1, H2. destruct H1 as [H1|H1], H2 as [H2|H2]; bsimp; try lia.
  f_equal; [by apply byte_val_inj|by apply IH].
Qed.

Lemma sort_strings_perm l : sort_strings l ≡ₚ l.
Proof. apply merge_sort_Permutation. Qed.

Lemma elem_of_sort_strings x l : x ∈ sort_strings l <-> x ∈ l.
Proof. by rewrite sort_strings_perm. Qed.

Lemma sort_strings_sorted l : StronglySorted bytes_le (sort_strings l).
Proof. apply StronglySorted_merge_sort; apply _. Qed.

Lemma NoDup_sort_strings l : NoDup l -> NoDup (sort_strings l).
Proof. by rewrite sort_strings_perm. Qed.

#[export] Hint Resolve has_prefix_app has_prefix_refl count_byte_nonneg : go.
#[export] Hint Rewrite count_byte_app : go.

(** ASCII text without blanks is its own trimmed form. *)
Definition printable (c : byte) : bool := (33 <=? byte_val c) && (byte_val c <? 127).

Lemma space_width_plain c s : printable c = true -> space_width (c :: s) = 0%nat.
Proof.
  unfold printable, space_width. intros H. bsimp. cbn [map].
  assert ((byte_val c =? 32) || ((9 <=? byte_val c) && (byte_val c <=? 13)) = false) as -> by lia.
  destruct s as [|d s]; [done|]. cbn [map]. assert ((byte_val c =? 194) = false) as -> by lia. cbn [andb].
  destruct s as [|e s]; [done|]. cbn [map].
  assert ((byte_val c =? 225) = false) as -> by lia. assert ((byte_val c =? 226) = false) as -> by lia.
  by assert ((byte_val c =? 227) = false) as -> by lia.
Qed.

Lemma space_width_rev_plain c r : printable c = true -> space_width_rev (c :: r) = 0%nat.
Proof.
  intros H. unfold space_width_rev. rewrite space_width_plain by done.
  unfold printable in H. bsimp. destruct r as [|b r]; [done|].
  assert (Nat.eqb (space_width [b; c]) 2 = false) as ->.
  { unfold space_width. cbn [map]. case_match; [done|].
    assert ((byte_val c =? 133) || (byte_val c =? 160) = false) as -> by lia. by rewrite andb_false_r. }
  destruct r as [|a r]; [done|]. assert (Nat.eqb (space_width [a; b; c]) 3 = false) as ->; [|done].
  unfold space_width. cbn [map]. case_match; [done|]. case_match; [done|].
  assert ((byte_val c =? 128) = false) as -> by lia. assert ((128 <=? byte_val c) = false) as -> by lia.
  assert ((byte_val c =? 168) = false) as -> by lia. assert ((byte_val c =? 169) = false) as -> by lia.
  assert ((byte_val c =? 175) = false) as -> by lia. assert ((byte_val c =? 159) = false) as -> by lia.
  by rewrite !andb_false_r.
Qed.

Lemma trim_plain s : forallb printable s = true -> trim_space s = s.
Proof.
  intros H. unfold trim_space, trim_left.
  assert (trim_left_from 0 s = s) as ->.
  { destruct s as [|c s]; [done|]. cbn [forallb] in H. bsimp. cbn [trim_left_from]. by rewrite space_width_plain. }
  assert (forallb printable (rev s) = true) as Hr.
  { rewrite forallb_forall in *. intros x Hx. apply H. by apply in_rev. }
  destruct (rev s) as [|c r] eqn:E; [by rewrite <- (rev_involutive s), E|]. cbn [forallb] in Hr. bsimp.
  cbn [trim_right_from]. rewrite space_width_rev_plain by done. by rewrite <- E, rev_involutive.
Qed.

Lemma all_bytes (P : byte -> bool) :
  forallb (fun n => P (ascii_of_nat n)) (seq 0 256) = true -> forall c, P c = true.
Proof.
  intros H c. rewrite forallb_forall in H. rewrite <- (ascii_nat_embedding c). apply H, in_seq.
  pose proof (nat_ascii_bounded c). lia.
Qed.

(** ** Numerals read back *)

Lemma pretty_N_char_val n : (n < 10)%N -> byte_val (pretty_N_char n) = 48 + Z.of_N n.
Proof.
  intros H. destruct n as [|p]; [done|]. do 4 (destruct p as [p|p|]; try done; try lia).
Qed.

Lemma parse_pretty_go x : forall s, parse_digits 0 (lit (pretty_N_go x s)) = parse_digits (Z.of_N x) (lit s).
Proof.
  induction x as [x IH] using (well_founded_induction N.lt_wf_0). intros s.
  destruct (decide (x = 0%N)) as [->|Hx]; [by rewrite pretty_N_go_0|].
  rewrite pretty_N_go_step by lia. rewrite IH by (apply N.div_lt; lia).
  change (lit (String ?c s)) with (c :: lit s). cbn [parse_digits].
  pose proof (N.mod_lt x 10 ltac:(lia)) as Hm. pose proof (N.div_mod x 10 ltac:(lia)) as Hd.
  rewrite pretty_N_char_val by done. set (m := (x mod 10)%N) in *. set (q := (x / 10)%N) in *.
  assert (((48 <=? 48 + Z.of_N m) && (48 + Z.of_N m <=? 57)) = true) as -> by lia.
  f_equal. lia.
Qed.

Lemma pretty_go_length k : forall x s, (x < 10 ^ N.of_nat k)%N ->
  (length (lit (pretty_N_go x s)) <= k + length (lit s))%nat.
Proof.
  induction k as [|k IH]; intros x s H.
  - assert (x = 0%N) as -> by (cbn in H; lia). by rewrite pretty_N_go_0.
  - destruct (decide (x = 0%N)) as [->|Hx]; [rewrite pretty_N_go_0; lia|].
    rewrite pretty_N_go_step by lia. etransitivity; [apply IH|].
    + apply N.Div0.div_lt_upper_bound. rewrite Nnat.Nat2N.inj_succ, N.pow_succ_r' in H. lia.
    + change (lit (String ?c s)) with (c :: lit s). cbn [length]. lia.
Qed.

Lemma parse_pretty_N x : parse_digits 0 (lit (pretty x)) = Some (Z.of_N x).
Proof.
  unfold pretty, pretty_N. case_decide as E; [by rewrite E|]. by rewrite parse_pretty_go.
Qed.
Lemma pretty_N_length k x : (0 < k)%nat -> (x < 10 ^ N.of_nat k)%N -> (length (lit (pretty x)) <= k)%nat.
Proof.
  intros Hk H. unfold pretty, pretty_N. case_decide as E; [cbn; lia|].
  pose proof (pretty_go_length k x "" H) as Hl. change (length (lit "")) with 0%nat in Hl. lia.
Qed.

Lemma cut_byte_spec c s a b : cut_byte c s = Some (a, b) <-> s = a ++ c :: b /\ ~ In c a.
Proof.
  revert a. induction s as [|d s IH]; intros a; cbn.
  - split; [done|]. intros [E _]. by destruct a.
  - destruct (Ascii.eqb_spec c d) as [->|Hne].
    + split; [intros H; injection H as <- <-; split; [done|intros []]|]. intros [E Hn]. destruct a as [|x a]; [by injection E as <-|].
      injection E as -> E. destruct Hn. by left.
    + destruct (cut_byte c s) as [[a' b']|] eqn:E; cbn.
      * split.
        -- intros [= <- <-]. destruct (proj1 (IH a') eq_refl) as [-> Hn]. split; [done|].
           intros [H|H]; [congruence|done].
        -- intros [E' Hn]. destruct a as [|x a]; [cbn in E'; congruence|].
           injection E' as -> ->. assert (Ha : Some (a', b') = Some (a, b))
             by (apply IH; split; [done|intros H; apply Hn; by right]). by injection Ha as -> ->.
      * split; [done|]. intros [E' Hn]. destruct a as [|x a]; [cbn in E'; congruence|].
        injection E' as -> ->. enough (None = Some (a, b)) by done. apply IH.
        split; [done|]. intros H; apply Hn; by right.
Qed.
