(* ===== verification/HistExpand.v ===== *)
(** * History expansion

    [ExpandHistory] of internal/repl/histexpand.go: the bash-style history
    designators of the REPL.  A call returns the line to run and whether an
    expansion happened. *)

From S2P Require Import Prelude GoBytes.

(** ** Definitions *)

(** The [for _, c := range numStr] loop: decimal digits accumulated in a Go
    [int] (64 bits, two's complement, silently wrapping), [None] at the first
    byte that is not a digit. *)
Fixpoint parse_num (n : Z) (numStr : bytes) : option Z :=
  match numStr with
  | [] => Some n
  | c :: rest =>
      if (byte_val c <? 48) || (57 <? byte_val c) then None
      else parse_num (wraps 64 (n * 10 + (byte_val c - 48))) rest
  end.

(** [nthCommand]: 1 is the last command.  [len(history) - n] wraps too. *)
Definition nthCommand (history : list bytes) (n : Z) : option bytes :=
  let idx := wraps 64 (zlen history - n) in
  if (idx <? 0) || (zlen history <=? idx) then None
  else history !! Z.to_nat idx.

(** The designator is everything up to the first space; the suffix keeps the
    space. *)
Definition split_designator (line : bytes) : bytes * bytes :=
  match index_of (lit " ") line with
  | Some sp => (take sp line, drop sp line)
  | None => (line, [])
  end.

Definition ExpandHistory (line : bytes) (history : list bytes) : bytes * bool :=
  match last history with
  | None => (line, false)
  | Some lastCmd =>
      if has_prefix (lit "^") line then
        let rest := drop 1 line in
        match index_of (lit "^") rest with
        | Some idx =>
            let old := take idx rest in
            let newVal := drop (idx + 1) rest in
            let expanded := replace_first old newVal lastCmd in
            if bool_decide (expanded = lastCmd) then (line, false) else (expanded, true)
        | None => (line, false)
        end
      else if negb (has_prefix (lit "!") line) then (line, false)
      else
        let '(designator, suffix) := split_designator line in
        let words := fields lastCmd in
        if bool_decide (designator = lit "!!") then (lastCmd ++ suffix, true)
        else if has_prefix (lit "!-") designator then
          let numStr := drop 2 designator in
          match numStr with
          | [] => (line, false)
          | _ =>
              match parse_num 0 numStr with
              | None => (line, false)
              | Some n =>
                  match nthCommand history n with
                  | Some cmd => (cmd ++ suffix, true)
                  | None => (line, false)
                  end
              end
          end
        else if bool_decide (designator = lit "!$") then
          match last words with
          | None => (line, false)
          | Some w => (w ++ suffix, true)
          end
        else if bool_decide (designator = lit "!^") then
          match words with
          | _ :: w :: _ => (w ++ suffix, true)
          | _ => (line, false)
          end
        else if bool_decide (designator = lit "!*") then
          match words with
          | _ :: ((_ :: _) as ws) => (join (lit " ") ws ++ suffix, true)
          | _ => (line, false)
          end
        else (line, false)
  end.

(** ** Specification: the number a digit string denotes *)

Definition is_digit (c : byte) : bool := (48 <=? byte_val c) && (byte_val c <=? 57).

Definition digits_value (ds : bytes) : Z :=
  fold_left (fun n c => n * 10 + (byte_val c - 48)) ds 0.

(** ** Lemmas *)

Lemma is_digit_range c : is_digit c = true -> 48 <= byte_val c <= 57.
Proof. unfold is_digit. intros H. bsimp. lia. Qed.

(** Accumulating with wrap-around at every step is wrapping once at the end. *)
Lemma parse_num_wraps ds n m :
  forallb is_digit ds = true ->
  n = wraps 64 m ->
  parse_num n ds =
    Some (wraps 64 (fold_left (fun n c => n * 10 + (byte_val c - 48)) ds m)).
Proof.
  revert n m; induction ds as [|c ds IH]; intros n m Hd ->; [done|].
  cbn [forallb] in Hd. bsimp. pose proof (is_digit_range _ H).
  cbn [parse_num fold_left].
  destruct ((byte_val c <? 48) || (57 <? byte_val c)) eqn:E.
  { bsimp. destruct E; bsimp; lia. }
  apply IH; [done|]. apply wraps_cong.
  rewrite Zplus_mod, Zmult_mod, wraps_mod by lia.
  by rewrite <- Zmult_mod, <- Zplus_mod.
Qed.

Lemma parse_num_digits ds :
  forallb is_digit ds = true -> parse_num 0 ds = Some (wraps 64 (digits_value ds)).
Proof. intros H. by apply parse_num_wraps. Qed.

Lemma parse_num_nondigit n u c v :
  is_digit c = false -> parse_num n (u ++ c :: v) = None.
Proof.
  intros Hc. revert n. induction u as [|d u IH]; intros n; cbn [app parse_num].
  - unfold is_digit in Hc. destruct ((byte_val c <? 48) || (57 <? byte_val c)) eqn:E; [done|].
    bsimp. destruct Hc; bsimp; lia.
  - split_matches; [done|apply IH].
Qed.

Lemma parse_num_range n ds m :
  - 2 ^ 63 <= n < 2 ^ 63 -> parse_num n ds = Some m -> - 2 ^ 63 <= m < 2 ^ 63.
Proof.
  revert n; induction ds as [|c ds IH]; intros n Hn; cbn.
  - intros [= <-]. done.
  - split_matches; [done|]. apply IH. by apply (wraps_range 64).
Qed.

(** [nthCommand] is the bounds-checked access it means to be, also where
    [len(history) - n] leaves the 64-bit range. *)
Lemma nthCommand_spec history n :
  zlen history < 2 ^ 63 -> - 2 ^ 63 <= n < 2 ^ 63 ->
  nthCommand history n =
    if (1 <=? n) && (n <=? zlen history)
    then history !! Z.to_nat (zlen history - n) else None.
Proof.
  intros Hl Hn. unfold nthCommand. pose proof (zlen_nonneg history) as H0.
  destruct (decide (zlen history - n < 2 ^ 63)).
  - rewrite wraps_small by lia.
    destruct (_ || _) eqn:E1, (_ && _) eqn:E2; bsimp; try done; lia.
  - rewrite wraps_overflow by lia.
    destruct (_ || _) eqn:E1, (_ && _) eqn:E2; bsimp; try done; lia.
Qed.

Lemma split_designator_spec d suf :
  ~ In " "%char d -> (suf = [] \/ exists t, suf = " "%char :: t) ->
  split_designator (d ++ suf) = (d, suf).
Proof.
  intros Hd [->|[t ->]]; unfold split_designator.
  - rewrite app_nil_r. destruct (index_of _ d) as [i|] eqn:E; [|done].
    destruct Hd. apply contains_single. unfold contains.
    change (lit " ") with [" "%char] in E. by rewrite E.
  - change (lit " ") with [" "%char]. rewrite index_of_first by done.
    by rewrite take_app_length, drop_app_length.
Qed.

Lemma digits_no_space ds : forallb is_digit ds = true -> ~ In " "%char ds.
Proof.
  intros H Hin. rewrite forallb_forall in H. apply H in Hin.
  vm_compute in Hin. done.
Qed.

(** The line is returned as it came whenever no expansion happened. *)
Lemma ExpandHistory_unchanged line history :
  snd (ExpandHistory line history) = false -> fst (ExpandHistory line history) = line.
Proof. unfold ExpandHistory. split_matches; cbn; done. Qed.

(** ** Properties *)

(** The !-N designator of ExpandHistory runs the N-th most recent command
    where N is the numeral reduced to a signed 64-bit integer, and leaves the
    line alone exactly when that names no command. *)
Theorem expand_ordinal ds suf history :
  ds <> [] -> forallb is_digit ds = true ->
  (suf = [] \/ exists t, suf = " "%char :: t) ->
  history <> [] -> zlen history < 2 ^ 63 ->
  let line := lit "!-" ++ ds ++ suf in
  let n := wraps 64 (digits_value ds) in
  ExpandHistory line history =
    match (if (1 <=? n) && (n <=? zlen history)
           then history !! Z.to_nat (zlen history - n) else None) with
    | Some cmd => (cmd ++ suf, true)
    | None => (line, false)
    end.
Proof.
  intros Hne Hd Hsuf Hh Hl line n. unfold ExpandHistory.
  destruct (last history) as [lastCmd|] eqn:El.
  2: { apply last_None in El. done. }
  change (has_prefix (lit "^") line) with false.
  change (has_prefix (lit "!") line) with true. cbn [negb].
  unfold line. rewrite app_assoc, split_designator_spec; [|  |done].
  2: { rewrite in_app_iff. cbn. intros [[?|[?|[]]]|?]; try done.
       by eapply digits_no_space. }
  rewrite bool_decide_eq_false_2 by (destruct ds; done).
  change (has_prefix (lit "!-") (lit "!-" ++ ds)) with true. cbn [drop lit app list_ascii_of_string].
  destruct ds as [|c ds]; [done|].
  rewrite parse_num_digits by done.
  rewrite nthCommand_spec; [|done|by apply (wraps_range 64)]. fold n.
  reflexivity.
Qed.

Lemma expand_ordinal_witness :
  let h := [lit "ls"; lit "rm a"] in
  ExpandHistory (lit "!-18446744073709551617 x") h = (lit "rm a x", true)
  /\ ExpandHistory (lit "!-2") h = (lit "ls", true).
Proof.
  intros h. split.
  - apply (expand_ordinal (lit "18446744073709551617") (lit " x") h);
      [discriminate|reflexivity|by right; exists (lit "x")|discriminate|reflexivity].
  - apply (expand_ordinal (lit "2") [] h);
      [discriminate|reflexivity|by left|discriminate|reflexivity].
Defined.

Example expand_star : ExpandHistory (lit "!* x") [lit "cp a b"] = (lit "a b x", true).
Proof. reflexivity. Qed.
