(* ===== verification/NetIP.v ===== *)
(** * Go's net addresses

    The functions of Go's [net] (and of [net/netip], which it calls) that the
    guard uses: [ParseIP], [IP.String], [IP.To4], [IP.Mask], [ParseCIDR],
    [IPNet.Contains] and [SplitHostPort].  An address is the list of its
    bytes, 4 or 16 of them, as [Z]. *)

From S2P Require Import Prelude GoBytes.
From stdpp Require Import pretty.
#[local] Open Scope Z_scope.
#[local] Arguments lit : simpl never.

Abbreviation IP := (list Z).

Definition v4InV6Prefix : IP := [0; 0; 0; 0; 0; 0; 0; 0; 0; 0; 255; 255].

Definition To4 (ip : IP) : option IP :=
  if Nat.eqb (length ip) 4 then Some ip
  else if Nat.eqb (length ip) 16 && bool_decide (take 12 ip = v4InV6Prefix) then Some (drop 12 ip)
  else None.
Definition To16 (ip : IP) : option IP :=
  if Nat.eqb (length ip) 4 then Some (v4InV6Prefix ++ ip)
  else if Nat.eqb (length ip) 16 then Some ip else None.

(** ** Parsing *)

(** [parseIPv4Fields]: [val] and [digits] of the field so far, the fields
    before it. *)
Fixpoint v4_fields (s : bytes) (val digits : Z) (done : list Z) : option IP :=
  match s with
  | [] => if (digits =? 0) || negb (zlen done =? 3) then None else Some (done ++ [val])
  | c :: s' =>
      let d := byte_val c - 48 in
      if (0 <=? d) && (d <=? 9) then
        if (digits =? 1) && (val =? 0) then None
        else if 255 <? val * 10 + d then None
        else v4_fields s' (val * 10 + d) (digits + 1) done
      else if (c =?b ".") && negb (digits =? 0) && (zlen done <? 3)
      then v4_fields s' 0 0 (done ++ [val])
      else None
  end.

Definition hex_val (c : byte) : option Z :=
  let z := byte_val c in
  if (48 <=? z) && (z <=? 57) then Some (z - 48)
  else if (97 <=? z) && (z <=? 102) then Some (z - 87)
  else if (65 <=? z) && (z <=? 70) then Some (z - 55)
  else None.

(** The hexadecimal digits at the head, at most four. *)
Fixpoint hex_group (s : bytes) (n acc : Z) : option (Z * Z * bytes) :=
  match s with
  | [] => Some (n, acc, [])
  | c :: s' =>
      match hex_val c with
      | None => Some (n, acc, s)
      | Some d => if 3 <? n then None else hex_group s' (n + 1) (acc * 16 + d)
      end
  end.

(** The loop of [parseIPv6]: the bytes so far and where [::] was. *)
Fixpoint v6_loop (fuel : nat) (s : bytes) (out : list Z) (ellipsis : option nat)
  : option (list Z * option nat * bytes) :=
  match fuel with
  | O => Some (out, ellipsis, s)
  | S fuel' =>
      if (16 <=? zlen out) then Some (out, ellipsis, s)
      else match hex_group s 0 0 with
      | None => None
      | Some (n, acc, rest) =>
          if n =? 0 then None
          else match rest with
          | [] => Some (out ++ [acc / 256; acc mod 256], ellipsis, [])
          | c :: after =>
              if c =?b "." then
                match ellipsis, zlen out =? 12 with
                | None, false => None
                | _, _ => if 16 <? zlen out + 4 then None
                          else match v4_fields s 0 0 [] with
                               | Some v4 => Some (out ++ v4, ellipsis, [])
                               | None => None
                               end
                end
              else if negb (c =?b ":") then None
              else
                let out := out ++ [acc / 256; acc mod 256] in
                match after with
                | [] => None
                | c2 :: after2 =>
                    if c2 =?b ":" then
                      match ellipsis, after2 with
                      | Some _, _ => None
                      | None, [] => Some (out, Some (length out), [])
                      | None, _ => v6_loop fuel' after2 out (Some (length out))
                      end
                    else v6_loop fuel' after out ellipsis
                end
          end
      end
  end.

(** What [parseIPv6] does after the loop: nothing may be left, and an ellipsis
    must stand for at least one group. *)
Definition v6_finish (r : option (list Z * option nat * bytes)) : option IP :=
  match r with
  | Some (out, ellipsis, []) =>
      if zlen out <? 16 then
        match ellipsis with
        | None => None
        | Some e => Some (take e out ++ repeat 0 (16 - length out) ++ drop e out)
        end
      else match ellipsis with Some _ => None | None => Some out end
  | _ => None
  end.

Definition parseIPv6 (s : bytes) : option IP :=
  match s with
  | c1 :: c2 :: s' =>
      if (c1 =?b ":") && (c2 =?b ":") then
        match s' with
        | [] => Some (repeat 0 16)
        | _ => v6_finish (v6_loop 8 s' [] (Some 0%nat))
        end
      else v6_finish (v6_loop 8 s [] None)
  | _ => v6_finish (v6_loop 8 s [] None)
  end.

(** [netip.ParseAddr], where a zone is refused: four or sixteen bytes. *)
Fixpoint addr_kind (s : bytes) : option bool :=
  match s with
  | [] => None
  | c :: s' => if c =?b "." then Some true else if c =?b ":" then Some false
               else if c =?b "%" then None else addr_kind s'
  end.
Definition ParseAddr (s : bytes) : option IP :=
  match addr_kind s with
  | Some true => v4_fields s 0 0 []
  | Some false => if existsb (fun c => c =?b "%") s then None else parseIPv6 s
  | None => None
  end.

Definition ParseIP (s : bytes) : option IP := a ← ParseAddr s; To16 a.

(** ** Printing *)

Definition dec (n : Z) : bytes := lit (pretty n).
Definition hex_digit (d : Z) : byte := if d <? 10 then byte_of (48 + d) else byte_of (87 + d).
(** [appendHex]: no leading zeros. *)
Definition hex (x : Z) : bytes :=
  (if 4096 <=? x then [hex_digit (x / 4096)] else []) ++
  (if 256 <=? x then [hex_digit (x / 256 mod 16)] else []) ++
  (if 16 <=? x then [hex_digit (x / 16 mod 16)] else []) ++ [hex_digit (x mod 16)].

Fixpoint groups (ip : IP) : list Z :=
  match ip with a :: b :: l => a * 256 + b :: groups l | _ => [] end.

Fixpoint zero_run (l : list Z) : nat :=
  match l with 0 :: l' => S (zero_run l') | _ => O end.

(** The first longest run of at least two zero groups: its start and end. *)
Fixpoint best_run (i : nat) (l : list Z) (best : nat * nat) : nat * nat :=
  match l with
  | [] => best
  | _ :: l' =>
      let n := zero_run l in
      best_run (S i) l' (if (2 <=? n)%nat && (snd best - fst best <? n)%nat then (i, (i + n)%nat) else best)
  end.

(** The groups from [i] on; [skip] groups of the run are left out. *)
Fixpoint print_groups (i : nat) (skip : nat) (l : list Z) (run : nat * nat) : bytes :=
  match l with
  | [] => []
  | g :: l' =>
      match skip with
      | S k => print_groups (S i) k l' run
      | O =>
          if Nat.eqb i (fst run) && (fst run <? snd run)%nat then
            lit "::" ++ print_groups (S i) (snd run - fst run - 1) l' run
          else (if Nat.eqb i 0 || (Nat.eqb i (snd run) && (fst run <? snd run)%nat) then [] else lit ":") ++ hex g ++
               print_groups (S i) 0 l' run
      end
  end.

Definition IP_String (ip : IP) : bytes :=
  match To4 ip with
  | Some v4 => GoBytes.join (lit ".") (map dec v4)
  | None => let gs := groups ip in print_groups 0 0 gs (best_run 0 gs (0, 0)%nat)
  end.

(** ** Networks *)

Record IPNet := mkNet { n_ip : IP; n_mask : list Z }.

(** [CIDRMask]: [ones] bits of [n] bytes. *)
Fixpoint CIDRMask (ones : Z) (n : nat) : list Z :=
  match n with
  | O => []
  | S n' => if 8 <=? ones then 255 :: CIDRMask (ones - 8) n'
            else (255 - (2 ^ (8 - ones) - 1)) :: CIDRMask 0 n'
  end.

Fixpoint mask_bytes (ip mask : list Z) : list Z :=
  match ip, mask with
  | a :: ip', m :: mask' => Z.land a m :: mask_bytes ip' mask'
  | _, _ => []
  end.

(** [IP.Mask]; both have been brought to the same length. *)
Definition IP_Mask (ip mask : list Z) : IP :=
  let ip := if Nat.eqb (length mask) 4 then match To4 ip with Some v4 => v4 | None => ip end else ip in
  if Nat.eqb (length ip) (length mask) then mask_bytes ip mask else [].

(** [dtoi]: all of a non-empty text, below 0xFFFFFF. *)
Fixpoint dtoi_from (s : bytes) (acc : Z) : option Z :=
  match s with
  | [] => Some acc
  | c :: s' =>
      let d := byte_val c - 48 in
      if (0 <=? d) && (d <=? 9) then
        if 16777215 <=? acc * 10 + d then None else dtoi_from s' (acc * 10 + d)
      else None
  end.
Definition dtoi (s : bytes) : option Z := match s with [] => None | _ => dtoi_from s 0 end.

(** The address as 16 bytes, its network, and the mask's size: ones and bits. *)
Definition ParseCIDR (s : bytes) : option (IP * IPNet * Z * Z) :=
  match cut_byte "/" s with
  | None => None
  | Some (addr, mask) =>
      match ParseAddr addr, dtoi mask with
      | Some a, Some n =>
          let bits := 8 * zlen a in
          if bits <? n then None
          else
            let m := CIDRMask n (length a) in
            match To16 a with
            | Some ip => Some (ip, mkNet (IP_Mask ip m) m, n, bits)
            | None => None
            end
      | _, _ => None
      end
  end.

Definition Contains (n : IPNet) (ip : IP) : bool :=
  let nn := match To4 (n_ip n) with Some v4 => v4 | None => n_ip n end in
  let m := if Nat.eqb (length nn) 4 && Nat.eqb (length (n_mask n)) 16 then drop 12 (n_mask n) else n_mask n in
  let ip := match To4 ip with Some v4 => v4 | None => ip end in
  Nat.eqb (length ip) (length nn) && Nat.eqb (length m) (length nn)
  && bool_decide (mask_bytes nn m = mask_bytes ip m).

(** ** Kinds of addresses *)

Definition at_byte (ip : IP) (i : nat) : Z := nth i ip 0.
(** [IP.Equal]: an IPv4 address equals its 16-byte form. *)
Definition IP_Equal (a b : IP) : bool :=
  if Nat.eqb (length a) (length b) then bool_decide (a = b)
  else if Nat.eqb (length a) 4 && Nat.eqb (length b) 16 then bool_decide (b = v4InV6Prefix ++ a)
  else if Nat.eqb (length a) 16 && Nat.eqb (length b) 4 then bool_decide (a = v4InV6Prefix ++ b)
  else false.
(** A test of the four bytes of an IPv4 address, and one of the sixteen of
    any other. *)
Definition ip_test (ip : IP) (v4 v6 : IP -> bool) : bool :=
  match To4 ip with Some a => v4 a | None => Nat.eqb (length ip) 16 && v6 ip end.

Definition IsLoopback (ip : IP) : bool :=
  match To4 ip with
  | Some v4 => bool_decide (hd 0 v4 = 127)
  | None => bool_decide (ip = repeat 0 15 ++ [1])
  end.

Definition IsLinkLocalUnicast (ip : IP) : bool :=
  ip_test ip (fun a => (at_byte a 0 =? 169) && (at_byte a 1 =? 254))
             (fun a => (at_byte a 0 =? 254) && (Z.land (at_byte a 1) 192 =? 128)).
Definition IsLinkLocalMulticast (ip : IP) : bool :=
  ip_test ip (fun a => (at_byte a 0 =? 224) && (at_byte a 1 =? 0) && (at_byte a 2 =? 0))
             (fun a => (at_byte a 0 =? 255) && (Z.land (at_byte a 1) 15 =? 2)).
Definition IsMulticast (ip : IP) : bool :=
  ip_test ip (fun a => Z.land (at_byte a 0) 240 =? 224) (fun a => at_byte a 0 =? 255).
Definition IsUnspecified (ip : IP) : bool :=
  IP_Equal ip (v4InV6Prefix ++ repeat 0 4) || IP_Equal ip (repeat 0 16).
Definition IsPrivate (ip : IP) : bool :=
  ip_test ip (fun a => (at_byte a 0 =? 10) || ((at_byte a 0 =? 172) && (Z.land (at_byte a 1) 240 =? 16))
                       || ((at_byte a 0 =? 192) && (at_byte a 1 =? 168)))
             (fun a => Z.land (at_byte a 0) 254 =? 252).

(** ** Host and port *)

Fixpoint last_index (c : byte) (s : bytes) (i : nat) (found : option nat) : option nat :=
  match s with
  | [] => found
  | x :: s' => last_index c s' (S i) (if x =?b c then Some i else found)
  end.

Definition has_byte (c : byte) (s : bytes) : bool := existsb (fun x => x =?b c) s.

(** The host; absent on an error. *)
Definition SplitHostPort (s : bytes) : option bytes :=
  match last_index ":" s 0 None with
  | None => None
  | Some i =>
      match s with
      | c :: s' =>
          if c =?b "[" then
            match cut_byte "]" s' with
            | None => None
            | Some (host, after) =>
                if negb (Nat.eqb (length host + 2) i) then None
                else if has_byte "[" s' || has_byte "]" after then None
                else Some host
            end
          else
            let host := take i s in
            if has_byte ":" host || has_byte "[" s || has_byte "]" s then None else Some host
      | [] => None
      end
  end.

(** [net.JoinHostPort]. *)
Definition JoinHostPort (host port : bytes) : bytes :=
  if has_byte ":" host then lit "[" ++ host ++ lit "]:" ++ port else host ++ lit ":" ++ port.

Example parse_print_v6 :
  IP_String <$> ParseIP (lit "2001:DB8:0:0:1:0:0:0001") = Some (lit "2001:db8::1:0:0:1").
Proof. vm_compute. reflexivity. Qed.
Example parse_print_edges :
  (IP_String <$> ParseIP (lit "::")) = Some (lit "::") /\
  (IP_String <$> ParseIP (lit "fe80::")) = Some (lit "fe80::") /\
  (IP_String <$> ParseIP (lit "::1:2")) = Some (lit "::1:2") /\
  (IP_String <$> ParseIP (lit "::ffff:1.2.3.4")) = Some (lit "1.2.3.4") /\
  ParseIP (lit "1.2.3.04") = None /\ ParseIP (lit "1:2:3:4:5:6:7::8:9") = None /\
  SplitHostPort (lit "[::1]:22") = Some (lit "::1") /\ SplitHostPort (lit "::1") = None.
Proof. vm_compute. by split_and!. Qed.

(** ** Printing and parsing agree *)

Definition octet (b : Z) : Prop := 0 <= b < 256.
Definition group (g : Z) : Prop := 0 <= g < 65536.

Lemma forallb_range (P : Z -> bool) n b :
  forallb P (seqZ 0 n) = true -> 0 <= b < n -> P b = true.
Proof.
  intros H Hb. rewrite forallb_forall in H. apply H.
  apply list_elem_of_In, elem_of_seqZ. lia.
Qed.

(** Digits are read up to a byte that is not one. *)
Fixpoint v4_run (l : bytes) (val digits : Z) : option (Z * Z) :=
  match l with
  | [] => Some (val, digits)
  | c :: l' =>
      let d := byte_val c - 48 in
      if negb ((0 <=? d) && (d <=? 9)) then None
      else if (digits =? 1) && (val =? 0) then None
      else if 255 <? val * 10 + d then None
      else v4_run l' (val * 10 + d) (digits + 1)
  end.

Lemma v4_fields_run l : forall rest val digits done v d,
  v4_run l val digits = Some (v, d) -> v4_fields (l ++ rest) val digits done = v4_fields rest v d done.
Proof.
  induction l as [|c l IH]; intros rest val digits done v d H; cbn [v4_run app] in *; [by invc H|].
  cbn [v4_fields]. destruct ((0 <=? byte_val c - 48) && (byte_val c - 48 <=? 9)); [|done].
  cbn [negb] in H. case_match; [done|]. case_match; [done|]. by apply IH.
Qed.

Lemma v4_run_dec b : octet b -> v4_run (dec b) 0 0 = Some (b, zlen (dec b)).
Proof.
  intros Hb. apply (forallb_range (fun b => bool_decide (v4_run (dec b) 0 0 = Some (b, zlen (dec b)))) 256) in Hb.
  - by apply bool_decide_eq_true in Hb.
  - by vm_compute.
Qed.

Lemma dec_length b : octet b -> 0 < zlen (dec b).
Proof.
  intros Hb. apply Z.ltb_lt. apply (forallb_range (fun b => 0 <? zlen (dec b)) 256); [|done]. by vm_compute.
Qed.

Lemma v4_fields_octet b rest done :
  octet b -> (v4_fields (dec b ++ rest) 0 0 done = v4_fields rest b (zlen (dec b)) done).
Proof. intros Hb. apply v4_fields_run, v4_run_dec, Hb. Qed.

Lemma v4_print_parse (ip : IP) :
  length ip = 4%nat -> Forall octet ip -> v4_fields (GoBytes.join (lit ".") (map dec ip)) 0 0 [] = Some ip.
Proof.
  intros Hlen Hf. destruct ip as [|a [|b [|c [|d [|]]]]]; try done.
  apply Forall_cons in Hf as [Ha Hf]. apply Forall_cons in Hf as [Hb Hf].
  apply Forall_cons in Hf as [Hc Hf]. apply Forall_cons in Hf as [Hd _].
  pose proof (dec_length a Ha). pose proof (dec_length b Hb). pose proof (dec_length c Hc). pose proof (dec_length d Hd).
  cbn [map GoBytes.join]. change (lit ".") with ["."%char].
  assert (Hdot : forall rest v k done, 0 < k -> zlen done < 3 ->
            v4_fields ("."%char :: rest) v k done = v4_fields rest 0 0 (done ++ [v])).
  { intros rest v k done Hk Hz. cbn [v4_fields]. change (byte_val ".") with 46. cbn.
    assert ((k =? 0) = false) as -> by lia. cbn. by assert ((zlen done <? 3) = true) as -> by lia. }
  rewrite v4_fields_octet by done. cbn [app]. rewrite Hdot by done. cbn [app].
  rewrite v4_fields_octet by done. cbn [app]. rewrite Hdot by done. cbn [app].
  rewrite v4_fields_octet by done. cbn [app]. rewrite Hdot by done. cbn [app].
  rewrite <- (app_nil_r (dec d)), v4_fields_octet by done.
  cbn [v4_fields]. by assert ((zlen (dec d) =? 0) = false) as -> by lia.
Qed.

(** The same for a group of hexadecimal digits. *)
Fixpoint hex_run (l : bytes) (n acc : Z) : option (Z * Z) :=
  match l with
  | [] => Some (n, acc)
  | c :: l' =>
      match hex_val c with
      | None => None
      | Some d => if (3 <? n) then None else hex_run l' (n + 1) (acc * 16 + d)
      end
  end.

Definition no_hex (rest : bytes) : Prop := match rest with [] => True | c :: _ => hex_val c = None end.

Lemma hex_group_run l : forall rest n acc n' acc', no_hex rest ->
  hex_run l n acc = Some (n', acc') -> hex_group (l ++ rest) n acc = Some (n', acc', rest).
Proof.
  induction l as [|c l IH]; intros rest n acc n' acc' Hr H; cbn [hex_run app] in *.
  - invc H. destruct rest as [|c rest]; cbn in *; [done|]. by rewrite Hr.
  - cbn [hex_group]. destruct (hex_val c); [|done]. case_match; [done|]. by apply IH.
Qed.

Definition hex_ok (g : Z) : bool :=
  bool_decide (hex_run (hex g) 0 0 = Some (zlen (hex g), g)) && (0 <? zlen (hex g)) &&
  forallb (fun c => bool_decide (is_Some (hex_val c))) (hex g).

Lemma hex_val_digit d : 0 <= d < 16 -> hex_val (hex_digit d) = Some d.
Proof.
  intros Hd. apply (forallb_range (fun d => bool_decide (hex_val (hex_digit d) = Some d)) 16) in Hd.
  - by apply bool_decide_eq_true in Hd.
  - by vm_compute.
Qed.

Lemma hex_ok_all g : group g -> hex_ok g = true.
Proof.
  intros [H0 H1]. unfold hex_ok, hex.
  assert (Hd : forall x, hex_val (hex_digit (x mod 16)) = Some (x mod 16)).
  { intros x. apply hex_val_digit. apply Z.mod_pos_bound. lia. }
  assert (0 <= g / 4096 < 16) by (split; [apply Z.div_pos|apply Z.div_lt_upper_bound]; lia).
  assert (E1 : g / 256 = g / 4096 * 16 + g / 256 mod 16).
  { rewrite (Z.div_mod (g / 256) 16) at 1 by lia. rewrite Z.div_div by lia. change (256 * 16) with 4096. ring. }
  assert (E2 : g / 16 = g / 256 * 16 + g / 16 mod 16).
  { rewrite (Z.div_mod (g / 16) 16) at 1 by lia. rewrite Z.div_div by lia. change (16 * 16) with 256. ring. }
  assert (E3 : g = g / 16 * 16 + g mod 16).
  { rewrite (Z.div_mod g 16) at 1 by lia. ring. }
  repeat match goal with |- context [?a <=? ?b] => destruct (Z.leb_spec a b) end; try lia;
    cbn [app hex_run forallb]; rewrite ?Hd; try rewrite (hex_val_digit (g / 4096)) by done; cbn;
    rewrite ?andb_true_r; apply bool_decide_eq_true_2; do 2 f_equal;
    Z.to_euclidean_division_equations; lia.
Qed.

Lemma hex_pos g : group g -> 0 < zlen (hex g).
Proof. intros Hg. pose proof (hex_ok_all g Hg) as H. unfold hex_ok in H. by bsimp. Qed.

Lemma hex_group_hex g rest :
  group g -> no_hex rest -> hex_group (hex g ++ rest) 0 0 = Some (zlen (hex g), g, rest).
Proof.
  intros Hg Hr. apply hex_group_run; [done|]. pose proof (hex_ok_all g Hg) as H. unfold hex_ok in H. by bsimp.
Qed.

Definition sep_hex (l : list Z) : bytes := concat (map (fun g => lit ":" ++ hex g) l).
Definition join_hex (l : list Z) : bytes := match l with [] => [] | g :: l' => hex g ++ sep_hex l' end.
Definition flat (gs : list Z) : list Z := concat (map (fun g => [g / 256; g mod 256]) gs).

Lemma flat_length gs : length (flat gs) = (2 * length gs)%nat.
Proof. unfold flat. induction gs; cbn in *; lia. Qed.
Lemma flat_app a b : flat (a ++ b) = flat a ++ flat b.
Proof. unfold flat. by rewrite map_app, concat_app. Qed.
Lemma flat_zeros n : flat (repeat 0 n) = repeat 0 (2 * n).
Proof.
  unfold flat. induction n as [|n IH]; [done|]. replace (2 * S n)%nat with (S (S (2 * n))) by lia. cbn in *. by rewrite IH.
Qed.
Lemma flat_groups n : forall ip : IP, length ip = (2 * n)%nat -> Forall octet ip ->
  flat (groups ip) = ip /\ length (groups ip) = n /\ Forall group (groups ip).
Proof.
  induction n as [|n IH]; intros ip Hl Hf.
  - destruct ip; [|done]. by split_and!.
  - destruct ip as [|a [|b ip]]; cbn in Hl; try lia.
    apply Forall_cons in Hf as [Ha Hf]. apply Forall_cons in Hf as [Hb Hf].
    destruct (IH ip) as (E & L & F); [lia|done|]. unfold octet, group, flat in *. cbn.
    rewrite E, L. split_and!; [|done|constructor; [lia|done]].
    repeat f_equal; Z.to_euclidean_division_equations; lia.
Qed.

(** The parser on a list of groups: to the end of the text, or to [::]. *)
Lemma colon_no_hex s : no_hex (lit ":" ++ s).
Proof. reflexivity. Qed.

Lemma hex_head g s : group g -> exists c t, hex g ++ s = c :: t /\ (c =?b ":") = false.
Proof.
  intros Hg. pose proof (hex_ok_all g Hg) as H. pose proof (hex_pos g Hg) as Hp. unfold hex_ok in H. bsimp.
  destruct (hex g) as [|c t]; [done|]. exists c, (t ++ s). split; [done|].
  match goal with H : forallb _ _ = true |- _ => cbn in H end. bsimp.
  destruct (c =?b ":") eqn:E; [|done]. apply Ascii.eqb_eq in E as ->. match goal with H : is_Some _ |- _ => by destruct H end.
Qed.

Lemma v6_loop_step fuel g s out e :
  group g -> zlen out < 16 ->
  v6_loop (S fuel) (hex g ++ s) out e =
  match s with
  | [] => Some (out ++ [g / 256; g mod 256], e, [])
  | c :: _ => v6_loop (S fuel) (hex g ++ s) out e
  end.
Proof.
  intros Hg Hz. destruct s; [|done]. cbn [v6_loop].
  assert ((16 <=? zlen out) = false) as -> by lia.
  rewrite hex_group_hex by done. pose proof (hex_pos g Hg). by assert ((zlen (hex g) =? 0) = false) as -> by lia.
Qed.

Lemma v6_loop_colon fuel g s out e :
  group g -> zlen out < 16 ->
  v6_loop (S fuel) (hex g ++ lit ":" ++ s) out e =
  (let out := out ++ [g / 256; g mod 256] in
   match s with
   | [] => None
   | c2 :: after2 =>
       if c2 =?b ":" then
         match e, after2 with
         | Some _, _ => None
         | None, [] => Some (out, Some (length out), [])
         | None, _ => v6_loop fuel after2 out (Some (length out))
         end
       else v6_loop fuel s out e
   end).
Proof.
  intros Hg Hz. cbn [v6_loop]. assert ((16 <=? zlen out) = false) as -> by lia.
  rewrite hex_group_hex by done. pose proof (hex_pos g Hg). by assert ((zlen (hex g) =? 0) = false) as -> by lia.
Qed.

Lemma zlen_flat1 (out : list Z) (g : Z) : zlen (out ++ [g / 256; g mod 256]) = zlen out + 2.
Proof. rewrite zlen_app. reflexivity. Qed.

Lemma v6_loop_end gs : forall fuel out e,
  gs <> [] -> Forall group gs -> (length gs <= fuel)%nat -> zlen out + 2 * zlen gs <= 16 ->
  v6_loop fuel (join_hex gs) out e = Some (out ++ flat gs, e, []).
Proof.
  induction gs as [|g gs IH]; intros fuel out e Hne Hf Hfuel Hz; [done|].
  apply Forall_cons in Hf as [Hg Hf]. rewrite zlen_cons in Hz. pose proof (zlen_nonneg gs).
  destruct fuel as [|fuel]; [cbn in *; lia|]. cbn [join_hex].
  destruct gs as [|g2 gs].
  - cbn [sep_hex concat map]. rewrite v6_loop_step by (done || lia). done.
  - change (sep_hex (g2 :: gs)) with ((lit ":" ++ hex g2) ++ sep_hex gs). rewrite <- app_assoc.
    rewrite v6_loop_colon by (done || lia).
    apply Forall_cons in Hf as [Hg2 Hf'].
    destruct (hex_head g2 (sep_hex gs) Hg2) as (c & t & E & Hc). rewrite E, Hc, <- E. cbn zeta.
    change (hex g2 ++ sep_hex gs) with (join_hex (g2 :: gs)).
    rewrite IH; [by rewrite <- app_assoc|done|by constructor|cbn in *; lia|rewrite zlen_flat1; lia].
Qed.

Lemma v6_loop_gap gs : forall fuel out rest,
  gs <> [] -> Forall group gs -> (length gs <= fuel)%nat -> zlen out + 2 * zlen gs <= 16 ->
  v6_loop fuel (join_hex gs ++ lit "::" ++ rest) out None =
  match rest with
  | [] => Some (out ++ flat gs, Some (length (out ++ flat gs)), [])
  | _ => v6_loop (fuel - length gs) rest (out ++ flat gs) (Some (length (out ++ flat gs)))
  end.
Proof.
  induction gs as [|g gs IH]; intros fuel out rest Hne Hf Hfuel Hz; [done|].
  apply Forall_cons in Hf as [Hg Hf]. rewrite zlen_cons in Hz. pose proof (zlen_nonneg gs).
  destruct fuel as [|fuel]; [cbn in *; lia|]. cbn [join_hex].
  destruct gs as [|g2 gs].
  - cbn [sep_hex concat map]. rewrite app_nil_r. change (lit "::" ++ rest) with (lit ":" ++ lit ":" ++ rest).
    rewrite v6_loop_colon by (done || lia). cbn [length Nat.sub].
    change (lit ":" ++ rest) with (":"%char :: rest). cbn beta iota zeta.
    change ((":"%char =?b ":"%char)) with true. cbn iota.
    change (flat [g]) with [g / 256; g mod 256]. by rewrite Nat.sub_0_r.
  - change (sep_hex (g2 :: gs)) with ((lit ":" ++ hex g2) ++ sep_hex gs). rewrite <- !app_assoc.
    rewrite v6_loop_colon by (done || lia).
    pose proof Hf as Hf0. apply Forall_cons in Hf0 as [Hg2 _].
    destruct (hex_head g2 (sep_hex gs ++ lit "::" ++ rest) Hg2) as (c & t & E & Hc). rewrite E, Hc, <- E. cbn zeta.
    rewrite app_assoc. change (hex g2 ++ sep_hex gs) with (join_hex (g2 :: gs)).
    rewrite IH; [|done|done|cbn in *; lia|rewrite zlen_flat1; lia].
    rewrite <- app_assoc. change ([g / 256; g mod 256] ++ flat (g2 :: gs)) with (flat (g :: g2 :: gs)).
    by replace (S fuel - length (g :: g2 :: gs))%nat with (fuel - length (g2 :: gs))%nat by (cbn; lia).
Qed.

(** The printer writes [join_hex], or [join_hex] around [::]. *)
Lemma print_sep l : forall i run,
  (0 < i)%nat -> (snd run < i)%nat -> (fst run <= snd run)%nat -> print_groups i 0 l run = sep_hex l.
Proof.
  induction l as [|g l IH]; intros i run H0 H1 H2; [done|]. cbn [print_groups].
  assert (Nat.eqb i (fst run) = false) as -> by (apply Nat.eqb_neq; lia).
  assert (Nat.eqb i (snd run) = false) as -> by (apply Nat.eqb_neq; lia).
  assert (Nat.eqb i 0 = false) as -> by (apply Nat.eqb_neq; lia). cbn [andb orb].
  rewrite IH by lia. unfold sep_hex. cbn. by rewrite app_assoc.
Qed.

Lemma print_all l : forall i, print_groups i 0 l (0, 0)%nat = if Nat.eqb i 0 then join_hex l else sep_hex l.
Proof.
  induction l as [|g l IH]; intros i; [by destruct i|]. cbn [print_groups fst snd].
  rewrite Nat.ltb_irrefl, !andb_false_r, orb_false_r. rewrite IH. cbn [Nat.eqb].
  destruct (Nat.eqb i 0); unfold sep_hex; cbn; by rewrite ?app_assoc.
Qed.

Lemma print_skip k : forall i l run, (k <= length l)%nat ->
  print_groups i k l run = print_groups (i + k) 0 (drop k l) run.
Proof.
  induction k as [|k IH]; intros i l run Hk; [by rewrite Nat.add_0_r|].
  destruct l as [|g l]; cbn in Hk; [lia|]. cbn [print_groups drop]. rewrite IH by lia. f_equal. lia.
Qed.

Lemma print_from_run l : forall s e, (s < e)%nat -> (e - s <= length l)%nat ->
  print_groups s 0 l (s, e) = lit "::" ++ join_hex (drop (e - s) l).
Proof.
  intros s e Hse Hl. destruct l as [|g l]; cbn in Hl; [lia|]. cbn [print_groups fst snd].
  rewrite Nat.eqb_refl. assert ((s <? e)%nat = true) as -> by (apply Nat.ltb_lt; lia). cbn [andb].
  rewrite print_skip by lia. f_equal. replace (e - s)%nat with (S (e - s - 1)) at 3 by lia. cbn [drop].
  replace (S s + (e - s - 1))%nat with e by lia.
  destruct (drop (e - s - 1) l) as [|g' l']; [done|]. cbn [print_groups fst snd join_hex].
  assert (Nat.eqb e s = false) as -> by (apply Nat.eqb_neq; lia).
  assert ((s <? e)%nat = true) as -> by (apply Nat.ltb_lt; lia).
  rewrite Nat.eqb_refl, orb_true_r. cbn. f_equal. apply print_sep; cbn; lia.
Qed.

Lemma print_before l : forall i s e, (i <= s)%nat -> (s < e)%nat -> (e - i <= length l)%nat ->
  print_groups i 0 l (s, e) =
  (if Nat.eqb i 0 then join_hex else sep_hex) (take (s - i) l) ++ lit "::" ++ join_hex (drop (e - i) l).
Proof.
  induction l as [|g l IH]; intros i s e Hi Hse Hl; [cbn in Hl; lia|].
  destruct (decide (i = s)) as [->|Hne].
  { rewrite print_from_run by done. rewrite Nat.sub_diag. by destruct (Nat.eqb s 0). }
  cbn [print_groups fst snd]. assert (Nat.eqb i s = false) as -> by (apply Nat.eqb_neq; lia).
  assert (Nat.eqb i e = false) as -> by (apply Nat.eqb_neq; lia). cbn [andb]. rewrite orb_false_r.
  rewrite IH by (cbn in Hl; lia). cbn [Nat.eqb].
  replace (s - i)%nat with (S (s - S i)) by lia. replace (e - i)%nat with (S (e - S i)) by lia. cbn [take drop].
  destruct (Nat.eqb i 0); unfold sep_hex; cbn; by rewrite <- ?app_assoc.
Qed.

(** The run is a run of zeros. *)
Lemma zero_run_spec l : (zero_run l <= length l)%nat /\ take (zero_run l) l = repeat 0 (zero_run l).
Proof.
  induction l as [|g l [IH1 IH2]]; [done|]. cbn [zero_run].
  destruct g; cbn; [|split; [lia|done]..]. rewrite IH2. split; [lia|done].
Qed.

Definition run_ok (gs : list Z) (r : nat * nat) : Prop :=
  r = (0, 0)%nat \/
  (fst r < snd r <= length gs)%nat /\ take (snd r - fst r) (drop (fst r) gs) = repeat 0 (snd r - fst r).

Lemma best_run_ok gs l : forall i best, drop i gs = l -> (i <= length gs)%nat ->
  run_ok gs best -> run_ok gs (best_run i l best).
Proof.
  induction l as [|g l IH]; intros i best Hd Hi Hb; [done|]. cbn [best_run].
  assert (Hlen : length (drop i gs) = (length gs - i)%nat) by apply length_drop.
  assert (S i <= length gs)%nat by (rewrite Hd in Hlen; cbn in Hlen; lia).
  apply IH; [|done|].
  { replace (S i) with (i + 1)%nat by lia. by rewrite <- drop_drop, Hd. }
  case_match eqn:E; [|done]. right. cbn [fst snd]. bsimp.
  match goal with H : (2 <=? _)%nat = true |- _ => apply Nat.leb_le in H end.
  destruct (zero_run_spec (g :: l)) as [Z1 Z2]. rewrite Hd in Hlen.
  split; [lia|]. rewrite Hd. by replace (i + zero_run (g :: l) - i)%nat with (zero_run (g :: l)) by lia.
Qed.

Lemma print_v6 (ip : IP) (gs : list Z) : To4 ip = None -> gs = groups ip -> length gs = 8%nat ->
  IP_String ip = join_hex gs \/
  exists s e, (s < e <= 8)%nat /\ gs = take s gs ++ repeat 0 (e - s) ++ drop e gs /\
    IP_String ip = join_hex (take s gs) ++ lit "::" ++ join_hex (drop e gs).
Proof.
  intros H4 -> Hl. unfold IP_String. rewrite H4. cbn zeta.
  destruct (best_run_ok (groups ip) (groups ip) 0 (0, 0)%nat) as [E|[Hr Hz]]; [done|lia|by left|..].
  - left. by rewrite E, print_all.
  - right. destruct (best_run 0 (groups ip) (0, 0)%nat) as [s e]. cbn [fst snd] in *.
    exists s, e. rewrite Hl in Hr. split; [done|]. split.
    + rewrite <- Hz. rewrite <- (take_drop s (groups ip)) at 1. f_equal.
      rewrite <- (take_drop (e - s) (drop s (groups ip))) at 1. f_equal. rewrite drop_drop. f_equal. lia.
    + rewrite print_before by lia. by rewrite !Nat.sub_0_r.
Qed.

Lemma parseIPv6_head c t : (c =?b ":") = false -> parseIPv6 (c :: t) = v6_finish (v6_loop 8 (c :: t) [] None).
Proof. intros Hc. unfold parseIPv6. rewrite Hc. by destruct t. Qed.

Lemma parseIPv6_all gs : length gs = 8%nat -> Forall group gs -> parseIPv6 (join_hex gs) = Some (flat gs).
Proof.
  intros Hl Hf. destruct gs as [|g gs]; [done|]. pose proof Hf as Hf0. apply Forall_cons in Hf0 as [Hg _].
  destruct (hex_head g (sep_hex gs) Hg) as (c & t & E & Hc).
  change (join_hex (g :: gs)) with (hex g ++ sep_hex gs). rewrite E, parseIPv6_head, <- E by done.
  change (hex g ++ sep_hex gs) with (join_hex (g :: gs)).
  rewrite v6_loop_end; [|done|done|cbn [length] in *; lia|unfold zlen; cbn [length] in *; lia].
  cbn [app v6_finish]. assert ((zlen (flat (g :: gs)) <? 16) = false) as ->; [|done].
  apply Z.ltb_ge. unfold zlen. rewrite flat_length, Hl. done.
Qed.

Lemma finish_gap out e : (length out <= 14)%nat ->
  v6_finish (Some (out, Some e, [])) = Some (take e out ++ repeat 0 (16 - length out) ++ drop e out).
Proof. intros H. cbn [v6_finish]. by assert ((zlen out <? 16) = true) as -> by (apply Z.ltb_lt; unfold zlen; lia). Qed.

Lemma parseIPv6_gap a b : Forall group a -> Forall group b -> (length a + length b <= 7)%nat ->
  parseIPv6 (join_hex a ++ lit "::" ++ join_hex b) = Some (flat a ++ repeat 0 (16 - 2 * (length a + length b)) ++ flat b).
Proof.
  intros Ha Hb Hl.
  assert (Hend : b <> [] -> v6_loop (8 - length a) (join_hex b) (flat a) (Some (length (flat a)))
                            = Some (flat a ++ flat b, Some (length (flat a)), [])).
  { intros Hne. apply v6_loop_end; [done|done|lia|unfold zlen; rewrite flat_length; lia]. }
  assert (Hfin : v6_finish (Some (flat a ++ flat b, Some (length (flat a)), []))
                 = Some (flat a ++ repeat 0 (16 - 2 * (length a + length b)) ++ flat b)).
  { rewrite finish_gap by (rewrite length_app, !flat_length; lia).
    rewrite take_app_length, drop_app_length, length_app, !flat_length.
    by replace (16 - (2 * length a + 2 * length b))%nat with (16 - 2 * (length a + length b))%nat by lia. }
  destruct a as [|g a].
  - cbn [join_hex app flat map concat length Nat.sub Nat.add] in *. change (lit "::") with [":"%char; ":"%char].
    unfold parseIPv6. cbn [app]. change ((":"%char =?b ":"%char)) with true. cbn [andb].
    destruct b as [|g2 b]; [done|]. pose proof Hb as Hb0. apply Forall_cons in Hb0 as [Hg2 _].
    destruct (hex_head g2 (sep_hex b) Hg2) as (c & t & Ec & _).
    rewrite Hend by done. rewrite Hfin. cbn [join_hex]. by rewrite Ec.
  - pose proof Ha as Ha0. apply Forall_cons in Ha0 as [Hg _].
    destruct (hex_head g (sep_hex a ++ lit "::" ++ join_hex b) Hg) as (c & t & Ec & Hc).
    cbn [join_hex] in *. rewrite <- app_assoc, Ec, parseIPv6_head, <- Ec by done. rewrite app_assoc.
    change (hex g ++ sep_hex a) with (join_hex (g :: a)).
    rewrite v6_loop_gap; [|done|done|cbn [length] in *; lia|unfold zlen; cbn [length] in *; lia]. cbn [app].
    destruct b as [|g2 b].
    + cbn [join_hex]. rewrite <- Hfin. cbn [flat map concat]. by rewrite app_nil_r.
    + pose proof Hb as Hb0. apply Forall_cons in Hb0 as [Hg2 _].
      destruct (hex_head g2 (sep_hex b) Hg2) as (c2 & t2 & Ec2 & _).
      rewrite <- Hfin, <- Hend by done. cbn [join_hex]. by rewrite Ec2.
Qed.

(** The bytes that a printed address has. *)
Definition hex_colon (c : byte) : bool := bool_decide (is_Some (hex_val c)) || (c =?b ":").

Lemma join_hex_chars gs : Forall group gs -> forallb hex_colon (join_hex gs) = true.
Proof.
  assert (Hh : forall g, group g -> forallb hex_colon (hex g) = true).
  { intros g Hg. pose proof (hex_ok_all g Hg) as H. unfold hex_ok in H. bsimp.
    apply forallb_forall. intros x Hx. rewrite forallb_forall in *. unfold hex_colon.
    apply orb_true_iff. left. match goal with H : forall x, _ |- _ => by apply H end. }
  assert (Hs : forall l, Forall group l -> forallb hex_colon (sep_hex l) = true).
  { intros l H. induction H as [|g l Hg Hl IH]; [done|]. change (sep_hex (g :: l)) with ((lit ":" ++ hex g) ++ sep_hex l).
    rewrite !forallb_app. by rewrite Hh, IH. }
  intros H. destruct H as [|g l Hg Hl]; [done|]. cbn [join_hex]. by rewrite forallb_app, Hh, Hs.
Qed.

Lemma addr_kind_v6 s : forallb hex_colon s = true -> In ":"%char s ->
  addr_kind s = Some false /\ existsb (fun c => c =?b "%") s = false.
Proof.
  intros Hf Hin. rewrite forallb_forall in Hf. split.
  - induction s as [|c s IH]; [done|]. cbn [addr_kind].
    assert (Hc : hex_colon c = true) by (apply Hf; by left).
    destruct (c =?b ".") eqn:E1; [apply Ascii.eqb_eq in E1; by subst|].
    destruct (c =?b ":") eqn:E2; [done|].
    destruct (c =?b "%") eqn:E3; [apply Ascii.eqb_eq in E3; by subst|].
    destruct Hin as [->|Hin]; [done|]. apply IH; [|done]. intros x Hx. apply Hf. by right.
  - apply not_true_iff_false. intros H. apply existsb_exists in H as (c & Hc & E). apply Ascii.eqb_eq in E as ->.
    by specialize (Hf _ Hc).
Qed.

Lemma v6_text (ip : IP) : length ip = 16%nat -> Forall octet ip -> To4 ip = None ->
  ParseAddr (IP_String ip) = Some ip /\ forallb hex_colon (IP_String ip) = true.
Proof.
  intros Hl Hf H4. destruct (flat_groups 8 ip) as (Hfl & Hg & Hfg); [lia|done|].
  assert (Hx : forallb hex_colon (IP_String ip) = true /\ In ":"%char (IP_String ip) /\ parseIPv6 (IP_String ip) = Some ip).
  { destruct (print_v6 ip (groups ip) H4 eq_refl Hg) as [E|(s & e & Hse & Hgs & E)]; rewrite E.
    - split_and!; [by apply join_hex_chars| |by rewrite parseIPv6_all, Hfl].
      destruct (groups ip) as [|g [|g2 l]]; [done..|]. cbn [join_hex].
      apply in_or_app. right. unfold sep_hex. cbn. by left.
    - assert (Forall group (take s (groups ip)) /\ Forall group (drop e (groups ip))) as [F1 F2]
        by (split; [by apply Forall_take|by apply Forall_drop]).
      split_and!.
      + by rewrite !forallb_app, !join_hex_chars.
      + apply in_or_app. right. by left.
      + rewrite parseIPv6_gap; [|done|done|rewrite length_take, length_drop; lia]. f_equal.
        transitivity (flat (take s (groups ip) ++ repeat 0 (e - s) ++ drop e (groups ip))); [|by rewrite <- Hgs].
        rewrite !flat_app, flat_zeros, length_take, length_drop, Hg.
        by replace (16 - 2 * (s `min` 8 + (8 - e)))%nat with (2 * (e - s))%nat by lia. }
  destruct Hx as (Hc & Hin & Hp). split; [|done]. unfold ParseAddr.
  by destruct (addr_kind_v6 _ Hc Hin) as [-> ->].
Qed.

Lemma To4_Some ip v4 : To4 ip = Some v4 -> length ip = 16%nat -> ip = v4InV6Prefix ++ v4 /\ length v4 = 4%nat.
Proof.
  unfold To4. intros H Hl. rewrite Hl in H. cbn in H. case_match eqn:E; [|done]. invc H.
  apply bool_decide_eq_true in E. split; [|by rewrite length_drop, Hl]. by rewrite <- E, take_drop.
Qed.

Lemma addr_kind_v4 a s : octet a -> addr_kind (dec a ++ "."%char :: s) = Some true.
Proof.
  intros Ha.
  apply (forallb_range (fun a => forallb (fun c => (48 <=? byte_val c) && (byte_val c <? 58)) (dec a)) 256) in Ha; [|by vm_compute].
  induction (dec a) as [|x l IH]; [done|]. cbn [forallb] in Ha. bsimp. cbn [app addr_kind].
  destruct (x =?b ".") eqn:E1; [done|].
  destruct (x =?b ":") eqn:E2; [apply Ascii.eqb_eq in E2; subst x; unfold byte_val in *; cbn in *; lia|].
  destruct (x =?b "%") eqn:E3; [apply Ascii.eqb_eq in E3; subst x; unfold byte_val in *; cbn in *; lia|]. by apply IH.
Qed.

(** Every 16-byte address reads back from its text. *)
Lemma ParseIP_String ip : length ip = 16%nat -> Forall octet ip -> ParseIP (IP_String ip) = Some ip.
Proof.
  intros Hl Hf. destruct (To4 ip) as [v4|] eqn:H4.
  - destruct (To4_Some _ _ H4 Hl) as [-> Hl4]. apply Forall_app in Hf as [_ Hf].
    unfold ParseIP, IP_String. rewrite H4.
    assert (Hp : ParseAddr (GoBytes.join (lit ".") (map dec v4)) = v4_fields (GoBytes.join (lit ".") (map dec v4)) 0 0 []).
    { destruct v4 as [|a [|b [|c [|d [|]]]]]; try done. cbn [map GoBytes.join].
      apply Forall_cons in Hf as [Ha _]. unfold ParseAddr.
      change (lit "." ++ dec b ++ lit "." ++ dec c ++ lit "." ++ dec d) with ("."%char :: (dec b ++ lit "." ++ dec c ++ lit "." ++ dec d)).
      by rewrite addr_kind_v4. }
    rewrite Hp, v4_print_parse by done. cbn. unfold To16. by rewrite Hl4.
  - destruct (v6_text ip Hl Hf H4) as [Hp _]. unfold ParseIP. rewrite Hp. cbn. unfold To16. by rewrite Hl.
Qed.

(** ** Networks *)

Lemma mask_bytes_zip ip m : mask_bytes ip m = zip_with Z.land ip m.
Proof. revert m. induction ip as [|a ip IH]; intros [|b m]; cbn; [done..|]. by rewrite IH. Qed.

Definition mask_ok (m : list Z) : bool :=
  Nat.eqb (length m) 16 && forallb (fun b => (0 <=? b) && (b <? 256)) m &&
  (bool_decide (take 12 m = replicate 12 255) || Z.even (nth 11 m 0)).

Lemma CIDRMask_ok n : 0 <= n < 129 -> mask_ok (CIDRMask n 16) = true.
Proof. intros Hn. apply (forallb_range (fun n => mask_ok (CIDRMask n 16)) 129); [|done]. by vm_compute. Qed.

Lemma octet_land a b : octet a -> octet b -> octet (Z.land a b).
Proof.
  unfold octet. intros Ha Hb. split; [apply Z.land_nonneg; lia|].
  destruct (Z.eq_dec (Z.land a b) 0) as [->|Hne]; [lia|].
  change 256 with (2 ^ 8). apply Z.log2_lt_pow2; [pose proof (Z.land_nonneg a b); lia|].
  pose proof (Z.log2_land a b). assert (Z.log2 a < 8); [|lia].
  destruct (Z.eq_dec a 0) as [->|]; [done|]. apply Z.log2_lt_pow2; lia.
Qed.

Lemma masked ip n (net := IP_Mask ip (CIDRMask n 16)) :
  0 <= n < 129 -> length ip = 16%nat -> Forall octet ip -> To4 ip = None ->
  length net = 16%nat /\ Forall octet net /\ To4 net = None /\ IP_Mask net (CIDRMask n 16) = net.
Proof.
  intros Hn Hl Hf H4. pose proof (CIDRMask_ok n Hn) as Hm. unfold net. set (m := CIDRMask n 16) in *.
  unfold mask_ok in Hm. apply andb_prop in Hm as [Hm Hm12]. apply andb_prop in Hm as [Hml Hmf].
  apply Nat.eqb_eq in Hml.
  assert (Hmask : forall x : IP, length x = 16%nat -> IP_Mask x m = zip_with Z.land x m).
  { intros x Hx. unfold IP_Mask. rewrite Hml. change (Nat.eqb 16 4) with false. cbn iota. rewrite Hx, Nat.eqb_refl.
    apply mask_bytes_zip. }
  rewrite (Hmask ip) by done. set (z := zip_with Z.land ip m).
  assert (Hzl : length z = 16%nat) by (unfold z; rewrite length_zip_with, Hl, Hml; done).
  assert (Hzf : Forall octet z).
  { unfold z. apply Forall_lookup. intros i x Hx. apply lookup_zip_with_Some in Hx as (a & b & -> & Ha & Hb).
    rewrite Forall_lookup in Hf. apply octet_land; [by eapply Hf|]. rewrite forallb_forall in Hmf.
    apply list_elem_of_lookup_2, list_elem_of_In, Hmf in Hb. unfold octet. bsimp. lia. }
  split_and!; [done..| |].
  - destruct (To4 z) as [v4|] eqn:E; [|done]. exfalso.
    destruct (To4_Some _ _ E Hzl) as [Ez _].
    assert (Htake : take 12 z = v4InV6Prefix) by (by rewrite Ez).
    apply orb_prop in Hm12 as [Hm12|Hm12].
    + apply bool_decide_eq_true in Hm12.
      assert (take 12 z = take 12 ip) as E2.
      { unfold z. rewrite zip_with_take, Hm12. apply list_eq. intros i. rewrite lookup_zip_with.
        destruct (take 12 ip !! i) as [a|] eqn:Ea; [|done].
        pose proof Ea as Ha. apply lookup_take_Some in Ha as [Ha Hi].
        rewrite lookup_replicate_2 by lia. cbn. f_equal. rewrite Forall_lookup in Hf. specialize (Hf _ _ Ha).
        change 255 with (Z.ones 8). rewrite Z.land_ones by lia. apply Z.mod_small. exact Hf. }
      unfold To4 in H4. rewrite Hl in H4. cbn [Nat.eqb andb] in H4. rewrite bool_decide_true in H4; [done|].
      by rewrite <- E2.
    + assert (nth 11 z 0 = 255) as E11 by (by rewrite Ez).
      assert (nth 11 z 0 = Z.land (nth 11 ip 0) (nth 11 m 0)) as E12.
      { unfold z. do 12 (destruct ip as [|? ip]; [done|]; destruct m as [|? m]; [done|]). done. }
      rewrite E12 in E11. assert (Z.odd (Z.land (nth 11 ip 0) (nth 11 m 0)) = true) as Ho by (by rewrite E11).
      rewrite <- Z.bit0_odd, Z.land_spec, (Z.bit0_odd (nth 11 m 0)) in Ho.
      rewrite <- Z.negb_odd in Hm12. by destruct (Z.odd (nth 11 m 0)); rewrite ?andb_false_r in Ho.
  - rewrite Hmask by done. unfold z. apply list_eq. intros i. rewrite !lookup_zip_with.
    destruct (ip !! i) as [a|], (m !! i) as [b|]; cbn; try done. by rewrite <- Z.land_assoc, Z.land_diag.
Qed.

Lemma cut_byte_first c s t : existsb (fun x => x =?b c) s = false -> cut_byte c (s ++ c :: t) = Some (s, t).
Proof.
  induction s as [|x s IH]; cbn [existsb app cut_byte]; intros H.
  - by rewrite Ascii.eqb_refl.
  - apply orb_false_iff in H as [Hx H]. rewrite Ascii.eqb_sym in Hx. by rewrite Hx, IH.
Qed.

Lemma no_slash s : forallb hex_colon s = true -> existsb (fun x => x =?b "/") s = false.
Proof.
  intros Hf. apply not_true_iff_false. intros H. apply existsb_exists in H as (c & Hc & E).
  apply Ascii.eqb_eq in E as ->. rewrite forallb_forall in Hf. by specialize (Hf _ Hc).
Qed.

Lemma dtoi_dec n : 0 <= n < 129 -> dtoi (dec n) = Some n.
Proof.
  intros Hn. apply (forallb_range (fun n => bool_decide (dtoi (dec n) = Some n)) 129) in Hn; [|by vm_compute].
  by apply bool_decide_eq_true in Hn.
Qed.

Lemma ParseCIDR_v6 net n :
  0 <= n < 129 -> length net = 16%nat -> Forall octet net -> To4 net = None -> IP_Mask net (CIDRMask n 16) = net ->
  ParseCIDR (IP_String net ++ lit "/" ++ dec n) = Some (net, mkNet net (CIDRMask n 16), n, 128).
Proof.
  intros Hn Hl Hf H4 Hm. destruct (v6_text net Hl Hf H4) as [Hp Hc].
  unfold ParseCIDR. change (lit "/" ++ dec n) with ("/"%char :: dec n).
  rewrite cut_byte_first by by apply no_slash. rewrite Hp, dtoi_dec by done.
  unfold zlen. rewrite Hl. change (8 * Z.of_nat 16) with 128.
  assert ((128 <? n) = false) as -> by lia. unfold To16. rewrite Hl. cbn [Nat.eqb]. by rewrite Hm.
Qed.

(** A parsed address has 16 bytes, all of them in range. *)
Lemma v4_fields_wf s : forall val digits dn ip,
  0 <= val < 256 -> Forall octet dn -> zlen dn <= 3 ->
  v4_fields s val digits dn = Some ip -> length ip = 4%nat /\ Forall octet ip.
Proof.
  induction s as [|c s IH]; intros val digits dn ip Hv Hd Hz H; cbn [v4_fields] in H.
  - case_match eqn:E; [done|]. bsimp. invc H. split; [rewrite length_app; unfold zlen in *; cbn; lia|].
    apply Forall_app. split; [done|]. constructor; [exact Hv|constructor].
  - split_matches_in H; try done; bsimp; eapply IH in H; eauto; try lia.
    + apply Forall_app. split; [done|]. constructor; [exact Hv|constructor].
    + rewrite zlen_app. unfold zlen at 2. cbn. lia.
Qed.

Lemma hex_val_range c d : hex_val c = Some d -> 0 <= d < 16.
Proof. unfold hex_val. intros H. split_matches_in H; invc H; bsimp; lia. Qed.

Lemma hex_group_wf s : forall n acc n' g rest, 0 <= n -> 0 <= acc < 16 ^ n -> (n <= 4) ->
  hex_group s n acc = Some (n', g, rest) -> group g.
Proof.
  assert (Hg : forall n acc, 0 <= n <= 4 -> 0 <= acc < 16 ^ n -> group acc).
  { intros n acc Hn Ha. unfold group. pose proof (Z.pow_le_mono_r 16 n 4 ltac:(lia) ltac:(lia)). lia. }
  induction s as [|c s IH]; intros n acc n' g rest Hn Ha Hn4 H; cbn [hex_group] in H.
  - invc H. by apply (Hg n').
  - destruct (hex_val c) as [d|] eqn:E; [|invc H; by apply (Hg n')].
    case_match eqn:E3; [done|]. bsimp. pose proof (hex_val_range _ _ E).
    apply IH in H; [done|lia| |lia]. rewrite Z.pow_add_r by lia. lia.
Qed.

Lemma group_octets g : group g -> Forall octet [g / 256; g mod 256].
Proof. unfold group, octet. intros H. repeat constructor; Z.to_euclidean_division_equations; lia. Qed.

Definition v6_out (r : list Z * option nat * bytes) : Prop :=
  let '(out, e, _) := r in Forall octet out /\ (length out <= 16)%nat /\
    match e with Some n => (n <= length out)%nat | None => True end.

Lemma v6_loop_wf fuel : forall s out e r,
  v6_out (out, e, []) -> Nat.Even (length out) -> v6_loop fuel s out e = Some r -> v6_out r.
Proof.
  induction fuel as [|fuel IH]; intros s out e r Ho Hev H; cbn [v6_loop] in H.
  { by invc H. }
  destruct (16 <=? zlen out) eqn:E16; [by invc H|]. bsimp.
  destruct (hex_group s 0 0) as [[[n g] rest]|] eqn:Eg; [|done].
  apply hex_group_wf in Eg as Hg; [|lia..]. destruct (n =? 0); [done|].
  pose proof (group_octets g Hg) as Hoct. destruct Ho as (Ho1 & Ho2 & Ho3).
  assert (Hnew : v6_out (out ++ [g / 256; g mod 256], e, []) /\ Nat.Even (length (out ++ [g / 256; g mod 256]))).
  { destruct Hev as [k Hk]. unfold zlen in E16. rewrite length_app. cbn [length].
    split; [split_and!|exists (S k); lia].
    - by apply Forall_app.
    - rewrite length_app. cbn [length]. lia.
    - rewrite length_app. destruct e; [lia|done]. }
  destruct Hnew as [Hnew Hev']. destruct rest as [|c after]; [by invc H|].
  destruct (c =?b ".").
  - assert (H' : (if 16 <? zlen out + 4 then None else match v4_fields s 0 0 [] with
                   | Some v4 => Some (out ++ v4, e, []) | None => None end) = Some r)
      by (destruct e, (zlen out =? 12); done).
    case_match eqn:E4; [done|]. bsimp. destruct (v4_fields s 0 0 []) as [v4|] eqn:Ev; [|done]. invc H'.
    apply v4_fields_wf in Ev as [L4 F4]; [|lia|done|done].
    unfold zlen in E4. unfold v6_out. rewrite length_app, Forall_app. split_and!; [done|done|lia|].
    destruct e; [lia|done].
  - case_match; [done|]. cbn zeta in H. destruct after as [|c2 after2]; [done|]. destruct (c2 =?b ":").
    + destruct e; [done|]. destruct Hnew as (N1 & N2 & _).
      assert (Hself : v6_out (out ++ [g / 256; g mod 256], Some (length (out ++ [g / 256; g mod 256])), [])) by done.
      destruct after2; [by invc H|]. by eapply IH in H.
    + by eapply IH in H.
Qed.

Lemma v6_finish_wf r ip : (forall x, r = Some x -> v6_out x) -> v6_finish r = Some ip ->
  length ip = 16%nat /\ Forall octet ip.
Proof.
  intros Hr H. destruct r as [[[out e] rest]|]; [|done]. destruct (Hr _ eq_refl) as (F & L & E).
  cbn [v6_finish] in H. destruct rest; [|done]. unfold zlen in H.
  destruct (Z.of_nat (length out) <? 16) eqn:Ez; bsimp.
  - destruct e as [k|]; [|done]. invc H. rewrite !length_app, length_take, length_drop, repeat_length. split; [lia|].
    rewrite !Forall_app. split_and!; [by apply Forall_take| |by apply Forall_drop].
    apply Forall_forall. intros x Hx. apply list_elem_of_In, repeat_spec in Hx as ->. unfold octet. lia.
  - destruct e; [done|]. invc H. split; [lia|done].
Qed.

Lemma ParseIP_wf s ip : ParseIP s = Some ip -> length ip = 16%nat /\ Forall octet ip.
Proof.
  unfold ParseIP. intros H. apply bind_Some in H as (a & Ha & H).
  assert (Hw : (length a = 4%nat \/ length a = 16%nat) /\ Forall octet a).
  { unfold ParseAddr in Ha. destruct (addr_kind s) as [[|]|]; [| |done].
    - apply v4_fields_wf in Ha as [? ?]; [by split; [left|]|lia|done|done].
    - case_match; [done|]. unfold parseIPv6 in Ha.
      assert (HN : v6_out ([], None, [])) by (split_and!; [done|cbn; lia|done]).
      assert (HS : v6_out ([], Some 0%nat, [])) by (split_and!; [done|cbn; lia|cbn; lia]).
      assert (Hev : Nat.Even (@length Z [])) by by exists 0%nat.
      assert (Hfin : forall t e, v6_out ([], e, []) -> v6_finish (v6_loop 8 t [] e) = Some a ->
                       (length a = 4%nat \/ length a = 16%nat) /\ Forall octet a).
      { intros t e He Hx. apply v6_finish_wf in Hx as [? ?]; [by split; [right|]|].
        intros x Hx2. by eapply v6_loop_wf in Hx2. }
      split_matches_in Ha; try (by eapply Hfin in Ha).
      invc Ha. split; [by right|]. repeat (constructor; [unfold octet; lia|]). constructor. }
  destruct Hw as [[Hl|Hl] Hf]; unfold To16 in H; rewrite Hl in H; cbn in H; invc H.
  - split; [cbn; lia|]. do 12 (constructor; [unfold octet; lia|]). done.
  - done.
Qed.

(** ** Splitting a joined host and port *)

Definition decimal (c : byte) : bool := (48 <=? byte_val c) && (byte_val c <=? 57).
Lemma last_index_none c s : forall i found, has_byte c s = false -> last_index c s i found = found.
Proof.
  induction s as [|x s IH]; intros i found; [done|]. cbn [has_byte existsb last_index]. intros H. apply orb_false_iff in H as [H1 H2]. rewrite H1. by apply IH.
Qed.
Lemma last_index_at c s t : forall i found, has_byte c t = false -> last_index c (s ++ c :: t) i found = Some (i + length s)%nat.
Proof.
  induction s as [|x s IH]; intros i found Ht; cbn [app last_index length].
  - rewrite last_index_none, Ascii.eqb_refl by done. f_equal. lia.
  - rewrite IH by done. f_equal. lia.
Qed.
Lemma decimal_no c p : forallb decimal p = true -> decimal c = false -> has_byte c p = false.
Proof.
  intros Hp Hc. apply not_true_iff_false. intros H. apply existsb_exists in H as (x & Hx & E). apply Ascii.eqb_eq in E as ->.
  rewrite forallb_forall in Hp. specialize (Hp _ Hx). congruence.
Qed.
(** The address splits into the host that was joined, or that host without
    its brackets. *)
Lemma join_split_host host port h : forallb decimal port = true -> SplitHostPort (JoinHostPort host port) = Some h -> h = host \/ host = lit "[" ++ h ++ lit "]".
Proof.
  intros Hp. pose proof (decimal_no ":" port Hp eq_refl) as Hc. unfold JoinHostPort. destruct (has_byte ":" host) eqn:Eh.
  - assert (Hi : last_index ":" ("["%char :: host ++ lit "]:" ++ port) 0 None = Some (length host + 2)%nat).
    { replace ("["%char :: host ++ lit "]:" ++ port) with (("["%char :: host ++ lit "]") ++ ":"%char :: port) by (cbn [app]; by rewrite <- !app_assoc).
      rewrite last_index_at by done. f_equal. cbn [length]. rewrite length_app. change (length (lit "]")) with 1%nat. lia. }
    change (lit "[" ++ ?r) with ("["%char :: r). unfold SplitHostPort. rewrite Hi. change ("["%char =?b "[") with true. cbv iota.
    destruct (cut_byte "]" _) as [[a after]|] eqn:Ec; [|done]. destruct (Nat.eqb _ _) eqn:El; [|done]. cbn [negb]. destruct (_ || _); [done|]. intros [= <-].
    left. apply Nat.eqb_eq in El. apply cut_byte_spec in Ec as [Ec _]. assert (Hl : length a = length host) by lia.
    by apply app_inj_1 in Ec as [-> _].
  - assert (Hi : last_index ":" (host ++ lit ":" ++ port) 0 None = Some (length host)) by (by apply (last_index_at ":" host port 0 None)).
    unfold SplitHostPort. rewrite Hi. destruct (host ++ lit ":" ++ port) as [|c s'] eqn:Es; [done|]. destruct (c =?b "[") eqn:Eb.
    + apply Ascii.eqb_eq in Eb as ->. destruct (cut_byte "]" s') as [[a after]|] eqn:Ec; [|done]. destruct (Nat.eqb _ _) eqn:El; [|done]. cbn [negb].
      destruct (_ || _); [done|]. intros [= <-]. right. apply Nat.eqb_eq in El. apply cut_byte_spec in Ec as [-> _].
      replace ("["%char :: a ++ "]"%char :: after) with (("["%char :: a ++ lit "]") ++ after) in Es by (cbn [app]; by rewrite <- app_assoc).
      apply app_inj_1 in Es as [-> _]; [done|]. cbn [length]. rewrite length_app. change (length (lit "]")) with 1%nat. lia.
    + destruct (_ || _); [done|]. intros [= <-]. left. rewrite <- Es. by rewrite take_app_length.
Qed.
