(* ===== verification/GoTime.v ===== *)
(** * Go's time values

    The functions of Go's [time] package that the components use: the RFC 3339
    layouts, [ParseDuration] and [Duration.String].  A [time.Time] is the
    number of nanoseconds since its zero value, 1 January of year 1; a
    [time.Duration] is a number of nanoseconds. *)

From S2P Require Import Prelude GoBytes.
From stdpp Require Import pretty.
From Stdlib Require Import SpecFloat.
#[local] Open Scope Z_scope.
#[local] Arguments lit : simpl never.

Definition Microsecond : Z := 1000.
Definition Millisecond : Z := 1000000.
Definition Second : Z := 1000000000.
Definition Minute : Z := 60 * Second.
Definition Hour : Z := 60 * Minute.

(** [Time.Sub]: the difference, saturated to 64 bits. *)
Definition time_sub (t u : Z) : Z := Z.max (- 2 ^ 63) (Z.min (2 ^ 63 - 1) (t - u)).

(** [Time.Unix]: seconds since 1970. *)
Definition Unix (t : Z) : Z := t / Second - 62135596800.

(** ** Layouts *)

(** [Time.Format(time.RFC3339)] in UTC. *)
Definition pad0 (w : nat) (n : Z) : bytes :=
  let s := lit (pretty n) in repeat "0"%char (w - length s) ++ s.

(** Year, month and day. *)
Definition civil (t : Z) : Z * Z * Z :=
  let z := t / 1000000000 / 86400 + 306 in
  let era := z / 146097 in
  let doe := z mod 146097 in
  let yoe := (doe - doe / 1460 + doe / 36524 - doe / 146096) / 365 in
  let doy := doe - (365 * yoe + yoe / 4 - yoe / 100) in
  let mp := (5 * doy + 2) / 153 in
  let d := doy - (153 * mp + 2) / 5 + 1 in
  let m := if mp <? 10 then mp + 3 else mp - 9 in
  (yoe + era * 400 + (if m <=? 2 then 1 else 0), m, d).

Definition date_time (t : Z) : bytes :=
  let '(y, m, d) := civil t in
  let sod := t / 1000000000 mod 86400 in
  pad0 4 y ++ lit "-" ++ pad0 2 m ++ lit "-" ++ pad0 2 d ++ lit "T" ++
  pad0 2 (sod / 3600) ++ lit ":" ++ pad0 2 (sod / 60 mod 60) ++ lit ":" ++ pad0 2 (sod mod 60).

Definition rfc3339 (t : Z) : bytes := date_time t ++ lit "Z".

(** [time.RFC3339Nano]: the fraction without trailing zeros. *)
Definition rfc3339_nano (t : Z) : bytes :=
  let ns := t mod 1000000000 in
  date_time t ++
  (if ns =? 0 then [] else lit "." ++ trim_right_set (fun c => c =?b "0") (pad0 9 ns)) ++ lit "Z".

(** [Time.MarshalJSON] refuses a year outside four digits. *)
Definition year_fits (t : Z) : bool :=
  let '(y, _, _) := civil t in (0 <=? y) && (y <=? 9999).

(** ** Durations *)

Definition is_digit (c : byte) : bool := (48 <=? byte_val c) && (byte_val c <=? 57).

(** [leadingInt]: the value and the rest; absent above [1 << 63]. *)
Fixpoint leadingInt (x : Z) (s : bytes) : option (Z * bytes) :=
  match s with
  | [] => Some (x, [])
  | c :: s' =>
      if is_digit c then
        if 2 ^ 63 / 10 <? x then None
        else let x := x * 10 + (byte_val c - 48) in
             if 2 ^ 63 <? x then None else leadingInt x s'
      else Some (x, s)
  end.

(** [leadingFraction]: the value, the scale and the rest; further digits are
    dropped at an overflow. *)
Fixpoint leadingFraction (x scale : Z) (overflow : bool) (s : bytes) : Z * Z * bytes :=
  match s with
  | [] => (x, scale, [])
  | c :: s' =>
      if is_digit c then
        if overflow then leadingFraction x scale true s'
        else if (2 ^ 63 - 1) / 10 <? x then leadingFraction x scale true s'
        else let y := x * 10 + (byte_val c - 48) in
             if 2 ^ 63 <? y then leadingFraction x scale true s'
             else leadingFraction y (scale * 10) false s'
      else (x, scale, s)
  end.

(** [float64(f) * (float64(unit) / scale)], truncated; the powers of ten that
    [scale] takes are exact. *)
Definition to_float (z : Z) : spec_float := binary_normalize 53 1024 z 0 false.
Definition truncate (f : spec_float) : Z :=
  match f with
  | S754_finite false m e => if e <? 0 then Z.pos m / 2 ^ (- e) else Z.pos m * 2 ^ e
  | _ => 0
  end.
Definition scaled (f unit scale : Z) : Z :=
  truncate (SFmul 53 1024 (to_float f) (SFdiv 53 1024 (to_float unit) (to_float scale))).

(** [unitMap]; the last two spellings of the microsecond are U+00B5 and U+03BC. *)
Definition unitMap (u : bytes) : option Z :=
  if bool_decide (u = lit "ns") then Some 1
  else if bool_decide (u = lit "us") || bool_decide (u = [byte_of 194; byte_of 181; "s"%char])
          || bool_decide (u = [byte_of 206; byte_of 188; "s"%char]) then Some Microsecond
  else if bool_decide (u = lit "ms") then Some Millisecond
  else if bool_decide (u = lit "s") then Some Second
  else if bool_decide (u = lit "m") then Some Minute
  else if bool_decide (u = lit "h") then Some Hour
  else None.

Definition unit_char (c : byte) : bool := negb ((c =?b ".") || is_digit c).
Fixpoint take_unit (s : bytes) : bytes * bytes :=
  match s with
  | c :: s' => if unit_char c then let '(u, r) := take_unit s' in (c :: u, r) else ([], s)
  | [] => ([], [])
  end.

(** One number and its unit. *)
Definition duration_step (s : bytes) : option (Z * bytes) :=
  match s with
  | [] => None
  | c :: _ =>
      if negb ((c =?b ".") || is_digit c) then None
      else match leadingInt 0 s with
      | None => None
      | Some (v, s1) =>
          let pre := negb (Nat.eqb (length s) (length s1)) in
          let '(f, scale, s2, post) :=
            match s1 with
            | d :: s1' => if d =?b "." then
                            let '(f, scale, s2) := leadingFraction 0 1 false s1' in
                            (f, scale, s2, negb (Nat.eqb (length s1') (length s2)))
                          else (0, 1, s1, false)
            | [] => (0, 1, s1, false)
            end in
          if negb (pre || post) then None
          else
            let '(u, rest) := take_unit s2 in
            match u, unitMap u with
            | [], _ => None
            | _, None => None
            | _, Some unit =>
                if 2 ^ 63 / unit <? v then None
                else
                  let v := v * unit + (if 0 <? f then scaled f unit scale else 0) in
                  if 2 ^ 63 <? v then None else Some (v, rest)
            end
      end
  end.

(** The loop of [ParseDuration]: every round takes a byte at least. *)
Fixpoint duration_loop (fuel : nat) (d : Z) (s : bytes) : option Z :=
  match s, fuel with
  | [], _ => Some d
  | _, O => None
  | _, S fuel' =>
      match duration_step s with
      | None => None
      | Some (v, rest) => if 2 ^ 63 <? d + v then None else duration_loop fuel' (d + v) rest
      end
  end.

Definition ParseDuration (s : bytes) : option Z :=
  let '(neg, s) := match s with
                   | c :: s' => if (c =?b "-") || (c =?b "+") then (c =?b "-", s') else (false, s)
                   | [] => (false, s)
                   end in
  if bool_decide (s = lit "0") then Some 0
  else match s with
  | [] => None
  | _ =>
      match duration_loop (length s) 0 s with
      | None => None
      | Some d => if neg then Some (wraps 64 (- d)) else if 2 ^ 63 - 1 <? d then None else Some d
      end
  end.

(** [fmtFrac] and [Duration.String]. *)
Definition fmtFrac (v : Z) (prec : nat) : bytes :=
  let f := v mod 10 ^ Z.of_nat prec in
  if f =? 0 then [] else lit "." ++ trim_right_set (fun c => c =?b "0") (pad0 prec f).

Definition fmtInt (v : Z) : bytes := lit (pretty v).
Definition fmtPart (u : Z) (prec : nat) (suffix : bytes) : bytes :=
  fmtInt (u / 10 ^ Z.of_nat prec) ++ fmtFrac u prec ++ suffix.

Definition Duration_String (d : Z) : bytes :=
  let u := Z.abs d in
  let body :=
    if u =? 0 then lit "0s"
    else if u <? Microsecond then fmtPart u 0 (lit "ns")
    else if u <? Millisecond then fmtPart u 3 ([byte_of 194; byte_of 181] ++ lit "s")
    else if u <? Second then fmtPart u 6 (lit "ms")
    else
      let secs := u / Second in
      (if 3600 <=? secs then fmtInt (secs / 3600) ++ lit "h" else []) ++
      (if 60 <=? secs then fmtInt (secs / 60 mod 60) ++ lit "m" else []) ++
      fmtInt (secs mod 60) ++ fmtFrac u 9 ++ lit "s" in
  (if d <? 0 then lit "-" else []) ++ body.

Example duration_parses :
  map ParseDuration [lit "1h15m30.918s"; lit ".5m"; lit "-1.5h"; lit "0"; lit "1"; lit "2562048h"; lit "+5us"]
  = [Some 4530918000000; Some 30000000000; Some (-5400000000000); Some 0; None; None; Some 5000].
Proof. vm_compute. reflexivity. Qed.
Example duration_prints :
  map Duration_String [600 * Second; Hour; 1500 * Millisecond; 90 * Second + 1; 0; 12345]
  = [lit "10m0s"; lit "1h0m0s"; lit "1.5s"; lit "1m30.000000001s"; lit "0s";
     lit "12.345" ++ [byte_of 194; byte_of 181] ++ lit "s"].
Proof. vm_compute. reflexivity. Qed.
Example layouts :
  rfc3339 63000000000000000000 = lit "1997-05-23T16:00:00Z" /\
  rfc3339_nano 63000000000120000000 = lit "1997-05-23T16:00:00.12Z" /\
  year_fits 63000000000120000000 = true.
Proof. vm_compute. by split_and!. Qed.
