(* ===== verification/GoPath.v ===== *)
(** * Paths of path/filepath on Unix

    [Clean], [Join], [Dir], [Rel] and [IsAbs] on bytes, and the elements of an
    absolute path, by which the theorems speak of one path being below
    another. *)

From S2P Require Import Prelude GoBytes.
#[local] Open Scope Z_scope.

Definition SLASH : byte := "/"%char.
Definition IsAbs (s : bytes) : bool := has_prefix (lit "/") s.

(** The elements of a cleaned path; [acc] holds those before, last first. *)
Fixpoint clean_elems (rooted : bool) (acc l : list bytes) : list bytes :=
  match l with
  | [] => rev acc
  | x :: l' =>
      if bool_decide (x = []) || bool_decide (x = lit ".") then clean_elems rooted acc l'
      else if bool_decide (x = lit "..") then
        match acc with
        | top :: acc' => if bool_decide (top = lit "..") then clean_elems rooted (x :: acc) l' else clean_elems rooted acc' l'
        | [] => clean_elems rooted (if rooted then [] else [x]) l'
        end
      else clean_elems rooted (x :: acc) l'
  end.

Definition elems (s : bytes) : list bytes := clean_elems (IsAbs s) [] (split_byte SLASH s).
Definition abs_path (l : list bytes) : bytes := SLASH :: join [SLASH] l.

Definition Clean (s : bytes) : bytes :=
  if IsAbs s then abs_path (elems s)
  else match elems s with [] => lit "." | l => join [SLASH] l end.

Definition Join (a b : bytes) : bytes :=
  match a, b with
  | [], [] => []
  | [], _ => Clean b
  | _, _ => Clean (a ++ SLASH :: b)
  end.

(** What is left of [s] up to its last slash. *)
Definition dir_part (s : bytes) : bytes := rev (drop_while (fun c => negb (c =?b SLASH)) (rev s)).
Definition Dir (s : bytes) : bytes := Clean (dir_part s).

(** The elements that [Rel] compares. *)
Definition rel_words (s : bytes) : list bytes :=
  if bool_decide (s = lit ".") then [] else if bool_decide (s = [SLASH]) then [[]] else split_byte SLASH s.
Fixpoint strip_common (b t : list bytes) : list bytes * list bytes :=
  match b, t with
  | x :: b', y :: t' => if bool_decide (x = y) then strip_common b' t' else (b, t)
  | _, _ => (b, t)
  end.

Definition Rel (base targ : bytes) : option bytes :=
  let base := Clean base in
  let targ := Clean targ in
  if bool_decide (targ = base) then Some (lit ".")
  else if negb (Bool.eqb (IsAbs base) (IsAbs targ)) then None
  else
    let '(b, t) := strip_common (rel_words base) (if bool_decide (targ = lit ".") then [targ] else rel_words targ) in
    match b, t with
    | [], _ => Some (join [SLASH] t)
    | x :: _, _ :: _ => if bool_decide (x = lit "..") then None
                        else Some (join [SLASH] (map (fun _ => lit "..") b ++ t))
    | _, [] => Some (join [SLASH] (map (fun _ => lit "..") b))
    end.

Example clean_samples :
  map (fun s => Clean (lit s)) [EmptyString; "/"; "a/b/../c"; "/../a//b/./"; "../../x"; "a/.."; "./a"; "/a/../.."]%string
  = map lit ["."; "/"; "a/c"; "/a/b"; "../../x"; "."; "a"; "/"]%string.
Proof. vm_compute. reflexivity. Qed.
Example rel_samples :
  map (fun p => Rel (lit (fst p)) (lit (snd p)))
    [("a/b", "a/b"); ("/a", "/a/b/c"); ("/a/b", "/a/c"); ("/", "/x"); ("/x/y", "/"); ("a", "/a"); (".", "a/b"); ("..", "a");
     ("/ab", "/a"); ("../../a", "../../a/b")]%string
  = [Some (lit "."); Some (lit "b/c"); Some (lit "../c"); Some (lit "x"); Some (lit "../.."); None; Some (lit "a/b"); None;
     Some (lit "../a"); Some (lit "b")].
Proof. vm_compute. reflexivity. Qed.
Example dir_samples : map (fun s => Dir (lit s)) ["/a/b"; "/a"; "/"; "a"; "a/b/"; EmptyString]%string = map lit ["/a"; "/"; "/"; "."; "a/b"; "."]%string.
Proof. vm_compute. reflexivity. Qed.

(** ** Elements *)

(** An element that [Clean] leaves in an absolute path. *)
Record elem (x : bytes) : Prop := {
  el_full : x <> []; el_dot : x <> lit "."; el_dots : x <> lit ".."; el_slash : ~ In SLASH x }.

Lemma clean_elems_rooted l : forall acc, Forall (fun x => ~ In SLASH x) l -> Forall elem acc ->
  Forall elem (clean_elems true acc l).
Proof.
  induction l as [|x l IH]; intros acc Hl Ha; cbn [clean_elems].
  - by apply Forall_rev.
  - apply Forall_cons in Hl as [Hx Hl]. case_bool_decide as E1; [by apply IH|]. case_bool_decide as E2; [by apply IH|].
    cbn [orb]. case_bool_decide as E3.
    + destruct acc as [|top acc]; [by apply IH|]. apply Forall_cons in Ha as [Ht Ha].
      case_bool_decide as E4; [by destruct (el_dots _ Ht)|by apply IH].
    + apply IH; [done|]. constructor; [by split|done].
Qed.

Lemma clean_elems_id rooted l : forall acc, Forall elem l -> clean_elems rooted acc l = rev acc ++ l.
Proof.
  induction l as [|x l IH]; intros acc Hl; cbn [clean_elems]; [by rewrite app_nil_r|].
  apply Forall_cons in Hl as [Hx Hl]. rewrite !bool_decide_false by apply Hx. cbn [orb]. rewrite IH by done.
  cbn [rev]. by rewrite <- app_assoc.
Qed.

Lemma IsAbs_cons s : IsAbs s = true -> exists s', s = SLASH :: s'.
Proof.
  destruct s as [|c s']; [done|]. unfold IsAbs, has_prefix. cbn. intros H. bsimp. exists s'.
  destruct (Ascii.eqb_spec c "/") as [->|Hn]; [done|]. by repeat case_match; bsimp; subst.
Qed.

Lemma split_abs l : Forall elem l -> split_byte SLASH (abs_path l) = [] :: match l with [] => [[]] | _ => l end.
Proof.
  intros Hl. unfold abs_path. cbn [split_byte]. rewrite Ascii.eqb_refl. f_equal. destruct l as [|x l]; [done|].
  apply split_byte_unique; [done|]. eapply Forall_impl; [exact Hl|]. by intros y [].
Qed.

Lemma elems_abs s : IsAbs s = true -> Forall elem (elems s).
Proof. intros H. unfold elems. rewrite H. apply clean_elems_rooted; [apply split_byte_no_sep|done]. Qed.

Lemma elems_abs_path l : Forall elem l -> elems (abs_path l) = l.
Proof.
  intros Hl. unfold elems. change (IsAbs (abs_path l)) with true. rewrite split_abs by done.
  cbn [clean_elems]. rewrite bool_decide_true by done. cbn [orb].
  destruct l as [|x l]; [done|]. by apply clean_elems_id.
Qed.

Lemma Clean_abs s : IsAbs s = true -> Clean s = abs_path (elems s).
Proof. intros H. unfold Clean. by rewrite H. Qed.

Lemma clean_elems_words rooted l : forall acc, Forall (fun x => ~ In SLASH x) l ->
  Forall (fun x => x <> [] /\ ~ In SLASH x) acc -> Forall (fun x => x <> [] /\ ~ In SLASH x) (clean_elems rooted acc l).
Proof.
  induction l as [|x l IH]; intros acc Hl Ha; cbn [clean_elems]; [by apply Forall_rev|].
  apply Forall_cons in Hl as [Hx Hl]. case_bool_decide as E1; [by apply IH|]. cbn [orb]. case_bool_decide; [by apply IH|].
  case_bool_decide as E3; [|apply IH; [done|by constructor]].
  destruct acc as [|top acc]; [apply IH; [done|]; destruct rooted; by repeat constructor|].
  case_bool_decide; apply IH; try done; [by constructor|]. by apply Forall_cons in Ha as [_ Ha].
Qed.

Lemma Clean_IsAbs s : IsAbs (Clean s) = IsAbs s.
Proof.
  destruct (IsAbs s) eqn:E; [by rewrite Clean_abs|]. unfold Clean. rewrite E.
  assert (Hw : Forall (fun x => x <> [] /\ ~ In SLASH x) (elems s)) by (apply clean_elems_words; [apply split_byte_no_sep|done]).
  destruct (elems s) as [|x l]; [done|]. apply Forall_cons in Hw as [[Hx Hn] _]. apply not_true_iff_false. intros H.
  apply IsAbs_cons in H as [r Hr]. destruct x as [|c x]; [done|]. apply Hn. left. destruct l; cbn in Hr; congruence.
Qed.

(** The absolute paths that [Clean] leaves as they are. *)
Definition clean_abs (s : bytes) : Prop := exists l, Forall elem l /\ s = abs_path l.
Lemma Clean_clean s : IsAbs s = true -> clean_abs (Clean s).
Proof. intros H. exists (elems s). split; [by apply elems_abs|by apply Clean_abs]. Qed.
Lemma clean_abs_Clean s : clean_abs s -> Clean s = s /\ IsAbs s = true.
Proof. intros (l & Hl & ->). split; [|done]. rewrite Clean_abs by done. by rewrite elems_abs_path. Qed.
Lemma elems_Clean s : IsAbs s = true -> elems (Clean s) = elems s.
Proof. intros H. rewrite Clean_abs by done. apply elems_abs_path. by apply elems_abs. Qed.
Lemma elems_inj s t : clean_abs s -> clean_abs t -> elems s = elems t -> s = t.
Proof. intros (l & Hl & ->) (k & Hk & ->). rewrite !elems_abs_path by done. by intros ->. Qed.

Lemma clean_elems_app acc l k : clean_elems true acc (l ++ k) = clean_elems true (rev (clean_elems true acc l)) k.
Proof.
  revert acc. induction l as [|x l IH]; intros acc; cbn [clean_elems app]; [by rewrite rev_involutive|].
  case_bool_decide; cbn [orb]; [apply IH|]. case_bool_decide; cbn [orb]; [apply IH|].
  case_bool_decide; [|apply IH]. destruct acc; [apply IH|]. case_bool_decide; apply IH.
Qed.

Lemma split_byte_full c s : split_byte c s <> [].
Proof. destruct s as [|d s]; [done|]. cbn [split_byte]. destruct (c =?b d); [done|]. by destruct (split_byte c s). Qed.

Lemma split_app s t : split_byte SLASH (s ++ SLASH :: t) = split_byte SLASH s ++ split_byte SLASH t.
Proof.
  induction s as [|c s IH]; cbn [app split_byte]; [by rewrite Ascii.eqb_refl|].
  rewrite IH. destruct (SLASH =?b c); [done|]. destruct (split_byte SLASH s) eqn:E; [|done].
  by destruct (split_byte_full SLASH s).
Qed.

(** A clean relative name below a root stays below it. *)
Lemma Join_elem root x : clean_abs root -> elem x -> Join root x = abs_path (elems root ++ [x]).
Proof.
  intros (l & Hl & ->) Hx. rewrite elems_abs_path by done. unfold Join. destruct x as [|c x]; [by destruct (el_full _ Hx)|].
  change (abs_path l) with (SLASH :: join [SLASH] l) at 1. cbn iota. rewrite Clean_abs by done.
  f_equal. unfold elems. change (IsAbs (abs_path l ++ _)) with true. rewrite split_app, clean_elems_app.
  assert (H : clean_elems true [] (split_byte SLASH (abs_path l)) = l) by exact (elems_abs_path l Hl). rewrite H.
  assert (Hs : split_byte SLASH (c :: x) = [c :: x]).
  { apply (split_byte_unique SLASH [c :: x]); [done|]. constructor; [apply Hx|done]. }
  rewrite Hs, clean_elems_id, rev_involutive; [done|]. by constructor.
Qed.

(** ** Relative paths *)

Lemma abs_path_inj l k : Forall elem l -> Forall elem k -> abs_path l = abs_path k -> l = k.
Proof. intros Hl Hk H. apply (f_equal elems) in H. by rewrite !elems_abs_path in H. Qed.

Lemma rel_words_abs l : Forall elem l -> rel_words (abs_path l) = [] :: l.
Proof.
  intros Hl. unfold rel_words. rewrite bool_decide_false by done. case_bool_decide as E.
  - assert (l = []) as ->; [|done]. apply (abs_path_inj l []); [exact Hl|constructor|exact E].
  - rewrite split_abs by done. by destruct l.
Qed.

Lemma strip_common_spec b : forall t b' t', strip_common b t = (b', t') ->
  exists p, b = p ++ b' /\ t = p ++ t' /\ match b', t' with x :: _, y :: _ => x <> y | _, _ => True end.
Proof.
  induction b as [|x b IH]; intros t b' t' H; cbn in H.
  - injection H as <- <-. by exists [].
  - destruct t as [|y t]; [injection H as <- <-; by exists []|]. case_bool_decide as E.
    + subst. apply IH in H as (p & -> & -> & Hd). exists (y :: p). by split_and!.
    + injection H as <- <-. exists []. by split_and!.
Qed.

(** [Rel] of two absolute paths, on their elements. *)
Lemma Rel_abs b t : IsAbs b = true -> IsAbs t = true ->
  exists p b' t', elems b = p ++ b' /\ elems t = p ++ t' /\
    match b', t' with x :: _, y :: _ => x <> y | _, _ => True end /\
    Rel b t = Some (match b', t' with
                    | [], [] => lit "."
                    | _, _ => join [SLASH] (map (fun _ => lit "..") b' ++ t')
                    end).
Proof.
  intros Hb Ht. unfold Rel. rewrite !Clean_abs by done. pose proof (elems_abs b Hb) as Eb. pose proof (elems_abs t Ht) as Et.
  set (lb := elems b) in *. set (lt := elems t) in *. case_bool_decide as E.
  { apply abs_path_inj in E; [|done..]. exists lb, [], []. rewrite app_nil_r. split_and!; [done|done|done|done]. }
  cbn [Bool.eqb IsAbs]. change (negb (Bool.eqb (IsAbs (abs_path lb)) (IsAbs (abs_path lt)))) with false. cbn iota.
  rewrite bool_decide_false by done. rewrite !rel_words_abs by done. cbn [strip_common]. rewrite bool_decide_true by done.
  destruct (strip_common lb lt) as [b' t'] eqn:Es. apply strip_common_spec in Es as (p & E1 & E2 & Hd).
  exists p, b', t'. split_and!; [done|done|done|]. destruct b' as [|x b'].
  - destruct t' as [|y t']; [|done]. rewrite app_nil_r in *. congruence.
  - assert (Hx : elem x). { rewrite E1 in Eb. apply Forall_app in Eb as [_ Eb]. by apply Forall_cons in Eb as [Eb _]. }
    destruct t'; [by rewrite app_nil_r|]. rewrite bool_decide_false by apply Hx. done.
Qed.

(** ** Directories above *)

Lemma drop_while_stop p (s r : bytes) c : forallb p s = true -> p c = false -> drop_while p (s ++ c :: r) = c :: r.
Proof. induction s as [|d s IH]; cbn; intros H Hc; [by rewrite Hc|]. bsimp. rewrite H. by apply IH. Qed.

Lemma clean_elems_snoc rooted l : forall acc, clean_elems rooted acc (l ++ [[]]) = clean_elems rooted acc l.
Proof.
  induction l as [|x l IH]; intros acc; cbn [clean_elems app]; [done|].
  case_bool_decide; cbn [orb]; [apply IH|]. case_bool_decide; cbn [orb]; [apply IH|].
  case_bool_decide; [|apply IH]. destruct acc; [apply IH|]. case_bool_decide; apply IH.
Qed.

Lemma elems_snoc_slash s : s <> [] -> elems (s ++ [SLASH]) = elems s.
Proof.
  intros Hs. destruct s as [|c s]; [done|]. unfold elems. change (IsAbs ((c :: s) ++ [SLASH])) with (IsAbs (c :: s)).
  rewrite split_app. apply clean_elems_snoc.
Qed.

Lemma join_snoc x l : forall y, join [SLASH] (y :: l ++ [x]) = join [SLASH] (y :: l) ++ SLASH :: x.
Proof.
  induction l as [|z l IH]; intros y; [done|].
  change (join [SLASH] (y :: (z :: l) ++ [x])) with (y ++ [SLASH] ++ join [SLASH] (z :: l ++ [x])). rewrite IH.
  change (join [SLASH] (y :: z :: l)) with (y ++ [SLASH] ++ join [SLASH] (z :: l)). by rewrite <- !app_assoc.
Qed.

(** [Dir] of a clean absolute path removes the last element. *)
Lemma Dir_abs l x : Forall elem (l ++ [x]) -> Dir (abs_path (l ++ [x])) = abs_path l.
Proof.
  intros Hl. apply Forall_app in Hl as [Hl Hx]. apply Forall_cons in Hx as [Hx _].
  assert (Hsplit : abs_path (l ++ [x]) = (match l with [] => [] | _ => abs_path l end) ++ SLASH :: x).
  { unfold abs_path. destruct l as [|y l]; [done|]. cbn [app]. f_equal. apply join_snoc. }
  unfold Dir, dir_part. rewrite Hsplit. rewrite rev_app_distr. cbn [rev]. rewrite <- !app_assoc. cbn [app].
  rewrite drop_while_stop; [| |done].
  2: { rewrite forallb_forall. intros c Hc. apply in_rev in Hc. destruct (Ascii.eqb_spec c SLASH) as [->|]; [|done].
       by destruct (el_slash _ Hx). }
  cbn [rev]. rewrite rev_involutive. destruct l as [|y l]; [done|].
  rewrite Clean_abs by done. f_equal. rewrite elems_snoc_slash by done.
  by apply elems_abs_path.
Qed.

Lemma Dir_root : Dir (abs_path []) = abs_path [].
Proof. done. Qed.
