(* ===== verification/SafeFile.v ===== *)
(** * Files opened without following links

    internal/safefile/safefile.go over what the file system answers for one
    path: nothing there, an error, or a file with its kind, permission bits,
    modification time and contents. *)

From S2P Require Import Prelude GoBytes.
#[local] Open Scope Z_scope.

Inductive fileKind := Regular | Symlink | Special.
Record file := mkFile { f_kind : fileKind; f_perm : Z; f_mtime : Z; f_data : bytes }.
(** [Fails] is any error that is not a missing file. *)
Inductive disk := Missing | Fails | Present (f : file).

Inductive fileErr := FNotExist | FIO | ErrSymlink | ErrNotRegular | ErrTooLarge.
#[export] Instance fileErr_eq_dec : EqDecision fileErr.
Proof. solve_decision. Defined.

(** [O_NOFOLLOW] refuses a link; [Fstat] of the descriptor refuses the rest. *)
Definition Open (look : disk) : result fileErr file :=
  match look with
  | Missing => Err FNotExist
  | Fails => Err FIO
  | Present f =>
      match f_kind f with
      | Symlink => Err ErrSymlink
      | Special => Err ErrNotRegular
      | Regular => Ok f
      end
  end.

Definition ReadAll (f : file) (max : Z) : result fileErr bytes :=
  if max <? zlen (f_data f) then Err ErrTooLarge else Ok (f_data f).

(** Nothing but a regular file of at most [max] bytes is ever read. *)
Lemma read_Ok look max f data : Open look = Ok f -> ReadAll f max = Ok data ->
  look = Present f /\ f_kind f = Regular /\ data = f_data f /\ zlen data <= max.
Proof.
  unfold Open, ReadAll. intros H1 H2. destruct look as [| |g]; try done. destruct (f_kind g) eqn:E; try done.
  invc H1. case_match; invc H2. bsimp. done.
Qed.
