(* ===== verification/PasteReader.v ===== *)
(** * The bracketed-paste filter

    [pasteReader] of internal/repl/paste.go sits in front of the line editor.
    Reads of the terminal and expiries of the two timers are the events of
    the model; [crunch], [fill] and [Read] are the code's methods.  The
    section ends with [handlePasteLine], the consumer of the review token. *)

From S2P Require Import Prelude GoBytes.
From stdpp Require Import pretty.
#[local] Open Scope Z_scope.

(** ** Constants and data *)

Definition ESC : byte := ascii_of_nat 27.
Definition LF : byte := ascii_of_nat 10.
Definition CR : byte := ascii_of_nat 13.
Definition TAB : byte := ascii_of_nat 9.

Definition bracketPasteStart : bytes := ESC :: lit "[200~".
Definition bracketPasteEnd : bytes := ESC :: lit "[201~".
Definition pasteHeldPrefix : bytes := lit "[paste held:".
Definition pasteRejectedLine : bytes := lit "[paste rejected]".
Definition maxBracketPaste : Z := Z.shiftl 1 20.
Definition pasteReadSize : Z := 4096.
#[local] Arguments maxBracketPaste : simpl never.
#[local] Arguments pasteReadSize : simpl never.

(** [pasteState]: the held multi-line paste of one REPL. *)
Record pasteState := mkState { text : bytes; lines : Z; reason : string }.

Definition clear_state : pasteState := mkState [] 0 "".

Inductive waitKind := waitNone | waitEscape | waitPaste.

(** [pasteReader], less the underlying reader and the timers, which are the
    event list of [Read]. *)
Record pasteReader := mkReader {
  acc : bytes;
  out : bytes;
  sawEOF : bool;
  collect : bool;
  overflow : bool;
  discarded : Z;
  lastFull : bool;
  state : pasteState
}.

Definition newPasteReader (st : pasteState) : pasteReader :=
  mkReader [] [] false false false 0 false st.

Definition set_acc (a : bytes) (p : pasteReader) : pasteReader :=
  mkReader a (out p) (sawEOF p) (collect p) (overflow p) (discarded p) (lastFull p) (state p).
Definition set_out (o : bytes) (p : pasteReader) : pasteReader :=
  mkReader (acc p) o (sawEOF p) (collect p) (overflow p) (discarded p) (lastFull p) (state p).
Definition set_eof (p : pasteReader) : pasteReader :=
  mkReader (acc p) (out p) true (collect p) (overflow p) (discarded p) (lastFull p) (state p).
Definition set_full (b : bool) (p : pasteReader) : pasteReader :=
  mkReader (acc p) (out p) (sawEOF p) (collect p) (overflow p) (discarded p) b (state p).
Definition set_state (s : pasteState) (p : pasteReader) : pasteReader :=
  mkReader (acc p) (out p) (sawEOF p) (collect p) (overflow p) (discarded p) (lastFull p) s.
(** The three fields that [crunch], [reject] and [finishPaste] reset together. *)
Definition set_collect (c o : bool) (d : Z) (p : pasteReader) : pasteReader :=
  mkReader (acc p) (out p) (sawEOF p) c o d (lastFull p) (state p).

(** ** Operations *)

Definition rejectedOutput : bytes := pasteRejectedLine ++ [LF].

(** [reject]: the bytes it returns and the reader it leaves. *)
Definition reject (why : string) (p : pasteReader) : bytes * pasteReader :=
  (rejectedOutput, set_state (mkState [] 0 why) (set_collect false false 0 p)).

(** [partialBracketSuffix]: the longest proper prefix of the start marker
    that ends [acc]; [n] counts down from the code's [max]. *)
Fixpoint partial_from (n : nat) (a : bytes) : nat :=
  match n with
  | O => O
  | S n' =>
      if bool_decide (drop (length a - n) a = take n bracketPasteStart)
      then n else partial_from n' a
  end.

Definition partialBracketSuffix (a : bytes) : nat :=
  partial_from (Nat.min (length bracketPasteStart - 1) (length a)) a.

(** [pasteControlReason] <> "". *)
Definition control_byte (b : byte) : bool :=
  if Ascii.eqb b TAB || Ascii.eqb b LF || Ascii.eqb b CR then false
  else (byte_val b <? 32) || (byte_val b =? 127).

Definition pasteControlReason (body : bytes) : string :=
  if existsb control_byte body then "paste rejected: control character" else "".

(** [strings.ReplaceAll(body, "\r\n", "\n")], then of ["\r"]. *)
Fixpoint crlf_to_lf (s : bytes) : bytes :=
  match s with
  | [] => []
  | c :: s' =>
      match s' with
      | d :: s'' => if Ascii.eqb c CR && Ascii.eqb d LF then LF :: crlf_to_lf s''
                    else c :: crlf_to_lf s'
      | [] => [c]
      end
  end.

Definition cr_to_lf (s : bytes) : bytes :=
  map (fun c => if Ascii.eqb c CR then LF else c) s.

Definition heldToken (n : Z) : bytes :=
  pasteHeldPrefix ++ lit " " ++ lit (pretty n) ++ lit " lines]".

Definition finishPaste (body : bytes) (p : pasteReader) : bytes * pasteReader :=
  let done s := set_state s (set_collect (collect p) false 0 p) in
  let refuse why := (rejectedOutput, done (mkState [] 0 why)) in
  if overflow p || (maxBracketPaste <? zlen body + discarded p) then
    refuse "paste rejected: too large"%string
  else if negb (String.eqb (pasteControlReason body) "") then
    refuse (pasteControlReason body)
  else
    let txt := cr_to_lf (crlf_to_lf body) in
    if contains pasteHeldPrefix body || contains pasteRejectedLine body
       || contains pasteHeldPrefix txt || contains pasteRejectedLine txt then
      refuse "paste rejected: review token"%string
    else if negb (contains [LF] txt) then (body, done clear_state)
    else
      let txt := trim_suffix [LF] txt in
      match txt with
      | [] => ([], done clear_state)
      | _ =>
          let n := count_byte LF txt + 1 in
          (heldToken n, done (mkState txt n ""))
      end.

(** The [p.collect] branch of [crunch]; [emit] is what the call has emitted
    so far. *)
Definition crunch_collect (emit : bytes) (p : pasteReader) : bytes * waitKind * pasteReader :=
  match index_of bracketPasteEnd (acc p) with
  | Some idx =>
      let body := take idx (acc p) in
      let trailing := (Z.of_nat idx + zlen bracketPasteEnd <? zlen (acc p)) in
      let p1 := set_acc [] (set_collect false (overflow p) (discarded p) p) in
      if trailing || lastFull p then
        let why := if overflow p || (maxBracketPaste <? zlen body + discarded p)
                   then "paste rejected: too large"%string
                   else "paste rejected: data after paste end"%string in
        let '(line, p2) := reject why p1 in (emit ++ line, waitNone, p2)
      else
        let '(line, p2) := finishPaste body p1 in (emit ++ line, waitNone, p2)
  | None =>
      if sawEOF p then
        let '(line, p2) := reject "paste rejected: unclosed" (set_acc [] p) in
        (emit ++ line, waitNone, p2)
      else if overflow p || (maxBracketPaste <? zlen (acc p) + discarded p) then
        let keep := (length bracketPasteEnd - 1)%nat in
        if (keep <? length (acc p))%nat then
          let cut := (length (acc p) - keep)%nat in
          (emit, waitPaste,
            set_acc (drop cut (acc p))
              (set_collect true true (discarded p + Z.of_nat cut) p))
        else (emit, waitPaste, set_collect true true (discarded p) p)
      else (emit, waitPaste, p)
  end.

(** One call of [crunch]: the [continue] after a start marker re-enters the
    loop with [collect] set, whose branch always returns. *)
Definition crunch (p : pasteReader) : bytes * waitKind * pasteReader :=
  if collect p then crunch_collect [] p
  else
    let start := index_of bracketPasteStart (acc p) in
    let plain := match start with Some i => take i (acc p) | None => acc p end in
    if contains bracketPasteEnd plain then
      let '(line, p2) := reject "paste rejected: data after paste end" (set_acc [] p) in
      (line, waitNone, p2)
    else
      match start with
      | Some i =>
          crunch_collect (take i (acc p))
            (set_acc (drop (i + length bracketPasteStart) (acc p))
               (set_collect true false 0 p))
      | None =>
          let n := partialBracketSuffix (acc p) in
          if (0 <? n)%nat then
            let cut := (length (acc p) - n)%nat in
            let held := drop cut (acc p) in
            if sawEOF p then (take cut (acc p) ++ held, waitNone, set_acc [] p)
            else (take cut (acc p), waitEscape, set_acc held p)
          else (acc p, waitNone, set_acc [] p)
      end.

(** What the terminal does next: a read returns (with an error, perhaps), or
    the timer that [wait] armed expires first. *)
Inductive readErr := errEOF | errOther.
Inductive readEvent := EvChunk (b : bytes) (e : option readErr) | EvTimeout.

(** The rest of one iteration of [Read]'s loop after [crunch] returned
    [wait]: [fill] and the handling of its results.  [None] is the error
    return, after which the bytes read with the error stay held.  With
    [waitNone] no timer is armed, so an expiry cannot happen. *)
Definition after_fill (ev : readEvent) (wait : waitKind) (p : pasteReader)
  : option bytes * pasteReader :=
  match ev with
  | EvTimeout =>
      match wait with
      | waitNone => (Some [], p)
      | waitPaste => let '(line, p1) := reject "paste rejected: unclosed" (set_acc [] p) in (Some line, p1)
      | waitEscape => (Some (acc p), set_acc [] p)
      end
  | EvChunk b e =>
      let p1 := set_acc (acc p ++ b) (set_full (zlen b =? pasteReadSize) p) in
      match e with
      | None => (Some [], p1)
      | Some errEOF => (Some [], set_eof p1)
      | Some errOther => (None, p1)
      end
  end.

Inductive readOutcome := Delivered (b : bytes) | ReadEOF | ReadFailed | Blocked.

Definition deliver (cap : nat) (p : pasteReader) : readOutcome * pasteReader :=
  (Delivered (take cap (out p)), set_out (drop cap (out p)) p).

(** [Read] with a buffer of [cap] bytes: the loop runs while [out] is empty,
    and takes one event per iteration.  [Blocked] waits for the terminal. *)
Fixpoint Read (cap : nat) (evs : list readEvent) (p : pasteReader)
  : readOutcome * pasteReader * list readEvent :=
  match out p with
  | _ :: _ => (deliver cap p, evs)
  | [] =>
      let '(emit, wait, p1) := crunch p in
      match emit with
      | _ :: _ => (deliver cap (set_out emit p1), evs)
      | [] =>
          if sawEOF p1 then (ReadEOF, p1, evs)
          else match evs with
          | [] => (Blocked, p1, [])
          | ev :: evs' =>
              match after_fill ev wait p1 with
              | (None, p2) => (ReadFailed, p2, evs')
              | (Some o, p2) => Read cap evs' (set_out o p2)
              end
          end
      end
  end.

(** The line editor reading until [Read] stops delivering: [fuel] calls. *)
Fixpoint readAll (fuel cap : nat) (evs : list readEvent) (p : pasteReader) : bytes :=
  match fuel with
  | O => []
  | S fuel' =>
      match Read cap evs p with
      | (Delivered b, p', evs') => b ++ readAll fuel' cap evs' p'
      | _ => []
      end
  end.

(** ** Abstract behaviour: the bytes produced by a sequence of events,
    without the editor's buffer boundaries. *)
Fixpoint feed (evs : list readEvent) (p : pasteReader) : bytes * pasteReader :=
  let '(emit, wait, p1) := crunch p in
  if sawEOF p1 then (emit, p1)
  else match evs with
  | [] => (emit, p1)
  | ev :: evs' =>
      match after_fill ev wait p1 with
      | (None, _) => (emit, p1)
      | (Some o, p2) => let '(rest, p3) := feed evs' p2 in (emit ++ o ++ rest, p3)
      end
  end.

Definition chunk (b : bytes) : readEvent := EvChunk b None.

(** ** The consumer of the review token *)

(** [strings.Split] by a one-byte separator; the file's uses are newlines. *)
Fixpoint split_on (c : byte) (s : bytes) : list bytes :=
  match s with
  | [] => [[]]
  | d :: s' =>
      if Ascii.eqb c d then [] :: split_on c s'
      else match split_on c s' with
           | x :: l => (d :: x) :: l
           | [] => [[d]]
           end
  end.

(** What [handlePasteLine] does besides changing the state: lines for
    [run.errOut] and [run.out], and the text it hands to [runHeldPaste]. *)
Record pasteAction := mkAction {
  handled : bool;
  errLines : list bytes;
  outLines : list bytes;
  runText : option bytes
}.

Definition notHandled : pasteAction := mkAction false [] [] None.
Definition say (l : bytes) : pasteAction := mkAction true [l] [] None.

Definition writePastePreview (st : pasteState) : list bytes :=
  match text st with
  | [] => [lit "paste: nothing held"]
  | _ =>
      let ls := split_on LF (text st) in
      let limit := if zlen ls <? 20 then zlen ls else 20 in
      (lit "paste held: " ++ lit (pretty (lines st)) ++
       lit " lines. Review, then safepaste run, safepaste show, or safepaste drop.")
      :: map (fun l => lit "  " ++ l) (take (Z.to_nat limit) ls)
      ++ (if 20 <? zlen ls
          then [lit "  ... " ++ lit (pretty (zlen ls - 20)) ++ lit " more lines"] else [])
  end.

Definition safepasteUsage : bytes := lit "safepaste: usage: safepaste show|run|drop".

Definition is_empty (s : bytes) : bool := match s with [] => true | _ => false end.

Definition handlePasteLine (line : bytes) (st : pasteState) : pasteAction * pasteState :=
  if contains pasteRejectedLine line then
    let why := if String.eqb (reason st) "" then "paste rejected"%string else reason st in
    (say (lit why), clear_state)
  else if contains pasteHeldPrefix line then
    (mkAction true (writePastePreview st) [] None, st)
  else
    match fields line with
    | [] => (notHandled, st)
    | f0 :: rest =>
        if negb (bool_decide (f0 = lit "safepaste")) then (notHandled, st)
        else match rest with
        | [f1] =>
            if bool_decide (f1 = lit "show") then
              if is_empty (text st) then (say (lit "safepaste: nothing held"), st)
              else (mkAction true [] [text st] None, st)
            else if bool_decide (f1 = lit "drop") then
              (say (lit "safepaste: dropped"), clear_state)
            else if bool_decide (f1 = lit "run") then
              if is_empty (text st) then (say (lit "safepaste: nothing held"), st)
              else (mkAction true [] [] (Some (text st)), clear_state)
            else (say safepasteUsage, st)
        | _ => (say safepasteUsage, st)
        end
    end.

(** ** Facts about the helpers *)

(** A byte that can stand on an unsubmitted editor line. *)
Definition printable (b : byte) : bool :=
  negb (control_byte b) && negb (Ascii.eqb b LF) && negb (Ascii.eqb b CR).

Lemma partial_from_spec n a :
  (partial_from n a <= n)%nat /\
  drop (length a - partial_from n a) a = take (partial_from n a) bracketPasteStart /\
  (forall k, (partial_from n a < k <= n)%nat ->
     drop (length a - k) a <> take k bracketPasteStart).
Proof.
  induction n as [|n IH]; cbn [partial_from].
  - split; [lia|split; [|lia]]. rewrite Nat.sub_0_r. by rewrite drop_all.
  - case_bool_decide as E.
    + split; [lia|split; [done|lia]].
    + destruct IH as (H1 & H2 & H3). split; [lia|split; [done|]].
      intros k Hk. destruct (decide (k = S n)) as [->|]; [done|]. apply H3. lia.
Qed.

Lemma partial_le a : (partialBracketSuffix a <= 5 /\ partialBracketSuffix a <= length a)%nat.
Proof.
  unfold partialBracketSuffix. change (length bracketPasteStart - 1)%nat with 5%nat.
  pose proof (partial_from_spec (Nat.min 5 (length a)) a) as [H _]. lia.
Qed.

Lemma partial_prefix n :
  (n <= 5)%nat -> partialBracketSuffix (take n bracketPasteStart) = n.
Proof. intros H. do 6 (destruct n as [|n]; [done|]). lia. Qed.

Lemma marker_not_in_short m a :
  (length a < length m)%nat -> contains m a = false.
Proof.
  intros H. apply contains_false. intros u v ->. rewrite !length_app in H. lia.
Qed.

Lemma index_of_short m a : (length a < length m)%nat -> index_of m a = None.
Proof.
  intros H. pose proof (marker_not_in_short m a H) as E.
  unfold contains in E. by destruct (index_of m a).
Qed.

Lemma in_crlf c s : In c (crlf_to_lf s) -> In c s \/ c = LF.
Proof.
  remember (length s) as n eqn:Hn. revert s Hn.
  induction n as [n IH] using (well_founded_induction lt_wf); intros s -> H.
  destruct s as [|a [|b s]]; [tauto|cbn in *; tauto|].
  cbn in H. destruct (_ && _).
  - destruct H as [<-|H]; [tauto|].
    destruct (IH (length s) ltac:(cbn; lia) s eq_refl H); cbn; tauto.
  - destruct H as [<-|H]; [cbn; tauto|].
    destruct (IH (length (b :: s)) ltac:(cbn; lia) (b :: s) eq_refl H); cbn in *; tauto.
Qed.

Lemma crlf_keeps c s : In c s -> c <> CR -> In c (crlf_to_lf s).
Proof.
  remember (length s) as n eqn:Hn. revert s Hn.
  induction n as [n IH] using (well_founded_induction lt_wf); intros s -> H Hc.
  destruct s as [|a [|b s]]; [done|done|].
  assert (Hb : In c (b :: s) -> In c (crlf_to_lf (b :: s)))
    by (intros; apply (IH (length (b :: s)) ltac:(cbn; lia)); done).
  cbn. destruct (Ascii.eqb a CR && Ascii.eqb b LF) eqn:E.
  - bsimp. apply Ascii.eqb_eq in H0, H1; subst.
    destruct H as [<-|[<-|H]]; [done|cbn; tauto|].
    right. apply (IH (length s) ltac:(cbn; lia)); done.
  - destruct H as [<-|H]; [cbn; tauto|]. right. by apply Hb.
Qed.

Lemma crlf_id s : ~ In CR s -> crlf_to_lf s = s.
Proof.
  induction s as [|a [|b s] IH]; intros H; [done|done|].
  cbn [crlf_to_lf]. destruct (Ascii.eqb_spec a CR) as [->|_].
  - destruct H. cbn. tauto.
  - cbn [andb]. f_equal. apply IH. cbn in *. tauto.
Qed.

(** After normalisation a newline is present exactly when the body held a
    line feed or a carriage return. *)
Lemma crlf_cr s : In CR s -> In LF (crlf_to_lf s) \/ In CR (crlf_to_lf s).
Proof.
  remember (length s) as n eqn:Hn. revert s Hn.
  induction n as [n IH] using (well_founded_induction lt_wf); intros s -> H.
  destruct s as [|a [|b s]]; [done|cbn in *; tauto|].
  cbn [crlf_to_lf]. destruct (Ascii.eqb a CR && Ascii.eqb b LF) eqn:E; [cbn; tauto|].
  destruct H as [->|H]; [cbn; tauto|].
  destruct (IH (length (b :: s)) ltac:(cbn; lia) (b :: s) eq_refl H) as [G|G];
    [left|right]; right; exact G.
Qed.

Lemma normalised_newline s :
  In LF s \/ In CR s -> In LF (cr_to_lf (crlf_to_lf s)).
Proof.
  intros H. unfold cr_to_lf. apply in_map_iff.
  assert (In LF (crlf_to_lf s) \/ In CR (crlf_to_lf s)) as [G|G].
  { destruct H as [H|H]; [left; by apply crlf_keeps|by apply crlf_cr]. }
  - by exists LF.
  - by exists CR.
Qed.

Lemma normalised_bytes (P : byte -> Prop) s :
  P LF -> (forall c, In c s -> c <> CR -> P c) ->
  forall c, In c (cr_to_lf (crlf_to_lf s)) -> P c.
Proof.
  intros HLF Hs c H. unfold cr_to_lf in H. apply in_map_iff in H as (d & <- & Hd).
  destruct (Ascii.eqb_spec d CR); [done|].
  apply in_crlf in Hd as [Hd| ->]; [by apply Hs|done].
Qed.

(** ** What [finishPaste] and [crunch] hand to the editor *)

Lemma printable_digits s :
  forallb is_digit_or_minus s = true -> forallb printable s = true.
Proof.
  rewrite !forallb_forall. intros H c Hc. specialize (H c Hc).
  unfold is_digit_or_minus in H. unfold printable, control_byte.
  assert (45 <= byte_val c <= 57) by (bsimp; destruct H; bsimp; lia).
  destruct (Ascii.eqb_spec c TAB) as [->|]; [by vm_compute in H0|].
  destruct (Ascii.eqb_spec c LF) as [->|]; [by vm_compute in H0|].
  destruct (Ascii.eqb_spec c CR) as [->|]; [by vm_compute in H0|].
  cbn [orb]. destruct (_ || _) eqn:E; [|done]. bsimp. destruct E; bsimp; lia.
Qed.

Lemma heldToken_printable n : forallb printable (heldToken n) = true.
Proof.
  unfold heldToken. rewrite !forallb_app.
  rewrite (printable_digits _ (pretty_Z_digits n)). reflexivity.
Qed.

Lemma control_reason_clean body :
  pasteControlReason body = ""%string -> forall b, In b body -> control_byte b = false.
Proof.
  unfold pasteControlReason. destruct (existsb control_byte body) eqn:E; [done|].
  intros _ b Hb. destruct (control_byte b) eqn:Eb; [|done].
  rewrite <- not_true_iff_false, existsb_exists in E. by destruct E; exists b.
Qed.

(** What leaves [finishPaste] cannot submit the editor line, unless it is the
    rejection line. *)
Lemma finishPaste_output body p :
  fst (finishPaste body p) = [] \/
  fst (finishPaste body p) = rejectedOutput \/
  forallb printable (fst (finishPaste body p)) = true.
Proof.
  unfold finishPaste.
  destruct (_ || (maxBracketPaste <? _)); [cbn; tauto|].
  destruct (String.eqb_spec (pasteControlReason body) ""); cbn [negb]; [|cbn; tauto].
  destruct (_ || _ || _ || _); [cbn; tauto|].
  destruct (contains [LF] _) eqn:E; cbn [negb].
  - destruct (trim_suffix _ _); [cbn; tauto|]. right; right. apply heldToken_printable.
  - right; right. cbn [fst]. apply forallb_forall. intros b Hb. unfold printable.
    rewrite (control_reason_clean body) by done.
    assert (Hno : forall c, In c body -> c = LF \/ c = CR -> False).
    { intros c Hc Hor. assert (contains [LF] (cr_to_lf (crlf_to_lf body)) = true); [|congruence].
      apply contains_single, normalised_newline. destruct Hor as [->| ->]; tauto. }
    destruct (Ascii.eqb_spec b LF); [exfalso; eauto|].
    destruct (Ascii.eqb_spec b CR); [exfalso; eauto|]. done.
Qed.

(** The held paste: no control byte but tab and newline, no review token, and
    the line count the token announces. *)
Definition state_ok (s : pasteState) : Prop :=
  (text s = [] /\ lines s = 0) \/
  (text s <> [] /\ reason s = ""%string /\ lines s = count_byte LF (text s) + 1 /\
   (forall b, In b (text s) -> b = LF \/ printable b = true) /\
   contains pasteHeldPrefix (text s) = false /\
   contains pasteRejectedLine (text s) = false).

Lemma finishPaste_state_ok body p : state_ok (state (snd (finishPaste body p))).
Proof.
  unfold finishPaste.
  destruct (_ || (maxBracketPaste <? _)); [by left|].
  destruct (String.eqb_spec (pasteControlReason body) ""); cbn [negb]; [|by left].
  destruct (_ || _ || _ || _) eqn:Etok; [by left|].
  destruct (contains [LF] _) eqn:E; cbn [negb]; [|by left].
  bsimp. set (txt := cr_to_lf (crlf_to_lf body)) in *.
  assert (Hpre : exists t, txt = trim_suffix [LF] txt ++ t).
  { destruct (trim_suffix_spec [LF] txt) as [(t & E1 & ->)|(_ & ->)].
    - by exists [LF].
    - exists []. by rewrite app_nil_r. }
  destruct Hpre as [t Ht].
  destruct (trim_suffix [LF] txt) as [|c cs] eqn:Etrim; [by left|].
  right. cbn [state snd set_state set_collect text lines reason].
  split; [done|split; [done|split; [reflexivity|]]].
  rewrite Ht in *.
  repeat match goal with
  | H : contains _ (_ ++ _) = false |- _ => apply contains_app_false in H as [? _]
  end.
  split; [|split; assumption].
  intros b Hb.
  apply (normalised_bytes (fun b => b = LF \/ printable b = true) body); [tauto| |].
  - intros d Hd Hcr. destruct (Ascii.eqb_spec d LF) as [->|Hlf]; [tauto|]. right.
    unfold printable. rewrite (control_reason_clean body) by done.
    apply Ascii.eqb_neq in Hlf, Hcr. by rewrite Hlf, Hcr.
  - fold txt. rewrite Ht. apply in_app_iff. left. exact Hb.
Qed.

(** Only the plain bytes before a marker, a rejection line or a printable
    token leave [crunch]. *)
Definition marker_free (s : bytes) : Prop :=
  contains bracketPasteStart s = false /\ contains bracketPasteEnd s = false.

Definition safe_tail (fin : bytes) : Prop :=
  fin = [] \/ fin = rejectedOutput \/ forallb printable fin = true.

Lemma crunch_collect_emit emit p :
  exists fin, fst (fst (crunch_collect emit p)) = emit ++ fin /\ safe_tail fin.
Proof.
  unfold crunch_collect, safe_tail. destruct (index_of _ _).
  - destruct (_ || lastFull p); [eexists; split; [reflexivity|tauto]|].
    destruct (finishPaste _ _) as [line p2] eqn:E. exists line. split; [done|].
    pose proof (finishPaste_output (take n (acc p))
      (set_acc [] (set_collect false (overflow p) (discarded p) p))) as H.
    by rewrite E in H.
  - destruct (sawEOF p); [eexists; split; [reflexivity|tauto]|].
    exists []. rewrite app_nil_r. split; [|tauto]. split_matches; done.
Qed.

Lemma index_of_prefix_free m s i :
  (0 < length m)%nat -> index_of m s = Some i -> contains m (take i s) = false.
Proof.
  intros Hm H. apply contains_false. intros u v E.
  pose proof (index_of_length _ _ _ H). apply index_of_Some in H as (Hs & Hj & Hi).
  pose proof (f_equal length E) as El. rewrite !length_app, length_take in El.
  specialize (Hj (length u) ltac:(lia)). rewrite Hs, E in Hj.
  rewrite <- app_assoc, drop_app_length, <- app_assoc in Hj.
  by rewrite has_prefix_app in Hj.
Qed.

Lemma contains_take m n s : contains m s = false -> contains m (take n s) = false.
Proof. intros H. rewrite <- (take_drop n s) in H. by apply contains_app_false in H as [H _]. Qed.

(** Every call of crunch emits a marker-free prefix of the buffered typed
    bytes (nothing while a paste is open) followed by nothing, by the
    rejection line, or by bytes that cannot submit the editor line. *)
Theorem crunch_emit_safe p :
  exists plain fin,
    fst (fst (crunch p)) = plain ++ fin /\
    (exists rest, acc p = plain ++ rest) /\ marker_free plain /\
    (collect p = true -> plain = []) /\ safe_tail fin.
Proof.
  unfold crunch. destruct (collect p) eqn:Ec.
  { destruct (crunch_collect_emit [] p) as (fin & -> & Hf).
    exists [], fin. split_and!; try done; by exists (acc p). }
  assert (Hrej : exists plain fin, rejectedOutput = plain ++ fin /\
    (exists rest, acc p = plain ++ rest) /\ marker_free plain /\
    (false = true -> plain = []) /\ safe_tail fin).
  { exists [], rejectedOutput. split_and!; try done; [by exists (acc p)|].
    unfold safe_tail; tauto. }
  assert (Hplain : forall n, marker_free (take n (acc p)) ->
    exists plain fin, take n (acc p) = plain ++ fin /\
    (exists rest, acc p = plain ++ rest) /\ marker_free plain /\
    (false = true -> plain = []) /\ safe_tail fin).
  { intros n H. exists (take n (acc p)), []. rewrite app_nil_r.
    split_and!; try done; [|by left]. exists (drop n (acc p)). by rewrite take_drop. }
  destruct (index_of bracketPasteStart (acc p)) as [i|] eqn:Ei.
  - destruct (contains bracketPasteEnd (take i (acc p))) eqn:Ee; [exact Hrej|].
    destruct (crunch_collect_emit (take i (acc p))
      (set_acc (drop (i + length bracketPasteStart) (acc p)) (set_collect true false 0 p)))
      as (fin & -> & Hf).
    exists (take i (acc p)), fin. split_and!; try done.
    + exists (drop i (acc p)). by rewrite take_drop.
    + split; [|done]. apply index_of_prefix_free; [cbn; lia|done].
  - destruct (contains bracketPasteEnd (acc p)) eqn:Ee; [exact Hrej|].
    assert (Hs : contains bracketPasteStart (acc p) = false)
      by (unfold contains; by rewrite Ei).
    assert (Hall := Hplain (length (acc p))). rewrite take_ge in Hall by lia.
    destruct (0 <? partialBracketSuffix (acc p))%nat; [destruct (sawEOF p)|];
      cbn [fst]; rewrite ?take_drop; try (apply Hall; done).
    apply Hplain. split; by apply contains_take.
Qed.

(** ** [crunch] is idempotent, and independent of the editor's buffer *)

Lemma finishPaste_frame body p :
  exists s, snd (finishPaste body p) = set_state s (set_collect (collect p) false 0 p).
Proof. unfold finishPaste. split_matches; eexists; reflexivity. Qed.

Lemma crunch_empty p :
  acc p = [] -> collect p = false -> crunch p = ([], waitNone, p).
Proof.
  intros Ha Hc. assert (E : set_acc [] p = p) by (destruct p; cbn in *; by subst).
  unfold crunch. rewrite Hc, Ha. cbn. by rewrite E.
Qed.

Lemma crunch_collect_idem emit p e w p1 :
  collect p = true -> crunch_collect emit p = (e, w, p1) -> crunch p1 = ([], w, p1).
Proof.
  intros Hc. unfold crunch_collect. destruct (index_of _ (acc p)) as [i|] eqn:Ei.
  - destruct (_ || lastFull p).
    + intros [= <- <- <-]. by apply crunch_empty.
    + destruct (finishPaste _ _) as [line p2] eqn:Ef. intros [= <- <- <-].
      match type of Ef with finishPaste ?b ?q = _ => pose proof (finishPaste_frame b q) as [s Hs] end.
      rewrite Ef in Hs. cbn in Hs. rewrite Hs. by apply crunch_empty.
  - destruct (sawEOF p) eqn:Es; [intros [= <- <- <-]; by apply crunch_empty|].
    destruct (overflow p || _) eqn:Eo.
    + destruct (_ <? _)%nat eqn:Ek; intros [= <- <- <-]; unfold crunch, crunch_collect;
        cbn [set_acc set_collect acc overflow sawEOF discarded collect orb].
      * apply Nat.ltb_lt in Ek. cbn in Ek.
        rewrite index_of_short by (rewrite length_drop; cbn; lia). rewrite Es.
        rewrite (proj2 (Nat.ltb_ge _ _)) by (rewrite length_drop; cbn; lia). done.
      * rewrite Ei, Es, Ek. done.
    + intros [= <- <- <-]. unfold crunch, crunch_collect. by rewrite Hc, Ei, Es, Eo.
Qed.

Lemma drop_full {A} (l : list A) n : n = length l -> drop n l = [].
Proof. intros ->. apply drop_all. Qed.

Lemma crunch_idem p e w p1 : crunch p = (e, w, p1) -> crunch p1 = ([], w, p1).
Proof.
  unfold crunch at 1. destruct (collect p) eqn:Ec; [by apply crunch_collect_idem|].
  destruct (contains _ _) eqn:Ee; [intros [= <- <- <-]; by apply crunch_empty|].
  destruct (index_of bracketPasteStart (acc p)) as [i|] eqn:Ei;
    [by apply crunch_collect_idem|].
  pose proof (partial_le (acc p)) as [H5 Hl].
  pose proof (partial_from_spec (Nat.min 5 (length (acc p))) (acc p)) as (_ & Hd & _).
  destruct (0 <? _)%nat eqn:En; [|intros [= <- <- <-]; by apply crunch_empty].
  destruct (sawEOF p) eqn:Es; intros [= <- <- <-]; [by apply crunch_empty|].
  change (Nat.min 5 (length (acc p))) with
    (Nat.min (length bracketPasteStart - 1) (length (acc p))) in Hd.
  fold (partialBracketSuffix (acc p)) in Hd.
  set (n := partialBracketSuffix (acc p)) in *. apply Nat.ltb_lt in En.
  unfold crunch. cbn [set_acc acc collect sawEOF]. rewrite Ec, Hd.
  assert (Hn : length (take n bracketPasteStart) = n) by (rewrite length_take; change (length bracketPasteStart) with 6%nat; lia).
  rewrite index_of_short by (rewrite Hn; change (length bracketPasteStart) with 6%nat; change (length bracketPasteEnd) with 6%nat; lia).
  rewrite marker_not_in_short by (rewrite Hn; change (length bracketPasteStart) with 6%nat; change (length bracketPasteEnd) with 6%nat; lia).
  rewrite partial_prefix by lia. rewrite Hn, Nat.sub_diag, Es.
  rewrite (proj2 (Nat.ltb_lt 0 n)) by lia. done.
Qed.

Lemma finishPaste_out o body p :
  finishPaste body (set_out o p) =
  let '(l, p1) := finishPaste body p in (l, set_out o p1).
Proof.
  unfold finishPaste. cbn [overflow discarded set_out collect].
  destruct (_ || (_ <? _)); [done|]. destruct (negb _); [done|].
  destruct (_ || _ || _ || _); [done|]. destruct (negb _); [done|].
  by destruct (trim_suffix _ _).
Qed.

Lemma crunch_collect_out o emit p :
  crunch_collect emit (set_out o p) =
  let '(e, w, p1) := crunch_collect emit p in (e, w, set_out o p1).
Proof.
  unfold crunch_collect. cbn [acc set_out overflow discarded lastFull sawEOF].
  destruct (index_of _ _).
  - destruct (_ || lastFull p); [done|].
    change (set_acc [] (set_collect false (overflow p) (discarded p) (set_out o p))) with
      (set_out o (set_acc [] (set_collect false (overflow p) (discarded p) p))).
    rewrite finishPaste_out. by destruct (finishPaste _ _).
  - destruct (sawEOF p); [done|]. destruct (overflow p || _); [|done].
    by destruct (_ <? _)%nat.
Qed.

Lemma crunch_out o p :
  crunch (set_out o p) = let '(e, w, p1) := crunch p in (e, w, set_out o p1).
Proof.
  unfold crunch. cbn [acc collect sawEOF set_out].
  destruct (collect p); [apply crunch_collect_out|].
  destruct (contains _ _); [done|].
  destruct (index_of _ _) as [i|].
  - change (set_acc ?a (set_collect ?b ?c ?d (set_out o p))) with
      (set_out o (set_acc a (set_collect b c d p))). apply crunch_collect_out.
  - split_matches; done.
Qed.

Lemma after_fill_out o ev w p :
  after_fill ev w (set_out o p) =
  let '(r, p1) := after_fill ev w p in (r, set_out o p1).
Proof. destruct ev as [b [[]|]|], w; done. Qed.

Lemma feed_out o evs p : fst (feed evs (set_out o p)) = fst (feed evs p).
Proof.
  revert p. induction evs as [|ev evs IH]; intros p; cbn [feed]; rewrite crunch_out;
    destruct (crunch p) as [[e w] p1]; cbn [sawEOF set_out].
  - by destruct (sawEOF p1).
  - destruct (sawEOF p1); [done|]. rewrite after_fill_out.
    destruct (after_fill ev w p1) as [[b|] p2]; [|done].
    specialize (IH p2). destruct (feed evs (set_out o p2)), (feed evs p2). cbn in *. by subst.
Qed.

(** A [crunch] ahead of the next event changes nothing but the emission point. *)
Lemma feed_crunch evs p e w p1 :
  crunch p = (e, w, p1) ->
  feed evs p = (e ++ fst (feed evs p1), snd (feed evs p1)).
Proof.
  intros H. pose proof (crunch_idem _ _ _ _ H) as Hi.
  destruct evs as [|ev evs]; cbn [feed]; rewrite H, Hi; destruct (sawEOF p1); cbn;
    rewrite ?app_nil_r; try done.
  destruct (after_fill ev w p1) as [[b|] p2]; cbn; rewrite ?app_nil_r; [|done].
  by destruct (feed evs p2).
Qed.

(** ** The reader's invariant over a whole session *)

Definition reader_ok (p : pasteReader) : Prop :=
  state_ok (state p) /\ 0 <= discarded p /\ zlen (acc p) <= maxBracketPaste + pasteReadSize.

Definition event_ok (ev : readEvent) : Prop :=
  match ev with EvChunk b _ => zlen b <= pasteReadSize | EvTimeout => True end.

Definition crunched_ok (p : pasteReader) : Prop :=
  state_ok (state p) /\ 0 <= discarded p /\ zlen (acc p) <= maxBracketPaste.

Lemma zlen_le_nat {A} (l : list A) (n : nat) m :
  (length l <= n)%nat -> Z.of_nat n <= m -> zlen l <= m.
Proof. unfold zlen. lia. Qed.

Lemma crunched_ok_intro p :
  state_ok (state p) -> 0 <= discarded p -> (length (acc p) <= 5)%nat -> crunched_ok p.
Proof.
  intros. split; [done|split; [done|]].
  apply (zlen_le_nat _ 5); [done|]. vm_compute. congruence.
Qed.

Lemma crunch_collect_ok emit p :
  state_ok (state p) -> 0 <= discarded p -> crunched_ok (snd (crunch_collect emit p)).
Proof.
  intros Hs Hd. unfold crunch_collect.
  destruct (index_of _ _) as [i|].
  - destruct (_ || lastFull p); [apply crunched_ok_intro; cbn; [by left|lia|lia]|].
    match goal with |- context [finishPaste ?b ?q] =>
      pose proof (finishPaste_state_ok b q); pose proof (finishPaste_frame b q) as [s Hf];
      destruct (finishPaste b q) as [line p2]
    end. cbn in *. subst p2. apply crunched_ok_intro; cbn; [done|lia|lia].
  - destruct (sawEOF p); [apply crunched_ok_intro; cbn; [by left|lia|lia]|].
    destruct (overflow p || _) eqn:Eo.
    + change (length bracketPasteEnd - 1)%nat with 5%nat.
      destruct (5 <? length (acc p))%nat eqn:Ek; cbn [snd]; apply crunched_ok_intro;
        cbn [set_acc set_collect state discarded acc]; try done; try lia.
      * rewrite length_drop. apply Nat.ltb_lt in Ek. lia.
      * apply Nat.ltb_ge in Ek. lia.
    + bsimp. split; [done|split; [done|cbn; lia]].
Qed.

Lemma crunch_ok p : reader_ok p -> crunched_ok (snd (crunch p)).
Proof.
  intros (Hs & Hd & _). unfold crunch.
  destruct (collect p); [by apply crunch_collect_ok|].
  destruct (contains _ _); [apply crunched_ok_intro; cbn; [by left|lia|lia]|].
  destruct (index_of _ _); [apply crunch_collect_ok; [done|cbn; lia]|].
  pose proof (partial_le (acc p)) as [H5 _].
  destruct (0 <? _)%nat; [destruct (sawEOF p)|]; cbn [snd]; apply crunched_ok_intro;
    try done; cbn [set_acc acc length]; rewrite ?length_drop; lia.
Qed.

Lemma after_fill_ok ev w p o p2 :
  crunched_ok p -> event_ok ev -> after_fill ev w p = (Some o, p2) -> reader_ok p2.
Proof.
  intros (Hs & Hd & Ha) He. unfold after_fill.
  assert (0 <= maxBracketPaste + pasteReadSize) by (vm_compute; congruence).
  destruct ev as [b [[]|]|]; cbn in He.
  - intros [= <- <-]. repeat split; cbn; [done|done|]. rewrite zlen_app. lia.
  - done.
  - intros [= <- <-]. repeat split; cbn; [done|done|]. rewrite zlen_app. lia.
  - destruct w; intros [= <- <-]; repeat split; cbn; try done; try lia; [|by left].
    unfold pasteReadSize. lia.
Qed.

(** Over any sequence of reads and timer expiries the held paste stays well
    formed (no control byte but newline and tab, no review token, the
    announced line count) and an open paste buffers at most maxBracketPaste
    bytes. *)
Theorem paste_reader_invariant evs p :
  reader_ok p -> Forall event_ok evs -> crunched_ok (snd (feed evs p)).
Proof.
  revert p. induction evs as [|ev evs IH]; intros p Hp He; cbn [feed];
    pose proof (crunch_ok p Hp) as Hc; destruct (crunch p) as [[e w] p1]; cbn in Hc.
  - by destruct (sawEOF p1).
  - inversion He; subst. destruct (sawEOF p1); [done|].
    destruct (after_fill ev w p1) as [[o|] p2] eqn:Ea; [|done].
    specialize (IH p2 (after_fill_ok _ _ _ _ _ Hc H1 Ea) H2). by destruct (feed evs p2).
Qed.

Lemma paste_reader_invariant_witness :
  reader_ok (newPasteReader clear_state) /\
  crunched_ok (snd (feed [chunk (lit "a"); EvTimeout] (newPasteReader clear_state))).
Proof.
  assert (H : reader_ok (newPasteReader clear_state)).
  { split_and!; [by left|vm_compute; congruence|vm_compute; congruence]. }
  split; [exact H|]. apply (paste_reader_invariant [chunk (lit "a"); EvTimeout] _ H).
  repeat constructor. vm_compute; congruence.
Defined.

(** ** [Read] delivers exactly the bytes of [feed] *)

Lemma Read_step cap evs p :
  (0 < cap)%nat ->
  match Read cap evs p with
  | (Delivered b, p', evs') =>
      b <> [] /\ out p ++ fst (feed evs p) = b ++ out p' ++ fst (feed evs' p')
  | _ => out p ++ fst (feed evs p) = []
  end.
Proof.
  intros Hcap. revert p. induction evs as [|ev evs IH]; intros p.
  all: cbn [Read]; destruct (out p) as [|c cs] eqn:Eo;
    [|cbn -[feed]; rewrite feed_out, Eo; split; [by destruct cap; [lia|]|];
      rewrite !app_assoc, take_drop; done].
  all: destruct (crunch p) as [[e w] p1] eqn:Ec.
  all: destruct e as [|c cs];
    [|cbn -[feed]; rewrite (feed_crunch _ _ _ _ _ Ec), !feed_out; cbn [fst];
      split; [by destruct cap; [lia|]|]; rewrite !app_assoc, take_drop; done].
  all: cbn [feed]; rewrite Ec; destruct (sawEOF p1); [done|].
  { done. }
  destruct (after_fill ev w p1) as [[o|] p2]; [|done].
  specialize (IH (set_out o p2)). rewrite feed_out in IH. cbn [out set_out] in IH.
  destruct (feed evs p2) as [r p3]. cbn [fst app] in *.
  destruct (Read cap evs (set_out o p2)) as [[[]]]; done.
Qed.

(** C38: An editor that reads with any non-empty buffer until Read stops
    delivering gets exactly the bytes of the unbuffered event semantics. *)
Theorem Read_refines_feed fuel cap evs p :
  (0 < cap)%nat -> (length (out p ++ fst (feed evs p)) < fuel)%nat ->
  readAll fuel cap evs p = out p ++ fst (feed evs p).
Proof.
  intros Hcap. revert evs p. induction fuel as [|fuel IH]; intros evs p Hf; [lia|].
  cbn [readAll]. pose proof (Read_step cap evs p Hcap) as H.
  destruct (Read cap evs p) as [[[b| | |] p'] evs']; [|done..].
  destruct H as [Hb H]. rewrite H in *. f_equal. apply IH.
  destruct b; [done|]. rewrite length_app in Hf. cbn [length] in Hf. lia.
Qed.

Definition exampleEvents : list readEvent :=
  [chunk (lit "ab" ++ take 3 bracketPasteStart);
   chunk (drop 3 bracketPasteStart ++ lit "x" ++ [LF] ++ lit "y");
   chunk bracketPasteEnd].

Lemma Read_refines_feed_witness :
  readAll 50 1 exampleEvents (newPasteReader clear_state) = lit "ab[paste held: 2 lines]".
Proof.
  rewrite (Read_refines_feed 50 1 exampleEvents (newPasteReader clear_state));
    [vm_compute; reflexivity|lia|vm_compute; lia].
Defined.

(** ** How a paste arrives does not matter *)

Definition small_chunk (b : bytes) : Prop := b <> [] /\ zlen b < pasteReadSize.

(** The end marker ends the received bytes and occurs nowhere before. *)
Definition ends_once (w : bytes) : Prop :=
  exists body, w = body ++ bracketPasteEnd /\ index_of bracketPasteEnd w = Some (length body).

Lemma index_of_app_r m u v i :
  index_of m (u ++ v) = Some (length u + i)%nat -> index_of m v = Some i.
Proof.
  intros H. pose proof (index_of_at _ _ _ H) as Ha. rewrite drop_app_shift in Ha.
  apply index_of_unique; [done|]. intros j Hj. apply index_of_Some in H as (_ & H & _).
  specialize (H (length u + j)%nat ltac:(lia)). by rewrite drop_app_shift in H.
Qed.

Lemma ends_once_tail u v :
  ends_once (u ++ v) -> (6 <= length v)%nat ->
  exists b, v = b ++ bracketPasteEnd /\ index_of bracketPasteEnd v = Some (length b).
Proof.
  intros (body & E & Hi) Hv.
  assert (Hl : (length body = length u + (length v - 6))%nat).
  { apply (f_equal length) in E. rewrite !length_app in E. cbn in E. lia. }
  rewrite Hl in Hi. apply index_of_app_r in Hi. exists (take (length v - 6) v).
  rewrite length_take. replace (_ `min` _)%nat with (length v - 6)%nat by lia.
  split; [|done]. destruct (index_of_Some _ _ _ Hi) as (H1 & _ & _).
  change (length bracketPasteEnd) with 6%nat in H1.
  replace (drop (length v - 6 + 6) v) with (@nil ascii) in H1 by (symmetry; apply drop_ge; lia).
  by rewrite app_nil_r in H1.
Qed.

Lemma ends_once_prefix u v t :
  ends_once (u ++ v ++ t) -> t <> [] -> index_of bracketPasteEnd v = None.
Proof.
  intros (body & E & Hi) Ht. apply index_of_None_iff. intros x y ->.
  destruct (index_of_Some _ _ _ Hi) as (_ & Hj & _).
  assert (Hlt : (length (u ++ x) < length body)%nat).
  { apply (f_equal length) in E. rewrite !length_app in E. rewrite length_app.
    destruct t; [done|]. cbn [length] in E. lia. }
  specialize (Hj _ Hlt). revert Hj.
  replace (u ++ (x ++ bracketPasteEnd ++ y) ++ t)
    with ((u ++ x) ++ bracketPasteEnd ++ y ++ t) by (by rewrite <- !app_assoc).
  by rewrite drop_app_length, has_prefix_app.
Qed.

(** The reader inside an open paste after receiving [r] of it. *)
Definition collecting (st : pasteState) (r : bytes) (p : pasteReader) : Prop :=
  collect p = true /\ sawEOF p = false /\ lastFull p = false /\ state p = st /\ out p = [] /\
  ((overflow p = false /\ discarded p = 0 /\ acc p = r) \/
   (overflow p = true /\ maxBracketPaste < zlen r /\ 0 <= discarded p /\
    exists u, r = u ++ acc p /\ (5 <= length (acc p))%nat)).

Lemma finishPaste_final body p :
  collect p = false ->
  finishPaste body p = finishPaste body (set_collect false (overflow p) (discarded p) p).
Proof. intros H. destruct p; cbn in *. by subst. Qed.

Lemma finishPaste_overflow body p :
  overflow p = true \/ maxBracketPaste < zlen body + discarded p ->
  finishPaste body p =
  (rejectedOutput, set_state (mkState [] 0 "paste rejected: too large")
                     (set_collect (collect p) false 0 p)).
Proof.
  intros H. unfold finishPaste.
  replace (overflow p || _) with true; [done|]. symmetry. apply orb_true_iff.
  rewrite Z.ltb_lt. tauto.
Qed.

Lemma crunch_collecting_open st r p t :
  collecting st r p -> ends_once (r ++ t) -> t <> [] ->
  exists p', crunch p = ([], waitPaste, p') /\ collecting st r p'.
Proof.
  intros (Hc & He & Hf & Hs & Ho & Hacc) Honce Ht.
  assert (Hnone : index_of bracketPasteEnd (acc p) = None).
  { destruct Hacc as [(_ & _ & ->)|(_ & _ & _ & u & Hu & _)].
    - by apply (ends_once_prefix [] r t).
    - apply (ends_once_prefix u (acc p) t); [|done]. by rewrite app_assoc, <- Hu. }
  unfold crunch, crunch_collect. rewrite Hc, Hnone, He.
  change (length bracketPasteEnd - 1)%nat with 5%nat.
  destruct (overflow p || _) eqn:Eo.
  - assert (Hbig : maxBracketPaste < zlen r).
    { destruct Hacc as [(E1 & E2 & E3)|(_ & H & _)]; [|done]. rewrite E1, E2, E3 in Eo.
      cbn [orb] in Eo. bsimp. lia. }
    assert (H5 : (5 <= length (acc p))%nat).
    { destruct Hacc as [(_ & _ & ->)|(_ & _ & _ & u & _ & H)]; [|done].
      unfold zlen in Hbig. assert (5 < maxBracketPaste) by reflexivity. lia. }
    assert (Hd : 0 <= discarded p) by (destruct Hacc as [(_ & -> & _)|(_ & _ & H & _)]; lia).
    assert (Hsuf : exists u, r = u ++ acc p).
    { destruct Hacc as [(_ & _ & ->)|(_ & _ & _ & u & Hu & _)]; [by exists []|by exists u]. }
    destruct Hsuf as [u Hu].
    destruct (5 <? length (acc p))%nat eqn:E5; eexists; (split; [reflexivity|]);
      repeat (split; [done|]); right; cbn [overflow discarded acc set_acc set_collect];
      split_and!; try done; try lia; [|by exists u].
    apply Nat.ltb_lt in E5. exists (u ++ take (length (acc p) - 5) (acc p)).
    rewrite <- app_assoc, take_drop, length_drop. split; [done|lia].
  - eexists. split; [reflexivity|]. repeat (split; [done|]). exact Hacc.
Qed.

Lemma crunch_collecting_close st body r p :
  collecting st r p -> r = body ++ bracketPasteEnd -> ends_once r ->
  (zlen body + 5 <= maxBracketPaste \/ maxBracketPaste < zlen body) ->
  (overflow p = true -> (6 <= length (acc p))%nat /\ maxBracketPaste < zlen body) ->
  exists p', crunch p = (fst (finishPaste body (newPasteReader st)), waitNone, p') /\
             p' = snd (finishPaste body (newPasteReader st)).
Proof.
  intros (Hc & He & Hf & Hs & Ho & Hacc) Hr Honce Hsize Hov.
  assert (Hlast : exists b u, acc p = b ++ bracketPasteEnd /\ r = u ++ acc p /\
            index_of bracketPasteEnd (acc p) = Some (length b)).
  { destruct Hacc as [(_ & _ & E)|(E & _ & _ & u & Hu & _)].
    - rewrite E. destruct Honce as (b & Hb & Hi). by exists b, [].
    - destruct (ends_once_tail u (acc p)) as (b & Hb & Hi).
      + by rewrite <- Hu.
      + by apply Hov.
      + by exists b, u. }
  destruct Hlast as (b & u & Hb & Hu & Hi).
  assert (Htr : (Z.of_nat (length b) + zlen bracketPasteEnd <? zlen (acc p)) = false).
  { apply Z.ltb_ge. rewrite Hb, zlen_app. unfold zlen. lia. }
  unfold crunch, crunch_collect. rewrite Hc, Hi, Htr, Hf. cbn [orb].
  assert (Hbody : take (length b) (acc p) = b) by (rewrite Hb; apply take_app_length).
  rewrite Hbody.
  assert (Hmax : maxBracketPaste < zlen body \/ (overflow p = false /\ discarded p = 0 /\ b = body)).
  { destruct Hacc as [(E1 & E2 & E3)|(E & _)]; [right|left; by apply Hov].
    split_and!; try done. rewrite E3, Hr in Hb. by apply app_inv_tail in Hb. }
  set (q := set_acc [] (set_collect false (overflow p) (discarded p) p)).
  assert (Hq : finishPaste b q = finishPaste body (newPasteReader st)).
  { destruct Hmax as [Hm|(E1 & E2 & ->)].
    - rewrite (finishPaste_overflow body) by (right; cbn [discarded newPasteReader]; lia).
      rewrite (finishPaste_overflow b).
      + unfold q. destruct p; cbn in *. by subst.
      + destruct Hacc as [(E1 & E2 & E3)|(E & _)]; [right|by left].
        unfold q. cbn [discarded set_acc set_collect]. rewrite E2. assert (b = body) as -> by
          (rewrite E3, Hr in Hb; by apply app_inv_tail in Hb). lia.
    - unfold q. rewrite E1, E2. destruct p; cbn in *. by subst. }
  rewrite Hq. destruct (finishPaste body (newPasteReader st)) as [l p2]. by exists p2.
Qed.

Lemma concat_nil_small cs : Forall small_chunk cs -> concat cs = [] -> cs = [].
Proof. intros H. destruct cs; [done|]. inversion H as [|? ? [Hne _]]; subst. by destruct l. Qed.

Lemma small_not_full c : small_chunk c -> (zlen c =? pasteReadSize) = false.
Proof. intros [_ H]. apply Z.eqb_neq. lia. Qed.

Lemma feed_chunk_cons c evs p w p1 :
  small_chunk c -> crunch p = ([], w, p1) -> sawEOF p1 = false ->
  feed (chunk c :: evs) p = feed evs (set_acc (acc p1 ++ c) (set_full false p1)).
Proof.
  intros Hc Hp He. cbn [feed]. rewrite Hp, He. cbn [after_fill chunk].
  rewrite small_not_full by done. cbn [app]. by destruct (feed _ _).
Qed.

Lemma feed_chunk c cs p w p1 :
  small_chunk c -> crunch p = ([], w, p1) -> sawEOF p1 = false ->
  feed (map chunk (c :: cs)) p =
  feed (map chunk cs) (set_acc (acc p1 ++ c) (set_full false p1)).
Proof. apply feed_chunk_cons. Qed.

Lemma feed_collecting st body cs r p :
  collecting st r p -> Forall small_chunk cs -> cs <> [] ->
  r ++ concat cs = body ++ bracketPasteEnd -> ends_once (r ++ concat cs) ->
  (zlen body + 5 <= maxBracketPaste \/ maxBracketPaste < zlen body) ->
  feed (map chunk cs) p = finishPaste body (newPasteReader st).
Proof.
  revert r p. induction cs as [|c cs IH]; intros r p Hcol Hsm Hne E Honce Hsize; [done|].
  inversion Hsm as [|? ? Hc Hcs]; subst. cbn [concat] in *.
  destruct (crunch_collecting_open st r p (c ++ concat cs) Hcol Honce) as (p1 & Hp1 & Hcol1).
  { destruct Hc as [Hc _]. by destruct c. }
  rewrite (feed_chunk c cs p waitPaste p1) by (done || apply Hcol1).
  set (p2 := set_acc (acc p1 ++ c) (set_full false p1)).
  assert (Hcol2 : collecting st (r ++ c) p2).
  { destruct Hcol1 as (H1 & H2 & H3 & H4 & H5 & H6). repeat (split; [done|]).
    destruct H6 as [(E1 & E2 & E3)|(E1 & E2 & E3 & u & E4 & E5)]; [left|right].
    - unfold p2. cbn. by rewrite E3.
    - unfold p2. cbn [overflow discarded acc set_acc set_full]. split_and!; try done.
      + rewrite zlen_app. pose proof (zlen_nonneg c). lia.
      + exists u. rewrite E4, app_assoc, length_app. split; [done|lia]. }
  destruct (decide (concat cs = [])) as [Hnil|Hmore].
  - rewrite (concat_nil_small cs) by done. rewrite Hnil, !app_nil_r in *.
    destruct (crunch_collecting_close st body (r ++ c) p2) as (p3 & Hp3 & ->); try done.
    { intros Hov. destruct Hcol1 as (_ & _ & _ & _ & _ & [(E1 & _)|(_ & E2 & _ & u & E4 & E5)]).
      - unfold p2 in Hov. cbn in Hov. congruence.
      - unfold p2. cbn [acc set_acc]. rewrite length_app. destruct Hc as [Hc _].
        split; [destruct c; [done|cbn; lia]|].
        destruct Hsize as [Hsize|]; [|done]. apply (f_equal zlen) in E.
        rewrite !zlen_app in E. change (zlen bracketPasteEnd) with 6 in E.
        assert (0 < zlen c) by (destruct c; [done|rewrite zlen_cons; pose proof (zlen_nonneg c); lia]).
        lia. }
    cbn [map feed]. rewrite Hp3. cbn [fst snd]. destruct (sawEOF _); by destruct (finishPaste _ _).
  - apply (IH (r ++ c)); try done.
    + intros ->. by destruct Hmore.
    + by rewrite <- app_assoc.
    + by rewrite <- app_assoc.
Qed.

Definition opening (n : nat) (st : pasteState) : pasteReader :=
  mkReader (take n bracketPasteStart) [] false false false 0 false st.

Lemma length_take_start n : (n <= 6)%nat -> length (take n bracketPasteStart) = n.
Proof. intros. rewrite length_take. change (length bracketPasteStart) with 6%nat. lia. Qed.

Lemma crunch_opening n st : (n <= 5)%nat -> exists w, crunch (opening n st) = ([], w, opening n st).
Proof. intros Hn. do 6 (destruct n as [|n]; [eexists; reflexivity|]). lia. Qed.

Lemma feed_same_crunch cs p q : crunch p = crunch q -> feed cs p = feed cs q.
Proof. intros H. destruct cs; cbn [feed]; by rewrite H. Qed.

Lemma crunch_start p rest :
  collect p = false -> acc p = bracketPasteStart ++ rest ->
  crunch p = crunch (set_acc rest (set_collect true false 0 p)).
Proof.
  intros Hc Ha. unfold crunch at 1. rewrite Hc.
  assert (index_of bracketPasteStart (acc p) = Some 0%nat) as ->.
  { apply index_of_unique; [|lia]. rewrite Ha. apply has_prefix_app. }
  change (take 0 (acc p)) with (@nil ascii). cbn [contains].
  replace (drop (0 + length bracketPasteStart) (acc p)) with rest by (by rewrite Ha).
  reflexivity.
Qed.

Lemma feed_opening st body cs n :
  (n <= 5)%nat -> Forall small_chunk cs ->
  take n bracketPasteStart ++ concat cs = bracketPasteStart ++ body ++ bracketPasteEnd ->
  ends_once (body ++ bracketPasteEnd) ->
  (zlen body + 5 <= maxBracketPaste \/ maxBracketPaste < zlen body) ->
  feed (map chunk cs) (opening n st) = finishPaste body (newPasteReader st).
Proof.
  revert n. induction cs as [|c cs IH]; intros n Hn Hsm E Honce Hsize.
  { apply (f_equal length) in E. rewrite !length_app, length_take_start in E by lia. cbn in E. lia. }
  inversion Hsm as [|? ? Hc Hcs]; subst. destruct (crunch_opening n st Hn) as [w Hw].
  rewrite (feed_chunk c cs _ w _ Hc Hw) by done.
  cbn [opening acc]. cbn [concat] in E. rewrite app_assoc in E.
  destruct (decide (n + length c <= 5)%nat) as [Hsmall|Hbig].
  - assert (Ht : take n bracketPasteStart ++ c = take (n + length c) bracketPasteStart).
    { apply (f_equal (take (n + length c))) in E.
      rewrite take_app_le in E by (rewrite length_app, length_take_start; lia).
      rewrite (take_app_le bracketPasteStart) in E
        by (change (length bracketPasteStart) with 6%nat; lia).
      rewrite <- E. symmetry. apply take_ge. rewrite length_app, length_take_start; lia. }
    rewrite Ht. rewrite Ht in E. apply (IH (n + length c)%nat); done.
  - assert (Hrest : exists rest, take n bracketPasteStart ++ c = bracketPasteStart ++ rest
              /\ rest ++ concat cs = body ++ bracketPasteEnd).
    { exists (drop 6 (take n bracketPasteStart ++ c)).
      pose proof (f_equal (take 6) E) as E6. pose proof (f_equal (drop 6) E) as D6.
      assert (6 <= length (take n bracketPasteStart ++ c))%nat
        by (rewrite length_app, length_take_start; lia).
      rewrite take_app_le in E6 by done. rewrite drop_app_le in D6 by done.
      rewrite <- (take_drop 6 (take n bracketPasteStart ++ c)) at 1. by rewrite E6. }
    destruct Hrest as (rest & Hr & Hcat). rewrite Hr.
    set (p2 := set_acc (bracketPasteStart ++ rest) (set_full false (opening n st))).
    set (q := set_acc rest (set_collect true false 0 p2)).
    assert (Hcr : crunch p2 = crunch q) by (by apply crunch_start).
    rewrite (feed_same_crunch _ _ _ Hcr).
    assert (Hq : collecting st rest q).
    { repeat (split; [done|]). left. done. }
    destruct (decide (cs = [])) as [->|Hne].
    + cbn [concat] in Hcat. rewrite app_nil_r in Hcat. subst rest.
      destruct (crunch_collecting_close st body _ q Hq eq_refl Honce Hsize) as (p3 & Hp3 & ->);
        [done|].
      cbn [map feed]. rewrite Hp3. destruct (sawEOF _); by destruct (finishPaste _ _).
    + apply (feed_collecting st body cs rest q); try done. by rewrite Hcat.
Qed.

(** A bracketed paste delivered in any chunks shorter than the read buffer is
    handled exactly as finishPaste handles its body, wherever the chunk
    boundaries fall, the markers included, when the body is over the limit or
    at least five bytes under it. *)
Theorem paste_chunking st body cs :
  Forall small_chunk cs ->
  concat cs = bracketPasteStart ++ body ++ bracketPasteEnd ->
  index_of bracketPasteEnd (body ++ bracketPasteEnd) = Some (length body) ->
  zlen body + 5 <= maxBracketPaste \/ maxBracketPaste < zlen body ->
  feed (map chunk cs) (newPasteReader st) = finishPaste body (newPasteReader st).
Proof.
  intros Hsm E Hi Hsize. apply (feed_opening st body cs 0); try done; [lia|].
  by exists body.
Qed.

Lemma paste_chunking_witness :
  feed (map chunk [take 2 bracketPasteStart; drop 2 bracketPasteStart ++ lit "ls" ++ take 1 bracketPasteEnd;
                   drop 1 bracketPasteEnd]) (newPasteReader clear_state) =
  (lit "ls", newPasteReader clear_state).
Proof.
  rewrite (paste_chunking clear_state (lit "ls")
    [take 2 bracketPasteStart; drop 2 bracketPasteStart ++ lit "ls" ++ take 1 bracketPasteEnd;
                   drop 1 bracketPasteEnd]).
  - vm_compute. reflexivity.
  - repeat constructor; cbn; congruence.
  - reflexivity.
  - reflexivity.
  - left. vm_compute. congruence.
Defined.

(** ** Typed input passes through *)

Lemma partial_split a :
  let n := partialBracketSuffix a in
  take (length a - n) a ++ take n bracketPasteStart = a /\
  drop (length a - n) a = take n bracketPasteStart /\ (n <= 5)%nat.
Proof.
  intros n. pose proof (partial_le a) as [H5 Hl]. fold n in H5, Hl.
  pose proof (partial_from_spec (Nat.min (length bracketPasteStart - 1) (length a)) a)
    as (_ & Hd & _). fold (partialBracketSuffix a) in Hd. fold n in Hd.
  split_and!; try done. rewrite <- Hd. apply take_drop.
Qed.

Definition typing (a : bytes) (st : pasteState) : pasteReader :=
  mkReader a [] false false false 0 false st.

Lemma crunch_typing a st :
  marker_free a ->
  exists w, crunch (typing a st) =
    (take (length a - partialBracketSuffix a) a, w, opening (partialBracketSuffix a) st).
Proof.
  intros [Hs He]. unfold crunch. cbn [typing collect acc sawEOF].
  assert (index_of bracketPasteStart a = None) as ->
    by (unfold contains in Hs; by destruct (index_of _ _)).
  rewrite He. destruct (partial_split a) as (_ & Hd & _).
  destruct (0 <? partialBracketSuffix a)%nat eqn:E.
  - exists waitEscape. by rewrite Hd.
  - apply Nat.ltb_ge in E. exists waitNone.
    replace (partialBracketSuffix a) with 0%nat by lia.
    by rewrite Nat.sub_0_r, take_ge by lia.
Qed.

Lemma feed_typing evs cs n st :
  (n <= 5)%nat -> Forall small_chunk cs -> marker_free (take n bracketPasteStart ++ concat cs) ->
  exists e k, (k <= 5)%nat /\
    e ++ take k bracketPasteStart = take n bracketPasteStart ++ concat cs /\
    feed (map chunk cs ++ evs) (opening n st) =
      (e ++ fst (feed evs (opening k st)), snd (feed evs (opening k st))).
Proof.
  revert n. induction cs as [|c cs IH]; intros n Hn Hsm [Hs He].
  { exists [], n. rewrite app_nil_r. cbn [map app]. by destruct (feed evs _). }
  inversion Hsm as [|? ? Hc Hcs]; subst. destruct (crunch_opening n st Hn) as [w Hw].
  cbn [map app]. rewrite (feed_chunk_cons c _ _ w _ Hc Hw) by done. cbn [opening acc].
  set (a := take n bracketPasteStart ++ c).
  change (set_acc a (set_full false (opening n st))) with (typing a st).
  cbn [concat] in Hs, He |- *. rewrite app_assoc in Hs, He |- *. fold a in Hs, He |- *.
  destruct (crunch_typing a st) as [w2 Hw2].
  { split; by eapply contains_false_l. }
  rewrite (feed_crunch _ _ _ _ _ Hw2). destruct (partial_split a) as (Hsplit & Hd & H5).
  set (k := partialBracketSuffix a) in *.
  destruct (IH k H5 Hcs) as (e & k' & Hk' & IH1 & IH2).
  { rewrite <- Hsplit, <- app_assoc in Hs, He. split; by eapply contains_false_r. }
  exists (take (length a - k) a ++ e), k'. rewrite IH2. cbn [fst snd].
  split_and!; try done; [|by rewrite <- app_assoc].
  by rewrite <- app_assoc, IH1, app_assoc, Hsplit.
Qed.

Lemma feed_timeout k st :
  (k <= 5)%nat -> fst (feed [EvTimeout] (opening k st)) = take k bracketPasteStart.
Proof. intros H. do 6 (destruct k as [|k]; [reflexivity|]). lia. Qed.

(** Input that holds no paste marker reaches the editor unchanged and in
    order; at most five bytes, a prefix of the start marker, are held back,
    and the escape timer releases them. *)
Theorem typed_input_passes cs st :
  Forall small_chunk cs -> marker_free (concat cs) ->
  fst (feed (map chunk cs ++ [EvTimeout]) (newPasteReader st)) = concat cs /\
  exists e k, (k <= 5)%nat /\ e ++ take k bracketPasteStart = concat cs /\
    feed (map chunk cs) (newPasteReader st) = (e, typing (take k bracketPasteStart) st).
Proof.
  intros Hsm Hfree.
  destruct (feed_typing [EvTimeout] cs 0 st ltac:(lia) Hsm Hfree) as (e & k & Hk & E & H).
  destruct (feed_typing [] cs 0 st ltac:(lia) Hsm Hfree) as (e' & k' & Hk' & E' & H').
  change (opening 0 st) with (newPasteReader st) in *. split.
  - rewrite H. cbn [fst]. by rewrite feed_timeout.
  - exists e', k'. split_and!; try done. rewrite app_nil_r in H'. rewrite H'.
    destruct (crunch_opening k' st Hk') as [w Hw]. cbn [feed]. rewrite Hw.
    cbn [opening sawEOF fst snd]. by rewrite app_nil_r.
Qed.

Lemma typed_input_passes_witness :
  fst (feed (map chunk [lit "ls" ++ [ESC]; lit "[A"] ++ [EvTimeout]) (newPasteReader clear_state))
  = lit "ls" ++ [ESC] ++ lit "[A".
Proof.
  apply (typed_input_passes [lit "ls" ++ [ESC]; lit "[A"] clear_state).
  - repeat constructor; cbn; congruence.
  - split; reflexivity.
Defined.

(** The filter matches an end marker outside a paste within one read only: one
    that is split after its ["1"] reaches the editor. *)
Lemma end_marker_split_passes st :
  fst (feed [chunk (take 5 bracketPasteEnd); chunk (drop 5 bracketPasteEnd)] (newPasteReader st))
  = bracketPasteEnd.
Proof. reflexivity. Qed.

(** ** Held text runs only on [safepaste run] *)

(** handlePasteLine hands text to runHeldPaste only for the line safepaste run
    without a review token, the text is the held paste, and the held paste is
    cleared so no later line can run it again. *)
Theorem held_paste_runs_once line st t :
  runText (fst (handlePasteLine line st)) = Some t ->
  fields line = [lit "safepaste"; lit "run"] /\
  contains pasteHeldPrefix line = false /\ contains pasteRejectedLine line = false /\
  t = text st /\ t <> [] /\ snd (handlePasteLine line st) = clear_state /\
  (forall line', runText (fst (handlePasteLine line' (snd (handlePasteLine line st)))) = None).
Proof.
  assert (Hempty : forall line', runText (fst (handlePasteLine line' clear_state)) = None).
  { intros line'. unfold handlePasteLine. cbn [text is_empty].
    repeat case_match; done. }
  unfold handlePasteLine.
  destruct (contains pasteRejectedLine line) eqn:E1; [done|].
  destruct (contains pasteHeldPrefix line) eqn:E2; [done|].
  destruct (fields line) as [|f0 [|f1 [|f2 fs]]]; [done| | |].
  1,3: destruct (negb _); done.
  destruct (bool_decide (f0 = lit "safepaste")) eqn:E0; cbn [negb]; [|done].
  destruct (bool_decide (f1 = lit "show")); [destruct (is_empty _); done|].
  destruct (bool_decide (f1 = lit "drop")); [done|].
  destruct (bool_decide (f1 = lit "run")) eqn:Er; [|done].
  destruct (text st) as [|c cs] eqn:Et; [done|]. cbn [is_empty fst snd runText].
  intros [= <-]. bsimp. subst. split_and!; done.
Qed.

Lemma held_paste_runs_once_witness :
  runText (fst (handlePasteLine (lit " safepaste  run ") (mkState (lit "ls") 1 ""))) = Some (lit "ls")
  /\ snd (handlePasteLine (lit " safepaste  run ") (mkState (lit "ls") 1 "")) = clear_state.
Proof.
  split; [reflexivity|].
  apply (held_paste_runs_once (lit " safepaste  run ") (mkState (lit "ls") 1 "") (lit "ls")).
  reflexivity.
Defined.
