(* ===== verification/FlowScan.v ===== *)
(** * The chunk classifier of parser/flow.go

    An index [i] into [src] is the suffix of [src] that starts there, so the
    scanners are structural recursions on the bytes that are left.  The second
    half gives the block scanner an independent grammar, [Body], and shows that
    [scanBlock] and [ClassifyFlow] accept exactly what the grammar describes. *)

From S2P Require Import Prelude GoBytes.

(** ** Bytes *)

Definition LFb : byte := ascii_of_nat 10.
Definition CRb : byte := ascii_of_nat 13.
Definition TABb : byte := ascii_of_nat 9.
Definition SPb : byte := " "%char.
Definition QUOTE1 : byte := ascii_of_nat 39.
Definition QUOTE2 : byte := ascii_of_nat 34.
Definition BSL : byte := ascii_of_nat 92.
Definition HASH : byte := "#"%char.
Definition LBRACE : byte := "{"%char.
Definition RBRACE : byte := "}"%char.
Definition COLON : byte := ":"%char.


Definition MaxChunkBytes : Z := Z.shiftl 1 20.
Definition MaxChunkLines : Z := 256.
#[global] Arguments MaxChunkBytes : simpl never.

(** ** Results *)

Inductive flowErr :=
| ErrEmptyTry | ErrEmptyCatch | ErrEmptyCond | ErrEmptyThen | ErrEmptyElse
| ErrExpectedCatch | ErrTrailing | ErrUnclosed | ErrTryNeedsCatch
| ErrTooBig | ErrTooManyLines.

(** [Flow]: its kind with the fields that kind sets. *)
Inductive Flow :=
| FlowNot
| FlowIncomplete (e : flowErr)
| FlowSyntax (e : flowErr)
| FlowIf (cond thn : bytes) (els : option bytes)
| FlowTry (body catch : bytes).

(** ** Small scanners *)

Definition isSpace (b : byte) : bool :=
  (b =?b SPb) || (b =?b TABb) || (b =?b LFb) || (b =?b CRb).

Definition isWordSep (b : byte) : bool :=
  existsb (Ascii.eqb b) [SPb; TABb; LFb; CRb; ";"; "|"; "&"; "("; ")"; "<"; ">"]%char.

Definition isIdentStart (b : byte) : bool :=
  (b =?b "_"%char) || ((65 <=? byte_val b) && (byte_val b <=? 90))
  || ((97 <=? byte_val b) && (byte_val b <=? 122)).

Definition isIdentCont (b : byte) : bool :=
  isIdentStart b || ((48 <=? byte_val b) && (byte_val b <=? 57)).

Fixpoint ident_rest (s : bytes) : bytes * bytes :=
  match s with
  | c :: s' => if isIdentCont c then let '(w, r) := ident_rest s' in (c :: w, r) else ([], s)
  | [] => ([], [])
  end.

Definition readIdent (s : bytes) : option (bytes * bytes) :=
  match s with
  | c :: s' => if isIdentStart c then let '(w, r) := ident_rest s' in Some (c :: w, r) else None
  | [] => None
  end.

(** [skipWSComments]; [comment] is the inner loop, which stops before the
    newline. *)
Fixpoint skip_ws (comment : bool) (s : bytes) : bytes :=
  match s with
  | [] => []
  | c :: s' =>
      if comment then skip_ws (negb (c =?b LFb)) s'
      else if isSpace c then skip_ws false s'
      else if c =?b HASH then skip_ws true s'
      else s
  end.

Definition skipWSComments (s : bytes) : bytes := skip_ws false s.

Inductive quoteState := QNone | QSingle | QDouble.

Definition quote_of (b : byte) : quoteState :=
  if b =?b QUOTE1 then QSingle else QDouble.

Definition is_quote (b : byte) : bool := (b =?b QUOTE1) || (b =?b QUOTE2).

Fixpoint strip_comments (q : quoteState) (escape comment : bool) (s : bytes) : bytes :=
  match s with
  | [] => []
  | c :: s' =>
      if comment then
        if c =?b LFb then c :: strip_comments q escape false s'
        else strip_comments q escape true s'
      else match q, escape with
      | QSingle, _ => c :: strip_comments (if c =?b QUOTE1 then QNone else QSingle) escape false s'
      | _, true => c :: strip_comments q false false s'
      | QDouble, false =>
          if c =?b BSL then c :: strip_comments q true false s'
          else c :: strip_comments (if c =?b QUOTE2 then QNone else QDouble) false false s'
      | QNone, false =>
          if c =?b BSL then c :: strip_comments q true false s'
          else if is_quote c then c :: strip_comments (quote_of c) false false s'
          else if c =?b HASH then strip_comments q false true s'
          else c :: strip_comments q false false s'
      end
  end.

Definition stripComments (s : bytes) : bytes := strip_comments QNone false false s.

Fixpoint strip_trailing (q : quoteState) (escape : bool) (s : bytes) : bytes :=
  match s with
  | [] => []
  | c :: s' =>
      match q, escape with
      | QSingle, _ => c :: strip_trailing (if c =?b QUOTE1 then QNone else QSingle) escape s'
      | _, true => c :: strip_trailing q false s'
      | QDouble, false =>
          if c =?b BSL then c :: strip_trailing q true s'
          else c :: strip_trailing (if c =?b QUOTE2 then QNone else QDouble) false s'
      | QNone, false =>
          if c =?b BSL then c :: strip_trailing q true s'
          else if is_quote c then c :: strip_trailing (quote_of c) false s'
          else if c =?b HASH then []
          else c :: strip_trailing q false s'
      end
  end.

Definition stripTrailingComment (s : bytes) : bytes := strip_trailing QNone false s.

Definition firstLine (s : bytes) : bytes :=
  match cut_byte LFb s with Some (l, _) => l | None => s end.

Definition is_blank (b : byte) : bool := (b =?b SPb) || (b =?b TABb).

Definition firstLineEndsWithColon (src : bytes) : bool :=
  has_suffix [COLON] (trim_right_set is_blank (stripTrailingComment (firstLine src))).

Definition is_open (b : byte) : bool := existsb (Ascii.eqb b) ["("; "["; "{"]%char.
Definition is_close (b : byte) : bool := existsb (Ascii.eqb b) [")"; "]"; "}"]%char.

(** The loop of [firstLineColonOutsideBrackets]; unlike the other scanners it
    looks at [escape] before the quote, and only in double quotes does a
    backslash escape. *)
Fixpoint brackets_closed (depth : nat) (q : quoteState) (escape : bool) (s : bytes) : bool :=
  match s with
  | [] => Nat.eqb depth 0 && match q with QNone => true | _ => false end
  | b :: s' =>
      if escape then brackets_closed depth q false s'
      else match q with
      | QSingle => brackets_closed depth (if b =?b QUOTE1 then QNone else q) false s'
      | QDouble =>
          if b =?b BSL then brackets_closed depth q true s'
          else brackets_closed depth (if b =?b QUOTE2 then QNone else q) false s'
      | QNone =>
          if b =?b BSL then brackets_closed depth q true s'
          else if is_quote b then brackets_closed depth (quote_of b) false s'
          else if is_open b then brackets_closed (S depth) q false s'
          else if is_close b then brackets_closed (pred depth) q false s'
          else brackets_closed depth q false s'
      end
  end.

Definition firstLineColonOutsideBrackets (src : bytes) : bool :=
  brackets_closed 0 QNone false (stripTrailingComment (firstLine src)).

(** ** Blocks and conditions *)

Inductive blockScan :=
| BlockClosed (body rest : bytes) (sawCode : bool)
| BlockOpen (sawCode : bool).

Definition block_cons (c : byte) (r : blockScan) : blockScan :=
  match r with
  | BlockClosed body rest saw => BlockClosed (c :: body) rest saw
  | BlockOpen saw => BlockOpen saw
  end.

(** The loop of [scanBlock]; [depth] counts the open braces but the first. *)
Fixpoint block_loop (depth : nat) (q : quoteState) (escape comment saw : bool) (s : bytes)
  : blockScan :=
  match s with
  | [] => BlockOpen saw
  | b :: s' =>
      let go depth q escape comment saw :=
        block_cons b (block_loop depth q escape comment saw s') in
      if comment then go depth q escape (negb (b =?b LFb)) saw
      else match q, escape with
      | QSingle, _ =>
          if b =?b QUOTE1 then go depth QNone escape false saw
          else go depth q escape false (saw || negb (isSpace b))
      | _, true => go depth q false false (saw || negb ((b =?b LFb) || (b =?b CRb)))
      | QDouble, false =>
          if b =?b BSL then go depth q true false saw
          else if b =?b QUOTE2 then go depth QNone false false saw
          else go depth q false false (saw || negb (isSpace b))
      | QNone, false =>
          if b =?b BSL then go depth q true false saw
          else if is_quote b then go depth (quote_of b) false false saw
          else if b =?b HASH then go depth q false true saw
          else if b =?b LBRACE then go (S depth) q false false true
          else if b =?b RBRACE then
            match depth with
            | O => BlockClosed [] s' saw
            | S d => go d q false false true
            end
          else go depth q false false (saw || negb (isSpace b))
      end
  end.

Definition scanBlock (s : bytes) : blockScan :=
  match s with
  | b :: s' => if b =?b LBRACE then block_loop 0 QNone false false false s' else BlockOpen false
  | [] => BlockOpen false
  end.

Fixpoint colonFollows (s : bytes) : bool :=
  match s with
  | b :: s' => if is_blank b then colonFollows s' else b =?b COLON
  | [] => false
  end.

(** [stopKind] with what [scanCondition] returns for it: the condition and the
    suffix at its brace. *)
Inductive condScan :=
| StopBrace (cond brace : bytes)
| StopPosix | StopColon | StopEOF.

Definition cond_cons (c : byte) (r : condScan) : condScan :=
  match r with StopBrace cond brace => StopBrace (c :: cond) brace | r => r end.

(** [flush]: the pending word, reversed, is [then] or [fi]. *)
Definition posix_word (w : bytes) : bool :=
  bool_decide (rev w = lit "then") || bool_decide (rev w = lit "fi").

Fixpoint cond_loop (depth : nat) (q : quoteState) (escape comment : bool) (word : bytes)
  (s : bytes) : condScan :=
  match s with
  | [] => if posix_word word then StopPosix else StopEOF
  | b :: s' =>
      let go depth q escape comment word :=
        cond_cons b (cond_loop depth q escape comment word s') in
      if comment then go depth q escape (negb (b =?b LFb)) word
      else match q, escape with
      | QSingle, _ => go depth (if b =?b QUOTE1 then QNone else q) escape false word
      | _, true => go depth q false false word
      | QDouble, false =>
          if b =?b BSL then go depth q true false word
          else go depth (if b =?b QUOTE2 then QNone else q) false false word
      | QNone, false =>
          match depth with
          | S d =>
              if b =?b BSL then go depth q true false word
              else if is_quote b then go depth (quote_of b) false false word
              else if is_open b then go (S depth) q false false word
              else if is_close b then go d q false false word
              else go depth q false false word
          | O =>
              let flush k := if posix_word word then StopPosix else k in
              if b =?b BSL then flush (go O q true false [])
              else if is_quote b then flush (go O (quote_of b) false false [])
              else if b =?b HASH then flush (go O q false true [])
              else if b =?b "$"%char then
                match s' with
                | c :: s'' =>
                    if c =?b LBRACE then
                      flush (cond_cons b (cond_cons c (cond_loop 1 q false false [] s'')))
                    else go O q false false (b :: word)
                | [] => go O q false false (b :: word)
                end
              else if b =?b COLON then flush StopColon
              else if b =?b LBRACE then
                flush (match scanBlock s with
                       | BlockClosed _ next _ =>
                           if colonFollows next then StopColon else StopBrace [] s
                       | BlockOpen _ => StopBrace [] s
                       end)
              else if (b =?b "("%char) || (b =?b "["%char) then flush (go 1%nat q false false [])
              else if isWordSep b then flush (go O q false false [])
              else go O q false false (b :: word)
          end
      end
  end.

Definition scanCondition (s : bytes) : condScan := cond_loop 0 QNone false false [] s.

Definition starlarkIf (src : bytes) : bool :=
  firstLineEndsWithColon src ||
  match scanCondition (drop 2 src) with StopColon => true | _ => false end.

Definition posixIfBeforeBrace (src : bytes) : bool :=
  match scanCondition (drop 2 src) with StopPosix => true | _ => false end.

Definition ifKeyword (trimmed : bytes) : bool :=
  has_prefix (lit "if{") trimmed || has_prefix (lit "if ") trimmed
  || has_prefix (lit "if" ++ [TABb]) trimmed.

(** ** [ClassifyFlow] *)

Definition chunkLineCount (src : bytes) : Z :=
  match src with
  | [] => 0
  | _ => count_byte LFb src + (if has_suffix [LFb] src then 0 else 1)
  end.

Definition checkCap (src : bytes) : option flowErr :=
  if MaxChunkBytes <? zlen src then Some ErrTooBig
  else if MaxChunkLines <? chunkLineCount src then Some ErrTooManyLines
  else None.

Definition classifyTry (s : bytes) : Flow :=
  match skipWSComments s with
  | [] => FlowNot
  | (b :: _) as open =>
      if negb (b =?b LBRACE) then FlowNot
      else match scanBlock open with
      | BlockOpen _ => FlowIncomplete ErrUnclosed
      | BlockClosed _ _ false => FlowSyntax ErrEmptyTry
      | BlockClosed body next true =>
          match skipWSComments next with
          | [] => FlowIncomplete ErrTryNeedsCatch
          | k =>
              match readIdent k with
              | Some (word, after) =>
                  if negb (bool_decide (word = lit "catch")) then FlowSyntax ErrExpectedCatch
                  else match skipWSComments after with
                  | [] => FlowIncomplete ErrUnclosed
                  | (d :: _) as c =>
                      if negb (d =?b LBRACE) then FlowSyntax ErrExpectedCatch
                      else match scanBlock c with
                      | BlockOpen _ => FlowIncomplete ErrUnclosed
                      | BlockClosed _ _ false => FlowSyntax ErrEmptyCatch
                      | BlockClosed catchBody rest true =>
                          match skipWSComments rest with
                          | [] => FlowTry body catchBody
                          | _ => FlowSyntax ErrTrailing
                          end
                      end
                  end
              | None => FlowSyntax ErrExpectedCatch
              end
          end
      end
  end.

Definition blank (s : bytes) : bool :=
  match trim_space s with [] => true | _ => false end.

Definition classifyIf (src s : bytes) : Flow :=
  if firstLineEndsWithColon src && firstLineColonOutsideBrackets src then FlowNot
  else match scanCondition s with
  | StopPosix | StopColon | StopEOF => FlowNot
  | StopBrace cond brace =>
      if blank (stripComments cond) then FlowSyntax ErrEmptyCond
      else match scanBlock brace with
      | BlockOpen _ => FlowIncomplete ErrUnclosed
      | BlockClosed _ _ false => FlowSyntax ErrEmptyThen
      | BlockClosed body next true =>
          match skipWSComments next with
          | [] => FlowIf cond body None
          | j =>
              match readIdent j with
              | Some (word, after) =>
                  if negb (bool_decide (word = lit "else")) then FlowSyntax ErrTrailing
                  else match skipWSComments after with
                  | [] => FlowIncomplete ErrUnclosed
                  | (d :: _) as k =>
                      if negb (d =?b LBRACE) then FlowSyntax ErrTrailing
                      else match scanBlock k with
                      | BlockOpen _ => FlowIncomplete ErrUnclosed
                      | BlockClosed _ _ false => FlowSyntax ErrEmptyElse
                      | BlockClosed elseBody rest true =>
                          match skipWSComments rest with
                          | [] => FlowIf cond body (Some elseBody)
                          | _ => FlowSyntax ErrTrailing
                          end
                      end
                  end
              | None => FlowSyntax ErrTrailing
              end
          end
      end
  end.

Definition ClassifyFlow (src : bytes) : Flow :=
  match checkCap src with
  | Some e => FlowSyntax e
  | None =>
      match readIdent (skipWSComments src) with
      | None => FlowNot
      | Some (word, next) =>
          if bool_decide (word = lit "try") then classifyTry next
          else if bool_decide (word = lit "if") then classifyIf src next
          else FlowNot
      end
  end.

(** ** The grammar of a block body

    Independent of the scanner: a body is a sequence of plain bytes, escaped
    bytes, quoted strings, comments and nested blocks.  The boolean is whether
    it holds code. *)

Definition plain (c : byte) : bool :=
  negb ((c =?b BSL) || is_quote c || (c =?b HASH) || (c =?b LBRACE) || (c =?b RBRACE)).

Definition codeByte (c : byte) : bool := negb (isSpace c).
Definition escapedCode (c : byte) : bool := negb ((c =?b LFb) || (c =?b CRb)).

(** The inside of a double-quoted string. *)
Inductive DQ : bytes -> bool -> Prop :=
| DQ_nil : DQ [] false
| DQ_char c s b : c <> BSL -> c <> QUOTE2 -> DQ s b -> DQ (c :: s) (codeByte c || b)
| DQ_esc c s b : DQ s b -> DQ (BSL :: c :: s) (escapedCode c || b).

Inductive Body : bytes -> bool -> Prop :=
| B_nil : Body [] false
| B_plain c s b : plain c = true -> Body s b -> Body (c :: s) (codeByte c || b)
| B_esc c s b : Body s b -> Body (BSL :: c :: s) (escapedCode c || b)
| B_single q s b : ~ In QUOTE1 q -> Body s b ->
    Body (QUOTE1 :: q ++ QUOTE1 :: s) (existsb codeByte q || b)
| B_double q bq s b : DQ q bq -> Body s b -> Body (QUOTE2 :: q ++ QUOTE2 :: s) (bq || b)
| B_comment q s b : ~ In LFb q -> Body s b -> Body (HASH :: q ++ LFb :: s) b
| B_block t bt s b : Body t bt -> Body s b -> Body (LBRACE :: t ++ RBRACE :: s) true.

(** Nested blocks left open: [Tail n s b] is [n] closed bodies, each with its
    brace, and the body of the outermost block. *)
Inductive Tail : nat -> bytes -> bool -> Prop :=
| T_here s b : Body s b -> Tail 0 s b
| T_up n t bt s b : Body t bt -> Tail n s b -> Tail (S n) (t ++ RBRACE :: s) true.

(** Bytes that need no code: white space and comments. *)
Inductive WS : bytes -> Prop :=
| WS_nil : WS []
| WS_space c s : isSpace c = true -> WS s -> WS (c :: s)
| WS_comment q s : ~ In LFb q -> WS s -> WS (HASH :: q ++ LFb :: s).

(** White space that reaches the end may end in an open comment. *)
Definition WSend (s : bytes) : Prop :=
  exists w, WS w /\ (s = w \/ exists q, ~ In LFb q /\ s = w ++ HASH :: q).

(** ** The scanner reads the grammar *)

Definition block_app (t : bytes) (r : blockScan) : blockScan :=
  match r with
  | BlockClosed body rest saw => BlockClosed (t ++ body) rest saw
  | BlockOpen saw => BlockOpen saw
  end.

Lemma block_app_cons c t r : block_cons c (block_app t r) = block_app (c :: t) r.
Proof. by destruct r. Qed.

Lemma block_app_app t u r : block_app t (block_app u r) = block_app (t ++ u) r.
Proof. destruct r; cbn; [by rewrite app_assoc|done]. Qed.

Lemma block_cons_app c r : block_cons c r = block_app [c] r.
Proof. by destruct r. Qed.

(** Byte tests on the special bytes compute; on others they are refuted. *)
Lemma eqb_refl_b c : (c =?b c) = true.
Proof. apply Ascii.eqb_refl. Qed.

Lemma neqb c d : c <> d -> (c =?b d) = false.
Proof. apply Ascii.eqb_neq. Qed.

Lemma loop_plain d c saw s :
  plain c = true ->
  block_loop d QNone false false saw (c :: s) =
  block_cons c (block_loop d QNone false false (saw || codeByte c) s).
Proof.
  unfold plain, codeByte. intros H. bsimp. cbn [block_loop].
  repeat match goal with H : _ = false |- _ => rewrite H; clear H end. done.
Qed.

Lemma loop_comment d q saw s :
  ~ In LFb q ->
  block_loop d QNone false true saw (q ++ LFb :: s) =
  block_app (q ++ [LFb]) (block_loop d QNone false false saw s).
Proof.
  induction q as [|c q IH]; intros H; cbn [app block_loop]; [by rewrite block_cons_app|].
  cbn [In] in H. rewrite neqb by tauto. cbn [negb].
  by rewrite IH, block_app_cons by tauto.
Qed.

Lemma loop_single d q saw s :
  ~ In QUOTE1 q ->
  block_loop d QSingle false false saw (q ++ QUOTE1 :: s) =
  block_app (q ++ [QUOTE1]) (block_loop d QNone false false (saw || existsb codeByte q) s).
Proof.
  revert saw. induction q as [|c q IH]; intros saw H; cbn [app block_loop existsb].
  - by rewrite block_cons_app, orb_false_r.
  - cbn [In] in H. rewrite neqb by tauto.
    rewrite IH, block_app_cons by tauto. by rewrite orb_assoc.
Qed.

Lemma loop_double d q bq saw s :
  DQ q bq ->
  block_loop d QDouble false false saw (q ++ QUOTE2 :: s) =
  block_app (q ++ [QUOTE2]) (block_loop d QNone false false (saw || bq) s).
Proof.
  intros H. revert saw. induction H as [|c t b H1 H2 _ IH|c t b _ IH]; intros saw;
    cbn [app block_loop].
  - by rewrite block_cons_app, orb_false_r.
  - rewrite neqb, neqb by done. rewrite IH, block_app_cons. by rewrite orb_assoc.
  - rewrite eqb_refl_b. change (block_loop d QDouble true false saw (c :: t ++ QUOTE2 :: s))
      with (block_cons c (block_loop d QDouble false false (saw || escapedCode c) (t ++ QUOTE2 :: s))).
    rewrite IH, !block_app_cons. by rewrite orb_assoc.
Qed.

Lemma loop_open d saw s :
  block_loop d QNone false false saw (LBRACE :: s) =
  block_cons LBRACE (block_loop (S d) QNone false false true s).
Proof. done. Qed.

Lemma loop_close d saw s :
  block_loop (S d) QNone false false saw (RBRACE :: s) =
  block_cons RBRACE (block_loop d QNone false false true s).
Proof. done. Qed.

Lemma loop_body t b d saw s :
  Body t b ->
  block_loop d QNone false false saw (t ++ s) =
  block_app t (block_loop d QNone false false (saw || b) s).
Proof.
  intros H. revert d saw s.
  induction H as [|c t b Hc _ IH|c t b _ IH|q t b Hq _ IH|q bq t b Hq _ IH
                 |q t b Hq _ IH|t bt u bu _ IHt _ IHu]; intros d saw s.
  - rewrite orb_false_r. by destruct (block_loop _ _ _ _ _ _).
  - cbn [app]. rewrite loop_plain, IH, block_app_cons by done. by rewrite orb_assoc.
  - cbn [app]. change (block_loop d QNone false false saw (BSL :: c :: t ++ s)) with
      (block_cons BSL (block_cons c
         (block_loop d QNone false false (saw || escapedCode c) (t ++ s)))).
    rewrite IH, !block_app_cons. by rewrite orb_assoc.
  - cbn [app]. change (block_loop d QNone false false saw (QUOTE1 :: (q ++ QUOTE1 :: t) ++ s))
      with (block_cons QUOTE1 (block_loop d QSingle false false saw ((q ++ QUOTE1 :: t) ++ s))).
    rewrite <- app_assoc. cbn [app]. rewrite loop_single, IH by done.
    rewrite block_app_app, block_app_cons, orb_assoc, <- app_assoc. done.
  - cbn [app]. change (block_loop d QNone false false saw (QUOTE2 :: (q ++ QUOTE2 :: t) ++ s))
      with (block_cons QUOTE2 (block_loop d QDouble false false saw ((q ++ QUOTE2 :: t) ++ s))).
    rewrite <- app_assoc. cbn [app]. rewrite (loop_double _ _ bq), IH by done.
    rewrite block_app_app, block_app_cons, orb_assoc, <- app_assoc. done.
  - cbn [app]. change (block_loop d QNone false false saw (HASH :: (q ++ LFb :: t) ++ s))
      with (block_cons HASH (block_loop d QNone false true saw ((q ++ LFb :: t) ++ s))).
    rewrite <- app_assoc. cbn [app]. rewrite loop_comment, IH by done.
    rewrite block_app_app, block_app_cons, <- app_assoc. done.
  - cbn [app]. rewrite loop_open, <- app_assoc. cbn [app].
    rewrite IHt, loop_close, IHu, block_cons_app, !block_app_app, block_app_cons.
    rewrite block_app_app, orb_true_r. done.
Qed.

Lemma block_app_closed t r body rest saw :
  block_app t r = BlockClosed body rest saw ->
  exists body', body = t ++ body' /\ r = BlockClosed body' rest saw.
Proof. destruct r; [|done]. intros [= <- <- <-]. eauto. Qed.

Lemma block_cons_closed c r body rest saw :
  block_cons c r = BlockClosed body rest saw ->
  exists body', body = c :: body' /\ r = BlockClosed body' rest saw.
Proof. destruct r; [|done]. intros [= <- <- <-]. eauto. Qed.

(** Reading back: a quoted string or a comment that the loop leaves was
    terminated. *)
Lemma loop_comment_inv d saw s body rest w :
  block_loop d QNone false true saw s = BlockClosed body rest w ->
  exists q s', ~ In LFb q /\ s = q ++ LFb :: s' /\ (length s' < length s)%nat.
Proof.
  revert body. induction s as [|c s IH]; intros body H; [done|].
  cbn [block_loop] in H. apply block_cons_closed in H as (body' & -> & H).
  destruct (Ascii.eqb_spec c LFb) as [->|Hc]; cbn [negb] in H.
  - exists [], s. split_and!; [tauto|done|cbn; lia].
  - destruct (IH _ H) as (q & s' & Hq & -> & Hl). exists (c :: q), s'.
    split_and!; [cbn; intros [->|]; tauto|done|cbn in *; lia].
Qed.

Lemma loop_single_inv d saw s body rest w :
  block_loop d QSingle false false saw s = BlockClosed body rest w ->
  exists q s', ~ In QUOTE1 q /\ s = q ++ QUOTE1 :: s' /\ (length s' < length s)%nat.
Proof.
  revert saw body. induction s as [|c s IH]; intros saw body H; [done|].
  cbn [block_loop] in H. destruct (Ascii.eqb_spec c QUOTE1) as [->|Hc].
  - exists [], s. split_and!; [tauto|done|cbn; lia].
  - apply block_cons_closed in H as (body' & -> & H).
    destruct (IH _ _ H) as (q & s' & Hq & -> & Hl). exists (c :: q), s'.
    split_and!; [cbn; intros [->|]; tauto|done|cbn in *; lia].
Qed.

Lemma loop_double_inv d saw s body rest w :
  block_loop d QDouble false false saw s = BlockClosed body rest w ->
  exists q bq s', DQ q bq /\ s = q ++ QUOTE2 :: s' /\ (length s' < length s)%nat.
Proof.
  remember (length s) as n eqn:Hn. revert saw s body Hn.
  induction n as [n IH] using (well_founded_induction lt_wf); intros saw s body -> H.
  destruct s as [|c s]; [done|]. cbn [block_loop] in H.
  destruct (Ascii.eqb_spec c BSL) as [->|Hc].
  - destruct s as [|e s]; [done|]. apply block_cons_closed in H as (b1 & -> & H).
    cbn [block_loop] in H. apply block_cons_closed in H as (b2 & -> & H).
    destruct (IH (length s) ltac:(cbn; lia) _ _ _ eq_refl H) as (q & bq & s' & Hq & -> & Hl).
    exists (BSL :: e :: q), (escapedCode e || bq), s'.
    split_and!; [by constructor|done|cbn in *; lia].
  - destruct (Ascii.eqb_spec c QUOTE2) as [->|Hc2].
    + exists [], false, s. split_and!; [constructor|done|cbn; lia].
    + apply block_cons_closed in H as (b1 & -> & H).
      destruct (IH (length s) ltac:(cbn; lia) _ _ _ eq_refl H) as (q & bq & s' & Hq & -> & Hl).
      exists (c :: q), (codeByte c || bq), s'.
      split_and!; [by constructor|done|cbn in *; lia].
Qed.

(** One grammar item in front of a [Tail]. *)
Lemma tail_cons (pre : bytes) (f : bool -> bool) :
  (forall s b, Body s b -> Body (pre ++ s) (f b)) ->
  forall n s b, Tail n s b -> exists b', Tail n (pre ++ s) b'.
Proof.
  intros Hpre n s b H. destruct H as [s b H|n t bt s b Ht Hs].
  - exists (f b). constructor. by apply Hpre.
  - exists true. rewrite app_assoc. econstructor; [by apply Hpre|done].
Qed.

Lemma tail_block n t bt s b : Body t bt -> Tail n s b -> exists b', Tail n (LBRACE :: t ++ RBRACE :: s) b'.
Proof.
  intros Ht Hs. destruct (tail_cons (LBRACE :: t ++ [RBRACE]) (fun _ => true)) with n s b as [b' H].
  - intros s' b' Hs'. rewrite app_comm_cons, <- app_assoc. cbn [app]. by econstructor.
  - done.
  - exists b'. rewrite app_comm_cons, <- app_assoc in H. exact H.
Qed.

(** Soundness of the loop: what it reads is [depth] closed bodies and the body
    of the block. *)
Lemma block_loop_sound n d saw s body rest w :
  (length s <= n)%nat ->
  block_loop d QNone false false saw s = BlockClosed body rest w ->
  exists b, Tail d body b /\ s = body ++ RBRACE :: rest.
Proof.
  revert d saw s body. induction n as [|n IH]; intros d saw s body Hn H.
  { destruct s; [done|cbn in Hn; lia]. }
  destruct s as [|c s]; [done|]. cbn [length] in Hn.
  destruct (plain c) eqn:Hp.
  { rewrite loop_plain in H by done. apply block_cons_closed in H as (body' & -> & H).
    apply IH in H as (b & Hb & ->); [|lia].
    destruct (tail_cons [c] (orb (codeByte c))) with d body' b as [b' Hb']; [|done|].
    - intros s' bs Hs'. by apply B_plain.
    - by exists b'. }
  unfold plain, is_quote in Hp. apply negb_false_iff in Hp.
  cbn [block_loop] in H. unfold is_quote in H.
  destruct (Ascii.eqb_spec c BSL) as [->|_].
  { destruct s as [|e s]; [done|]. apply block_cons_closed in H as (b1 & -> & H).
    cbn [block_loop] in H. apply block_cons_closed in H as (b2 & -> & H).
    apply IH in H as (b & Hb & ->); [|cbn in *; lia].
    destruct (tail_cons [BSL; e] (orb (escapedCode e))) with d b2 b as [b' Hb']; [|done|].
    - intros s' bs Hs'. by apply (B_esc e).
    - by exists b'. }
  destruct (Ascii.eqb_spec c QUOTE1) as [->|_].
  { apply block_cons_closed in H as (b1 & -> & H). cbn in H.
    destruct (loop_single_inv _ _ _ _ _ _ H) as (q & s' & Hq & -> & Hl).
    rewrite loop_single in H by done. apply block_app_closed in H as (b2 & -> & H).
    apply IH in H as (b & Hb & ->); [|lia].
    destruct (tail_cons (QUOTE1 :: q ++ [QUOTE1]) (orb (existsb codeByte q))) with d b2 b
      as [b' Hb']; [|done|].
    - intros u bu Hu. cbn [app]. rewrite <- app_assoc. by apply B_single.
    - exists b'. split; [exact Hb'|]. cbn [app]. by rewrite <- !app_assoc. }
  destruct (Ascii.eqb_spec c QUOTE2) as [->|_].
  { apply block_cons_closed in H as (b1 & -> & H). cbn in H.
    destruct (loop_double_inv _ _ _ _ _ _ H) as (q & bq & s' & Hq & -> & Hl).
    rewrite (loop_double _ _ bq) in H by done. apply block_app_closed in H as (b2 & -> & H).
    apply IH in H as (b & Hb & ->); [|lia].
    destruct (tail_cons (QUOTE2 :: q ++ [QUOTE2]) (orb bq)) with d b2 b as [b' Hb']; [|done|].
    - intros u bu Hu. cbn [app]. rewrite <- app_assoc. by apply B_double.
    - exists b'. split; [exact Hb'|]. cbn [app]. by rewrite <- !app_assoc. }
  cbn [orb] in H, Hp. destruct (Ascii.eqb_spec c HASH) as [->|_].
  { apply block_cons_closed in H as (b1 & -> & H).
    destruct (loop_comment_inv _ _ _ _ _ _ H) as (q & s' & Hq & -> & Hl).
    rewrite loop_comment in H by done. apply block_app_closed in H as (b2 & -> & H).
    apply IH in H as (b & Hb & ->); [|lia].
    destruct (tail_cons (HASH :: q ++ [LFb]) (fun b => b)) with d b2 b as [b' Hb']; [|done|].
    - intros u bu Hu. cbn [app]. rewrite <- app_assoc. by apply B_comment.
    - exists b'. split; [exact Hb'|]. cbn [app]. by rewrite <- !app_assoc. }
  destruct (Ascii.eqb_spec c LBRACE) as [->|_].
  { apply block_cons_closed in H as (b1 & -> & H).
    apply IH in H as (b & Hb & ->); [|lia].
    inversion Hb as [|? t bt u bu Ht Hu]; subst.
    destruct (tail_block d t bt u bu) as [b' Hb']; [done..|]. exists b'. split; [exact Hb'|].
    cbn [app]. done. }
  destruct (Ascii.eqb_spec c RBRACE) as [->|_]; [|done].
  destruct d as [|d].
  - injection H as <- <- <-. exists false. split; [by repeat constructor|done].
  - apply block_cons_closed in H as (b1 & -> & H).
    apply IH in H as (b & Hb & ->); [|lia]. exists true. split; [|done].
    by apply (T_up d [] false _ b); [constructor|].
Qed.

(** scanBlock closes a block with a given body, rest and code flag exactly
    when the text is a brace, a body of the grammar of quotes, escapes,
    comments and nested braces with that flag, a closing brace and the rest.
    *)
Theorem scanBlock_iff s body rest saw :
  scanBlock s = BlockClosed body rest saw <->
  Body body saw /\ s = LBRACE :: body ++ RBRACE :: rest.
Proof.
  split.
  - intros H. unfold scanBlock in H. destruct s as [|c s]; [done|].
    destruct (Ascii.eqb_spec c LBRACE) as [->|]; [|done].
    destruct (block_loop_sound (length s) _ _ _ _ _ _ ltac:(done) H) as (b & Hb & ->).
    inversion Hb; subst. rewrite (loop_body _ b) in H by done. injection H as _ <-.
    split; [|done]. destruct b; done.
  - intros [H ->]. cbn [scanBlock]. unfold LBRACE at 1. rewrite eqb_refl_b, (loop_body _ saw) by done.
    change (block_loop 0 QNone false false (false || saw) (RBRACE :: rest)) with
      (BlockClosed [] rest saw). cbn [block_app]. by rewrite app_nil_r.
Qed.

(** ** White space and keywords *)

(** The first byte that [skipWSComments] stops at. *)
Definition code_head (s : bytes) : Prop :=
  match s with [] => False | c :: _ => isSpace c = false /\ c <> HASH end.

Lemma skip_ws_app w s : WS w -> skipWSComments (w ++ s) = skipWSComments s.
Proof.
  unfold skipWSComments. induction 1 as [|c w Hc _ IH|q w Hq _ IH]; [done| |].
  - cbn [app skip_ws]. by rewrite Hc.
  - cbn [app]. change (skip_ws false (HASH :: (q ++ LFb :: w) ++ s))
      with (skip_ws true ((q ++ LFb :: w) ++ s)).
    rewrite <- app_assoc. cbn [app]. induction q as [|c q IHq]; [exact IH|].
    cbn [In app skip_ws] in *. rewrite neqb by tauto. apply IHq. tauto.
Qed.

Lemma skip_code_head s : code_head s -> skipWSComments s = s.
Proof.
  destruct s as [|c s]; [done|]. intros [H1 H2]. unfold skipWSComments. cbn [skip_ws].
  by rewrite H1, neqb.
Qed.

Lemma skip_ws_to w s : WS w -> code_head s -> skipWSComments (w ++ s) = s.
Proof. intros Hw Hs. rewrite skip_ws_app by done. by apply skip_code_head. Qed.

Lemma skip_comment_inv s :
  (exists q, ~ In LFb q /\ s = q /\ skip_ws true s = []) \/
  (exists q t, ~ In LFb q /\ s = q ++ LFb :: t /\ skip_ws true s = skip_ws false t).
Proof.
  induction s as [|c s IH]; [left; exists []; split_and!; [tauto|done|done]|].
  cbn [skip_ws]. destruct (Ascii.eqb_spec c LFb) as [->|Hc]; cbn [negb].
  - right. exists [], s. split_and!; [tauto|done|done].
  - destruct IH as [(q & Hq & -> & E)|(q & t & Hq & -> & E)].
    + left. exists (c :: q). split_and!; [cbn; intros [->|]; tauto|done|done].
    + right. exists (c :: q), t. split_and!; [cbn; intros [->|]; tauto|done|done].
Qed.

Lemma skip_ws_inv n s :
  (length s <= n)%nat ->
  (skipWSComments s = [] /\ WSend s) \/
  (exists w, WS w /\ s = w ++ skipWSComments s /\ code_head (skipWSComments s)).
Proof.
  unfold skipWSComments. revert s. induction n as [|n IH]; intros s Hn.
  { destruct s; [|cbn in Hn; lia]. left. split; [done|]. exists []. split; [constructor|by left]. }
  destruct s as [|c s].
  { left. split; [done|]. exists []. split; [constructor|by left]. }
  cbn [skip_ws length] in *. destruct (isSpace c) eqn:Ec.
  - destruct (IH s ltac:(lia)) as [(E & w & Hw & Hs)|(w & Hw & E & Hh)].
    + left. split; [done|]. exists (c :: w). split; [by constructor|].
      destruct Hs as [->|(q & Hq & ->)]; [by left|right; by exists q].
    + right. exists (c :: w). split; [by constructor|]. cbn [app]. by rewrite <- E.
  - destruct (Ascii.eqb_spec c HASH) as [->|Hc].
    + destruct (skip_comment_inv s) as [(q & Hq & -> & E)|(q & t & Hq & -> & E)]; rewrite E.
      * left. split; [done|]. exists []. split; [constructor|right; by exists q].
      * rewrite length_app in Hn. cbn [length] in Hn.
        destruct (IH t ltac:(lia)) as [(E' & w & Hw & Hs)|(w & Hw & E' & Hh)].
        -- left. split; [done|]. exists (HASH :: q ++ LFb :: w). split; [by constructor|].
           destruct Hs as [->|(q' & Hq' & ->)]; [by left|right; exists q'; split; [done|]].
           cbn [app]. by rewrite <- app_assoc.
        -- right. exists (HASH :: q ++ LFb :: w). split; [by constructor|].
           cbn [app]. rewrite <- app_assoc. cbn [app]. by rewrite <- E'.
    + right. exists []. split; [constructor|done].
Qed.

Lemma skip_ws_end s : skipWSComments s = [] <-> WSend s.
Proof.
  split.
  - intros H. destruct (skip_ws_inv (length s) s ltac:(done)) as [[_ ?]|(w & _ & _ & Hh)]; [done|].
    by rewrite H in Hh.
  - intros (w & Hw & [->|(q & Hq & ->)]).
    + rewrite <- (app_nil_r w). by rewrite skip_ws_app.
    + rewrite skip_ws_app by done. change (skip_ws true q = []).
      induction q as [|c q IH]; [done|]. cbn [In skip_ws] in *. rewrite neqb by tauto.
      apply IH. tauto.
Qed.

Lemma skip_ws_cons s c r :
  skipWSComments s = c :: r -> exists w, WS w /\ s = w ++ c :: r /\ code_head (c :: r).
Proof.
  intros H. destruct (skip_ws_inv (length s) s ltac:(done)) as [[E _]|(w & Hw & E & Hh)].
  - congruence.
  - rewrite H in E, Hh. eauto.
Qed.

(** A keyword is read up to the first byte that cannot continue it. *)
Definition ends_ident (s : bytes) : Prop :=
  match s with [] => True | c :: _ => isIdentCont c = false end.

Lemma ident_rest_app w s :
  forallb isIdentCont w = true -> ends_ident s -> ident_rest (w ++ s) = (w, s).
Proof.
  induction w as [|c w IH]; intros Hw Hs; cbn in *.
  - destruct s; [done|]. cbn in *. by rewrite Hs.
  - bsimp. rewrite H, IH by done. done.
Qed.

Lemma ident_rest_inv s w r :
  ident_rest s = (w, r) -> s = w ++ r /\ ends_ident r.
Proof.
  revert w. induction s as [|c s IH]; intros w H; cbn in H; [by injection H as <- <-|].
  destruct (isIdentCont c) eqn:E.
  - destruct (ident_rest s) as [w' r']. injection H as <- <-.
    destruct (IH w' eq_refl) as [-> ?]. done.
  - injection H as <- <-. done.
Qed.

Lemma readIdent_inv s w r : readIdent s = Some (w, r) -> s = w ++ r /\ ends_ident r.
Proof.
  unfold readIdent. destruct s as [|c s]; [done|]. destruct (isIdentStart c); [|done].
  destruct (ident_rest s) as [w' r'] eqn:E. intros [= <- <-].
  apply ident_rest_inv in E as [-> ?]. done.
Qed.

Lemma ends_ident_ws w s : WS w -> ends_ident s -> ends_ident (w ++ s).
Proof.
  destruct 1 as [|c w Hc _|q w _ _]; [done| |done]. intros _. cbn.
  unfold isSpace in Hc. bsimp. unfold isIdentCont, isIdentStart.
  repeat match goal with
  | H : _ \/ _ |- _ => destruct H
  | H : _ || _ = true |- _ => apply orb_true_iff in H
  | H : (_ =?b _) = true |- _ => apply Ascii.eqb_eq in H; subst
  end; done.
Qed.

Lemma readIdent_key k s :
  forallb isIdentCont k = true -> (exists c k', k = c :: k' /\ isIdentStart c = true) ->
  ends_ident s -> readIdent (k ++ s) = Some (k, s).
Proof.
  intros Hk (c & k' & -> & Hc) Hs. cbn in *. bsimp. rewrite Hc, ident_rest_app by done. done.
Qed.

Lemma readIdent_try s : ends_ident s -> readIdent (lit "try" ++ s) = Some (lit "try", s).
Proof. intros. apply readIdent_key; [done|by eexists _, _|done]. Qed.
Lemma readIdent_catch s : ends_ident s -> readIdent (lit "catch" ++ s) = Some (lit "catch", s).
Proof. intros. apply readIdent_key; [done|by eexists _, _|done]. Qed.
Lemma readIdent_if s : ends_ident s -> readIdent (lit "if" ++ s) = Some (lit "if", s).
Proof. intros. apply readIdent_key; [done|by eexists _, _|done]. Qed.
Lemma readIdent_else s : ends_ident s -> readIdent (lit "else" ++ s) = Some (lit "else", s).
Proof. intros. apply readIdent_key; [done|by eexists _, _|done]. Qed.

(** ** Whole forms *)

Definition block (b : bytes) : bytes := LBRACE :: b ++ [RBRACE].

Lemma scan_block b t saw : Body b saw -> scanBlock (block b ++ t) = BlockClosed b t saw.
Proof.
  intros H. unfold block. cbn [app]. rewrite <- app_assoc. cbn [app scanBlock].
  unfold LBRACE at 1. rewrite eqb_refl_b, (loop_body _ saw) by done.
  change (block_loop 0 QNone false false (false || saw) (RBRACE :: t)) with
    (BlockClosed [] t saw). cbn [block_app]. by rewrite app_nil_r.
Qed.

Lemma scan_block_inv s b t saw :
  scanBlock s = BlockClosed b t saw -> Body b saw /\ s = block b ++ t.
Proof.
  unfold scanBlock. destruct s as [|c s]; [done|].
  destruct (Ascii.eqb_spec c LBRACE) as [->|]; [|done]. intros H.
  destruct (block_loop_sound (length s) _ _ _ _ _ _ ltac:(done) H) as (bb & Hb & ->).
  inversion Hb; subst. rewrite (loop_body _ bb) in H by done. injection H as _ <-.
  split; [by destruct bb|]. unfold block. cbn [app]. by rewrite <- app_assoc.
Qed.

Lemma skip_block w b t : WS w -> skipWSComments (w ++ block b ++ t) = block b ++ t.
Proof. intros. by apply skip_ws_to. Qed.

Lemma ends_ident_block w b t : WS w -> ends_ident (w ++ block b ++ t).
Proof. intros. by apply ends_ident_ws. Qed.

Lemma skip_block_inv s c r b t saw :
  skipWSComments s = c :: r -> scanBlock (c :: r) = BlockClosed b t saw ->
  exists w, WS w /\ s = w ++ block b ++ t /\ Body b saw.
Proof.
  intros Hs Hb. apply skip_ws_cons in Hs as (w & Hw & -> & _).
  apply scan_block_inv in Hb as [Hb ->]. eauto.
Qed.

Lemma read_word_inv s word r :
  readIdent (skipWSComments s) = Some (word, r) ->
  exists w, WS w /\ s = w ++ word ++ r /\ ends_ident r.
Proof.
  intros H. destruct (skipWSComments s) as [|c t] eqn:E; [done|].
  apply skip_ws_cons in E as (w & Hw & -> & _). apply readIdent_inv in H as [-> Hr]. eauto.
Qed.

Lemma scan_block_head b t : exists c r, block b ++ t = c :: r /\ (c =?b LBRACE) = true.
Proof. by eexists _, _. Qed.

(** ClassifyFlow accepts a chunk as try/catch with the given bodies exactly
    when, within the size caps, it is the keyword try, a brace block, the
    keyword catch and a brace block of the independent block grammar, both
    with code, separated by white space and comments only. *)
Theorem ClassifyFlow_try_iff src body catch :
  ClassifyFlow src = FlowTry body catch <->
  checkCap src = None /\ Body body true /\ Body catch true /\
  exists w0 w1 w2 w3 w4, WS w0 /\ WS w1 /\ WS w2 /\ WS w3 /\ WSend w4 /\
    src = w0 ++ lit "try" ++ w1 ++ block body ++ w2 ++ lit "catch" ++ w3 ++ block catch ++ w4.
Proof.
  unfold ClassifyFlow. split.
  - destruct (checkCap src); [done|].
    destruct (readIdent (skipWSComments src)) as [[word next]|] eqn:E0; [|done].
    apply read_word_inv in E0 as (w0 & Hw0 & -> & _).
    case_bool_decide as Eword; [subst word|case_bool_decide; [|done]].
    2:{ unfold classifyIf. intros HF. repeat (case_match; try discriminate HF). }
    unfold classifyTry. destruct (skipWSComments next) as [|c1 r1] eqn:E1; [done|].
    destruct (negb _); [done|].
    destruct (scanBlock (c1 :: r1)) as [b1 n1 [|]|] eqn:B1; [|done..].
    destruct (skip_block_inv _ _ _ _ _ _ E1 B1) as (w1 & Hw1 & -> & Hb1).
    destruct (skipWSComments n1) as [|c2 r2] eqn:E2; [done|].
    destruct (readIdent (c2 :: r2)) as [[word2 after]|] eqn:R2; [|done].
    rewrite <- E2 in R2. apply read_word_inv in R2 as (w2 & Hw2 & -> & _).
    case_bool_decide as Ew2; [subst word2|done]. cbn [negb].
    destruct (skipWSComments after) as [|c3 r3] eqn:E3; [done|].
    destruct (negb _); [done|].
    destruct (scanBlock (c3 :: r3)) as [b3 n3 [|]|] eqn:B3; [|done..].
    destruct (skip_block_inv _ _ _ _ _ _ E3 B3) as (w3 & Hw3 & -> & Hb3).
    destruct (skipWSComments n3) as [|] eqn:E4; [|done].
    intros [= <- <-]. apply skip_ws_end in E4. do 3 (split; [done|]).
    exists w0, w1, w2, w3, n3. by split_and!.
  - intros (-> & Hb1 & Hb2 & w0 & w1 & w2 & w3 & w4 & H0 & H1 & H2 & H3 & H4 & ->).
    rewrite skip_ws_to by (done || split; done).
    rewrite readIdent_try by (by apply ends_ident_block).
    rewrite bool_decide_true by done. unfold classifyTry.
    rewrite skip_block by done. destruct (scan_block_head body
      (w2 ++ lit "catch" ++ w3 ++ block catch ++ w4)) as (c & r & E & Ec).
    rewrite E, Ec. cbn [negb]. rewrite <- E. rewrite (scan_block _ _ true) by done.
    rewrite skip_ws_to by (done || split; done).
    destruct (lit "catch" ++ _) as [|c2 r2] eqn:E2; [done|]. rewrite <- E2.
    rewrite readIdent_catch by (by apply ends_ident_block).
    rewrite bool_decide_true by done. cbn [negb].
    rewrite skip_block by done.
    destruct (scan_block_head catch w4) as (c' & r' & E' & Ec').
    rewrite E', Ec'. cbn [negb]. rewrite <- E'. rewrite (scan_block _ _ true) by done.
    apply skip_ws_end in H4. by rewrite H4.
Qed.

(** ** Conditions *)

Lemma cond_cons_brace c r cond brace :
  cond_cons c r = StopBrace cond brace ->
  exists cond', cond = c :: cond' /\ r = StopBrace cond' brace.
Proof. destruct r; try done. intros [= <- <-]. eauto. Qed.

(** A brace that opens the body is at bracket depth zero and outside quotes,
    and its block, if it closes, is not followed by a colon. *)
Definition opens_body (brace : bytes) : Prop :=
  (exists r, brace = LBRACE :: r) /\
  (forall b next saw, scanBlock brace = BlockClosed b next saw -> colonFollows next = false).

Lemma cond_loop_brace n depth q escape comment word s cond brace :
  (length s <= n)%nat ->
  cond_loop depth q escape comment word s = StopBrace cond brace ->
  s = cond ++ brace /\ opens_body brace.
Proof.
  revert depth q escape comment word s cond. induction n as [|n IH];
    intros depth q escape comment word s cond Hn H.
  { destruct s; [|cbn in Hn; lia]. cbn in H. by destruct (posix_word word). }
  destruct s as [|b s]; [cbn in H; by destruct (posix_word word)|]. cbn [length] in Hn.
  assert (Hgo : forall depth q escape comment word,
    cond_cons b (cond_loop depth q escape comment word s) = StopBrace cond brace ->
    b :: s = cond ++ brace /\ opens_body brace).
  { intros * Hc. apply cond_cons_brace in Hc as (c' & -> & Hc).
    apply IH in Hc as [-> ?]; [done|lia]. }
  cbn [cond_loop] in H. destruct comment; [by eapply Hgo|].
  destruct q; [|by eapply Hgo|destruct escape; [|destruct (b =?b BSL)]; by eapply Hgo].
  destruct escape; [by eapply Hgo|]. destruct depth as [|d].
  2:{ repeat (case_match; [by eapply Hgo|]). by eapply Hgo. }
  destruct (b =?b BSL); [destruct (posix_word word); [done|by eapply Hgo]|].
  destruct (is_quote b); [destruct (posix_word word); [done|by eapply Hgo]|].
  destruct (b =?b HASH); [destruct (posix_word word); [done|by eapply Hgo]|].
  destruct (b =?b "$"%char).
  { destruct s as [|c s]; [by eapply Hgo|]. destruct (c =?b LBRACE); [|by eapply Hgo].
    destruct (posix_word word); [done|].
    apply cond_cons_brace in H as (c1 & -> & H). apply cond_cons_brace in H as (c2 & -> & H).
    apply IH in H as [-> ?]; [done|cbn in Hn; lia]. }
  destruct (b =?b COLON); [by destruct (posix_word word)|].
  destruct (Ascii.eqb_spec b LBRACE) as [->|_].
  { destruct (posix_word word); [done|].
    destruct (scanBlock (LBRACE :: s)) as [t next saw|] eqn:E.
    - destruct (colonFollows next) eqn:Ec; [done|]. injection H as <- <-.
      split; [done|]. split; [by eexists|]. intros * Hb. rewrite E in Hb. by injection Hb as <- <- <-.
    - injection H as <- <-. split; [done|]. split; [by eexists|]. intros * Hb. congruence. }
  destruct (_ || _); [destruct (posix_word word); [done|by eapply Hgo]|].
  destruct (isWordSep b); [destruct (posix_word word); [done|by eapply Hgo]|by eapply Hgo].
Qed.

(** The tail of an [if] form: nothing, or one [else] block. *)
Inductive ElseTail : bytes -> option bytes -> Prop :=
| Else_none w : WSend w -> ElseTail w None
| Else_some w2 w3 w4 els : WS w2 -> WS w3 -> WSend w4 -> Body els true ->
    ElseTail (w2 ++ lit "else" ++ w3 ++ block els ++ w4) (Some els).

(** ClassifyFlow accepts a chunk as a brace if exactly when it is the keyword
    if, a non-blank condition that the condition scanner ends at the body
    brace, a then block with code and either nothing or one else block with
    code, and no Starlark colon follows. *)
Theorem ClassifyFlow_if_iff src cond thn els :
  ClassifyFlow src = FlowIf cond thn els <->
  checkCap src = None /\
  firstLineEndsWithColon src && firstLineColonOutsideBrackets src = false /\
  blank (stripComments cond) = false /\ Body thn true /\
  exists w0 tail, WS w0 /\ ElseTail tail els /\ ends_ident (cond ++ block thn ++ tail) /\
    scanCondition (cond ++ block thn ++ tail) = StopBrace cond (block thn ++ tail) /\
    colonFollows tail = false /\
    src = w0 ++ lit "if" ++ cond ++ block thn ++ tail.
Proof.
  unfold ClassifyFlow. split.
  - destruct (checkCap src); [done|].
    destruct (readIdent (skipWSComments src)) as [[word next]|] eqn:E0; [|done].
    apply read_word_inv in E0 as (w0 & Hw0 & Esrc & Hid).
    case_bool_decide as Et; [subst word|case_bool_decide as Ei; [subst word|done]].
    { unfold classifyTry. intros HF. repeat (case_match; try discriminate HF). }
    unfold classifyIf. destruct (_ && _) eqn:Ecol; [done|].
    destruct (scanCondition next) as [c brace| | |] eqn:Ec; try done.
    destruct (blank _) eqn:Eb; [done|].
    destruct (scanBlock brace) as [b1 n1 [|]|] eqn:B1; [|done..].
    pose proof (cond_loop_brace _ _ _ _ _ _ _ _ _ (Nat.le_refl _) Ec) as [En [_ Hcf]].
    specialize (Hcf _ _ _ B1). apply scan_block_inv in B1 as [Hb1 ->].
    intros H. assert (Htail : cond = c /\ thn = b1 /\ ElseTail n1 els).
    { destruct (skipWSComments n1) as [|c2 r2] eqn:E2.
      { injection H as <- <- <-. split_and!; [done..|]. constructor. by apply skip_ws_end. }
      destruct (readIdent (c2 :: r2)) as [[word2 after]|] eqn:R2; [|done].
      rewrite <- E2 in R2. apply read_word_inv in R2 as (w2 & Hw2 & -> & _).
      case_bool_decide as Ew2; [subst word2|done]. cbn [negb] in H.
      destruct (skipWSComments after) as [|c3 r3] eqn:E3; [done|].
      destruct (negb _); [done|].
      destruct (scanBlock (c3 :: r3)) as [b3 n3 [|]|] eqn:B3; [|done..].
      destruct (skip_block_inv _ _ _ _ _ _ E3 B3) as (w3 & Hw3 & -> & Hb3).
      destruct (skipWSComments n3) as [|] eqn:E4; [|done]. injection H as <- <- <-.
      apply skip_ws_end in E4. split_and!; [done..|]. by constructor. }
    destruct Htail as (-> & -> & Ht). do 4 (split; [done|]).
    exists w0, n1. rewrite En in Ec, Hid, Esrc. by split_and!.
  - intros (-> & Hcol & Hbl & Hb & w0 & tail & H0 & Ht & Hid & Hc & Hcf & ->).
    rewrite skip_ws_to by (done || split; done).
    rewrite readIdent_if by done. rewrite bool_decide_false by done.
    rewrite bool_decide_true by done. unfold classifyIf.
    rewrite Hcol, Hc, Hbl, (scan_block _ _ true) by done.
    destruct Ht as [w Hw|w2 w3 w4 els H2 H3 H4 He].
    + apply skip_ws_end in Hw. by rewrite Hw.
    + rewrite skip_ws_to by (done || split; done).
      destruct (lit "else" ++ _) as [|c2 r2] eqn:E2; [done|]. rewrite <- E2.
      rewrite readIdent_else by (by apply ends_ident_block).
      rewrite bool_decide_true by done. cbn [negb]. rewrite skip_block by done.
      destruct (scan_block_head els w4) as (c' & r' & E' & Ec').
      rewrite E', Ec'. cbn [negb]. rewrite <- E'. rewrite (scan_block _ _ true) by done.
      apply skip_ws_end in H4. by rewrite H4.
Qed.
