(* ===== verification/Router.v ===== *)
(** * Routing a chunk to Starlark or to the shell

    parser/parser.go and the second half of parser/flow.go.  The two parsers
    the router asks, go.starlark.net's and mvdan.cc/sh's, are the operations of
    the class [Parsers]; what the router matches on in a Starlark tree is the
    type [expr]. *)

From S2P Require Import Prelude GoBytes FlowScan.

Inductive EvalMode := ModeStarlark | ModeShell.

#[local] Set Warnings "-register-all".

(** The cases of [assignable]'s type switch; [Other] is every other node. *)
Inductive expr :=
| Ident | DotExpr | IndexExpr
| ParenExpr (x : expr)
| TupleExpr (l : list expr)
| ListExpr (l : list expr)
| OtherExpr.

Inductive stmt := AssignStmt (lhs : expr) | OtherStmt.

(** [starlarkLineOptions.Parse], with the error's message, and
    [syntax.IsIncomplete] of the shell parser's error. *)
Class Parsers := {
  parse_starlark : bytes -> result bytes (list stmt);
  shell_incomplete : bytes -> bool
}.

(** ** Regular expressions *)

Definition is_re_space (b : byte) : bool :=
  isSpace b || (b =?b ascii_of_nat 12).

Fixpoint span (p : byte -> bool) (s : bytes) : bytes * bytes :=
  match s with
  | c :: s' => if p c then let '(a, r) := span p s' in (c :: a, r) else ([], s)
  | [] => ([], [])
  end.

(** [envPrefixCmdRe]: each repetition is followed by a byte that it cannot
    match, so the greedy reading is the only one. *)
Definition envPrefixCmd (s : bytes) : bool :=
  match readIdent s with
  | Some (_, eq :: r) =>
      if eq =?b "="%char then
        match span is_blank (snd (span (fun c => negb (is_blank c)) r)) with
        | (_ :: _, c :: _) => negb (is_re_space c)
        | _ => false
        end
      else false
  | _ => false
  end.

(** The selectors of [spacedAssignRe]: .name or [index]; [fuel] is the length. *)
Fixpoint skip_selectors (fuel : nat) (s : bytes) : bytes :=
  match fuel with
  | O => s
  | S fuel' =>
      match s with
      | c :: s' =>
          if c =?b "."%char then
            match readIdent s' with Some (_, r) => skip_selectors fuel' r | None => s end
          else if c =?b "["%char then
            match cut_byte "]"%char s' with Some (_, r) => skip_selectors fuel' r | None => s end
          else s
      | [] => s
      end
  end.

Definition spacedAssign (s : bytes) : bool :=
  match readIdent s with
  | None => false
  | Some (_, r) =>
      match span is_blank (skip_selectors (length r) r) with
      | (_ :: _, eq :: c :: _) => (eq =?b "="%char) && is_blank c
      | _ => false
      end
  end.

(** ** [assignable], [OpensBlock] *)

Fixpoint assignable (e : expr) : bool :=
  match e with
  | Ident | DotExpr | IndexExpr => true
  | ParenExpr x => assignable x
  | TupleExpr l | ListExpr l => forallb assignable l && negb (Nat.eqb (length l) 0)
  | OtherExpr => false
  end.

(** The open quote of [OpensBlock]: its byte, and whether it is tripled. *)
Definition openQuote := option (byte * bool).

(** The loop of [OpensBlock]; [skip] counts the bytes that [i++] jumps over. *)
Fixpoint opens_loop (skip : nat) (comment : bool) (depth : Z) (q : openQuote) (s : bytes)
  : Z * openQuote :=
  match s with
  | [] => (depth, q)
  | c :: s' =>
      match skip with
      | S k => opens_loop k comment depth q s'
      | O =>
          if comment then opens_loop 0 (negb (c =?b LFb)) depth q s'
          else match q with
          | Some (k, triple) =>
              if c =?b BSL then opens_loop 1 false depth q s'
              else if (c =?b LFb) && negb triple then opens_loop 0 false depth None s'
              else if triple then
                if has_prefix [k; k; k] s then opens_loop 2 false depth None s'
                else opens_loop 0 false depth q s'
              else if c =?b k then opens_loop 0 false depth None s'
              else opens_loop 0 false depth q s'
          | None =>
              if c =?b HASH then opens_loop 0 true depth q s'
              else if is_quote c then
                if has_prefix [c; c; c] s then opens_loop 2 false depth (Some (c, true)) s'
                else opens_loop 0 false depth (Some (c, false)) s'
              else if is_open c then opens_loop 0 false (depth + 1) q s'
              else if is_close c then opens_loop 0 false (depth - 1) q s'
              else opens_loop 0 false depth q s'
          end
      end
  end.

Definition OpensBlock (src : bytes) : bool :=
  let '(depth, q) := opens_loop 0 false 0 None src in
  if (0 <? depth) || (match q with Some _ => true | None => false end) then true
  else
    let last := trim_right_set isSpace src in
    has_suffix [COLON] last || has_suffix [BSL] last.

(** ** [DetermineMode] and [ClassifyChunk] *)

Inductive ChunkKind := ChunkReady | ChunkNeedMore | ChunkSyntax.

Record Chunk := mkChunk { kind : ChunkKind; chunkErr : option flowErr; mode : EvalMode }.

Section router.
Context {P : Parsers}.

Definition starlarkLine (line : bytes) : bool :=
  match parse_starlark line with
  | Err msg =>
      (contains (lit "got end of file") msg || contains (lit "unexpected EOF") msg)
      && OpensBlock line
  | Ok stmts =>
      forallb (fun s => match s with AssignStmt lhs => assignable lhs | OtherStmt => true end) stmts
  end.

Definition DetermineMode (line : bytes) : EvalMode :=
  let trimmed := trim_space line in
  if has_prefix (lit "!") trimmed || has_prefix (lit "$ ") trimmed then ModeShell
  else if ifKeyword trimmed then
    if posixIfBeforeBrace trimmed then ModeShell
    else if starlarkIf trimmed then ModeStarlark
    else ModeShell
  else if has_prefix (lit "def ") trimmed || has_prefix (lit "for ") trimmed
          || has_prefix (lit "print(") trimmed || has_prefix (lit "load(") trimmed then ModeStarlark
  else if has_prefix (lit "[") trimmed then ModeShell
  else if has_prefix (lit "export ") trimmed then ModeShell
  else if envPrefixCmd trimmed then ModeShell
  else if contains (lit "=") trimmed && negb (has_prefix (lit "==") trimmed) then
    if starlarkLine trimmed || spacedAssign trimmed then ModeStarlark else ModeShell
  else ModeShell.

Definition ShellIncomplete (src : bytes) : bool :=
  let s := trim_space src in
  let s := if has_prefix (lit "!") s then trim_space (drop 1 s)
           else if has_prefix (lit "$ ") s then trim_space (drop 2 s) else s in
  shell_incomplete s.

(** A syntax chunk's mode is Go's zero value. *)
Definition ClassifyChunk (src : bytes) : Chunk :=
  match ClassifyFlow src with
  | FlowIf _ _ _ | FlowTry _ _ => mkChunk ChunkReady None ModeShell
  | FlowIncomplete e => mkChunk ChunkNeedMore (Some e) ModeShell
  | FlowSyntax e => mkChunk ChunkSyntax (Some e) ModeStarlark
  | FlowNot =>
      let first := firstLine src in
      if (match DetermineMode first with ModeStarlark => true | ModeShell => false end)
         || (ifKeyword (trim_space first) && starlarkIf (trim_space src))
      then mkChunk ChunkReady None ModeStarlark
      else if ShellIncomplete src then mkChunk ChunkNeedMore None ModeShell
      else mkChunk ChunkReady None ModeShell
  end.

(** ** Theorems *)

(** What may run unprompted as Starlark: the line has one of the Starlark
    shapes, and when the parser stopped early the block is open. *)
Definition starlark_shape (t : bytes) : Prop :=
  (ifKeyword t = true /\ starlarkIf t = true /\ posixIfBeforeBrace t = false) \/
  (exists k, In k [lit "def "; lit "for "; lit "print("; lit "load("] /\ has_prefix k t = true) \/
  (contains (lit "=") t = true /\ has_prefix (lit "==") t = false /\ envPrefixCmd t = false /\
   (spacedAssign t = true \/
    (exists stmts, parse_starlark t = Ok stmts /\
       forall lhs, In (AssignStmt lhs) stmts -> assignable lhs = true) \/
    (exists msg, parse_starlark t = Err msg /\ OpensBlock t = true))).

(** A line routed to Starlark by its shape alone has one of the listed shapes. *)
Theorem starlark_mode_shape line :
  DetermineMode line = ModeStarlark ->
  has_prefix (lit "!") (trim_space line) = false /\
  has_prefix (lit "$ ") (trim_space line) = false /\ starlark_shape (trim_space line).
Proof.
  unfold DetermineMode, starlark_shape. set (t := trim_space line). cbv zeta.
  destruct (has_prefix (lit "!") t || has_prefix (lit "$ ") t) eqn:E0; [done|].
  bsimp. intros Hm. split_and!; try done. revert Hm.
  destruct (ifKeyword t) eqn:Ei.
  { destruct (posixIfBeforeBrace t) eqn:Ep; [done|]. destruct (starlarkIf t) eqn:Es; [|done].
    intros _. left. by split_and!. }
  destruct (has_prefix (lit "def ") t || has_prefix (lit "for ") t
            || has_prefix (lit "print(") t || has_prefix (lit "load(") t) eqn:Ed.
  { intros _. right; left. bsimp. cbn [In].
    repeat match goal with
    | H : _ \/ _ |- _ => destruct H
    | H : _ || _ = true |- _ => apply orb_true_iff in H
    end; eexists; (split; [|eassumption]); tauto. }
  destruct (has_prefix (lit "[") t); [done|]. destruct (has_prefix (lit "export ") t); [done|].
  destruct (envPrefixCmd t) eqn:Ev; [done|].
  destruct (contains (lit "=") t && negb (has_prefix (lit "==") t)) eqn:Eq; [|done].
  destruct (starlarkLine t || spacedAssign t) eqn:Es; [|done].
  intros _. right; right. bsimp. split_and!; try done.
  destruct Es as [Es|]; [right|by left]. unfold starlarkLine in Es.
  destruct (parse_starlark t) as [stmts|msg].
  - left. exists stmts. split; [done|]. intros lhs Hin.
    rewrite forallb_forall in Es. exact (Es _ Hin).
  - right. exists msg. bsimp. done.
Qed.

(** A chunk over the size caps is never reported as ready. *)
Theorem oversized_never_ready src :
  (MaxChunkBytes < zlen src \/ MaxChunkLines < chunkLineCount src) ->
  kind (ClassifyChunk src) = ChunkSyntax /\
  (chunkErr (ClassifyChunk src) = Some ErrTooBig \/
   chunkErr (ClassifyChunk src) = Some ErrTooManyLines).
Proof.
  intros H. unfold ClassifyChunk, ClassifyFlow, checkCap.
  destruct (MaxChunkBytes <? zlen src) eqn:E1; [cbn; tauto|].
  destruct (MaxChunkLines <? chunkLineCount src) eqn:E2; [cbn; tauto|]. bsimp. lia.
Qed.

End router.

#[export] Instance no_parsers : Parsers :=
  {| parse_starlark := fun _ => Err (lit "got end of file"); shell_incomplete := fun _ => false |}.

Lemma starlark_mode_shape_witness :
  DetermineMode (P := no_parsers) (lit " x = {") = ModeStarlark /\
  starlark_shape (P := no_parsers) (lit "x = {").
Proof.
  assert (H : DetermineMode (P := no_parsers) (lit " x = {") = ModeStarlark) by reflexivity.
  split; [exact H|]. exact (proj2 (proj2 (starlark_mode_shape (P := no_parsers) (lit " x = {") H))).
Defined.

Lemma oversized_never_ready_witness :
  kind (ClassifyChunk (P := no_parsers) (repeat LFb 257)) = ChunkSyntax.
Proof.
  apply (oversized_never_ready (P := no_parsers) (repeat LFb 257)). right. vm_compute. reflexivity.
Defined.
