(* ===== verification/FlowRun.v ===== *)
(** * Running chunks: internal/repl/flow.go and the end of paste.go

    [RunFlow] executes a brace if/else or try/catch chunk against the session
    runner; [AccumulateScript] cuts a script into chunks; [readPending] and
    [readStarlarkBlock] collect continuation lines; [runHeldPaste] runs a held
    paste chunk by chunk.  The shell runner, the gate and the parsers are the
    operations of the class [Runner], over an abstract session state. *)

From S2P Require Import Prelude GoBytes FlowScan Router PasteReader.

(** An error of the runner or of [RunFlow]: only a direct exit status is
    catchable. *)
Inductive runErr (E : Type) :=
| ExitStatus (n : Z)
| FlowError (e : flowErr)
| NotABlock
| NotConfigured
| OtherErr (e : E).
Arguments ExitStatus {E}. Arguments FlowError {E}. Arguments NotABlock {E}.
Arguments NotConfigured {E}. Arguments OtherErr {E}.

(** The services RunFlow calls: [parse_shell] is the shell parser, whose file
    is its statements; [gate] is [FlowExec.Gate]; [run_stmt] is [Runner.Run];
    [exited] is [Runner.Exited] and [ctx_err] is [Ctx.Err]. *)
Class Runner (St Stmt E : Type) := {
  parse_shell : bytes -> result E (list Stmt);
  gate : list Stmt -> St -> option E * St;
  run_stmt : Stmt -> St -> option (runErr E) * St;
  exited : St -> bool;
  ctx_err : St -> option E
}.

Section runner.
Context {St Stmt E : Type} {R : Runner St Stmt E}.
Implicit Types (s : St).

(** ** [RunFlow] *)

Definition is_exit_status (e : runErr E) : bool :=
  match e with ExitStatus _ => true | _ => false end.

Fixpoint runStmts (f : list Stmt) (s : St) : option (runErr E) * St :=
  match f with
  | [] => (None, s)
  | st :: f' =>
      match ctx_err s with
      | Some e => (Some (OtherErr e), s)
      | None =>
          let '(err, s1) := run_stmt st s in
          if exited s1 then (err, s1)
          else match err with
          | None => runStmts f' s1
          | Some (ExitStatus 0) => runStmts f' s1
          | Some e => (Some e, s1)
          end
      end
  end.

Fixpoint run_condition (last : option (runErr E)) (f : list Stmt) (s : St)
  : option (runErr E) * St :=
  match f with
  | [] => (last, s)
  | st :: f' =>
      match ctx_err s with
      | Some e => (Some (OtherErr e), s)
      | None =>
          let '(err, s1) := run_stmt st s in
          if exited s1 then (err, s1)
          else match err with
          | None => run_condition None f' s1
          | Some (ExitStatus n) => run_condition (Some (ExitStatus n)) f' s1
          | Some e => (Some e, s1)
          end
      end
  end.

Definition runCondition (f : list Stmt) (s : St) : option (runErr E) * St :=
  run_condition None f s.

(** [prepareBody]; [empty] is [emptyBody] of the body's name. *)
Definition prepareBody (empty : flowErr) (src : bytes) (s : St)
  : result (runErr E) (list Stmt) * St :=
  match parse_shell src with
  | Err e => (Err (OtherErr e), s)
  | Ok [] => (Err (FlowError empty), s)
  | Ok f => match gate f s with
            | (Some e, s1) => (Err (OtherErr e), s1)
            | (None, s1) => (Ok f, s1)
            end
  end.

Definition preparePair (ea : flowErr) (a : bytes) (eb : flowErr) (b : bytes) (s : St)
  : result (runErr E) (list Stmt * list Stmt) * St :=
  match prepareBody ea a s with
  | (Err e, s1) => (Err e, s1)
  | (Ok fa, s1) =>
      match prepareBody eb b s1 with
      | (Err e, s2) => (Err e, s2)
      | (Ok fb, s2) => (Ok (fa, fb), s2)
      end
  end.

(** [configured]: the gate and the runner are set. *)
Definition RunFlow (configured : bool) (src : bytes) (s : St) : option (runErr E) * St :=
  match ctx_err s with
  | Some e => (Some (OtherErr e), s)
  | None =>
      match ClassifyFlow src with
      | FlowNot => (Some NotABlock, s)
      | FlowIncomplete e | FlowSyntax e => (Some (FlowError e), s)
      | FlowTry body catch =>
          if negb configured then (Some NotConfigured, s)
          else match preparePair ErrEmptyTry body ErrEmptyCatch catch s with
          | (Err e, s1) => (Some e, s1)
          | (Ok (tryFile, catchFile), s1) =>
              let '(err, s2) := runStmts tryFile s1 in
              match err with
              | None => (None, s2)
              | Some e => if exited s2 then (Some e, s2)
                          else if negb (is_exit_status e) then (Some e, s2)
                          else runStmts catchFile s2
              end
          end
      | FlowIf cond thn els =>
          if negb configured then (Some NotConfigured, s)
          else match prepareBody ErrEmptyCond cond s with
          | (Err e, s1) => (Some e, s1)
          | (Ok condFile, s1) =>
          match prepareBody ErrEmptyThen thn s1 with
          | (Err e, s2) => (Some e, s2)
          | (Ok thenFile, s2) =>
          let run elseFile s3 :=
            let '(err, s4) := runCondition condFile s3 in
            if exited s4 then (err, s4)
            else match err with
            | None => runStmts thenFile s4
            | Some e => if negb (is_exit_status e) then (Some e, s4)
                        else match elseFile with
                        | None => (None, s4)
                        | Some f => runStmts f s4
                        end
            end in
          match els with
          | None => run None s2
          | Some esrc =>
              match prepareBody ErrEmptyElse esrc s2 with
              | (Err e, s3) => (Some e, s3)
              | (Ok f, s3) => run (Some f) s3
              end
          end
          end
          end
      end
  end.

(** [shellStatus]: the status a chunk's error becomes. *)
Definition shellStatus (err : option (runErr E)) : Z :=
  match err with None => 0 | Some (ExitStatus n) => n | Some _ => 1 end.

(** ** Specification of a flow run

    The bodies of a form in the order they are prepared, each with the error
    an empty one gives. *)
Definition bodies (f : Flow) : list (flowErr * bytes) :=
  match f with
  | FlowTry b c => [(ErrEmptyTry, b); (ErrEmptyCatch, c)]
  | FlowIf c t None => [(ErrEmptyCond, c); (ErrEmptyThen, t)]
  | FlowIf c t (Some e) => [(ErrEmptyCond, c); (ErrEmptyThen, t); (ErrEmptyElse, e)]
  | _ => []
  end.

(** Every body parses, is not empty and passes the gate, in order. *)
Fixpoint prepared (bs : list (flowErr * bytes)) (s : St) : result (runErr E) (list (list Stmt)) * St :=
  match bs with
  | [] => (Ok [], s)
  | (e, b) :: bs' =>
      match prepareBody e b s with
      | (Err err, s1) => (Err err, s1)
      | (Ok f, s1) => match prepared bs' s1 with
                      | (Err err, s2) => (Err err, s2)
                      | (Ok fs, s2) => (Ok (f :: fs), s2)
                      end
      end
  end.

(** What a prepared form runs: [try] its first body and, on a catchable status,
    its second; [if] the branch that the condition's last status selects. *)
Definition run_try (t c : list Stmt) (s : St) : option (runErr E) * St :=
  match runStmts t s with
  | (None, s1) => (None, s1)
  | (Some e, s1) => if exited s1 || negb (is_exit_status e) then (Some e, s1) else runStmts c s1
  end.

Definition run_if (c t : list Stmt) (els : option (list Stmt)) (s : St) : option (runErr E) * St :=
  match runCondition c s with
  | (err, s1) =>
      if exited s1 then (err, s1)
      else match err, els with
      | None, _ => runStmts t s1
      | Some (ExitStatus _), None => (None, s1)
      | Some (ExitStatus _), Some f => runStmts f s1
      | Some e, _ => (Some e, s1)
      end
  end.

Definition run_form (fl : Flow) (fs : list (list Stmt)) (s : St) : option (runErr E) * St :=
  match fl, fs with
  | FlowTry _ _, [t; c] => run_try t c s
  | FlowIf _ _ None, [c; t] => run_if c t None s
  | FlowIf _ _ (Some _), [c; t; e] => run_if c t (Some e) s
  | _, _ => (None, s)
  end.

Definition is_form (fl : Flow) : Prop :=
  match fl with FlowTry _ _ | FlowIf _ _ _ => True | _ => False end.

Lemma RunFlow_spec src s :
  ctx_err s = None -> is_form (ClassifyFlow src) ->
  RunFlow true src s =
  match prepared (bodies (ClassifyFlow src)) s with
  | (Err e, s1) => (Some e, s1)
  | (Ok fs, s1) => run_form (ClassifyFlow src) fs s1
  end.
Proof.
  intros Hc Hf. unfold RunFlow. rewrite Hc. cbn [negb].
  destruct (ClassifyFlow src) as [| | |cond thn els|body catch]; try done; clear Hf.
  - cbn [bodies]. destruct els as [els|]; cbn [prepared];
      destruct (prepareBody ErrEmptyCond cond s) as [[f1|] s1]; try done;
      destruct (prepareBody ErrEmptyThen thn s1) as [[f2|] s2]; try done.
    + destruct (prepareBody ErrEmptyElse els s2) as [[f3|] s3]; try done.
      cbn [run_form run_if]. unfold run_if. destruct (runCondition f1 s3) as [err s4].
      destruct (exited s4); [done|]. by destruct err as [[]|].
    + cbn [run_form run_if]. unfold run_if. destruct (runCondition f1 s2) as [err s4].
      destruct (exited s4); [done|]. by destruct err as [[]|].
  - unfold preparePair. cbn [bodies prepared].
    destruct (prepareBody ErrEmptyTry body s) as [[f1|] s1]; try done.
    destruct (prepareBody ErrEmptyCatch catch s1) as [[f2|] s2]; try done.
    cbn [run_form]. unfold run_try. destruct (runStmts f1 s2) as [[e|] s3]; [|done].
    by destruct (exited s3).
Qed.

(** *** A denial runs nothing *)

Section denial.
(** A view of the state that the gate does not change: the shell's variables
    and files, as opposed to the audit log. *)
Context {V : Type} (view : St -> V)
  (gate_view : forall f s, view (snd (gate f s)) = view s).

Lemma prepareBody_view e b s : view (snd (prepareBody e b s)) = view s.
Proof.
  unfold prepareBody. destruct (parse_shell b) as [[|st f]|]; try done.
  pose proof (gate_view (st :: f) s) as H. destruct (gate (st :: f) s) as [[]]; exact H.
Qed.

Lemma prepared_view bs s : view (snd (prepared bs s)) = view s.
Proof.
  revert s. induction bs as [|[e b] bs IH]; intros s; [done|]. cbn [prepared].
  pose proof (prepareBody_view e b s) as H1.
  destruct (prepareBody e b s) as [[f|] s1]; cbn in H1; [|done].
  specialize (IH s1). destruct (prepared bs s1) as [[fs|] s2]; cbn in *; congruence.
Qed.

(** Some body has no program: it does not parse, is empty, or is denied. *)
Definition refuses (s : St) (b : flowErr * bytes) : Prop :=
  match parse_shell (snd b) with
  | Err _ | Ok [] => True
  | Ok f => forall s', view s' = view s -> fst (gate f s') <> None
  end.

Lemma prepared_refused bs s :
  Exists (refuses s) bs -> exists e s1, prepared bs s = (Err e, s1).
Proof.
  intros H. cut (forall s', view s' = view s -> exists e s1, prepared bs s' = (Err e, s1)).
  { intros Hc. by apply Hc. }
  induction H as [[e b] bs Hr|[e b] bs _ IH]; intros s' Hv; cbn [prepared].
  - unfold prepareBody. unfold refuses in Hr. cbn [snd] in Hr.
    destruct (parse_shell b) as [[|st f]|]; [by eexists _, _| |by eexists _, _].
    specialize (Hr s' Hv). destruct (gate (st :: f) s') as [[g|] s1]; [by eexists _, _|done].
  - pose proof (prepareBody_view e b s') as Hp.
    destruct (prepareBody e b s') as [[f|] s1]; [|by eexists _, _].
    destruct (IH s1) as (err & s2 & ->); [cbn in Hp; congruence|]. by eexists _, _.
Qed.

(** When any body of a form does not parse, is empty or is denied by the gate,
    RunFlow returns an error and leaves every part of the state that the gate
    itself does not touch as it was: neither the other bodies nor catch or
    else run. *)
Theorem RunFlow_denied_runs_nothing src s :
  Exists (refuses s) (bodies (ClassifyFlow src)) ->
  exists e, fst (RunFlow true src s) = Some e /\ view (snd (RunFlow true src s)) = view s.
Proof.
  intros H. destruct (ctx_err s) as [e|] eqn:Hc.
  { exists (OtherErr e). unfold RunFlow. by rewrite Hc. }
  assert (Hf : is_form (ClassifyFlow src)).
  { destruct (ClassifyFlow src); cbn in *; try done; by inversion H. }
  assert (E1 : RunFlow true src s =
    match prepared (bodies (ClassifyFlow src)) s with
    | (Err e, s1) => (Some e, s1)
    | (Ok fs, s1) => run_form (ClassifyFlow src) fs s1
    end) by (apply RunFlow_spec; done).
  destruct (prepared_refused _ _ H) as (err & s1 & Hp). rewrite E1, Hp.
  exists err. split; [done|]. cbn [snd]. pose proof (prepared_view (bodies (ClassifyFlow src)) s) as Hv.
  by rewrite Hp in Hv.
Qed.
End denial.

End runner.

(** *** What was gated before anything ran

    The same runner with a record of each gate call and its answer and of each
    statement that ran. *)
Inductive flowEvent (Stmt : Type) := Gated (f : list Stmt) (ok : bool) | Ran (st : Stmt).
Arguments Gated {Stmt}. Arguments Ran {Stmt}.

Section traced.
Context {St Stmt E : Type} (R : Runner St Stmt E).

Definition traced : Runner (St * list (flowEvent Stmt)) Stmt E :=
  {| parse_shell := @parse_shell _ _ _ R;
     gate := fun f '(s, t) => let '(e, s1) := @gate _ _ _ R f s in
       (e, (s1, t ++ [Gated f (match e with None => true | Some _ => false end)]));
     run_stmt := fun st '(s, t) => let '(e, s1) := @run_stmt _ _ _ R st s in (e, (s1, t ++ [Ran st]));
     exited := fun '(s, _) => @exited _ _ _ R s;
     ctx_err := fun '(s, _) => @ctx_err _ _ _ R s |}.

(** A run that appends to the record [p], a part of [f] from its start. *)
Definition ran (f p : list Stmt) (t t' : list (flowEvent Stmt)) : Prop := t' = t ++ map Ran p /\ p `prefix_of` f.

Lemma ran_nil f t : ran f [] t t.
Proof. split; [by rewrite app_nil_r|apply prefix_nil]. Qed.
Lemma ran_cons st f p t t' : ran f p (t ++ [Ran st]) t' -> ran (st :: f) (st :: p) t t'.
Proof. intros [-> Hp]. split; [by rewrite <- app_assoc|by apply prefix_cons]. Qed.

Lemma traced_stmts f s t err s' t' : runStmts (R := traced) f (s, t) = (err, (s', t')) ->
  runStmts (R := R) f s = (err, s') /\ exists p, ran f p t t'.
Proof.
  revert s t. induction f as [|st f IH]; intros s t; cbn [runStmts].
  - intros [= <- <- <-]. split; [done|]. exists []. apply ran_nil.
  - cbn [ctx_err traced]. destruct (ctx_err s) as [e|]; [intros [= <- <- <-]; split; [done|]; exists []; apply ran_nil|].
    cbn [run_stmt traced]. destruct (run_stmt st s) as [e s1]. cbn [exited traced].
    assert (H1 : ran (st :: f) [st] t (t ++ [Ran st])) by (split; [done|apply prefix_cons, prefix_nil]).
    destruct (exited s1); [intros [= <- <- <-]; eauto|].
    destruct e as [[n| | | |]|]; [destruct n as [|n|n]| | | | |]; intros Hr;
      try (injection Hr as <- <- <-; eauto);
      (destruct (IH _ _ Hr) as [-> (p & Hp)]; split; [done|]; exists (st :: p); by apply ran_cons).
Qed.

Lemma traced_condition f : forall last s t err s' t', run_condition (R := traced) last f (s, t) = (err, (s', t')) ->
  run_condition (R := R) last f s = (err, s') /\ exists p, ran f p t t'.
Proof.
  induction f as [|st f IH]; intros last s t err s' t'; cbn [run_condition].
  - intros [= <- <- <-]. split; [done|]. exists []. apply ran_nil.
  - cbn [ctx_err traced]. destruct (ctx_err s) as [e|]; [intros [= <- <- <-]; split; [done|]; exists []; apply ran_nil|].
    cbn [run_stmt traced]. destruct (run_stmt st s) as [e s1]. cbn [exited traced].
    assert (H1 : ran (st :: f) [st] t (t ++ [Ran st])) by (split; [done|apply prefix_cons, prefix_nil]).
    destruct (exited s1); [intros [= <- <- <-]; eauto|].
    destruct e as [[n| | | |]|]; intros Hr; try (injection Hr as <- <- <-; eauto);
      (destruct (IH _ _ _ _ _ _ Hr) as [-> (p & Hp)]; split; [done|]; exists (st :: p); by apply ran_cons).
Qed.

(** The gate calls of a preparation are on the bodies, and all of them passed
    when it succeeds. *)
Definition gates_of (srcs : list bytes) (g : list (flowEvent Stmt)) : Prop :=
  Forall (fun x => exists f ok b, x = Gated f ok /\ b ∈ srcs /\ parse_shell b = Ok f) g.

Lemma traced_body e b s t r s' t' : prepareBody (R := traced) e b (s, t) = (r, (s', t')) ->
  prepareBody (R := R) e b s = (r, s') /\ exists g, t' = t ++ g /\ gates_of [b] g /\
    (forall f, r = Ok f -> parse_shell b = Ok f /\ f <> [] /\ g = [Gated f true]).
Proof.
  unfold prepareBody. cbn [parse_shell traced]. destruct (parse_shell b) as [[|st f]|x] eqn:Ep.
  - intros [= <- <- <-]. split; [done|]. exists []. rewrite app_nil_r. split_and!; [done|constructor|done].
  - cbn [gate traced]. destruct (gate (st :: f) s) as [[x|] s1]; intros [= <- <- <-]; (split; [done|]); eexists; (split; [reflexivity|]);
      (split; [apply Forall_singleton; eexists _, _, b; split; [reflexivity|]; split; [set_solver|done]|]); [done|].
    by intros f0 [= <-].
  - intros [= <- <- <-]. split; [done|]. exists []. rewrite app_nil_r. split_and!; [done|constructor|done].
Qed.

Lemma gates_of_weaken l k g : (forall b, b ∈ l -> b ∈ k) -> gates_of l g -> gates_of k g.
Proof. intros Hs Hg. eapply Forall_impl; [exact Hg|]. intros x (f & ok & b & H1 & H2 & H3). exists f, ok, b. auto. Qed.

Definition file_of (b : flowErr * bytes) (f : list Stmt) : Prop := parse_shell (snd b) = Ok f /\ f <> [].

Lemma traced_prepared bs : forall s t r s' t', prepared (R := traced) bs (s, t) = (r, (s', t')) ->
  prepared (R := R) bs s = (r, s') /\ exists g, t' = t ++ g /\ gates_of (map snd bs) g /\
    (forall fs, r = Ok fs -> Forall2 file_of bs fs /\ g = map (fun f => Gated f true) fs).
Proof.
  induction bs as [|[e b] bs IH]; intros s t r s' t'; cbn [prepared].
  - intros [= <- <- <-]. split; [done|]. exists []. rewrite app_nil_r. split_and!; [done|constructor|]. intros fs [= <-]. by split.
  - destruct (prepareBody (R := traced) e b (s, t)) as [r1 [s1 t1]] eqn:E1.
    destruct (traced_body _ _ _ _ _ _ _ E1) as [-> (g1 & -> & G1 & H1)].
    assert (W1 : gates_of (map snd ((e, b) :: bs)) g1) by (eapply gates_of_weaken; [|exact G1]; intros x ->%list_elem_of_singleton; apply elem_of_cons; by left).
    destruct r1 as [f|x]; [|intros [= <- <- <-]; split; [done|]; exists g1; by split_and!].
    destruct (H1 f eq_refl) as (Hp & Hne & ->).
    destruct (prepared (R := traced) bs (s1, t ++ [Gated f true])) as [r2 [s2 t2]] eqn:E2.
    destruct (IH _ _ _ _ _ E2) as [-> (g2 & -> & G2 & H2)].
    assert (W2 : gates_of (map snd ((e, b) :: bs)) ([Gated f true] ++ g2)).
    { apply Forall_app. split; [done|]. eapply gates_of_weaken; [|exact G2]. intros x Hx. apply elem_of_cons. by right. }
    destruct r2 as [fs|x]; intros [= <- <- <-]; (split; [done|]); exists ([Gated f true] ++ g2); rewrite <- app_assoc; split_and!; try done.
    intros fs0 [= <-]. destruct (H2 fs eq_refl) as [H3 ->]. split; [by constructor|done].
Qed.

(** What the form runs: a part of its first file, then a part of at most one
    other. *)
Definition ran_parts (fs : list (list Stmt)) (t t' : list (flowEvent Stmt)) : Prop :=
  exists p1 p2, t' = t ++ map Ran (p1 ++ p2) /\
    (p1 ++ p2 <> [] -> exists f1 rest, fs = f1 :: rest /\ p1 `prefix_of` f1 /\ (p2 = [] \/ exists f, f ∈ rest /\ p2 `prefix_of` f)).

Lemma ran_first f1 rest p t t' : ran f1 p t t' -> ran_parts (f1 :: rest) t t'.
Proof. intros [-> Hp]. exists p, []. rewrite app_nil_r. split; [done|]. intros _. exists f1, rest. auto. Qed.
Lemma ran_second f1 rest f p1 p2 t t1 t' : ran f1 p1 t t1 -> f ∈ rest -> ran f p2 t1 t' -> ran_parts (f1 :: rest) t t'.
Proof.
  intros [-> H1] Hf [-> H2]. exists p1, p2. split; [by rewrite map_app, app_assoc|]. intros _. exists f1, rest. split_and!; [done|done|right; by exists f].
Qed.

Lemma traced_try a b s t err s' t' : run_try (R := traced) a b (s, t) = (err, (s', t')) ->
  run_try (R := R) a b s = (err, s') /\ ran_parts [a; b] t t'.
Proof.
  unfold run_try. destruct (runStmts (R := traced) a (s, t)) as [e1 [s1 t1]] eqn:E1.
  destruct (traced_stmts _ _ _ _ _ _ E1) as [-> (p & Hp)]. cbn [exited traced].
  destruct e1 as [e|]; [|intros [= <- <- <-]; split; [done|by eapply ran_first]].
  destruct (exited s1 || negb (is_exit_status e)); [intros [= <- <- <-]; split; [done|by eapply ran_first]|].
  intros H2. destruct (traced_stmts _ _ _ _ _ _ H2) as [-> (p2 & Hp2)]. split; [done|].
  eapply ran_second; [exact Hp| |exact Hp2]. set_solver.
Qed.

Lemma traced_if c a els s t err s' t' : run_if (R := traced) c a els (s, t) = (err, (s', t')) ->
  run_if (R := R) c a els s = (err, s') /\ ran_parts (c :: a :: match els with Some f => [f] | None => [] end) t t'.
Proof.
  unfold run_if, runCondition. destruct (run_condition (R := traced) None c (s, t)) as [e1 [s1 t1]] eqn:E1.
  destruct (traced_condition _ _ _ _ _ _ _ E1) as [-> (p & Hp)]. cbn [exited traced].
  destruct (exited s1); [intros [= <- <- <-]; split; [done|by eapply ran_first]|].
  destruct e1 as [[n| | | |]|]; [destruct els as [f|]| | | | |]; intros H2;
    try (injection H2 as <- <- <-; split; [done|by eapply ran_first]);
    (destruct (traced_stmts _ _ _ _ _ _ H2) as [-> (p2 & Hp2)]; split; [done|]; eapply ran_second; [exact Hp| |exact Hp2]; set_solver).
Qed.

Lemma traced_form fl fs s t err s' t' : run_form (R := traced) fl fs (s, t) = (err, (s', t')) ->
  run_form (R := R) fl fs s = (err, s') /\ ran_parts fs t t'.
Proof.
  assert (Hno : (@None (runErr E), (s, t)) = (err, (s', t')) -> (None, s) = (err, s') /\ ran_parts fs t t').
  { intros [= <- <- <-]. split; [done|]. exists [], []. by rewrite app_nil_r. }
  unfold run_form. destruct fl as [| | |c th [els|]|a b], fs as [|f1 [|f2 [|f3 [|]]]]; try exact Hno.
  - apply traced_if.
  - apply traced_if.
  - apply traced_try.
Qed.

(** C39: In a run of a brace form every body that is gated parsed, and if any
    statement runs then every body of the form parsed to a non-empty program
    and the gate allowed each of them before the first statement; what runs is
    then a prefix of the first body followed by a prefix of at most one other.
    The record of gate calls and statements does not change what RunFlow does.
    *)
Theorem RunFlow_gates_first configured src s err s' tr :
  RunFlow (R := traced) configured src (s, []) = (err, (s', tr)) ->
  RunFlow (R := R) configured src s = (err, s') /\
  exists gates p1 p2, tr = gates ++ map Ran (p1 ++ p2) /\
    Forall (fun x => exists f ok b, x = Gated f ok /\ b ∈ map snd (bodies (ClassifyFlow src)) /\ parse_shell b = Ok f) gates /\
    (p1 ++ p2 <> [] -> exists f1 fs,
       Forall2 (fun b f => parse_shell (snd b) = Ok f /\ f <> []) (bodies (ClassifyFlow src)) (f1 :: fs) /\
       gates = map (fun f => Gated f true) (f1 :: fs) /\
       p1 `prefix_of` f1 /\ (p2 = [] \/ exists f, f ∈ fs /\ p2 `prefix_of` f)).
Proof.
  intros Hr. assert (Hno : forall e, (Some e, (s, [])) = (err, (s', tr)) -> RunFlow (R := R) configured src s = (Some e, s) ->
    RunFlow (R := R) configured src s = (err, s') /\ exists gates p1 p2, tr = gates ++ map Ran (p1 ++ p2) /\ gates_of (map snd (bodies (ClassifyFlow src))) gates /\
    (p1 ++ p2 <> [] -> exists f1 fs, Forall2 file_of (bodies (ClassifyFlow src)) (f1 :: fs) /\ gates = map (fun f => Gated f true) (f1 :: fs) /\
       p1 `prefix_of` f1 /\ (p2 = [] \/ exists f, f ∈ fs /\ p2 `prefix_of` f))).
  { intros e [= <- <- <-] ->. split; [done|]. exists [], [], []. split_and!; [done|constructor|done]. }
  destruct (ctx_err s) as [e|] eqn:Ec.
  { apply (Hno (OtherErr e)); [rewrite <- Hr|]; unfold RunFlow; cbn [ctx_err traced]; by rewrite Ec. }
  destruct (ClassifyFlow src) as [|fe|fe|cond thn els|body catch] eqn:Ef.
  1-3: eapply Hno; [rewrite <- Hr|]; unfold RunFlow; cbn [ctx_err traced]; by rewrite Ec, Ef.
  all: destruct configured; [|eapply Hno; [rewrite <- Hr|]; unfold RunFlow; cbn [ctx_err traced]; by rewrite Ec, Ef].
  all: rewrite (RunFlow_spec (R := R)) by (done || by rewrite Ef); rewrite (RunFlow_spec (R := traced)) in Hr by (done || by rewrite Ef);
    rewrite Ef in *; destruct (prepared (R := traced) (bodies _) (s, [])) as [r [s1 t1]] eqn:Ep;
    destruct (traced_prepared _ _ _ _ _ _ Ep) as [-> (g & -> & Hg & Hok)]; cbn [app] in *; destruct r as [fs|x];
    [|injection Hr as <- <- <-; split; [done|]; exists g, [], []; by rewrite app_nil_r].
  all: destruct (Hok fs eq_refl) as [H2 ->]; destruct (traced_form _ _ _ _ _ _ _ Hr) as [-> (p1 & p2 & -> & Hp)];
    split; [done|]; eexists _, p1, p2; split; [reflexivity|]; split; [exact Hg|];
    intros Hne; destruct (Hp Hne) as (f1 & rest & -> & H3 & H4); by exists f1, rest.
Qed.
End traced.

(** The lines [AccumulateScript]'s Scanner returns: its buffer holds
    [MaxChunkBytes]+1 bytes. *)
Definition script_lines (s : bytes) : list bytes * bool := scan_lines (MaxChunkBytes + 1) s.

(** ** [AccumulateScript] *)

Inductive scriptErr (X : Type) :=
| ExecErr (x : X)
| LineErr (line : Z) (e : flowErr).
Arguments ExecErr {X}. Arguments LineErr {X}.

Record accState := mkAcc {
  pending : bytes;
  startLine : Z;
  ignore : bool;
  starlarkOpen : bool;
  lineNo : Z
}.

(** One call of [exec]: the chunk, its first line and whether it may fail. *)
Record execCall := mkCall { callChunk : bytes; callLine : Z; callIgnore : bool }.

Definition isLF (b : byte) : bool := b =?b LFb.

(** [flush]: the call it makes and the state it leaves. *)
Definition flush (a : accState) : execCall * accState :=
  (mkCall (trim_right_set isLF (pending a)) (startLine a) (ignore a),
   mkAcc [] (startLine a) false false (lineNo a)).

(** How a line ends an iteration: go on, end the script, or fail. *)
Inductive lineEnd := LineNext (a : accState) | LineStop | LineFail (n : Z) (e : flowErr).

Section accumulate.
Context {P : Parsers}.

Definition needsContinuation (buf : bytes) : bool := OpensBlock buf.

Definition isStarlarkChunk (c : Chunk) : bool :=
  match kind c, mode c with ChunkReady, ModeStarlark => true | _, _ => false end.

(** The end of an iteration: classify what is pending. *)
Definition after_line (a : accState) : list execCall * lineEnd :=
  let c := ClassifyChunk (pending a) in
  match kind c with
  | ChunkNeedMore => ([], LineNext a)
  | _ =>
      if isStarlarkChunk c then
        ([], LineNext (mkAcc (pending a) (startLine a) (ignore a) true (lineNo a)))
      else let '(call, a1) := flush a in ([call], LineNext a1)
  end.

(** An iteration that does not continue an open Starlark chunk. *)
Definition plain_line (raw : bytes) (a : accState) : list execCall * lineEnd :=
  if is_empty (pending a) then
    let trimmed := trim_space raw in
    if is_empty trimmed || has_prefix [HASH] trimmed then ([], LineNext a)
    else if bool_decide (trimmed = lit "exit") || bool_decide (trimmed = lit "quit") then
      ([], LineStop)
    else
      let ign := has_prefix (lit "-") trimmed in
      let trimmed := if ign then trim_space (drop 1 trimmed) else trimmed in
      after_line (mkAcc trimmed (lineNo a) ign (starlarkOpen a) (lineNo a))
  else
    after_line (mkAcc (pending a ++ [LFb] ++ raw) (startLine a) (ignore a) (starlarkOpen a) (lineNo a)).

Definition script_line (raw : bytes) (a : accState) : list execCall * lineEnd :=
  let a := mkAcc (pending a) (startLine a) (ignore a) (starlarkOpen a) (lineNo a + 1) in
  if starlarkOpen a then
    if needsContinuation (pending a) || is_empty (trim_space raw)
       || has_prefix [SPb] raw || has_prefix [TABb] raw then
      let p := pending a ++ [LFb] ++ raw in
      if MaxChunkBytes <? zlen p then ([], LineFail (startLine a) ErrTooBig)
      else ([], LineNext (mkAcc p (startLine a) (ignore a) (starlarkOpen a) (lineNo a)))
    else
      let '(call, a1) := flush a in
      let '(calls, e) := plain_line raw a1 in (call :: calls, e)
  else plain_line raw a.

(** After the last line. *)
Definition script_end (tooLong : bool) (a : accState) : list execCall * option (Z * flowErr) :=
  if tooLong then ([], Some (lineNo a + 1, ErrTooBig))
  else if starlarkOpen a then ([fst (flush a)], None)
  else if is_empty (pending a) then ([], None)
  else
    let e := match chunkErr (ClassifyChunk (pending a)) with Some e => e | None => ErrUnclosed end in
    ([], Some (startLine a, e)).

Section exec.
Context {S X : Type} (exec : execCall -> S -> option X * S).

(** The calls of one iteration; the first error ends the script. *)
Fixpoint exec_all (calls : list execCall) (s : S) : option X * S :=
  match calls with
  | [] => (None, s)
  | c :: calls' =>
      match exec c s with
      | (Some x, s1) => (Some x, s1)
      | (None, s1) => exec_all calls' s1
      end
  end.

Fixpoint accumulate (lines : list bytes) (tooLong : bool) (a : accState) (s : S)
  : option (scriptErr X) * S :=
  match lines with
  | [] =>
      let '(calls, e) := script_end tooLong a in
      match exec_all calls s with
      | (Some x, s1) => (Some (ExecErr x), s1)
      | (None, s1) => (match e with Some (n, e) => Some (LineErr n e) | None => None end, s1)
      end
  | raw :: lines' =>
      let '(calls, e) := script_line raw a in
      match exec_all calls s with
      | (Some x, s1) => (Some (ExecErr x), s1)
      | (None, s1) =>
          match e with
          | LineNext a1 => accumulate lines' tooLong a1 s1
          | LineStop => (None, s1)
          | LineFail n e => (Some (LineErr n e), s1)
          end
      end
  end.

Definition acc_init : accState := mkAcc [] 0 false false 0.

Definition AccumulateScript (src : bytes) (s : S) : option (scriptErr X) * S :=
  let '(lines, tooLong) := script_lines src in accumulate lines tooLong acc_init s.

End exec.

(** ** The chunks of a script, independent of how they run *)

Fixpoint plan_from (lines : list bytes) (tooLong : bool) (a : accState)
  : list execCall * option (Z * flowErr) :=
  match lines with
  | [] => script_end tooLong a
  | raw :: lines' =>
      let '(calls, e) := script_line raw a in
      match e with
      | LineNext a1 => let '(cs, err) := plan_from lines' tooLong a1 in (calls ++ cs, err)
      | LineStop => (calls, None)
      | LineFail n e => (calls, Some (n, e))
      end
  end.

Definition plan (src : bytes) : list execCall * option (Z * flowErr) :=
  let '(lines, tooLong) := script_lines src in plan_from lines tooLong acc_init.

Lemma exec_all_app {S X} (exec : execCall -> S -> option X * S) c1 c2 s :
  exec_all exec (c1 ++ c2) s =
  match exec_all exec c1 s with
  | (Some x, s1) => (Some x, s1)
  | (None, s1) => exec_all exec c2 s1
  end.
Proof.
  revert s. induction c1 as [|c c1 IH]; intros s; [done|]. cbn.
  destruct (exec c s) as [[x|] s1]; [done|]. apply IH.
Qed.

Lemma accumulate_plan {S X} (exec : execCall -> S -> option X * S) lines tooLong a s :
  accumulate exec lines tooLong a s =
  let '(calls, e) := plan_from lines tooLong a in
  match exec_all exec calls s with
  | (Some x, s1) => (Some (ExecErr x), s1)
  | (None, s1) => (match e with Some (n, e) => Some (LineErr n e) | None => None end, s1)
  end.
Proof.
  revert a s. induction lines as [|raw lines IH]; intros a s; cbn [accumulate plan_from].
  - destruct (script_end tooLong a). done.
  - destruct (script_line raw a) as [calls [a1| |n e]].
    + destruct (plan_from lines tooLong a1) as [cs err] eqn:Ep. rewrite exec_all_app.
      destruct (exec_all exec calls s) as [[x|] s1]; [done|].
      specialize (IH a1 s1). by rewrite Ep in IH.
    + by destruct (exec_all exec calls s) as [[x|] s1].
    + by destruct (exec_all exec calls s) as [[x|] s1].
Qed.

Lemma AccumulateScript_as_plan {S X} (exec : execCall -> S -> option X * S) src s :
  AccumulateScript exec src s =
  match exec_all exec (fst (plan src)) s with
  | (Some x, s1) => (Some (ExecErr x), s1)
  | (None, s1) => (match snd (plan src) with Some (n, e) => Some (LineErr n e) | None => None end, s1)
  end.
Proof.
  unfold AccumulateScript, plan. destruct (script_lines src) as [lines tooLong].
  rewrite accumulate_plan. by destruct (plan_from lines tooLong acc_init).
Qed.

(** AccumulateScript runs a list of chunks that depends on the script text
    alone, in order, stopping at the first exec error; chunk boundaries do not
    depend on what the chunks do. *)
Theorem AccumulateScript_plan {S X} (exec : execCall -> S -> option X * S) src s :
  AccumulateScript exec src s =
  match exec_all exec (fst (plan src)) s with
  | (Some x, s1) => (Some (ExecErr x), s1)
  | (None, s1) => (match snd (plan src) with Some (n, e) => Some (LineErr n e) | None => None end, s1)
  end.
Proof. apply AccumulateScript_as_plan. Qed.

(** ** Which chunks a script runs *)

(** A text that may run: classified, or a Starlark chunk with its body, within
    the size limit. *)
Definition runnable (p : bytes) : Prop :=
  kind (ClassifyChunk p) <> ChunkNeedMore \/
  (exists head body, p = head ++ body /\ isStarlarkChunk (ClassifyChunk head) = true /\
     (body = [] \/ zlen p <= MaxChunkBytes)).

Definition acc_ok (a : accState) : Prop := starlarkOpen a = true -> runnable (pending a) /\
  exists head body, pending a = head ++ body /\ isStarlarkChunk (ClassifyChunk head) = true.

Definition call_ok (c : execCall) : Prop :=
  exists p, callChunk c = trim_right_set isLF p /\ runnable p.

Lemma after_line_ok a :
  starlarkOpen a = false ->
  Forall call_ok (fst (after_line a)) /\
  forall a1, snd (after_line a) = LineNext a1 -> acc_ok a1.
Proof.
  intros Ho. unfold after_line.
  assert (Hrun : kind (ClassifyChunk (pending a)) <> ChunkNeedMore ->
    Forall call_ok (fst (if isStarlarkChunk (ClassifyChunk (pending a)) then
        ([], LineNext (mkAcc (pending a) (startLine a) (ignore a) true (lineNo a)))
      else let '(call, a1) := flush a in ([call], LineNext a1))) /\
    forall a1, snd (if isStarlarkChunk (ClassifyChunk (pending a)) then
        ([], LineNext (mkAcc (pending a) (startLine a) (ignore a) true (lineNo a)))
      else let '(call, a1) := flush a in ([call], LineNext a1)) = LineNext a1 -> acc_ok a1).
  { intros Hk. destruct (isStarlarkChunk _) eqn:Es; cbn [fst snd flush].
    - split; [constructor|]. intros a1 [= <-] _. cbn [pending].
      split; [by left|]. exists (pending a), []. by rewrite app_nil_r.
    - split; [|by intros a1 [= <-] [=]]. repeat constructor.
      eexists. split; [reflexivity|by left]. }
  destruct (kind (ClassifyChunk (pending a))); [by apply Hrun| |by apply Hrun].
  split; [constructor|]. intros a1 [= <-] H. congruence.
Qed.

Lemma plain_line_ok raw a :
  starlarkOpen a = false ->
  Forall call_ok (fst (plain_line raw a)) /\
  forall a1, snd (plain_line raw a) = LineNext a1 -> acc_ok a1.
Proof.
  intros Ho. unfold plain_line. destruct (is_empty (pending a)).
  - cbv zeta. destruct (_ || _).
    + split; [constructor|]. intros a1 [= <-] H. congruence.
    + destruct (_ || _); [split; [constructor|done]|]. by apply after_line_ok.
  - by apply after_line_ok.
Qed.

Lemma script_line_ok raw a :
  acc_ok a ->
  Forall call_ok (fst (script_line raw a)) /\
  forall a1, snd (script_line raw a) = LineNext a1 -> acc_ok a1.
Proof.
  intros Ha. unfold script_line. cbv zeta. cbn [starlarkOpen pending].
  destruct (starlarkOpen a) eqn:Ho; [|by apply plain_line_ok].
  destruct (Ha Ho) as (Hr & head & body & Hp & Hs).
  destruct (_ || _ || _ || _).
  - destruct (MaxChunkBytes <? _) eqn:Eb; [split; [constructor|done]|].
    split; [constructor|]. intros a1 [= <-] _. cbn [pending]. bsimp.
    assert (E : pending a ++ [LFb] ++ raw = head ++ body ++ [LFb] ++ raw)
      by (by rewrite Hp, <- app_assoc).
    split; [|by eexists _, _]. right. eexists head, _. split; [exact E|]. auto.
  - cbn [flush]. match goal with |- context [plain_line raw ?b] =>
      pose proof (plain_line_ok raw b eq_refl) as [H1 H2]; destruct (plain_line raw b) as [cs e] end.
    split; [|exact H2]. constructor; [|exact H1]. by eexists.
Qed.

(** Every chunk a script hands to exec is the trimmed text of a chunk that the
    classifier did not report as incomplete, or a Starlark chunk with its
    continuation lines within the size cap: an unfinished chunk at end of
    input is never executed. *)
Theorem plan_runnable src : Forall call_ok (fst (plan src)).
Proof.
  unfold plan. destruct (script_lines src) as [lines tooLong].
  assert (H : acc_ok acc_init) by (intros [=]). revert H. generalize acc_init.
  induction lines as [|raw lines IH]; intros a Ha; cbn [plan_from].
  - unfold script_end. destruct tooLong; [constructor|].
    destruct (starlarkOpen a) eqn:Ho; [|destruct (is_empty _); constructor].
    repeat constructor. eexists. split; [reflexivity|]. by apply Ha.
  - destruct (script_line_ok raw a Ha) as [H1 H2].
    destruct (script_line raw a) as [calls [a1| |n e]]; try done.
    specialize (IH a1 (H2 a1 eq_refl)). destruct (plan_from lines tooLong a1).
    by apply Forall_app.
Qed.

End accumulate.

(** ** Held pastes *)

(** What a chunk of a paste calls besides [RunFlow]: the Starlark evaluator,
    [Runner.Run] on a file, the session bookkeeping and the hooks. *)
Class PasteEnv (St Stmt E : Type) := {
  begin_command : bytes -> St -> St;
  end_command : St -> St;
  pre_hook : bytes -> St -> St;
  post_hook : bytes -> Z -> St -> St;
  set_status : Z -> St -> St;
  eval_starlark : bytes -> St -> Z * St;
  run_file : list Stmt -> St -> option (runErr E) * St
}.

Section held.
Context {P : Parsers} {St Stmt E : Type} {R : Runner St Stmt E} {PE : PasteEnv St Stmt E}.

(** [runShellSource] *)
Definition runShellSource (src : bytes) (s : St) : Z * St :=
  let src := trim_space src in
  let src := if has_prefix (lit "!") src then trim_space (drop 1 src)
             else if has_prefix (lit "$ ") src then trim_space (drop 2 src) else src in
  match parse_shell src with
  | Err _ => (1, s)
  | Ok f =>
      let '(err, s1) := match gate f s with
                        | (Some e, s1) => (Some (OtherErr e), s1)
                        | (None, s1) => run_file f s1
                        end in
      (shellStatus err, s1)
  end.

Definition is_flow_ready (f : Flow) : bool :=
  match f with FlowIf _ _ _ | FlowTry _ _ => true | _ => false end.

Definition runPasteChunk (chunk : bytes) (s : St) : Z * St :=
  let s := pre_hook chunk (begin_command chunk s) in
  let k := ClassifyChunk chunk in
  let '(code, s) :=
    match kind k with
    | ChunkSyntax => (1, s)
    | _ =>
        if is_flow_ready (ClassifyFlow chunk) then
          let '(err, s1) := RunFlow true chunk s in (shellStatus err, s1)
        else match mode k with
        | ModeStarlark => eval_starlark chunk s
        | ModeShell => runShellSource chunk s
        end
    end in
  (code, end_command (post_hook chunk code (set_status code s))).

(** The function [runHeldPaste] passes to [AccumulateScript]: the captured
    [code] is part of its state, and its only error is [errPasteStopped]. *)
Definition paste_exec (c : execCall) (cs : Z * St) : option unit * (Z * St) :=
  let '(code, s1) := runPasteChunk (callChunk c) (snd cs) in
  (if negb (code =? 0) && negb (callIgnore c) then Some tt else None, (code, s1)).

Definition runHeldPaste (text : bytes) (s : St) : Z * St :=
  match AccumulateScript paste_exec text (0, s) with
  | (Some (LineErr _ _), (code, s1)) => (if code =? 0 then 1 else code, s1)
  | (_, cs) => cs
  end.

(** Running calls one after another, whatever they return. *)
Definition run_calls (calls : list execCall) (cs : Z * St) : Z * St :=
  fold_left (fun cs c => snd (paste_exec c cs)) calls cs.

(** Chunk by chunk: nothing stopped the paste before the last of the calls. *)
Definition went_on (calls : list execCall) (cs : Z * St) : Prop :=
  forall before c after, calls = before ++ c :: after -> after <> [] ->
    callIgnore c = true \/ fst (run_calls (before ++ [c]) cs) = 0.

Lemma exec_all_paste calls cs :
  exists ran rest,
    calls = ran ++ rest /\ snd (exec_all paste_exec calls cs) = run_calls ran cs /\
    went_on ran cs /\
    (rest <> [] -> fst (exec_all paste_exec calls cs) <> None) /\
    (fst (exec_all paste_exec calls cs) <> None -> fst (run_calls ran cs) <> 0).
Proof.
  revert cs. induction calls as [|c calls IH]; intros cs.
  { exists [], []. split_and!; try done. by intros [] * H. }
  cbn [exec_all]. destruct (paste_exec c cs) as [[[]|] cs1] eqn:Ec.
  - exists [c], calls. assert (Hcs : run_calls [c] cs = cs1) by (cbn; by rewrite Ec).
    split_and!; cbn [fst snd]; try done.
    + intros before d after H Hne. destruct before as [|x [|y before]]; simplify_eq/=.
    + intros _. rewrite Hcs. unfold paste_exec in Ec.
      destruct (runPasteChunk _ _) as [code s1]. destruct (negb (code =? 0) && _) eqn:Eb; [|done].
      injection Ec as <-. bsimp. done.
  - destruct (IH cs1) as (ran & rest & -> & E1 & Hw & Hr & Hc).
    exists (c :: ran), rest. assert (Hcs : snd (paste_exec c cs) = cs1) by (by rewrite Ec).
    split_and!; try done.
    + cbn. by rewrite Hcs.
    + intros before d after H Hne. destruct before as [|x before]; injection H as <- H.
      * unfold paste_exec in Ec. cbn. unfold paste_exec.
        destruct (runPasteChunk _ _) as [code s1]. destruct (negb (code =? 0) && _) eqn:Eb; [done|].
        cbn. bsimp. destruct Eb; bsimp; tauto.
      * destruct (Hw before d after H Hne) as [?|Hz]; [by left|right].
        cbn. by rewrite Hcs.
    + cbn. by rewrite Hcs.
Qed.

(** A held paste runs a prefix of its chunks: every chunk but the last one run
    either exited 0 or was marked ignorable, a paste that stopped early
    returns the failing non-zero status, and one that ran all chunks but has
    an unfinished tail returns non-zero. *)
Theorem runHeldPaste_stops text s :
  exists ran rest,
    fst (plan text) = ran ++ rest /\
    snd (runHeldPaste text s) = snd (run_calls ran (0, s)) /\
    went_on ran (0, s) /\
    (rest <> [] -> fst (runHeldPaste text s) = fst (run_calls ran (0, s)) /\
                   fst (run_calls ran (0, s)) <> 0) /\
    (rest = [] -> snd (plan text) <> None -> fst (runHeldPaste text s) <> 0).
Proof.
  destruct (exec_all_paste (fst (plan text)) (0, s)) as (ran & rest & Eapp & Es & Hw & Hr & Hc).
  exists ran, rest. unfold runHeldPaste. rewrite AccumulateScript_as_plan.
  destruct (exec_all paste_exec (fst (plan text)) (0, s)) as [[[]|] [code s1]];
    cbn [fst snd] in *.
  - rewrite <- Es in *. split_and!; try done.
    + intros _. split; [done|]. by apply Hc.
    + intros _ _. by apply Hc.
  - rewrite <- Es. split_and!; try done.
    + by destruct (snd (plan text)) as [[]|].
    + intros Hne. by destruct (Hr Hne).
    + intros _. destruct (snd (plan text)) as [[n e]|]; [|done]. intros _. cbn [fst].
      destruct (code =? 0) eqn:Ez; [done|]. cbn. by bsimp.
Qed.

End held.

(** ** Continuation lines *)

(** What the line editor returns. *)
Inductive rlEvent := RLine (l : bytes) | RInterrupt | REOF | RError.

Inductive pendResult :=
| PendReady (buf : bytes) | PendAbort | PendEOF | PendSyntax (e : option flowErr)
| PendWaiting.

Definition pasteTokenLine (line : bytes) : bool :=
  contains pasteHeldPrefix line || contains pasteRejectedLine line.

Section continuation.
Context {P : Parsers}.

Fixpoint readPending (evs : list rlEvent) (buf : bytes) : pendResult * list rlEvent :=
  let c := ClassifyChunk buf in
  match kind c with
  | ChunkSyntax => (PendSyntax (chunkErr c), evs)
  | ChunkReady => (PendReady buf, evs)
  | ChunkNeedMore =>
      match evs with
      | [] => (PendWaiting, [])
      | RInterrupt :: evs' => (PendAbort, evs')
      | REOF :: evs' => (PendEOF, evs')
      | RError :: evs' => (PendAbort, evs')
      | RLine next :: evs' =>
          if pasteTokenLine next then readPending evs' buf
          else readPending evs' (buf ++ [LFb] ++ next)
      end
  end.

Fixpoint readStarlarkBlock (evs : list rlEvent) (buf : bytes) : bytes * list rlEvent :=
  if needsContinuation buf then
    match evs with
    | RLine next :: evs' =>
        if pasteTokenLine next then readStarlarkBlock evs' buf
        else if is_empty (trim_space next) then (buf, evs')
        else readStarlarkBlock evs' (buf ++ [LFb] ++ next)
    | _ :: evs' => (buf, evs')
    | [] => (buf, [])
    end
  else (buf, evs).

(** The lines of [evs] that are code. *)
Fixpoint code_lines (evs : list rlEvent) : list bytes :=
  match evs with
  | RLine l :: evs' => if pasteTokenLine l then code_lines evs' else l :: code_lines evs'
  | _ => []
  end.

Definition append_lines (buf : bytes) (ls : list bytes) : bytes :=
  fold_left (fun b l => b ++ [LFb] ++ l) ls buf.

(** A chunk completed from continuation lines is the first line and the
    following non-token lines, in order and joined by newlines, stops at the
    first point where the classifier is ready, and never contains a paste
    review-token line. *)
Theorem readPending_spec evs line buf evs' :
  readPending evs line = (PendReady buf, evs') ->
  exists used, evs = used ++ evs' /\ buf = append_lines line (code_lines used) /\
    kind (ClassifyChunk buf) = ChunkReady /\
    (forall n, (n < length (code_lines used))%nat ->
       kind (ClassifyChunk (append_lines line (take n (code_lines used)))) = ChunkNeedMore).
Proof.
  revert line. induction evs as [|ev evs IH]; intros line; cbn [readPending].
  { destruct (kind (ClassifyChunk line)) eqn:Ek; [|done|done]. intros [= <- <-].
    exists []. split_and!; [done..|]. cbn. lia. }
  destruct (kind (ClassifyChunk line)) eqn:Ek; [|destruct ev as [next| | |]|]; try done.
  { intros [= <- <-]. exists []. split_and!; [done..|]. cbn. lia. }
  destruct (pasteTokenLine next) eqn:Et; intros H.
  - destruct (IH _ H) as (used & -> & Hb & Hk & Hn). exists (RLine next :: used).
    cbn [code_lines]. rewrite Et. by split_and!.
  - destruct (IH _ H) as (used & -> & Hb & Hk & Hn). exists (RLine next :: used).
    cbn [code_lines]. rewrite Et. split_and!; try done.
    intros [|n] Hlt; cbn [take append_lines fold_left] in *; [done|].
    apply Hn. cbn in Hlt. lia.
Qed.

End continuation.

(** ** A concrete runner

    One statement per body, logged when it runs; [false] exits 1, and the gate
    denies a body that names [rm]. *)
#[local] Instance demoRunner : Runner (list bytes) bytes string :=
  {| parse_shell := fun b => if is_empty (trim_space b) then Ok [] else Ok [trim_space b];
     gate := fun f s => (if existsb (contains (lit "rm")) f then Some "denied"%string else None, s);
     run_stmt := fun b s =>
       (if contains (lit "false") b then Some (ExitStatus 1) else None, s ++ [b]);
     exited := fun _ => false;
     ctx_err := fun _ => None |}.

Lemma RunFlow_gates_first_witness :
  exists f1 fs, Forall2 (fun b f => parse_shell (snd b) = Ok f /\ f <> []) (bodies (ClassifyFlow (lit "try { false } catch { ok }"))) (f1 :: fs) /\
    RunFlow (R := demoRunner) true (lit "try { false } catch { ok }") [] = (None, [lit "false"; lit "ok"]).
Proof.
  destruct (RunFlow_gates_first demoRunner true (lit "try { false } catch { ok }") [] None [lit "false"; lit "ok"]
    [Gated [lit "false"] true; Gated [lit "ok"] true; Ran (lit "false"); Ran (lit "ok")]) as [H (gates & p1 & p2 & Ht & Hg & Hp)];
    [vm_compute; reflexivity|].
  destruct Hp as (f1 & fs & Hp & _); [|exists f1, fs; split; [exact Hp|exact H]].
  intros E. rewrite E, app_nil_r in Ht. subst gates. do 2 apply Forall_inv_tail in Hg. apply Forall_inv in Hg.
  destruct Hg as (f & ok & b & Hb & _). discriminate Hb.
Defined.

Lemma RunFlow_denied_runs_nothing_witness :
  exists e, fst (RunFlow (R := demoRunner) true (lit "try { a } catch { rm }") []) = Some e /\
    snd (RunFlow (R := demoRunner) true (lit "try { a } catch { rm }") []) = [].
Proof.
  apply (RunFlow_denied_runs_nothing (R := demoRunner) (fun s => s) (fun f s => eq_refl)
    (lit "try { a } catch { rm }") []).
  apply Exists_cons_tl, Exists_cons_hd. intros s' ->. vm_compute. discriminate.
Defined.

Lemma readPending_spec_witness :
  exists used, [RLine (lit "ls }"); RLine (lit "catch { b }")] = used ++ [] /\
    lit "try {" ++ [LFb] ++ lit "ls }" ++ [LFb] ++ lit "catch { b }" =
    append_lines (lit "try {") (code_lines used).
Proof.
  destruct (readPending_spec (P := no_parsers) [RLine (lit "ls }"); RLine (lit "catch { b }")]
    (lit "try {") (lit "try {" ++ [LFb] ++ lit "ls }" ++ [LFb] ++ lit "catch { b }") [])
    as (used & H1 & H2 & _).
  - vm_compute. reflexivity.
  - exists used. split; assumption.
Defined.
