(* ===== verification/Json.v ===== *)
(** * UTF-8 and the encoder of encoding/json

    [unicode/utf8]'s validity, [json.Marshal] of strings, integers, booleans
    and objects with the escapes Go writes, and the form that decoding gives
    back for invalid text. *)

From S2P Require Import Prelude GoBytes FlowScan.
From stdpp Require Import pretty.
#[local] Open Scope Z_scope.

(** ** UTF-8 and JSON strings *)

Definition in_range (lo hi : Z) (c : byte) : bool := (lo <=? byte_val c) && (byte_val c <=? hi).
Definition cont (c : byte) : bool := in_range 128 191 c.

(** The width of the valid UTF-8 encoding that starts [s]; 0 when it is
    invalid ([utf8.DecodeRune]'s ranges). *)
Definition utf8_width (s : bytes) : nat :=
  match s with
  | [] => 0%nat
  | b0 :: r =>
      if byte_val b0 <? 128 then 1%nat
      else if in_range 194 223 b0 then
        match r with b1 :: _ => if cont b1 then 2%nat else 0%nat | _ => 0%nat end
      else if in_range 224 239 b0 then
        match r with
        | b1 :: b2 :: _ =>
            let lo := if byte_val b0 =? 224 then 160 else 128 in
            let hi := if byte_val b0 =? 237 then 159 else 191 in
            if in_range lo hi b1 && cont b2 then 3%nat else 0%nat
        | _ => 0%nat
        end
      else if in_range 240 244 b0 then
        match r with
        | b1 :: b2 :: b3 :: _ =>
            let lo := if byte_val b0 =? 240 then 144 else 128 in
            let hi := if byte_val b0 =? 244 then 143 else 191 in
            if in_range lo hi b1 && cont b2 && cont b3 then 4%nat else 0%nat
        | _ => 0%nat
        end
      else 0%nat
  end.

Definition hex_digit (n : Z) : byte := byte_of (if n <? 10 then 48 + n else 87 + n).

(** The escape of an ASCII byte, with HTML escaping on, as [json.Marshal] has. *)
Definition json_ascii (c : byte) : bytes :=
  let v := byte_val c in
  if c =?b QUOTE2 then [BSL; QUOTE2]
  else if c =?b BSL then [BSL; BSL]
  else if v =? 8 then [BSL; "b"%char]
  else if v =? 12 then [BSL; "f"%char]
  else if v =? 10 then [BSL; "n"%char]
  else if v =? 13 then [BSL; "r"%char]
  else if v =? 9 then [BSL; "t"%char]
  else if (v <? 32) || existsb (Ascii.eqb c) ["<"; ">"; "&"]%char then
    BSL :: lit "u00" ++ [hex_digit (v / 16); hex_digit (v mod 16)]
  else [c].

(** U+2028 and U+2029, which the encoder escapes. *)
Definition line_separator (s : bytes) : option byte :=
  match map byte_val s with
  | 226 :: 128 :: 168 :: _ => Some "8"%char
  | 226 :: 128 :: 169 :: _ => Some "9"%char
  | _ => None
  end.

Inductive jsonMode := JCopy (k : nat) | JDrop (k : nat).

Fixpoint json_esc (m : jsonMode) (s : bytes) : bytes :=
  match s with
  | [] => []
  | c :: s' =>
      match m with
      | JCopy (S k) => c :: json_esc (JCopy k) s'
      | JDrop (S k) => json_esc (JDrop k) s'
      | _ =>
          if byte_val c <? 128 then json_ascii c ++ json_esc (JCopy 0) s'
          else match utf8_width s with
          | O => BSL :: lit "ufffd" ++ json_esc (JCopy 0) s'
          | S k =>
              match line_separator s with
              | Some d => BSL :: lit "u202" ++ d :: json_esc (JDrop k) s'
              | None => c :: json_esc (JCopy k) s'
              end
          end
      end
  end.

Definition json_string (s : bytes) : bytes := QUOTE2 :: json_esc (JCopy 0) s ++ [QUOTE2].

(** What decoding gives back: each invalid byte became U+FFFD. *)
Fixpoint to_valid (k : nat) (s : bytes) : bytes :=
  match s with
  | [] => []
  | c :: s' =>
      match k with
      | S k' => c :: to_valid k' s'
      | O => match utf8_width s with
             | O => map byte_of [239; 191; 189] ++ to_valid 0 s'
             | S k' => c :: to_valid k' s'
             end
      end
  end.

Fixpoint valid_utf8_from (k : nat) (s : bytes) : bool :=
  match s with
  | [] => true
  | _ :: s' =>
      match k with
      | S k' => valid_utf8_from k' s'
      | O => match utf8_width s with O => false | S k' => valid_utf8_from k' s' end
      end
  end.

Definition valid_utf8 (s : bytes) : bool := valid_utf8_from 0 s.

(** What a further [Decode] of a stream finds after the first value. *)
Inductive rest := REof | RValue | RError.

(** ** Values *)

Definition json_int (z : Z) : bytes := lit (pretty z).
Definition json_bool (b : bool) : bytes := lit (if b then "true" else "false").

(** A member of the object, and a member with [omitempty]. *)
Definition member (name : string) (v : bytes) : list bytes :=
  [json_string (lit name) ++ [COLON] ++ v].
Definition str_opt (name : string) (v : bytes) : list bytes :=
  match v with [] => [] | _ => member name (json_string v) end.

Definition json_object (ms : list bytes) : bytes := [LBRACE] ++ GoBytes.join (lit ",") ms ++ [RBRACE].

#[global] Arguments json_object : simpl never.

(** ** No newline in encoded text *)

(** Not a member of a list with a literal head. *)
Ltac not_in :=
  cbn [In app lit list_ascii_of_string]; intros HIN;
  repeat (destruct HIN as [HIN|HIN];
    [first [vm_compute in HIN; discriminate HIN | congruence]|]); tauto.

Lemma in_app_not {A} (x : A) l k : ~ In x l -> ~ In x k -> ~ In x (l ++ k).
Proof. intros ? ? H. apply in_app_iff in H. tauto. Qed.

Definition high (c : byte) : bool := 128 <=? byte_val c.

Lemma utf8_width_high s k :
  utf8_width s = S k -> (byte_val (hd Ascii.zero s) <? 128) = false ->
  forallb high (take (S k) s) = true.
Proof.
  destruct s as [|b0 r]; [done|]. cbn [hd utf8_width]. intros H Hb. rewrite Hb in H.
  unfold in_range, cont, in_range in H. unfold high.
  repeat case_match; simplify_eq/=; bsimp;
    repeat (apply andb_true_iff; split); try done; apply Z.leb_le; lia.
Qed.

Lemma json_ascii_no_nl c : (byte_val c <? 128) = true -> ~ In LFb (json_ascii c).
Proof. destruct c as [[] [] [] [] [] [] [] []]; vm_compute; intuition congruence. Qed.

Lemma forallb_take_tail {A} (f : A -> bool) k c (s : list A) :
  forallb f (take (S k) (c :: s)) = true -> f c = true /\ forallb f (take k s) = true.
Proof. cbn. intros H. by bsimp. Qed.

Lemma high_not_nl c : high c = true -> c <> LFb.
Proof. intros H ->. by vm_compute in H. Qed.

Lemma json_esc_no_nl s m :
  match m with JCopy k => forallb high (take k s) = true | JDrop _ => True end ->
  ~ In LFb (json_esc m s).
Proof.
  revert m. induction s as [|c s IH]; intros m Hm; [tauto|].
  assert (Hstep : ~ In LFb (if byte_val c <? 128 then json_ascii c ++ json_esc (JCopy 0) s
          else match utf8_width (c :: s) with
          | O => BSL :: lit "ufffd" ++ json_esc (JCopy 0) s
          | S k => match line_separator (c :: s) with
              | Some d => BSL :: lit "u202" ++ d :: json_esc (JDrop k) s
              | None => c :: json_esc (JCopy k) s
              end end)).
  { destruct (byte_val c <? 128) eqn:Ec.
    - apply in_app_not; [by apply json_ascii_no_nl|]. by apply IH.
    - destruct (utf8_width (c :: s)) as [|k] eqn:Ew.
      + specialize (IH (JCopy 0) eq_refl). not_in.
      + destruct (forallb_take_tail high k c s) as [H1 H2].
        { apply utf8_width_high; [done|]. exact Ec. }
        destruct (line_separator (c :: s)) as [d|] eqn:El.
        * specialize (IH (JDrop k) I). unfold line_separator in El.
          assert (d <> LFb) by (repeat case_match; simplify_eq; done).
          not_in.
        * specialize (IH (JCopy k) H2). apply high_not_nl in H1. not_in. }
  destruct m as [[|k]|[|k]]; cbn [json_esc]; [exact Hstep| |exact Hstep|].
  - destruct (forallb_take_tail high k c s Hm) as [H1 H2].
    specialize (IH (JCopy k) H2). apply high_not_nl in H1. not_in.
  - by apply IH.
Qed.

Lemma json_string_no_nl s : ~ In LFb (json_string s).
Proof.
  unfold json_string. pose proof (json_esc_no_nl s (JCopy 0) eq_refl) as H.
  cbn [In]. intros [?|H1]; [done|]. apply in_app_iff in H1 as [?|[?|[]]]; done.
Qed.

Lemma json_int_no_nl z : ~ In LFb (json_int z).
Proof.
  intros H. pose proof (pretty_Z_digits z) as Hd. rewrite forallb_forall in Hd.
  specialize (Hd _ H). by vm_compute in Hd.
Qed.

Lemma member_no_nl name v : ~ In LFb v -> Forall (fun m => ~ In LFb m) (member name v).
Proof.
  intros H. repeat constructor. apply in_app_not; [apply json_string_no_nl|].
  not_in.
Qed.

Lemma str_opt_no_nl name v : Forall (fun m => ~ In LFb m) (str_opt name v).
Proof. destruct v; [constructor|]. apply member_no_nl, json_string_no_nl. Qed.

Lemma join_no_nl l : Forall (fun m => ~ In LFb m) l -> ~ In LFb (GoBytes.join (lit ",") l).
Proof.
  induction 1 as [|x l Hx _ IH]; [tauto|]. destruct l as [|y l]; [exact Hx|].
  cbn [GoBytes.join] in *. apply in_app_not; [done|]. not_in.
Qed.


(** ** An encoded object determines its members

    A string literal is read back up to [to_valid] and leaves what follows it;
    integers and booleans end at the comma or the brace after them. *)

Definition push (u : bytes) (x : option (bytes * bytes)) : option (bytes * bytes) :=
  (fun '(v, t) => (u ++ v, t)) <$> x.

Definition hex_val (c : byte) : Z := if byte_val c <? 58 then byte_val c - 48 else byte_val c - 87.

(** The character of a [\u] escape the encoder writes. *)
Definition u_escape (a b c d : byte) : bytes :=
  if a =?b "f"%char then map byte_of [239; 191; 189]
  else if a =?b "2"%char then map byte_of [226; 128; 160 + hex_val d]
  else [byte_of (16 * hex_val c + hex_val d)].

Definition simple_escape (c : byte) : byte :=
  if c =?b "b"%char then byte_of 8 else if c =?b "f"%char then byte_of 12
  else if c =?b "n"%char then byte_of 10 else if c =?b "r"%char then byte_of 13
  else if c =?b "t"%char then byte_of 9 else c.

(** The text up to the closing quote, and what follows. *)
Fixpoint unesc (s : bytes) : option (bytes * bytes) :=
  match s with
  | [] => None
  | c :: r =>
      if c =?b QUOTE2 then Some ([], r)
      else if c =?b BSL then
        match r with
        | e :: r1 =>
            if e =?b "u"%char then
              match r1 with
              | h1 :: h2 :: h3 :: h4 :: r2 => push (u_escape h1 h2 h3 h4) (unesc r2)
              | _ => None
              end
            else push [simple_escape e] (unesc r1)
        | [] => None
        end
      else push [c] (unesc r)
  end.

Lemma unesc_high c t : high c = true -> unesc (c :: t) = push [c] (unesc t).
Proof.
  intros H. cbn [unesc].
  destruct (c =?b QUOTE2) eqn:E1; [apply Ascii.eqb_eq in E1; by subst|].
  destruct (c =?b BSL) eqn:E2; [apply Ascii.eqb_eq in E2; by subst|]. done.
Qed.

Lemma unesc_ascii c t : (byte_val c <? 128) = true -> unesc (json_ascii c ++ t) = push [c] (unesc t).
Proof. destruct c as [[] [] [] [] [] [] [] []]; first [discriminate 1|reflexivity]. Qed.

Lemma unesc_u h1 h2 h3 h4 t :
  unesc (BSL :: "u"%char :: h1 :: h2 :: h3 :: h4 :: t) = push (u_escape h1 h2 h3 h4) (unesc t).
Proof. reflexivity. Qed.

Lemma line_separator_inv s d :
  line_separator s = Some d -> exists r, s = map byte_of [226; 128; 160 + hex_val d] ++ r /\
    utf8_width s = 3%nat /\ high d = false.
Proof.
  unfold line_separator. intros H. destruct s as [|a [|b [|c r]]]; cbn [map] in H;
    try (repeat case_match; done).
  assert (Ha : byte_val a = 226 /\ byte_val b = 128 /\
    ((byte_val c = 168 /\ d = "8"%char) \/ (byte_val c = 169 /\ d = "9"%char)))
    by (repeat case_match; simplify_eq; auto).
  destruct Ha as (Ha & Hb & Hc). rewrite <- (byte_of_val a), <- (byte_of_val b), <- (byte_of_val c), Ha, Hb.
  destruct Hc as [[-> ->]|[-> ->]]; exists r; split_and!; reflexivity.
Qed.

Lemma json_drop_0 s : json_esc (JDrop 0) s = json_esc (JCopy 0) s.
Proof. by destruct s. Qed.

Lemma unesc_copy n s k r :
  (length s <= n)%nat -> forallb high (take k s) = true ->
  unesc (json_esc (JCopy k) s ++ QUOTE2 :: r) = Some (to_valid k s, r).
Proof.
  revert s k. induction n as [|n IH]; intros s k Hn Hk.
  { destruct s; [reflexivity|cbn in Hn; lia]. }
  destruct s as [|c s]; [reflexivity|]. cbn [length] in Hn.
  destruct k as [|k].
  2:{ destruct (forallb_take_tail high k c s Hk) as [H1 H2]. cbn [json_esc app to_valid].
      rewrite unesc_high, (IH s k) by (done || lia). reflexivity. }
  cbn [json_esc]. destruct (byte_val c <? 128) eqn:Ec.
  { rewrite <- app_assoc, unesc_ascii, (IH s 0%nat) by (done || lia).
    cbn [to_valid utf8_width]. by rewrite Ec. }
  destruct (utf8_width (c :: s)) as [|k] eqn:Ew.
  { cbn [app lit list_ascii_of_string]. rewrite unesc_u, (IH s 0%nat) by (done || lia).
    cbn [to_valid]. by rewrite Ew. }
  destruct (line_separator (c :: s)) as [d|] eqn:El.
  - destruct (line_separator_inv _ _ El) as (t & Et & E3 & Hd). rewrite E3 in Ew. injection Ew as <-.
    injection Et as -> ->. cbn [length] in Hn.
    cbn [app lit list_ascii_of_string json_esc]. rewrite unesc_u, json_drop_0, (IH t 0%nat) by (done || lia).
    cbn [to_valid]. change (byte_of 226 :: byte_of 128 :: byte_of (160 + hex_val d) :: t)
      with (map byte_of [226; 128; 160 + hex_val d] ++ t) in E3. cbn [map app] in E3. rewrite E3. reflexivity.
  - destruct (forallb_take_tail high k c s) as [H1 H2]; [by apply utf8_width_high|].
    cbn [app]. rewrite unesc_high, (IH s k) by (done || lia). cbn [to_valid]. by rewrite Ew.
Qed.

Lemma json_string_app_inj s t u v :
  json_string s ++ u = json_string t ++ v -> to_valid 0 s = to_valid 0 t /\ u = v.
Proof.
  unfold json_string. cbn [app]. rewrite <- !app_assoc. cbn [app]. intros E. injection E as E.
  apply (f_equal unesc) in E. rewrite !(unesc_copy _ _ 0 _ (le_n _)) in E by done.
  by injection E as -> ->.
Qed.

(** What ends a member. *)
Definition closes (u : bytes) : Prop :=
  match u with c :: _ => c = ","%char \/ c = RBRACE | [] => False end.

Lemma span_inj (P : byte -> bool) s t u v :
  forallb P s = true -> forallb P t = true ->
  match u with c :: _ => P c = false | [] => False end ->
  match v with c :: _ => P c = false | [] => False end ->
  s ++ u = t ++ v -> s = t /\ u = v.
Proof.
  revert t. induction s as [|a s IH]; intros [|b t] Hs Ht Hu Hv E; cbn in *.
  - done.
  - subst u. bsimp. congruence.
  - subst v. bsimp. congruence.
  - injection E as -> E. bsimp. destruct (IH t) as [-> ->]; done.
Qed.

Lemma lit_inj s t : lit s = lit t -> s = t.
Proof.
  unfold lit. intros E. apply (f_equal string_of_list_ascii) in E.
  by rewrite !string_of_list_ascii_of_string in E.
Qed.

Lemma json_int_app_inj z w u v :
  closes u -> closes v -> json_int z ++ u = json_int w ++ v -> z = w /\ u = v.
Proof.
  intros Hu Hv E. apply (span_inj is_digit_or_minus) in E as [E ->];
    [|apply pretty_Z_digits|apply pretty_Z_digits| |].
  - split; [|done]. apply lit_inj in E. by apply (inj pretty) in E.
  - destruct u as [|c u]; [done|]. by destruct Hu as [->| ->].
  - destruct v as [|c v]; [done|]. by destruct Hv as [->| ->].
Qed.

(** The values the source marshals in one object. *)
Inductive mval := VStr (s : bytes) | VInt (z : Z) | VBool (b : bool).

Definition mval_text (v : mval) : bytes :=
  match v with VStr s => json_string s | VInt z => json_int z | VBool b => json_bool b end.
Definition mval_valid (v : mval) : mval := match v with VStr s => VStr (to_valid 0 s) | _ => v end.

Lemma json_int_head z : exists c t, json_int z = c :: t /\ is_digit_or_minus c = true.
Proof.
  pose proof (pretty_Z_digits z) as H. unfold json_int.
  destruct (lit (pretty z)) as [|c t] eqn:E; [|exists c, t; cbn in H; bsimp; tauto].
  exfalso. change [] with (lit "") in E. apply lit_inj in E. destruct z as [|p|p]; [done| |done].
  change (pretty (N.pos p) = "") in E. pose proof (parse_pretty_N (N.pos p)) as Hp.
  rewrite E in Hp. discriminate Hp.
Qed.

Lemma mval_text_inj a b u v :
  closes u -> closes v -> mval_text a ++ u = mval_text b ++ v -> mval_valid a = mval_valid b /\ u = v.
Proof.
  intros Hu Hv E.
  assert (Hint : forall z (w : bytes) c t, json_int z ++ w = c :: t -> is_digit_or_minus c = true).
  { intros z w c t Ez. destruct (json_int_head z) as (d & r & Er & Hd). rewrite Er in Ez.
    by injection Ez as <- _. }
  destruct a as [s|z|x], b as [t|w|y]; cbn [mval_text mval_valid] in *.
  - by apply json_string_app_inj in E as [-> ->].
  - symmetry in E. by apply Hint in E.
  - by destruct y.
  - by apply Hint in E.
  - by apply json_int_app_inj in E as [-> ->].
  - destruct y; by apply Hint in E.
  - by destruct x.
  - symmetry in E. destruct x; by apply Hint in E.
  - destruct x, y; try discriminate E; by injection E as ->.
Qed.

(** The members of an object, by name. *)
Definition members (ms : list (string * mval)) : list bytes :=
  concat (map (fun '(name, v) => member name (mval_text v)) ms).

Definition opt_str (name : string) (v : bytes) : list (string * mval) :=
  match v with [] => [] | _ => [(name, VStr v)] end.

Definition ascii_name (s : string) : bool := forallb (fun c => byte_val c <? 128) (lit s).

Lemma to_valid_ascii s : forallb (fun c => byte_val c <? 128) s = true -> to_valid 0 s = s.
Proof.
  induction s as [|c s IH]; [done|]. cbn [forallb]. intros H. apply andb_true_iff in H as [Hc Hs].
  cbn [to_valid utf8_width]. rewrite Hc. by rewrite IH.
Qed.

Lemma join_cons x y l : GoBytes.join (lit ",") (x :: y :: l) = x ++ lit "," ++ GoBytes.join (lit ",") (y :: l).
Proof. reflexivity. Qed.

Lemma member_text name v ms :
  GoBytes.join (lit ",") (members ((name, v) :: ms)) ++ [RBRACE] =
  json_string (lit name) ++ COLON :: mval_text v ++
    match ms with [] => [RBRACE] | _ => lit "," ++ GoBytes.join (lit ",") (members ms) ++ [RBRACE] end.
Proof.
  destruct ms as [|[n w] ms].
  - exact (eq_sym (app_assoc (json_string (lit name)) (COLON :: mval_text v) [RBRACE])).
  - change (members ((name, v) :: (n, w) :: ms)) with
      ((json_string (lit name) ++ COLON :: mval_text v) ::
       (json_string (lit n) ++ COLON :: mval_text w) :: members ms).
    rewrite join_cons. change (members ((n, w) :: ms)) with
       ((json_string (lit n) ++ COLON :: mval_text w) :: members ms).
    set (k := GoBytes.join (lit ",") ((json_string (lit n) ++ COLON :: mval_text w) :: members ms)).
    repeat rewrite <- app_assoc. cbn [app]. repeat rewrite <- app_assoc. reflexivity.
Qed.

Lemma object_tail_closes ms :
  closes (match ms with [] => [RBRACE] | _ => lit "," ++ GoBytes.join (lit ",") (members ms) ++ [RBRACE] end).
Proof. destruct ms; cbn; tauto. Qed.

(** The text of an object determines its names and values, each string up to
    its invalid bytes. *)
Lemma json_object_inj ms ns :
  Forall (fun m => ascii_name (fst m) = true) ms -> Forall (fun m => ascii_name (fst m) = true) ns ->
  json_object (members ms) = json_object (members ns) ->
  map (fun '(n, v) => (n, mval_valid v)) ms = map (fun '(n, v) => (n, mval_valid v)) ns.
Proof.
  intros Hm Hn E. unfold json_object in E. cbn [app] in E. injection E as E.
  revert ns Hn E. induction ms as [|[m v] ms IH]; intros [|[n w] ns] Hn E.
  - done.
  - by rewrite member_text in E.
  - by rewrite member_text in E.
  - rewrite !member_text in E. apply Forall_cons in Hm as [H1 Hm]. apply Forall_cons in Hn as [H2 Hn].
    apply json_string_app_inj in E as [E1 E]. rewrite !to_valid_ascii in E1 by done.
    apply lit_inj in E1 as ->. injection E as E.
    apply mval_text_inj in E as [Ev E]; [|apply object_tail_closes|apply object_tail_closes].
    cbn [map]. rewrite Ev. f_equal. apply IH; [done|done|].
    destruct ms as [|m1 ms], ns as [|n1 ns]; try discriminate E; [done|].
    by injection E as E.
Qed.
