(* ===== verification/AuditChain.v ===== *)
(** * The audit ledger

    security/audit_chain.go and the replay of security/asof_ee.go: a file of
    JSON lines, each with an HMAC over the previous hash and its own fields.
    The encoder of encoding/json is written out (file Json); the decoder and HMAC-SHA256 are the operations of the class [Crypto]. *)

From S2P Require Import Prelude GoBytes FlowScan Json.
From stdpp Require Import pretty.
#[local] Open Scope Z_scope.

(** ** Entries *)

Record ChainEntry := mkEntry {
  Seq : Z; Timestamp : bytes; SessionID : bytes; User : bytes; Hostname : bytes;
  Type_ : bytes; Command : bytes; Source : bytes; Allowed : option bool;
  Reason : bytes; ChangeID : bytes; PrevHash : bytes; Hash : bytes
}.

(** The members of [chainEntryForHash]. *)
Definition hash_members (e : ChainEntry) : list bytes :=
  member "seq" (json_int (Seq e)) ++ member "ts" (json_string (Timestamp e)) ++
  member "session" (json_string (SessionID e)) ++ member "user" (json_string (User e)) ++
  member "host" (json_string (Hostname e)) ++ member "type" (json_string (Type_ e)) ++
  str_opt "cmd" (Command e) ++ str_opt "source" (Source e) ++
  match Allowed e with None => [] | Some b => member "allowed" (json_bool b) end ++
  str_opt "reason" (Reason e) ++ str_opt "change_id" (ChangeID e) ++
  member "prev_hash" (json_string (PrevHash e)).

Definition json_for_hash (e : ChainEntry) : bytes := json_object (hash_members e).
Definition json_entry (e : ChainEntry) : bytes :=
  json_object (hash_members e ++ member "hash" (json_string (Hash e))).

#[global] Arguments json_entry : simpl never.
#[global] Arguments json_for_hash : simpl never.

Definition valid_entry (e : ChainEntry) : ChainEntry :=
  mkEntry (Seq e) (to_valid 0 (Timestamp e)) (to_valid 0 (SessionID e)) (to_valid 0 (User e))
    (to_valid 0 (Hostname e)) (to_valid 0 (Type_ e)) (to_valid 0 (Command e))
    (to_valid 0 (Source e)) (Allowed e) (to_valid 0 (Reason e)) (to_valid 0 (ChangeID e))
    (to_valid 0 (PrevHash e)) (to_valid 0 (Hash e)).

Definition entry_utf8 (e : ChainEntry) : bool :=
  forallb valid_utf8 [Timestamp e; SessionID e; User e; Hostname e; Type_ e; Command e;
                      Source e; Reason e; ChangeID e; PrevHash e; Hash e].

(** [json.Unmarshal] of a line, and the hex HMAC-SHA256 of a message. *)
Class Crypto := {
  unmarshal : bytes -> option ChainEntry;
  hmac_hex : bytes -> bytes -> bytes
}.

(** ** Reading the tail *)

Definition chainScanMax : Z := Z.shiftl 1 20.
#[global] Arguments chainScanMax : simpl never.
Definition tailBlock : Z := 65536.
#[global] Arguments tailBlock : simpl never.

Inductive chainErr := TailUnverified | IOError.

Definition is_nil {A} (l : list A) : bool := match l with [] => true | _ => false end.

(** The bytes after the last newline. *)
Fixpoint take_until_nl (s : bytes) : bytes :=
  match s with
  | [] => []
  | c :: s' => if c =?b LFb then [] else c :: take_until_nl s'
  end.

Definition after_last_nl (s : bytes) : bytes := rev (take_until_nl (rev s)).

Section chain.
Context {C : Crypto}.

Definition computeHash (key prev : bytes) (e : ChainEntry) : bytes :=
  hmac_hex key (prev ++ [LFb] ++ json_for_hash e).

Definition parseChainTail (key line : bytes) : result chainErr (bytes * Z) :=
  match unmarshal line with
  | None => Err TailUnverified
  | Some e =>
      if is_nil (Hash e) then Err TailUnverified
      else if bool_decide (computeHash key (PrevHash e) e = Hash e)
      then Ok (Hash e, wraps 64 (Seq e + 1))
      else Err TailUnverified
  end.

(** The loop of [readLastChainLine] over the file's bytes: the buffer is what
    starts at [pos].  [fuel] counts the blocks. *)
Fixpoint tail_loop (fuel : nat) (key file : bytes) (pos : Z) : result chainErr (bytes * Z) :=
  let buf := drop (Z.to_nat pos) file in
  let trimmed := trim_right_set isSpace buf in
  let more :=
    if chainScanMax + tailBlock <? zlen buf then Err TailUnverified
    else match fuel with
         | O => Err IOError
         | S fuel' => tail_loop fuel' key file (pos - Z.min tailBlock pos)
         end in
  if negb (is_nil trimmed) then
    if existsb (fun c => c =?b LFb) trimmed || (pos =? 0) then
      let lastLine := trim_space (after_last_nl trimmed) in
      if chainScanMax <? zlen lastLine then Err TailUnverified
      else parseChainTail key lastLine
    else more
  else if pos =? 0 then Ok ([], 0)
  else more.

Definition readLastChainLine (key : bytes) (file : option bytes) : result chainErr (bytes * Z) :=
  match file with
  | None => Ok ([], 0)
  | Some f => tail_loop (length f) key f (zlen f)
  end.

(** ** Appending *)

(** What the environment gives one append: the clock, the user, the host, and
    how the file operations end.  [written] is the number of bytes that reach
    the file when the write fails. *)
Record appendEnv := mkEnv {
  env_now : bytes; env_user : bytes; env_host : bytes;
  env_open : bool; env_lock : bool; env_written : option nat; env_sync : bool
}.

(** The engine: [chainPath] is set, [chainKey], [chainSession]. *)
Record chainEngine := mkEngine { chainPath : bool; chainKey : option bytes; chainSession : bytes }.

Definition or_default (v d : bytes) : bytes := match v with [] => d | _ => v end.

(** The entry as [AppendChain] completes it. *)
Definition stamp (g : chainEngine) (key : bytes) (env : appendEnv) (prev : bytes) (seq : Z)
  (e : ChainEntry) : ChainEntry :=
  let e1 := mkEntry seq (env_now env) (or_default (SessionID e) (chainSession g))
    (or_default (User e) (env_user env)) (or_default (Hostname e) (env_host env))
    (Type_ e) (Command e) (Source e) (Allowed e) (Reason e) (ChangeID e) prev (Hash e) in
  mkEntry (Seq e1) (Timestamp e1) (SessionID e1) (User e1) (Hostname e1) (Type_ e1) (Command e1)
    (Source e1) (Allowed e1) (Reason e1) (ChangeID e1) (PrevHash e1) (computeHash key prev e1).

Definition AppendChain (g : chainEngine) (env : appendEnv) (e : ChainEntry) (file : option bytes)
  : result chainErr unit * option bytes :=
  match chainPath g, chainKey g with
  | true, Some key =>
      if negb (env_open env) then (Err IOError, file)
      else
        let f := match file with Some f => f | None => [] end in
        if negb (env_lock env) then (Err IOError, Some f)
        else match readLastChainLine key (Some f) with
        | Err err => (Err err, Some f)
        | Ok (prev, seq) =>
            let data := json_entry (stamp g key env prev seq e) ++ [LFb] in
            match env_written env with
            | Some n => (Err IOError, Some (f ++ take n data))
            | None => if env_sync env then (Ok tt, Some (f ++ data))
                      else (Err IOError, Some (f ++ data))
            end
        end
  | _, _ => (Ok tt, file)
  end.

(** ** Verifying *)

Inductive verdict := ChainOk | ChainBroken (seq : Z) | ChainError (line : Z).

Fixpoint verify_lines (key prev : bytes) (lineNum : Z) (lines : list bytes) (tooLong : bool)
  : verdict :=
  match lines with
  | [] => if tooLong then ChainError lineNum else ChainOk
  | line :: lines' =>
      if blank line then verify_lines key prev lineNum lines' tooLong
      else match unmarshal line with
      | None => ChainError lineNum
      | Some e =>
          if bool_decide (Hash e = computeHash key prev e)
          then verify_lines key (Hash e) (Seq e) lines' tooLong
          else ChainBroken (Seq e)
      end
  end.

Definition VerifyChain (g : chainEngine) (file : option bytes) : verdict :=
  match file, chainKey g with
  | Some f, Some key =>
      let '(lines, tooLong) := scan_lines chainScanMax f in verify_lines key [] 0 lines tooLong
  | _, _ => ChainError (-1)
  end.

(** [walkChain] of the replay: the entries of a ledger it accepts. *)
Fixpoint walk_lines (key prev : bytes) (lines : list bytes) : option (list ChainEntry) :=
  match lines with
  | [] => Some []
  | line :: lines' =>
      if blank line then walk_lines key prev lines'
      else match unmarshal line with
      | None => None
      | Some e =>
          if bool_decide (PrevHash e = prev) && bool_decide (Hash e = computeHash key prev e)
          then (fun es => e :: es) <$> walk_lines key (Hash e) lines'
          else None
      end
  end.

Definition walkChain (key f : bytes) : option (list ChainEntry) :=
  let '(lines, tooLong) := scan_lines chainScanMax f in
  if tooLong then None else walk_lines key [] lines.

End chain.

(** ** The text of an entry *)

Lemma hash_members_no_nl e : Forall (fun m => ~ In LFb m) (hash_members e).
Proof.
  unfold hash_members. repeat (apply Forall_app; split).
  all: try apply str_opt_no_nl; try (apply member_no_nl, json_string_no_nl).
  - apply member_no_nl, json_int_no_nl.
  - destruct (Allowed e) as [[]|]; [apply member_no_nl..|constructor];
      not_in.
Qed.

Lemma json_entry_no_nl e : ~ In LFb (json_entry e).
Proof.
  unfold json_entry, json_object. apply in_app_not; [not_in|].
  apply in_app_not; [|not_in]. apply join_no_nl, Forall_app. split.
  - apply hash_members_no_nl.
  - apply member_no_nl, json_string_no_nl.
Qed.

Lemma json_entry_braces e : exists t, json_entry e = LBRACE :: t ++ [RBRACE].
Proof. by eexists. Qed.

Lemma trim_space_braces t : trim_space (LBRACE :: t ++ [RBRACE]) = LBRACE :: t ++ [RBRACE].
Proof.
  unfold trim_space, trim_left. cbn [trim_left_from].
  replace (space_width (LBRACE :: t ++ [RBRACE])) with 0%nat
    by (unfold space_width; cbn [map]; change (byte_val LBRACE) with 123;
        repeat (case_match; try done)).
  assert (Hr : rev (LBRACE :: t ++ [RBRACE]) = RBRACE :: rev (LBRACE :: t))
    by (cbn [rev]; rewrite rev_app_distr; done).
  rewrite Hr. cbn [trim_right_from].
  replace (space_width_rev (RBRACE :: rev (LBRACE :: t))) with 0%nat.
  - rewrite <- Hr. apply rev_involutive.
  - destruct (rev (LBRACE :: t)) as [|b [|c r]]; [done| |];
      unfold space_width_rev, space_width; cbn [map];
      change (byte_val RBRACE) with 125;
      repeat (case_match; try done); exfalso;
      repeat match goal with
      | H : context [125 =? ?n] |- _ =>
          let v := eval vm_compute in (125 =? n) in change (125 =? n) with v in H
      | H : context [?n <=? 125] |- _ =>
          let v := eval vm_compute in (n <=? 125) in change (n <=? 125) with v in H
      end; cbn [orb andb] in *; rewrite ?andb_false_r in *; done.
Qed.

(** ** The last line *)

Lemma take_until_nl_app u v : ~ In LFb u -> take_until_nl (u ++ LFb :: v) = u.
Proof.
  induction u as [|c u IH]; intros H; [done|]. cbn [In app take_until_nl] in *.
  rewrite neqb by tauto. by rewrite IH by tauto.
Qed.

Lemma take_until_nl_all u : ~ In LFb u -> take_until_nl u = u.
Proof.
  induction u as [|c u IH]; intros H; [done|]. cbn [In take_until_nl] in *.
  rewrite neqb by tauto. by rewrite IH by tauto.
Qed.

Lemma after_last_nl_all v : ~ In LFb v -> after_last_nl v = v.
Proof.
  intros H. unfold after_last_nl. rewrite take_until_nl_all; [apply rev_involutive|].
  by rewrite <- in_rev.
Qed.

Lemma after_last_nl_app u v : ~ In LFb v -> after_last_nl (u ++ LFb :: v) = v.
Proof.
  intros H. unfold after_last_nl. rewrite rev_app_distr. cbn [rev]. rewrite <- app_assoc.
  cbn [app]. rewrite take_until_nl_app; [apply rev_involutive|]. by rewrite <- in_rev.
Qed.

Lemma existsb_nl s : existsb (fun c => c =?b LFb) s = true <-> In LFb s.
Proof.
  rewrite existsb_exists. split.
  - intros (c & Hc & E). apply Ascii.eqb_eq in E. by subst.
  - intros H. by exists LFb.
Qed.

Definition ends_nl (s : bytes) : Prop := s = [] \/ exists p, s = p ++ [LFb].

Lemma ends_nl_drop n s : ends_nl s -> (n < length s)%nat -> exists p, drop n s = p ++ [LFb].
Proof.
  intros [->|[p ->]] H; [cbn in H; lia|]. rewrite length_app in H. cbn in H.
  exists (drop n p). rewrite drop_app_le by lia. done.
Qed.

Section tail.
Context {C : Crypto}.

(** How the last line ends: with its newline, or, when a write lost it, at the
    end of the file. *)
Definition line_end (w : bytes) : Prop := w = [] \/ w = [LFb].

Lemma line_end_space w : line_end w -> forallb isSpace w = true.
Proof. by intros [->| ->]. Qed.

(** A buffer that starts before the last line holds it whole. *)
Lemma tail_here key pre t w pos :
  let line := LBRACE :: t ++ [RBRACE] in
  line_end w -> ends_nl pre -> ~ In LFb line -> zlen line <= chainScanMax -> 0 <= pos ->
  pos < zlen pre \/ (pos = 0 /\ pre = []) ->
  forall fuel, tail_loop fuel key (pre ++ line ++ w) pos = parseChainTail key line.
Proof.
  intros line Hw Hpre Hnl Hlen Hpos Hcase fuel.
  assert (Hl1 : line = (LBRACE :: t) ++ [RBRACE]) by done.
  assert (Hle : (Z.to_nat pos <= length pre)%nat)
    by (unfold zlen in *; destruct Hcase as [?|[-> ->]]; cbn; lia).
  assert (Htr : trim_right_set isSpace (drop (Z.to_nat pos) (pre ++ line ++ w)) =
                drop (Z.to_nat pos) pre ++ line).
  { rewrite drop_app_le by done. rewrite Hl1, <- !app_assoc. cbn [app].
    rewrite app_comm_cons, app_assoc. rewrite trim_right_set_app by (done || by apply line_end_space).
    by rewrite <- app_assoc. }
  assert (Hal : after_last_nl (drop (Z.to_nat pos) pre ++ line) = line /\
    existsb (fun c => c =?b LFb) (drop (Z.to_nat pos) pre ++ line) || (pos =? 0) = true).
  { destruct Hcase as [Hlt|[-> ->]].
    - destruct (ends_nl_drop (Z.to_nat pos) pre Hpre) as [p Hp]; [unfold zlen in *; lia|].
      rewrite Hp, <- app_assoc. cbn [app]. split; [by apply after_last_nl_app|].
      apply orb_true_iff. left. apply existsb_nl, in_app_iff. right. by left.
    - split; [by apply after_last_nl_all|by rewrite orb_true_r]. }
  destruct Hal as [Ha He].
  assert (Hgo : (if chainScanMax <? zlen (trim_space (after_last_nl (drop (Z.to_nat pos) pre ++ line)))
    then Err TailUnverified
    else parseChainTail key (trim_space (after_last_nl (drop (Z.to_nat pos) pre ++ line))))
    = parseChainTail key line).
  { rewrite Ha. unfold line. rewrite trim_space_braces. fold line.
    by rewrite (proj2 (Z.ltb_ge _ _)) by lia. }
  destruct fuel; cbn [tail_loop]; rewrite Htr, He, Hgo;
    by destruct (drop (Z.to_nat pos) pre).
Qed.

(** A buffer that starts inside the last line or after it holds no newline
    before other text. *)
Lemma tail_later pre line w pos :
  line_end w -> (exists t, line = t ++ [RBRACE]) -> ~ In LFb line -> zlen pre <= pos ->
  existsb (fun c => c =?b LFb)
    (trim_right_set isSpace (drop (Z.to_nat pos) (pre ++ line ++ w))) = false.
Proof.
  intros Hw [t ->] Hnl Hge. rewrite drop_app_ge by (unfold zlen in *; lia).
  set (k := (Z.to_nat pos - length pre)%nat).
  apply not_true_iff_false. rewrite existsb_nl. intros HIn.
  destruct (decide (k <= length t)%nat) as [Hk|Hk].
  - rewrite <- app_assoc, drop_app_le in HIn by done. cbn [app] in HIn.
    rewrite trim_right_set_app in HIn by (done || by apply line_end_space). apply Hnl.
    apply in_app_iff in HIn as [HIn|HIn]; apply in_app_iff; [left|by right].
    rewrite <- (take_drop k t). apply in_app_iff. by right.
  - rewrite drop_app_ge in HIn by (rewrite length_app; cbn; lia).
    rewrite length_app in HIn. cbn [length] in HIn.
    destruct Hw as [->| ->]; [by rewrite drop_nil in HIn|].
    destruct (k - (length t + 1))%nat as [|m]; [done|]. by destruct m.
Qed.

(** Reading backwards by blocks finds the whole last line, however the blocks
    fall. *)
Lemma tail_loop_line fuel key pre t w pos :
  let line := LBRACE :: t ++ [RBRACE] in
  line_end w -> ends_nl pre -> ~ In LFb line -> zlen line <= chainScanMax ->
  0 <= pos <= zlen (pre ++ line ++ w) -> pos <= Z.of_nat fuel ->
  tail_loop fuel key (pre ++ line ++ w) pos = parseChainTail key line.
Proof.
  intros line Hw Hpre Hnl Hlen. assert (Hblk : 0 < tailBlock) by reflexivity.
  revert pos. induction fuel as [|fuel IH]; intros pos Hpos Hfuel.
  { apply tail_here; try done; [lia|]. assert (pos = 0) as -> by lia.
    destruct pre; [by right|left]. rewrite zlen_cons. pose proof (zlen_nonneg pre). lia. }
  destruct (decide (pos < zlen pre \/ (pos = 0 /\ pre = []))) as [Hyes|Hno].
  { apply tail_here; try done. lia. }
  assert (Hge : zlen pre <= pos) by (destruct (decide (zlen pre <= pos)); [done|lia]).
  assert (Hne : 0 < pos).
  { destruct (decide (pos = 0)) as [->|]; [|lia]. destruct Hno. right. split; [done|].
    apply zlen_zero. pose proof (zlen_nonneg pre). lia. }
  cbn [tail_loop]. rewrite (tail_later pre line w pos); [|done|by exists (LBRACE :: t)|done|done].
  assert (Hsize : (chainScanMax + tailBlock <? zlen (drop (Z.to_nat pos) (pre ++ line ++ w))) = false).
  { apply Z.ltb_ge. rewrite !zlen_app in Hpos.
    assert (length w <= 1)%nat by (destruct Hw as [->| ->]; cbn; lia).
    unfold zlen in *. rewrite length_drop, !length_app. cbn [length]. lia. }
  rewrite Hsize, (proj2 (Z.eqb_neq pos 0)) by lia. cbn [orb].
  rewrite IH by lia. by destruct (negb _).
Qed.

Lemma readLast_line key pre e w :
  line_end w -> ends_nl pre -> zlen (json_entry e) <= chainScanMax ->
  readLastChainLine key (Some (pre ++ json_entry e ++ w)) = parseChainTail key (json_entry e).
Proof.
  intros Hw Hpre Hlen. destruct (json_entry_braces e) as [t Ht].
  pose proof (json_entry_no_nl e) as Hnl. cbn [readLastChainLine]. rewrite Ht in *.
  apply tail_loop_line; try done; unfold zlen; lia.
Qed.
End tail.

(** ** A ledger this engine wrote *)

Definition last_hash (prev : bytes) (es : list ChainEntry) : bytes :=
  match last es with Some e => Hash e | None => prev end.

Definition render (es : list ChainEntry) : bytes :=
  concat (map (fun e => json_entry e ++ [LFb]) es).

Section ledger.
Context {C : Crypto}.

(** What one entry needs to be read back: the decoder inverts the encoder on
    it, its hash is not empty, and its line fits the scanner. *)
Definition readable (e : ChainEntry) : Prop :=
  unmarshal (json_entry e) = Some e /\ Hash e <> [] /\ zlen (json_entry e) < chainScanMax.

(** The chain from [prev] and [seq]: contiguous sequence numbers, each hash
    over the previous one. *)
Fixpoint ledger_ok (key prev : bytes) (seq : Z) (es : list ChainEntry) : Prop :=
  match es with
  | [] => True
  | e :: es' =>
      Seq e = seq /\ PrevHash e = prev /\ Hash e = computeHash key prev e /\ readable e /\
      ledger_ok key (Hash e) (seq + 1) es'
  end.

Lemma ledger_ok_snoc key prev seq es e :
  ledger_ok key prev seq es ->
  Seq e = seq + zlen es -> PrevHash e = last_hash prev es ->
  Hash e = computeHash key (last_hash prev es) e -> readable e ->
  ledger_ok key prev seq (es ++ [e]).
Proof.
  revert prev seq. induction es as [|d es IH]; intros prev seq Hok Hs Hp Hh Hr; cbn [app ledger_ok].
  - rewrite zlen_nil in Hs. split; [lia|]. by do 3 (split; [done|]).
  - destruct Hok as (H1 & H2 & H3 & H4 & H5). do 4 (split; [done|]).
    assert (El : last_hash prev (d :: es) = last_hash (Hash d) es)
      by (unfold last_hash; rewrite last_cons; by destruct (last es)).
    rewrite El in Hp, Hh. apply IH; try done. rewrite Hs, zlen_cons. lia.
Qed.

Lemma ends_nl_render es : ends_nl (render es).
Proof.
  destruct es as [|e es _] using rev_ind; [by left|]. right.
  unfold render. rewrite map_app, concat_app. cbn. rewrite app_nil_r, app_assoc. by eexists.
Qed.

Lemma render_snoc es e : render (es ++ [e]) = render es ++ json_entry e ++ [LFb].
Proof. unfold render. rewrite map_app, concat_app. cbn. by rewrite app_nil_r. Qed.

Lemma ledger_ok_last key prev seq es e :
  ledger_ok key prev seq (es ++ [e]) ->
  readable e /\ Hash e = computeHash key (PrevHash e) e /\ Seq e = seq + zlen es.
Proof.
  revert prev seq. induction es as [|d es IH]; intros prev seq H; cbn [app ledger_ok] in H.
  - destruct H as (H1 & H2 & H3 & H4 & _). subst prev. split; [done|split; [done|]].
    rewrite zlen_nil. lia.
  - destruct H as (_ & _ & _ & _ & H). destruct (IH _ _ H) as (? & ? & ?).
    split; [done|split; [done|]]. rewrite zlen_cons. lia.
Qed.

Lemma parse_own key e :
  unmarshal (json_entry e) = Some e -> Hash e <> [] -> Hash e = computeHash key (PrevHash e) e ->
  parseChainTail key (json_entry e) = Ok (Hash e, wraps 64 (Seq e + 1)).
Proof.
  intros Hu Hh Hc. unfold parseChainTail. rewrite Hu.
  assert (is_nil (Hash e) = false) as -> by (by destruct (Hash e)).
  by rewrite bool_decide_true.
Qed.

(** The tail read returns the last hash and the next sequence number. *)
Lemma readLast_render key es :
  ledger_ok key [] 0 es ->
  readLastChainLine key (Some (render es)) = Ok (last_hash [] es, wraps 64 (zlen es)).
Proof.
  destruct es as [|e es _] using rev_ind; [done|]. intros H.
  destruct (ledger_ok_last _ _ _ _ _ H) as ((Hu & Hh & Hl) & Hc & Hs).
  rewrite render_snoc, readLast_line by (apply ends_nl_render || lia || by right).
  rewrite parse_own by done. unfold last_hash. rewrite last_snoc, zlen_app, Hs.
  by replace (0 + zlen es + 1) with (zlen es + zlen [e]) by (rewrite zlen_cons, zlen_nil; lia).
Qed.

Lemma wraps_len {A} (l : list A) : zlen l < 2 ^ 63 -> wraps 64 (zlen l) = zlen l.
Proof. intros H. apply wraps_small; [lia|]. pose proof (zlen_nonneg l). lia. Qed.

(** A braced line is not blank, and no carriage return ends it. *)
Lemma braced_line t :
  let l := LBRACE :: t ++ [RBRACE] in blank l = false /\ drop_cr l = l.
Proof.
  split.
  - unfold blank. by rewrite trim_space_braces.
  - unfold drop_cr. destruct (trim_suffix_spec [ascii_of_nat 13] (LBRACE :: t ++ [RBRACE]))
      as [(u & Hu & _)|[_ ->]]; [|done].
    rewrite app_comm_cons in Hu. by apply app_inj_tail in Hu as [_ ?].
Qed.

Lemma json_entry_line e : blank (json_entry e) = false /\ drop_cr (json_entry e) = json_entry e.
Proof. destruct (json_entry_braces e) as [t ->]. apply braced_line. Qed.

Lemma scan_render key prev seq es :
  ledger_ok key prev seq es -> scan_lines chainScanMax (render es) = (map json_entry es, false).
Proof.
  revert prev seq. induction es as [|e es IH]; intros prev seq; [done|].
  cbn [ledger_ok]. intros (_ & _ & _ & (_ & _ & Hl) & Hok). unfold render. cbn [map concat].
  rewrite <- app_assoc. cbn [app]. rewrite scan_lines_line by (apply json_entry_no_nl || done).
  fold (render es). rewrite (IH _ _ Hok). by rewrite (proj2 (json_entry_line e)).
Qed.

Lemma verify_render key prev seq n es :
  ledger_ok key prev seq es -> verify_lines key prev n (map json_entry es) false = ChainOk.
Proof.
  revert prev seq n. induction es as [|e es IH]; intros prev seq n; [done|].
  cbn [ledger_ok map verify_lines]. intros (_ & _ & Hh & (Hu & _ & _) & Hok).
  rewrite (proj1 (json_entry_line e)), Hu, bool_decide_true by done. by eapply IH.
Qed.

Lemma walk_render key prev seq es :
  ledger_ok key prev seq es -> walk_lines key prev (map json_entry es) = Some es.
Proof.
  revert prev seq. induction es as [|e es IH]; intros prev seq; [done|].
  cbn [ledger_ok map walk_lines]. intros (_ & Hp & Hh & (Hu & _ & _) & Hok).
  rewrite (proj1 (json_entry_line e)), Hu, !bool_decide_true by done. cbn [andb].
  by rewrite (IH _ _ Hok).
Qed.

Definition healthy (env : appendEnv) : Prop :=
  env_open env = true /\ env_lock env = true /\ env_written env = None /\ env_sync env = true.

(** C7: With a path and a key set, when opening, locking, writing and syncing
    succeed, appending to a ledger of fewer than 2^63 entries that this engine
    wrote an entry that the reader can read back (valid UTF-8, a line the
    scanner takes) adds exactly one line with the next sequence number and the
    previous hash; the contiguous hash chain is preserved, VerifyChain accepts
    the new file, and the replay walk returns all the entries. *)
Theorem AppendChain_extends g key env e es :
  chainPath g = true -> chainKey g = Some key -> healthy env ->
  ledger_ok key [] 0 es -> zlen es < 2 ^ 63 ->
  let e' := stamp g key env (last_hash [] es) (zlen es) e in
  readable e' ->
  AppendChain g env e (Some (render es)) = (Ok tt, Some (render (es ++ [e']))) /\
  ledger_ok key [] 0 (es ++ [e']) /\
  VerifyChain g (Some (render (es ++ [e']))) = ChainOk /\
  walkChain key (render (es ++ [e'])) = Some (es ++ [e']).
Proof.
  intros Hp Hk (Ho & Hlk & Hw & Hsy) Hok Hn e' Hr.
  assert (Hok' : ledger_ok key [] 0 (es ++ [e'])) by (by apply ledger_ok_snoc).
  split_and!; [|done| |].
  - unfold AppendChain. rewrite Hp, Hk, Ho, Hlk. cbn [negb].
    rewrite readLast_render, wraps_len by done. rewrite Hw, Hsy. by rewrite render_snoc.
  - unfold VerifyChain. rewrite Hk, (scan_render key [] 0) by done. by eapply verify_render.
  - unfold walkChain. rewrite (scan_render key [] 0) by done. by eapply walk_render.
Qed.

(** Whatever fails, AppendChain only adds bytes at the end of the ledger, and
    it reports success only when the tail was read and verified, the whole
    stamped line was written and the sync succeeded. *)
Theorem AppendChain_append_only g env e f :
  exists data, snd (AppendChain g env e (Some f)) = Some (f ++ data) /\
    (fst (AppendChain g env e (Some f)) = Ok tt -> chainPath g = true -> chainKey g <> None ->
     exists key prev seq, chainKey g = Some key /\
       readLastChainLine key (Some f) = Ok (prev, seq) /\
       data = json_entry (stamp g key env prev seq e) ++ [LFb] /\ env_sync env = true).
Proof.
  assert (Hno : forall (r : result chainErr unit), r <> Ok tt -> exists data,
    snd (r, Some f) = Some (f ++ data) /\ (fst (r, Some f) = Ok tt -> chainPath g = true ->
      chainKey g <> None -> exists key prev seq, chainKey g = Some key /\
       readLastChainLine key (Some f) = Ok (prev, seq) /\
       data = json_entry (stamp g key env prev seq e) ++ [LFb] /\ env_sync env = true)).
  { intros r Hr. exists []. by rewrite app_nil_r. }
  unfold AppendChain. destruct (chainPath g); [|by exists []; rewrite app_nil_r].
  destruct (chainKey g) as [key|]; [|by exists []; rewrite app_nil_r].
  destruct (env_open env); [|by apply Hno]. destruct (env_lock env); [|by apply Hno].
  cbn [negb]. destruct (readLastChainLine key (Some f)) as [[prev seq]|err] eqn:Er; [|by apply Hno].
  destruct (env_written env) as [n|].
  - eexists. split; [reflexivity|]. done.
  - destruct (env_sync env) eqn:Es.
    + eexists. split; [reflexivity|]. intros _ _ _. by exists key, prev, seq.
    + eexists. split; [reflexivity|]. done.
Qed.

(** ** Tamper evidence *)

(** The entries of a ledger text, blank lines skipped. *)
Definition entries (f : bytes) : list ChainEntry :=
  omap (fun l => if blank l then None else unmarshal l) (fst (scan_lines chainScanMax f)).

Fixpoint chained (key prev : bytes) (es : list ChainEntry) : Prop :=
  match es with
  | [] => True
  | e :: es' => Hash e = computeHash key prev e /\ chained key (Hash e) es'
  end.

Lemma verify_chained key prev n lines b :
  verify_lines key prev n lines b = ChainOk ->
  chained key prev (omap (fun l => if blank l then None else unmarshal l) lines).
Proof.
  revert prev n. induction lines as [|l lines IH]; intros prev n H; [done|].
  cbn [verify_lines] in H. cbn. destruct (blank l); [by eapply IH|].
  destruct (unmarshal l) as [e|]; [|done]. case_bool_decide as Eh; [|done].
  split; [done|]. by eapply IH.
Qed.

Lemma last_hash_cons prev e es : last_hash prev (e :: es) = last_hash (Hash e) es.
Proof. unfold last_hash. rewrite last_cons. by destruct (last es). Qed.

Lemma chained_snoc key prev es e :
  chained key prev (es ++ [e]) ->
  chained key prev es /\ Hash e = computeHash key (last_hash prev es) e.
Proof.
  revert prev. induction es as [|d es IH]; intros prev; cbn [app chained].
  - intros [H _]. by split.
  - intros [Hd H]. rewrite last_hash_cons. destruct (IH _ H). by repeat split.
Qed.

Lemma app_sep_inj (c : byte) u v s t :
  ~ In c u -> ~ In c v -> u ++ c :: s = v ++ c :: t -> u = v /\ s = t.
Proof.
  revert v. induction u as [|a u IH]; intros [|b v] Hu Hv E; cbn in *.
  - by injection E as ->.
  - injection E as -> _. tauto.
  - injection E as -> _. tauto.
  - injection E as -> E. destruct (IH v ltac:(tauto) ltac:(tauto) E) as [-> ->]. done.
Qed.

(** The fields a hash covers, as an object's members. *)
Definition hash_fields (e : ChainEntry) : list (string * mval) :=
  [("seq", VInt (Seq e)); ("ts", VStr (Timestamp e)); ("session", VStr (SessionID e));
   ("user", VStr (User e)); ("host", VStr (Hostname e)); ("type", VStr (Type_ e))]%string ++
  opt_str "cmd" (Command e) ++ opt_str "source" (Source e) ++
  match Allowed e with None => [] | Some b => [("allowed"%string, VBool b)] end ++
  opt_str "reason" (Reason e) ++ opt_str "change_id" (ChangeID e) ++
  [("prev_hash"%string, VStr (PrevHash e))].

Lemma opt_str_members name v : members (opt_str name v) = str_opt name v.
Proof. by destruct v. Qed.

Lemma members_app l k : members (l ++ k) = members l ++ members k.
Proof. unfold members. by rewrite map_app, concat_app. Qed.

Lemma hash_members_fields e : hash_members e = members (hash_fields e).
Proof.
  unfold hash_fields. rewrite !members_app, !opt_str_members. unfold hash_members.
  by destruct (Allowed e).
Qed.

Lemma hash_fields_names e : Forall (fun m => ascii_name (fst m) = true) (hash_fields e).
Proof.
  unfold hash_fields, opt_str.
  destruct (Command e), (Source e), (Allowed e), (Reason e), (ChangeID e);
    repeat (constructor; [reflexivity|]); constructor.
Qed.

(** The value under a name. *)
Definition named (name : string) (ms : list (string * mval)) : option mval :=
  snd <$> List.find (fun m => String.eqb (fst m) name) ms.

Definition the_str (v : option mval) : bytes := match v with Some (VStr s) => s | _ => [] end.
Definition the_bool (v : option mval) : option bool := match v with Some (VBool b) => Some b | _ => None end.
Definition the_int (v : option mval) : Z := match v with Some (VInt z) => z | _ => 0 end.

(** The entry a list of members gives. *)
Definition of_fields (ms : list (string * mval)) (h : bytes) : ChainEntry :=
  mkEntry (the_int (named "seq" ms)) (the_str (named "ts" ms)) (the_str (named "session" ms))
    (the_str (named "user" ms)) (the_str (named "host" ms)) (the_str (named "type" ms))
    (the_str (named "cmd" ms)) (the_str (named "source" ms)) (the_bool (named "allowed" ms))
    (the_str (named "reason" ms)) (the_str (named "change_id" ms)) (the_str (named "prev_hash" ms)) h.

Lemma of_hash_fields e :
  of_fields (map (fun '(n, v) => (n, mval_valid v)) (hash_fields e)) (to_valid 0 (Hash e)) = valid_entry e.
Proof.
  destruct e as [sq ts se us ho ty cmd src al re ch pr h]. unfold hash_fields, valid_entry. cbn.
  destruct cmd, src, al, re, ch; reflexivity.
Qed.

(** What is hashed determines every field of the entry. *)
Lemma json_for_hash_inj d e :
  json_for_hash d = json_for_hash e -> Hash d = Hash e -> valid_entry d = valid_entry e.
Proof.
  unfold json_for_hash. rewrite !hash_members_fields. intros E Eh.
  apply json_object_inj in E; try apply hash_fields_names.
  by rewrite <- !of_hash_fields, E, Eh.
Qed.

(** The messages under the hashes of a ledger's entries. *)
Fixpoint messages (prev : bytes) (es : list ChainEntry) : list bytes :=
  match es with
  | [] => []
  | e :: es' => (prev ++ [LFb] ++ json_for_hash e) :: messages (Hash e) es'
  end.

Lemma messages_snoc prev es e :
  messages prev (es ++ [e]) = messages prev es ++ [last_hash prev es ++ [LFb] ++ json_for_hash e].
Proof.
  revert prev. induction es as [|d es IH]; intros prev; [done|].
  cbn [app messages]. by rewrite IH, last_hash_cons.
Qed.

(** Two different messages of two ledgers with one hash. *)
Definition collides (key : bytes) (es1 es2 : list ChainEntry) : Prop :=
  exists m1 m2, In m1 (messages [] es1) /\ In m2 (messages [] es2) /\ m1 <> m2 /\
    hmac_hex key m1 = hmac_hex key m2.

Lemma collides_snoc key es1 es2 d1 d2 :
  collides key es1 es2 -> collides key (es1 ++ [d1]) (es2 ++ [d2]).
Proof.
  intros (m1 & m2 & H1 & H2 & H3). exists m1, m2. rewrite !messages_snoc.
  split_and!; try apply in_app_iff; tauto.
Qed.

Section mac.
Context (key : bytes)
  (hmac_shape : forall m, hmac_hex key m <> [] /\ ~ In LFb (hmac_hex key m)).

Lemma last_hash_shape es :
  chained key [] es -> ~ In LFb (last_hash [] es) /\ (es <> [] -> last_hash [] es <> []).
Proof.
  destruct es as [|e es _] using rev_ind; [by split; [tauto|]|]. intros H.
  apply chained_snoc in H as [_ H]. unfold last_hash. rewrite last_snoc, H.
  split; [apply hmac_shape|]. intros _. apply hmac_shape.
Qed.

Lemma chained_same es1 es2 :
  chained key [] es1 -> chained key [] es2 -> last_hash [] es1 = last_hash [] es2 ->
  map valid_entry es1 = map valid_entry es2 \/ collides key es1 es2.
Proof.
  revert es2. induction es1 as [|e1 es1 IH] using rev_ind; intros es2 H1 H2 E.
  - destruct es2 as [|e2 es2]; [by left|].
    destruct (last_hash_shape _ H2) as [_ Hne]. by destruct Hne.
  - destruct es2 as [|e2 es2 _] using rev_ind.
    { destruct (last_hash_shape _ H1) as [_ Hne]. destruct Hne; [|done]. by destruct es1. }
    apply chained_snoc in H1 as [H1 Hh1]. apply chained_snoc in H2 as [H2 Hh2].
    unfold last_hash in E. rewrite !last_snoc in E.
    destruct (decide (last_hash [] es1 ++ [LFb] ++ json_for_hash e1 =
                      last_hash [] es2 ++ [LFb] ++ json_for_hash e2)) as [Em|Em].
    + cbn [app] in Em. apply app_sep_inj in Em as [El Ej];
        [|by apply last_hash_shape|by apply last_hash_shape].
      destruct (IH es2 H1 H2 El) as [Hm|Hc]; [left|right; by apply collides_snoc].
      rewrite !map_app, Hm. cbn. by rewrite (json_for_hash_inj e1 e2 Ej E).
    + right. exists (last_hash [] es1 ++ [LFb] ++ json_for_hash e1),
        (last_hash [] es2 ++ [LFb] ++ json_for_hash e2).
      rewrite !messages_snoc. split_and!; [apply in_app_iff; right; by left..|done|].
      rewrite Hh1, Hh2 in E. exact E.
Qed.

(** C8: Two ledger files that VerifyChain accepts under one key and that end
    in the same hash hold the same entries in every field, as far as the
    decoder tells them apart (it replaces bytes that are not UTF-8), unless
    two different messages, one hashed for an entry of each file, have the
    same HMAC under that key. *)
Theorem VerifyChain_tamper_evident g f1 f2 :
  chainKey g = Some key ->
  VerifyChain g (Some f1) = ChainOk -> VerifyChain g (Some f2) = ChainOk ->
  last_hash [] (entries f1) = last_hash [] (entries f2) ->
  map valid_entry (entries f1) = map valid_entry (entries f2) \/
  exists m1 m2, In m1 (messages [] (entries f1)) /\ In m2 (messages [] (entries f2)) /\
    m1 <> m2 /\ hmac_hex key m1 = hmac_hex key m2.
Proof.
  intros Hk. unfold VerifyChain, entries. rewrite Hk.
  destruct (scan_lines chainScanMax f1) as [l1 b1], (scan_lines chainScanMax f2) as [l2 b2].
  intros H1 H2. apply chained_same; by eapply verify_chained.
Qed.
End mac.

(** ** Where the ledger stops verifying *)

(** A write that loses only its newline leaves a tail that verifies, so the
    next append succeeds on the same line: the ledger then holds two objects
    on one line, which the decoder refuses. *)
Definition lost_newline (env : appendEnv) (data : bytes) : Prop :=
  env_open env = true /\ env_lock env = true /\ env_written env = Some (length data).

Lemma stamp_hash g key env prev seq e :
  computeHash key (PrevHash (stamp g key env prev seq e)) (stamp g key env prev seq e) =
  Hash (stamp g key env prev seq e).
Proof. reflexivity. Qed.

Lemma take_all_but_nl (l : bytes) : take (length l) (l ++ [LFb]) = l.
Proof. apply take_app_length. Qed.

Lemma scan_render_line key prev seq es l :
  ledger_ok key prev seq es -> ~ In LFb l -> zlen l < chainScanMax ->
  scan_lines chainScanMax (render es ++ l ++ [LFb]) = (map json_entry es ++ [drop_cr l], false).
Proof.
  intros Hok Hl Hlen. revert prev seq Hok. induction es as [|e es IH]; intros prev seq Hok.
  - unfold render. cbn [map concat app]. by rewrite scan_lines_line.
  - cbn [ledger_ok] in Hok. destruct Hok as (_ & _ & _ & (_ & _ & He) & Hok).
    unfold render. cbn [map concat]. fold (render es). rewrite <- !app_assoc. cbn [app].
    rewrite scan_lines_line by (apply json_entry_no_nl || done).
    cbn [app] in IH. rewrite (IH _ _ Hok). by rewrite (proj2 (json_entry_line e)).
Qed.

Lemma verify_render_bad key prev seq n es l :
  ledger_ok key prev seq es -> blank l = false -> unmarshal l = None ->
  verify_lines key prev n (map json_entry es ++ [l]) false <> ChainOk.
Proof.
  intros Hok Hb Hu. revert prev seq n Hok.
  induction es as [|e es IH]; intros prev seq n; cbn [map app verify_lines ledger_ok].
  - by rewrite Hb, Hu.
  - intros (_ & _ & Hh & (He & _ & _) & Hok).
    rewrite (proj1 (json_entry_line e)), He, bool_decide_true by done. by eapply IH.
Qed.

(** When a write loses only the final newline, the next AppendChain accepts
    the partial tail line and succeeds on the same line, after which
    VerifyChain rejects the ledger. *)
Theorem lost_newline_breaks_ledger g key env1 env2 e1 e2 es :
  chainPath g = true -> chainKey g = Some key ->
  ledger_ok key [] 0 es -> zlen es + 1 < 2 ^ 63 ->
  let d1 := stamp g key env1 (last_hash [] es) (zlen es) e1 in
  let d2 := stamp g key env2 (Hash d1) (zlen es + 1) e2 in
  readable d1 -> lost_newline env1 (json_entry d1) -> healthy env2 ->
  unmarshal (json_entry d1 ++ json_entry d2) = None ->
  zlen (json_entry d1 ++ json_entry d2) < chainScanMax ->
  exists f1 f2,
    AppendChain g env1 e1 (Some (render es)) = (Err IOError, Some f1) /\
    AppendChain g env2 e2 (Some f1) = (Ok tt, Some f2) /\
    VerifyChain g (Some f2) <> ChainOk.
Proof.
  intros Hp Hk Hok Hn d1 d2 (Hu & Hh & Hl) (Ho1 & Hl1 & Hw1) (Ho2 & Hl2 & Hw2 & Hs2) Hun Hlen.
  exists (render es ++ json_entry d1), ((render es ++ json_entry d1) ++ json_entry d2 ++ [LFb]).
  split; [|split].
  - unfold AppendChain. rewrite Hp, Hk, Ho1, Hl1. cbn [negb].
    rewrite readLast_render, wraps_len by (done || lia). fold d1. rewrite Hw1. by rewrite take_all_but_nl.
  - unfold AppendChain. rewrite Hp, Hk, Ho2, Hl2. cbn [negb].
    pose proof (readLast_line key (render es) d1 []) as Hr. rewrite app_nil_r in Hr.
    rewrite Hr by (first [by left | apply ends_nl_render | lia]).
    rewrite parse_own by done. change (Seq d1) with (zlen es).
    rewrite wraps_small by (pose proof (zlen_nonneg es); lia). rewrite Hw2, Hs2. reflexivity.
  - unfold VerifyChain. rewrite Hk. rewrite <- app_assoc, (app_assoc (json_entry d1)).
    set (l := json_entry d1 ++ json_entry d2).
    assert (Hnl : ~ In LFb l) by (apply in_app_not; apply json_entry_no_nl).
    assert (Hblank : blank l = false /\ drop_cr l = l).
    { destruct (json_entry_braces d1) as [t1 E1], (json_entry_braces d2) as [t2 E2].
      assert (El : l = LBRACE :: (t1 ++ [RBRACE] ++ LBRACE :: t2) ++ [RBRACE]).
      { unfold l. rewrite E1, E2. cbn [app]. by rewrite <- !app_assoc. }
      rewrite El. apply braced_line. }
    destruct Hblank as [Hb Hcr].
    rewrite (scan_render_line key [] 0) by done. rewrite Hcr. by apply (verify_render_bad _ _ 0).
Qed.

(** An entry whose decoded form hashes differently, as one that holds invalid
    UTF-8 does, is appended, and then no append and no verification accepts
    the ledger. *)
(** An entry whose decoded form hashes differently, as a command with an
    invalid UTF-8 byte does, is appended successfully and then every later
    append on the ledger fails. *)
Theorem invalid_utf8_blocks_ledger g key env1 env2 e1 e2 es :
  chainPath g = true -> chainKey g = Some key -> healthy env1 -> env_open env2 = true ->
  ledger_ok key [] 0 es -> zlen es < 2 ^ 63 ->
  let d := stamp g key env1 (last_hash [] es) (zlen es) e1 in
  zlen (json_entry d) < chainScanMax ->
  unmarshal (json_entry d) = Some (valid_entry d) ->
  computeHash key (PrevHash (valid_entry d)) (valid_entry d) <> Hash (valid_entry d) ->
  exists f, AppendChain g env1 e1 (Some (render es)) = (Ok tt, Some f) /\
    snd (AppendChain g env2 e2 (Some f)) = Some f /\
    is_ok (fst (AppendChain g env2 e2 (Some f))) = false.
Proof.
  intros Hp Hk (Ho1 & Hl1 & Hw1 & Hs1) Ho2 Hok Hn d Hlen Hun Hbad.
  exists (render es ++ json_entry d ++ [LFb]). split.
  - unfold AppendChain. rewrite Hp, Hk, Ho1, Hl1. cbn [negb].
    rewrite readLast_render, wraps_len by done. by rewrite Hw1, Hs1.
  - unfold AppendChain. rewrite Hp, Hk, Ho2. cbn [negb]. destruct (env_lock env2); [|done].
    cbn [negb]. rewrite readLast_line by (first [by right | apply ends_nl_render | lia]).
    unfold parseChainTail. rewrite Hun. destruct (is_nil _); [done|].
    rewrite bool_decide_false by done. done.
Qed.

End ledger.

(** ** A concrete ledger

    The MAC of the example keeps the message; the decoder knows the lines of a
    table of entries and gives back their valid UTF-8 form. *)
Definition demoMac (key m : bytes) : bytes :=
  "h"%char :: map (fun c => if c =?b LFb then "n"%char else c) (key ++ m).

Definition demoCrypto (table : list ChainEntry) : Crypto :=
  {| unmarshal := fun l => valid_entry <$> List.find (fun e => bool_decide (json_entry e = l)) table;
     hmac_hex := demoMac |}.

Definition demoEngine : chainEngine := mkEngine true (Some (lit "k")) (lit "s").
Definition demoEnv : appendEnv := mkEnv (lit "t") (lit "u") (lit "h") true true None true.
Definition demoCmd (c : bytes) : ChainEntry :=
  mkEntry 0 [] [] [] [] (lit "cmd") c [] (Some true) [] [] [] [].
Definition demo0 : ChainEntry :=
  stamp (C := demoCrypto []) demoEngine (lit "k") demoEnv [] 0 (demoCmd (lit "ls")).
Definition demo1 : ChainEntry :=
  stamp (C := demoCrypto []) demoEngine (lit "k") demoEnv (Hash demo0) 1 (demoCmd (lit "id")).
Definition demoBad : ChainEntry :=
  stamp (C := demoCrypto []) demoEngine (lit "k") demoEnv [] 0 (demoCmd [byte_of 255]).

Lemma AppendChain_extends_witness :
  VerifyChain (C := demoCrypto [demo0]) demoEngine (Some (render [demo0])) = ChainOk.
Proof.
  apply (AppendChain_extends (C := demoCrypto [demo0]) demoEngine (lit "k") demoEnv
    (demoCmd (lit "ls")) []).
  - reflexivity.
  - reflexivity.
  - split_and!; reflexivity.
  - exact I.
  - reflexivity.
  - split; [vm_compute; reflexivity|split; [vm_compute; discriminate|vm_compute; reflexivity]].
Defined.

Lemma demoMac_shape m : demoMac (lit "k") m <> [] /\ ~ In LFb (demoMac (lit "k") m).
Proof.
  split; [done|]. unfold demoMac. intros [H|H]; [done|].
  apply in_map_iff in H as (c & Hc & _). destruct (Ascii.eqb_spec c LFb); [done|]. by subst.
Qed.

Lemma VerifyChain_tamper_evident_witness :
  map valid_entry (entries (C := demoCrypto [demo0]) (render [demo0])) =
  map valid_entry (entries (C := demoCrypto [demo0]) (LFb :: render [demo0])) \/
  collides (C := demoCrypto [demo0]) (lit "k") (entries (C := demoCrypto [demo0]) (render [demo0]))
    (entries (C := demoCrypto [demo0]) (LFb :: render [demo0])).
Proof.
  apply (VerifyChain_tamper_evident (C := demoCrypto [demo0]) (lit "k") demoMac_shape demoEngine
    (render [demo0]) (LFb :: render [demo0])); vm_compute; reflexivity.
Defined.

Lemma lost_newline_breaks_ledger_witness :
  exists f1 f2,
    AppendChain (C := demoCrypto [demo0; demo1]) demoEngine
      (mkEnv (lit "t") (lit "u") (lit "h") true true (Some (length (json_entry demo0))) true)
      (demoCmd (lit "ls")) (Some []) = (Err IOError, Some f1) /\
    AppendChain (C := demoCrypto [demo0; demo1]) demoEngine demoEnv (demoCmd (lit "id")) (Some f1)
      = (Ok tt, Some f2) /\
    VerifyChain (C := demoCrypto [demo0; demo1]) demoEngine (Some f2) <> ChainOk.
Proof.
  apply (lost_newline_breaks_ledger (C := demoCrypto [demo0; demo1]) demoEngine (lit "k")
    (mkEnv (lit "t") (lit "u") (lit "h") true true (Some (length (json_entry demo0))) true) demoEnv
    (demoCmd (lit "ls")) (demoCmd (lit "id")) []).
  - reflexivity.
  - reflexivity.
  - exact I.
  - reflexivity.
  - split; [vm_compute; reflexivity|split; [vm_compute; discriminate|vm_compute; reflexivity]].
  - split; [reflexivity|split; [reflexivity|vm_compute; reflexivity]].
  - repeat split.
  - vm_compute. reflexivity.
  - vm_compute. reflexivity.
Defined.

Lemma invalid_utf8_blocks_ledger_witness :
  exists f,
    AppendChain (C := demoCrypto [demoBad]) demoEngine demoEnv (demoCmd [byte_of 255]) (Some [])
      = (Ok tt, Some f) /\
    is_ok (fst (AppendChain (C := demoCrypto [demoBad]) demoEngine demoEnv (demoCmd (lit "ls")) (Some f)))
      = false.
Proof.
  destruct (invalid_utf8_blocks_ledger (C := demoCrypto [demoBad]) demoEngine (lit "k") demoEnv demoEnv
    (demoCmd [byte_of 255]) (demoCmd (lit "ls")) []) as (f & H1 & _ & H2).
  - reflexivity.
  - reflexivity.
  - repeat split.
  - reflexivity.
  - exact I.
  - reflexivity.
  - vm_compute. reflexivity.
  - vm_compute. reflexivity.
  - vm_compute. discriminate.
  - exists f. split; assumption.
Defined.
