(* ===== verification/Frames.v ===== *)
(** * Length-prefixed frames

    The attach frames of internal/attachproto/attach_frame.go and the monitor
    frames of internal/sys/monitor_frame.go: a 4-byte big-endian length, a type
    byte and the payload.  A reader is the bytes it still delivers and whether
    it ends cleanly; a writer is the number of bytes it takes. *)

From S2P Require Import Prelude GoBytes.

(** ** Big-endian words *)

(** [binary.BigEndian.PutUint32] and [PutUint64]: [k] bytes of [n]. *)
Fixpoint be_put (k : nat) (n : Z) : bytes :=
  match k with
  | O => []
  | S k' => byte_of (n / 256 ^ Z.of_nat k') :: be_put k' n
  end.

Fixpoint be_get (s : bytes) : Z :=
  match s with
  | [] => 0
  | c :: s' => byte_val c * 256 ^ zlen s' + be_get s'
  end.

(** ** Streams *)

Inductive streamEnd := CleanEnd | BrokenEnd.

Inductive readError := ReadNothing | ReadShort | ReadBroken.

(** [io.ReadFull] of [n] bytes from a stream: end of input before the first
    byte is [io.EOF], after it [io.ErrUnexpectedEOF]. *)
Definition ReadFull (n : Z) (s : bytes) (e : streamEnd) : result readError (bytes * bytes) :=
  if n <=? zlen s then Ok (take (Z.to_nat n) s, drop (Z.to_nat n) s)
  else match e, s with
       | BrokenEnd, _ => Err ReadBroken
       | CleanEnd, [] => Err ReadNothing
       | CleanEnd, _ => Err ReadShort
       end.

(** One [Write] of a buffer: the writer reports an error, or takes a number of
    bytes. *)
Inductive writeOutcome := WriteError (n : nat) | WriteTook (n : nat).

(** ** Attach frames *)

Definition AttachMaxFrame : Z := Z.shiftl 1 20.
#[global] Arguments AttachMaxFrame : simpl never.
Definition AttachFrameOut : Z := 16.
Definition AttachFrameIn : Z := 17.
Definition AttachFrameResize : Z := 18.
Definition AttachFrameClose : Z := 19.

Inductive attachErr :=
| AttachEOF | AttachFrameTooLarge | AttachFrameType | AttachShortWrite | AttachTruncated
| AttachWrite.

Definition validAttachFrameType (typ : byte) : bool :=
  (AttachFrameOut <=? byte_val typ) && (byte_val typ <=? AttachFrameClose).

(** The frame, and the stream after it. *)
Definition ReadAttachFrame (s : bytes) (e : streamEnd)
  : result attachErr (byte * bytes * bytes) :=
  match ReadFull 5 s e with
  | Err ReadNothing => Err AttachEOF
  | Err _ => Err AttachTruncated
  | Ok (hdr, rest) =>
      match hdr with
      | [b0; b1; b2; b3; typ] =>
          let n := be_get [b0; b1; b2; b3] in
          if AttachMaxFrame <? n then Err AttachFrameTooLarge
          else if negb (validAttachFrameType typ) then Err AttachFrameType
          else match ReadFull n rest e with
          | Err _ => Err AttachTruncated
          | Ok (payload, rest') => Ok (typ, payload, rest')
          end
      | _ => Err AttachTruncated
      end
  end.

(** The buffer of one frame. *)
Definition frame_bytes (typ : byte) (payload : bytes) : bytes :=
  be_put 4 (wrapu 32 (zlen payload)) ++ [typ] ++ payload.

(** The error, and the bytes that reached the connection. *)
Definition WriteAttachFrame (typ : byte) (payload : bytes) (w : writeOutcome)
  : result attachErr unit * bytes :=
  if AttachMaxFrame <? zlen payload then (Err AttachFrameTooLarge, [])
  else if negb (validAttachFrameType typ) then (Err AttachFrameType, [])
  else
    let buf := frame_bytes typ payload in
    match w with
    | WriteError n => (Err AttachWrite, take n buf)
    | WriteTook n => (if (n =? length buf)%nat then Ok tt else Err AttachShortWrite, take n buf)
    end.

(** ** Monitor frames *)

Definition MaxMonitorFrame : Z := Z.shiftl 1 20.
#[global] Arguments MaxMonitorFrame : simpl never.

Inductive monitorErr :=
| MonitorInvalidArgument | MonitorDenied | MonitorClosed | MonitorFrameTooLarge | MonitorDesync.

Definition ReadMonitorFrame (s : bytes) (e : streamEnd)
  : result monitorErr (byte * bytes * bytes) :=
  match ReadFull 4 s e with
  | Err _ => Err MonitorClosed
  | Ok (hdr, rest) =>
      let n := be_get hdr in
      if MaxMonitorFrame <? n then Err MonitorFrameTooLarge
      else match ReadFull 1 rest e with
      | Ok ([typ], rest1) =>
          if n =? 0 then Ok (typ, [], rest1)
          else match ReadFull n rest1 e with
          | Err _ => Err MonitorClosed
          | Ok (payload, rest2) => Ok (typ, payload, rest2)
          end
      | _ => Err MonitorClosed
      end
  end.

Definition WriteMonitorFrame (typ : byte) (payload : bytes) (w : writeOutcome)
  : result monitorErr unit * bytes :=
  if MaxMonitorFrame <? zlen payload then (Err MonitorFrameTooLarge, [])
  else
    let buf := frame_bytes typ payload in
    match w with
    | WriteError n => (Err MonitorClosed, take n buf)
    | WriteTook n => (if (n =? length buf)%nat then Ok tt else Err MonitorClosed, take n buf)
    end.

(** ** Words *)

Lemma length_be_put k n : length (be_put k n) = k.
Proof. induction k; cbn; congruence. Qed.

Lemma be_get_range s : 0 <= be_get s < 256 ^ zlen s.
Proof.
  induction s as [|c s IH]; [done|]. cbn [be_get]. rewrite zlen_cons.
  pose proof (byte_val_range c). pose proof (zlen_nonneg s).
  rewrite Z.add_comm, Z.pow_add_r by lia. change (256 ^ 1) with 256. nia.
Qed.

Lemma be_get_put k n : be_get (be_put k n) = n mod 256 ^ Z.of_nat k.
Proof.
  induction k as [|k IH]; [by rewrite Z.mod_1_r|].
  cbn [be_put be_get]. rewrite IH. unfold zlen. rewrite length_be_put, byte_val_of.
  replace (Z.of_nat (S k)) with (Z.of_nat k + 1) by lia.
  rewrite Z.pow_add_r by lia. change (256 ^ 1) with 256.
  assert (0 < 256 ^ Z.of_nat k) by (apply Z.pow_pos_nonneg; lia).
  rewrite Z.rem_mul_r by lia. lia.
Qed.

Lemma be_put_get s : be_put (length s) (be_get s) = s.
Proof.
  assert (H : forall s m, be_put (length s) (be_get s + m * 256 ^ zlen s) = s); cycle 1.
  { specialize (H s 0). by rewrite Z.add_0_r in H. }
  clear s. induction s as [|c s IH]; intros m; [done|]. cbn [length be_put be_get].
  pose proof (be_get_range s) as Hr. rewrite zlen_cons.
  replace (256 ^ (1 + zlen s)) with (256 * 256 ^ zlen s)
    by (rewrite Z.pow_add_r by (pose proof (zlen_nonneg s); lia); done).
  replace (byte_val c * 256 ^ zlen s + be_get s + m * (256 * 256 ^ zlen s))
    with (be_get s + (byte_val c + m * 256) * 256 ^ zlen s) by lia.
  f_equal; [|apply IH]. change (Z.of_nat (length s)) with (zlen s).
  rewrite Z.div_add by lia. rewrite Z.div_small by lia. rewrite Z.add_0_l.
  apply byte_val_inj. rewrite byte_val_of, Z_mod_plus_full. apply Z.mod_small, byte_val_range.
Qed.

Lemma be_put_inj k m n :
  0 <= m < 256 ^ Z.of_nat k -> 0 <= n < 256 ^ Z.of_nat k -> be_put k m = be_put k n -> m = n.
Proof.
  intros Hm Hn H. apply (f_equal be_get) in H. rewrite !be_get_put in H.
  by rewrite !Z.mod_small in H.
Qed.

Lemma ReadFull_app s t e : ReadFull (zlen s) (s ++ t) e = Ok (s, t).
Proof.
  unfold ReadFull. rewrite zlen_app. pose proof (zlen_nonneg t).
  rewrite (proj2 (Z.leb_le _ _)) by lia. unfold zlen. rewrite Nat2Z.id.
  by rewrite take_app_length, drop_app_length.
Qed.

Lemma ReadFull_inv n s e a b :
  0 <= n -> ReadFull n s e = Ok (a, b) -> s = a ++ b /\ zlen a = n.
Proof.
  intros Hn H. unfold ReadFull in H. destruct (n <=? zlen s) eqn:E; [|by destruct e, s].
  injection H as <- <-. bsimp. unfold zlen in *. rewrite take_drop, length_take.
  split; [done|lia].
Qed.

Lemma frame_header typ payload :
  zlen payload <= 2 ^ 20 ->
  frame_bytes typ payload = be_put 4 (zlen payload) ++ [typ] ++ payload.
Proof.
  intros H. unfold frame_bytes, wrapu. pose proof (zlen_nonneg payload).
  rewrite Z.mod_small; [done|]. change (2 ^ 32) with 4294967296.
  change (2 ^ 20) with 1048576 in H. lia.
Qed.

Lemma length4 (s : bytes) : zlen s = 4 -> exists a b c d, s = [a; b; c; d].
Proof.
  unfold zlen. destruct s as [|a [|b [|c [|d [|]]]]]; cbn; intros; try lia. by eexists _, _, _, _.
Qed.

(** Reading back a length that was written. *)
Lemma be_get_put4 n : 0 <= n <= 2 ^ 20 -> be_get (be_put 4 n) = n.
Proof.
  intros H. rewrite be_get_put. apply Z.mod_small.
  change (256 ^ Z.of_nat 4) with 4294967296. change (2 ^ 20) with 1048576 in H. lia.
Qed.

(** ** Theorems *)

Lemma attach_frame_read s e typ payload rest :
  ReadAttachFrame s e = Ok (typ, payload, rest) <->
  s = frame_bytes typ payload ++ rest /\ validAttachFrameType typ = true /\
  zlen payload <= AttachMaxFrame.
Proof.
  change AttachMaxFrame with (2 ^ 20). split.
  - intros H. unfold ReadAttachFrame in H.
    destruct (ReadFull 5 s e) as [[hdr r]|[]] eqn:E5; [|done..].
    apply ReadFull_inv in E5 as [-> Hh]; [|lia].
    destruct hdr as [|b0 [|b1 [|b2 [|b3 [|t [|]]]]]]; try done.
    cbv zeta in H. destruct (AttachMaxFrame <? _) eqn:En; [done|].
    destruct (validAttachFrameType t) eqn:Et; [|done]. cbn [negb] in H.
    pose proof (be_get_range [b0; b1; b2; b3]) as Hr.
    destruct (ReadFull _ r e) as [[pl r']|] eqn:Ep; [|done]. injection H as <- <- <-.
    apply ReadFull_inv in Ep as [-> Hl]; [|lia]. bsimp.
    change AttachMaxFrame with (2 ^ 20) in En. split; [|split; [done|lia]].
    rewrite frame_header by lia. rewrite Hl.
    pose proof (be_put_get [b0; b1; b2; b3]) as Hb. cbn [length] in Hb. rewrite Hb. done.
  - intros (-> & Ht & Hl). unfold ReadAttachFrame. rewrite frame_header by done.
    rewrite <- app_assoc. cbn [app].
    pose proof (ReadFull_app (be_put 4 (zlen payload) ++ [typ]) (payload ++ rest) e) as H5.
    rewrite zlen_app in H5. unfold zlen in H5 at 1. rewrite length_be_put in H5.
    change (Z.of_nat 4 + zlen [typ]) with 5 in H5. rewrite <- app_assoc in H5. cbn [app] in H5.
    rewrite H5. pose proof (be_get_put4 (zlen payload)) as Hg.
    pose proof (zlen_nonneg payload). cbn [be_put app] in *. rewrite Hg by lia.
    change AttachMaxFrame with (2 ^ 20). rewrite (proj2 (Z.ltb_ge _ _)) by done.
    rewrite Ht. cbn [negb]. by rewrite ReadFull_app.
Qed.

Lemma monitor_frame_read s e typ payload rest :
  ReadMonitorFrame s e = Ok (typ, payload, rest) <->
  s = frame_bytes typ payload ++ rest /\ zlen payload <= MaxMonitorFrame.
Proof.
  change MaxMonitorFrame with (2 ^ 20). split.
  - intros H. unfold ReadMonitorFrame in H.
    destruct (ReadFull 4 s e) as [[hdr r]|] eqn:E4; [|done].
    apply ReadFull_inv in E4 as [-> Hh]; [|lia]. cbv zeta in H.
    destruct (MaxMonitorFrame <? _) eqn:En; [done|]. bsimp.
    change MaxMonitorFrame with (2 ^ 20) in En.
    destruct (ReadFull 1 r e) as [[[|t [|]] r1]|] eqn:E1; try done.
    apply ReadFull_inv in E1 as [-> _]; [|lia].
    pose proof (be_put_get hdr) as Hb. replace (length hdr) with 4%nat in Hb by (unfold zlen in Hh; lia).
    pose proof (be_get_range hdr) as Hr.
    destruct (be_get hdr =? 0) eqn:E0.
    + injection H as <- <- <-. bsimp. rewrite E0 in Hb. split; [|rewrite zlen_nil; lia].
      rewrite frame_header by (rewrite zlen_nil; lia). rewrite zlen_nil, Hb.
      by rewrite <- app_assoc.
    + destruct (ReadFull _ r1 e) as [[pl r']|] eqn:Ep; [|done]. injection H as <- <- <-.
      apply ReadFull_inv in Ep as [-> Hl]; [|lia].
      rewrite frame_header by lia. rewrite Hl, Hb. split; [by rewrite <- !app_assoc|lia].
  - intros (-> & Hl). unfold ReadMonitorFrame. rewrite frame_header by done.
    pose proof (zlen_nonneg payload).
    pose proof (ReadFull_app (be_put 4 (zlen payload)) (([typ] ++ payload) ++ rest) e) as H4.
    unfold zlen in H4 at 1. rewrite length_be_put in H4. rewrite app_assoc in H4.
    change (Z.of_nat 4) with 4 in H4. rewrite H4. rewrite be_get_put4 by lia.
    change MaxMonitorFrame with (2 ^ 20). rewrite (proj2 (Z.ltb_ge _ _)) by done.
    rewrite <- app_assoc. pose proof (ReadFull_app [typ] (payload ++ rest) e) as H1.
    change (zlen [typ]) with 1 in H1. rewrite H1.
    destruct (zlen payload =? 0) eqn:E0.
    + bsimp. apply zlen_zero in E0 as ->. done.
    + by rewrite ReadFull_app.
Qed.

(** Each frame reader returns a type, a payload and the rest of the stream
    exactly when the stream is the frame the writer builds for them, within
    the size cap and, for attach frames, of a known type, followed by that
    rest. *)
Theorem frame_readers_iff s e typ payload rest :
  (ReadAttachFrame s e = Ok (typ, payload, rest) <->
     s = frame_bytes typ payload ++ rest /\ validAttachFrameType typ = true /\
     zlen payload <= AttachMaxFrame) /\
  (ReadMonitorFrame s e = Ok (typ, payload, rest) <->
     s = frame_bytes typ payload ++ rest /\ zlen payload <= MaxMonitorFrame).
Proof. split; [apply attach_frame_read|apply monitor_frame_read]. Qed.

(** A frame that a writer reports as sent is the whole frame: a short write is
    an error, and so is a frame the reader would refuse. *)
Lemma WriteMonitorFrame_ok typ payload w sent :
  WriteMonitorFrame typ payload w = (Ok tt, sent) ->
  sent = frame_bytes typ payload /\ zlen payload <= MaxMonitorFrame.
Proof.
  unfold WriteMonitorFrame. destruct (MaxMonitorFrame <? _) eqn:E; [done|]. bsimp.
  destruct w as [n|n]; [done|]. destruct (Nat.eqb_spec n (length (frame_bytes typ payload))) as [->|];
    [|done]. intros H. split; [|lia]. apply (f_equal snd) in H.
  cbn [snd] in H. rewrite <- H. by apply take_ge.
Qed.
