(* ===== verification/MonitorProto.v ===== *)
(** * The monitor protocol, session side

    internal/sys/monitor_frame.go above its framing: argument validation, the
    request digests, the strict decoders and [MonitorClient]'s round trips.
    SHA-256 and the JSON codec of the messages are the operations of the
    classes [Sha256] and [MonitorCodec]; the body of an authorize request,
    whose size matters, is written out. *)

From S2P Require Import Prelude GoBytes FlowScan Json Frames.

(** ** Constants *)

Definition maxMonitorArgs : Z := 4096.
Definition maxMonitorArgLen : Z := Z.shiftl 256 10.
Definition MaxMonitorRunStdin : Z := Z.shiftl 64 10.
Definition MaxMonitorOutChunk : Z := Z.shiftl 32 10.
Definition MaxMonitorRunOutput : Z := Z.shiftl 1 20.
#[global] Arguments maxMonitorArgLen : simpl never.
#[global] Arguments MaxMonitorRunStdin : simpl never.
#[global] Arguments MaxMonitorOutChunk : simpl never.
#[global] Arguments MaxMonitorRunOutput : simpl never.

Definition MonitorFrameAuthorize : byte := byte_of 1.
Definition MonitorFramePing : byte := byte_of 2.
Definition MonitorFrameRun : byte := byte_of 3.
Definition MonitorFrameOut : byte := byte_of 4.
Definition MonitorFrameExit : byte := byte_of 5.
Definition MonitorFrameCancel : byte := byte_of 6.

Definition MonitorRunTruncated : bytes :=
  LFb :: lit "adssh: output truncated at 1 MiB" ++ [LFb].
Definition MonitorStdinNone : bytes := lit "none".
Definition MonitorStdinBytes : bytes := lit "bytes".
Definition MonitorStreamStdout : Z := 1.
Definition MonitorStreamStderr : Z := 2.

(** ** Messages *)

Record MonitorAuthRequest := mkAuthReq { auth_id : Z; auth_args : list bytes }.
Record MonitorAuthResponse := mkAuthResp
  { resp_id : Z; resp_digest : bytes; resp_ok : bool; resp_error : bytes }.
Record MonitorRunRequest := mkRunReq
  { run_id : Z; run_args : list bytes; run_mode : bytes; run_stdin : bytes }.
Record MonitorOut := mkOut { out_id : Z; out_seq : Z; out_stream : Z; out_data : bytes }.
Record MonitorExit := mkExit
  { exit_id : Z; exit_digest : bytes; exit_code : Z; exit_error : bytes }.

(** ** Validation *)

Definition NULb : byte := ascii_of_nat 0.

Definition valid_arg (arg : bytes) : bool :=
  negb (maxMonitorArgLen <? zlen arg) && negb (existsb (fun c => c =?b NULb) arg)
  && valid_utf8 arg.

Definition ValidateMonitorArgs (args : list bytes) : result monitorErr unit :=
  if (zlen args =? 0) || (maxMonitorArgs <? zlen args) then Err MonitorInvalidArgument
  else if forallb valid_arg args then Ok tt else Err MonitorInvalidArgument.

Definition validateRunStdin (mode stdin : bytes) : result monitorErr unit :=
  if bool_decide (mode = MonitorStdinNone) then
    if zlen stdin =? 0 then Ok tt else Err MonitorInvalidArgument
  else if bool_decide (mode = MonitorStdinBytes) then
    if MaxMonitorRunStdin <? zlen stdin then Err MonitorInvalidArgument else Ok tt
  else Err MonitorInvalidArgument.

(** ** Digests *)

Class Sha256 := { sha256_hex : bytes -> bytes }.

(** A length-prefixed string, as [put] of [MonitorRunDigest] writes it. *)
Definition put (b : bytes) : bytes := be_put 8 (wrapu 64 (zlen b)) ++ b.

Definition args_preimage (args : list bytes) : bytes := concat (map put args).

Definition run_preimage (args : list bytes) (mode stdin : bytes) : bytes :=
  put (lit "adssh-monitor-run") ++ be_put 8 (wrapu 64 (zlen args)) ++
  concat (map put args) ++ put mode ++ put stdin.

Definition MonitorArgsDigest {S : Sha256} (args : list bytes) : bytes :=
  sha256_hex (args_preimage args).

Definition MonitorRunDigest {S : Sha256} (args : list bytes) (mode stdin : bytes) : bytes :=
  sha256_hex (run_preimage args mode stdin).

(** ** Decoders *)

(** [decodeStrict] of each message type: one JSON value of the struct, no
    unknown field, nothing but white space after it. *)
Class MonitorCodec := {
  strict_auth : bytes -> option MonitorAuthRequest;
  strict_resp : bytes -> option MonitorAuthResponse;
  strict_run : bytes -> option MonitorRunRequest;
  strict_out : bytes -> option MonitorOut;
  strict_exit : bytes -> option MonitorExit;
  strict_cancel : bytes -> option Z;
  marshal_run : MonitorRunRequest -> bytes
}.

Definition is_empty_msg (s : bytes) : bool := match s with [] => true | _ => false end.

Section proto.
Context {Sh : Sha256} {Co : MonitorCodec}.

Definition DecodeMonitorAuth (payload : bytes) : result monitorErr MonitorAuthRequest :=
  match strict_auth payload with
  | None => Err MonitorInvalidArgument
  | Some req =>
      if auth_id req =? 0 then Err MonitorInvalidArgument
      else let! _ := ValidateMonitorArgs (auth_args req) in Ok req
  end.

Definition decodeMonitorResponse (payload : bytes) : result monitorErr MonitorAuthResponse :=
  match strict_resp payload with Some r => Ok r | None => Err MonitorClosed end.

Definition DecodeMonitorRun (payload : bytes) : result monitorErr MonitorRunRequest :=
  match strict_run payload with
  | None => Err MonitorInvalidArgument
  | Some req =>
      if run_id req =? 0 then Err MonitorInvalidArgument
      else let! _ := ValidateMonitorArgs (run_args req) in
           let! _ := validateRunStdin (run_mode req) (run_stdin req) in Ok req
  end.

Definition DecodeMonitorCancel (payload : bytes) : result monitorErr Z :=
  match strict_cancel payload with
  | None => Err MonitorInvalidArgument
  | Some id => if id =? 0 then Err MonitorInvalidArgument else Ok id
  end.

Definition decodeMonitorOut (payload : bytes) : result monitorErr MonitorOut :=
  match strict_out payload with
  | None => Err MonitorInvalidArgument
  | Some o =>
      if negb (out_stream o =? MonitorStreamStdout) && negb (out_stream o =? MonitorStreamStderr)
      then Err MonitorInvalidArgument
      else if (zlen (out_data o) =? 0) || (MaxMonitorOutChunk <? zlen (out_data o))
      then Err MonitorInvalidArgument
      else Ok o
  end.

Definition decodeMonitorExit (payload : bytes) : result monitorErr MonitorExit :=
  match strict_exit payload with
  | None => Err MonitorInvalidArgument
  | Some x => if (exit_code x <? 0) || (255 <? exit_code x) then Err MonitorInvalidArgument else Ok x
  end.

(** ** The client *)

(** [nextID] is a uint64. *)
Record client := mkClient { nextID : Z; broken : bool }.

(** [NewMonitorClient]: [seed] is the random word, absent when the source fails. *)
Definition NewMonitorClient (seed : option Z) : client :=
  match seed with
  | None => mkClient 0 true
  | Some b => mkClient (wrapu 64 (Z.shiftr b 2 + 1)) false
  end.

Definition fail (c : client) : client := mkClient (nextID c) true.

(** The peer as one round trip sees it: how the request's [Write] ends, and
    the bytes that arrive. *)
Record peer := mkPeer { on_write : writeOutcome; stream : bytes; stream_end : streamEnd }.

Inductive callErr := MErr (e : monitorErr) | Remote (msg : bytes).

(** [write]: any error breaks the client. *)
Definition client_write (c : client) (typ : byte) (body : bytes) (w : writeOutcome)
  : result callErr unit * client * bytes :=
  match WriteMonitorFrame typ body w with
  | (Ok tt, sent) => (Ok tt, c, sent)
  | (Err _, sent) => (Err (MErr MonitorClosed), fail c, sent)
  end.

Definition json_array (l : list bytes) : bytes := lit "[" ++ GoBytes.join (lit ",") l ++ lit "]".

Definition auth_body (req : MonitorAuthRequest) : bytes :=
  json_object (member "id" (json_int (auth_id req)) ++
               member "args" (json_array (map json_string (auth_args req)))).

Definition take_id (c : client) : Z * client := (nextID c, mkClient (wrapu 64 (nextID c + 1)) (broken c)).

Definition client_read (p : peer) (s : bytes) : result callErr (byte * bytes * bytes) :=
  match ReadMonitorFrame s (stream_end p) with
  | Ok r => Ok r
  | Err MonitorFrameTooLarge => Err (MErr MonitorFrameTooLarge)
  | Err _ => Err (MErr MonitorClosed)
  end.

Definition Ping (c : client) (p : peer) : result callErr unit * client :=
  if broken c then (Err (MErr MonitorClosed), c)
  else match client_write c MonitorFramePing [] (on_write p) with
  | (Err e, c1, _) => (Err e, c1)
  | (Ok tt, c1, _) =>
      match client_read p (stream p) with
      | Err e => (Err e, fail c1)
      | Ok (typ, payload, _) =>
          if negb (typ =?b MonitorFramePing) || negb (zlen payload =? 0)
          then (Err (MErr MonitorClosed), fail c1) else (Ok tt, c1)
      end
  end.

(** [Authorize]; the last component is what was written. *)
Definition Authorize (args : list bytes) (c : client) (p : peer)
  : result callErr unit * client * bytes :=
  match ValidateMonitorArgs args with
  | Err e => (Err (MErr e), c, [])
  | Ok _ =>
      if broken c then (Err (MErr MonitorClosed), c, [])
      else
        let '(id, c1) := take_id c in
        match client_write c1 MonitorFrameAuthorize (auth_body (mkAuthReq id args)) (on_write p) with
        | (Err e, c2, sent) => (Err e, c2, sent)
        | (Ok _, c2, sent) =>
            match client_read p (stream p) with
            | Err e => (Err e, fail c2, sent)
            | Ok (typ, payload, _) =>
                if negb (typ =?b MonitorFrameAuthorize) then (Err (MErr MonitorClosed), fail c2, sent)
                else match decodeMonitorResponse payload with
                | Err _ => (Err (MErr MonitorClosed), fail c2, sent)
                | Ok resp =>
                    if negb (resp_id resp =? id)
                       || negb (bool_decide (resp_digest resp = MonitorArgsDigest args))
                    then (Err (MErr MonitorDesync), fail c2, sent)
                    else if negb (resp_ok resp) || negb (is_empty_msg (resp_error resp)) then
                      (Err (if is_empty_msg (resp_error resp) then MErr MonitorDenied
                            else Remote (resp_error resp)), c2, sent)
                    else (Ok tt, c2, sent)
                end
            end
        end
  end.

(** Output the run wrote locally: the stream and the bytes, in order. *)
Definition written := list (Z * bytes).

(** The loop of [Run]; [fuel] bounds the frames, each of which is at least
    five bytes. *)
Fixpoint run_loop (fuel : nat) (id : Z) (digest : bytes) (seq total : Z) (p : peer) (s : bytes)
  (c : client) : written * (Z * option callErr) * client :=
  match fuel with
  | O => ([], (1, Some (MErr MonitorClosed)), fail c)
  | S fuel' =>
      match client_read p s with
      | Err e => ([], (1, Some e), fail c)
      | Ok (typ, payload, rest) =>
          if typ =?b MonitorFrameOut then
            match decodeMonitorOut payload with
            | Err _ => ([], (1, Some (MErr MonitorClosed)), fail c)
            | Ok o =>
                let seq := wrapu 64 (seq + 1) in
                let total := total + zlen (out_data o) in
                if negb (out_id o =? id) || negb (out_seq o =? seq)
                   || (MaxMonitorRunOutput + zlen MonitorRunTruncated <? total)
                then ([], (1, Some (MErr MonitorDesync)), fail c)
                else
                  let '(w, r, c') := run_loop fuel' id digest seq total p rest c in
                  ((out_stream o, out_data o) :: w, r, c')
            end
          else if typ =?b MonitorFrameExit then
            match decodeMonitorExit payload with
            | Err _ => ([], (1, Some (MErr MonitorClosed)), fail c)
            | Ok x =>
                if negb (exit_id x =? id) || negb (bool_decide (exit_digest x = digest))
                then ([], (1, Some (MErr MonitorDesync)), fail c)
                else ([], (exit_code x, if is_empty_msg (exit_error x) then None
                                        else Some (Remote (exit_error x))), c)
            end
          else ([], (1, Some (MErr MonitorClosed)), fail c)
      end
  end.

Definition Run (args : list bytes) (mode stdin : bytes) (c : client) (p : peer)
  : written * (Z * option callErr) * client :=
  match ValidateMonitorArgs args with
  | Err e => ([], (1, Some (MErr e)), c)
  | Ok _ =>
  match validateRunStdin mode stdin with
  | Err e => ([], (1, Some (MErr e)), c)
  | Ok _ =>
      if broken c then ([], (1, Some (MErr MonitorClosed)), c)
      else
        let '(id, c1) := take_id c in
        match client_write c1 MonitorFrameRun (marshal_run (mkRunReq id args mode stdin)) (on_write p) with
        | (Err e, c2, _) => ([], (1, Some e), c2)
        | (Ok _, c2, _) =>
            run_loop (S (length (stream p))) id (MonitorRunDigest args mode stdin) 0 0 p (stream p) c2
        end
  end
  end.

End proto.

(** ** The digests bind their inputs *)

Definition short (b : bytes) : Prop := zlen b < 2 ^ 64.

Lemma wrap_len (b : bytes) : short b -> wrapu 64 (zlen b) = zlen b.
Proof. intros H. unfold short, wrapu in *. pose proof (zlen_nonneg b). by rewrite Z.mod_small. Qed.

Lemma app_inj_len {A} (a b s t : list A) : length a = length b -> a ++ s = b ++ t -> a = b /\ s = t.
Proof.
  revert b. induction a as [|x a IH]; intros [|y b] Hl E; try done.
  injection Hl as Hl. injection E as -> E. destruct (IH b Hl E) as [-> ->]. done.
Qed.

Lemma be8_inj m n s t :
  0 <= m < 2 ^ 64 -> 0 <= n < 2 ^ 64 -> be_put 8 m ++ s = be_put 8 n ++ t -> m = n /\ s = t.
Proof.
  intros Hm Hn E. apply app_inj_len in E as [E ->]; [|by rewrite !length_be_put].
  split; [|done]. by apply (be_put_inj 8).
Qed.

Lemma put_inj a b s t : short a -> short b -> put a ++ s = put b ++ t -> a = b /\ s = t.
Proof.
  intros Ha Hb E. unfold put in E. rewrite !wrap_len, <- !app_assoc in E by done.
  pose proof (zlen_nonneg a). pose proof (zlen_nonneg b). unfold short in *.
  apply be8_inj in E as [El E]; [|lia..].
  apply app_inj_len in E as [-> ->]; [done|]. unfold zlen in El. lia.
Qed.

Lemma args_preimage_app_inj l1 l2 s t :
  length l1 = length l2 -> Forall short l1 -> Forall short l2 ->
  concat (map put l1) ++ s = concat (map put l2) ++ t -> l1 = l2 /\ s = t.
Proof.
  revert l2. induction l1 as [|a l1 IH]; intros [|b l2] Hl H1 H2 E; try done.
  cbn [map concat] in E. rewrite <- !app_assoc in E.
  inversion H1; inversion H2; subst. apply put_inj in E as [-> E]; [|done..].
  injection Hl as Hl. destruct (IH l2 Hl) as [-> ->]; done.
Qed.

Lemma args_preimage_inj l1 l2 :
  Forall short l1 -> Forall short l2 -> args_preimage l1 = args_preimage l2 -> l1 = l2.
Proof.
  unfold args_preimage. revert l2. induction l1 as [|a l1 IH]; intros [|b l2] H1 H2 E; [done| | |].
  - by cbn in E.
  - by cbn in E.
  - cbn [map concat] in E. inversion H1; inversion H2; subst.
    apply put_inj in E as [-> E]; [|done..]. by rewrite (IH l2).
Qed.

Lemma run_preimage_inj l1 m1 s1 l2 m2 s2 :
  Forall short l1 -> Forall short l2 -> zlen l1 < 2 ^ 64 -> zlen l2 < 2 ^ 64 ->
  short m1 -> short m2 -> short s1 -> short s2 ->
  run_preimage l1 m1 s1 = run_preimage l2 m2 s2 -> l1 = l2 /\ m1 = m2 /\ s1 = s2.
Proof.
  intros H1 H2 Hl1 Hl2 Hm1 Hm2 Hs1 Hs2 E. unfold run_preimage in E.
  apply app_inv_head in E. unfold wrapu in E. pose proof (zlen_nonneg l1). pose proof (zlen_nonneg l2).
  rewrite !Z.mod_small in E by lia. apply be8_inj in E as [El E]; [|lia..].
  apply args_preimage_app_inj in E as [-> E]; [|unfold zlen in El; lia|done..].
  apply put_inj in E as [-> E]; [|done..].
  rewrite <- (app_nil_r (put s1)), <- (app_nil_r (put s2)) in E.
  by apply put_inj in E as [-> _].
Qed.

Lemma valid_arg_short a : valid_arg a = true -> zlen a <= 262144 /\ ~ In NULb a.
Proof.
  unfold valid_arg. intros H. bsimp. change maxMonitorArgLen with 262144 in *. split; [lia|].
  intros HIn. rewrite <- not_true_iff_false, existsb_exists in H1. destruct H1.
  exists NULb. split; [done|apply Ascii.eqb_refl].
Qed.

Lemma validate_inv args :
  ValidateMonitorArgs args = Ok tt ->
  args <> [] /\ zlen args <= 4096 /\ Forall (fun a => valid_arg a = true) args.
Proof.
  unfold ValidateMonitorArgs. destruct (_ || _) eqn:E; [done|].
  destruct (forallb _ _) eqn:Ef; [|done]. intros _. bsimp. unfold maxMonitorArgs in *.
  split; [by intros ->|split; [lia|]]. apply Forall_forall. intros a Ha.
  rewrite forallb_forall in Ef. apply Ef. by apply list_elem_of_In.
Qed.

Lemma validate_short args : ValidateMonitorArgs args = Ok tt -> Forall short args.
Proof.
  intros H. apply validate_inv in H as (_ & _ & H). eapply Forall_impl; [exact H|].
  cbn. intros a Ha. apply valid_arg_short in Ha as [Ha _]. unfold short.
  change (2 ^ 64) with 18446744073709551616. lia.
Qed.

(** A validated authorize can not spell the domain tag, the argument count and
    the prefixed arguments of a run: its second argument would start with a
    NUL. *)
Lemma preimages_disjoint args rargs mode stdin :
  ValidateMonitorArgs args = Ok tt -> ValidateMonitorArgs rargs = Ok tt ->
  args_preimage args <> run_preimage rargs mode stdin.
Proof.
  intros Ha Hr E. pose proof (validate_short _ Ha) as Hsa. pose proof (validate_short _ Hr) as Hsr.
  apply validate_inv in Ha as (Hne & _ & Hva). apply validate_inv in Hr as (Hner & Hlr & Hvr).
  destruct args as [|a0 rest]; [done|]. unfold args_preimage, run_preimage in E.
  cbn [map concat] in E. inversion Hsa as [|? ? H0 Hrest]; subst.
  apply put_inj in E as [_ E]; [|done|by vm_compute].
  destruct rest as [|a1 rest]; [by cbn [map concat be_put app] in E|].
  cbn [map concat] in E. unfold put at 1 in E. rewrite <- app_assoc in E.
  inversion Hrest as [|? ? H1 _]; subst. rewrite wrap_len in E by done.
  unfold wrapu in E. pose proof (zlen_nonneg rargs). pose proof (zlen_nonneg a1). unfold short in H1.
  rewrite (Z.mod_small (zlen rargs)) in E by (change (2 ^ 64) with 18446744073709551616; lia).
  apply be8_inj in E as [El E]; [|lia|change (2 ^ 64) with 18446744073709551616; lia].
  destruct rargs as [|x xs]; [done|]. rewrite zlen_cons in El. pose proof (zlen_nonneg xs).
  destruct a1 as [|c a1]; [rewrite zlen_nil in El; lia|].
  cbn [map concat] in E. unfold put at 1 in E. cbn [be_put app] in E.
  apply (f_equal (hd NULb)) in E as Ec. cbn [hd] in Ec.
  inversion Hva as [|? ? _ Hva1]; subst. inversion Hva1 as [|? ? Hv1 _]; subst.
  inversion Hvr as [|? ? Hvx _]; subst.
  apply valid_arg_short in Hv1 as [_ Hn]. apply valid_arg_short in Hvx as [Hx _].
  apply Hn. left. inversion Hsr as [|? ? Hsx _]; subst. rewrite wrap_len by done.
  pose proof (zlen_nonneg x). rewrite Z.div_small; [reflexivity|].
  change (256 ^ Z.of_nat 7) with 72057594037927936. lia.
Qed.

Definition sha_collision {S : Sha256} : Prop :=
  exists m1 m2, m1 <> m2 /\ sha256_hex m1 = sha256_hex m2.

Lemma sha_same {S : Sha256} m1 m2 : sha256_hex m1 = sha256_hex m2 -> m1 = m2 \/ sha_collision.
Proof. intros H. destruct (decide (m1 = m2)); [by left|right]. by exists m1, m2. Qed.

Section theorems.
Context {Sh : Sha256} {Co : MonitorCodec}.

(** Up to an exhibited SHA-256 collision the request digests bind their
    requests: equal argument digests mean equal argument lists, equal run
    digests mean equal arguments, mode and stdin, and no argument digest is a
    run digest. *)
Theorem monitor_digests_bind args1 args2 rargs1 mode1 stdin1 rargs2 mode2 stdin2 :
  ValidateMonitorArgs args1 = Ok tt -> ValidateMonitorArgs args2 = Ok tt ->
  ValidateMonitorArgs rargs1 = Ok tt -> ValidateMonitorArgs rargs2 = Ok tt ->
  validateRunStdin mode1 stdin1 = Ok tt -> validateRunStdin mode2 stdin2 = Ok tt ->
  sha_collision \/
  ((MonitorArgsDigest args1 = MonitorArgsDigest args2 -> args1 = args2) /\
   (MonitorRunDigest rargs1 mode1 stdin1 = MonitorRunDigest rargs2 mode2 stdin2 ->
      rargs1 = rargs2 /\ mode1 = mode2 /\ stdin1 = stdin2) /\
   MonitorArgsDigest args1 <> MonitorRunDigest rargs1 mode1 stdin1).
Proof.
  intros Ha1 Ha2 Hr1 Hr2 Hs1 Hs2.
  assert (Hstdin : forall m s, validateRunStdin m s = Ok tt -> short m /\ short s).
  { intros m s H. unfold validateRunStdin in H. unfold short.
    change MaxMonitorRunStdin with 65536 in H. change (2 ^ 64) with 18446744073709551616.
    case_bool_decide; [|case_bool_decide; [|done]]; subst.
    - destruct (zlen s =? 0) eqn:E; [|done]. bsimp. rewrite E. split; [by vm_compute|lia].
    - destruct (65536 <? zlen s) eqn:E; [done|]. bsimp. split; [by vm_compute|lia]. }
  destruct (Hstdin _ _ Hs1) as [Hm1 Ht1]. destruct (Hstdin _ _ Hs2) as [Hm2 Ht2].
  assert (Hlen : forall l, ValidateMonitorArgs l = Ok tt -> zlen l < 2 ^ 64).
  { intros l H. apply validate_inv in H as (_ & H & _).
    change (2 ^ 64) with 18446744073709551616. lia. }
  unfold MonitorArgsDigest, MonitorRunDigest.
  destruct (decide (sha256_hex (args_preimage args1) = sha256_hex (args_preimage args2))) as [E1|E1];
    [destruct (sha_same _ _ E1) as [E1'|]; [|by left]|].
  all: destruct (decide (sha256_hex (run_preimage rargs1 mode1 stdin1) =
      sha256_hex (run_preimage rargs2 mode2 stdin2))) as [E2|E2];
    [destruct (sha_same _ _ E2) as [E2'|]; [|by left]|].
  all: destruct (decide (sha256_hex (args_preimage args1) =
      sha256_hex (run_preimage rargs1 mode1 stdin1))) as [E3|E3];
    [left; destruct (sha_same _ _ E3) as [E3'|]; [|done];
     by destruct (preimages_disjoint args1 rargs1 mode1 stdin1 Ha1 Hr1)|right].
  all: split_and!; try done; intros _.
  all: try (apply args_preimage_inj; auto using validate_short).
  all: apply run_preimage_inj; auto using validate_short.
Qed.

(** C10: When the client authorizes, the whole request frame was sent and an
    answer frame arrived that carries this request id, is marked OK, has no
    error text and has the SHA-256 of the encoding of exactly these arguments
    as its digest; every other valid argument list has another encoding, so
    the answer fits it only if the two encodings have one SHA-256. *)
Theorem Authorize_ok_bound args c p c' sent :
  Authorize args c p = (Ok tt, c', sent) ->
  ValidateMonitorArgs args = Ok tt /\ broken c = false /\ broken c' = false /\
  sent = frame_bytes MonitorFrameAuthorize (auth_body (mkAuthReq (nextID c) args)) /\
  exists payload rest resp,
    stream p = frame_bytes MonitorFrameAuthorize payload ++ rest /\
    strict_resp payload = Some resp /\ resp_id resp = nextID c /\
    resp_ok resp = true /\ resp_error resp = [] /\
    resp_digest resp = sha256_hex (args_preimage args) /\
    (forall args2, ValidateMonitorArgs args2 = Ok tt -> args2 <> args ->
       args_preimage args2 <> args_preimage args /\
       (resp_digest resp = MonitorArgsDigest args2 ->
          sha256_hex (args_preimage args2) = sha256_hex (args_preimage args))).
Proof.
  unfold Authorize, client_write, take_id.
  destruct (ValidateMonitorArgs args) as [[]|] eqn:Hv; [|done].
  destruct (broken c) eqn:Hb; [done|].
  destruct (WriteMonitorFrame _ _ _) as [[[]|] s] eqn:Hw; [|done].
  unfold client_read. destruct (ReadMonitorFrame (stream p) (stream_end p)) as [[[typ payload] rest]|[]] eqn:Hr;
    try done.
  destruct (Ascii.eqb_spec typ MonitorFrameAuthorize) as [->|]; [|done]. cbn [negb].
  unfold decodeMonitorResponse. destruct (strict_resp payload) as [resp|] eqn:Hd; [|done].
  destruct (negb (resp_id resp =? _) || _) eqn:Hm; [done|].
  destruct (negb (resp_ok resp) || _) eqn:Ho; [done|]. intros [= <- <-].
  apply WriteMonitorFrame_ok in Hw as [-> _]. cbn [broken] in *.
  apply monitor_frame_read in Hr as [Hs _].
  apply orb_false_iff in Hm as [Hm Hdig]. bsimp.
  do 4 (split; [done|]). exists payload, rest, resp. split_and!; try done.
  - by destruct (resp_error resp).
  - intros args2 Hv2 Hne2. split.
    + intros E. apply Hne2. apply args_preimage_inj; auto using validate_short.
    + rewrite Hdig. intros E. exact (eq_sym E).
Qed.

(** A refused or failed round trip returns an error; unless the client was
    broken or an answer for this very request arrived, the client is broken
    afterwards. *)
Theorem Authorize_fails_closed args c p e c' sent :
  Authorize args c p = (Err e, c', sent) ->
  (broken c' = true) \/
  (c' = c /\ sent = [] /\ ValidateMonitorArgs args = Err MonitorInvalidArgument) \/
  (exists payload rest resp,
     stream p = frame_bytes MonitorFrameAuthorize payload ++ rest /\
     strict_resp payload = Some resp /\ resp_id resp = nextID c /\
     resp_digest resp = MonitorArgsDigest args /\
     (resp_ok resp = false \/ resp_error resp <> [])).
Proof.
  unfold Authorize, client_write, take_id.
  destruct (ValidateMonitorArgs args) as [[]|x] eqn:Hv.
  2:{ intros [= <- <- <-]. right; left. unfold ValidateMonitorArgs in Hv.
      destruct (_ || _); [by injection Hv as <-|]. destruct (forallb _ _); [done|].
      by injection Hv as <-. }
  destruct (broken c) eqn:Hb; [intros [= <- <- <-]; by left|].
  destruct (WriteMonitorFrame _ _ _) as [[[]|] s] eqn:Hw; [|intros [= <- <- <-]; by left].
  unfold client_read. destruct (ReadMonitorFrame (stream p) (stream_end p)) as [[[typ payload] rest]|x] eqn:Hr;
    [|destruct x; intros [= <- <- <-]; by left].
  destruct (Ascii.eqb_spec typ MonitorFrameAuthorize) as [->|]; [|intros [= <- <- <-]; by left].
  cbn [negb]. unfold decodeMonitorResponse.
  destruct (strict_resp payload) as [resp|] eqn:Hd; [|intros [= <- <- <-]; by left].
  destruct (negb (resp_id resp =? _) || _) eqn:Hm; [intros [= <- <- <-]; by left|].
  destruct (negb (resp_ok resp) || _) eqn:Ho; [|done]. intros [= <- <- <-].
  right; right. apply monitor_frame_read in Hr as [Hs _].
  apply orb_false_iff in Hm as [Hm Hdig]. bsimp.
  exists payload, rest, resp. split_and!; try done.
  destruct Ho as [Ho|Ho]; bsimp; [by left|right]. by intros E; rewrite E in Ho.
Qed.

(** Arguments may pass validation and still not fit one frame; the request is
    then not sent, and the client refuses every later call. *)
(** Arguments that pass validation but whose encoded request exceeds the frame
    cap are refused without a byte sent, and break the client: every later
    authorization fails as closed. *)
Theorem oversized_request_breaks_client args c p :
  ValidateMonitorArgs args = Ok tt -> broken c = false ->
  MaxMonitorFrame < zlen (auth_body (mkAuthReq (nextID c) args)) ->
  let '(r, c', sent) := Authorize args c p in
  r = Err (MErr MonitorClosed) /\ sent = [] /\
  forall args2 p2, ValidateMonitorArgs args2 = Ok tt ->
    Authorize args2 c' p2 = (Err (MErr MonitorClosed), c', []).
Proof.
  intros Hv Hb Hbig. unfold Authorize, client_write, take_id. rewrite Hv, Hb.
  unfold WriteMonitorFrame. rewrite (proj2 (Z.ltb_lt _ _)) by done.
  split_and!; try done. intros args2 p2 Hv2. by rewrite Hv2.
Qed.

End theorems.

(** ** Concrete peers *)

(** A codec that knows one authorize response. *)
Definition demoSha : Sha256 := {| sha256_hex := fun m => m |}.

Definition demoCodec (resp : MonitorAuthResponse) : MonitorCodec :=
  {| strict_auth := fun _ => None; strict_resp := fun _ => Some resp; strict_run := fun _ => None;
     strict_out := fun _ => None; strict_exit := fun _ => None; strict_cancel := fun _ => None;
     marshal_run := fun _ => [] |}.

Definition demoResp (ok : bool) : MonitorAuthResponse :=
  mkAuthResp 7 (MonitorArgsDigest (S := demoSha) [lit "ls"]) ok [].

Definition demoPeer (req : bytes) : peer :=
  mkPeer (WriteTook (length req)) (frame_bytes MonitorFrameAuthorize (lit "{}")) CleanEnd.

Definition demoReq : bytes :=
  frame_bytes MonitorFrameAuthorize (auth_body (mkAuthReq 7 [lit "ls"])).

Lemma Authorize_ok_bound_witness :
  exists payload rest,
    stream (demoPeer demoReq) = frame_bytes MonitorFrameAuthorize payload ++ rest /\
    resp_id (demoResp true) = 7 /\ resp_error (demoResp true) = [].
Proof.
  assert (H : Authorize (Sh := demoSha) (Co := demoCodec (demoResp true)) [lit "ls"]
                (mkClient 7 false) (demoPeer demoReq)
              = (Ok tt, mkClient 8 false, demoReq)) by (vm_compute; reflexivity).
  destruct (Authorize_ok_bound (Sh := demoSha) (Co := demoCodec (demoResp true)) _ _ _ _ _ H)
    as (_ & _ & _ & _ & payload & rest & resp & Hs & Hd & Hi & _ & He & _).
  injection Hd as <-. exists payload, rest. split; [exact Hs|]. split; [exact Hi|exact He].
Defined.

Lemma Authorize_fails_closed_witness :
  exists payload rest,
    stream (demoPeer demoReq) = frame_bytes MonitorFrameAuthorize payload ++ rest.
Proof.
  assert (H : Authorize (Sh := demoSha) (Co := demoCodec (demoResp false)) [lit "ls"]
                (mkClient 7 false) (demoPeer demoReq)
              = (Err (MErr MonitorDenied), mkClient 8 false, demoReq)) by (vm_compute; reflexivity).
  destruct (Authorize_fails_closed (Sh := demoSha) (Co := demoCodec (demoResp false)) _ _ _ _ _ _ H)
    as [Hb|[(Hc & _)|(payload & rest & resp & Hs & _)]]; [discriminate Hb|discriminate Hc|].
  exists payload, rest. exact Hs.
Defined.

Lemma monitor_digests_bind_witness :
  sha_collision (S := demoSha) \/
  MonitorArgsDigest (S := demoSha) [lit "ls"] <>
  MonitorRunDigest (S := demoSha) [lit "cm"; lit "status"] (lit "none") [].
Proof.
  destruct (monitor_digests_bind (Sh := demoSha) [lit "ls"] [lit "ls"]
    [lit "cm"; lit "status"] (lit "none") [] [lit "cm"; lit "status"] (lit "none") [])
    as [H|(_ & _ & H)]; try (vm_compute; reflexivity); [left|right]; exact H.
Defined.

(** *** Five arguments of the largest size *)

Definition bigArg : bytes := repeat "a"%char (Z.to_nat maxMonitorArgLen).

Lemma json_esc_plain n : json_esc (JCopy 0) (repeat "a"%char n) = repeat "a"%char n.
Proof. induction n; cbn [repeat json_esc]; [done|]. cbn. by rewrite IHn. Qed.

Lemma valid_utf8_plain n : valid_utf8 (repeat "a"%char n) = true.
Proof. unfold valid_utf8. induction n; [done|exact IHn]. Qed.

Lemma zlen_repeat {A} (x : A) n : zlen (repeat x n) = Z.of_nat n.
Proof. unfold zlen. by rewrite repeat_length. Qed.

Lemma bigArg_valid : valid_arg bigArg = true.
Proof.
  unfold valid_arg. rewrite (valid_utf8_plain _ : valid_utf8 bigArg = true).
  unfold bigArg at 1. rewrite zlen_repeat.
  rewrite Z2Nat.id by (vm_compute; congruence). rewrite Z.ltb_irrefl.
  assert (existsb (fun c => c =?b NULb) bigArg = false) as ->; [|done].
  unfold bigArg. induction (Z.to_nat maxMonitorArgLen); [done|]. cbn [repeat existsb]. exact IHn.
Qed.

Lemma zlen_json_string_big : zlen (json_string bigArg) = 262146.
Proof.
  unfold json_string, bigArg. rewrite json_esc_plain, zlen_cons, zlen_app, zlen_repeat.
  rewrite Z2Nat.id by (vm_compute; congruence). reflexivity.
Qed.

Lemma big_body_size id : MaxMonitorFrame < zlen (auth_body (mkAuthReq id (repeat bigArg 5))).
Proof.
  unfold auth_body, json_object, member, json_array. cbn [auth_args auth_id repeat map GoBytes.join app].
  repeat (rewrite ?zlen_app, ?zlen_cons, ?zlen_json_string_big).
  change MaxMonitorFrame with 1048576.
  repeat match goal with |- context [zlen ?l] =>
    lazymatch goal with H : 0 <= zlen l |- _ => fail | _ => pose proof (zlen_nonneg l) end end.
  lia.
Qed.

Lemma oversized_request_breaks_client_witness :
  let '(r, c', sent) := Authorize (Sh := demoSha) (Co := demoCodec (demoResp true))
      (repeat bigArg 5) (mkClient 7 false) (demoPeer []) in
  r = Err (MErr MonitorClosed) /\ sent = [] /\
  forall args2 p2, ValidateMonitorArgs args2 = Ok tt ->
    Authorize (Sh := demoSha) (Co := demoCodec (demoResp true)) args2 c' p2
    = (Err (MErr MonitorClosed), c', []).
Proof.
  apply (oversized_request_breaks_client (Sh := demoSha) (Co := demoCodec (demoResp true))
    (repeat bigArg 5) (mkClient 7 false) (demoPeer [])).
  - unfold ValidateMonitorArgs. cbn [repeat forallb]. rewrite !bigArg_valid. reflexivity.
  - reflexivity.
  - apply big_body_size.
Defined.
