(* ===== verification/SshMonitor.v ===== *)
(** * The monitor server and what an SSH session may run

    security/ssh_monitor.go: the refusal tables, [ServeSSHMonitorRun]'s request
    machine, the output writer of a run, and the flag parser of the evidence
    binary (security/vbin_evidence_ee.go) that a scoped run reaches. *)

From S2P Require Import Prelude GoBytes FlowScan Frames Json MonitorProto.

(** ** Refusals *)

Inductive sshErr :=
| RunEmpty
| Refusal (name : bytes)
| FourEyesRules (sub : bytes)
| EvidenceScope
| MirrorScope.

Definition lits (l : list string) : list bytes := map lit l.
Definition mem (x : bytes) (l : list bytes) : bool := existsb (fun y => bool_decide (x = y)) l.

Definition sshSessionRefusedVBins : list bytes :=
  lits ["elevate"; "cm"; "lease"; "grant"; "identity"; "4eyes"; "why"; "??"; "admin"; "gateway";
        "guard"; "grid"; "flight"; "agent"; "worktree"; "repo"; "evidence"; "whoami"]%string.

Definition sshSessionRefusal (args : list bytes) : option sshErr :=
  match args with
  | [] => None
  | name :: rest =>
      let refused :=
        if bool_decide (name = lit "plugin") || bool_decide (name = lit "mirror") then
          match rest with sub :: _ => negb (bool_decide (sub = lit "list")) | [] => true end
        else mem name sshSessionRefusedVBins in
      if refused then Some (Refusal name) else None
  end.

(** [sshListenerRuns]: [None] accepts every subcommand. *)
Definition sshListenerRuns (name : bytes) : option (option (list bytes)) :=
  if mem name (lits ["elevate"; "why"; "??"; "agent"; "whoami"; "do"; "evidence"]%string)
  then Some None
  else if bool_decide (name = lit "cm")
  then Some (Some (lits ["set"; "check"; "clear"; "status"; "providers"; "require"]%string))
  else if bool_decide (name = lit "grant") then Some (Some (lits ["drop"]%string))
  else if bool_decide (name = lit "4eyes")
  then Some (Some (lits ["approve"; "deny"; "pending"; "list"]%string))
  else if bool_decide (name = lit "guard") then Some (Some (lits ["status"]%string))
  else if bool_decide (name = lit "gateway") then Some (Some (lits ["list"; "stop"]%string))
  else if bool_decide (name = lit "identity") then Some (Some (lits ["status"]%string))
  else if bool_decide (name = lit "grid") then Some (Some (lits ["status"]%string))
  else if bool_decide (name = lit "flight")
  then Some (Some (lits ["rehearse"; "cancel"; "status"]%string))
  else if bool_decide (name = lit "worktree") then Some (Some (lits ["create"; "destroy"]%string))
  else if bool_decide (name = lit "mirror")
  then Some (Some (lits ["kill"; "share"; "unshare"]%string))
  else None.

Definition is_help (s : bytes) : bool :=
  bool_decide (s = lit "--help") || bool_decide (s = lit "help").

Definition sshRunsInListener (args : list bytes) : bool :=
  match args with
  | [] => false
  | name :: rest =>
      if bool_decide (name = lit "mirror") then
        match rest, sshListenerRuns (lit "mirror") with
        | sub :: _, Some (Some subs) => mem sub subs
        | _, _ => false
        end
      else match sshListenerRuns name with Some _ => true | None => false end
  end.

(** The elements at the flag positions 1, 3, 5, ... of the arguments, each
    with the value after it. *)
Fixpoint flag_pairs (l : list bytes) : list (bytes * option bytes) :=
  match l with
  | [] => []
  | [f] => [(f, None)]
  | f :: v :: l' => (f, Some v) :: flag_pairs l'
  end.

Definition sshListenerRunRefusal (args : list bytes) : option sshErr :=
  match args with
  | [] => Some RunEmpty
  | name :: rest =>
      match sshListenerRuns name with
      | None => Some (Refusal name)
      | Some allowed =>
          let sub := if bool_decide (name = lit "guard")
                     then List.filter (fun a => negb (bool_decide (a = lit "--json"))) rest
                     else rest in
          if bool_decide (name = lit "guard")
             && match sub with s0 :: _ :: _ => negb (is_help s0) | _ => false end
          then Some (Refusal name)
          else
            let bad :=
              match allowed with
              | None => None
              | Some subs =>
                  match sub with
                  | [] => Some (Refusal name)
                  | s0 :: _ =>
                      if negb (mem s0 subs) && negb (is_help s0) then
                        if bool_decide (name = lit "4eyes")
                           && mem s0 (lits ["add"; "remove"; "rm"]%string)
                        then Some (FourEyesRules s0) else Some (Refusal name)
                      else None
                  end
              end in
            match bad with
            | Some e => Some e
            | None =>
                if bool_decide (name = lit "evidence")
                   && existsb (fun p => bool_decide (fst p = lit "--out")) (flag_pairs rest)
                then Some (Refusal name) else None
            end
      end
  end.

Definition sshListenerRunArgs (sessionID : bytes) (args : list bytes) : result sshErr (list bytes) :=
  match sshListenerRunRefusal args with
  | Some e => Err e
  | None =>
      match args with
      | [] => Err RunEmpty
      | name :: rest =>
          if bool_decide (name = lit "evidence") then
            let scopes := List.filter (fun p => bool_decide (fst p = lit "--session")) (flag_pairs rest) in
            if existsb (fun p => negb (bool_decide (snd p = Some sessionID))) scopes
            then Err EvidenceScope
            else match scopes with
                 | [] => Ok (args ++ [lit "--session"; sessionID])
                 | _ => Ok args
                 end
          else if bool_decide (name = lit "mirror") then
            match rest with
            | sub :: more =>
                if bool_decide (sub = lit "kill") && negb (bool_decide (more = [sessionID]))
                then Err MirrorScope else Ok args
            | [] => Ok args
            end
          else Ok args
      end
  end.

(** ** The flags of the evidence binary *)

Record EvidenceFilter := mkFilter
  { ev_session : bytes; ev_change : bytes; ev_since : bytes; ev_until : bytes; ev_out : bytes }.

Definition no_filter : EvidenceFilter := mkFilter [] [] [] [] [].

Definition set_flag (flag v : bytes) (f : EvidenceFilter) : option EvidenceFilter :=
  if bool_decide (flag = lit "--session") then Some (mkFilter v (ev_change f) (ev_since f) (ev_until f) (ev_out f))
  else if bool_decide (flag = lit "--change") then Some (mkFilter (ev_session f) v (ev_since f) (ev_until f) (ev_out f))
  else if bool_decide (flag = lit "--since") then Some (mkFilter (ev_session f) (ev_change f) v (ev_until f) (ev_out f))
  else if bool_decide (flag = lit "--until") then Some (mkFilter (ev_session f) (ev_change f) (ev_since f) v (ev_out f))
  else if bool_decide (flag = lit "--out") then Some (mkFilter (ev_session f) (ev_change f) (ev_since f) (ev_until f) v)
  else None.

Fixpoint evidence_flags (l : list bytes) (f : EvidenceFilter) : option EvidenceFilter :=
  match l with
  | [] => Some f
  | [_] => None
  | flag :: v :: l' => match set_flag flag v f with
                       | Some f1 => evidence_flags l' f1
                       | None => None
                       end
  end.

(** ** The output of a run *)

Record outWriter := mkOW { ow_seq : Z; ow_total : Z; ow_truncated : bool; ow_broken : bool }.

Definition newOutWriter : outWriter := mkOW 0 0 false false.

(** [send]: the frame, when the connection takes it. *)
Definition ow_send (id : Z) (stream : Z) (data : bytes) (ok : bool) (w : outWriter)
  : list MonitorOut * outWriter :=
  let w1 := mkOW (wrapu 64 (ow_seq w + 1)) (ow_total w) (ow_truncated w) (ow_broken w || negb ok) in
  (if ok then [mkOut id (ow_seq w1) stream data] else [], w1).

(** [emit]; [conn] answers for each write of the connection, and [fuel] bounds
    the chunks, which are not empty. *)
Fixpoint emit (fuel : nat) (id stream : Z) (p : bytes) (conn : nat -> bool) (w : outWriter)
  : list MonitorOut * outWriter :=
  match fuel with
  | O => ([], w)
  | S fuel' =>
      if (zlen p =? 0) || ow_broken w then ([], w)
      else
        let room := MaxMonitorRunOutput - ow_total w in
        if room <=? 0 then ([], mkOW (ow_seq w) (ow_total w) true (ow_broken w))
        else
          let n := Z.min (Z.min (zlen p) MaxMonitorOutChunk) room in
          let '(o, w1) := ow_send id stream (take (Z.to_nat n) p) (conn O) w in
          let w2 := mkOW (ow_seq w1) (ow_total w1 + n) (ow_truncated w1) (ow_broken w1) in
          let '(os, w3) := emit fuel' id stream (drop (Z.to_nat n) p) (fun k => conn (S k)) w2 in
          (o ++ os, w3)
  end.

(** The writes of a run, in order, on a connection that takes every frame. *)
Fixpoint emit_all (id : Z) (writes : list (Z * bytes)) (w : outWriter) : list MonitorOut * outWriter :=
  match writes with
  | [] => ([], w)
  | (stream, p) :: ws =>
      let '(o, w1) := emit (S (length p)) id stream p (fun _ => true) w in
      let '(os, w2) := emit_all id ws w1 in (o ++ os, w2)
  end.

Definition finish (id : Z) (ok : bool) (w : outWriter) : list MonitorOut * outWriter :=
  if ow_truncated w && negb (ow_broken w)
  then ow_send id MonitorStreamStderr MonitorRunTruncated ok w else ([], w).

Definition run_output (id : Z) (writes : list (Z * bytes)) : list MonitorOut :=
  let '(os, w) := emit_all id writes newOutWriter in os ++ fst (finish id true w).

(** ** The request machine *)

(** One served connection: the last accepted id, the in-flight id (0 for
    none) with whether its context is canceled, and the remembered Cancel. *)
Record server := mkServer {
  lastID : Z; inflight : Z; canceled : bool; earlyID : Z; earlyAt : Z; closed : bool
}.

Definition newServer : server := mkServer 0 0 false 0 0 false.
Definition earlyCancelWindow : Z := 2 * 1000000000.

Inductive request :=
| ReqAuth (r : MonitorAuthRequest)
| ReqRun (r : MonitorRunRequest).

Definition request_id (r : request) : Z :=
  match r with ReqAuth a => auth_id a | ReqRun a => run_id a end.

(** What the loop does with a frame: answer a ping, answer busy, start the
    request's goroutine (with its context already canceled, perhaps), nothing,
    or end the connection. *)
Inductive action := Pong | Busy (r : request) | Start (r : request) (cancelledAtStart : bool) | Quiet | Close.

Definition close (s : server) : server :=
  mkServer (lastID s) (inflight s) (canceled s) (earlyID s) (earlyAt s) true.

Definition inSequence (id : Z) (s : server) : option server :=
  if negb (lastID s =? 0) && negb (id =? wrapu 64 (lastID s + 1)) then None
  else Some (mkServer id (inflight s) (canceled s) (earlyID s) (earlyAt s) (closed s)).

Definition begin_request (now : Z) (id : Z) (s : server) : option (bool * server) :=
  if negb (inflight s =? 0) then None
  else
    let early := (earlyID s =? id) && negb (earlyID s =? 0) in
    let c := early && (now - earlyAt s <=? earlyCancelWindow) in
    Some (c, mkServer (lastID s) id c (if early then 0 else earlyID s) (earlyAt s) (closed s)).

Definition end_request (id : Z) (s : server) : server :=
  if inflight s =? id
  then mkServer (lastID s) 0 false (earlyID s) (earlyAt s) (closed s)
  else s.

Definition cancelID (now id : Z) (s : server) : server :=
  if (inflight s =? id) && negb (inflight s =? 0)
  then mkServer (lastID s) (inflight s) true (earlyID s) (earlyAt s) (closed s)
  else if negb (lastID s =? 0) && (id =? wrapu 64 (lastID s + 1))
  then mkServer (lastID s) (inflight s) (canceled s) id now (closed s)
  else s.

Section serve.
Context {Sh : Sha256} {Co : MonitorCodec}.

Definition accept (now : Z) (r : request) (s : server) : action * server :=
  match inSequence (request_id r) s with
  | None => (Close, close s)
  | Some s1 =>
      match begin_request now (request_id r) s1 with
      | None => (Busy r, s1)
      | Some (c, s2) => (Start r c, s2)
      end
  end.

(** One frame of the read loop. *)
Definition on_frame (now : Z) (typ : byte) (payload : bytes) (s : server) : action * server :=
  if typ =?b MonitorFramePing then
    if zlen payload =? 0 then (Pong, s) else (Close, close s)
  else if typ =?b MonitorFrameAuthorize then
    match DecodeMonitorAuth payload with
    | Err _ => (Close, close s)
    | Ok r => accept now (ReqAuth r) s
    end
  else if typ =?b MonitorFrameRun then
    match DecodeMonitorRun payload with
    | Err _ => (Close, close s)
    | Ok r => accept now (ReqRun r) s
    end
  else if typ =?b MonitorFrameCancel then
    match DecodeMonitorCancel payload with
    | Err _ => (Close, close s)
    | Ok id => (Quiet, cancelID now id s)
    end
  else (Close, close s).

(** What happens on a connection: a frame arrives, or the goroutine of the
    in-flight request ends it. *)
Inductive event := Frame (now : Z) (typ : byte) (payload : bytes) | Finished (id : Z).

Definition step (ev : event) (s : server) : list action * server :=
  if closed s then ([], s)
  else match ev with
  | Frame now typ payload => let '(a, s1) := on_frame now typ payload s in ([a], s1)
  | Finished id => ([], end_request id s)
  end.

Fixpoint serve (evs : list event) (s : server) : list action * server :=
  match evs with
  | [] => ([], s)
  | ev :: evs' =>
      let '(a, s1) := step ev s in
      let '(acts, s2) := serve evs' s1 in (a ++ acts, s2)
  end.

(** ** What a started request does *)

(** The listener around a request: the bound session still exists, the gate's
    verdict on arguments, the audit of a refusal (whose failure text is added
    to the denial), and the binary. *)
Record listener := mkListener {
  l_session : bytes;
  l_alive : bool;
  l_gate : list bytes -> option bytes;
  l_refuse : sshErr -> bytes;
  l_run : option (list bytes -> bytes -> list (Z * bytes) * Z * option bytes)
}.

Definition errMonitorCancelled : bytes := lit "adssh: ssh monitor: request canceled".
Definition errSSHMonitorSessionGone : bytes := lit "adssh: ssh monitor: session is gone".

Definition authorize (l : listener) (ctxErr : bool) (req : MonitorAuthRequest) : MonitorAuthResponse :=
  let deny e := mkAuthResp (auth_id req) (MonitorArgsDigest (auth_args req)) false e in
  if ctxErr then deny errMonitorCancelled
  else if negb (l_alive l) then deny errSSHMonitorSessionGone
  else match sshSessionRefusal (auth_args req) with
  | Some e => deny (l_refuse l e)
  | None =>
      match l_gate l (auth_args req) with
      | Some e => deny e
      | None => mkAuthResp (auth_id req) (MonitorArgsDigest (auth_args req)) true []
      end
  end.

(** The Out frames and the Exit of a run. *)
Definition runVBin (l : listener) (ctxErr : bool) (req : MonitorRunRequest)
  : list MonitorOut * MonitorExit :=
  let digest := MonitorRunDigest (run_args req) (run_mode req) (run_stdin req) in
  let exit code e := mkExit (run_id req) digest code e in
  if ctxErr then ([], exit 1 errMonitorCancelled)
  else if negb (l_alive l) then ([], exit 1 errSSHMonitorSessionGone)
  else match sshListenerRunArgs (l_session l) (run_args req) with
  | Err e => ([], exit 1 (l_refuse l e))
  | Ok args =>
      match l_run l with
      | None => ([], exit 1 (l_refuse l (Refusal (hd [] (run_args req)))))
      | Some run =>
          match l_gate l args with
          | Some e => ([], exit 1 e)
          | None =>
              let '(writes, code, err) := run args (run_stdin req) in
              let code := match err with
                          | Some _ => if code =? 0 then 1 else code
                          | None => code
                          end in
              let code := if (code <? 0) || (255 <? code) then 1 else code in
              (run_output (run_id req) writes,
               exit code (match err with Some e => e | None => [] end))
          end
      end
  end.

End serve.

(** ** What an SSH session can run *)

Lemma mem_In x l : mem x l = true <-> In x l.
Proof.
  unfold mem. rewrite existsb_exists. split.
  - intros (y & Hy & E). by apply bool_decide_eq_true in E as ->.
  - intros H. exists x. by rewrite bool_decide_true.
Qed.

Lemma evidence_flags_out l f f' :
  evidence_flags l f = Some f' ->
  existsb (fun p => bool_decide (fst p = lit "--out")) (flag_pairs l) = false ->
  ev_out f' = ev_out f.
Proof.
  revert f. remember (length l) as n eqn:Hn. revert l Hn.
  induction n as [n IH] using (well_founded_induction lt_wf); intros l -> f H Hp.
  destruct l as [|a [|b l]]; [by injection H as <-|done|].
  cbn [evidence_flags flag_pairs existsb fst] in *. apply orb_false_iff in Hp as [Ha Hp].
  apply bool_decide_eq_false in Ha.
  destruct (set_flag a b f) as [f1|] eqn:Ef; [|done].
  rewrite (IH (length l) ltac:(cbn; lia) l eq_refl f1) by done.
  unfold set_flag in Ef. repeat case_bool_decide; simplify_eq; done.
Qed.

(** Every [--session] names [sid]; the last one decides. *)
Lemma evidence_flags_session sid l f f' :
  evidence_flags l f = Some f' ->
  existsb (fun p => negb (bool_decide (snd p = Some sid)))
    (List.filter (fun p => bool_decide (fst p = lit "--session")) (flag_pairs l)) = false ->
  ev_session f = sid \/
    List.filter (fun p => bool_decide (fst p = lit "--session")) (flag_pairs l) <> [] ->
  ev_session f' = sid.
Proof.
  revert f. remember (length l) as n eqn:Hn. revert l Hn.
  induction n as [n IH] using (well_founded_induction lt_wf); intros l -> f H Hp Hs.
  destruct l as [|a [|b l]]; [|done|].
  { injection H as <-. by destruct Hs as [|[]]. }
  cbn [evidence_flags flag_pairs List.filter fst] in *.
  destruct (set_flag a b f) as [f1|] eqn:Ef; [|done].
  unfold set_flag in Ef. destruct (bool_decide (a = lit "--session")) eqn:Ea.
  - injection Ef as <-. cbn [existsb snd] in Hp. apply orb_false_iff in Hp as [Hb Hp].
    apply negb_false_iff, bool_decide_eq_true in Hb. injection Hb as ->.
    apply (IH (length l) ltac:(cbn; lia) l eq_refl _ H Hp). by left.
  - apply (IH (length l) ltac:(cbn; lia) l eq_refl f1 H Hp).
    destruct Hs as [Hs|Hs]; [left|by right].
    repeat case_bool_decide; simplify_eq; done.
Qed.

Lemma evidence_flags_appended sid l f f' :
  evidence_flags (l ++ [lit "--session"; sid]) f = Some f' -> ev_session f' = sid.
Proof.
  revert f. remember (length l) as n eqn:Hn. revert l Hn.
  induction n as [n IH] using (well_founded_induction lt_wf); intros l -> f H.
  destruct l as [|a [|b l]].
  - cbn in H. by injection H as <-.
  - cbn [app evidence_flags] in H. by destruct (set_flag _ _ _).
  - cbn [app evidence_flags] in H. destruct (set_flag a b f) as [f1|]; [|done].
    by apply (IH (length l) ltac:(cbn; lia) l eq_refl f1).
Qed.

Lemma flag_pairs_app_out l sid :
  existsb (fun p => bool_decide (fst p = lit "--out")) (flag_pairs l) = false ->
  forall f f', evidence_flags (l ++ [lit "--session"; sid]) f = Some f' -> ev_out f' = ev_out f.
Proof.
  remember (length l) as n eqn:Hn. revert l Hn.
  induction n as [n IH] using (well_founded_induction lt_wf); intros l -> Hp f f' H.
  destruct l as [|a [|b l]].
  - cbn in H. by injection H as <-.
  - cbn [app evidence_flags] in H. by destruct (set_flag _ _ _).
  - cbn [app evidence_flags flag_pairs existsb fst] in *. apply orb_false_iff in Hp as [Ha Hp].
    apply bool_decide_eq_false in Ha. destruct (set_flag a b f) as [f1|] eqn:Ef; [|done].
    rewrite (IH (length l) ltac:(cbn; lia) l eq_refl Hp f1 f' H).
    unfold set_flag in Ef. repeat case_bool_decide; simplify_eq; done.
Qed.

(** Whatever an SSH session sends, the evidence arguments the listener runs,
    as the evidence binary parses them, filter on the bound session and name
    no output file. *)
Theorem evidence_run_scoped sid rest args f :
  sshListenerRunArgs sid (lit "evidence" :: rest) = Ok args ->
  evidence_flags (drop 1 args) no_filter = Some f ->
  ev_session f = sid /\ ev_out f = [].
Proof.
  unfold sshListenerRunArgs, sshListenerRunRefusal.
  replace (sshListenerRuns (lit "evidence")) with (@Some (option (list bytes)) None) by reflexivity.
  change (bool_decide (lit "evidence" = lit "guard")) with false. cbn [andb].
  change (bool_decide (lit "evidence" = lit "evidence")) with true. cbn [andb].
  destruct (existsb (fun p => bool_decide (p.1 = lit "--out")) (flag_pairs rest)) eqn:Eo; [done|].
  destruct (existsb _ (List.filter _ _)) eqn:Es; [done|].
  destruct (List.filter _ (flag_pairs rest)) as [|p ps] eqn:Ef; intros [= <-]; cbn [drop app]; intros H.
  - split; [by eapply evidence_flags_appended|]. by rewrite (flag_pairs_app_out rest sid Eo _ _ H).
  - split; [|by rewrite (evidence_flags_out _ _ _ H Eo)].
    apply (evidence_flags_session sid rest no_filter f H); [rewrite Ef; exact Es|right].
    intros E. rewrite Ef in E. done.
Qed.

(** The sub-commands that may change state of the listener, as the code's
    table names them. *)
Definition run_allowed (sid : bytes) (args : list bytes) : Prop :=
  exists name rest allowed,
    args = name :: rest /\ sshListenerRuns name = Some allowed /\
    ~ In name (lits ["admin"; "lease"; "repo"; "plugin"]%string) /\
    (forall subs, allowed = Some subs -> name <> lit "guard" ->
       exists sub more, rest = sub :: more /\ (In sub subs \/ is_help sub = true)) /\
    (name = lit "mirror" -> forall more, rest = lit "kill" :: more -> more = [sid]).

(** The listener runs for an SSH session only the tabled binaries and sub-
    commands, never admin, lease, repo or plugin, mirror kill only on the
    bound session, and changes the arguments only by adding the session filter
    to evidence. *)
Theorem listener_run_allowed sid args args' :
  sshListenerRunArgs sid args = Ok args' ->
  run_allowed sid args' /\ exists extra, args' = args ++ extra /\
    (extra = [] \/ (hd [] args = lit "evidence" /\ extra = [lit "--session"; sid])).
Proof.
  unfold sshListenerRunArgs. destruct (sshListenerRunRefusal args) as [e|] eqn:Er; [done|].
  destruct args as [|name rest]; [done|]. unfold sshListenerRunRefusal in Er.
  destruct (sshListenerRuns name) as [allowed|] eqn:Ea; [|done].
  assert (Hname : ~ In name (lits ["admin"; "lease"; "repo"; "plugin"]%string)).
  { intros Hin. cbn in Hin. destruct Hin as [<-|[<-|[<-|[<-|[]]]]]; by vm_compute in Ea. }
  assert (Hsub : forall subs, allowed = Some subs -> name <> lit "guard" ->
       exists sub more, rest = sub :: more /\ (In sub subs \/ is_help sub = true)).
  { intros subs -> Hg. rewrite bool_decide_false in Er by done. cbn [andb] in Er.
    destruct rest as [|s0 more]; [done|]. exists s0, more. split; [done|].
    destruct (mem s0 subs) eqn:Em; [left; by apply mem_In|].
    destruct (is_help s0) eqn:Eh; [by right|]. cbn [negb andb] in Er. by destruct (_ && _). }
  clear Er. destruct (decide (name = lit "evidence")) as [->|Eev];
    [rewrite bool_decide_true by done|rewrite bool_decide_false by done;
     destruct (decide (name = lit "mirror")) as [->|Emi];
     [rewrite bool_decide_true by done|rewrite bool_decide_false by done]].
  - destruct (existsb _ (List.filter _ _)); [done|].
    assert (Hal : Some allowed = Some None) by (rewrite <- Ea; reflexivity). injection Hal as ->.
    destruct (List.filter _ (flag_pairs rest)); intros [= <-].
    + split; [|exists [lit "--session"; sid]; split; [done|by right]].
      exists (lit "evidence"), (rest ++ [lit "--session"; sid]), None.
      split_and!; try done; intros E; by vm_compute in E.
    + split; [|exists []; rewrite app_nil_r; split; [done|by left]].
      exists (lit "evidence"), rest, None. split_and!; try done; intros E; by vm_compute in E.
  - destruct rest as [|sub more].
    { destruct (Hsub (lits ["kill"; "share"; "unshare"]%string)) as (? & ? & ? & _); try done.
      vm_compute in Ea. by injection Ea as <-. }
    destruct (_ && _) eqn:Ek; [done|]. intros [= <-].
    split; [|exists []; rewrite app_nil_r; split; [done|by left]].
    exists (lit "mirror"), (sub :: more), allowed. split_and!; try done.
    intros _ more' [= -> ->]. bsimp. destruct Ek as [Ek|Ek]; bsimp; done.
  - intros [= <-]. split; [|exists []; rewrite app_nil_r; split; [done|by left]].
    exists name, rest, allowed. split_and!; done.
Qed.

(** ** The server's sequence of requests *)

Section server_theorems.
Context {Sh : Sha256} {Co : MonitorCodec}.

Definition accepted (a : action) : list Z :=
  match a with Busy r | Start r _ => [request_id r] | _ => [] end.

(** Each id is the one after its predecessor, modulo 2^64. *)
Fixpoint linked (last : Z) (ids : list Z) : Prop :=
  match ids with
  | [] => True
  | id :: ids' => (last <> 0 -> id = wrapu 64 (last + 1)) /\ id <> 0 /\ linked id ids'
  end.

Lemma decode_auth_id payload r : DecodeMonitorAuth payload = Ok r -> auth_id r <> 0.
Proof.
  unfold DecodeMonitorAuth. destruct (strict_auth payload) as [q|]; [|done].
  destruct (auth_id q =? 0) eqn:E; [done|]. destruct (ValidateMonitorArgs _); [|done].
  intros [= <-]. by bsimp.
Qed.

Lemma decode_run_id payload r : DecodeMonitorRun payload = Ok r -> run_id r <> 0.
Proof.
  unfold DecodeMonitorRun. destruct (strict_run payload) as [q|]; [|done].
  destruct (run_id q =? 0) eqn:E; [done|]. destruct (ValidateMonitorArgs _); [|done]. cbn [rbind].
  destruct (validateRunStdin _ _); [|done]. intros [= <-]. by bsimp.
Qed.

Lemma accept_spec now r s a s' :
  accept now r s = (a, s') ->
  (a = Close /\ closed s' = true) \/
  ((lastID s <> 0 -> request_id r = wrapu 64 (lastID s + 1)) /\ lastID s' = request_id r /\
   ((a = Busy r /\ inflight s <> 0 /\ inflight s' = inflight s) \/
    (exists c, a = Start r c /\ inflight s = 0 /\ inflight s' = request_id r))).
Proof.
  unfold accept, inSequence. destruct (negb (lastID s =? 0) && _) eqn:E.
  { intros [= <- <-]. left. done. }
  intros H. right.
  assert (Hid : lastID s <> 0 -> request_id r = wrapu 64 (lastID s + 1))
    by (intros Hne; bsimp; destruct E as [E|E]; bsimp; [done|by bsimp]).
  unfold begin_request in H. cbn [inflight earlyID earlyAt lastID closed] in H.
  destruct (inflight s =? 0) eqn:Ei; cbn [negb] in H; injection H as <- <-; cbn; bsimp.
  - split_and!; [done|done|]. right. by eexists.
  - split_and!; [done|done|]. left. by split_and!.
Qed.

(** One frame keeps the chain of ids and the in-flight slot. *)
Lemma on_frame_spec now typ payload s a s' :
  on_frame now typ payload s = (a, s') ->
  (accepted a = [] /\ inflight s' = inflight s /\ (lastID s' = lastID s)) \/
  (exists r, accepted a = [request_id r] /\ request_id r <> 0 /\ lastID s' = request_id r /\
     (lastID s <> 0 -> request_id r = wrapu 64 (lastID s + 1)) /\
     ((a = Busy r /\ inflight s <> 0 /\ inflight s' = inflight s) \/
      (exists c, a = Start r c /\ inflight s = 0 /\ inflight s' = request_id r))).
Proof.
  assert (Hacc : forall r, request_id r <> 0 -> accept now r s = (a, s') ->
    (accepted a = [] /\ inflight s' = inflight s /\ (lastID s' = lastID s)) \/
    (exists r, accepted a = [request_id r] /\ request_id r <> 0 /\ lastID s' = request_id r /\
     (lastID s <> 0 -> request_id r = wrapu 64 (lastID s + 1)) /\
     ((a = Busy r /\ inflight s <> 0 /\ inflight s' = inflight s) \/
      (exists c, a = Start r c /\ inflight s = 0 /\ inflight s' = request_id r)))).
  { intros r Hr H. destruct (accept_spec _ _ _ _ _ H) as [[-> _]|(H1 & H2 & H3)].
    - left. unfold accept in H. destruct (inSequence _ s); [destruct (begin_request _ _ _) as [[]|]; done|].
      by injection H as <-.
    - right. exists r. destruct H3 as [(-> & ? & ?)|(c & -> & ? & ?)]; split_and!; try done;
        [by left|right; by exists c]. }
  unfold on_frame. intros H.
  destruct (typ =?b MonitorFramePing); [destruct (zlen payload =? 0); injection H as <- <-; by left|].
  destruct (typ =?b MonitorFrameAuthorize).
  { destruct (DecodeMonitorAuth payload) as [r|] eqn:Ed; [|injection H as <- <-; by left].
    apply (Hacc (ReqAuth r)); [|done]. by apply (decode_auth_id payload). }
  destruct (typ =?b MonitorFrameRun).
  { destruct (DecodeMonitorRun payload) as [r|] eqn:Ed; [|injection H as <- <-; by left].
    apply (Hacc (ReqRun r)); [|done]. by apply (decode_run_id payload). }
  destruct (typ =?b MonitorFrameCancel); [|injection H as <- <-; by left].
  destruct (DecodeMonitorCancel payload) as [id|]; injection H as <- <-; [|by left].
  left. unfold cancelID. destruct (_ && _); [done|]. by destruct (_ && _).
Qed.

(** The request ids a monitor connection accepts, started or answered busy,
    are non-zero and each is its predecessor plus one modulo 2^64, over any
    sequence of frames and finished requests. *)
Theorem serve_ids_linked evs s :
  linked (lastID s) (concat (map accepted (fst (serve evs s)))).
Proof.
  revert s. induction evs as [|ev evs IH]; intros s; cbn [serve]; [done|].
  destruct (step ev s) as [a s1] eqn:Es. specialize (IH s1).
  destruct (serve evs s1) as [acts s2]. cbn [fst] in *.
  unfold step in Es. destruct (closed s); [injection Es as <- <-; exact IH|].
  destruct ev as [now typ payload|id].
  - destruct (on_frame now typ payload s) as [x s'] eqn:Ef. injection Es as <- <-.
    destruct (on_frame_spec _ _ _ _ _ _ Ef) as [(E1 & _ & E2)|(r & E1 & E2 & E3 & E4 & _)];
      cbn [app map concat]; rewrite E1.
    + by rewrite <- E2.
    + cbn [app linked]. split; [exact E4|split; [exact E2|]]. by rewrite <- E3.
  - injection Es as <- <-. cbn [app]. unfold end_request in IH. by destruct (inflight s =? id).
Qed.

Definition is_start (a : action) : bool := match a with Start _ _ => true | _ => false end.
Definition finishes (id : Z) (ev : event) : bool :=
  match ev with Finished i => i =? id | _ => false end.

(** While a request is in flight and has not finished, no frame starts another
    one and the slot keeps its id. *)
Theorem serve_one_in_flight evs s :
  inflight s <> 0 -> existsb (finishes (inflight s)) evs = false ->
  existsb is_start (fst (serve evs s)) = false /\ inflight (snd (serve evs s)) = inflight s.
Proof.
  revert s. induction evs as [|ev evs IH]; intros s Hne Hf; cbn [serve]; [done|].
  cbn [existsb] in Hf. apply orb_false_iff in Hf as [Hev Hf].
  assert (Hstep : existsb is_start (fst (step ev s)) = false /\ inflight (snd (step ev s)) = inflight s).
  { unfold step. destruct (closed s); [done|]. destruct ev as [now typ payload|id].
    - destruct (on_frame now typ payload s) as [x s'] eqn:Ef. cbn.
      destruct (on_frame_spec _ _ _ _ _ _ Ef) as [(E1 & E2 & _)|(r & E1 & _ & _ & _ & [(-> & _ & E)|(c & -> & E & _)])];
        [|done|done]. split; [|done]. destruct x; done.
    - cbn in Hev |- *. unfold end_request. bsimp. by rewrite (proj2 (Z.eqb_neq _ _)) by done. }
  destruct (step ev s) as [a s1]. cbn [fst snd] in Hstep. destruct Hstep as [Ha Hs].
  destruct (IH s1) as [IH1 IH2]; [by rewrite Hs|by rewrite Hs|].
  destruct (serve evs s1) as [acts s2]. cbn [fst snd] in *. rewrite existsb_app, Ha.
  split; [done|congruence].
Qed.

(** A Cancel for the next request id that arrives up to two seconds before the
    run starts that run with its context canceled, and a run so started
    answers exit 1 without a gate call or any output. *)
Theorem early_cancel_denies s id t0 t1 cpay rpay r :
  closed s = false -> inflight s = 0 -> lastID s <> 0 -> id = wrapu 64 (lastID s + 1) ->
  DecodeMonitorCancel cpay = Ok id -> DecodeMonitorRun rpay = Ok r -> run_id r = id ->
  t0 <= t1 <= t0 + earlyCancelWindow ->
  fst (serve [Frame t0 MonitorFrameCancel cpay; Frame t1 MonitorFrameRun rpay] s)
    = [Quiet; Start (ReqRun r) true] /\
  (forall l, exists e, runVBin l true r = ([], mkExit id (MonitorRunDigest (run_args r) (run_mode r) (run_stdin r)) 1 e)).
Proof.
  intros Hc Hi Hl Hid Hdc Hdr Hr Ht. pose proof (decode_run_id _ _ Hdr) as Hne.
  split; [|intros l; eexists; unfold runVBin; by rewrite <- Hr].
  cbn [serve]. unfold step at 1. rewrite Hc. unfold on_frame at 1.
  change (MonitorFrameCancel =?b MonitorFramePing) with false.
  change (MonitorFrameCancel =?b MonitorFrameAuthorize) with false.
  change (MonitorFrameCancel =?b MonitorFrameRun) with false.
  change (MonitorFrameCancel =?b MonitorFrameCancel) with true. cbv iota. rewrite Hdc.
  unfold cancelID. rewrite Hi, (proj2 (Z.eqb_neq (lastID s) 0)) by done. rewrite andb_false_r.
  rewrite <- Hid, Z.eqb_refl. cbn [negb andb].
  unfold step. cbn [closed]. rewrite Hc. unfold on_frame.
  change (MonitorFrameRun =?b MonitorFramePing) with false.
  change (MonitorFrameRun =?b MonitorFrameAuthorize) with false.
  change (MonitorFrameRun =?b MonitorFrameRun) with true. cbv iota. rewrite Hdr.
  unfold accept, inSequence. cbn [lastID request_id]. rewrite Hr, <- Hid, Z.eqb_refl, andb_false_r.
  unfold begin_request. cbn [inflight earlyID earlyAt]. rewrite Z.eqb_refl. cbn [negb andb].
  rewrite (proj2 (Z.eqb_neq id 0)) by congruence. cbn [negb andb].
  rewrite (proj2 (Z.leb_le _ _)) by lia. rewrite Z.eqb_refl. reflexivity.
Qed.


End server_theorems.

(** ** The output of a run reaches the client whole *)

(** Bytes with the stream they were written to. *)
Definition tag (stream : Z) (p : bytes) : list (Z * byte) := map (pair stream) p.
Definition tagged (writes : list (Z * bytes)) : list (Z * byte) :=
  concat (map (fun w => tag (fst w) (snd w)) writes).
Definition out_write (o : MonitorOut) : Z * bytes := (out_stream o, out_data o).
Definition tagged_outs (os : list MonitorOut) : list (Z * byte) := tagged (map out_write os).

(** Frames of one run: consecutive sequence numbers after [seq], chunks of a
    legal size. *)
Fixpoint frames_ok (id seq : Z) (os : list MonitorOut) : Prop :=
  match os with
  | [] => True
  | o :: os' =>
      out_id o = id /\ out_seq o = seq + 1 /\ 0 < zlen (out_data o) <= MaxMonitorOutChunk /\
      frames_ok id (seq + 1) os'
  end.

Lemma frames_ok_app id seq os1 os2 :
  frames_ok id seq os1 -> frames_ok id (seq + zlen os1) os2 -> frames_ok id seq (os1 ++ os2).
Proof.
  revert seq. induction os1 as [|o os1 IH]; intros seq H1 H2; cbn [app frames_ok] in *.
  - rewrite zlen_nil, Z.add_0_r in H2. exact H2.
  - destruct H1 as (? & ? & ? & H1). split_and!; try done; try lia. apply IH; [done|].
    rewrite zlen_cons in H2. by replace (seq + 1 + zlen os1) with (seq + (1 + zlen os1)) by lia.
Qed.

Lemma zlen_tag stream p : zlen (tag stream p) = zlen p.
Proof. unfold zlen, tag. by rewrite length_map. Qed.

Lemma tagged_app a b : tagged (a ++ b) = tagged a ++ tagged b.
Proof. unfold tagged. by rewrite map_app, concat_app. Qed.

Lemma tagged_outs_app a b : tagged_outs (a ++ b) = tagged_outs a ++ tagged_outs b.
Proof. unfold tagged_outs. by rewrite map_app, tagged_app. Qed.

(** The state of the writer: its sequence number never passes its byte count,
    so it does not wrap. *)
Definition writer_ok (w : outWriter) : Prop :=
  ow_broken w = false /\ 0 <= ow_seq w <= ow_total w /\ 0 <= ow_total w <= MaxMonitorRunOutput.

Lemma send_ok id stream data w :
  writer_ok w -> ow_send id stream data true w =
    ([mkOut id (ow_seq w + 1) stream data],
     mkOW (ow_seq w + 1) (ow_total w) (ow_truncated w) false).
Proof.
  intros (Hb & Hs & Ht). change MaxMonitorRunOutput with 1048576 in Ht.
  unfold ow_send, wrapu. cbn. rewrite Hb. cbn [orb negb].
  rewrite Z.mod_small by (change (2 ^ 64) with 18446744073709551616; lia). done.
Qed.

Lemma emit_spec fuel id stream p w :
  (length p < fuel)%nat -> writer_ok w ->
  let '(os, w') := emit fuel id stream p (fun _ => true) w in
  let n := Z.min (zlen p) (MaxMonitorRunOutput - ow_total w) in
  writer_ok w' /\ tagged_outs os = take (Z.to_nat n) (tag stream p) /\
  ow_total w' = ow_total w + n /\ ow_seq w' = ow_seq w + zlen os /\
  ow_truncated w' = ow_truncated w || (MaxMonitorRunOutput <? ow_total w + zlen p) /\
  frames_ok id (ow_seq w) os /\ Forall (fun o => out_stream o = stream) os.
Proof.
  revert p w. induction fuel as [|fuel IH]; intros p w Hf Hw; [lia|]. cbn [emit].
  pose proof Hw as (Hb & Hs & Ht). rewrite Hb, orb_false_r.
  destruct (zlen p =? 0) eqn:E0; bsimp.
  { apply zlen_zero in E0 as ->. rewrite zlen_nil. cbn [zlen length].
    rewrite Z.min_l by lia. rewrite !Z.add_0_r, (proj2 (Z.ltb_ge _ _)) by lia.
    rewrite orb_false_r. split_and!; try done; lia. }
  pose proof (zlen_nonneg p).
  destruct (MaxMonitorRunOutput - ow_total w <=? 0) eqn:Er; bsimp.
  { rewrite Z.min_r by lia. replace (MaxMonitorRunOutput - ow_total w) with 0 by lia.
    cbn [ow_total ow_seq ow_truncated]. rewrite !Z.add_0_r, (proj2 (Z.ltb_lt _ _)) by lia.
    rewrite orb_true_r. split_and!; try done. }
  rewrite send_ok by done. cbn [ow_total ow_seq ow_truncated ow_broken].
  set (n := Z.min (Z.min (zlen p) MaxMonitorOutChunk) (MaxMonitorRunOutput - ow_total w)).
  assert (Hc : MaxMonitorOutChunk = 32768) by reflexivity.
  assert (Hn : 0 < n <= zlen p /\ n <= MaxMonitorOutChunk /\ n <= MaxMonitorRunOutput - ow_total w)
    by (unfold n; lia).
  set (w2 := mkOW (ow_seq w + 1) (ow_total w + n) (ow_truncated w) false).
  assert (Hw2 : writer_ok w2) by (unfold writer_ok, w2; cbn; split_and!; lia || done).
  assert (Hdrop : zlen (drop (Z.to_nat n) p) = zlen p - n)
    by (unfold zlen in *; rewrite length_drop; lia).
  specialize (IH (drop (Z.to_nat n) p) w2).
  destruct (emit fuel id stream (drop (Z.to_nat n) p) (fun _ => true) w2) as [os w3].
  destruct IH as (I1 & I2 & I3 & I4 & I5 & I6 & I7).
  { rewrite length_drop. unfold zlen in Hn. lia. }
  { exact Hw2. }
  rewrite Hdrop in *. unfold w2 in I2, I3, I4, I5, I6. cbn [ow_total ow_seq ow_truncated] in I2, I3, I4, I5, I6.
  assert (Htake : zlen (take (Z.to_nat n) p) = n) by (unfold zlen in *; rewrite length_take; lia).
  split_and!; try done.
  - cbn [app]. unfold tagged_outs, tagged in *. cbn [map concat out_write fst snd out_stream out_data].
    rewrite I2. unfold tag. rewrite <- !firstn_map, <- skipn_map.
    replace (Z.to_nat (Z.min (zlen p) (MaxMonitorRunOutput - ow_total w)))
      with (Z.to_nat n + Z.to_nat (Z.min (zlen p - n) (MaxMonitorRunOutput - (ow_total w + n))))%nat
      by lia.
    apply take_take_drop.
  - rewrite I3. lia.
  - cbn [app]. rewrite zlen_cons, I4. lia.
  - rewrite I5. do 2 f_equal. lia.
  - cbn [app frames_ok out_id out_seq out_data]. rewrite Htake. split_and!; try done; lia.
  - constructor; done.
Qed.

Lemma zlen_take_z {A} (n : Z) (l : list A) : 0 <= n <= zlen l -> zlen (take (Z.to_nat n) l) = n.
Proof. unfold zlen. rewrite length_take. lia. Qed.

Lemma take_take_app {A} (n m : Z) (a b : list A) :
  n = Z.min (zlen a) m -> 0 <= m ->
  take (Z.to_nat n) a ++ take (Z.to_nat (Z.min (zlen b) (m - n))) b =
  take (Z.to_nat (Z.min (zlen a + zlen b) m)) (a ++ b).
Proof.
  intros -> Hm. pose proof (zlen_nonneg a). pose proof (zlen_nonneg b).
  destruct (decide (zlen a <= m)).
  - rewrite Z.min_l by lia. rewrite (take_ge a) by (unfold zlen; lia).
    rewrite take_app_ge by (unfold zlen in *; lia). f_equal. f_equal. unfold zlen in *. lia.
  - rewrite Z.min_r by lia. replace (m - m) with 0 by lia. rewrite (Z.min_r (zlen b)) by lia.
    rewrite take_0, app_nil_r, Z.min_r by lia. rewrite take_app_le by (unfold zlen in *; lia). done.
Qed.

Lemma emit_all_spec id writes w :
  writer_ok w ->
  let '(os, w') := emit_all id writes w in
  let n := Z.min (zlen (tagged writes)) (MaxMonitorRunOutput - ow_total w) in
  writer_ok w' /\ tagged_outs os = take (Z.to_nat n) (tagged writes) /\
  ow_total w' = ow_total w + n /\ ow_seq w' = ow_seq w + zlen os /\
  ow_truncated w' = ow_truncated w || (MaxMonitorRunOutput <? ow_total w + zlen (tagged writes)) /\
  frames_ok id (ow_seq w) os /\ Forall (fun o => In (out_stream o) (map fst writes)) os.
Proof.
  revert w. induction writes as [|[stream p] writes IH]; intros w Hw; cbn [emit_all].
  - pose proof Hw as (_ & _ & Ht). cbn [tagged map concat]. rewrite zlen_nil, Z.min_l by lia.
    rewrite !Z.add_0_r, (proj2 (Z.ltb_ge _ _)), orb_false_r by lia. done.
  - pose proof (emit_spec (S (length p)) id stream p w ltac:(lia) Hw) as He.
    destruct (emit _ _ _ _ _ _) as [o w1].
    destruct He as (E1 & E2 & E3 & E4 & E5 & E6 & E7). specialize (IH w1 E1).
    destruct (emit_all id writes w1) as [os w2].
    destruct IH as (I1 & I2 & I3 & I4 & I5 & I6 & I7).
    pose proof Hw as (_ & _ & Ht).
    assert (Hcons : tagged ((stream, p) :: writes) = tag stream p ++ tagged writes) by done.
    rewrite Hcons, zlen_app, zlen_tag. pose proof (zlen_nonneg p). pose proof (zlen_nonneg (tagged writes)).
    split_and!; try done.
    + rewrite tagged_outs_app, E2, I2, E3.
      rewrite <- (zlen_tag stream p) at 1 2.
      replace (MaxMonitorRunOutput - (ow_total w + Z.min (zlen (tag stream p)) (MaxMonitorRunOutput - ow_total w)))
        with ((MaxMonitorRunOutput - ow_total w) - Z.min (zlen (tag stream p)) (MaxMonitorRunOutput - ow_total w)) by lia.
      rewrite take_take_app by (done || lia). by rewrite zlen_tag.
    + rewrite I3, E3. lia.
    + rewrite I4, E4, zlen_app. lia.
    + rewrite I5, E5, E3, <- orb_assoc. f_equal.
      destruct (MaxMonitorRunOutput <? ow_total w + zlen p) eqn:Ea; bsimp; cbn [orb].
      * symmetry. apply Z.ltb_lt. lia.
      * f_equal. lia.
    + apply frames_ok_app; [done|]. by rewrite <- E4.
    + apply Forall_app. split.
      * eapply Forall_impl; [exact E7|]. cbn. intros x ->. by left.
      * eapply Forall_impl; [exact I7|]. cbn. intros x Hx. by right.
Qed.

Lemma run_output_facts id writes :
  tagged_outs (run_output id writes) =
    take (Z.to_nat MaxMonitorRunOutput) (tagged writes) ++
    (if MaxMonitorRunOutput <? zlen (tagged writes)
     then tag MonitorStreamStderr MonitorRunTruncated else []) /\
  frames_ok id 0 (run_output id writes).
Proof.
  unfold run_output.
  assert (Hw : writer_ok newOutWriter) by (split_and!; vm_compute; congruence).
  pose proof (emit_all_spec id writes newOutWriter Hw) as H.
  destruct (emit_all id writes newOutWriter) as [os w].
  destruct H as (H1 & H2 & H3 & H4 & H5 & H6 & _). cbn [ow_total ow_seq ow_truncated newOutWriter] in *.
  assert (Ht : take (Z.to_nat (Z.min (zlen (tagged writes)) (MaxMonitorRunOutput - 0))) (tagged writes)
             = take (Z.to_nat MaxMonitorRunOutput) (tagged writes)).
  { rewrite Z.sub_0_r. destruct (decide (zlen (tagged writes) <= MaxMonitorRunOutput)).
    - rewrite Z.min_l by done. rewrite !take_ge by (unfold zlen in *; lia). done.
    - by rewrite Z.min_r by lia. }
  rewrite Ht in H2. unfold finish. rewrite H5. cbn [orb]. rewrite Z.add_0_l.
  destruct H1 as (Hb & Hseq & Htot). rewrite Hb. cbn [negb]. rewrite andb_true_r.
  destruct (MaxMonitorRunOutput <? zlen (tagged writes)).
  - rewrite send_ok by done. cbn [fst]. rewrite tagged_outs_app, H2. split.
    + reflexivity.
    + apply frames_ok_app; [done|]. cbn [frames_ok out_id out_seq out_data].
      rewrite H4, Z.add_0_l. split_and!; try done; vm_compute; congruence.
  - cbn [fst]. rewrite !app_nil_r. done.
Qed.

Lemma run_output_streams id writes :
  Forall (fun o => In (out_stream o) (MonitorStreamStderr :: map fst writes)) (run_output id writes).
Proof.
  unfold run_output.
  assert (Hw : writer_ok newOutWriter) by (split_and!; vm_compute; congruence).
  pose proof (emit_all_spec id writes newOutWriter Hw) as H.
  destruct (emit_all id writes newOutWriter) as [os w].
  destruct H as (_ & _ & _ & _ & _ & _ & H7). apply Forall_app. split.
  - eapply Forall_impl; [exact H7|]. cbn. tauto.
  - unfold finish. destruct (_ && _); [|constructor]. cbn. repeat constructor.
Qed.

Definition out_bytes (os : list MonitorOut) : Z := zlen (tagged_outs os).

Lemma out_bytes_cons o os : out_bytes (o :: os) = zlen (out_data o) + out_bytes os.
Proof.
  unfold out_bytes, tagged_outs, tagged. cbn [map concat out_write fst snd].
  by rewrite zlen_app, zlen_tag.
Qed.

Section client_side.
Context {Sh : Sha256} {Co : MonitorCodec}
  (marshal_out : MonitorOut -> bytes) (marshal_exit : MonitorExit -> bytes).

Definition out_decodes (o : MonitorOut) : Prop :=
  strict_out (marshal_out o) = Some o /\ zlen (marshal_out o) <= MaxMonitorFrame.
Definition exit_decodes (x : MonitorExit) : Prop :=
  strict_exit (marshal_exit x) = Some x /\ zlen (marshal_exit x) <= MaxMonitorFrame.

(** The bytes the listener writes for a run. *)
Definition run_stream (os : list MonitorOut) (x : MonitorExit) : bytes :=
  concat (map (fun o => frame_bytes MonitorFrameOut (marshal_out o)) os) ++
  frame_bytes MonitorFrameExit (marshal_exit x).

Lemma client_read_frame p typ payload rest :
  zlen payload <= MaxMonitorFrame ->
  client_read p (frame_bytes typ payload ++ rest) = Ok (typ, payload, rest).
Proof.
  intros H. unfold client_read.
  assert (E : ReadMonitorFrame (frame_bytes typ payload ++ rest) (stream_end p) = Ok (typ, payload, rest))
    by (by apply monitor_frame_read). by rewrite E.
Qed.

Lemma run_loop_frames p rest os : forall fuel id digest seq total x c,
  (length os < fuel)%nat ->
  frames_ok id seq os -> 0 <= seq <= total ->
  Forall out_decodes os ->
  Forall (fun o => out_stream o = MonitorStreamStdout \/ out_stream o = MonitorStreamStderr) os ->
  total + out_bytes os <= MaxMonitorRunOutput + zlen MonitorRunTruncated ->
  exit_decodes x -> exit_id x = id -> exit_digest x = digest -> 0 <= exit_code x <= 255 ->
  run_loop fuel id digest seq total p (run_stream os x ++ rest) c =
  (map out_write os, (exit_code x, if is_empty_msg (exit_error x) then None else Some (Remote (exit_error x))), c).
Proof.
  induction os as [|o os IH]; intros fuel id digest seq total x c Hf Hok Hseq Hd Hs Hb [Hx1 Hx2] Hid Hdig Hcode;
    (destruct fuel as [|fuel]; [lia|]); unfold run_stream; cbn [map concat app run_loop].
  - rewrite client_read_frame by done.
    change (MonitorFrameExit =?b MonitorFrameOut) with false.
    change (MonitorFrameExit =?b MonitorFrameExit) with true. cbv iota.
    unfold decodeMonitorExit. rewrite Hx1, (proj2 (Z.ltb_ge (exit_code x) 0)), (proj2 (Z.ltb_ge 255 _)) by lia.
    cbn [orb]. rewrite Hid, Z.eqb_refl, Hdig, bool_decide_true by done. done.
  - inversion Hd as [|? ? [Ho1 Ho2] Hd']; subst. inversion Hs as [|? ? Hst Hs']; subst.
    destruct Hok as (Hoid & Hoseq & Hosz & Hok).
    rewrite <- !app_assoc, client_read_frame by done.
    change (MonitorFrameOut =?b MonitorFrameOut) with true. cbv iota.
    unfold decodeMonitorOut. rewrite Ho1.
    assert (negb (out_stream o =? MonitorStreamStdout) && negb (out_stream o =? MonitorStreamStderr) = false) as ->
      by (destruct Hst as [-> | ->]; done).
    rewrite (proj2 (Z.eqb_neq (zlen (out_data o)) 0)), (proj2 (Z.ltb_ge MaxMonitorOutChunk _)) by lia.
    cbn [orb]. rewrite out_bytes_cons in Hb.
    assert (Hnn : 0 <= out_bytes os) by apply zlen_nonneg.
    assert (Hm : MaxMonitorRunOutput + zlen MonitorRunTruncated = 1048610) by reflexivity.
    assert (wrapu 64 (seq + 1) = seq + 1) as ->
      by (unfold wrapu; apply Z.mod_small; change (2 ^ 64) with 18446744073709551616; lia).
    rewrite Hoid, Hoseq, !Z.eqb_refl, (proj2 (Z.ltb_ge _ (total + zlen (out_data o)))) by lia.
    cbn [negb orb]. unfold run_stream in IH.
    cbn [length] in Hf. rewrite app_assoc.
    rewrite (IH fuel (exit_id x) (exit_digest x) (seq + 1) (total + zlen (out_data o)) x c).
    all: try done. all: try lia.
Qed.

(** C11: The client that reads the frames of a run gets the exit code and
    error of that run and exactly its output in order, per byte and stream, up
    to 1 MiB, followed by the truncation marker on stderr when there was more.
    *)
Theorem client_receives_run p rest id digest writes x c :
  Forall (fun w => fst w = MonitorStreamStdout \/ fst w = MonitorStreamStderr) writes ->
  Forall out_decodes (run_output id writes) -> exit_decodes x ->
  exit_id x = id -> exit_digest x = digest -> 0 <= exit_code x <= 255 ->
  exists received,
    run_loop (S (length (run_output id writes))) id digest 0 0 p
      (run_stream (run_output id writes) x ++ rest) c =
    (received, (exit_code x, if is_empty_msg (exit_error x) then None else Some (Remote (exit_error x))), c) /\
    tagged received = take (Z.to_nat MaxMonitorRunOutput) (tagged writes) ++
      (if MaxMonitorRunOutput <? zlen (tagged writes)
       then tag MonitorStreamStderr MonitorRunTruncated else []).
Proof.
  intros Hw Hd Hx Hid Hdig Hcode. destruct (run_output_facts id writes) as [Ht Hf].
  exists (map out_write (run_output id writes)). split; [|exact Ht].
  apply run_loop_frames; try done; [lia| |].
  - eapply Forall_impl; [exact (run_output_streams id writes)|]. cbn. intros o [Ho|Ho]; [by right|].
    apply in_map_iff in Ho as (w & <- & Hin). rewrite Forall_forall in Hw.
    apply Hw. by apply list_elem_of_In.
  - rewrite Z.add_0_l. unfold out_bytes. rewrite Ht, zlen_app.
    assert (zlen (take (Z.to_nat MaxMonitorRunOutput) (tagged writes)) <= MaxMonitorRunOutput)
      by (unfold zlen; rewrite length_take; assert (0 <= MaxMonitorRunOutput) by done; lia).
    assert (zlen MonitorRunTruncated = 34) by reflexivity.
    destruct (_ <? _); [rewrite zlen_tag|rewrite zlen_nil]; lia.
Qed.

End client_side.

(** ** Concrete requests *)

Definition demoSid : bytes := lit "s1".

Lemma evidence_run_scoped_witness : exists f,
  evidence_flags [lit "--since"; lit "2026"; lit "--session"; demoSid] no_filter = Some f /\
  ev_session f = demoSid /\ ev_out f = [].
Proof.
  eexists. split; [vm_compute; reflexivity|].
  apply (evidence_run_scoped demoSid [lit "--since"; lit "2026"]
    [lit "evidence"; lit "--since"; lit "2026"; lit "--session"; demoSid]);
    vm_compute; reflexivity.
Defined.

Lemma listener_run_allowed_witness :
  run_allowed demoSid [lit "mirror"; lit "kill"; demoSid].
Proof.
  apply (listener_run_allowed demoSid [lit "mirror"; lit "kill"; demoSid]).
  vm_compute. reflexivity.
Defined.

(** A codec that knows one run, one Cancel, and the frames of [demoOut]. *)
Definition demoRun : MonitorRunRequest := mkRunReq 9 [lit "cm"; lit "status"] (lit "none") [].
Definition demoOut : MonitorOut := mkOut 9 1 MonitorStreamStdout (lit "no ticket").
Definition demoExit : MonitorExit := mkExit 9 (lit "d") 0 [].

Definition runCodec : MonitorCodec :=
  {| strict_auth := fun _ => None; strict_resp := fun _ => None;
     strict_run := fun _ => Some demoRun;
     strict_out := fun s => if bool_decide (s = lit "out") then Some demoOut else None;
     strict_exit := fun s => if bool_decide (s = lit "exit") then Some demoExit else None;
     strict_cancel := fun _ => Some 9; marshal_run := fun _ => [] |}.

Definition demoServer (id : Z) : server := mkServer 8 id false 0 0 false.

Lemma serve_one_in_flight_witness :
  existsb is_start (fst (serve (Co := runCodec)
    [Frame 0 MonitorFrameRun []; Finished 5; Frame 1 MonitorFramePing []] (demoServer 8))) = false.
Proof.
  apply (serve_one_in_flight (Co := runCodec)
    [Frame 0 MonitorFrameRun []; Finished 5; Frame 1 MonitorFramePing []] (demoServer 8));
    vm_compute; congruence.
Defined.

Lemma early_cancel_denies_witness :
  fst (serve (Co := runCodec) [Frame 5 MonitorFrameCancel []; Frame 6 MonitorFrameRun []] (demoServer 0))
  = [Quiet; Start (ReqRun demoRun) true].
Proof.
  apply (early_cancel_denies (Sh := demoSha) (Co := runCodec) (demoServer 0) 9 5 6 [] [] demoRun);
    try reflexivity; [vm_compute; congruence|unfold earlyCancelWindow; lia].
Defined.

Lemma client_receives_run_witness :
  exists received,
    run_loop (Co := runCodec) 2 9 (lit "d") 0 0 (mkPeer (WriteTook 0) [] CleanEnd)
      (run_stream (fun _ => lit "out") (fun _ => lit "exit")
         (run_output 9 [(MonitorStreamStdout, lit "no ticket")]) demoExit ++ lit "next")
      (mkClient 10 false) = (received, (0, None), mkClient 10 false) /\
    tagged received = tag MonitorStreamStdout (lit "no ticket").
Proof.
  destruct (client_receives_run (Co := runCodec) (fun _ => lit "out") (fun _ => lit "exit")
    (mkPeer (WriteTook 0) [] CleanEnd) (lit "next") 9 (lit "d")
    [(MonitorStreamStdout, lit "no ticket")] demoExit (mkClient 10 false))
    as (received & H1 & H2).
  - repeat constructor.
  - vm_compute. repeat constructor; congruence.
  - vm_compute. split; [reflexivity|congruence].
  - reflexivity.
  - reflexivity.
  - vm_compute. split; congruence.
  - exists received. split; [exact H1|]. rewrite H2. vm_compute. reflexivity.
Defined.
