(* ===== verification/Session.v ===== *)
(** * Sessions

    internal/sys/session.go and the configuration half of internal/sys/host.go:
    the session object and its operations, the environment overlay, the
    process-wide session table with its cap and its unregister hooks.

    A [time.Time] is a number of nanoseconds and 0 is the zero time.  The
    session table maps an id to the state of the session object registered
    under it; an operation on the object is an update of that entry.  Starting
    a recording is a parameter of [RegisterSession]. *)

From S2P Require Import Prelude GoBytes.
From stdpp Require Import sorting.
#[local] Open Scope Z_scope.

(** ** The session object *)

(** An [io.Writer] is known by a number, since only its identity matters. *)
Record Elevation := mkElevation { el_Role : bytes; el_Reason : bytes; el_ExpiresAt : Z }.

Record ManagedAgent := mkAgent
  { ag_ID : bytes; ag_FlightID : bytes; ag_Worktree : bytes; ag_Allow : list bytes; ag_ExpiresAt : Z }.

Record Session := mkSession {
  s_ID : bytes;
  s_User : bytes;
  s_Principals : list bytes;
  s_CreatedAt : Z;
  s_Recording : bytes;
  s_Out : option (list Z);
  s_lastActive : Z;
  s_currentCommand : bytes;
  s_terminated : bool;
  s_ctx : option bool;
  s_hasPTY : bool;
  s_ptyClosed : bool;
  s_recorder : option Z;
  s_elevation : option Elevation;
  s_oidcProvider : bytes;
  s_eligibleRoles : list bytes;
  s_agentBinding : option ManagedAgent;
  s_envOverlay : gmap bytes bytes;
  s_dropPrivileges : bool;
  s_prompt : option Z;
  s_identitySource : bytes;
  s_controller : bytes
}.

Definition set_User (v : bytes) (s : Session) : Session :=
  mkSession (s_ID s) v (s_Principals s) (s_CreatedAt s) (s_Recording s) (s_Out s)
    (s_lastActive s) (s_currentCommand s) (s_terminated s) (s_ctx s) (s_hasPTY s)
    (s_ptyClosed s) (s_recorder s) (s_elevation s) (s_oidcProvider s)
    (s_eligibleRoles s) (s_agentBinding s) (s_envOverlay s) (s_dropPrivileges s)
    (s_prompt s) (s_identitySource s) (s_controller s).
Definition set_Principals (v : list bytes) (s : Session) : Session :=
  mkSession (s_ID s) (s_User s) v (s_CreatedAt s) (s_Recording s) (s_Out s)
    (s_lastActive s) (s_currentCommand s) (s_terminated s) (s_ctx s) (s_hasPTY s)
    (s_ptyClosed s) (s_recorder s) (s_elevation s) (s_oidcProvider s)
    (s_eligibleRoles s) (s_agentBinding s) (s_envOverlay s) (s_dropPrivileges s)
    (s_prompt s) (s_identitySource s) (s_controller s).
Definition set_CreatedAt (v : Z) (s : Session) : Session :=
  mkSession (s_ID s) (s_User s) (s_Principals s) v (s_Recording s) (s_Out s)
    (s_lastActive s) (s_currentCommand s) (s_terminated s) (s_ctx s) (s_hasPTY s)
    (s_ptyClosed s) (s_recorder s) (s_elevation s) (s_oidcProvider s)
    (s_eligibleRoles s) (s_agentBinding s) (s_envOverlay s) (s_dropPrivileges s)
    (s_prompt s) (s_identitySource s) (s_controller s).
Definition set_Recording (v : bytes) (s : Session) : Session :=
  mkSession (s_ID s) (s_User s) (s_Principals s) (s_CreatedAt s) v (s_Out s)
    (s_lastActive s) (s_currentCommand s) (s_terminated s) (s_ctx s) (s_hasPTY s)
    (s_ptyClosed s) (s_recorder s) (s_elevation s) (s_oidcProvider s)
    (s_eligibleRoles s) (s_agentBinding s) (s_envOverlay s) (s_dropPrivileges s)
    (s_prompt s) (s_identitySource s) (s_controller s).
Definition set_Out (v : option (list Z)) (s : Session) : Session :=
  mkSession (s_ID s) (s_User s) (s_Principals s) (s_CreatedAt s) (s_Recording s) v
    (s_lastActive s) (s_currentCommand s) (s_terminated s) (s_ctx s) (s_hasPTY s)
    (s_ptyClosed s) (s_recorder s) (s_elevation s) (s_oidcProvider s)
    (s_eligibleRoles s) (s_agentBinding s) (s_envOverlay s) (s_dropPrivileges s)
    (s_prompt s) (s_identitySource s) (s_controller s).
Definition set_lastActive (v : Z) (s : Session) : Session :=
  mkSession (s_ID s) (s_User s) (s_Principals s) (s_CreatedAt s) (s_Recording s)
    (s_Out s) v (s_currentCommand s) (s_terminated s) (s_ctx s) (s_hasPTY s)
    (s_ptyClosed s) (s_recorder s) (s_elevation s) (s_oidcProvider s)
    (s_eligibleRoles s) (s_agentBinding s) (s_envOverlay s) (s_dropPrivileges s)
    (s_prompt s) (s_identitySource s) (s_controller s).
Definition set_currentCommand (v : bytes) (s : Session) : Session :=
  mkSession (s_ID s) (s_User s) (s_Principals s) (s_CreatedAt s) (s_Recording s)
    (s_Out s) (s_lastActive s) v (s_terminated s) (s_ctx s) (s_hasPTY s)
    (s_ptyClosed s) (s_recorder s) (s_elevation s) (s_oidcProvider s)
    (s_eligibleRoles s) (s_agentBinding s) (s_envOverlay s) (s_dropPrivileges s)
    (s_prompt s) (s_identitySource s) (s_controller s).
Definition set_terminated (v : bool) (s : Session) : Session :=
  mkSession (s_ID s) (s_User s) (s_Principals s) (s_CreatedAt s) (s_Recording s)
    (s_Out s) (s_lastActive s) (s_currentCommand s) v (s_ctx s) (s_hasPTY s)
    (s_ptyClosed s) (s_recorder s) (s_elevation s) (s_oidcProvider s)
    (s_eligibleRoles s) (s_agentBinding s) (s_envOverlay s) (s_dropPrivileges s)
    (s_prompt s) (s_identitySource s) (s_controller s).
Definition set_ctx (v : option bool) (s : Session) : Session :=
  mkSession (s_ID s) (s_User s) (s_Principals s) (s_CreatedAt s) (s_Recording s)
    (s_Out s) (s_lastActive s) (s_currentCommand s) (s_terminated s) v (s_hasPTY s)
    (s_ptyClosed s) (s_recorder s) (s_elevation s) (s_oidcProvider s)
    (s_eligibleRoles s) (s_agentBinding s) (s_envOverlay s) (s_dropPrivileges s)
    (s_prompt s) (s_identitySource s) (s_controller s).
Definition set_ptyClosed (v : bool) (s : Session) : Session :=
  mkSession (s_ID s) (s_User s) (s_Principals s) (s_CreatedAt s) (s_Recording s)
    (s_Out s) (s_lastActive s) (s_currentCommand s) (s_terminated s) (s_ctx s)
    (s_hasPTY s) v (s_recorder s) (s_elevation s) (s_oidcProvider s)
    (s_eligibleRoles s) (s_agentBinding s) (s_envOverlay s) (s_dropPrivileges s)
    (s_prompt s) (s_identitySource s) (s_controller s).
Definition set_recorder (v : option Z) (s : Session) : Session :=
  mkSession (s_ID s) (s_User s) (s_Principals s) (s_CreatedAt s) (s_Recording s)
    (s_Out s) (s_lastActive s) (s_currentCommand s) (s_terminated s) (s_ctx s)
    (s_hasPTY s) (s_ptyClosed s) v (s_elevation s) (s_oidcProvider s)
    (s_eligibleRoles s) (s_agentBinding s) (s_envOverlay s) (s_dropPrivileges s)
    (s_prompt s) (s_identitySource s) (s_controller s).
Definition set_elevation (v : option Elevation) (s : Session) : Session :=
  mkSession (s_ID s) (s_User s) (s_Principals s) (s_CreatedAt s) (s_Recording s)
    (s_Out s) (s_lastActive s) (s_currentCommand s) (s_terminated s) (s_ctx s)
    (s_hasPTY s) (s_ptyClosed s) (s_recorder s) v (s_oidcProvider s)
    (s_eligibleRoles s) (s_agentBinding s) (s_envOverlay s) (s_dropPrivileges s)
    (s_prompt s) (s_identitySource s) (s_controller s).
Definition set_oidcProvider (v : bytes) (s : Session) : Session :=
  mkSession (s_ID s) (s_User s) (s_Principals s) (s_CreatedAt s) (s_Recording s)
    (s_Out s) (s_lastActive s) (s_currentCommand s) (s_terminated s) (s_ctx s)
    (s_hasPTY s) (s_ptyClosed s) (s_recorder s) (s_elevation s) v
    (s_eligibleRoles s) (s_agentBinding s) (s_envOverlay s) (s_dropPrivileges s)
    (s_prompt s) (s_identitySource s) (s_controller s).
Definition set_eligibleRoles (v : list bytes) (s : Session) : Session :=
  mkSession (s_ID s) (s_User s) (s_Principals s) (s_CreatedAt s) (s_Recording s)
    (s_Out s) (s_lastActive s) (s_currentCommand s) (s_terminated s) (s_ctx s)
    (s_hasPTY s) (s_ptyClosed s) (s_recorder s) (s_elevation s) (s_oidcProvider s) v
    (s_agentBinding s) (s_envOverlay s) (s_dropPrivileges s) (s_prompt s)
    (s_identitySource s) (s_controller s).
Definition set_agentBinding (v : option ManagedAgent) (s : Session) : Session :=
  mkSession (s_ID s) (s_User s) (s_Principals s) (s_CreatedAt s) (s_Recording s)
    (s_Out s) (s_lastActive s) (s_currentCommand s) (s_terminated s) (s_ctx s)
    (s_hasPTY s) (s_ptyClosed s) (s_recorder s) (s_elevation s) (s_oidcProvider s)
    (s_eligibleRoles s) v (s_envOverlay s) (s_dropPrivileges s) (s_prompt s)
    (s_identitySource s) (s_controller s).
Definition set_envOverlay (v : gmap bytes bytes) (s : Session) : Session :=
  mkSession (s_ID s) (s_User s) (s_Principals s) (s_CreatedAt s) (s_Recording s)
    (s_Out s) (s_lastActive s) (s_currentCommand s) (s_terminated s) (s_ctx s)
    (s_hasPTY s) (s_ptyClosed s) (s_recorder s) (s_elevation s) (s_oidcProvider s)
    (s_eligibleRoles s) (s_agentBinding s) v (s_dropPrivileges s) (s_prompt s)
    (s_identitySource s) (s_controller s).
Definition set_dropPrivileges (v : bool) (s : Session) : Session :=
  mkSession (s_ID s) (s_User s) (s_Principals s) (s_CreatedAt s) (s_Recording s)
    (s_Out s) (s_lastActive s) (s_currentCommand s) (s_terminated s) (s_ctx s)
    (s_hasPTY s) (s_ptyClosed s) (s_recorder s) (s_elevation s) (s_oidcProvider s)
    (s_eligibleRoles s) (s_agentBinding s) (s_envOverlay s) v (s_prompt s)
    (s_identitySource s) (s_controller s).
Definition set_prompt (v : option Z) (s : Session) : Session :=
  mkSession (s_ID s) (s_User s) (s_Principals s) (s_CreatedAt s) (s_Recording s)
    (s_Out s) (s_lastActive s) (s_currentCommand s) (s_terminated s) (s_ctx s)
    (s_hasPTY s) (s_ptyClosed s) (s_recorder s) (s_elevation s) (s_oidcProvider s)
    (s_eligibleRoles s) (s_agentBinding s) (s_envOverlay s) (s_dropPrivileges s) v
    (s_identitySource s) (s_controller s).
Definition set_identitySource (v : bytes) (s : Session) : Session :=
  mkSession (s_ID s) (s_User s) (s_Principals s) (s_CreatedAt s) (s_Recording s)
    (s_Out s) (s_lastActive s) (s_currentCommand s) (s_terminated s) (s_ctx s)
    (s_hasPTY s) (s_ptyClosed s) (s_recorder s) (s_elevation s) (s_oidcProvider s)
    (s_eligibleRoles s) (s_agentBinding s) (s_envOverlay s) (s_dropPrivileges s)
    (s_prompt s) v (s_controller s).
Definition set_controller (v : bytes) (s : Session) : Session :=
  mkSession (s_ID s) (s_User s) (s_Principals s) (s_CreatedAt s) (s_Recording s)
    (s_Out s) (s_lastActive s) (s_currentCommand s) (s_terminated s) (s_ctx s)
    (s_hasPTY s) (s_ptyClosed s) (s_recorder s) (s_elevation s) (s_oidcProvider s)
    (s_eligibleRoles s) (s_agentBinding s) (s_envOverlay s) (s_dropPrivileges s)
    (s_prompt s) (s_identitySource s) v.

Definition IdentitySourceAsserted : bytes := lit "asserted".
Definition IdentitySourceDeviceLogin : bytes := lit "device-login".
Definition IdentitySourceOIDCVerified : bytes := lit "oidc-verified".

Definition maxEnvKeyLen : Z := Z.shiftl 4 10.
Definition maxEnvValueLen : Z := Z.shiftl 256 10.
Definition maxEnvOverlayEntries : Z := 1024.
#[global] Arguments maxEnvKeyLen : simpl never.
#[global] Arguments maxEnvValueLen : simpl never.

(** ** Output broadcaster *)

(** [Write]: every writer is offered the bytes, in order. *)
Definition Broadcast (writers : list Z) (p : bytes) : list (Z * bytes) := map (fun w => (w, p)) writers.
Definition AddListener (w : Z) (writers : list Z) : list Z := writers ++ [w].
Fixpoint RemoveListener (w : Z) (writers : list Z) : list Z :=
  match writers with
  | [] => []
  | x :: l => if x =? w then l else x :: RemoveListener w l
  end.

(** ** Operations; [now] is [time.Now()] *)

Definition touch (now : Z) (s : Session) : Session := set_lastActive now s.

(** The installed context, if any: whether it is canceled. *)
Definition CancelCommand (s : Session) : Session :=
  match s_ctx s with Some _ => set_ctx (Some true) s | None => s end.
Definition SetContext (now : Z) (s : Session) : Session := touch now (set_ctx (Some false) s).
Definition SetCurrentCommand (now : Z) (c : bytes) (s : Session) : Session :=
  touch now (set_currentCommand c s).

Definition SetIdentity (now : Z) (user : bytes) (principals : list bytes) (s : Session) : Session :=
  let s := if bool_decide (user = []) then s else set_User user s in
  touch now (set_identitySource IdentitySourceAsserted (set_Principals principals s)).

Definition AddPrincipal (now : Z) (role : bytes) (s : Session) : bool * Session :=
  if bool_decide (role ∈ s_Principals s) then (false, s)
  else (true, touch now (set_Principals (s_Principals s ++ [role]) s)).

Definition RemovePrincipal (now : Z) (role : bytes) (s : Session) : bool * Session :=
  let kept := List.filter (fun p => negb (bool_decide (p = role))) (s_Principals s) in
  if zlen kept =? zlen (s_Principals s) then (false, s)
  else (true, touch now (set_Principals kept s)).

Definition SetIdentitySource (source : bytes) (s : Session) : Session := set_identitySource source s.

Definition ClaimController (name : bytes) (s : Session) : bool * Session :=
  if negb (bool_decide (s_controller s = [])) || bool_decide (name = []) then (false, s)
  else (true, set_controller name s).

Definition ReleaseController (name : bytes) (s : Session) : Session :=
  if bool_decide (s_controller s = name) then set_controller [] s else s.

Definition SetOIDC (now : Z) (provider : bytes) (eligible : list bytes) (s : Session) : Session :=
  touch now (set_eligibleRoles eligible (set_oidcProvider provider s)).

Definition BindManagedAgent (now : Z) (agent : option ManagedAgent) (s : Session) : Session :=
  touch now (set_agentBinding agent s).
Definition ClearManagedAgent (now : Z) (s : Session) : Session := touch now (set_agentBinding None s).

Definition Terminate (now : Z) (s : Session) : Session :=
  let s := CancelCommand (touch now (set_terminated true s)) in
  set_ptyClosed (s_ptyClosed s || s_hasPTY s) s.

Definition ActivateElevation (now : Z) (role reason : bytes) (expires : Z) (s : Session) : Session :=
  touch now (set_elevation (Some (mkElevation role reason expires)) s).

Definition DropElevation (now : Z) (s : Session) : option Elevation * Session :=
  match s_elevation s with
  | None => (None, s)
  | Some e => (Some e, touch now (set_elevation None s))
  end.

(** [activeElevationLocked]: an expired elevation is dropped. *)
Definition ActiveElevation (now : Z) (s : Session) : option Elevation * Session :=
  match s_elevation s with
  | None => (None, s)
  | Some e => if now <? el_ExpiresAt e then (Some e, s) else (None, set_elevation None s)
  end.

Record SessionInfo := mkInfo {
  i_ID : bytes; i_User : bytes; i_Principals : list bytes; i_CreatedAt : Z; i_LastActive : Z;
  i_CurrentCommand : bytes; i_Terminated : bool; i_Recording : bytes;
  i_Elevation : option Elevation; i_OIDCProvider : bytes; i_EligibleRoles : list bytes;
  i_AgentID : bytes
}.

Definition Info (now : Z) (s : Session) : SessionInfo * Session :=
  let '(e, s) := ActiveElevation now s in
  (mkInfo (s_ID s) (s_User s) (s_Principals s) (s_CreatedAt s) (s_lastActive s)
     (s_currentCommand s) (s_terminated s) (s_Recording s) e (s_oidcProvider s)
     (s_eligibleRoles s) (match s_agentBinding s with Some a => ag_ID a | None => [] end), s).

(** ** The environment overlay *)

Inductive envErr := EnvInvalidKey | EnvInvalidValue | EnvTooLarge | EnvFull.

Definition EQb : byte := "="%char.
Definition NULc : byte := ascii_of_nat 0.

Definition SetEnv (key value : bytes) (s : Session) : result envErr Session :=
  if bool_decide (key = []) || existsb (fun c => (c =?b EQb) || (c =?b NULc)) key
  then Err EnvInvalidKey
  else if existsb (fun c => c =?b NULc) value then Err EnvInvalidValue
  else if (maxEnvKeyLen <? zlen key) || (maxEnvValueLen <? zlen value) then Err EnvTooLarge
  else if bool_decide (s_envOverlay s !! key = None)
          && (maxEnvOverlayEntries <=? Z.of_nat (size (s_envOverlay s)))
  then Err EnvFull
  else Ok (set_envOverlay (<[key := value]> (s_envOverlay s)) s).

(** The name and value of an environment entry, when it has a name. *)
Definition env_entry (kv : bytes) : option (bytes * bytes) :=
  match cut_byte EQb kv with
  | Some (c :: name, v) => Some (c :: name, v)
  | _ => None
  end.

(** [os.LookupEnv] of an environment block: the first entry of the name. *)
Fixpoint getenv (l : list bytes) (key : bytes) : option bytes :=
  match l with
  | [] => None
  | kv :: l' =>
      match env_entry kv with
      | Some (n, v) => if bool_decide (n = key) then Some v else getenv l' key
      | None => getenv l' key
      end
  end.

Definition LookupEnv (os_env : list bytes) (key : bytes) (s : Session) : option bytes :=
  match s_envOverlay s !! key with
  | Some v => Some v
  | None => getenv os_env key
  end.

Definition mergeEnviron (base : list bytes) (overlay : gmap bytes bytes) : list bytes :=
  List.filter (fun kv => match env_entry kv with
                    | Some (n, _) => bool_decide (overlay !! n = None)
                    | None => false
                    end) base ++
  map (fun k => k ++ [EQb] ++ default [] (overlay !! k)) (sort_strings (elements (dom overlay))).

Definition Environ (os_env : list bytes) (s : Session) : list bytes :=
  mergeEnviron os_env (s_envOverlay s).

(** The loop of [LastEnvWins]: where each name is, and the entries so far. *)
Fixpoint last_env (l : list bytes) (index : gmap bytes nat) (out : list bytes) : list bytes :=
  match l with
  | [] => out
  | kv :: l' =>
      match env_entry kv with
      | None => last_env l' index out
      | Some (n, _) =>
          match index !! n with
          | Some i => last_env l' index (<[i := kv]> out)
          | None => last_env l' (<[n := length out]> index) (out ++ [kv])
          end
      end
  end.

Definition LastEnvWins (l : list bytes) : list bytes := last_env l ∅ [].

(** ** Host limits *)

Record host := mkHost {
  sessionCap : Z; sessionCapRefuse : bool;
  limitNOFILE : Z; limitNPROC : Z; limitAS : Z; limitFSIZE : Z; limitCPU : Z
}.

Definition defaultHost : host := mkHost 128 false 256 0 0 (Z.shiftl 1 30) 14400.

Definition parseSessionCap (raw : bytes) : option Z :=
  if bool_decide (raw = []) then Some 128 else ParseUint 64 raw.
Definition parseLimitEnv (raw : bytes) (fallback : Z) : option Z :=
  if bool_decide (raw = []) then Some fallback else ParseUint 64 raw.

(** [ConfigureHostFromEnv]: whether it returned without an error. *)
Definition ConfigureHostFromEnv (env : bytes -> bytes) (h : host) : bool * host :=
  match parseSessionCap (env (lit "ADSSH_MAX_SESSIONS")) with
  | None => (false, mkHost (sessionCap h) true (limitNOFILE h) (limitNPROC h) (limitAS h)
                      (limitFSIZE h) (limitCPU h))
  | Some cap =>
      match parseLimitEnv (env (lit "ADSSH_SESSION_NOFILE")) 256,
            parseLimitEnv (env (lit "ADSSH_SESSION_NPROC")) 0,
            parseLimitEnv (env (lit "ADSSH_SESSION_AS")) 0,
            parseLimitEnv (env (lit "ADSSH_SESSION_FSIZE")) (Z.shiftl 1 30),
            parseLimitEnv (env (lit "ADSSH_SESSION_CPU_SECONDS")) 14400 with
      | Some nofile, Some nproc, Some as_, Some fsize, Some cpu =>
          (true, mkHost cap false nofile nproc as_ fsize cpu)
      | _, _, _, _, _ => (false, h)
      end
  end.

(** ** The session table *)

Record registry := mkReg {
  globalSessions : gmap bytes Session;
  unregisterHooks : gset Z;
  unregisterHookSeq : Z
}.

Definition emptyRegistry : registry := mkReg ∅ ∅ 0.

Inductive regErr := RegDuplicate | RegCapInvalid | RegCapReached.

Definition GetSession (id : bytes) (r : registry) : option Session := globalSessions r !! id.

(** The object as it is stored: times filled in, the recorder attached. *)
Definition prepareSession (startRec : Session -> option (Z * bytes)) (now : Z) (s : Session) : Session :=
  let s := if s_CreatedAt s =? 0 then set_CreatedAt now s else s in
  let s := if s_lastActive s =? 0 then set_lastActive now s else s in
  match s_Out s, s_recorder s with
  | Some ws, None =>
      match startRec s with
      | Some (w, path) =>
          set_Out (Some (AddListener w ws)) (set_Recording path (set_recorder (Some w) s))
      | None => s
      end
  | _, _ => s
  end.

Definition RegisterSession (startRec : Session -> option (Z * bytes)) (now : Z) (s : Session)
  (h : host) (r : registry) : result regErr registry :=
  match globalSessions r !! s_ID s with
  | Some _ => Err RegDuplicate
  | None =>
      if sessionCapRefuse h then Err RegCapInvalid
      else if (0 <? sessionCap h) && (sessionCap h <=? Z.of_nat (size (globalSessions r)))
      then Err RegCapReached
      else Ok (mkReg (<[s_ID s := prepareSession startRec now s]> (globalSessions r))
                 (unregisterHooks r) (unregisterHookSeq r))
  end.

Definition OnSessionUnregister (r : registry) : Z * registry :=
  let key := wrapu 64 (unregisterHookSeq r + 1) in
  (key, mkReg (globalSessions r) (unregisterHooks r ∪ {[key]}) key).

Definition removeHook (key : Z) (r : registry) : registry :=
  mkReg (globalSessions r) (unregisterHooks r ∖ {[key]}) (unregisterHookSeq r).

(** The hooks that run, by key, in order. *)
Definition runUnregisterHooks (r : registry) : list Z := merge_sort Z.le (elements (unregisterHooks r)).

(** The session as the unregistering leaves it, the hooks that ran with its
    id, and the table. *)
Definition UnregisterSession (id : bytes) (r : registry) : option Session * list Z * registry :=
  let r' := mkReg (delete id (globalSessions r)) (unregisterHooks r) (unregisterHookSeq r) in
  match globalSessions r !! id with
  | None => (None, [], r')
  | Some s =>
      let s := match s_recorder s, s_Out s with
               | Some w, Some ws => set_Out (Some (RemoveListener w ws)) s
               | _, _ => s
               end in
      (Some s, runUnregisterHooks r', r')
  end.

Definition ListSessions (r : registry) : list bytes := sort_strings (elements (dom (globalSessions r))).

(** ** Histories *)

Inductive session_op :=
| OpCancel | OpSetContext | OpCurrentCommand (c : bytes)
| OpSetIdentity (user : bytes) (principals : list bytes)
| OpAddPrincipal (role : bytes) | OpRemovePrincipal (role : bytes)
| OpIdentitySource (source : bytes)
| OpClaim (name : bytes) | OpRelease (name : bytes)
| OpOIDC (provider : bytes) (eligible : list bytes)
| OpBindAgent (a : option ManagedAgent) | OpTouch | OpTerminate
| OpElevate (role reason : bytes) (expires : Z) | OpDropElevation | OpActiveElevation
| OpSetEnv (key value : bytes) | OpDropPrivileges (drop : bool) | OpPrompt (w : option Z).

Definition run_op (now : Z) (op : session_op) (s : Session) : Session :=
  match op with
  | OpCancel => CancelCommand s
  | OpSetContext => SetContext now s
  | OpCurrentCommand c => SetCurrentCommand now c s
  | OpSetIdentity user ps => SetIdentity now user ps s
  | OpAddPrincipal role => snd (AddPrincipal now role s)
  | OpRemovePrincipal role => snd (RemovePrincipal now role s)
  | OpIdentitySource source => SetIdentitySource source s
  | OpClaim name => snd (ClaimController name s)
  | OpRelease name => ReleaseController name s
  | OpOIDC p e => SetOIDC now p e s
  | OpBindAgent a => BindManagedAgent now a s
  | OpTouch => touch now s
  | OpTerminate => Terminate now s
  | OpElevate role reason exp => ActivateElevation now role reason exp s
  | OpDropElevation => snd (DropElevation now s)
  | OpActiveElevation => snd (ActiveElevation now s)
  | OpSetEnv k v => match SetEnv k v s with Ok s' => s' | Err _ => s end
  | OpDropPrivileges d => set_dropPrivileges d s
  | OpPrompt w => set_prompt w s
  end.

(** What happens to the table: a registration, an unregistration, an operation
    on the session registered under an id, a hook added or removed. *)
Inductive registry_op :=
| Register (now : Z) (s : Session)
| Unregister (id : bytes)
| OnSession (id : bytes) (now : Z) (op : session_op)
| AddHook
| DropHook (key : Z).

Definition reg_step (startRec : Session -> option (Z * bytes)) (h : host) (op : registry_op)
  (r : registry) : registry :=
  match op with
  | Register now s => match RegisterSession startRec now s h r with Ok r' => r' | Err _ => r end
  | Unregister id => snd (UnregisterSession id r)
  | OnSession id now op => mkReg (alter (run_op now op) id (globalSessions r)) (unregisterHooks r)
                             (unregisterHookSeq r)
  | AddHook => snd (OnSessionUnregister r)
  | DropHook key => removeHook key r
  end.

Definition reg_run (startRec : Session -> option (Z * bytes)) (h : host) (ops : list registry_op)
  (r : registry) : registry := foldl (fun r op => reg_step startRec h op r) r ops.

(** ** Operations keep what they do not change *)

Lemma run_op_ID now op s : s_ID (run_op now op s) = s_ID s.
Proof.
  destruct op; cbn; try done.
  all: unfold SetIdentity, AddPrincipal, RemovePrincipal, ClaimController, ReleaseController,
    Terminate, CancelCommand, DropElevation, ActiveElevation, SetEnv;
    repeat first [case_match | case_bool_decide]; simplify_eq; cbn; try done.
Qed.

Definition renames (op : session_op) : bool :=
  match op with OpSetIdentity _ _ => true | _ => false end.
Definition regroups (op : session_op) : bool :=
  match op with OpSetIdentity _ _ | OpAddPrincipal _ | OpRemovePrincipal _ => true | _ => false end.

Lemma run_op_User now op s : renames op = false -> s_User (run_op now op s) = s_User s.
Proof.
  destruct op; cbn; try done; intros _.
  all: unfold AddPrincipal, RemovePrincipal, ClaimController, ReleaseController,
    Terminate, CancelCommand, DropElevation, ActiveElevation, SetEnv;
    repeat first [case_match | case_bool_decide]; simplify_eq; cbn; try done.
Qed.

Lemma run_op_Principals now op s : regroups op = false -> s_Principals (run_op now op s) = s_Principals s.
Proof.
  destruct op; cbn; try done; intros _.
  all: unfold ClaimController, ReleaseController,
    Terminate, CancelCommand, DropElevation, ActiveElevation, SetEnv;
    repeat first [case_match | case_bool_decide]; simplify_eq; cbn; try done.
Qed.

Definition env_key_ok (k : bytes) : Prop :=
  k <> [] /\ ~ In EQb k /\ ~ In NULc k /\ zlen k <= maxEnvKeyLen.
Definition env_value_ok (v : bytes) : Prop := ~ In NULc v /\ zlen v <= maxEnvValueLen.

Definition overlay_ok (m : gmap bytes bytes) : Prop :=
  (forall k v, m !! k = Some v -> env_key_ok k /\ env_value_ok v) /\
  Z.of_nat (size m) <= maxEnvOverlayEntries.

Lemma existsb_byte_false (p : byte -> bool) l : existsb p l = false <-> forall c, In c l -> p c = false.
Proof.
  split.
  - intros H c Hc. destruct (p c) eqn:E; [|done].
    assert (existsb p l = true) by (apply existsb_exists; by exists c). congruence.
  - intros H. destruct (existsb p l) eqn:E; [|done].
    apply existsb_exists in E as (c & Hc & E). by rewrite (H c Hc) in E.
Qed.

Lemma SetEnv_overlay_ok k v s s' :
  SetEnv k v s = Ok s' -> overlay_ok (s_envOverlay s) ->
  s_envOverlay s' = <[k := v]> (s_envOverlay s) /\ overlay_ok (s_envOverlay s').
Proof.
  unfold SetEnv. destruct (_ || existsb _ k) eqn:Ek; [done|].
  destruct (existsb _ v) eqn:Ev; [done|]. destruct (_ || (maxEnvValueLen <? _)) eqn:El; [done|].
  destruct (_ && _) eqn:Ef; [done|]. intros [= <-] [Hm Hsz]. split; [done|]. cbn.
  apply orb_false_iff in Ek as [Ek1 Ek2]. apply bool_decide_eq_false in Ek1.
  rewrite existsb_byte_false in Ek2, Ev. apply orb_false_iff in El as [El1 El2]. bsimp.
  split.
  - intros k' v'. rewrite lookup_insert_Some. intros [[<- <-]|[_ H]]; [|by apply Hm].
    split; [unfold env_key_ok; split_and!|split]; try done.
    + intros H%Ek2. by apply orb_false_iff in H as [H _].
    + intros H%Ek2. by apply orb_false_iff in H as [_ H].
    + intros H%Ev. done.
  - rewrite map_size_insert. destruct (s_envOverlay s !! k) eqn:E; [done|].
    rewrite bool_decide_true in Ef by done. cbn in Ef. bsimp. lia.
Qed.

Lemma run_op_overlay now op s :
  overlay_ok (s_envOverlay s) -> overlay_ok (s_envOverlay (run_op now op s)).
Proof.
  intros H. destruct op; cbn; try done.
  all: unfold SetIdentity, AddPrincipal, RemovePrincipal, ClaimController, ReleaseController,
    Terminate, CancelCommand, DropElevation, ActiveElevation;
    repeat first [case_match | case_bool_decide]; simplify_eq; cbn; try done.
  by eapply SetEnv_overlay_ok.
Qed.

Lemma prepareSession_same startRec now s :
  s_ID (prepareSession startRec now s) = s_ID s /\
  s_User (prepareSession startRec now s) = s_User s /\
  s_Principals (prepareSession startRec now s) = s_Principals s.
Proof.
  unfold prepareSession. repeat case_match; cbn; done.
Qed.

(** ** The table *)

Definition reg_ok (h : host) (r : registry) : Prop :=
  (forall id s, GetSession id r = Some s -> s_ID s = id) /\
  (0 < sessionCap h -> Z.of_nat (size (globalSessions r)) <= sessionCap h).

Lemma reg_step_ok startRec h op r : reg_ok h r -> reg_ok h (reg_step startRec h op r).
Proof.
  intros [Hk Hc]. unfold GetSession in Hk. destruct op as [now s|id|id now op| |key]; cbn; try done.
  - unfold RegisterSession. destruct (globalSessions r !! s_ID s) eqn:E; [done|].
    destruct (sessionCapRefuse h); [done|]. destruct (_ && _) eqn:Ec; [done|].
    split; unfold GetSession; cbn.
    + intros id s'. rewrite lookup_insert_Some. intros [[<- <-]|[_ H]]; [|by apply Hk].
      apply prepareSession_same.
    + intros Hp. rewrite map_size_insert_None by done.
      rewrite (proj2 (Z.ltb_lt _ _) Hp) in Ec. cbn in Ec. bsimp. lia.
  - unfold UnregisterSession. 
    assert (Hd : reg_ok h (mkReg (delete id (globalSessions r)) (unregisterHooks r) (unregisterHookSeq r))).
    { split; unfold GetSession; cbn.
      - intros id' s [_ H]%lookup_delete_Some. by apply Hk.
      - intros Hp. specialize (Hc Hp). rewrite map_size_delete. destruct (_ !! id); cbn; lia. }
    destruct (globalSessions r !! id); exact Hd.
  - split; unfold GetSession; cbn.
    + intros id' s. rewrite lookup_alter_Some. intros [(-> & s0 & H & ->)|[_ H]]; [|by apply Hk].
      rewrite run_op_ID. by apply Hk.
    + intros Hp. rewrite <- size_dom, dom_alter_L, size_dom. by apply Hc.
Qed.

Lemma reg_run_ok startRec h ops r : reg_ok h r -> reg_ok h (reg_run startRec h ops r).
Proof. revert r. induction ops as [|op ops IH]; intros r H; [done|]. apply IH. by apply reg_step_ok. Qed.

(** The operations that rename or end the session of an id. *)
Definition touches_user (id : bytes) (op : registry_op) : bool :=
  match op with
  | Unregister i => bool_decide (i = id)
  | OnSession i _ op => bool_decide (i = id) && renames op
  | _ => false
  end.
Definition touches_groups (id : bytes) (op : registry_op) : bool :=
  match op with
  | Unregister i => bool_decide (i = id)
  | OnSession i _ op => bool_decide (i = id) && regroups op
  | _ => false
  end.

Lemma touches_groups_user id op : touches_groups id op = false -> touches_user id op = false.
Proof.
  destruct op as [| |i now op| |]; cbn; try done. intros H. apply andb_false_iff.
  apply andb_false_iff in H as [H|H]; [by left|right]. by destruct op.
Qed.

Lemma reg_step_keeps startRec h id op r s :
  GetSession id r = Some s -> touches_user id op = false ->
  exists s', GetSession id (reg_step startRec h op r) = Some s' /\ s_User s' = s_User s /\
    (touches_groups id op = false -> s_Principals s' = s_Principals s).
Proof.
  unfold GetSession. intros Hs Ht. destruct op as [now s1|i|i now op| |key]; cbn in *; try (by exists s).
  - unfold RegisterSession. destruct (globalSessions r !! s_ID s1) eqn:E; [by exists s|].
    destruct (sessionCapRefuse h); [by exists s|]. destruct (_ && _); [by exists s|].
    exists s. cbn. by rewrite lookup_insert_ne by congruence.
  - apply bool_decide_eq_false in Ht. unfold UnregisterSession. exists s.
    destruct (globalSessions r !! i); cbn; by rewrite lookup_delete_ne.
  - destruct (decide (i = id)) as [->|Hne].
    + exists (run_op now op s). rewrite bool_decide_true in Ht |- * by done.
      rewrite lookup_alter_eq, Hs. split_and!; [done|by apply run_op_User|by apply run_op_Principals].
    + exists s. by rewrite lookup_alter_ne.
Qed.

Lemma reg_run_keeps startRec h id ops r s :
  GetSession id r = Some s -> forallb (fun op => negb (touches_user id op)) ops = true ->
  exists s', GetSession id (reg_run startRec h ops r) = Some s' /\ s_User s' = s_User s /\
    (forallb (fun op => negb (touches_groups id op)) ops = true -> s_Principals s' = s_Principals s).
Proof.
  revert r s. induction ops as [|op ops IH]; intros r s Hs Ht; [by exists s|].
  cbn [forallb] in *. bsimp.
  destruct (reg_step_keeps startRec h id op r s) as (s1 & H1 & Hu & Hp); [done..|].
  destruct (IH _ _ H1) as (s2 & H2 & Hu2 & Hp2); [done|]. exists s2. split_and!; [done|congruence|].
  intros Hg. bsimp. rewrite Hp2 by done. by apply Hp.
Qed.

(** Over any history of registrations, unregistrations, session operations and
    hook changes the table is keyed by the session ids and holds no more
    sessions than a positive cap; from then on a registered session keeps its
    user, and its principals, through every operation but its unregistering
    and those that set them for its own id. *)
Theorem registry_run_safe startRec h ops :
  let r := reg_run startRec h ops emptyRegistry in
  (forall id s, GetSession id r = Some s -> s_ID s = id) /\
  (0 < sessionCap h -> Z.of_nat (size (globalSessions r)) <= sessionCap h) /\
  forall id s more, GetSession id r = Some s ->
    forallb (fun op => negb (touches_user id op)) more = true ->
    exists s', GetSession id (reg_run startRec h more r) = Some s' /\ s_User s' = s_User s /\
      (forallb (fun op => negb (touches_groups id op)) more = true -> s_Principals s' = s_Principals s).
Proof.
  cbv zeta. assert (H0 : reg_ok h emptyRegistry).
  { split; [|intros ?; cbn; rewrite map_size_empty; lia].
    intros id s H. unfold GetSession in H. cbn in H. by rewrite lookup_empty in H. }
  destruct (reg_run_ok startRec h ops _ H0) as [Hk Hc]. split_and!; [done..|].
  intros id s more Hs Hm. by apply reg_run_keeps.
Qed.

(** ** The environment a child gets *)

Lemma env_entry_put k v : k <> [] -> ~ In EQb k -> env_entry (k ++ [EQb] ++ v) = Some (k, v).
Proof.
  intros Hk Hn. unfold env_entry.
  rewrite (proj2 (cut_byte_spec EQb (k ++ [EQb] ++ v) k v) (conj eq_refl Hn)). by destruct k.
Qed.

Lemma env_entry_name kv n v : env_entry kv = Some (n, v) -> n <> [].
Proof. unfold env_entry. destruct (cut_byte EQb kv) as [[[|c l] w]|]; [done| |done]. by intros [= <- <-]. Qed.

Lemma getenv_app l1 l2 k :
  getenv (l1 ++ l2) k = match getenv l1 k with Some v => Some v | None => getenv l2 k end.
Proof.
  induction l1 as [|kv l1 IH]; cbn; [done|]. destruct (env_entry kv) as [[n v]|]; [|done].
  by case_bool_decide.
Qed.

(** The base entries whose name the overlay does not set. *)
Lemma getenv_base (base : list bytes) (m : gmap bytes bytes) (k : bytes) :
  getenv (List.filter (fun kv => match env_entry kv with
                    | Some (n, _) => bool_decide (m !! n = None)
                    | None => false
                    end) base) k =
  match m !! k with Some _ => None | None => getenv base k end.
Proof.
  induction base as [|kv base IH]; cbn; [by destruct (m !! k)|].
  destruct (env_entry kv) as [[n v]|] eqn:E; [|exact IH].
  destruct (m !! n) eqn:En; cbn.
  - rewrite IH. destruct (decide (n = k)) as [->|Hne]; [by rewrite En|].
    by rewrite (bool_decide_false (n = k)) by done.
  - rewrite E, IH. destruct (decide (n = k)) as [->|Hne].
    + by rewrite !bool_decide_true, En by done.
    + by rewrite !(bool_decide_false (n = k)) by done.
Qed.

Lemma getenv_overlay (m : gmap bytes bytes) (ks : list bytes) (k : bytes) :
  (forall k, k ∈ ks -> k <> [] /\ ~ In EQb k) ->
  getenv (map (fun k => k ++ [EQb] ++ default [] (m !! k)) ks) k =
  if bool_decide (k ∈ ks) then Some (default [] (m !! k)) else None.
Proof.
  induction ks as [|k1 ks IH]; intros Hks; [done|]. cbn [map getenv].
  destruct (Hks k1) as [H1 H2]; [by left|]. rewrite env_entry_put by done.
  rewrite IH by (intros; apply Hks; by right).
  destruct (decide (k1 = k)) as [->|Hne].
  - rewrite !bool_decide_true; [done|by left|done].
  - rewrite (bool_decide_false (k1 = k)) by done.
    rewrite (bool_decide_ext (k ∈ k1 :: ks) (k ∈ ks)); [done|]. rewrite elem_of_cons.
    split; [by intros [->|H]|by right].
Qed.

Lemma Environ_overlay os_env s k :
  overlay_ok (s_envOverlay s) -> getenv (Environ os_env s) k = LookupEnv os_env k s.
Proof.
  intros [Hm _]. unfold Environ, mergeEnviron, LookupEnv. rewrite getenv_app, getenv_base, getenv_overlay.
  2:{ intros k'. rewrite elem_of_sort_strings, elem_of_elements, elem_of_dom.
      intros [v Hv]. destruct (Hm _ _ Hv) as [(? & ? & _) _]. done. }
  destruct (s_envOverlay s !! k) as [v|] eqn:E.
  - rewrite bool_decide_true; [done|]. rewrite elem_of_sort_strings, elem_of_elements, elem_of_dom. by exists v.
  - destruct (getenv os_env k); [done|]. rewrite bool_decide_false; [done|].
    rewrite elem_of_sort_strings, elem_of_elements, elem_of_dom, E. by intros [? ?].
Qed.

(** A session's life: operations, each at a time. *)
Definition run_ops (ops : list (Z * session_op)) (s : Session) : Session :=
  foldl (fun s op => run_op (fst op) (snd op) s) s ops.

Lemma run_ops_overlay ops s : overlay_ok (s_envOverlay s) -> overlay_ok (s_envOverlay (run_ops ops s)).
Proof. revert s. induction ops as [|op ops IH]; intros s H; [done|]. apply IH. by apply run_op_overlay. Qed.

(** Reading a name out of the environment block a session gives to a process
    returns exactly what LookupEnv answers, after any history of session
    operations, and every entry of the block is a named entry of the process
    environment or a legal key and value of the overlay. *)
Theorem Environ_is_LookupEnv ops os_env s :
  s_envOverlay s = ∅ ->
  let s' := run_ops ops s in
  (forall k, getenv (Environ os_env s') k = LookupEnv os_env k s') /\
  (forall kv, kv ∈ Environ os_env s' ->
     (kv ∈ os_env /\ env_entry kv <> None) \/
     exists k v, kv = k ++ [EQb] ++ v /\ s_envOverlay s' !! k = Some v /\ env_key_ok k /\ env_value_ok v).
Proof.
  intros H0. cbv zeta. assert (Hok : overlay_ok (s_envOverlay (run_ops ops s))).
  { apply run_ops_overlay. rewrite H0. split; [intros k v; by rewrite lookup_empty|].
    rewrite map_size_empty. done. }
  split; [intros k; by apply Environ_overlay|].
  intros kv. unfold Environ, mergeEnviron. rewrite elem_of_app. intros [H|H].
  - left. apply list_elem_of_In, filter_In in H as [H1 H2]. rewrite list_elem_of_In. split; [done|].
    by destruct (env_entry kv).
  - right. apply list_elem_of_In, in_map_iff in H as (k & <- & Hk).
    apply list_elem_of_In in Hk. rewrite elem_of_sort_strings, elem_of_elements, elem_of_dom in Hk.
    destruct Hk as [v Hv]. exists k, v. rewrite Hv. cbn [default]. destruct Hok as [Hm _].
    destruct (Hm _ _ Hv). done.
Qed.

(** *** The last setting of a name wins *)

Fixpoint getenv_last (l : list bytes) (key : bytes) : option bytes :=
  match l with
  | [] => None
  | kv :: l' =>
      match getenv_last l' key with
      | Some v => Some v
      | None => match env_entry kv with
                | Some (n, v) => if bool_decide (n = key) then Some v else None
                | None => None
                end
      end
  end.

Definition entry_name (kv : bytes) : option bytes := fst <$> env_entry kv.

(** [index] is where each name of [out] is. *)
Definition indexed (index : gmap bytes nat) (out : list bytes) : Prop :=
  (forall n i, index !! n = Some i <-> exists kv, out !! i = Some kv /\ entry_name kv = Some n) /\
  Forall (fun kv => entry_name kv <> None) out.

Lemma getenv_at out k i kv v :
  out !! i = Some kv -> env_entry kv = Some (k, v) ->
  (forall j kv', out !! j = Some kv' -> entry_name kv' = Some k -> j = i) ->
  getenv out k = Some v.
Proof.
  revert i. induction out as [|x out IH]; intros i Hi He Hu; [done|]. cbn [getenv].
  destruct i as [|i].
  - injection Hi as ->. by rewrite He, bool_decide_true.
  - destruct (env_entry x) as [[n w]|] eqn:Ex.
    + destruct (decide (n = k)) as [->|Hne].
      { assert (0%nat = S i) by (apply (Hu 0%nat x); [done|unfold entry_name; by rewrite Ex]). done. }
      rewrite bool_decide_false by done. apply (IH i); [done|done|].
      intros j kv' Hj Hn. assert (S j = S i) by by apply (Hu (S j) kv'). lia.
    + apply (IH i); [done|done|]. intros j kv' Hj Hn. assert (S j = S i) by by apply (Hu (S j) kv'). lia.
Qed.

Lemma getenv_none out k :
  (forall j kv', out !! j = Some kv' -> entry_name kv' <> Some k) -> getenv out k = None.
Proof.
  induction out as [|x out IH]; intros H; [done|]. cbn [getenv].
  assert (IH' : getenv out k = None) by (apply IH; intros j kv' Hj; by apply (H (S j) kv')).
  destruct (env_entry x) as [[n w]|] eqn:Ex; [|done].
  rewrite bool_decide_false; [done|]. intros ->. apply (H 0%nat x); [done|]. unfold entry_name. by rewrite Ex.
Qed.

Lemma entry_name_Some kv n : entry_name kv = Some n <-> exists v, env_entry kv = Some (n, v).
Proof.
  unfold entry_name. destruct (env_entry kv) as [[n' v]|]; cbn; [|by split; [|intros [? ?]]].
  split; [intros [= ->]; by exists v|]. by intros [v' [= -> _]].
Qed.

Lemma getenv_indexed index out k :
  indexed index out ->
  getenv out k = i ← index !! k; kv ← out !! i; snd <$> env_entry kv.
Proof.
  intros [Hi _]. destruct (index !! k) as [i|] eqn:E; cbn.
  - destruct (proj1 (Hi k i) E) as (kv & Hkv & Hn). rewrite Hkv. cbn.
    apply entry_name_Some in Hn as [v Hv]. rewrite Hv. cbn. eapply getenv_at; [done..|].
    intros j kv' Hj Hn. assert (index !! k = Some j) by (apply Hi; by exists kv'). congruence.
  - apply getenv_none. intros j kv' Hj Hn. assert (index !! k = Some j) by (apply Hi; by exists kv'). congruence.
Qed.

Lemma indexed_insert index out n i kv :
  indexed index out -> index !! n = Some i -> entry_name kv = Some n -> indexed index (<[i := kv]> out).
Proof.
  intros [Hi Hf] E Hn. destruct (proj1 (Hi n i) E) as (kv0 & Hkv0 & Hn0).
  pose proof (lookup_lt_Some _ _ _ Hkv0) as Hlt. split.
  - intros m j. rewrite Hi. destruct (decide (j = i)) as [->|Hne].
    + rewrite list_lookup_insert_eq by done. split.
      * intros (kv' & H1 & H2). exists kv. split; [done|]. congruence.
      * intros (kv' & [= <-] & H2). exists kv0. split; [done|]. congruence.
    + by rewrite list_lookup_insert_ne.
  - apply Forall_insert; [done|]. congruence.
Qed.

Lemma indexed_app index out n kv :
  indexed index out -> index !! n = None -> entry_name kv = Some n ->
  indexed (<[n := length out]> index) (out ++ [kv]).
Proof.
  intros [Hi Hf] E Hn. split; [|apply Forall_app; split; [done|repeat constructor; congruence]].
  intros m j. rewrite lookup_insert_Some. split.
  - intros [[<- <-]|[Hne H]].
    + exists kv. by rewrite list_lookup_middle.
    + apply Hi in H as (kv' & H1 & H2). exists kv'. split; [|done]. by apply lookup_app_l_Some.
  - intros (kv' & H1 & H2). apply lookup_app_Some in H1 as [H1|[H1 H3]].
    + right. assert (index !! m = Some j) by (apply Hi; by exists kv'). split; [|done]. congruence.
    + apply list_lookup_singleton_Some in H3 as [H3 <-]. left. split; [congruence|lia].
Qed.

Lemma last_env_spec l : forall index out,
  indexed index out ->
  exists index', indexed index' (last_env l index out) /\
    (forall k, getenv (last_env l index out) k =
      match getenv_last l k with Some v => Some v | None => getenv out k end) /\
    (forall kv, kv ∈ last_env l index out -> kv ∈ out \/ kv ∈ l).
Proof.
  induction l as [|kv l IH]; intros index out Hx; cbn [last_env getenv_last].
  { exists index. split_and!; [done..|]. intros kv H. by left. }
  destruct (env_entry kv) as [[n v]|] eqn:E.
  2:{ destruct (IH index out Hx) as (ix & H1 & H2 & H3). exists ix. split_and!; [done| |].
      - intros k. rewrite H2. by destruct (getenv_last l k).
      - intros kv' H. destruct (H3 _ H); [by left|right; by right]. }
  assert (Hn : entry_name kv = Some n) by (unfold entry_name; by rewrite E).
  assert (Hstep : forall index1 out1, indexed index1 out1 ->
    (forall k, getenv out1 k = if bool_decide (n = k) then Some v else getenv out k) ->
    (forall kv', kv' ∈ out1 -> kv' ∈ out \/ kv' = kv) ->
    exists index', indexed index' (last_env l index1 out1) /\
    (forall k, getenv (last_env l index1 out1) k =
      match match getenv_last l k with Some v => Some v
            | None => if bool_decide (n = k) then Some v else None end
      with Some v => Some v | None => getenv out k end) /\
    (forall kv', kv' ∈ last_env l index1 out1 -> kv' ∈ out \/ kv' ∈ kv :: l)).
  { intros index1 out1 Hx1 Hg1 He1. destruct (IH _ _ Hx1) as (ix & H1 & H2 & H3).
    exists ix. split_and!; [done| |].
    - intros k. rewrite H2, Hg1. destruct (getenv_last l k); [done|]. by case_bool_decide.
    - intros kv' H. destruct (H3 _ H) as [H'|H']; [|right; by right].
      destruct (He1 _ H') as [Hkv| ->]; [by left|right; by left]. }
  destruct (index !! n) as [i|] eqn:Ei.
  - apply Hstep.
    + by eapply indexed_insert.
    + intros k. rewrite (getenv_indexed index) by by eapply indexed_insert.
      rewrite (getenv_indexed index out) by done.
      destruct (proj1 (proj1 Hx n i) Ei) as (kv0 & Hkv0 & _). pose proof (lookup_lt_Some _ _ _ Hkv0) as Hlt.
      destruct (decide (n = k)) as [<-|Hne].
      * rewrite bool_decide_true, Ei by done. cbn. rewrite list_lookup_insert_eq by done. cbn. by rewrite E.
      * rewrite bool_decide_false by done. destruct (index !! k) as [j|] eqn:Ej; cbn; [|done].
        rewrite list_lookup_insert_ne; [done|]. intros <-.
        destruct (proj1 (proj1 Hx k i) Ej) as (kv1 & H1 & H2).
        destruct (proj1 (proj1 Hx n i) Ei) as (kv2 & H3 & H4). congruence.
    + intros kv' H. apply list_elem_of_lookup in H as [j Hj].
      apply list_lookup_insert_Some in Hj as [(-> & -> & _)|[_ Hj]]; [by right|].
      left. by eapply list_elem_of_lookup_2.
  - apply Hstep.
    + by apply indexed_app.
    + intros k. rewrite getenv_app. cbn. rewrite E.
      destruct (decide (n = k)) as [<-|Hne].
      * rewrite bool_decide_true by done. rewrite (getenv_indexed index out) by done. by rewrite Ei.
      * rewrite bool_decide_false by done. by destruct (getenv out k).
    + intros kv' H. apply elem_of_app in H as [H|H]; [by left|]. right. by apply list_elem_of_singleton in H.
Qed.

(** LastEnvWins keeps for each name the value of its last entry, has one entry
    per name, only entries of the list, and none without a name. *)
Theorem LastEnvWins_spec l :
  (forall k, getenv (LastEnvWins l) k = getenv_last l k) /\
  NoDup (omap entry_name (LastEnvWins l)) /\
  (forall kv, kv ∈ LastEnvWins l -> kv ∈ l) /\
  Forall (fun kv => entry_name kv <> None) (LastEnvWins l).
Proof.
  assert (Hx : indexed ∅ []).
  { split; [|constructor]. intros n i. rewrite lookup_empty. by split; [|intros (? & ? & _)]. }
  destruct (last_env_spec l ∅ [] Hx) as (ix & H1 & H2 & H3). unfold LastEnvWins.
  split_and!; [intros k; rewrite H2; by destruct (getenv_last l k)| | |apply H1].
  - destruct H1 as [H1 _]. revert H1. generalize (last_env l ∅ []). clear. intros out.
    intros Hi. assert (Hu : forall i j kv kv' n, out !! i = Some kv -> out !! j = Some kv' ->
      entry_name kv = Some n -> entry_name kv' = Some n -> i = j).
    { intros i j kv kv' n ? ? ? ?. assert (ix !! n = Some i) by (apply Hi; by exists kv).
      assert (ix !! n = Some j) by (apply Hi; by exists kv'). congruence. }
    clear Hi ix. induction out as [|x out IH]; [constructor|]. cbn.
    assert (IH' : NoDup (omap entry_name out)).
    { apply IH. intros i j kv kv' n ? ? ? ?. assert (S i = S j) by by eapply Hu. lia. }
    destruct (entry_name x) as [n|] eqn:Ex; [|done]. constructor; [|done].
    rewrite list_elem_of_omap. intros (kv & Hkv & Hn). apply list_elem_of_lookup in Hkv as [j Hj].
    assert (0%nat = S j) by by eapply (Hu 0%nat (S j)). done.
  - intros kv H. destruct (H3 _ H) as [H'|]; [by apply elem_of_nil in H'|done].
Qed.

(** ** A concrete session *)

Definition demoSession : Session :=
  mkSession (lit "s1") (lit "alice") [lit "dev"] 0 [] None 0 [] false None false false None None
    [] [] None ∅ false None [] [].

Lemma Environ_is_LookupEnv_witness :
  let s := run_ops [(1, OpSetEnv (lit "PATH") (lit "/bin")); (2, OpSetEnv (lit "A=B") (lit "x"))] demoSession in
  getenv (Environ [lit "PATH=/usr/bin"; lit "HOME=/root"] s) (lit "PATH") = Some (lit "/bin").
Proof.
  cbv zeta.
  rewrite (proj1 (Environ_is_LookupEnv
    [(1, OpSetEnv (lit "PATH") (lit "/bin")); (2, OpSetEnv (lit "A=B") (lit "x"))]
    [lit "PATH=/usr/bin"; lit "HOME=/root"] demoSession eq_refl)).
  vm_compute. reflexivity.
Defined.
