(* ===== verification/Policy.v ===== *)
(** * Policy, capabilities, entitlements and identity

    security/policy.go, security/capabilities.go, security/roles.go,
    security/entitlements.go and the identity bindings of security/engine.go:
    what a decision document means, the input a policy sees, and the principal
    a session id stands for.

    The compiled Rego query is a function from the input document to its
    result values; the operating system's account lookup is an argument. *)

From S2P Require Import Prelude GoBytes GoTime Session.
From stdpp Require Import sorting pretty.
#[local] Open Scope Z_scope.
#[local] Arguments lit : simpl never.

(** ** Documents *)

#[local] Set Warnings "-register-all".
(** The JSON values a query gives back, [map[string]interface{}] with the
    keys in some order. *)
Inductive jval :=
| JNull | JBool (b : bool) | JNumber (n : Z) | JString (s : bytes)
| JArray (l : list jval) | JObject (m : list (bytes * jval)).

Fixpoint get (key : bytes) (m : list (bytes * jval)) : option jval :=
  match m with
  | [] => None
  | (k, v) :: m' => if bool_decide (k = key) then Some v else get key m'
  end.

(** ** The input *)

Record ElevationClaim := mkElevationClaim { ec_role : bytes; ec_reason : bytes; ec_expires : bytes }.
Record GatewayClaim := mkGateway {
  gw_action : bytes; gw_listen : bytes; gw_name : bytes; gw_target : bytes;
  gw_host : bytes; gw_ip : bytes; gw_port : bytes }.
Record LeaseClaim := mkLease {
  lc_id : bytes; lc_source_type : bytes; lc_source_name : bytes; lc_destination : bytes;
  lc_ttl : Z; lc_command : list bytes; lc_delivery : bytes }.
Record ExecLeaseClaim := mkExecLease { xl_sub : bytes; xl_host : bytes; xl_jti : bytes; xl_exp : Z }.
Record AgentClaim := mkAgentClaim {
  ac_id : bytes; ac_kind : bytes; ac_risk : bytes; ac_dry_run : bool; ac_session : bytes }.
Record SnoopClaim := mkSnoop { sn_purpose : bytes; sn_mode : bytes; sn_user : bytes; sn_session : bytes }.

Record PolicyContext := mkPctx {
  p_User : bytes; p_Groups : list bytes; p_Command : bytes; p_Args : list bytes;
  p_Capabilities : list bytes; p_Time : bytes; p_SessionID : bytes;
  p_Elevation : option ElevationClaim; p_Gateway : option GatewayClaim;
  p_Lease : option LeaseClaim; p_ExecLease : option ExecLeaseClaim;
  p_Agent : option AgentClaim; p_Snoop : option SnoopClaim;
  p_IdentityUnknown : bool
}.

Record PolicyContextExtra := mkExtra
  { x_Lease : option LeaseClaim; x_ExecLease : option ExecLeaseClaim; x_Agent : option AgentClaim }.

Definition strs (l : list bytes) : jval := JArray (map JString l).
(** A slice that is nil when it is empty, as the groups and the capabilities of
    a context are: it is null in the input. *)
Definition nil_strs (l : list bytes) : jval := match l with [] => JNull | _ => strs l end.
Definition field (k : string) (v : jval) : list (bytes * jval) := [(lit k, v)].
Definition claim {A} (k : string) (c : option A) (f : A -> list (bytes * jval)) : list (bytes * jval) :=
  match c with Some x => field k (JObject (f x)) | None => [] end.

(** The [input] map of [EvaluatePolicyDecision]. *)
Definition policy_input (p : PolicyContext) : jval :=
  JObject (
    field "user" (JString (p_User p)) ++ field "groups" (nil_strs (p_Groups p)) ++
    field "command" (JString (p_Command p)) ++ field "args" (strs (p_Args p)) ++
    field "capabilities" (nil_strs (p_Capabilities p)) ++ field "time" (JString (p_Time p)) ++
    field "session_id" (JString (p_SessionID p)) ++
    claim "elevation" (p_Elevation p) (fun c =>
      field "role" (JString (ec_role c)) ++ field "reason" (JString (ec_reason c)) ++
      field "expires_at" (JString (ec_expires c))) ++
    claim "gateway" (p_Gateway p) (fun c =>
      field "action" (JString (gw_action c)) ++ field "listen" (JString (gw_listen c)) ++
      field "name" (JString (gw_name c)) ++ field "target" (JString (gw_target c)) ++
      field "target_host" (JString (gw_host c)) ++ field "target_ip" (JString (gw_ip c)) ++
      field "target_port" (JString (gw_port c))) ++
    claim "lease" (p_Lease p) (fun c =>
      field "id" (JString (lc_id c)) ++ field "source_type" (JString (lc_source_type c)) ++
      field "source_name" (JString (lc_source_name c)) ++
      field "destination" (JString (lc_destination c)) ++
      field "ttl_seconds" (JNumber (lc_ttl c)) ++ field "command" (strs (lc_command c)) ++
      field "delivery" (JString (lc_delivery c))) ++
    claim "exec_lease" (p_ExecLease p) (fun c =>
      field "sub" (JString (xl_sub c)) ++ field "host" (JString (xl_host c)) ++
      field "jti" (JString (xl_jti c)) ++ field "exp" (JNumber (xl_exp c))) ++
    claim "agent" (p_Agent p) (fun c =>
      field "id" (JString (ac_id c)) ++ field "kind" (JString (ac_kind c)) ++
      field "risk" (JString (ac_risk c)) ++ field "dry_run" (JBool (ac_dry_run c)) ++
      field "session_id" (JString (ac_session c))) ++
    claim "snoop" (p_Snoop p) (fun c =>
      field "purpose" (JString (sn_purpose c)) ++ field "mode" (JString (sn_mode c)) ++
      field "user" (JString (sn_user c)) ++ field "session" (JString (sn_session c)))).

(** ** Decisions *)

Record PolicyDecision := mkDecision {
  Allowed : bool; DenyReason : bytes; RequiredRole : bytes; Rule : bytes;
  RequiredEntitlement : bytes; Notify : option bool
}.
Definition no_decision : PolicyDecision := mkDecision false [] [] [] [] None.

Definition is_alnum (c : byte) : bool :=
  let z := byte_val c in
  ((48 <=? z) && (z <=? 57)) || ((65 <=? z) && (z <=? 90)) || ((97 <=? z) && (z <=? 122)).
Definition role_char (c : byte) : bool :=
  is_alnum c || (c =?b ".") || (c =?b "_") || (c =?b "-").

(** [roleNamePattern]: a letter or digit, then at most 64 name characters. *)
Definition roleNamePattern (s : bytes) : bool :=
  match s with
  | [] => false
  | c :: s' => is_alnum c && forallb role_char s' && (zlen s' <=? 64)
  end.

Definition roleFromValue (v : option jval) : option bytes :=
  match v with
  | Some (JString s) => if roleNamePattern s then Some s else None
  | _ => None
  end.

Definition decisionRequiredRole (m : list (bytes * jval)) : bytes :=
  match roleFromValue (get (lit "required_role") m) with
  | Some r => r
  | None =>
      match get (lit "metadata") m with
      | Some (JObject meta) => default [] (roleFromValue (get (lit "required_role") meta))
      | _ => []
      end
  end.

(** The compiled query: an error, or the values of its results. *)
Definition query := jval -> result bytes (list jval).

Inductive policyErr := PolicyRemoteOnly | PolicyEvalFailed (e : bytes).

(** The decision of a decision document; [role] is its required role. *)
Definition decide_document (m : list (bytes * jval)) : PolicyDecision :=
  let role := decisionRequiredRole m in
  let reason := match get (lit "deny_reason") m with Some (JString s) => s | _ => [] end in
  let not_string key := mkDecision false (lit "policy: non-string " ++ lit key) role [] [] None in
  match get (lit "rule") m with
  | Some (JString _) | None =>
      let rule := match get (lit "rule") m with Some (JString s) => s | _ => [] end in
      match get (lit "required_entitlement") m with
      | Some (JString _) | None =>
          let ent := match get (lit "required_entitlement") m with Some (JString s) => s | _ => [] end in
          let notify := match get (lit "notify") m with
                        | None => None
                        | Some (JBool b) => Some b
                        | Some _ => Some true
                        end in
          match get (lit "allow") m with
          | None =>
              mkDecision false
                (match reason with [] => lit "policy: deny by default (no allow decision)" | _ => reason end)
                role rule ent notify
          | Some (JBool b) => mkDecision b reason role rule ent notify
          | Some _ => mkDecision false (lit "policy: non-boolean allow") role rule ent notify
          end
      | Some _ => not_string "required_entitlement"%string
      end
  | Some _ => not_string "rule"%string
  end.

Definition EvaluatePolicyDecision (remote : bool) (q : option query) (p : PolicyContext)
  : PolicyDecision * option policyErr :=
  if remote then
    (mkDecision false (lit "policy is evaluated by the listener; not available in this process") [] [] [] None,
     Some PolicyRemoteOnly)
  else match q with
  | None => (mkDecision true [] [] [] [] None, None)
  | Some f =>
      match f (policy_input p) with
      | Err e => (no_decision, Some (PolicyEvalFailed e))
      | Ok [] => (mkDecision false (lit "policy: no decision (empty result set)") [] [] [] None, None)
      | Ok (JObject m :: _) => (decide_document m, None)
      | Ok (_ :: _) => (mkDecision false (lit "policy: malformed decision document") [] [] [] None, None)
      end
  end.

(** ** Roles *)

Definition names (l : list string) : list bytes := map lit l.
Definition is_one_of (x : bytes) (l : list string) : bool := bool_decide (x ∈ names l).

Definition IsPrivilegedRole (role : bytes) : bool :=
  is_one_of role ["adssh-admin"; "os-root"; "gridops"]%string.
Definition FilterUnprivileged (groups : list bytes) : list bytes :=
  List.filter (fun g => negb (IsPrivilegedRole g)) groups.
Fixpoint privileged_from (groups seen : list bytes) : list bytes :=
  match groups with
  | [] => []
  | g :: l => if negb (IsPrivilegedRole g) || bool_decide (g ∈ seen) then privileged_from l seen
              else g :: privileged_from l (g :: seen)
  end.
Definition PrivilegedEligible (groups : list bytes) : list bytes := privileged_from groups [].
Definition AgentCommandAllowed (name : bytes) : bool :=
  is_one_of name ["worktree"; "repo"; "runbook"; "par"; "why"; "??"; "evidence"; "lease"]%string.

(** ** Capabilities *)

Definition dedupeSorted (l : list bytes) : list bytes :=
  sort_strings (elements (list_to_set l : gset bytes)).

Definition nsCapabilities (ns : bytes) : option (list bytes) :=
  if bool_decide (ns = lit "net") then Some (names ["net"; "tcp"])
  else if bool_decide (ns = lit "re") then Some (names ["regex"])
  else if bool_decide (ns = lit "db") then Some (names ["databases"])
  else if bool_decide (ns = lit "fs") then Some (names ["fileops"])
  else if bool_decide (ns = lit "crypto") then Some (names ["crypto"])
  else if bool_decide (ns = lit "data") then Some (names ["data"])
  else if is_one_of ns ["cloud"; "aws"; "gcp"; "azure"; "oci"]%string then Some (names ["cloud"])
  else if bool_decide (ns = lit "k8s") then Some (names ["k8s"])
  else if is_one_of ns ["docker"; "containers"]%string then Some (names ["containers"])
  else if bool_decide (ns = lit "secrets") then Some (names ["secrets"; "security"])
  else if bool_decide (ns = lit "sec") then Some (names ["security"])
  else if bool_decide (ns = lit "vcs") then Some (names ["vcs"])
  else if bool_decide (ns = lit "notify") then Some (names ["notify"])
  else if is_one_of ns ["template"; "i18n"]%string then Some (names ["template"])
  else if bool_decide (ns = lit "str") then Some (names ["strings"])
  else if bool_decide (ns = lit "expect") then Some (names ["proc"; "stdio"])
  else if bool_decide (ns = lit "log") then Some (names ["audit"])
  else None.

Definition netDeviceCapabilities (cmd : bytes) : option (list bytes) :=
  if bool_decide (cmd = lit "/dev/tcp") then Some (names ["net"; "tcp"])
  else if bool_decide (cmd = lit "/dev/udp") then Some (names ["net"])
  else None.

Definition sysCapabilities (fn : bytes) : list bytes :=
  if is_one_of fn ["read_file"; "write_file"]%string then names ["fileops"]
  else if is_one_of fn ["exec_cmd"; "exec_async"; "exec_json"; "parallel"; "load_plugin";
                        "load_plugins"; "load_agent"]%string then names ["proc"; "stdio"]
  else names ["stdio"].

Definition dnsMutation (parts : list bytes) : bool :=
  match parts with
  | a :: b :: c :: _ =>
      bool_decide (a = lit "aws") && bool_decide (b = lit "route53")
      && is_one_of c ["upsert_record"; "delete_record"]%string
  | _ => false
  end.

Definition starlarkPrefix : bytes := lit "starlark.".

Definition ClassifyCapabilities (command : bytes) : list bytes :=
  match netDeviceCapabilities command with
  | Some caps => dedupeSorted caps
  | None =>
      if negb (has_prefix starlarkPrefix command) then []
      else
        let rest := drop (length starlarkPrefix) command in
        match rest with
        | [] => names ["unclassified"]
        | _ =>
            let parts := split_byte "." rest in
            let ns := hd [] parts in
            if bool_decide (ns = lit "sys") then dedupeSorted (sysCapabilities (nth 1 parts []))
            else match nsCapabilities ns with
                 | Some caps => dedupeSorted (if dnsMutation parts then caps ++ names ["dns"] else caps)
                 | None => names ["unclassified"]
                 end
        end
  end.

(** ** Entitlements *)

Record EntitlementsConfig := mkEnt {
  Groups : gmap bytes (list bytes); Users : gmap bytes (list bytes); Menus : gmap bytes bytes }.

(** The loaded configuration and whether a file was loaded. *)
Record entState := mkEntState { entitlements : EntitlementsConfig; entitlementsLoaded : bool }.
Definition noEntitlements : entState := mkEntState (mkEnt ∅ ∅ ∅) false.

(** [file] is the content read, absent when the read fails; [unmarshal] is the
    YAML decoder, which updates the configuration and may fail. *)
Definition LoadEntitlements (unmarshal : bytes -> EntitlementsConfig -> EntitlementsConfig * bool)
  (file : option bytes) (e : entState) : bool * entState :=
  match file with
  | None => (false, e)
  | Some data =>
      let '(c, ok) := unmarshal data (entitlements e) in
      (ok, mkEntState c (ok || entitlementsLoaded e))
  end.

Definition names_command (cmds : list bytes) (command : bytes) : bool :=
  existsb (fun c => bool_decide (c = command) || bool_decide (c = lit "*")) cmds.

Definition IsAuthorized (c : EntitlementsConfig) (user : bytes) (principals : list bytes)
  (command : bytes) : bool :=
  if (Z.of_nat (size (Groups c)) =? 0) && (Z.of_nat (size (Users c)) =? 0) then false
  else match Users c !! user with
       | Some cmds => names_command cmds command
       | None => false
       end
    || existsb (fun p => match Groups c !! p with
                         | Some cmds => names_command cmds command
                         | None => false
                         end) principals.

Definition sortedKeys (s : gset bytes) : list bytes := sort_strings (elements s).

Definition user_entry (name : bytes) : bytes := lit "user:" ++ name.
Definition group_entry (name : bytes) : bytes := lit "group:" ++ name.

Definition EntitlementsHeld (c : EntitlementsConfig) (user : bytes) (principals : list bytes) : list bytes :=
  sortedKeys
    ((if bool_decide (is_Some (Users c !! user)) && negb (bool_decide (user = []))
      then {[user_entry user]} else ∅) ∪
     list_to_set (map group_entry
       (List.filter (fun p => bool_decide (is_Some (Groups c !! p))) principals))).

Definition granting (entry : bytes -> bytes) (m : gmap bytes (list bytes)) (command : bytes) : list bytes :=
  map (fun e => entry (fst e)) (List.filter (fun e => names_command (snd e) command) (map_to_list m)).

Definition EntitlementsGranting (c : EntitlementsConfig) (command : bytes) : list bytes :=
  sortedKeys (list_to_set (granting user_entry (Users c) command ++ granting group_entry (Groups c) command)).

Definition EntitledCommands (c : EntitlementsConfig) (user : bytes) (principals : list bytes) : list bytes :=
  sortedKeys (list_to_set (
    (if bool_decide (user = []) then [] else default [] (Users c !! user)) ++
    concat (map (fun p => default [] (Groups c !! p)) principals))).

Definition GetMenuForUser (c : EntitlementsConfig) (user : bytes) (principals : list bytes) : bytes :=
  match Menus c !! user with
  | Some m => m
  | None => hd [] (omap (fun p => Menus c !! p) principals)
  end.

Definition HasExplicitEntitlement (c : EntitlementsConfig) (user command : bytes) : bool :=
  if bool_decide (user = []) || bool_decide (command = []) || bool_decide (command = lit "*") then false
  else bool_decide (command ∈ default [] (Users c !! user)).

(** ** Bound identities *)

Record sessionIdentity := mkIdentity { id_user : bytes; id_groups : list bytes; id_refs : Z }.

Inductive bindErr := BindEmptySession | BindEmptyUser | BindOther.

Definition BindSessionIdentity (sid user : bytes) (groups : list bytes)
  (ids : gmap bytes sessionIdentity) : result bindErr (gmap bytes sessionIdentity) :=
  if bool_decide (sid = []) then Err BindEmptySession
  else if bool_decide (user = []) then Err BindEmptyUser
  else match ids !! sid with
  | Some cur =>
      if negb (bool_decide (id_user cur = user)) || negb (bool_decide (id_groups cur = groups))
      then Err BindOther
      else Ok (<[sid := mkIdentity (id_user cur) (id_groups cur) (id_refs cur + 1)]> ids)
  | None => Ok (<[sid := mkIdentity user groups 1]> ids)
  end.

Definition UnbindSessionIdentity (sid : bytes) (ids : gmap bytes sessionIdentity)
  : gmap bytes sessionIdentity :=
  match ids !! sid with
  | None => ids
  | Some cur =>
      if id_refs cur - 1 <=? 0 then delete sid ids
      else <[sid := mkIdentity (id_user cur) (id_groups cur) (id_refs cur - 1)]> ids
  end.

(** ** The context of a command *)

Definition addSessionClaims (now : Z) (p : PolicyContext) (s : Session) : PolicyContext * Session :=
  let '(e, s) := ActiveElevation now s in
  let agent := match s_agentBinding s with
               | Some a => if now <? ag_ExpiresAt a
                           then Some (mkAgentClaim (ag_ID a) (lit "cloud") (lit "worktree") false (s_ID s))
                           else p_Agent p
               | None => p_Agent p
               end in
  (mkPctx (p_User p) (match e with Some x => p_Groups p ++ [el_Role x] | None => p_Groups p end)
     (p_Command p) (p_Args p) (p_Capabilities p) (p_Time p) (p_SessionID p)
     (match e with
      | Some x => Some (mkElevationClaim (el_Role x) (el_Reason x) (rfc3339 (el_ExpiresAt x)))
      | None => p_Elevation p
      end) (p_Gateway p) (p_Lease p) (p_ExecLease p) agent (p_Snoop p) (p_IdentityUnknown p), s).

(** [CurrentOSIdentity] is the argument [os]. *)
Definition buildPolicyContext (os : bytes * list bytes) (now : Z) (ids : gmap bytes sessionIdentity)
  (command : bytes) (args : list bytes) (sid : bytes) (r : registry) : PolicyContext * registry :=
  let pctx user groups unknown :=
    mkPctx user groups command args [] (rfc3339 now) sid None None None None None None unknown in
  let with_claims p :=
    match GetSession sid r with
    | Some s => let '(p', s') := addSessionClaims now p s in
                (p', mkReg (<[sid := s']> (globalSessions r)) (unregisterHooks r) (unregisterHookSeq r))
    | None => (p, r)
    end in
  if bool_decide (sid = []) then (pctx (fst os) (snd os) false, r)
  else match ids !! sid with
  | Some i => with_claims (pctx (id_user i) (id_groups i) false)
  | None =>
      match GetSession sid r with
      | Some s => with_claims (pctx (s_User s) (s_Principals s) false)
      | None => (pctx [] [] true, r)
      end
  end.

(** ** What a decision allows *)

Definition absent_or_string (v : option jval) : Prop :=
  match v with None | Some (JString _) => True | _ => False end.

Lemma decide_document_allowed m :
  Allowed (decide_document m) = true <->
  get (lit "allow") m = Some (JBool true) /\
  absent_or_string (get (lit "rule") m) /\ absent_or_string (get (lit "required_entitlement") m).
Proof.
  unfold decide_document, absent_or_string.
  destruct (get (lit "rule") m) as [[]|]; cbn; try (split; [done|intros (_ & [] & _)]).
  all: destruct (get (lit "required_entitlement") m) as [[]|]; cbn; try (split; [done|intros (_ & _ & [])]).
  all: destruct (get (lit "allow") m) as [[| [] | | | |]|]; cbn; intuition congruence.
Qed.

Lemma policy_allowed remote q p :
  Allowed (fst (EvaluatePolicyDecision remote q p)) = true <->
  remote = false /\
  (q = None \/
   exists f m rest, q = Some f /\ f (policy_input p) = Ok (JObject m :: rest) /\
     get (lit "allow") m = Some (JBool true) /\
     absent_or_string (get (lit "rule") m) /\ absent_or_string (get (lit "required_entitlement") m)).
Proof.
  unfold EvaluatePolicyDecision. destruct remote; [split; [done|intros [? _]; done]|].
  destruct q as [f|]; [|split; [intros _; split; [done|by left]|done]].
  destruct (f (policy_input p)) as [[|[] rest]|e] eqn:E; cbn.
  all: try (split; [done|intros (_ & [H|(f' & m' & rest' & [= <-] & H & _)]); congruence]).
  rewrite decide_document_allowed. split.
  - intros H. split; [done|]. right. by exists f, m, rest.
  - intros (_ & [H|(f' & m' & rest' & [= <-] & H & ?)]); [done|]. rewrite E in H. by injection H as -> ->.
Qed.

(** C12: A decision allows exactly when the process evaluates policy itself
    and either no policy is loaded or the query succeeds with a first result
    that is an object whose allow is the boolean true and whose rule and
    required_entitlement are absent or strings; it reports an error exactly
    when the process is remote or the query fails. *)
Theorem policy_allows_iff remote q p :
  (Allowed (fst (EvaluatePolicyDecision remote q p)) = true <->
   remote = false /\
   (q = None \/
    exists f m rest, q = Some f /\ f (policy_input p) = Ok (JObject m :: rest) /\
      get (lit "allow") m = Some (JBool true) /\
      absent_or_string (get (lit "rule") m) /\ absent_or_string (get (lit "required_entitlement") m))) /\
  (snd (EvaluatePolicyDecision remote q p) = None <->
   remote = false /\ forall f e, q = Some f -> f (policy_input p) <> Err e).
Proof.
  split; [apply policy_allowed|]. unfold EvaluatePolicyDecision.
  destruct remote; [split; [done|intros [? _]; done]|].
  destruct q as [f|]; [|split; [|done]; intros _; split; [done|]; congruence].
  destruct (f (policy_input p)) as [[|[] rest]|e] eqn:E; cbn.
  all: split; [intros H|intros [_ H]]; try done.
  all: try (split; [done|]; intros f' e' [= <-]; congruence).
  exfalso. by apply (H f e).
Qed.

(** ** Capabilities *)

Lemma dedupeSorted_elem x l : x ∈ dedupeSorted l <-> x ∈ l.
Proof. unfold dedupeSorted. rewrite elem_of_sort_strings, elem_of_elements. set_solver. Qed.

Lemma dedupeSorted_sorted l : StronglySorted bytes_le (dedupeSorted l) /\ NoDup (dedupeSorted l).
Proof. split; [apply sort_strings_sorted|apply NoDup_sort_strings, NoDup_elements]. Qed.

Lemma dedupeSorted_nonnil l : l <> [] -> dedupeSorted l <> [].
Proof.
  destruct l as [|x l]; [done|]. intros _ E. apply (not_elem_of_nil x). rewrite <- E.
  apply dedupeSorted_elem. by left.
Qed.

Lemma not_in_names (x : bytes) (l : list bytes) : bool_decide (x ∈ l) = false -> x ∉ l.
Proof. apply bool_decide_eq_false_1. Qed.

Lemma nsCapabilities_nonnil ns caps : nsCapabilities ns = Some caps -> caps <> [] /\ lit "unclassified" ∉ caps.
Proof.
  unfold nsCapabilities. intros H.
  repeat match type of H with
  | (if ?b then _ else _) = _ =>
      destruct b; [injection H as <-; split; [done|]; apply not_in_names; reflexivity|]
  end. done.
Qed.

Lemma sysCapabilities_nonnil fn : sysCapabilities fn <> [] /\ lit "unclassified" ∉ sysCapabilities fn.
Proof.
  unfold sysCapabilities. repeat case_match; (split; [done|]); apply not_in_names; reflexivity.
Qed.

Definition namespace_of (rest : bytes) : bytes := hd [] (split_byte "." rest).

(** The capability classes of a command are sorted and distinct; a command has
    none exactly when it is neither a network device command nor a Starlark
    path, and the class unclassified exactly when it is a Starlark path whose
    name space has no table entry and is not sys. *)
Theorem capabilities_classified command :
  (StronglySorted bytes_le (ClassifyCapabilities command) /\ NoDup (ClassifyCapabilities command)) /\
  (ClassifyCapabilities command = [] <->
     netDeviceCapabilities command = None /\ has_prefix starlarkPrefix command = false) /\
  (lit "unclassified" ∈ ClassifyCapabilities command <->
     exists rest, command = starlarkPrefix ++ rest /\
       (rest = [] \/ (namespace_of rest <> lit "sys" /\ nsCapabilities (namespace_of rest) = None))).
Proof.
  assert (Hone : StronglySorted bytes_le (names ["unclassified"]) /\ NoDup (names ["unclassified"])).
  { split; [repeat constructor|apply NoDup_singleton]. }
  unfold ClassifyCapabilities. destruct (netDeviceCapabilities command) as [caps|] eqn:En.
  { unfold netDeviceCapabilities in En.
    assert (Hc : (command = lit "/dev/tcp" \/ command = lit "/dev/udp") /\ caps <> [] /\ lit "unclassified" ∉ caps).
    { repeat case_bool_decide; try done; injection En as <-; (split; [tauto|split; [done|]]);
        apply not_in_names; reflexivity. }
    destruct Hc as (Hc & Hne & Hun). split; [apply dedupeSorted_sorted|]. split.
    - split; [intros H; by apply dedupeSorted_nonnil in H|by intros [? _]].
    - rewrite dedupeSorted_elem. split; [done|]. intros (rest & -> & _). by destruct Hc as [Hc|Hc]. }
  destruct (has_prefix starlarkPrefix command) eqn:Ep; cbn [negb].
  2:{ split; [split; constructor|]. split; [done|]. split; [intros H; by apply elem_of_nil in H|].
      intros (rest & -> & _). by rewrite has_prefix_app in Ep. }
  apply has_prefix_spec in Ep as [rest ->]. rewrite drop_app_length.
  assert (Hx : (exists rest', starlarkPrefix ++ rest = starlarkPrefix ++ rest' /\
      (rest' = [] \/ (namespace_of rest' <> lit "sys" /\ nsCapabilities (namespace_of rest') = None))) <->
      (rest = [] \/ (namespace_of rest <> lit "sys" /\ nsCapabilities (namespace_of rest) = None))).
  { split; [intros (r & E & H); apply app_inv_head in E; by subst|intros H; by exists rest]. }
  rewrite Hx. destruct rest as [|c rest].
  { split; [exact Hone|]. split; [by split; [|intros [_ ?]]|]. split; [by left|]. intros _. by left. }
  set (r := c :: rest). fold (namespace_of r). destruct (decide (namespace_of r = lit "sys")) as [Es|Es].
  - rewrite bool_decide_true by done. split; [apply dedupeSorted_sorted|].
    destruct (sysCapabilities_nonnil (nth 1 (split_byte "." r) [])) as [H1 H2].
    split; [split; [by intros H%dedupeSorted_nonnil|by intros [_ ?]]|].
    rewrite dedupeSorted_elem. split; [done|]. intros [?|[? _]]; done.
  - rewrite bool_decide_false by done. destruct (nsCapabilities (namespace_of r)) as [caps|] eqn:Ec.
    + destruct (nsCapabilities_nonnil _ _ Ec) as [H1 H2]. split; [apply dedupeSorted_sorted|].
      split.
      * split; [|by intros [_ ?]]. intros H. exfalso. revert H. apply dedupeSorted_nonnil.
        destruct (dnsMutation _); [by destruct caps|done].
      * rewrite dedupeSorted_elem. split; [|intros [?|[_ ?]]; done].
        destruct (dnsMutation _); [|done]. rewrite elem_of_app. intros [H|H]; [done|].
        exfalso. revert H. apply not_in_names. reflexivity.
    + split; [exact Hone|]. split; [by split; [|intros [_ ?]]|]. split; [intros _; by right|by left].
Qed.

(** ** Entitlements *)

Lemma sortedKeys_elem x s : x ∈ sortedKeys s <-> x ∈ s.
Proof. unfold sortedKeys. by rewrite elem_of_sort_strings, elem_of_elements. Qed.

Lemma entries_disjoint a b : user_entry a <> group_entry b.
Proof. by vm_compute. Qed.

Lemma elem_of_granting (entry : bytes -> bytes) (m : gmap bytes (list bytes)) cmd x :
  x ∈ granting entry m cmd <-> exists name cmds, x = entry name /\ m !! name = Some cmds /\
    names_command cmds cmd = true.
Proof.
  unfold granting. rewrite list_elem_of_In, in_map_iff. split.
  - intros ([name cmds] & <- & H). apply filter_In in H as [H1 H2]. exists name, cmds.
    rewrite <- list_elem_of_In, elem_of_map_to_list in H1. done.
  - intros (name & cmds & -> & H1 & H2). exists (name, cmds). split; [done|].
    apply filter_In. split; [|done]. by rewrite <- list_elem_of_In, elem_of_map_to_list.
Qed.

Lemma elem_of_held c user principals x :
  x ∈ EntitlementsHeld c user principals <->
  (user <> [] /\ is_Some (Users c !! user) /\ x = user_entry user) \/
  (exists p, p ∈ principals /\ is_Some (Groups c !! p) /\ x = group_entry p).
Proof.
  unfold EntitlementsHeld. rewrite sortedKeys_elem, elem_of_union, elem_of_list_to_set.
  rewrite list_elem_of_In, in_map_iff.
  assert (Hu : x ∈ (if bool_decide (is_Some (Users c !! user)) && negb (bool_decide (user = []))
      then ({[user_entry user]} : gset bytes) else ∅) <->
      user <> [] /\ is_Some (Users c !! user) /\ x = user_entry user).
  { do 2 case_bool_decide; cbn; rewrite ?elem_of_singleton, ?elem_of_empty; tauto. }
  rewrite Hu. apply or_iff_compat_l. split.
  - intros (p & <- & H). apply filter_In in H as [H1 H2]. exists p. rewrite list_elem_of_In. bsimp. done.
  - intros (p & H1 & H2 & ->). exists p. split; [done|]. apply filter_In.
    rewrite <- list_elem_of_In, bool_decide_true by done. done.
Qed.

Lemma IsAuthorized_iff c user principals cmd :
  IsAuthorized c user principals cmd = true <->
  (exists cmds, Users c !! user = Some cmds /\ names_command cmds cmd = true) \/
  (exists p cmds, p ∈ principals /\ Groups c !! p = Some cmds /\ names_command cmds cmd = true).
Proof.
  unfold IsAuthorized. split.
  - destruct (_ && _); [done|]. intros H. apply orb_true_iff in H as [H|(p & Hp & H)%existsb_exists].
    + left. destruct (Users c !! user) as [cmds|]; [by exists cmds|done].
    + right. exists p. apply list_elem_of_In in Hp. destruct (Groups c !! p) as [cmds|]; [by exists cmds|done].
  - intros H.
    assert ((Z.of_nat (size (Groups c)) =? 0) && (Z.of_nat (size (Users c)) =? 0) = false) as ->.
    { apply andb_false_iff. destruct H as [(cmds & Hu & _)|(p & cmds & _ & Hp & _)]; [right|left];
        apply Z.eqb_neq; intros E.
      - assert (E' : size (Users c) = 0%nat) by lia. apply map_size_empty_inv in E'.
        rewrite E', lookup_empty in Hu. done.
      - assert (E' : size (Groups c) = 0%nat) by lia. apply map_size_empty_inv in E'.
        rewrite E', lookup_empty in Hp. done. }
    apply orb_true_iff.
    destruct H as [(cmds & Hu & ?)|(p & cmds & Hin & Hp & ?)]; [left; by rewrite Hu|right].
    apply existsb_exists. exists p. rewrite <- list_elem_of_In, Hp. done.
Qed.

(** A named user is authorized for a command exactly when one of the
    entitlements why lists as held is among those it lists as granting the
    command. *)
Theorem entitlements_explained c user principals cmd :
  user <> [] ->
  IsAuthorized c user principals cmd = true <->
  exists e, e ∈ EntitlementsHeld c user principals /\ e ∈ EntitlementsGranting c cmd.
Proof.
  intros Hne. rewrite IsAuthorized_iff. unfold EntitlementsGranting. split.
  - intros [(cmds & Hu & Hc)|(p & cmds & Hp & Hg & Hc)].
    + exists (user_entry user). rewrite elem_of_held, sortedKeys_elem, elem_of_list_to_set, elem_of_app, !elem_of_granting.
      split; [left; by rewrite Hu|]. left. by exists user, cmds.
    + exists (group_entry p). rewrite elem_of_held, sortedKeys_elem, elem_of_list_to_set, elem_of_app, !elem_of_granting.
      split; [right; exists p; by rewrite Hg|]. right. by exists p, cmds.
  - intros (e & H1 & H2).
    rewrite elem_of_held in H1. rewrite sortedKeys_elem, elem_of_list_to_set, elem_of_app, !elem_of_granting in H2.
    destruct H1 as [(_ & _ & ->)|(p & Hp & _ & ->)], H2 as [(n & cmds & E & Hm & Hc)|(n & cmds & E & Hm & Hc)].
    + left. exists cmds. apply app_inv_head in E as <-. done.
    + by apply entries_disjoint in E.
    + by symmetry in E; apply entries_disjoint in E.
    + right. exists p, cmds. apply app_inv_head in E as <-. done.
Qed.

(** ** Bound identities *)

Inductive id_op := DoBind (sid user : bytes) (groups : list bytes) | DoUnbind (sid : bytes).

Definition id_step (ids : gmap bytes sessionIdentity) (op : id_op) : gmap bytes sessionIdentity :=
  match op with
  | DoBind sid user groups => match BindSessionIdentity sid user groups ids with Ok m => m | Err _ => ids end
  | DoUnbind sid => UnbindSessionIdentity sid ids
  end.

(** Bindings an operation adds for a session id already bound to a principal. *)
Definition id_delta (sid user : bytes) (groups : list bytes) (op : id_op) : Z :=
  match op with
  | DoBind s u g => if bool_decide (s = sid /\ u = user /\ g = groups) then 1 else 0
  | DoUnbind s => if bool_decide (s = sid) then -1 else 0
  end.

(** The count stays positive all the way. *)
Fixpoint stays_bound (sid user : bytes) (groups : list bytes) (n : Z) (ops : list id_op) : Prop :=
  match ops with
  | [] => True
  | op :: l => 0 < n + id_delta sid user groups op /\
      stays_bound sid user groups (n + id_delta sid user groups op) l
  end.

Definition id_total (sid user : bytes) (groups : list bytes) (ops : list id_op) : Z :=
  foldr (fun op n => id_delta sid user groups op + n) 0 ops.

Lemma id_step_bound sid user groups n ids op :
  ids !! sid = Some (mkIdentity user groups n) -> user <> [] -> sid <> [] ->
  0 < n + id_delta sid user groups op ->
  id_step ids op !! sid = Some (mkIdentity user groups (n + id_delta sid user groups op)).
Proof.
  intros Hs Hu Hne Hpos. destruct op as [s u g|s]; cbn [id_step id_delta] in *.
  - unfold BindSessionIdentity. destruct (decide (s = sid)) as [->|Hd].
    2:{ rewrite (bool_decide_false (_ /\ _)) by tauto. rewrite Z.add_0_r.
        repeat case_match; simplify_eq; try done; by rewrite lookup_insert_ne. }
    rewrite Hs. rewrite (bool_decide_false (sid = [])) by done. cbn [id_user id_groups id_refs].
    destruct (decide (u = user)) as [->|Hu'].
    2:{ rewrite (bool_decide_false (_ /\ _)) by tauto. rewrite (bool_decide_false (user = u)) by congruence.
        rewrite Z.add_0_r. cbn [negb orb]. by destruct (bool_decide (u = [])). }
    rewrite (bool_decide_false (user = [])), (bool_decide_true (user = user)) by done.
    destruct (decide (g = groups)) as [->|Hg].
    + rewrite !bool_decide_true by done. cbn [negb orb]. by rewrite lookup_insert_eq.
    + rewrite (bool_decide_false (groups = g)) by congruence.
      rewrite (bool_decide_false (_ /\ _)) by tauto. cbn [negb orb]. by rewrite Z.add_0_r.
  - unfold UnbindSessionIdentity. destruct (decide (s = sid)) as [->|Hd].
    + rewrite bool_decide_true in Hpos |- * by done. rewrite Hs. cbn [id_refs id_user id_groups].
      rewrite (proj2 (Z.leb_gt _ _)) by lia. rewrite lookup_insert_eq. do 2 f_equal.
    + rewrite bool_decide_false by done. rewrite Z.add_0_r.
      destruct (ids !! s) as [cur|]; [|done]. destruct (_ <=? _);
        [by rewrite lookup_delete_ne|by rewrite lookup_insert_ne].
Qed.

(** Over any sequence of bindings and unbindings that does not release the
    last reference, a session stays bound to the identity it was bound to
    first, with the references counted, and another identity cannot be bound
    to it. *)
Theorem bound_identity_stays sid user groups ids ids' ops :
  BindSessionIdentity sid user groups ids = Ok ids' -> ids !! sid = None ->
  stays_bound sid user groups 1 ops ->
  foldl id_step ids' ops !! sid = Some (mkIdentity user groups (1 + id_total sid user groups ops)) /\
  (forall u g, (u <> user \/ g <> groups) -> is_ok (BindSessionIdentity sid u g (foldl id_step ids' ops)) = false).
Proof.
  unfold BindSessionIdentity at 1. intros Hb Hn Hst.
  destruct (bool_decide (sid = [])) eqn:E1; [done|]. destruct (bool_decide (user = [])) eqn:E2; [done|].
  rewrite Hn in Hb. injection Hb as <-. bsimp.
  assert (H : forall n ids, ids !! sid = Some (mkIdentity user groups n) -> stays_bound sid user groups n ops ->
    foldl id_step ids ops !! sid = Some (mkIdentity user groups (n + id_total sid user groups ops))).
  { clear ids Hn Hst. induction ops as [|op ops IH]; intros n ids Hs Hst; cbn in *; [by rewrite Z.add_0_r|].
    destruct Hst as [Hp Hst]. rewrite Z.add_assoc. apply IH; [|done]. by apply id_step_bound. }
  specialize (H 1 (<[sid:=mkIdentity user groups 1]> ids)).
  rewrite lookup_insert_eq in H. specialize (H eq_refl Hst). split; [exact H|].
  intros u g Hd. unfold BindSessionIdentity. rewrite (bool_decide_false (sid = [])) by done.
  case_bool_decide; [done|]. rewrite H. cbn [id_user id_groups].
  destruct Hd as [Hd|Hd].
  - by rewrite (bool_decide_false (user = u)) by congruence.
  - rewrite (bool_decide_false (groups = g)) by congruence. by rewrite orb_true_r.
Qed.

(** ** The principal of a command *)

(** The principal a named session stands for: the bound one, else the
    registered one. *)
Definition principal_of (ids : gmap bytes sessionIdentity) (r : registry) (sid : bytes)
  : option (bytes * list bytes) :=
  match ids !! sid with
  | Some i => Some (id_user i, id_groups i)
  | None => (fun s => (s_User s, s_Principals s)) <$> GetSession sid r
  end.

Definition live_elevation (now : Z) (r : registry) (sid : bytes) : option Elevation :=
  s ← GetSession sid r; e ← s_elevation s; if now <? el_ExpiresAt e then Some e else None.

Lemma context_facts os now ids command args sid r :
  let p := fst (buildPolicyContext os now ids command args sid r) in
  (sid = [] -> p_User p = fst os /\ p_Groups p = snd os /\ p_IdentityUnknown p = false /\
     p_Elevation p = None /\ p_Agent p = None) /\
  (sid <> [] ->
     p_IdentityUnknown p = bool_decide (principal_of ids r sid = None) /\
     (forall user groups, principal_of ids r sid = Some (user, groups) ->
        p_User p = user /\
        p_Groups p = groups ++ match live_elevation now r sid with Some e => [el_Role e] | None => [] end) /\
     (principal_of ids r sid = None -> p_User p = [] /\ p_Groups p = [] /\ p_Elevation p = None)).
Proof.
  cbv zeta. unfold buildPolicyContext. destruct (decide (sid = [])) as [->|Hne].
  { rewrite bool_decide_true by done. split; [done|]. done. }
  rewrite bool_decide_false by done. split; [done|]. intros _.
  assert (Hclaims : forall p s, GetSession sid r = Some s ->
    let p' := fst (addSessionClaims now p s) in
    p_User p' = p_User p /\ p_IdentityUnknown p' = p_IdentityUnknown p /\
    p_Groups p' = p_Groups p ++ match live_elevation now r sid with Some e => [el_Role e] | None => [] end).
  { intros p s Hs. cbv zeta. unfold addSessionClaims, ActiveElevation, live_elevation. rewrite Hs. cbn.
    destruct (s_elevation s) as [e|]; cbn; [|by rewrite app_nil_r].
    destruct (now <? el_ExpiresAt e); cbn; [done|by rewrite app_nil_r]. }
  unfold principal_of, live_elevation in *. destruct (ids !! sid) as [i|].
  - rewrite bool_decide_false by done. destruct (GetSession sid r) as [s|] eqn:Es.
    + match goal with |- context [addSessionClaims now ?p s] => specialize (Hclaims p s eq_refl) end.
      destruct (addSessionClaims _ _ s) as [p' s']. cbn in *. destruct Hclaims as (-> & -> & ->).
      split; [done|]. split; [|done]. intros user groups [= <- <-]. done.
    + cbn. split; [done|]. split; [|done]. intros user groups [= <- <-]. by rewrite app_nil_r.
  - destruct (GetSession sid r) as [s|] eqn:Es; cbn; [|done].
    match goal with |- context [addSessionClaims now ?p s] => specialize (Hclaims p s eq_refl) end.
    destruct (addSessionClaims _ _ s) as [p' s']. cbn in *. destruct Hclaims as (-> & -> & ->).
    split; [done|]. split; [|done]. intros user groups [= <- <-]. done.
Qed.

(** The policy context of a named session does not depend on the process
    identity: it carries the bound principal or, without one, the registered
    user, its groups are those of the principal plus the role of a live
    elevation if there is one, and without either principal the identity is
    unknown. *)
Theorem context_principal os os' now ids command args sid r :
  sid <> [] ->
  let p := fst (buildPolicyContext os now ids command args sid r) in
  buildPolicyContext os' now ids command args sid r = buildPolicyContext os now ids command args sid r /\
  p_IdentityUnknown p = bool_decide (principal_of ids r sid = None) /\
  (forall user groups, principal_of ids r sid = Some (user, groups) ->
     p_User p = user /\
     p_Groups p = groups ++ match live_elevation now r sid with Some e => [el_Role e] | None => [] end).
Proof.
  intros Hne. cbv zeta. split.
  - unfold buildPolicyContext. by rewrite bool_decide_false by done.
  - destruct (proj2 (context_facts os now ids command args sid r) Hne) as (H1 & H2 & _). done.
Qed.

(** ** Concrete principals *)

Definition demoEnt : EntitlementsConfig :=
  mkEnt {[lit "dev" := [lit "git"; lit "ls"]]} {[lit "alice" := [lit "kubectl"]]} ∅.

Lemma entitlements_explained_witness :
  exists e, e ∈ EntitlementsHeld demoEnt (lit "alice") [lit "dev"] /\
            e ∈ EntitlementsGranting demoEnt (lit "git").
Proof.
  apply (entitlements_explained demoEnt (lit "alice") [lit "dev"] (lit "git"));
    [discriminate|vm_compute; reflexivity].
Defined.

Lemma bound_identity_stays_witness :
  foldl id_step {[lit "s" := mkIdentity (lit "alice") [lit "dev"] 1]}
    [DoBind (lit "s") (lit "alice") [lit "dev"]; DoBind (lit "s") (lit "bob") []; DoUnbind (lit "s")]
    !! lit "s" = Some (mkIdentity (lit "alice") [lit "dev"] 1).
Proof.
  apply (bound_identity_stays (lit "s") (lit "alice") [lit "dev"] ∅
    {[lit "s" := mkIdentity (lit "alice") [lit "dev"] 1]}
    [DoBind (lit "s") (lit "alice") [lit "dev"]; DoBind (lit "s") (lit "bob") []; DoUnbind (lit "s")]).
  - vm_compute. reflexivity.
  - reflexivity.
  - vm_compute. repeat split.
Defined.

Lemma context_principal_witness :
  p_User (fst (buildPolicyContext (lit "root", []) 5
    {[lit "s1" := mkIdentity (lit "tenant") [] 1]} (lit "ls") [] (lit "s1")
    (mkReg {[lit "s1" := demoSession]} ∅ 0))) = lit "tenant".
Proof.
  apply (context_principal (lit "root", []) (lit "root", []) 5
    {[lit "s1" := mkIdentity (lit "tenant") [] 1]} (lit "ls") [] (lit "s1")
    (mkReg {[lit "s1" := demoSession]} ∅ 0)) with (groups := []);
    [discriminate|vm_compute; reflexivity].
Defined.
