(* ===== verification/AdminPlane.v ===== *)
(** * The admin plane

    security/adminplane_ee.go, security/quarantine_ee.go and
    security/agentbudget_ee.go: the alias rewrite that runs before the gate, the
    quarantine allow-list, and the spend of a managed agent.  The environment
    and the quarantine file's [Lstat] are arguments. *)

From S2P Require Import Prelude GoBytes Session Policy.

Inductive planeErr :=
| AliasApt | AliasSudo | AliasSystemctl | AliasJournalctl
| RawAdminName | Quarantine | SponsorEnded | BudgetSpent.

(** [unitNamePattern] *)
Definition unit_char (c : byte) : bool :=
  is_alnum c || (c =?b ":") || (c =?b "_") || (c =?b ".") || (c =?b "@") || (c =?b "-").
Definition unitNamePattern (s : bytes) : bool :=
  match s with
  | [] => false
  | c :: s' => is_alnum c && forallb unit_char s' && (zlen s' <=? 255)
  end.

Definition rawAdminName (name : bytes) : bool :=
  is_one_of name ["sudo"; "systemctl"; "journalctl"; "apt"; "apt-get"]%string.

(** ** The rewrite: the new arguments and the note *)

Definition rewriteSudo (args : list bytes) : result planeErr (list bytes * bytes) :=
  if bool_decide (lit "--" ∈ tail args)
  then Ok (lit "do" :: tail args, lit "alias: sudo → do")
  else Err AliasSudo.

Definition rewriteSystemctl (args : list bytes) : result planeErr (list bytes * bytes) :=
  match args with
  | [_; verb; unit] =>
      if is_one_of verb ["status"; "restart"; "stop"]%string && unitNamePattern unit
      then Ok ([lit "unit"; verb; unit], lit "alias: systemctl → unit")
      else Err AliasSystemctl
  | _ => Err AliasSystemctl
  end.

Definition journalctlUnit (args : list bytes) : option bytes :=
  match args with
  | [_; a; b] => if bool_decide (a = lit "-u") then Some b else None
  | [_; a; b; c] =>
      if bool_decide (a = lit "-u") && bool_decide (c = lit "--no-pager") then Some b
      else if bool_decide (a = lit "--no-pager") && bool_decide (b = lit "-u") then Some c
      else None
  | _ => None
  end.

Definition rewriteJournalctl (args : list bytes) : result planeErr (list bytes * bytes) :=
  match journalctlUnit args with
  | Some name => if unitNamePattern name
                 then Ok ([lit "unit"; lit "logs"; name], lit "alias: journalctl → unit logs")
                 else Err AliasJournalctl
  | None => Err AliasJournalctl
  end.

Definition rewriteAdminPlane (args : list bytes) : result planeErr (list bytes * bytes) :=
  match args with
  | [] => Ok (args, [])
  | name :: _ =>
      let base := path_base name in
      if bool_decide (base = lit "sudo") then rewriteSudo args
      else if bool_decide (base = lit "systemctl") then rewriteSystemctl args
      else if bool_decide (base = lit "journalctl") then rewriteJournalctl args
      else if bool_decide (base = lit "apt") || bool_decide (base = lit "apt-get") then Err AliasApt
      else Ok (args, [])
  end.

(** ** Quarantine *)

Inductive lstatResult := Present | Missing | LstatFailed.

Record planeEnv := mkPlaneEnv { pe_getenv : bytes -> bytes; pe_lstat : bytes -> lstatResult }.

Definition lower (c : byte) : byte :=
  let z := byte_val c in if (65 <=? z) && (z <=? 90) then byte_of (z + 32) else c.
Definition envTruthy (v : bytes) : bool :=
  is_one_of (map lower (trim_space v)) ["1"; "true"; "yes"]%string.

Definition quarantineActive (env : planeEnv) : bool :=
  if envTruthy (pe_getenv env (lit "ADSSH_QUARANTINE")) then true
  else
    let file := pe_getenv env (lit "ADSSH_QUARANTINE_FILE") in
    if bool_decide (file = []) then false
    else match pe_lstat env file with Missing => false | _ => true end.

Definition quarantineAllows (env : planeEnv) (args : list bytes) : bool :=
  match args with
  | [] => false
  | name :: rest =>
      let base := path_base name in
      if is_one_of base ["journal"; "net"; "disk"; "posture"; "asof"; "why"; "evidence"]%string then true
      else if bool_decide (base = lit "host") then
        match rest with [sub] => is_one_of sub ["drift"; "status"; "verify"]%string | _ => false end
      else if bool_decide (base = lit "unit") then
        match rest with
        | [sub] => is_one_of sub ["check"; "timers"]%string
        | [sub; unit] =>
            if is_one_of sub ["status"; "logs"]%string && unitNamePattern unit then true
            else if bool_decide (sub = lit "restart") then
              let agent := pe_getenv env (lit "ADSSH_AGENT_UNIT") in
              negb (bool_decide (agent = [])) && bool_decide (unit = agent) && unitNamePattern unit
            else false
        | _ => false
        end
      else false
  end.

(** ** Agent budgets *)

Record AgentBudget := mkBudget {
  b_Allow : list bytes; b_Cmds : Z; b_Bytes : Z; b_Deadline : Z; b_Sponsor : bytes }.
Record agentCharge := mkCharge {
  c_allow : gset bytes; c_cmdsLeft : Z; c_bytesLeft : Z; c_deadline : Z; c_sponsor : bytes }.

Abbreviation budgets := (gmap bytes agentCharge).

Definition BindAgentBudget (sid : bytes) (b : AgentBudget) (m : budgets) : bool * budgets :=
  if bool_decide (sid = []) then (false, m)
  else (true, <[sid := mkCharge (list_to_set (b_Allow b)) (b_Cmds b) (b_Bytes b) (b_Deadline b) (b_Sponsor b)]> m).

Definition ClearAgentBudget (sid : bytes) (m : budgets) : budgets := delete sid m.

Definition chargeAgentCommand (now : Z) (r : registry) (sid name : bytes) (m : budgets)
  : option planeErr * budgets :=
  match m !! sid with
  | None => (None, m)
  | Some ch =>
      let sponsor_live :=
        negb (bool_decide (c_sponsor ch = [])) &&
        match GetSession (c_sponsor ch) r with Some s => negb (s_terminated s) | None => false end in
      if negb sponsor_live then (Some SponsorEnded, m)
      else if negb (bool_decide (name ∈ c_allow ch)) then (Some BudgetSpent, m)
      else if negb (c_deadline ch =? 0) && negb (now <? c_deadline ch) then (Some BudgetSpent, m)
      else if (c_cmdsLeft ch <=? 0) || (c_bytesLeft ch <=? 0) then (Some BudgetSpent, m)
      else (None, <[sid := mkCharge (c_allow ch) (c_cmdsLeft ch - 1) (c_bytesLeft ch - 1)
                             (c_deadline ch) (c_sponsor ch)]> m)
  end.

Definition adminPlaneCheck (env : planeEnv) (now : Z) (r : registry) (sid : bytes) (args : list bytes)
  (m : budgets) : option planeErr * budgets :=
  match args with
  | name :: _ =>
      if rawAdminName (path_base name) then (Some RawAdminName, m)
      else if quarantineActive env && negb (quarantineAllows env args) then (Some Quarantine, m)
      else chargeAgentCommand now r sid (path_base name) m
  | [] => if quarantineActive env && negb (quarantineAllows env args) then (Some Quarantine, m) else (None, m)
  end.

(** ** The rewrite hides no raw name from the gate *)

(** The alias rewrite leaves every command whose base name is not a raw admin
    name as it is, and turns each raw one that it does not refuse into do with
    a -- separator or into unit with a known verb and a unit name of the
    source words that matches the unit pattern, with a note. *)
Theorem rewrite_governed args args' note :
  rewriteAdminPlane args = Ok (args', note) ->
  (args' = args /\ note = [] /\ (forall name rest, args = name :: rest -> rawAdminName (path_base name) = false)) \/
  (exists name rest, args = name :: rest /\ rawAdminName (path_base name) = true /\ note <> [] /\
     ((args' = lit "do" :: rest /\ lit "--" ∈ rest) \/
      (exists verb unit, args' = [lit "unit"; verb; unit] /\ unitNamePattern unit = true /\ In unit rest /\
         is_one_of verb ["status"; "restart"; "stop"; "logs"]%string = true))).
Proof.
  unfold rewriteAdminPlane, rawAdminName.
  destruct args as [|name rest]; [intros [= <- <-]; by left|]. set (base := path_base name).
  destruct (decide (base = lit "sudo")) as [Es|Es].
  { rewrite (bool_decide_true (base = _)) by done. unfold rewriteSudo. cbn [tail].
    case_bool_decide as H; [|done]. intros [= <- <-]. right. exists name, rest. fold base. rewrite Es.
    split_and!; try done. by left. }
  rewrite (bool_decide_false (base = lit "sudo")) by done.
  destruct (decide (base = lit "systemctl")) as [Ey|Ey].
  { rewrite bool_decide_true by done. unfold rewriteSystemctl.
    destruct rest as [|verb [|unit [|]]]; try done. destruct (_ && _) eqn:E; [|done].
    apply andb_true_iff in E as [E1 E2]. intros [= <- <-]. right. exists name, [verb; unit]. fold base.
    rewrite Ey. split_and!; try done. right. exists verb, unit. split_and!; try done; [right; by left|].
    unfold is_one_of in *. apply bool_decide_eq_true in E1. apply bool_decide_eq_true.
    unfold names in *. cbn [map] in *. rewrite !elem_of_cons in *. tauto. }
  rewrite (bool_decide_false (base = lit "systemctl")) by done.
  destruct (decide (base = lit "journalctl")) as [Ej|Ej].
  { rewrite bool_decide_true by done. unfold rewriteJournalctl, journalctlUnit.
    intros H. right. exists name, rest. fold base. rewrite Ej. split; [done|]. split; [done|].
    destruct rest as [|a [|b [|c [|]]]]; try done.
    - case_bool_decide; [|done]. destruct (unitNamePattern b) eqn:Eu; [|done]. injection H as <- <-.
      split; [done|]. right. exists (lit "logs"), b. split_and!; try done. right. by left.
    - destruct (_ && _); [|destruct (_ && _); [|done]].
      + destruct (unitNamePattern b) eqn:Eu; [|done]. injection H as <- <-.
        split; [done|]. right. exists (lit "logs"), b. split_and!; try done. right. by left.
      + destruct (unitNamePattern c) eqn:Eu; [|done]. injection H as <- <-.
        split; [done|]. right. exists (lit "logs"), c. split_and!; try done. right; right. by left. }
  rewrite bool_decide_false by done. destruct (_ || _) eqn:Ea; [done|]. intros [= <- <-].
  left. split_and!; try done. intros n r [= <- <-]. fold base. bsimp.
  apply bool_decide_eq_false. unfold names. cbn [map]. rewrite !elem_of_cons, elem_of_nil. tauto.
Qed.

(** ** What a bound agent can spend *)

Definition charged (o : option planeErr) : bool := match o with None => true | Some _ => false end.

(** Charges of one session, each at its time and table; how many were taken. *)
Fixpoint spend (sid : bytes) (l : list (Z * registry * bytes)) (m : budgets) : Z * budgets :=
  match l with
  | [] => (0, m)
  | (now, r, name) :: l' =>
      let '(o, m1) := chargeAgentCommand now r sid name m in
      let '(n, m2) := spend sid l' m1 in
      ((if charged o then 1 else 0) + n, m2)
  end.

Lemma charge_bound now r sid name m ch :
  m !! sid = Some ch ->
  let '(o, m') := chargeAgentCommand now r sid name m in
  (o = None -> name ∈ c_allow ch /\ 0 < c_cmdsLeft ch /\ 0 < c_bytesLeft ch /\
     (c_deadline ch <> 0 -> now < c_deadline ch) /\
     (exists s, GetSession (c_sponsor ch) r = Some s /\ s_terminated s = false) /\
     m' !! sid = Some (mkCharge (c_allow ch) (c_cmdsLeft ch - 1) (c_bytesLeft ch - 1) (c_deadline ch) (c_sponsor ch))) /\
  (o <> None -> m' = m).
Proof.
  intros Hm. unfold chargeAgentCommand. rewrite Hm.
  destruct (GetSession (c_sponsor ch) r) as [s|] eqn:Es.
  2:{ rewrite andb_false_r. cbn [negb]. by split. }
  destruct (negb (_ && _)) eqn:E1; [by split|].
  apply negb_false_iff, andb_true_iff in E1 as [E0 E1].
  destruct (bool_decide (name ∈ c_allow ch)) eqn:E2; cbn [negb]; [|by split].
  destruct (_ && _) eqn:E3; [by split|]. destruct (_ || _) eqn:E4; [by split|]. split; [|done]. intros _. bsimp.
  split_and!; try done; try lia.
  - by exists s.
  - by rewrite lookup_insert_eq.
Qed.

(** Over any sequence of commands of one session, at any times and with any
    session tables, an agent budget lets through no more commands than its
    command and byte allowances, the charge left is exactly what was not
    spent, and a further command passes only when it is on the list, in
    budget, before the deadline and its sponsor session is live. *)
Theorem agent_spend_bounded sid b m m' l :
  BindAgentBudget sid b m = (true, m') ->
  let '(n, m'') := spend sid l m' in
  0 <= n <= Z.max 0 (b_Cmds b) /\ n <= Z.max 0 (b_Bytes b) /\
  (exists ch, m'' !! sid = Some ch /\ c_cmdsLeft ch = b_Cmds b - n /\ c_bytesLeft ch = b_Bytes b - n) /\
  (forall now r name, fst (chargeAgentCommand now r sid name m'') = None ->
     name ∈ b_Allow b /\ n < b_Cmds b /\ n < b_Bytes b /\ (b_Deadline b <> 0 -> now < b_Deadline b) /\
     exists s, GetSession (b_Sponsor b) r = Some s /\ s_terminated s = false).
Proof.
  unfold BindAgentBudget. case_bool_decide; [done|]. intros [= <-].
  assert (Hgen : forall l m ch, m !! sid = Some ch ->
    let '(n, m'') := spend sid l m in
    0 <= n <= Z.max 0 (c_cmdsLeft ch) /\ n <= Z.max 0 (c_bytesLeft ch) /\
    m'' !! sid = Some (mkCharge (c_allow ch) (c_cmdsLeft ch - n) (c_bytesLeft ch - n) (c_deadline ch) (c_sponsor ch))).
  { clear. induction l as [|[[now r] name] l IH]; intros m ch Hm; cbn [spend].
    - rewrite !Z.sub_0_r, Hm. destruct ch; cbn. split_and!; try done; lia.
    - pose proof (charge_bound now r sid name m ch Hm) as Hc.
      destruct (chargeAgentCommand now r sid name m) as [o m1]. destruct Hc as [H1 H2].
      destruct o as [e|]; cbn [charged].
      + rewrite (H2 ltac:(done)). specialize (IH m ch Hm). destruct (spend sid l m) as [n m2]. exact IH.
      + destruct (H1 eq_refl) as (_ & Hp1 & Hp2 & _ & _ & Hm1). specialize (IH m1 _ Hm1).
        destruct (spend sid l m1) as [n m2]. cbn [c_allow c_cmdsLeft c_bytesLeft c_deadline c_sponsor] in IH.
        destruct IH as (I1 & I2 & I3). rewrite I3. split_and!; try lia. do 2 f_equal; lia. }
  match goal with |- context [spend sid l ?m0] => specialize (Hgen l m0) end.
  rewrite lookup_insert_eq in Hgen. specialize (Hgen _ eq_refl). destruct (spend sid l _) as [n m''].
  cbn [c_allow c_cmdsLeft c_bytesLeft c_deadline c_sponsor] in Hgen. destruct Hgen as (H1 & H2 & H3).
  split_and!; try lia; [by eexists|]. intros now r name Hc.
  pose proof (charge_bound now r sid name m'' _ H3) as Hb.
  destruct (chargeAgentCommand now r sid name m'') as [o m3]. cbn in Hc. subst o.
  destruct (proj1 Hb eq_refl) as (Ha & Hp1 & Hp2 & Hd & Hs & _). cbn in *.
  split_and!; try done; try lia. by rewrite elem_of_list_to_set in Ha.
Qed.

(** ** Quarantine looks at the last path element only *)

(** The directory part of the command has no influence on whether quarantine
    allows it. *)
Theorem quarantine_ignores_directory env dir name c rest :
  forallb (fun c => negb (c =?b "/")) (name ++ [c]) = true ->
  quarantineAllows env ((dir ++ "/"%char :: name ++ [c]) :: rest) = quarantineAllows env ((name ++ [c]) :: rest).
Proof.
  intros Hn. unfold quarantineAllows. rewrite path_base_app by done.
  assert (path_base (name ++ [c]) = name ++ [c]) as ->; [|done].
  unfold path_base. destruct (name ++ [c]) as [|x l] eqn:E; [by destruct name|]. rewrite <- E in *.
  rewrite forallb_app in Hn. apply andb_true_iff in Hn as [Hn Hc]. cbn in Hc. rewrite andb_true_r in Hc.
  apply negb_true_iff in Hc. unfold trim_right_set. rewrite rev_app_distr. cbn [rev app drop_while].
  rewrite Hc. cbn [rev]. rewrite rev_involutive, E, <- E.
  assert (forall cur, after_last_slash cur (name ++ [c]) = rev cur ++ name ++ [c]) as ->; [|done].
  clear E. induction name as [|d n IH]; intros cur; cbn [app after_last_slash].
  - rewrite Hc. by cbn [after_last_slash rev].
  - cbn in Hn. apply andb_true_iff in Hn as [Hd Hn]. apply negb_true_iff in Hd. rewrite Hd, IH by done.
    cbn [rev]. by rewrite <- app_assoc.
Qed.

(** ** Concrete commands *)

Lemma rewrite_governed_witness :
  rewriteAdminPlane [lit "/usr/bin/systemctl"; lit "restart"; lit "nginx.service"] =
    Ok ([lit "unit"; lit "restart"; lit "nginx.service"], lit "alias: systemctl → unit") /\
  exists verb unit, [lit "unit"; lit "restart"; lit "nginx.service"] = [lit "unit"; verb; unit] /\
    unitNamePattern unit = true.
Proof.
  assert (H : rewriteAdminPlane [lit "/usr/bin/systemctl"; lit "restart"; lit "nginx.service"] =
    Ok ([lit "unit"; lit "restart"; lit "nginx.service"], lit "alias: systemctl → unit"))
    by (vm_compute; reflexivity).
  split; [exact H|].
  destruct (rewrite_governed _ _ _ H) as [(E & _)|(n & r & _ & _ & _ & [(E & _)|(v & u & E & Hu & _)])];
    [vm_compute in E; discriminate E|vm_compute in E; discriminate E|].
  exists v, u. split; [exact E|exact Hu].
Defined.

Definition demoBudget : AgentBudget := mkBudget [lit "why"] 1 10 0 (lit "s1").
Definition demoTable : registry := mkReg {[lit "s1" := demoSession]} ∅ 0.

Lemma agent_spend_bounded_witness :
  fst (spend (lit "agent") [(1, demoTable, lit "why"); (2, demoTable, lit "why")]
    {[lit "agent" := mkCharge {[lit "why"]} 1 10 0 (lit "s1")]}) <= 1.
Proof.
  pose proof (agent_spend_bounded (lit "agent") demoBudget ∅
    {[lit "agent" := mkCharge {[lit "why"]} 1 10 0 (lit "s1")]}
    [(1, demoTable, lit "why"); (2, demoTable, lit "why")]) as H.
  destruct (spend _ _ _) as [n m]. cbn [fst].
  destruct H as (H & _); [vm_compute; reflexivity|]. cbn in H. lia.
Defined.

Definition noEnv : planeEnv := mkPlaneEnv (fun _ => []) (fun _ => Missing).

Lemma quarantine_ignores_directory_witness :
  quarantineAllows noEnv [lit "/tmp/journal"] = true.
Proof.
  change (lit "/tmp/journal") with (lit "/tmp" ++ "/"%char :: lit "journa" ++ ["l"%char]).
  rewrite (quarantine_ignores_directory noEnv (lit "/tmp") (lit "journa") "l"%char []) by reflexivity.
  reflexivity.
Defined.
