(* ===== verification/Gate.v ===== *)
(** * The authorization gate

    security/interceptor.go (the gate, the call handler, the pre-scan of
    declaration keywords), security/approval_gate.go with the two approval
    gates (core and security/approval_gate_ee.go, cm_hook_ee.go,
    foureyes_hook_ee.go), security/explain.go and security/denial.go.

    The gate runs against an environment that does not change during the call
    (one reading of the clock included) and threads the state it changes: the
    session table, the audit ledger, the remembered denials, the agent budgets
    and the notices.  An audit write is a record in the ledger or the error the
    environment gives for that write.  Records hold the values before
    redaction.  The approval gate is an interface, [ApprovalGate], with the
    laws the rest relies on. *)

From S2P Require Import Prelude GoBytes MonitorProto SshMonitor Session Policy AdminPlane.
#[local] Arguments lit : simpl never.

(** ** Approval data *)

(** Glob matching of paths and regular expressions of the Go library;
    a pattern that does not compile has no matcher. *)
Class Patterns := {
  filepath_Match : bytes -> bytes -> bool;
  regexp_Compile : bytes -> option (bytes -> bool)
}.

Record FourEyesRule := mkRule
  { fr_Pattern : bytes; fr_Approver : bytes; fr_TTL : Z; fr_NotApprover : bytes; fr_Surface : bytes }.

Record CMTicket := mkTicket {
  t_ID : bytes; t_Title : bytes; t_State : bytes; t_Assignee : bytes;
  t_StartWindow : Z; t_EndWindow : Z; t_Provider : bytes }.

Definition IsTicketValid (now : Z) (t : CMTicket) : bool :=
  bool_decide (t_State t = lit "approved")
  && negb (negb (t_StartWindow t =? 0) && (now <? t_StartWindow t))
  && negb (negb (t_EndWindow t =? 0) && (t_EndWindow t <? now)).

(** [regexp.QuoteMeta] and the translation of a rule's glob. *)
Definition is_meta (c : byte) : bool := bool_decide (c ∈ lit "\.+*?()|[]{}^$").
Definition QuoteMeta (s : bytes) : bytes :=
  concat (map (fun c => if is_meta c then ["\"%char; c] else [c]) s).
Definition globToRegexp (pattern : bytes) : bytes :=
  let quoted := replace_all (lit "\*") (lit ".*") (QuoteMeta pattern) in
  lit "^(?s:" ++ replace_all (lit "\?") (lit ".") quoted ++ lit ")$".

Definition split_comma (raw : bytes) : list bytes := split_byte "," raw.
Definition parseCMPatterns (raw : bytes) : list bytes :=
  List.filter (fun p => negb (bool_decide (p = []))) (map trim_space (split_comma raw)).

(** ** Explanations *)

Inductive stageName := Identity | PolicyStage | EntitlementsStage | ChangeManagement | FourEyes | RestrictedMode.
Inductive status := StAllowed | StDenied | StNotConfigured | StNotRequired | StWarning | StApproval | StDisabled.
#[export] Instance status_eq : EqDecision status.
Proof. solve_decision. Defined.

(** What a stage says beside its status. *)
Inductive reason :=
| NoReason | Text (s : bytes) | NotInAllowList (command : bytes)
| TicketNotValid (id state : bytes) | TicketNamed (id : bytes)
| MatchesRule (pattern approver refusal : bytes).

Record ExplanationStage := mkStage { st_Name : stageName; st_Status : status; st_Reason : reason }.

Inductive outcome := OAllowed | ODenied | OApproval.
#[export] Instance outcome_eq : EqDecision outcome.
Proof. solve_decision. Defined.

Inductive step :=
| ElevateTo (role : bytes) | AskEntitlement (ent : bytes) | AskRBAC | AttachTicket
| CheckApprovals | RetryRestricted.
#[export] Instance step_eq : EqDecision step.
Proof. solve_decision. Defined.

Record CommandExplanation := mkExplanation {
  ex_Outcome : outcome; ex_User : bytes; ex_Groups : list bytes; ex_SessionID : bytes;
  ex_RequiredRole : bytes; ex_Rule : bytes; ex_RequiredEntitlement : bytes;
  ex_Held : list bytes; ex_Needed : list bytes;
  ex_Command : bytes; ex_Args : list bytes; ex_Stages : list ExplanationStage;
  ex_NextSteps : list step
}.

(** ** State *)

Inductive denial :=
| AgentExpired | AgentCannot (command : bytes) | UnknownIdentity
| PolicyDenied (command reason : bytes) | EntitlementsDenied (command : bytes)
| PlaneDenied (e : planeErr).

Inductive auditRec :=
| ACommand (source command : bytes)
| APolicy (user command : bytes) (d : PolicyDecision)
| ADenial (user command : bytes) (d : denial)
| AEvent (e : denial)
| AAlias (e : planeErr)
| ARefusal (kind session command : bytes).

Record gstate := mkG {
  g_reg : registry; g_log : list auditRec; g_writes : nat;
  g_denials : gmap bytes CommandExplanation; g_budgets : budgets; g_notices : list (bytes * bytes)
}.

(** ** Environment *)

Record genv := mkEnv {
  e_now : Z;
  e_os : bytes * list bytes;
  e_ids : gmap bytes sessionIdentity;
  e_query : option query;
  e_marked : bool;
  e_remoteGate : option (bool -> list bytes -> bytes -> option bytes);
  e_ent : entState;
  e_restricted : bool;
  e_strict : bool;
  e_cmDefault : list bytes;
  e_cmPatterns : gmap bytes (list bytes);
  e_tickets : gmap bytes (option CMTicket * bytes);
  e_rules : result bytes (list FourEyesRule);
  e_await : FourEyesRule -> bytes -> bytes -> option bytes;
  e_plane : option planeEnv;
  e_fails : nat -> option bytes
}.

Definition RemoteGateProcess (env : genv) : bool :=
  e_marked env || match e_remoteGate env with Some _ => true | None => false end.

(** ** Audit writes *)

Definition log (env : genv) (r : auditRec) (st : gstate) : option bytes * gstate :=
  match e_fails env (g_writes st) with
  | Some e => (Some e, mkG (g_reg st) (g_log st) (S (g_writes st)) (g_denials st) (g_budgets st) (g_notices st))
  | None => (None, mkG (g_reg st) (g_log st ++ [r]) (S (g_writes st)) (g_denials st) (g_budgets st) (g_notices st))
  end.

(** ** Change management and four-eyes rules *)

Section approval.
Context {Pt : Patterns}.

Definition CMPatternsForSession (env : genv) (sid : bytes) : list bytes :=
  e_cmDefault env ++ default [] (e_cmPatterns env !! sid).

Definition AddCMPatternForSession (env : genv) (sid pattern : bytes) : bool * gmap bytes (list bytes) :=
  if bool_decide (pattern ∈ e_cmDefault env) || bool_decide (pattern ∈ default [] (e_cmPatterns env !! sid))
  then (false, e_cmPatterns env)
  else (true, <[sid := default [] (e_cmPatterns env !! sid) ++ [pattern]]> (e_cmPatterns env)).

Definition CMRequiredForSession (env : genv) (sid cmd : bytes) : bool :=
  existsb (fun pat => filepath_Match pat cmd || filepath_Match pat (path_base cmd)) (CMPatternsForSession env sid).

(** The first rule that compiles and matches. *)
Fixpoint first_match (rules : list FourEyesRule) (cmd : bytes) : option FourEyesRule :=
  match rules with
  | [] => None
  | r :: l =>
      match regexp_Compile (globToRegexp (fr_Pattern r)) with
      | Some f => if f cmd then Some r else first_match l cmd
      | None => first_match l cmd
      end
  end.

Definition matchFourEyes (env : genv) (cmd : bytes) : result bytes (option FourEyesRule) :=
  match e_rules env with
  | Err e => Err e
  | Ok rules => Ok (first_match rules cmd)
  end.

Inductive approvalErr :=
| CMTicketRequired (cmd : bytes) | CMTicketInvalid (id state : bytes)
| RulesUnreadable (e : bytes) | SecondApprover (pattern : bytes) | NotApproved (e : bytes).

(** The stages and the verdict of an approval gate. *)
Class ApprovalGate := {
  gate_check : genv -> bytes -> list bytes -> gstate -> option (approvalErr * option bytes) * gstate;
  gate_explain : genv -> bytes -> list bytes -> list ExplanationStage
}.

Definition joined (args : list bytes) : bytes := join (lit " ") args.
Definition name_of (args : list bytes) : bytes := hd [] args.

Definition explainFourEyes (env : genv) (args : list bytes) (refusal : bytes) : ExplanationStage :=
  match matchFourEyes env (joined args) with
  | Err e => mkStage FourEyes StDenied (Text e)
  | Ok None => mkStage FourEyes StNotRequired NoReason
  | Ok (Some r) =>
      mkStage FourEyes (if bool_decide (refusal = []) then StApproval else StDenied)
        (MatchesRule (fr_Pattern r) (fr_Approver r) refusal)
  end.

(** *** The gate of a build without the approval layer *)

Definition core_refuse (env : genv) (kind sid : bytes) (args : list bytes) (e : approvalErr) (st : gstate)
  : option (approvalErr * option bytes) * gstate :=
  let '(ae, st) := log env (ARefusal kind sid (name_of args)) st in (Some (e, ae), st).

Definition core_check (env : genv) (sid : bytes) (args : list bytes) (st : gstate)
  : option (approvalErr * option bytes) * gstate :=
  if e_strict env && CMRequiredForSession env sid (name_of args)
  then core_refuse env (lit "cm") sid args (CMTicketRequired (name_of args)) st
  else match matchFourEyes env (joined args) with
  | Err e => core_refuse env (lit "foureyes") sid args (RulesUnreadable e) st
  | Ok (Some r) => core_refuse env (lit "foureyes") sid args (SecondApprover (fr_Pattern r)) st
  | Ok None => (None, st)
  end.

Definition core_refusal : bytes :=
  lit "four-eyes approval is enterprise-only, so this build refuses the command".

Definition core_explain (env : genv) (sid : bytes) (args : list bytes) : list ExplanationStage :=
  let cm :=
    if CMRequiredForSession env sid (name_of args) then
      if e_strict env
      then mkStage ChangeManagement StDenied
             (Text (lit "an active approved change ticket is required; change management is enterprise-only"))
      else mkStage ChangeManagement StWarning (Text (lit "no active ticket; strict mode is disabled"))
    else mkStage ChangeManagement StNotRequired NoReason in
  [cm; explainFourEyes env args core_refusal].

(** *** The enterprise gate *)

Definition CMSessionCheckForSession (env : genv) (sid cmd : bytes) : option approvalErr :=
  if negb (CMRequiredForSession env sid cmd) then None
  else match fst (default (None, []) (e_tickets env !! sid)) with
  | None => if e_strict env then Some (CMTicketRequired cmd) else None
  | Some t => if negb (IsTicketValid (e_now env) t) then Some (CMTicketInvalid (t_ID t) (t_State t)) else None
  end.

Definition CheckFourEyes (env : genv) (sid : bytes) (args : list bytes) : option approvalErr :=
  match matchFourEyes env (joined args) with
  | Err e => Some (RulesUnreadable e)
  | Ok None => None
  | Ok (Some r) => NotApproved <$> e_await env r (joined args) sid
  end.

Definition ee_check (env : genv) (sid : bytes) (args : list bytes) (st : gstate)
  : option (approvalErr * option bytes) * gstate :=
  match CMSessionCheckForSession env sid (name_of args) with
  | Some e => (Some (e, None), st)
  | None => ((fun e => (e, None)) <$> CheckFourEyes env sid args, st)
  end.

Definition ee_explain (env : genv) (sid : bytes) (args : list bytes) : list ExplanationStage :=
  let cm :=
    if CMRequiredForSession env sid (name_of args) then
      let '(ticket, id) := default (None, []) (e_tickets env !! sid) in
      match ticket with
      | None =>
          if e_strict env
          then mkStage ChangeManagement StDenied (Text (lit "an active approved change ticket is required"))
          else mkStage ChangeManagement StWarning (Text (lit "no active ticket; strict mode is disabled"))
      | Some t =>
          if negb (IsTicketValid (e_now env) t)
          then mkStage ChangeManagement StDenied (TicketNotValid id (t_State t))
          else mkStage ChangeManagement StAllowed (TicketNamed id)
      end
    else mkStage ChangeManagement StNotRequired NoReason in
  [cm; explainFourEyes env args []].

Definition coreApprovalGate : ApprovalGate := {| gate_check := core_check; gate_explain := core_explain |}.
Definition enterpriseApprovalGate : ApprovalGate := {| gate_check := ee_check; gate_explain := ee_explain |}.

End approval.

(** ** Explain *)

Section gate.
Context {Pt : Patterns} {AG : ApprovalGate}.

Definition with_reg (r : registry) (st : gstate) : gstate :=
  mkG r (g_log st) (g_writes st) (g_denials st) (g_budgets st) (g_notices st).

Fixpoint compact {A} `{EqDecision A} (l seen : list A) : list A :=
  match l with
  | [] => []
  | x :: l' => if bool_decide (x ∈ seen) then compact l' seen else x :: compact l' (x :: seen)
  end.
Definition compactStrings (l : list bytes) : list bytes :=
  compact (List.filter (fun s => negb (bool_decide (s = []))) l) [].

(** The context both [ExplainCommand] and the gate start from. *)
Definition command_context (env : genv) (sid : bytes) (args : list bytes) (st : gstate)
  : PolicyContext * gstate :=
  let '(p, r) := buildPolicyContext (e_os env) (e_now env) (e_ids env) (name_of args) (tail args) sid (g_reg st) in
  (p, with_reg r st).

(** What policy sees: the capabilities, and the caller's claims; a session's
    own agent claim wins over the caller's. *)
Definition complete_context (p : PolicyContext) (extra : PolicyContextExtra) : PolicyContext :=
  mkPctx (p_User p) (p_Groups p) (p_Command p) (p_Args p) (ClassifyCapabilities (p_Command p))
    (p_Time p) (p_SessionID p) (p_Elevation p) (p_Gateway p) (x_Lease extra) (x_ExecLease extra)
    (match p_Agent p with Some a => Some a | None => x_Agent extra end) (p_Snoop p) (p_IdentityUnknown p).
Definition no_extra : PolicyContextExtra := mkExtra None None None.

Definition restricted_refuses (cmd : bytes) : bool :=
  existsb (fun c => c =?b "/") cmd || bool_decide (cmd = lit "cd") || bool_decide (cmd = lit "export").

Definition stage_denied (s : ExplanationStage) : bool :=
  match st_Status s with StDenied => true | _ => false end.
Definition stage_approval (s : ExplanationStage) : bool :=
  match st_Status s with StApproval => true | _ => false end.

(** [suggestNextSteps] for one stage. *)
Definition next_steps (role ent : bytes) (s : ExplanationStage) : list step :=
  match st_Name s, st_Status s with
  | PolicyStage, StDenied =>
      ElevateTo (if bool_decide (role = []) then lit "<role>" else role) ::
      (if bool_decide (ent = []) then [] else [AskEntitlement ent])
  | EntitlementsStage, StDenied => [AskRBAC]
  | ChangeManagement, StDenied => [AttachTicket]
  | FourEyes, StApproval => [CheckApprovals]
  | RestrictedMode, StDenied => [RetryRestricted]
  | _, _ => []
  end.

Definition policy_stages (p : PolicyContext) (d : PolicyDecision) (err : option policyErr)
  : list ExplanationStage :=
  (if p_IdentityUnknown p then [mkStage Identity StDenied (Text (lit "session identity unknown"))] else []) ++
  match err with
  | Some (PolicyEvalFailed e) => [mkStage PolicyStage StDenied (Text (lit "policy evaluation failed: " ++ e))]
  | Some PolicyRemoteOnly => [mkStage PolicyStage StDenied (Text (DenyReason d))]
  | None =>
      if Allowed d then [mkStage PolicyStage StAllowed (Text (DenyReason d))]
      else [mkStage PolicyStage StDenied
              (Text (match DenyReason d with [] => lit "policy returned allow=false" | r => r end))]
  end.

Definition entitlement_stage (env : genv) (p : PolicyContext) (cmd : bytes) : ExplanationStage :=
  if negb (entitlementsLoaded (e_ent env)) then mkStage EntitlementsStage StNotConfigured NoReason
  else if IsAuthorized (entitlements (e_ent env)) (p_User p) (p_Groups p) cmd
  then mkStage EntitlementsStage StAllowed NoReason
  else mkStage EntitlementsStage StDenied (NotInAllowList cmd).

Definition restricted_stage (env : genv) (cmd : bytes) : ExplanationStage :=
  if negb (e_restricted env) then mkStage RestrictedMode StDisabled NoReason
  else if existsb (fun c => c =?b "/") cmd
  then mkStage RestrictedMode StDenied (Text (lit "command names cannot contain '/' in restricted mode"))
  else if restricted_refuses cmd
  then mkStage RestrictedMode StDenied (Text (cmd ++ lit " is not allowed in restricted mode"))
  else mkStage RestrictedMode StAllowed NoReason.

(** The outcome of the stages: denied wins, then an approval. *)
Definition outcome_of (l : list ExplanationStage) : outcome :=
  if existsb stage_denied l then ODenied
  else if existsb stage_approval l then OApproval
  else OAllowed.

Definition ExplainCommand (env : genv) (sid : bytes) (args : list bytes) (st : gstate)
  : option CommandExplanation * gstate :=
  match args with
  | [] | [] :: _ => (None, st)
  | cmd :: rest =>
      let '(p0, st) := command_context env sid args st in
      let p := complete_context p0 no_extra in
      let '(d, err) := EvaluatePolicyDecision (RemoteGateProcess env) (e_query env) p in
      let ent := entitlement_stage env p cmd in
      let loaded := entitlementsLoaded (e_ent env) in
      let needed :=
        compactStrings
          ((match err with None => if Allowed d then [] else [RequiredEntitlement d] | Some _ => [] end) ++
           (if stage_denied ent then EntitlementsGranting (entitlements (e_ent env)) cmd else [])) in
      let stages := policy_stages p d err ++ [ent] ++ gate_explain env sid args ++ [restricted_stage env cmd] in
      (Some (mkExplanation (outcome_of stages) (p_User p) (p_Groups p) sid (RequiredRole d) (Rule d)
               (RequiredEntitlement d)
               (if loaded then EntitlementsHeld (entitlements (e_ent env)) (p_User p) (p_Groups p) else [])
               needed cmd rest stages
               (compact (concat (map (next_steps (RequiredRole d) (RequiredEntitlement d)) stages)) [])), st)
  end.

(** [rememberDeniedCommand] *)
Definition remember (env : genv) (sid : bytes) (args : list bytes) (st : gstate) : gstate :=
  match ExplainCommand env sid args st with
  | (Some ex, st) =>
      if bool_decide (ex_Outcome ex = OAllowed) then st
      else mkG (g_reg st) (g_log st) (g_writes st) (<[sid := ex]> (g_denials st)) (g_budgets st) (g_notices st)
  | (None, st) => st
  end.

(** ** The gate *)

Inductive gateErr :=
| NULInCommand
| RemoteRefused (e : sshErr) (gate : option bytes) | RemoteDenied (e : bytes) | RemoteNotInstalled
| AuditFailed (e : bytes)
| Deny (d : denial) (audit : option bytes)
| PolicyFailed (e : policyErr)
| Approval (e : approvalErr) (audit : option bytes)
| RestrictedName (cmd : bytes).

(** [refuseInRemoteGateProcess] in a process that is one. *)
Definition ssh_refusal_text (e : sshErr) : bytes :=
  match e with
  | Refusal name =>
      name ++ lit ": not available in an SSH session; run it in a local session or over the admin API"
  | _ => []
  end.
Definition refuseInRemoteGateProcess (env : genv) (restricted : bool) (args : list bytes) (sid : bytes)
  : option gateErr :=
  if negb (RemoteGateProcess env) then None
  else match sshSessionRefusal args with
  | None => None
  | Some e =>
      Some (RemoteRefused e
        (match e_remoteGate env with
         | Some fn => match fn restricted args sid with
                      | Some ge => if bool_decide (ge = ssh_refusal_text e) then None else Some ge
                      | None => None
                      end
         | None => None
         end))
  end.

Definition stage := gstate -> option gateErr * gstate.
Definition pass : stage := fun st => (None, st).
Definition seq (a b : stage) : stage :=
  fun st => match a st with (None, st') => b st' | r => r end.
Infix ">>>" := seq (at level 60, right associativity) : go_scope.

Definition logged_or_fail (env : genv) (r : auditRec) : stage := fun st =>
  let '(ae, st) := log env r st in (match ae with Some e => Some (AuditFailed e) | None => None end, st).

(** Remember the command, record the denial, deny. *)
Definition deny (env : genv) (sid : bytes) (args : list bytes) (user : bytes) (d : denial) : stage := fun st =>
  let st := remember env sid args st in
  let '(ae, st) := log env (ADenial user (joined args) d) st in (Some (Deny d ae), st).

Definition controllerTag (sid : bytes) (st : gstate) : bytes :=
  if bool_decide (sid = []) then []
  else match GetSession sid (g_reg st) with
       | Some s => if bool_decide (s_controller s = []) then [] else lit " via=" ++ s_controller s
       | None => []
       end.

Definition bound_agent (sid : bytes) (r : registry) : option (Session * ManagedAgent) :=
  if bool_decide (sid = []) then None
  else s ← GetSession sid r; a ← s_agentBinding s; Some (s, a).

Definition agent_stage (env : genv) (sid : bytes) (args : list bytes) : stage := fun st =>
  match bound_agent sid (g_reg st) with
  | None => (None, st)
  | Some (s, a) =>
      if negb (e_now env <? ag_ExpiresAt a) then deny env sid args (s_User s) AgentExpired st
      else if negb (AgentCommandAllowed (name_of args))
      then deny env sid args (s_User s) (AgentCannot (name_of args)) st
      else (None, st)
  end.

Definition notice (env : genv) (cmd : bytes) (d : PolicyDecision) (st : gstate) : gstate :=
  if is_one_of cmd ["gateway"; "lease"; "elevate"]%string
  then mkG (g_reg st) (g_log st) (g_writes st) (g_denials st) (g_budgets st)
         (g_notices st ++ [(cmd, if bool_decide (RequiredRole d = []) then lit "unspecified" else RequiredRole d)])
  else st.

Definition without_reason (d : PolicyDecision) : PolicyDecision :=
  mkDecision (Allowed d) [] (RequiredRole d) (Rule d) (RequiredEntitlement d) (Notify d).

(** Policy and entitlements, for a resolved context. *)
Definition policy_stage (env : genv) (sid : bytes) (args : list bytes) (p : PolicyContext)
  (r : PolicyDecision * option policyErr) : stage :=
  let cmd := joined args in
  match r with
  | (d, Some e) => fun st => (Some (PolicyFailed e), remember env sid args st)
  | (d, None) =>
      if negb (Allowed d) then fun st =>
        let st := notice env (name_of args) d st in
        let '(ae, st) := log env (APolicy (p_User p) cmd d) st in
        (Some (Deny (PolicyDenied (name_of args) (DenyReason d)) ae), remember env sid args st)
      else logged_or_fail env (APolicy (p_User p) cmd (without_reason d)) >>>
        (if entitlementsLoaded (e_ent env)
            && negb (IsAuthorized (entitlements (e_ent env)) (p_User p) (p_Groups p) (name_of args))
         then fun st =>
           let '(ae, st) := log env (ADenial (p_User p) cmd (EntitlementsDenied (name_of args))) st in
           (Some (Deny (EntitlementsDenied (name_of args)) ae), remember env sid args st)
         else pass)
  end.

Definition identity_stage (env : genv) (sid : bytes) (args : list bytes) (extra : PolicyContextExtra) : stage :=
  fun st =>
    let '(p0, st) := command_context env sid args st in
    if p_IdentityUnknown p0 then deny env sid args [] UnknownIdentity st
    else let p := complete_context p0 extra in
         policy_stage env sid args p (EvaluatePolicyDecision (RemoteGateProcess env) (e_query env) p) st.

Definition approval_stage (env : genv) (sid : bytes) (args : list bytes) : stage := fun st =>
  match gate_check env sid args st with
  | (None, st) => (None, st)
  | (Some (e, ae), st) => (Some (Approval e ae), remember env sid args st)
  end.

Definition plane_stage (env : genv) (sid : bytes) (args : list bytes) : stage := fun st =>
  match e_plane env with
  | None => (None, st)
  | Some pe =>
      let '(o, b) := adminPlaneCheck pe (e_now env) (g_reg st) sid args (g_budgets st) in
      let st := mkG (g_reg st) (g_log st) (g_writes st) (g_denials st) b (g_notices st) in
      match o with
      | None => (None, st)
      | Some e =>
          let st := remember env sid args st in
          let '(ae, st) := log env (AEvent (PlaneDenied e)) st in (Some (Deny (PlaneDenied e) ae), st)
      end
  end.

Definition restricted_check (env : genv) (restricted : bool) (sid : bytes) (args : list bytes) : stage := fun st =>
  if restricted && restricted_refuses (name_of args)
  then (Some (RestrictedName (name_of args)), remember env sid args st)
  else (None, st).

Definition clear_denial (sid : bytes) (args : list bytes) : stage := fun st =>
  (None, if bool_decide (name_of args = lit "??") then st
         else mkG (g_reg st) (g_log st) (g_writes st) (delete sid (g_denials st)) (g_budgets st) (g_notices st)).

Definition has_nul (args : list bytes) : bool := existsb (fun a => existsb (fun c => c =?b NULc) a) args.

(** [gateCommandContext]; [None] authorizes. *)
Definition gateCommandContext (env : genv) (restricted : bool) (args : list bytes) (sid : bytes)
  (extra : PolicyContextExtra) : stage :=
  match args with
  | [] => pass
  | _ =>
      if has_nul args then fun st => (Some NULInCommand, st)
      else match e_remoteGate env with
      | Some fn => fun st =>
          (match refuseInRemoteGateProcess env restricted args sid with
           | Some e => Some e
           | None => RemoteDenied <$> fn restricted args sid
           end, st)
      | None =>
          if RemoteGateProcess env then fun st =>
            (match refuseInRemoteGateProcess env restricted args sid with
             | Some e => Some e
             | None => Some RemoteNotInstalled
             end, st)
          else
            (fun st => logged_or_fail env (ACommand (lit "BASH") (joined args ++ controllerTag sid st)) st) >>>
            agent_stage env sid args >>>
            identity_stage env sid args extra >>>
            approval_stage env sid args >>>
            plane_stage env sid args >>>
            restricted_check env restricted sid args >>>
            clear_denial sid args
      end
  end.

(** ** The call handler *)

Definition builtinNamedVBin (name : bytes) : bool := is_one_of name ["fc"; "help"; "history"]%string.
Definition shadowPrefix : bytes := NULc :: lit "adssh-vbin:".

(** [vbins] is the engine's registry of virtual binaries. *)
Definition shadowBuiltinVBin (vbins : gset bytes) (args : list bytes) : list bytes :=
  match args with
  | [] => []
  | name :: rest => if builtinNamedVBin name && bool_decide (name ∈ vbins)
                    then (shadowPrefix ++ name) :: rest else args
  end.

Definition unshadowBuiltinVBin (args : list bytes) : list bytes :=
  match args with
  | [] => []
  | n :: rest =>
      if has_prefix shadowPrefix n then
        let name := drop (length shadowPrefix) n in
        if builtinNamedVBin name then name :: rest else args
      else args
  end.

Inductive callErr := AliasRefused (e : planeErr) (audit : option bytes) | GateRefused (e : gateErr).

Definition admin_rewrite (env : genv) (args : list bytes) : result planeErr (list bytes * bytes) :=
  match e_plane env with None => Ok (args, []) | Some _ => rewriteAdminPlane args end.

(** The arguments the interpreter goes on with, and the alias note printed. *)
Definition callHandler (env : genv) (restricted : bool) (sid : bytes) (vbins : gset bytes)
  (args : list bytes) (st : gstate) : result callErr (list bytes * bytes) * gstate :=
  match args with
  | [] => (Ok ([], []), st)
  | _ =>
      match admin_rewrite env args with
      | Err e => let '(ae, st) := log env (AAlias e) st in (Err (AliasRefused e ae), st)
      | Ok (args, note) =>
          if RemoteGateProcess env && sshRunsInListener args
          then (Ok (shadowBuiltinVBin vbins args, []), st)
          else match gateCommandContext env restricted args sid no_extra st with
          | (Some e, st) => (Err (GateRefused e), st)
          | (None, st) => (Ok (shadowBuiltinVBin vbins args, note), st)
          end
      end
  end.

(** ** The pre-scan of a program *)

(** What the scan looks at in a syntax node; the words of a declaration are
    the ones [declArgs] prints. *)
Inductive nodeKind := RedirectNode (fd : option bytes) | DeclClause (args : list bytes) | OtherNode.
#[local] Set Warnings "-register-all".
Inductive node := Node (k : nodeKind) (children : list node).

Inductive progErr := UnsupportedFd (fd : bytes) | DeclRefused (e : gateErr).

Definition scan_item (env : genv) (restricted : bool) (sid : bytes) (k : nodeKind) (st : gstate)
  : option progErr * gstate :=
  match k with
  | RedirectNode (Some fd) =>
      if is_one_of fd ["0"; "1"; "2"]%string then (None, st) else (Some (UnsupportedFd fd), st)
  | DeclClause args =>
      let '(o, st) := gateCommandContext env restricted args sid no_extra st in (DeclRefused <$> o, st)
  | _ => (None, st)
  end.

(** [syntax.Walk] with the scan's visitor: once it has failed it visits
    nothing more. *)
Fixpoint gateProgram (env : genv) (restricted : bool) (sid : bytes) (n : node) (st : gstate)
  : option progErr * gstate :=
  match n with
  | Node k children =>
      match scan_item env restricted sid k st with
      | (Some e, st) => (Some e, st)
      | (None, st) =>
          (fix walk (l : list node) (st : gstate) : option progErr * gstate :=
             match l with
             | [] => (None, st)
             | c :: l' => match gateProgram env restricted sid c st with
                          | (Some e, st) => (Some e, st)
                          | (None, st) => walk l' st
                          end
             end) children st
      end
  end.

(** ** The interface the approval gates satisfy *)

(** [explain] agrees with [check], and [check] touches only the ledger. *)
Definition same_but_log (st st' : gstate) : Prop :=
  g_reg st' = g_reg st /\ g_denials st' = g_denials st /\ g_budgets st' = g_budgets st /\
  g_notices st' = g_notices st /\ exists l, g_log st' = g_log st ++ l.

End gate.

Class ApprovalLaws {Pt : Patterns} (AG : ApprovalGate) : Prop := {
  explain_clear : forall env sid args st,
    outcome_of (gate_explain env sid args) = OAllowed -> gate_check env sid args st = (None, st);
  explain_denied : forall env sid args st,
    outcome_of (gate_explain env sid args) = ODenied -> fst (gate_check env sid args st) <> None;
  check_frame : forall env sid args st o st',
    gate_check env sid args st = (o, st') -> same_but_log st st'
}.

Lemma same_but_log_refl st : same_but_log st st.
Proof. repeat split. exists []. by rewrite app_nil_r. Qed.

Lemma same_but_log_trans a b c : same_but_log a b -> same_but_log b c -> same_but_log a c.
Proof.
  intros (? & ? & ? & ? & l & H) (? & ? & ? & ? & k & H'). split_and!; try congruence.
  exists (l ++ k). by rewrite H', H, app_assoc.
Qed.

Lemma log_same env r st : same_but_log st (snd (log env r st)).
Proof.
  unfold log. destruct (e_fails env (g_writes st)); cbn; repeat split; cbn; eexists; [by rewrite app_nil_r|done].
Qed.

Lemma core_refusal_text : bool_decide (core_refusal = []) = false.
Proof. reflexivity. Qed.

#[export] Instance core_laws {Pt : Patterns} : ApprovalLaws coreApprovalGate.
Proof.
  split; cbn.
  - intros env sid args st. unfold core_explain, core_check, explainFourEyes. rewrite core_refusal_text.
    destruct (CMRequiredForSession env sid (name_of args)), (e_strict env); cbn;
      try done; destruct (matchFourEyes env (joined args)) as [[r|]|e]; done.
  - intros env sid args st. unfold core_explain, core_check, explainFourEyes, core_refuse.
    rewrite core_refusal_text.
    destruct (CMRequiredForSession env sid (name_of args)), (e_strict env); cbn;
      try done; destruct (matchFourEyes env (joined args)) as [[r|]|e]; try done;
      cbn; intros _; by destruct (log env _ st).
  - intros env sid args st o st'. unfold core_check, core_refuse.
    assert (Hl : forall r e, (let '(ae, s) := log env r st in (Some (e, ae), s)) = (o, st') -> same_but_log st st').
    { intros r e. pose proof (log_same env r st) as H. destruct (log env r st). by intros [= _ <-]. }
    destruct (_ && _); [apply Hl|]. destruct (matchFourEyes env (joined args)) as [[r|]|e]; [apply Hl| |apply Hl].
    intros [= _ <-]. apply same_but_log_refl.
Qed.

#[export] Instance enterprise_laws {Pt : Patterns} : ApprovalLaws enterpriseApprovalGate.
Proof.
  split; cbn.
  - intros env sid args st.
    unfold ee_explain, ee_check, explainFourEyes, CMSessionCheckForSession, CheckFourEyes.
    destruct (CMRequiredForSession env sid (name_of args)); cbn;
      [|by destruct (matchFourEyes env (joined args)) as [[r|]|e]].
    destruct (default (None, []) (e_tickets env !! sid)) as [[t|] id]; cbn.
    + destruct (IsTicketValid (e_now env) t); cbn; [|by destruct (matchFourEyes env (joined args)) as [[r|]|e]].
      by destruct (matchFourEyes env (joined args)) as [[r|]|e].
    + destruct (e_strict env); cbn; by destruct (matchFourEyes env (joined args)) as [[r|]|e].
  - intros env sid args st.
    unfold ee_explain, ee_check, explainFourEyes, CMSessionCheckForSession, CheckFourEyes.
    destruct (CMRequiredForSession env sid (name_of args)); cbn;
      [|by destruct (matchFourEyes env (joined args)) as [[r|]|e]].
    destruct (default (None, []) (e_tickets env !! sid)) as [[t|] id]; cbn.
    + destruct (IsTicketValid (e_now env) t); cbn; [|done].
      by destruct (matchFourEyes env (joined args)) as [[r|]|e].
    + destruct (e_strict env); cbn; [done|]. by destruct (matchFourEyes env (joined args)) as [[r|]|e].
  - intros env sid args st o st'. unfold ee_check.
    destruct (CMSessionCheckForSession env sid (name_of args)); intros [= _ <-]; apply same_but_log_refl.
Qed.

(** ** When each stage passes *)

Section gate_theorems.
Context {Pt : Patterns} {AG : ApprovalGate} {AL : ApprovalLaws AG}.
Infix ">>>" := seq (at level 60, right associativity) : go_scope.

Definition record (r : auditRec) (st : gstate) : gstate :=
  mkG (g_reg st) (g_log st ++ [r]) (S (g_writes st)) (g_denials st) (g_budgets st) (g_notices st).
Definition with_budgets (b : budgets) (st : gstate) : gstate :=
  mkG (g_reg st) (g_log st) (g_writes st) (g_denials st) b (g_notices st).

Lemma seq_pass (a b : stage) st st2 :
  seq a b st = (None, st2) <-> exists st1, a st = (None, st1) /\ b st1 = (None, st2).
Proof.
  unfold seq. destruct (a st) as [[e|] st1]; split; try done.
  - by intros (st' & [= ] & _).
  - intros H. by exists st1.
  - by intros (st' & [= <-] & H).
Qed.

Lemma logged_pass env r st st' :
  logged_or_fail env r st = (None, st') <-> e_fails env (g_writes st) = None /\ st' = record r st.
Proof.
  unfold logged_or_fail, log. destruct (e_fails env (g_writes st)); cbn; [by split; [|intros []]|].
  split; [by intros [= <-]|by intros [_ ->]].
Qed.

Definition agent_permits (env : genv) (sid : bytes) (args : list bytes) (r : registry) : Prop :=
  match bound_agent sid r with
  | None => True
  | Some (_, a) => e_now env < ag_ExpiresAt a /\ AgentCommandAllowed (name_of args) = true
  end.

Lemma deny_fails env sid args user d st : exists ae st', deny env sid args user d st = (Some (Deny d ae), st').
Proof. unfold deny. destruct (log _ _ _) as [ae st']. by exists ae, st'. Qed.

Lemma agent_pass env sid args st st' :
  agent_stage env sid args st = (None, st') <-> agent_permits env sid args (g_reg st) /\ st' = st.
Proof.
  unfold agent_stage, agent_permits. destruct (bound_agent sid (g_reg st)) as [[s a]|].
  2:{ split; [by intros [= <-]|by intros [_ ->]]. }
  destruct (e_now env <? ag_ExpiresAt a) eqn:En; cbn [negb].
  2:{ destruct (deny_fails env sid args (s_User s) AgentExpired st) as (ae & s' & ->). bsimp.
      split; [done|]. intros [[? _] _]. lia. }
  destruct (AgentCommandAllowed (name_of args)) eqn:Ea; cbn [negb]; bsimp.
  - split; [by intros [= <-]|by intros [_ ->]].
  - destruct (deny_fails env sid args (s_User s) (AgentCannot (name_of args)) st) as (ae & s' & ->).
    split; [done|]. by intros [[_ ?] _].
Qed.

(** The context a command is judged in, the table after it was built, and the
    decision. *)
Definition base_context (env : genv) (sid : bytes) (args : list bytes) (r : registry) : PolicyContext :=
  fst (buildPolicyContext (e_os env) (e_now env) (e_ids env) (name_of args) (tail args) sid r).
Definition context_table (env : genv) (sid : bytes) (args : list bytes) (r : registry) : registry :=
  snd (buildPolicyContext (e_os env) (e_now env) (e_ids env) (name_of args) (tail args) sid r).
Definition context_of (env : genv) (sid : bytes) (args : list bytes) (extra : PolicyContextExtra)
  (r : registry) : PolicyContext := complete_context (base_context env sid args r) extra.
Definition decision_of (env : genv) (p : PolicyContext) : PolicyDecision * option policyErr :=
  EvaluatePolicyDecision (RemoteGateProcess env) (e_query env) p.

Definition entitled (env : genv) (p : PolicyContext) (cmd : bytes) : Prop :=
  entitlementsLoaded (e_ent env) = true ->
  IsAuthorized (entitlements (e_ent env)) (p_User p) (p_Groups p) cmd = true.

Definition policy_permits (env : genv) (sid : bytes) (args : list bytes) (extra : PolicyContextExtra)
  (r : registry) : Prop :=
  let p := context_of env sid args extra r in
  p_IdentityUnknown p = false /\ snd (decision_of env p) = None /\ Allowed (fst (decision_of env p)) = true /\
  entitled env p (name_of args).

Definition allow_record (env : genv) (sid : bytes) (args : list bytes) (extra : PolicyContextExtra)
  (r : registry) : auditRec :=
  let p := context_of env sid args extra r in
  APolicy (p_User p) (joined args) (without_reason (fst (decision_of env p))).

Lemma identity_pass env sid args extra st st' :
  identity_stage env sid args extra st = (None, st') <->
  policy_permits env sid args extra (g_reg st) /\ e_fails env (g_writes st) = None /\
  st' = record (allow_record env sid args extra (g_reg st))
          (with_reg (context_table env sid args (g_reg st)) st).
Proof.
  unfold identity_stage, policy_permits, allow_record, context_of, base_context, context_table, command_context.
  destruct (buildPolicyContext _ _ _ _ _ sid (g_reg st)) as [p0 r]. cbn [fst snd].
  set (p := complete_context p0 extra).
  change (p_IdentityUnknown p) with (p_IdentityUnknown p0).
  destruct (p_IdentityUnknown p0) eqn:Ei.
  { destruct (deny_fails env sid args [] UnknownIdentity (with_reg r st)) as (ae & s' & ->).
    split; [done|by intros [[? _] _]]. }
  fold (decision_of env p). destruct (decision_of env p) as [d [e|]]; cbn [fst snd].
  { split; [done|]. intros [(_ & [=] & _) _]. }
  unfold policy_stage. destruct (Allowed d) eqn:Ea; cbn [negb].
  2:{ destruct (log _ _ _) as [ae s']. split; [done|]. intros [(_ & _ & [=] & _) _]. }
  rewrite seq_pass. unfold entitled.
  destruct (entitlementsLoaded (e_ent env)) eqn:El; cbn [andb].
  2:{ split.
      - intros (st1 & H1%logged_pass & [= <-]). destruct H1 as [H1 ->]. split_and!; done.
      - intros (_ & H1 & ->). eexists. split; [by apply logged_pass|done]. }
  destruct (IsAuthorized _ _ _ _) eqn:Eu; cbn [negb].
  - split.
    + intros (st1 & H1%logged_pass & [= <-]). destruct H1 as [H1 ->]. split_and!; done.
    + intros (_ & H1 & ->). eexists. split; [by apply logged_pass|done].
  - split.
    + intros (st1 & _ & H). by destruct (log _ _ st1).
    + intros ((_ & _ & _ & H) & _). by discriminate H.
Qed.

Lemma approval_pass env sid args st st' :
  approval_stage env sid args st = (None, st') <-> gate_check env sid args st = (None, st').
Proof. unfold approval_stage. destruct (gate_check env sid args st) as [[[e ae]|] s]; split; congruence. Qed.

Definition plane_verdict (env : genv) (sid : bytes) (args : list bytes) (r : registry) (b : budgets)
  : option planeErr * budgets :=
  match e_plane env with
  | None => (None, b)
  | Some pe => adminPlaneCheck pe (e_now env) r sid args b
  end.

Lemma plane_pass env sid args st st' :
  plane_stage env sid args st = (None, st') <->
  fst (plane_verdict env sid args (g_reg st) (g_budgets st)) = None /\
  st' = with_budgets (snd (plane_verdict env sid args (g_reg st) (g_budgets st))) st.
Proof.
  unfold plane_stage, plane_verdict. destruct (e_plane env) as [pe|]; cbn.
  2:{ split; [intros [= <-]; split; [done|]; by destruct st|intros [_ ->]; by destruct st]. }
  destruct (adminPlaneCheck _ _ _ _ _ _) as [[e|] b]; cbn.
  - destruct (log _ _ _). by split; [|intros []].
  - split; [by intros [= <-]|by intros [_ ->]].
Qed.

Lemma restricted_pass env restricted sid args st st' :
  restricted_check env restricted sid args st = (None, st') <->
  (restricted = true -> restricted_refuses (name_of args) = false) /\ st' = st.
Proof.
  unfold restricted_check. destruct restricted, (restricted_refuses (name_of args)); cbn.
  all: split; [intros [= <-]|intros [H ->]]; try done; by discriminate (H eq_refl).
Qed.

(** The state in which the approval gate is asked. *)
Definition policy_state (env : genv) (sid : bytes) (args : list bytes) (extra : PolicyContextExtra)
  (st : gstate) : gstate :=
  record (allow_record env sid args extra (g_reg st))
    (with_reg (context_table env sid args (g_reg st))
      (record (ACommand (lit "BASH") (joined args ++ controllerTag sid st)) st)).

Lemma gate_pass env restricted args sid extra st st' :
  args <> [] -> RemoteGateProcess env = false ->
  gateCommandContext env restricted args sid extra st = (None, st') <->
  has_nul args = false /\ e_fails env (g_writes st) = None /\ e_fails env (S (g_writes st)) = None /\
  agent_permits env sid args (g_reg st) /\ policy_permits env sid args extra (g_reg st) /\
  (restricted = true -> restricted_refuses (name_of args) = false) /\
  exists st3, gate_check env sid args (policy_state env sid args extra st) = (None, st3) /\
    fst (plane_verdict env sid args (g_reg st3) (g_budgets st3)) = None /\
    st' = snd (clear_denial sid args (with_budgets (snd (plane_verdict env sid args (g_reg st3) (g_budgets st3))) st3)).
Proof.
  intros Hne Hr. unfold gateCommandContext. destruct args as [|name rest] eqn:Ea; [done|]. rewrite <- Ea in *.
  destruct (has_nul args); [by split; [|intros []]|].
  unfold RemoteGateProcess in Hr. apply orb_false_iff in Hr as [Hm Hg].
  destruct (e_remoteGate env) eqn:Eg; [done|].
  assert (RemoteGateProcess env = false) as -> by (unfold RemoteGateProcess; by rewrite Hm, Eg).
  rewrite !seq_pass. split.
  - intros (st1 & H1%logged_pass & H2). destruct H1 as [H1 ->].
    apply seq_pass in H2 as (st2 & H2%agent_pass & H3). destruct H2 as [H2 ->].
    apply seq_pass in H3 as (st3 & H3%identity_pass & H4). destruct H3 as (H3 & H3' & ->).
    apply seq_pass in H4 as (st4 & H4%approval_pass & H5).
    apply seq_pass in H5 as (st5 & H5%plane_pass & H6). destruct H5 as [H5 ->].
    apply seq_pass in H6 as (st6 & H6%restricted_pass & H7). destruct H6 as [H6 ->].
    split_and!; try done. exists st4. split_and!; try done. by injection H7 as <-.
  - intros (_ & H1 & H2 & H3 & H4 & H5 & st3 & H6 & H7 & ->).
    eexists. split; [by apply logged_pass|]. apply seq_pass. eexists. split; [by apply agent_pass|].
    apply seq_pass. eexists. split; [by apply identity_pass|].
    apply seq_pass. eexists. split; [by apply approval_pass|].
    apply seq_pass. eexists. split; [by apply plane_pass|].
    apply seq_pass. eexists. split; [by apply restricted_pass|]. done.
Qed.

(** The condition, for the gate and for [why]. *)
Lemma gate_allows env restricted args sid extra st :
  args <> [] -> RemoteGateProcess env = false ->
  fst (gateCommandContext env restricted args sid extra st) = None <->
  has_nul args = false /\
  e_fails env (g_writes st) = None /\ e_fails env (S (g_writes st)) = None /\
  agent_permits env sid args (g_reg st) /\
  policy_permits env sid args extra (g_reg st) /\
  fst (gate_check env sid args (policy_state env sid args extra st)) = None /\
  fst (plane_verdict env sid args (context_table env sid args (g_reg st)) (g_budgets st)) = None /\
  (restricted = true -> restricted_refuses (name_of args) = false).
Proof.
  intros Hne Hr. split.
  - intros H. destruct (gateCommandContext _ _ _ _ _ _) as [o st'] eqn:E. cbn in H. subst o.
    apply gate_pass in E as (H1 & H2 & H3 & H4 & H5 & H6 & st3 & H7 & H8 & _); [|done..].
    destruct (check_frame _ _ _ _ _ _ H7) as (Hreg & _ & Hb & _). rewrite Hreg, Hb in H8.
    rewrite H7. done.
  - intros (H1 & H2 & H3 & H4 & H5 & H6 & H7 & H8).
    destruct (gate_check env sid args (policy_state env sid args extra st)) as [o st3] eqn:E. cbn in H6. subst o.
    destruct (check_frame _ _ _ _ _ _ E) as (Hreg & _ & Hb & _).
    erewrite (proj2 (gate_pass env restricted args sid extra st _ Hne Hr)); [done|].
    split_and!; try done. exists st3. rewrite Hreg, Hb. split_and!; done.
Qed.

(** C1: Outside an SSH session process the gate authorizes a command exactly
    when no word holds a NUL, both audit writes succeed, a bound agent is live
    and on its allow-list, the identity is known, policy and entitlements
    permit it, the approval gate passes it, the admin plane passes it and, in
    restricted mode, its name is allowed. *)
Theorem gate_allows_iff env restricted args sid extra st :
  args <> [] -> RemoteGateProcess env = false ->
  fst (gateCommandContext env restricted args sid extra st) = None <->
  has_nul args = false /\
  e_fails env (g_writes st) = None /\ e_fails env (S (g_writes st)) = None /\
  agent_permits env sid args (g_reg st) /\
  policy_permits env sid args extra (g_reg st) /\
  fst (gate_check env sid args (policy_state env sid args extra st)) = None /\
  fst (plane_verdict env sid args (context_table env sid args (g_reg st)) (g_budgets st)) = None /\
  (restricted = true -> restricted_refuses (name_of args) = false).
Proof. apply gate_allows. Qed.

(** ** What the ledger holds afterwards *)



























(** The stages after the command line. *)
Definition stages (env : genv) (restricted : bool) (args : list bytes) (sid : bytes)
  (extra : PolicyContextExtra) : stage :=
  agent_stage env sid args >>> identity_stage env sid args extra >>>
  approval_stage env sid args >>> plane_stage env sid args >>>
  restricted_check env restricted sid args >>> clear_denial sid args.




(** ** What [why] says and what the gate does *)

Definition any_denied (l : list ExplanationStage) : bool := existsb stage_denied l.
Definition any_approval (l : list ExplanationStage) : bool :=
  existsb stage_approval l.

Lemma outcome_denied l : outcome_of l = ODenied <-> any_denied l = true.
Proof. unfold outcome_of. fold (any_denied l) (any_approval l). by destruct (any_denied l), (any_approval l). Qed.
Lemma outcome_allowed l : outcome_of l = OAllowed <-> any_denied l = false /\ any_approval l = false.
Proof.
  unfold outcome_of. fold (any_denied l) (any_approval l).
  destruct (any_denied l), (any_approval l); split; try done; by intros [].
Qed.

Lemma policy_stages_denied p d err :
  any_denied (policy_stages p d err) = false <->
  p_IdentityUnknown p = false /\ err = None /\ Allowed d = true.
Proof.
  unfold policy_stages, any_denied. rewrite existsb_app, orb_false_iff.
  destruct (p_IdentityUnknown p), err as [[]|], (Allowed d); cbn; intuition congruence.
Qed.

Lemma policy_stages_approval p d err : any_approval (policy_stages p d err) = false.
Proof.
  unfold policy_stages, any_approval. rewrite existsb_app.
  destruct (p_IdentityUnknown p), err as [[]|]; cbn; try done; by destruct (Allowed d).
Qed.

Lemma entitlement_stage_denied env p cmd :
  stage_denied (entitlement_stage env p cmd) = false <-> entitled env p cmd.
Proof.
  unfold entitlement_stage, entitled. destruct (entitlementsLoaded (e_ent env)); cbn; [|by split].
  destruct (IsAuthorized _ _ _ _); split; try done. intros H. by specialize (H eq_refl).
Qed.

Lemma restricted_stage_denied env cmd :
  stage_denied (restricted_stage env cmd) = false <-> (e_restricted env = true -> restricted_refuses cmd = false).
Proof.
  unfold restricted_stage. destruct (e_restricted env); cbn; [|by split].
  unfold restricted_refuses. destruct (existsb _ cmd) eqn:E; cbn.
  - split; [done|]. intros H. by specialize (H eq_refl).
  - destruct (bool_decide (cmd = lit "cd") || bool_decide (cmd = lit "export")); split; try done.
    intros H. by specialize (H eq_refl).
Qed.

Lemma other_approval env p cmd :
  any_approval [entitlement_stage env p cmd] = false /\ any_approval [restricted_stage env cmd] = false.
Proof. unfold entitlement_stage, restricted_stage. split; repeat case_match; done. Qed.

Lemma context_unknown p extra : p_IdentityUnknown (complete_context p extra) = p_IdentityUnknown p.
Proof. done. Qed.

Lemma explain_outcome env sid cmd rest st :
  cmd <> [] ->
  exists ex, fst (ExplainCommand env sid (cmd :: rest) st) = Some ex /\
    ex_Outcome ex = outcome_of
      (policy_stages (context_of env sid (cmd :: rest) no_extra (g_reg st))
         (fst (decision_of env (context_of env sid (cmd :: rest) no_extra (g_reg st))))
         (snd (decision_of env (context_of env sid (cmd :: rest) no_extra (g_reg st)))) ++
       [entitlement_stage env (context_of env sid (cmd :: rest) no_extra (g_reg st)) cmd] ++
       gate_explain env sid (cmd :: rest) ++ [restricted_stage env cmd]).
Proof.
  intros Hc. destruct cmd as [|c cmd]; [done|].
  unfold ExplainCommand, command_context, context_of, base_context, decision_of. cbn [name_of hd tail].
  destruct (buildPolicyContext _ _ _ _ _ _ _) as [p0 r]. cbn [fst].
  destruct (EvaluatePolicyDecision _ _ _) as [d err]. cbn [fst snd].
  eexists. split; [reflexivity|]. reflexivity.
Qed.

(** C6: Outside an SSH session process, on a non-empty name and words without
    a NUL, for a session without an agent binding, without an admin plane and
    with a working ledger, why predicts the gate that is run with the
    restricted setting of the engine, which is the one why uses: an allowed
    explanation means that gate authorizes, a denied one means it refuses, and
    one that requires approval leaves the verdict to the approval gate. *)
Theorem explain_matches_gate env sid cmd rest st :
  cmd <> [] -> RemoteGateProcess env = false -> has_nul (cmd :: rest) = false ->
  (forall n, e_fails env n = None) -> bound_agent sid (g_reg st) = None -> e_plane env = None ->
  let gate := fst (gateCommandContext env (e_restricted env) (cmd :: rest) sid no_extra st) in
  exists ex, fst (ExplainCommand env sid (cmd :: rest) st) = Some ex /\
    (ex_Outcome ex = OAllowed -> gate = None) /\
    (ex_Outcome ex = ODenied -> gate <> None) /\
    (ex_Outcome ex = OApproval ->
       gate = None <-> fst (gate_check env sid (cmd :: rest) (policy_state env sid (cmd :: rest) no_extra st)) = None).
Proof.
  intros Hc Hr Hn Hf Ha Hp. cbv zeta.
  pose proof (gate_allows env (e_restricted env) (cmd :: rest) sid no_extra st ltac:(done) Hr) as Hg.
  destruct (explain_outcome env sid cmd rest st Hc) as (ex & He & Ho). exists ex. split; [done|]. rewrite Ho.
  set (p := context_of env sid (cmd :: rest) no_extra (g_reg st)) in *.
  set (d := decision_of env p) in *.
  assert (Hap : any_approval (policy_stages p (fst d) (snd d) ++ [entitlement_stage env p cmd] ++
      gate_explain env sid (cmd :: rest) ++ [restricted_stage env cmd]) = any_approval (gate_explain env sid (cmd :: rest))).
  { unfold any_approval in *. rewrite !existsb_app.
    destruct (other_approval env p cmd) as [H1 H2]. unfold any_approval in H1, H2. rewrite H1, H2.
    pose proof (policy_stages_approval p (fst d) (snd d)) as H3. unfold any_approval in H3. rewrite H3.
    cbn [orb]. by rewrite orb_false_r. }
  assert (Hde : any_denied (policy_stages p (fst d) (snd d) ++ [entitlement_stage env p cmd] ++
      gate_explain env sid (cmd :: rest) ++ [restricted_stage env cmd]) = false <->
      policy_permits env sid (cmd :: rest) no_extra (g_reg st) /\
      any_denied (gate_explain env sid (cmd :: rest)) = false /\
      (e_restricted env = true -> restricted_refuses cmd = false)).
  { unfold any_denied. rewrite !existsb_app, !orb_false_iff.
    change (existsb stage_denied (policy_stages p (fst d) (snd d))) with (any_denied (policy_stages p (fst d) (snd d))).
    cbn [existsb]. rewrite !orb_false_r, policy_stages_denied, entitlement_stage_denied, restricted_stage_denied.
    unfold policy_permits. fold p d. cbn [name_of hd]. tauto. }
  assert (Hag : agent_permits env sid (cmd :: rest) (g_reg st)) by (unfold agent_permits; by rewrite Ha).
  assert (Hpl : forall r b, fst (plane_verdict env sid (cmd :: rest) r b) = None)
    by (intros; unfold plane_verdict; by rewrite Hp).
  rewrite Hg. cbn [name_of hd]. split_and!.
  - intros [H1 H2]%outcome_allowed. rewrite Hap in H2. apply Hde in H1 as (H3 & H4 & H5).
    split_and!; try done. rewrite explain_clear; [done|]. by apply outcome_allowed.
  - intros H1%outcome_denied (_ & _ & _ & _ & H3 & H4 & _ & H5).
    assert (any_denied (gate_explain env sid (cmd :: rest)) = true) as H6.
    { destruct (any_denied (gate_explain env sid (cmd :: rest))) eqn:E; [done|].
      rewrite (proj2 Hde) in H1; done. }
    apply outcome_denied in H6. by apply (explain_denied _ _ _ (policy_state env sid (cmd :: rest) no_extra st)) in H6.
  - intros H. assert (Hd : any_denied (policy_stages p (fst d) (snd d) ++ [entitlement_stage env p cmd] ++
      gate_explain env sid (cmd :: rest) ++ [restricted_stage env cmd]) = false).
    { destruct (any_denied _) eqn:E; [|done]. apply outcome_denied in E. congruence. }
    apply Hde in Hd as (H3 & _ & H5). split; [by intros (_ & _ & _ & _ & _ & ? & _)|]. by intros H6.
Qed.

Lemma explain_table env sid args st st' :
  g_reg st = g_reg st' -> fst (ExplainCommand env sid args st) = fst (ExplainCommand env sid args st').
Proof.
  intros H. unfold ExplainCommand, command_context. rewrite H.
  destruct args as [|[|c cmd] rest]; [done..|]. destruct (buildPolicyContext _ _ _ _ _ _ _) as [p r].
  by destruct (EvaluatePolicyDecision _ _ _).
Qed.

Lemma explain_state env sid args st :
  g_denials (snd (ExplainCommand env sid args st)) = g_denials st.
Proof.
  unfold ExplainCommand, command_context. destruct args as [|[|c cmd] rest]; [done..|].
  destruct (buildPolicyContext _ _ _ _ _ _ _) as [p r]. by destruct (EvaluatePolicyDecision _ _ _).
Qed.

(** When the gate denies a managed agent a command that the explained stages
    allow, as for a command off the agent allow-list, the denial is not
    remembered, so the last denial of the session stays what it was. *)
Theorem agent_denial_forgotten env restricted args sid extra st s a ex :
  args <> [] -> RemoteGateProcess env = false -> has_nul args = false ->
  e_fails env (g_writes st) = None ->
  bound_agent sid (g_reg st) = Some (s, a) -> AgentCommandAllowed (name_of args) = false ->
  fst (ExplainCommand env sid args st) = Some ex -> ex_Outcome ex = OAllowed ->
  let '(o, st') := gateCommandContext env restricted args sid extra st in
  (exists d ae, o = Some (Deny d ae) /\ (d = AgentExpired \/ d = AgentCannot (name_of args))) /\
  g_denials st' = g_denials st.
Proof.
  intros Hne Hr Hn Hf Hb Hc Hx Ho. unfold gateCommandContext.
  destruct args as [|name rest] eqn:Ea; [done|]. rewrite <- Ea in *. rewrite Hn.
  pose proof Hr as Hr'. unfold RemoteGateProcess in Hr'. apply orb_false_iff in Hr' as [_ Hg].
  destruct (e_remoteGate env); [done|]. rewrite Hr. unfold seq at 1, logged_or_fail, log. rewrite Hf.
  unfold seq, agent_stage. cbn [g_reg]. rewrite Hb, Hc. cbn [negb].
  set (st1 := mkG _ _ _ _ _ _).
  assert (Hrem : g_denials (remember env sid args st1) = g_denials st).
  { unfold remember. pose proof (explain_table env sid args st1 st eq_refl) as Ht. rewrite Hx in Ht.
    pose proof (explain_state env sid args st1) as Hs.
    destruct (ExplainCommand env sid args st1) as [o s1]. cbn in Ht, Hs. subst o. by rewrite bool_decide_true. }
  assert (Hdeny : forall d, let '(o, st') := deny env sid args (s_User s) d st1 in
    (exists ae, o = Some (Deny d ae)) /\ g_denials st' = g_denials st).
  { intros d. unfold deny. destruct (log env _ _) as [ae s'] eqn:El. split; [by exists ae|].
    unfold log in El. destruct (e_fails env (g_writes (remember env sid args st1)));
      apply (f_equal snd) in El; cbn [snd] in El; subst s'; exact Hrem. }
  destruct (e_now env <? ag_ExpiresAt a); cbn [negb].
  - specialize (Hdeny (AgentCannot (name_of args))). destruct (deny _ _ _ _ _ _) as [o st'].
    destruct Hdeny as [[ae ->] ?]. split; [|done]. eexists _, _. split; [done|]. by right.
  - specialize (Hdeny AgentExpired). destruct (deny _ _ _ _ _ _) as [o st'].
    destruct Hdeny as [[ae ->] ?]. split; [|done]. eexists _, _. split; [done|]. by left.
Qed.

(** ** What runs is what the gate saw *)

Lemma no_nul_no_prefix name k : has_nul [name] = false -> name <> shadowPrefix ++ k.
Proof. intros H ->. by cbn in H. Qed.

Lemma unshadow_shadow vbins args :
  has_nul [name_of args] = false -> unshadowBuiltinVBin (shadowBuiltinVBin vbins args) = args.
Proof.
  destruct args as [|name rest]; [done|]. cbn [name_of hd shadowBuiltinVBin]. intros Hn.
  destruct (builtinNamedVBin name && bool_decide (name ∈ vbins)) eqn:Eb; cbn [unshadowBuiltinVBin].
  - apply andb_true_iff in Eb as [Eb _]. by rewrite has_prefix_app, drop_app_length, Eb.
  - destruct (has_prefix shadowPrefix name) eqn:E; [|done].
    apply has_prefix_spec in E as [k E]. by apply no_nul_no_prefix in E.
Qed.

Lemma shadow_hides vbins args :
  builtinNamedVBin (name_of (shadowBuiltinVBin vbins args)) = true -> name_of args ∉ vbins.
Proof.
  destruct args as [|name rest]; [done|]. cbn [shadowBuiltinVBin].
  destruct (builtinNamedVBin name) eqn:E; cbn [andb]; [|by cbn; rewrite E].
  by case_bool_decide.
Qed.

Lemma has_nul_name args : has_nul args = false -> has_nul [name_of args] = false.
Proof. destruct args as [|a l]; [done|]. unfold has_nul. cbn. rewrite !orb_false_iff. tauto. Qed.

Lemma listener_name args : sshRunsInListener args = true -> has_nul [name_of args] = false.
Proof.
  destruct args as [|name rest]; [done|]. cbn [sshRunsInListener name_of hd].
  case_bool_decide as H; [by subst|]. unfold sshListenerRuns.
  destruct (mem name _) eqn:E.
  - apply mem_In in E. cbn [lits map In] in E. destruct_or?; subst; done.
  - repeat case_bool_decide; subst; done.
Qed.

Lemma gate_no_nul env restricted args sid extra st st' :
  gateCommandContext env restricted args sid extra st = (None, st') -> has_nul args = false.
Proof.
  unfold gateCommandContext. destruct args; [done|]. by destruct (has_nul _).
Qed.

(** Whatever arguments the call handler hands to the interpreter, the exec
    handler sees after unshadowing exactly the rewritten arguments that the
    gate authorized, or in an SSH session process arguments of a listener-run
    binary, and no registered builtin-named binary keeps its name. *)
Theorem callHandler_runs_gated env restricted sid vbins args st args' note st' :
  callHandler env restricted sid vbins args st = (Ok (args', note), st') ->
  exists gated alias,
    admin_rewrite env args = Ok (gated, alias) /\
    unshadowBuiltinVBin args' = gated /\
    (builtinNamedVBin (name_of args') = true -> name_of gated ∉ vbins) /\
    ((RemoteGateProcess env = true /\ sshRunsInListener gated = true /\ note = [] /\ st' = st) \/
     (gateCommandContext env restricted gated sid no_extra st = (None, st') /\ note = alias)).
Proof.
  destruct args as [|a l]; intros H.
  { injection H as <- <- <-. exists [], []. unfold admin_rewrite. split_and!; try done; [by destruct (e_plane env)|].
    by right. }
  unfold callHandler in H. destruct (admin_rewrite env (a :: l)) as [[gated alias]|e] eqn:Er.
  2:{ by destruct (log _ _ _). }
  exists gated, alias. split; [done|].
  destruct (RemoteGateProcess env && sshRunsInListener gated) eqn:E.
  - apply andb_true_iff in E as [E1 E2]. injection H as <- <- <-.
    rewrite unshadow_shadow by (by apply listener_name). split_and!; [done|apply shadow_hides|]. by left.
  - destruct (gateCommandContext _ _ _ _ _ _) as [[e|] s] eqn:Eg; [done|]. injection H as <- <- <-.
    rewrite unshadow_shadow by (eapply has_nul_name, gate_no_nul, Eg).
    split_and!; [done|apply shadow_hides|]. by right.
Qed.

(** ** What the pre-scan guarantees *)

(** The nodes of a program in the order [syntax.Walk] visits them. *)
Fixpoint preorder (n : node) : list nodeKind :=
  match n with Node k children => k :: flat_map preorder children end.

Fixpoint node_ind' (P : node -> Prop)
  (H : forall k children, Forall P children -> P (Node k children)) (n : node) : P n :=
  match n with
  | Node k children =>
      H k children ((fix all (l : list node) : Forall P l :=
        match l with [] => Forall_nil_2 P | c :: l' => Forall_cons_2 P c l' (node_ind' P H c) (all l') end) children)
  end.

Fixpoint scan_list (env : genv) (restricted : bool) (sid : bytes) (l : list nodeKind) (st : gstate)
  : option progErr * gstate :=
  match l with
  | [] => (None, st)
  | k :: l' => match scan_item env restricted sid k st with
               | (Some e, st) => (Some e, st)
               | (None, st) => scan_list env restricted sid l' st
               end
  end.

Lemma scan_list_app env restricted sid a b st :
  scan_list env restricted sid (a ++ b) st =
  match scan_list env restricted sid a st with
  | (Some e, st) => (Some e, st)
  | (None, st) => scan_list env restricted sid b st
  end.
Proof.
  revert st. induction a as [|k a IH]; intros st; [done|]. cbn [app scan_list].
  destruct (scan_item _ _ _ _ _) as [[e|] st1]; [done|apply IH].
Qed.

Lemma gateProgram_preorder env restricted sid n : forall st,
  gateProgram env restricted sid n st = scan_list env restricted sid (preorder n) st.
Proof.
  induction n as [k children IH] using node_ind'; intros st. cbn [gateProgram preorder scan_list].
  destruct (scan_item _ _ _ k st) as [[e|] st1]; [done|]. revert st1.
  induction IH as [|c l Hc _ IHl]; intros st1; [done|]. cbn [flat_map]. rewrite scan_list_app, Hc.
  destruct (scan_list _ _ _ (preorder c) st1) as [[e|] st2]; [done|]. apply IHl.
Qed.

(** The declaration commands of a program, and the redirects it may hold. *)
Definition decls (n : node) : list (list bytes) :=
  omap (fun k => match k with DeclClause args => Some args | _ => None end) (preorder n).
Definition fd_ok (k : nodeKind) : Prop :=
  match k with RedirectNode (Some fd) => is_one_of fd ["0"; "1"; "2"]%string = true | _ => True end.

(** Each command passes the gate in the state the ones before it left. *)
Fixpoint all_gated (env : genv) (restricted : bool) (sid : bytes) (l : list (list bytes)) (st st' : gstate) : Prop :=
  match l with
  | [] => st' = st
  | args :: l' => exists st1, gateCommandContext env restricted args sid no_extra st = (None, st1) /\
                              all_gated env restricted sid l' st1 st'
  end.

(** The pre-scan accepts a program exactly when every redirect in it names no
    fd but 0, 1 and 2 and each of its declaration commands, in source order,
    passes the gate in the state the earlier ones left. *)
Theorem gateProgram_ok_iff env restricted sid n st st' :
  gateProgram env restricted sid n st = (None, st') <->
  Forall fd_ok (preorder n) /\ all_gated env restricted sid (decls n) st st'.
Proof.
  rewrite gateProgram_preorder. unfold decls. revert st.
  induction (preorder n) as [|k l IH]; intros st; cbn [scan_list omap list_omap all_gated].
  { split; [intros [= ->]; by split|by intros [_ ->]]. }
  rewrite Forall_cons. destruct k as [[fd|]|args|]; cbn [scan_item fd_ok].
  - destruct (is_one_of fd _); [rewrite IH; tauto|]. split; [done|]. by intros [[? _] _].
  - rewrite IH. tauto.
  - destruct (gateCommandContext env restricted args sid no_extra st) as [[e|] s] eqn:E; cbn.
    + split; [done|]. intros (_ & s1 & H & _). congruence.
    + rewrite IH. split; [intros [? ?]; split_and!; try done; by exists s|].
      intros ([_ ?] & s1 & Hg & ?). by assert (s = s1) as -> by congruence.
  - rewrite IH. tauto.
Qed.

End gate_theorems.

(** ** Witnesses *)

(** Patterns that match themselves only. *)
Definition literalPatterns : Patterns := {|
  filepath_Match := fun p c => bool_decide (p = c);
  regexp_Compile := fun re => Some (fun c => bool_decide (re = lit "^(?s:" ++ QuoteMeta c ++ lit ")$"))
|}.
#[local] Existing Instance literalPatterns.
#[local] Existing Instance coreApprovalGate.

(** A process with one four-eyes rule, whose policy allows four commands. *)
Definition demoQuery : query := fun v =>
  match v with
  | JObject m =>
      match get (lit "command") m with
      | Some (JString c) => Ok [JObject [(lit "allow", JBool (is_one_of c ["git"; "why"; "rm"; "history"]%string))]]
      | _ => Ok []
      end
  | _ => Ok []
  end.
Definition demoEnv : genv :=
  mkEnv 100 (lit "root", [lit "wheel"]) ∅ (Some demoQuery) false None noEntitlements false false
    [lit "reboot"] ∅ ∅ (Ok [mkRule (lit "rm x") (lit "bob") 60 [] []]) (fun _ _ _ => None) None (fun _ => None).
Definition demoAgentSession : Session :=
  run_op 0 (OpBindAgent (Some (mkAgent (lit "a1") (lit "f1") [] [] 200))) demoSession.
Definition demoState : gstate :=
  mkG (mkReg {[lit "s1" := demoSession]} ∅ 0) [] 0 ∅ ∅ [].
Definition demoAgentState : gstate :=
  mkG (mkReg {[lit "s1" := demoAgentSession]} ∅ 0) [] 0 ∅ ∅ [].

(** [git status] passes, so policy permits it for the session's user. *)
Lemma gate_allows_iff_witness :
  policy_permits demoEnv (lit "s1") [lit "git"; lit "status"] no_extra (g_reg demoState).
Proof.
  apply (gate_allows_iff demoEnv true [lit "git"; lit "status"] (lit "s1") no_extra demoState);
    [discriminate|reflexivity|vm_compute; reflexivity].
Defined.


Lemma explain_matches_gate_witness :
  fst (gateCommandContext demoEnv false [lit "reboot"] (lit "s1") no_extra demoState) <> None.
Proof.
  destruct (explain_matches_gate demoEnv (lit "s1") (lit "reboot") [] demoState
    ltac:(discriminate) eq_refl eq_refl ltac:(intros; reflexivity) eq_refl eq_refl) as (ex & He & _ & Hd & _).
  apply Hd. assert (E : ex_Outcome <$> fst (ExplainCommand demoEnv (lit "s1") [lit "reboot"] demoState) = Some ODenied)
    by (vm_compute; reflexivity).
  rewrite He in E. injection E as E. exact E.
Defined.

Lemma agent_denial_forgotten_witness :
  g_denials (snd (gateCommandContext demoEnv false [lit "git"; lit "push"] (lit "s1") no_extra demoAgentState)) = ∅.
Proof.
  destruct (fst (ExplainCommand demoEnv (lit "s1") [lit "git"; lit "push"] demoAgentState)) as [ex|] eqn:E;
    [|vm_compute in E; discriminate E].
  assert (Eo : ex_Outcome <$> fst (ExplainCommand demoEnv (lit "s1") [lit "git"; lit "push"] demoAgentState) = Some OAllowed)
    by (vm_compute; reflexivity).
  rewrite E in Eo. injection Eo as Eo.
  pose proof (agent_denial_forgotten demoEnv false [lit "git"; lit "push"] (lit "s1") no_extra demoAgentState
    demoAgentSession (mkAgent (lit "a1") (lit "f1") [] [] 200) ex
    ltac:(discriminate) eq_refl eq_refl eq_refl ltac:(vm_compute; reflexivity) eq_refl E Eo) as H.
  destruct (gateCommandContext _ _ _ _ _ demoAgentState). apply H.
Defined.

(** [history] reaches the interpreter under its shadow name, and what the
    exec handler gets back is what the gate allowed. *)
Lemma callHandler_runs_gated_witness :
  exists args', fst (callHandler demoEnv false (lit "s1") {[lit "history"]} [lit "history"; lit "5"] demoState) = Ok (args', []) /\
    fst (gateCommandContext demoEnv false (unshadowBuiltinVBin args') (lit "s1") no_extra demoState) = None.
Proof.
  destruct (callHandler demoEnv false (lit "s1") {[lit "history"]} [lit "history"; lit "5"] demoState)
    as [[[args' note]|e] st'] eqn:E; [|vm_compute in E; discriminate E].
  assert (En : note = []) by (vm_compute in E; congruence).
  destruct (callHandler_runs_gated _ _ _ _ _ _ _ _ _ E) as (g & al & _ & Hu & _ & [(Hr & _)|[Hg _]]);
    [vm_compute in Hr; discriminate Hr|].
  exists args'. split; [by rewrite En|]. rewrite Hu, Hg. reflexivity.
Defined.
