(* ===== verification/FourEyes.v ===== *)
(** * Four-eyes requests and decisions

    security/foureyes_ee.go and security/foureyes_pending_ee.go: a command held
    for a second person.  The requester creates a request file and polls for a
    marker; a decider claims the file by renaming it, records the decision in
    the ledger, and writes the marker.  Both, and the sweep of stale claims, are
    processes that share the four-eyes directory and the ledger, and each of
    their steps is one operation on them.

    A step is given the clock and whether the operation it performs succeeds.
    The scan of the pending directory that locates a request is one step. *)

From S2P Require Import Prelude GoBytes Json MonitorProto Session Gate.
#[local] Arguments lit : simpl never.

(** ** Data *)

Record FourEyesPending := mkPending {
  fp_Token : bytes; fp_RequestID : bytes; fp_Command : bytes; fp_Requester : bytes;
  fp_Hostname : bytes; fp_Timestamp : bytes; fp_Rule : FourEyesRule
}.

(** What reading the request file gives back: [encoding/json] replaces invalid
    UTF-8 when it writes a string. *)
Definition stored_rule (r : FourEyesRule) : FourEyesRule :=
  mkRule (to_valid 0 (fr_Pattern r)) (to_valid 0 (fr_Approver r)) (fr_TTL r)
    (to_valid 0 (fr_NotApprover r)) (to_valid 0 (fr_Surface r)).
Definition stored (p : FourEyesPending) : FourEyesPending :=
  mkPending (to_valid 0 (fp_Token p)) (to_valid 0 (fp_RequestID p)) (to_valid 0 (fp_Command p))
    (to_valid 0 (fp_Requester p)) (to_valid 0 (fp_Hostname p)) (to_valid 0 (fp_Timestamp p))
    (stored_rule (fp_Rule p)).

(** A file of the pending directory; its content is absent while it does not
    parse. *)
Record file := mkFile { f_content : option FourEyesPending; f_mtime : Z }.
(** A marker; absent while it is created and not written. *)
Record marker := mkMarker { m_at : Z; m_approver : bytes; m_surface : bytes }.

Inductive event :=
| EDecision (request approver : bytes) (approve : bool) (surface : bytes)
| EReverted (request approver : bytes)
| EClaimExpired (request : bytes).

(** The directories and the ledger.  [s_leftover] notes the requests whose
    marker could not be removed after a failed write. *)
Record shared := mkShared {
  s_dir : gmap bytes file;
  s_approved : gmap bytes (option marker);
  s_denied : gmap bytes (option marker);
  s_chain : list event;
  s_leftover : gset bytes
}.

Definition set_dir (d : gmap bytes file) (s : shared) : shared :=
  mkShared d (s_approved s) (s_denied s) (s_chain s) (s_leftover s).
Definition append (e : event) (s : shared) : shared :=
  mkShared (s_dir s) (s_approved s) (s_denied s) (s_chain s ++ [e]) (s_leftover s).
Definition markers (approve : bool) (s : shared) : gmap bytes (option marker) :=
  if approve then s_approved s else s_denied s.
Definition set_markers (approve : bool) (m : gmap bytes (option marker)) (s : shared) : shared :=
  if approve then mkShared (s_dir s) m (s_denied s) (s_chain s) (s_leftover s)
  else mkShared (s_dir s) (s_approved s) m (s_chain s) (s_leftover s).
Definition leave_marker (id : bytes) (s : shared) : shared :=
  mkShared (s_dir s) (s_approved s) (s_denied s) (s_chain s) ({[id]} ∪ s_leftover s).

Definition json_name (id : bytes) : bytes := id ++ lit ".json".
Definition claimed_name (id : bytes) : bytes := id ++ lit ".claimed".
Definition trim_suffix (suf n : bytes) : bytes :=
  if has_suffix suf n then take (length n - length suf) n else n.

(** [os.ReadDir] lists by file name. *)
Definition file_names (s : shared) : list bytes := sort_strings (elements (dom (s_dir s))).

Definition seconds (n : Z) : Z := wraps 64 (n * 1000000000).
Definition default_ttl (r : FourEyesRule) : Z := if fr_TTL r <=? 0 then 300 else fr_TTL r.

(** ** Who may request and decide *)

Inductive identityErr := DecisionsForbidden | NoSession | AgentSession | AssertedIdentity (source : bytes) | NoUser.

Definition verified_source (source : bytes) : bool :=
  bool_decide (source = []) || bool_decide (source = IdentitySourceOIDCVerified).

Definition shellApprover (forbidden : bool) (now : Z) (sid : bytes) (r : registry)
  : result identityErr bytes * registry :=
  if forbidden then (Err DecisionsForbidden, r)
  else if bool_decide (sid = []) then (Err NoSession, r)
  else match GetSession sid r with
  | None => (Err NoSession, r)
  | Some s =>
      match s_agentBinding s with
      | Some _ => (Err AgentSession, r)
      | None =>
          if negb (verified_source (s_identitySource s)) then (Err (AssertedIdentity (s_identitySource s)), r)
          else
            let '(info, s') := Info now s in
            let r' := mkReg (<[sid := s']> (globalSessions r)) (unregisterHooks r) (unregisterHookSeq r) in
            (if bool_decide (i_User info = []) then Err NoUser else Ok (i_User info), r')
      end
  end.

Definition checkRequesterIdentity (sid : bytes) (r : registry) : option identityErr :=
  if bool_decide (sid = []) then None
  else match GetSession sid r with
  | None => None
  | Some s => if verified_source (s_identitySource s) then None else Some (AssertedIdentity (s_identitySource s))
  end.

(** [os_user] is the process user, empty when the lookup fails. *)
Definition approvalActor (os_user sid : bytes) (r : registry) : bytes :=
  if bool_decide (sid = []) then os_user
  else match GetSession sid r with Some s => s_User s | None => os_user end.

Definition token_char (c : byte) : bool :=
  let z := byte_val c in
  ((97 <=? z) && (z <=? 122)) || ((65 <=? z) && (z <=? 90)) || ((48 <=? z) && (z <=? 57))
  || (z =? 45) || (z =? 95).
Definition validApprovalToken (t : bytes) : bool :=
  negb (bool_decide (t = [])) && (zlen t <=? 128) && bool_decide (path_base t = t) && forallb token_char t.

(** ** Rules *)

(** [rules] is the rules file, [None] when it cannot be read. *)
Definition AddFourEyesRule (pattern approver : bytes) (ttl : Z) (rules : list FourEyesRule) : list FourEyesRule :=
  let new := mkRule pattern approver (if ttl <=? 0 then 300 else ttl) [] [] in
  (fix add (l : list FourEyesRule) : list FourEyesRule :=
     match l with
     | [] => [new]
     | r :: l' => if bool_decide (fr_Pattern r = pattern) then new :: l' else r :: add l'
     end) rules.
Definition RemoveFourEyesRule (pattern : bytes) (rules : list FourEyesRule) : list FourEyesRule :=
  List.filter (fun r => negb (bool_decide (fr_Pattern r = pattern))) rules.

(** ** The sweep of stale claims *)

Inductive sweepPC := SStart | SNext (names : list bytes) | SRemove (name : bytes) (names : list bytes).

(** [sweepStaleClaims]; [None] when it is done. A claim is looked up, read
    and logged in one step, which skips it when it fails: that is what the code does
    when Info or the log fails. A claim that is there but cannot be read, which
    the code gives the default of 300 seconds, is not modelled. *)
Definition sweep_step (now : Z) (ok : bool) (pc : sweepPC) (s : shared) : option sweepPC * shared :=
  match pc with
  | SStart => if ok then (Some (SNext (List.filter (has_suffix (lit ".claimed")) (file_names s))), s) else (None, s)
  | SNext [] => (None, s)
  | SNext (n :: l) =>
      match s_dir s !! n with
      | None => (Some (SNext l), s)
      | Some f =>
          let ttl := match f_content f with
                     | Some p => if 0 <? fr_TTL (fp_Rule p) then fr_TTL (fp_Rule p) else 300
                     | None => 300
                     end in
          if now - f_mtime f <=? seconds ttl then (Some (SNext l), s)
          else if ok then (Some (SRemove n l), append (EClaimExpired (trim_suffix (lit ".claimed") n)) s)
          else (Some (SNext l), s)
      end
  | SRemove n l => (Some (SNext l), if ok then set_dir (delete n (s_dir s)) s else s)
  end.

(** ** Deciding *)

Record decision := mkDecision4 {
  d_token : bytes; d_approver : bytes; d_surface : bytes; d_approve : bool; d_forbidden : bool }.

Inductive decideErr :=
| Forbidden | DirFailed | BadToken | NoApprover | NotPending | ParseFailed | TokenMismatch
| OwnRequest | WrongApprover | ExcludedApprover | WrongSurface
| AlreadyDecided | ClaimFailed | AuditWriteFailed | MarkerFailed | CleanupFailed.

Section four_eyes.
Context {Sh : Sha256}.

Definition constantTimeEqual (a b : bytes) : bool :=
  negb (bool_decide (a = [])) && negb (bool_decide (b = [])) && bool_decide (sha256_hex a = sha256_hex b).

Fixpoint scan_pending (s : shared) (presented : bytes) (names : list bytes)
  : result decideErr (FourEyesPending * bytes * bytes) :=
  match names with
  | [] => Err NotPending
  | n :: l =>
      match (if has_suffix (lit ".json") n then s_dir s !! n else None) with
      | Some (mkFile (Some p) _) =>
          if bool_decide (fp_Token p = []) || negb (constantTimeEqual (fp_Token p) presented)
          then scan_pending s presented l
          else Ok (p, n, trim_suffix (lit ".json") n)
      | _ => scan_pending s presented l
      end
  end.

(** The request, its file, and the name of its marker. *)
Definition locatePending (presented : bytes) (s : shared)
  : result decideErr (FourEyesPending * bytes * bytes) :=
  match s_dir s !! json_name presented with
  | Some (mkFile None _) => Err ParseFailed
  | Some (mkFile (Some p) _) =>
      if bool_decide (fp_Token p = []) || constantTimeEqual (fp_Token p) presented
         || bool_decide (fp_RequestID p = presented)
      then Ok (p, json_name presented, presented)
      else Err TokenMismatch
  | None => scan_pending s presented (file_names s)
  end.

Definition decide_refusal (p : FourEyesPending) (approver surface : bytes) : option decideErr :=
  let r := fp_Rule p in
  if negb (bool_decide (fp_Requester p = [])) && bool_decide (approver = fp_Requester p) then Some OwnRequest
  else if negb (bool_decide (fr_Approver r = [])) && negb (bool_decide (approver = fr_Approver r)) then Some WrongApprover
  else if negb (bool_decide (fr_NotApprover r = [])) && bool_decide (approver = fr_NotApprover r) then Some ExcludedApprover
  else if negb (bool_decide (fr_Surface r = [])) && negb (bool_decide (surface = fr_Surface r)) then Some WrongSurface
  else None.

(** Where a decider is.  [file] is the request file, [mk] the marker's name.
    [DDone]: the error, and whether the claim was put back. *)
Inductive decidePC :=
| DStart | DSweep (pc : sweepPC) | DLocate
| DClaim (file mk : bytes) | DStamp (file mk : bytes) | DLog (file mk : bytes)
| DCreate (file mk : bytes) | DWrite (file mk : bytes) | DUnwrite (file mk : bytes)
| DRevert (file mk : bytes) | DRelease (file mk : bytes) (cause : decideErr)
| DCleanup (file mk : bytes) | DDone (r : option (decideErr * bool)).

Definition refused (e : decideErr) (s : shared) : decidePC * shared := (DDone (Some (e, false)), s).

(** [DecideRequest], one operation at a time. *)
Definition decide_step (now : Z) (ok : bool) (rq : decision) (pc : decidePC) (s : shared)
  : decidePC * shared :=
  match pc with
  | DStart =>
      if d_forbidden rq then refused Forbidden s
      else if negb ok then refused DirFailed s
      else if negb (validApprovalToken (d_token rq)) then refused BadToken s
      else if bool_decide (d_approver rq = []) then refused NoApprover s
      else (DSweep SStart, s)
  | DSweep sp =>
      match sweep_step now ok sp s with
      | (Some sp', s') => (DSweep sp', s')
      | (None, s') => (DLocate, s')
      end
  | DLocate =>
      match locatePending (d_token rq) s with
      | Err e => refused e s
      | Ok (p, file, mk) =>
          match decide_refusal p (d_approver rq) (d_surface rq) with
          | Some e => refused e s
          | None => (DClaim file mk, s)
          end
      end
  | DClaim file mk =>
      match s_dir s !! file with
      | None => refused AlreadyDecided s
      | Some f =>
          if ok then (DStamp file mk, set_dir (<[claimed_name mk := f]> (delete file (s_dir s))) s)
          else refused ClaimFailed s
      end
  | DStamp file mk =>
      (DLog file mk,
       if ok then set_dir (alter (fun f => mkFile (f_content f) now) (claimed_name mk) (s_dir s)) s else s)
  | DLog file mk =>
      if ok then (DCreate file mk, append (EDecision mk (d_approver rq) (d_approve rq) (d_surface rq)) s)
      else (DRelease file mk AuditWriteFailed, s)
  | DCreate file mk =>
      match markers (d_approve rq) s !! mk with
      | Some _ => (DRevert file mk, s)
      | None => if ok then (DWrite file mk, set_markers (d_approve rq) (<[mk := None]> (markers (d_approve rq) s)) s)
                else (DRevert file mk, s)
      end
  | DWrite file mk =>
      if ok then (DCleanup file mk,
        set_markers (d_approve rq)
          (<[mk := Some (mkMarker now (d_approver rq) (d_surface rq))]> (markers (d_approve rq) s)) s)
      else (DUnwrite file mk, s)
  | DUnwrite file mk =>
      (DRevert file mk,
       if ok then set_markers (d_approve rq) (delete mk (markers (d_approve rq) s)) s else leave_marker mk s)
  | DRevert file mk =>
      (DRelease file mk MarkerFailed, if ok then append (EReverted mk (d_approver rq)) s else s)
  | DRelease file mk cause =>
      match s_dir s !! claimed_name mk with
      | Some f =>
          if ok then (DDone (Some (cause, true)), set_dir (<[file := f]> (delete (claimed_name mk) (s_dir s))) s)
          else refused cause s
      | None => refused cause s
      end
  | DCleanup file mk =>
      match s_dir s !! claimed_name mk with
      | Some _ => if ok then (DDone None, set_dir (delete (claimed_name mk) (s_dir s)) s)
                  else refused CleanupFailed s
      | None => (DDone None, s)
      end
  | DDone r => (DDone r, s)
  end.

(** ** Requesting *)

(** A request as [createFourEyesPending] fills it in, with the id it draws. *)
Record ask := mkAsk { a_id : bytes; a_token : bytes; a_cmd : bytes; a_requester : bytes;
                      a_host : bytes; a_time : bytes; a_rule : FourEyesRule }.
Definition ask_pending (a : ask) : FourEyesPending :=
  mkPending (a_token a) (a_id a) (a_cmd a)
    (if bool_decide (a_requester a = []) then lit "unknown" else a_requester a)
    (a_host a) (a_time a) (a_rule a).

Inductive askResult := CreateFailed | Approved4 | Denied4 | Canceled4 | TimedOut4.

Inductive askPC :=
| AStart | AWrite | ACheck | APoll (deadline : Z) | ADenied (deadline : Z) | AWait (deadline : Z)
| AGiveUp (r : askResult) | ADone (r : askResult).

(** [RequestApprovalForSessionContext]; in [AWait], a step that does not
    succeed is the cancellation of the wait. *)
Definition ask_step (now : Z) (ok : bool) (a : ask) (pc : askPC) (s : shared) : askPC * shared :=
  let name := json_name (a_id a) in
  match pc with
  | AStart =>
      match s_dir s !! name with
      | Some _ => (ADone CreateFailed, s)
      | None => if ok then (AWrite, set_dir (<[name := mkFile None now]> (s_dir s)) s)
                else (ADone CreateFailed, s)
      end
  | AWrite =>
      if ok then (ACheck, set_dir (alter (fun f => mkFile (Some (stored (ask_pending a))) now) name (s_dir s)) s)
      else (ADone CreateFailed, s)
  | ACheck => if ok then (APoll (now + seconds (default_ttl (a_rule a))), s) else (ADone CreateFailed, s)
  | APoll deadline =>
      if now <? deadline then
        match s_approved s !! a_id a with
        | Some _ => if ok then (ADone Approved4, s) else (ADenied deadline, s)
        | None => (ADenied deadline, s)
        end
      else (AGiveUp TimedOut4, s)
  | ADenied deadline =>
      match s_denied s !! a_id a with
      | Some _ => if ok then (ADone Denied4, s) else (AWait deadline, s)
      | None => (AWait deadline, s)
      end
  | AWait deadline => if ok then (APoll deadline, s) else (AGiveUp Canceled4, s)
  | AGiveUp r => (ADone r, if ok then set_dir (delete name (s_dir s)) s else s)
  | ADone r => (ADone r, s)
  end.

(** ** The processes together *)

Inductive proc :=
| Decider (rq : decision) (pc : decidePC)
| Requester (a : ask) (pc : askPC)
| Lister (pc : option sweepPC).

Definition proc_step (now : Z) (ok : bool) (pr : proc) (s : shared) : proc * shared :=
  match pr with
  | Decider rq pc => let '(pc', s') := decide_step now ok rq pc s in (Decider rq pc', s')
  | Requester a pc => let '(pc', s') := ask_step now ok a pc s in (Requester a pc', s')
  | Lister None => (pr, s)
  | Lister (Some sp) => let '(sp', s') := sweep_step now ok sp s in (Lister sp', s')
  end.

Record world := mkWorld { w_sh : shared; w_procs : gmap nat proc }.

(** A turn: which process, the clock, whether its operation succeeds. *)
Definition turn : Type := nat * Z * bool.
Definition wstep (w : world) (t : turn) : world :=
  let '(pid, now, ok) := t in
  match w_procs w !! pid with
  | None => w
  | Some pr => let '(pr', s') := proc_step now ok pr (w_sh w) in mkWorld s' (<[pid := pr']> (w_procs w))
  end.
Definition wrun (w : world) (l : list turn) : world := foldl wstep w l.

Definition empty_shared : shared := mkShared ∅ ∅ ∅ [] ∅.
Definition starting (pr : proc) : Prop :=
  match pr with
  | Decider _ pc => pc = DStart
  | Requester _ pc => pc = AStart
  | Lister pc => pc = Some SStart
  end.

(** Empty directories, every process at its start, no request id drawn twice
    (an id is 128 random bits). *)
Definition initial (w : world) : Prop :=
  w_sh w = empty_shared /\
  (forall pid pr, w_procs w !! pid = Some pr -> starting pr) /\
  (forall p q a b pa pb, w_procs w !! p = Some (Requester a pa) -> w_procs w !! q = Some (Requester b pb) ->
     a_id a = a_id b -> p = q).

(** ** The invariant *)

(** [A] are the requests, by process. *)
Section invariant.
Variable A : gmap nat ask.
Hypothesis A_ids : forall p q a b, A !! p = Some a -> A !! q = Some b -> a_id a = a_id b -> p = q.

(** The decision [rq] on the request [id] passes the checks. *)
Definition legit (rq : decision) (id : bytes) : Prop :=
  exists p a, A !! p = Some a /\ a_id a = id /\ d_approver rq <> [] /\
    decide_refusal (stored (ask_pending a)) (d_approver rq) (d_surface rq) = None.

Definition decided (approve : bool) (id : bytes) (s : shared) : Prop :=
  exists rq, legit rq id /\ d_approve rq = approve /\
    EDecision id (d_approver rq) approve (d_surface rq) ∈ s_chain s.

(** The claim a decider holds, and what it has done. *)
Inductive phase := PClean | PLogged | PMarked.
Definition holds (pc : decidePC) : option (bytes * bytes * phase) :=
  match pc with
  | DStamp f m | DLog f m | DRelease f m _ => Some (f, m, PClean)
  | DCreate f m | DRevert f m => Some (f, m, PLogged)
  | DWrite f m | DUnwrite f m | DCleanup f m => Some (f, m, PMarked)
  | _ => None
  end.

Definition no_marker (id : bytes) (s : shared) : Prop := s_approved s !! id = None /\ s_denied s !! id = None.

Definition proc_ok (owner : gmap bytes nat) (s : shared) (pid : nat) (pr : proc) : Prop :=
  match pr with
  | Lister _ => True
  | Requester a pc =>
      A !! pid = Some a /\
      match pc with
      | AStart => s_dir s !! json_name (a_id a) = None /\ owner !! a_id a = None /\ no_marker (a_id a) s
      | ADone Approved4 => decided true (a_id a) s
      | ADone Denied4 => decided false (a_id a) s
      | AGiveUp r => r = TimedOut4 \/ r = Canceled4
      | _ => True
      end
  | Decider rq pc =>
      (pc <> DStart -> (exists r, pc = DDone r) \/ d_approver rq <> []) /\
      match holds pc with
      | None => match pc with DClaim f m => f = json_name m /\ legit rq m | _ => True end
      | Some (f, m, ph) =>
          f = json_name m /\ legit rq m /\ owner !! m = Some pid /\
          (ph <> PClean -> EDecision m (d_approver rq) (d_approve rq) (d_surface rq) ∈ s_chain s) /\
          (m ∉ s_leftover s ->
             match ph with PMarked => markers (negb (d_approve rq)) s !! m = None | _ => no_marker m s end)
      end
  end.

Record shared_ok (owner : gmap bytes nat) (s : shared) : Prop := {
  ok_files : forall n f, s_dir s !! n = Some f -> exists p a, A !! p = Some a /\
    (n = json_name (a_id a) \/ n = claimed_name (a_id a)) /\
    (f_content f = None \/ f_content f = Some (stored (ask_pending a)));
  ok_pending : forall id f, s_dir s !! json_name id = Some f ->
    owner !! id = None /\ (id ∉ s_leftover s -> no_marker id s);
  ok_markers : forall approve id m, markers approve s !! id = Some m -> decided approve id s;
  ok_one : forall id, id ∉ s_leftover s -> s_approved s !! id = None \/ s_denied s !! id = None
}.

Definition Inv (w : world) : Prop :=
  exists owner, shared_ok owner (w_sh w) /\
    forall pid pr, w_procs w !! pid = Some pr -> proc_ok owner (w_sh w) pid pr.

(** *** Names *)

Lemma json_name_inj a b : json_name a = json_name b -> a = b.
Proof. apply app_inv_tail. Qed.
Lemma claimed_name_inj a b : claimed_name a = claimed_name b -> a = b.
Proof. apply app_inv_tail. Qed.
Lemma json_claimed a b : json_name a <> claimed_name b.
Proof.
  intros H. apply (f_equal (fun l => hd Ascii.zero (rev l))) in H. unfold json_name, claimed_name in H.
  rewrite !rev_app_distr in H. vm_compute in H. discriminate H.
Qed.
Lemma trim_json id : trim_suffix (lit ".json") (json_name id) = id.
Proof.
  unfold trim_suffix, json_name. rewrite (proj2 (has_suffix_spec _ _)) by (by exists id).
  rewrite length_app, Nat.add_sub. apply take_app_length.
Qed.

(** *** What a step leaves alone *)

(** The two states agree on everything about [id], but for a request file that
    may be gone. *)
Definition same_at (id : bytes) (o : gmap bytes nat) (s : shared) (o' : gmap bytes nat) (s' : shared) : Prop :=
  (s_dir s !! json_name id = None -> s_dir s' !! json_name id = None) /\ o' !! id = o !! id /\
  s_approved s' !! id = s_approved s !! id /\ s_denied s' !! id = s_denied s !! id /\
  (id ∈ s_leftover s' <-> id ∈ s_leftover s).

(** The request a process may act on. *)
Definition touches (pr : proc) : option bytes :=
  match pr with
  | Decider _ pc => match holds pc with Some (_, m, _) => Some m | None => None end
  | Requester a AStart => Some (a_id a)
  | _ => None
  end.

Definition grows (s s' : shared) : Prop := forall e, e ∈ s_chain s -> e ∈ s_chain s'.

Lemma decided_grows b id s s' : grows s s' -> decided b id s -> decided b id s'.
Proof. intros H (rq & ? & ? & ?). exists rq. auto. Qed.

Lemma proc_frame o s o' s' pid pr :
  proc_ok o s pid pr -> grows s s' ->
  (forall id, touches pr = Some id -> same_at id o s o' s') -> proc_ok o' s' pid pr.
Proof.
  intros H Hg Hs. destruct pr as [rq pc|a pc|pc]; [| |done]; cbn in *.
  - destruct H as [H1 H]. split; [done|]. destruct (holds pc) as [[[f m] ph]|]; [|done].
    destruct (Hs m eq_refl) as (_ & Ho & Ha & Hd & Hl). destruct H as (? & ? & ? & Hc & Hm).
    split_and!; try done; [congruence|auto|].
    rewrite Hl. intros Hi. specialize (Hm Hi). unfold no_marker, markers in *.
    destruct ph; [| |destruct (negb (d_approve rq))]; rewrite ?Ha, ?Hd; done.
  - destruct H as [H1 H]. split; [done|]. destruct pc as [| | | | | |?|[]]; try done.
    + destruct (Hs _ eq_refl) as (Hf & Ho & Ha & Hd & _). unfold no_marker in *. rewrite Ho, Ha, Hd. tauto.
    + by eapply decided_grows.
    + by eapply decided_grows.
Qed.

(** Files may go and change their times, and the ledger may grow. *)
Definition weaker (s s' : shared) : Prop :=
  (forall n f', s_dir s' !! n = Some f' -> exists f, s_dir s !! n = Some f /\ f_content f' = f_content f) /\
  s_approved s' = s_approved s /\ s_denied s' = s_denied s /\ s_leftover s' = s_leftover s /\ grows s s'.

Lemma weaker_refl s : weaker s s.
Proof. split_and!; try done; [|by intros e]. intros n f H. by exists f. Qed.

Lemma weaker_append e s : weaker s (append e s).
Proof. split_and!; try done; [intros n f H; by exists f|]. intros e' H. cbn. apply elem_of_app. by left. Qed.

Lemma weaker_delete n s : weaker s (set_dir (delete n (s_dir s)) s).
Proof. split_and!; try done; [|by intros e]. cbn. intros k f [_ H]%lookup_delete_Some. by exists f. Qed.

Lemma weaker_touch g n s :
  (forall f, f_content (g f) = f_content f) -> weaker s (set_dir (alter g n (s_dir s)) s).
Proof.
  intros Hg. split_and!; try done; [|by intros e]. intros k f' H. cbn in H.
  apply lookup_alter_Some in H as [(<- & f & H & ->)|[_ H]]; eauto.
Qed.

Lemma weaker_same s s' o id : weaker s s' -> same_at id o s o s'.
Proof.
  intros (Hd & Ha & Hn & Hl & _). unfold same_at. rewrite Ha, Hn, Hl. split_and!; try done.
  intros H. destruct (s_dir s' !! json_name id) as [f'|] eqn:E; [|done].
  apply Hd in E as (f & E & _). congruence.
Qed.

Lemma weaker_proc o s s' pid pr : weaker s s' -> proc_ok o s pid pr -> proc_ok o s' pid pr.
Proof. intros H Hp. eapply proc_frame; [done|apply H|]. intros. by apply weaker_same. Qed.

Lemma weaker_shared o s s' : weaker s s' -> shared_ok o s -> shared_ok o s'.
Proof.
  intros (Hd & Ha & Hn & Hl & Hg) [H1 H2 H3 H4]. split.
  - intros n f' H. apply Hd in H as (f & H & ->). by apply (H1 n f).
  - intros id f' H. apply Hd in H as (f & H & _). unfold no_marker. rewrite Hl, Ha, Hn. by apply (H2 id f).
  - intros b id m H. eapply decided_grows; [done|]. apply (H3 b id m). unfold markers in *. by rewrite <- Ha, <- Hn.
  - intros id. rewrite Hl, Ha, Hn. apply H4.
Qed.

Lemma sweep_weaker now ok sp s : weaker s (snd (sweep_step now ok sp s)).
Proof.
  destruct sp as [|[|n l]|n l]; cbn; try apply weaker_refl.
  - destruct ok; apply weaker_refl.
  - destruct (s_dir s !! n) as [f|]; [|apply weaker_refl].
    destruct (_ <=? _); [apply weaker_refl|]. destruct ok; [apply weaker_append|apply weaker_refl].
  - destruct ok; [apply weaker_delete|apply weaker_refl].
Qed.

(** A step on the request [X] that its process alone may take. *)
Definition alone (o : gmap bytes nat) (s : shared) (pid : nat) (X : bytes) : Prop :=
  o !! X = Some pid \/ s_dir s !! json_name X <> None \/
  (o !! X = None /\ exists a, A !! pid = Some a /\ a_id a = X).

Lemma others_ok o s o' s' pid X q pr :
  shared_ok o s -> alone o s pid X -> q <> pid -> proc_ok o s q pr -> grows s s' ->
  (forall id, id <> X -> same_at id o s o' s') -> proc_ok o' s' q pr.
Proof.
  intros Hs Hal Hq Hp Hg Hsame. apply (proc_frame o s); [done..|]. intros id Ht. apply Hsame. intros ->.
  assert (Hc : o !! X = Some q \/ (s_dir s !! json_name X = None /\ o !! X = None /\ exists b, A !! q = Some b /\ a_id b = X)).
  { destruct pr as [rq pc|a [] |pc]; cbn in Hp, Ht; try done.
    - destruct (holds pc) as [[[f m] ph]|]; [|done]. injection Ht as ->. left. apply Hp.
    - injection Ht as <-. right. destruct Hp as (? & ? & ? & _). split_and!; try done. by exists a. }
  destruct Hal as [Ho|[Hf|[Ho (a & Ha & Hx)]]].
  - destruct Hc as [Hc|(_ & Hc & _)]; congruence.
  - destruct Hc as [Hc|(Hc & _)]; [|done]. destruct (s_dir s !! json_name X) eqn:E; [|done].
    apply (ok_pending _ _ Hs) in E as [E _]. congruence.
  - destruct Hc as [Hc|(_ & _ & b & Hb & Hx')]; [congruence|]. apply Hq. by apply (A_ids q pid b a); [..|congruence].
Qed.

(** What one step must establish. *)
Definition step_ok (o : gmap bytes nat) (s : shared) (pid : nat) (pr' : proc) (s' : shared) : Prop :=
  exists o', shared_ok o' s' /\ proc_ok o' s' pid pr' /\
    forall q pr, q <> pid -> proc_ok o s q pr -> proc_ok o' s' q pr.

Lemma step_weaker o s pid pr' s' :
  shared_ok o s -> weaker s s' -> proc_ok o s' pid pr' -> step_ok o s pid pr' s'.
Proof.
  intros Hs Hw Hp. exists o. split_and!; [by eapply weaker_shared|done|].
  intros q pr _ H. by eapply weaker_proc.
Qed.

(** *** Steps that change what a request owns *)

Lemma file_of_json o s m f : shared_ok o s -> s_dir s !! json_name m = Some f ->
  exists p a, A !! p = Some a /\ a_id a = m /\
    (f_content f = None \/ f_content f = Some (stored (ask_pending a))).
Proof.
  intros Hs H. apply (ok_files _ _ Hs) in H as (p & a & Ha & [Hn|Hn] & Hc).
  - apply json_name_inj in Hn as ->. by exists p, a.
  - by apply json_claimed in Hn.
Qed.

Lemma file_of_claimed o s m f : shared_ok o s -> s_dir s !! claimed_name m = Some f ->
  exists p a, A !! p = Some a /\ a_id a = m /\
    (f_content f = None \/ f_content f = Some (stored (ask_pending a))).
Proof.
  intros Hs H. apply (ok_files _ _ Hs) in H as (p & a & Ha & [Hn|Hn] & Hc).
  - symmetry in Hn. by apply json_claimed in Hn.
  - apply claimed_name_inj in Hn as ->. by exists p, a.
Qed.

Lemma claim_ok o s pid rq m f :
  shared_ok o s -> s_dir s !! json_name m = Some f -> d_approver rq <> [] -> legit rq m ->
  step_ok o s pid (Decider rq (DStamp (json_name m) m))
    (set_dir (<[claimed_name m := f]> (delete (json_name m) (s_dir s))) s).
Proof.
  intros Hs Hf Hne Hl. exists (<[m := pid]> o). destruct (ok_pending _ _ Hs _ _ Hf) as [Ho Hm]. split_and!.
  - split; cbn.
    + intros n g [[<- <-]|[_ [_ H]%lookup_delete_Some]]%lookup_insert_Some; [|by apply (ok_files _ _ Hs)].
      apply (file_of_json _ _ _ _ Hs) in Hf as (p & a & Ha & <- & Hc). exists p, a. split_and!; try done. by right.
    + intros id g [[H _]|[_ [Hn H]%lookup_delete_Some]]%lookup_insert_Some; [by symmetry in H; apply json_claimed in H|].
      rewrite lookup_insert_ne by congruence. by apply (ok_pending _ _ Hs id g).
    + apply Hs.
    + apply Hs.
  - cbn. split_and!; try done; [by right|by rewrite lookup_insert_eq].
  - intros q pr Hq Hp0. apply (others_ok o s _ _ pid m q pr); try done; try (by intros ?); [right; left; by rewrite Hf|].
    intros id Hid. split_and!; try done; cbn.
    + intros H. apply lookup_insert_None. split; [|intros H'; by symmetry in H'; apply json_claimed in H'].
      apply lookup_delete_None. by right.
    + by rewrite lookup_insert_ne by congruence.
Qed.

Lemma release_ok o s pid rq m f cause ph :
  shared_ok o s -> s_dir s !! claimed_name m = Some f -> o !! m = Some pid ->
  (m ∉ s_leftover s -> no_marker m s) ->
  step_ok o s pid (Decider rq (DDone (Some (cause, ph))))
    (set_dir (<[json_name m := f]> (delete (claimed_name m) (s_dir s))) s).
Proof.
  intros Hs Hf Ho Hm. exists (delete m o). split_and!.
  - split; cbn.
    + intros n g [[<- <-]|[_ [_ H]%lookup_delete_Some]]%lookup_insert_Some; [|by apply (ok_files _ _ Hs)].
      apply (file_of_claimed _ _ _ _ Hs) in Hf as (p & a & Ha & <- & Hc). exists p, a. split_and!; try done. by left.
    + intros id g [[H _]|[Hn [_ H]%lookup_delete_Some]]%lookup_insert_Some.
      * apply json_name_inj in H as <-. by rewrite lookup_delete_eq.
      * rewrite lookup_delete_ne by congruence. by apply (ok_pending _ _ Hs id g).
    + apply Hs.
    + apply Hs.
  - cbn. split; [|done]. intros _. left. by eexists.
  - intros q pr Hq Hp0. apply (others_ok o s _ _ pid m q pr); try done; try (by intros ?); [by left|].
    intros id Hid. split_and!; try done; cbn.
    + intros H. apply lookup_insert_None. split; [|intros H'; by apply json_name_inj in H' as ->].
      apply lookup_delete_None. by right.
    + by rewrite lookup_delete_ne by congruence.
Qed.

Lemma markers_set b b' M s :
  markers b' (set_markers b M s) = if bool_decide (b = b') then M else markers b' s.
Proof. by destruct b, b'. Qed.
Lemma set_markers_rest b M s :
  s_dir (set_markers b M s) = s_dir s /\ s_chain (set_markers b M s) = s_chain s /\
  s_leftover (set_markers b M s) = s_leftover s.
Proof. by destruct b. Qed.
Lemma no_marker_iff id s b : no_marker id s <-> markers b s !! id = None /\ markers (negb b) s !! id = None.
Proof. unfold no_marker, markers. destruct b; cbn; tauto. Qed.

Lemma marker_ok o s pid rq pc b M m :
  shared_ok o s -> o !! m = Some pid -> decided b m s ->
  (forall id, id <> m -> M !! id = markers b s !! id) ->
  (m ∉ s_leftover s -> markers (negb b) s !! m = None) ->
  proc_ok o (set_markers b M s) pid (Decider rq pc) ->
  step_ok o s pid (Decider rq pc) (set_markers b M s).
Proof.
  intros Hs Ho Hd HM Hn Hp. exists o. destruct (set_markers_rest b M s) as (Rd & Rc & Rl).
  assert (Hg : grows s (set_markers b M s)) by (intros e; by rewrite Rc).
  assert (Ho' : forall id, id <> m -> (s_approved (set_markers b M s) !! id = s_approved s !! id) /\
                                     (s_denied (set_markers b M s) !! id = s_denied s !! id))
    by (intros id Hid; specialize (HM id Hid); destruct b; cbn in *; by rewrite HM).
  split_and!; [|done|].
  - split; rewrite ?Rd.
    + apply Hs.
    + intros id f H. destruct (ok_pending _ _ Hs _ _ H) as [H1 H2]. split; [done|]. rewrite Rl.
      destruct (decide (id = m)) as [->|Hid]; [congruence|]. unfold no_marker. destruct (Ho' id Hid) as [-> ->]. done.
    + intros b' id mk. rewrite markers_set. case_bool_decide as E; [subst b'|].
      * destruct (decide (id = m)) as [->|Hid]; intros H; (eapply decided_grows; [done|]); [done|].
        rewrite HM in H by done. by apply (ok_markers _ _ Hs _ _ mk).
      * intros H. eapply decided_grows; [done|]. by apply (ok_markers _ _ Hs _ _ mk).
    + intros id. rewrite Rl. intros Hid. destruct (decide (id = m)) as [->|Hne].
      * specialize (Hn Hid). destruct b; cbn in *; auto.
      * destruct (Ho' id Hne) as [-> ->]. by apply Hs.
  - intros q pr Hq Hp0. apply (others_ok o s _ _ pid m q pr); try done; try (by intros ?); [by left|].
    intros id Hid. destruct (Ho' id Hid) as [H1 H2]. unfold same_at. by rewrite Rd, Rl, H1, H2.
Qed.

Lemma leave_ok o s pid rq pc m :
  shared_ok o s -> o !! m = Some pid -> proc_ok o (leave_marker m s) pid (Decider rq pc) ->
  step_ok o s pid (Decider rq pc) (leave_marker m s).
Proof.
  intros Hs Ho Hp. exists o. split_and!; [|done|].
  - split; cbn; try apply Hs.
    + intros id f H. destruct (ok_pending _ _ Hs _ _ H) as [H1 H2]. split; [done|]. intros Hi. apply H2.
      intros Hi'. apply Hi, elem_of_union. by right.
    + intros id Hi. apply (ok_one _ _ Hs id). intros Hi'. apply Hi, elem_of_union. by right.
  - intros q pr Hq Hp0. apply (others_ok o s _ _ pid m q pr); try done; try (by intros ?); [by left|].
    intros id Hid. split_and!; try done. cbn. rewrite elem_of_union, elem_of_singleton. tauto.
Qed.

Lemma step_frame o s pid pr' s' :
  shared_ok o s' -> grows s s' -> (forall id, same_at id o s o s') -> proc_ok o s' pid pr' -> step_ok o s pid pr' s'.
Proof. intros Hs Hg Hsame Hp. exists o. split_and!; [done..|]. intros q pr _ H. by eapply proc_frame. Qed.

Lemma step_keep o s pid pr' : shared_ok o s -> proc_ok o s pid pr' -> step_ok o s pid pr' s.
Proof. intros Hs Hp. by apply step_weaker; [|apply weaker_refl|]. Qed.

Lemma ask_ok now ok o s pid a pc :
  shared_ok o s -> proc_ok o s pid (Requester a pc) ->
  step_ok o s pid (Requester a (fst (ask_step now ok a pc s))) (snd (ask_step now ok a pc s)).
Proof.
  intros Hs Hp. pose proof Hp as [Ha Hpc]. set (name := json_name (a_id a)).
  destruct pc as [| | |dl|dl|dl|r|r]; cbn [ask_step fst snd]; fold name.
  - destruct Hpc as (Hf & Ho & Hm). fold name in Hf. rewrite Hf. destruct ok; [|by apply step_keep].
    cbn [fst snd]. exists o. split_and!.
    + split; cbn.
      * intros n f [[<- <-]|[_ H]]%lookup_insert_Some; [|by apply (ok_files _ _ Hs)].
        exists pid, a. split_and!; try done; by left.
      * intros id f [[H _]|[_ H]]%lookup_insert_Some; [|by apply (ok_pending _ _ Hs id f)].
        apply json_name_inj in H as <-. by split.
      * apply Hs.
      * apply Hs.
    + by split.
    + intros q pr Hq Hp0. apply (others_ok o s _ _ pid (a_id a) q pr); try done; try (by intros ?).
      { right; right. split; [done|]. by exists a. }
      intros id Hid. split_and!; try done. cbn. intros H. apply lookup_insert_None. split; [done|].
      intros H'. by apply json_name_inj in H'.
  - destruct ok; [|by apply step_keep]. cbn [fst snd]. apply step_frame; [|by intros ?| |by split].
    + split; cbn; [| |apply Hs..].
      * intros n f [(<- & g & H & ->)|[_ H]]%lookup_alter_Some; [|by apply (ok_files _ _ Hs)].
        exists pid, a. split_and!; try done; [by left|by right].
      * intros id f H. assert (exists g, s_dir s !! json_name id = Some g) as [g Hg].
        { apply lookup_alter_Some in H as [(_ & g & H & _)|[_ H]]; eauto. }
        by apply (ok_pending _ _ Hs id g).
    + intros id. split_and!; try done. cbn. intros H. by apply lookup_alter_None.
  - destruct ok; by apply step_keep.
  - destruct (now <? dl); [|apply step_keep; [done|]; split; [done|]; by left].
    destruct (s_approved s !! a_id a) as [m|] eqn:E; [|by apply step_keep].
    destruct ok; [|by apply step_keep]. apply step_keep; [done|]. split; [done|]. by apply (ok_markers _ _ Hs true _ m).
  - destruct (s_denied s !! a_id a) as [m|] eqn:E; [|by apply step_keep].
    destruct ok; [|by apply step_keep]. apply step_keep; [done|]. split; [done|]. by apply (ok_markers _ _ Hs false _ m).
  - destruct ok; [by apply step_keep|]. apply step_keep; [done|]. split; [done|]. by right.
  - destruct ok; cbn [fst snd].
    + apply step_weaker; [done|apply weaker_delete|]. destruct Hpc as [-> | ->]; by split.
    + apply step_keep; [done|]. destruct Hpc as [-> | ->]; by split.
  - by apply step_keep.
Qed.

Lemma scan_found o s presented names p f m :
  shared_ok o s -> scan_pending s presented names = Ok (p, f, m) ->
  f = json_name m /\ exists q a, A !! q = Some a /\ a_id a = m /\ p = stored (ask_pending a).
Proof.
  intros Hs. induction names as [|n l IH]; [done|]. cbn [scan_pending].
  destruct (has_suffix (lit ".json") n) eqn:En; [|done].
  destruct (s_dir s !! n) as [[[c|] mt]|] eqn:Ef; [|done..].
  destruct (_ || _); [done|]. intros [= <- <- <-].
  apply has_suffix_spec in En as [id ->]. fold (json_name id) in *. rewrite trim_json. split; [done|].
  apply (file_of_json _ _ _ _ Hs) in Ef as (q & a & Ha & <- & [Hc|Hc]); [done|]. cbn in Hc.
  exists q, a. split_and!; try done. congruence.
Qed.

Lemma locate_found o s presented p f m :
  shared_ok o s -> locatePending presented s = Ok (p, f, m) ->
  f = json_name m /\ exists q a, A !! q = Some a /\ a_id a = m /\ p = stored (ask_pending a).
Proof.
  intros Hs. unfold locatePending. destruct (s_dir s !! json_name presented) as [[[c|] mt]|] eqn:Ef; [|done|].
  - destruct (_ || _); [|done]. intros [= <- <- <-]. split; [done|].
    apply (file_of_json _ _ _ _ Hs) in Ef as (q & a & Ha & <- & [Hc|Hc]); [done|]. cbn in Hc.
    exists q, a. split_and!; try done. congruence.
  - by apply scan_found with (o := o).
Qed.

Lemma evidence m rq s :
  legit rq m -> EDecision m (d_approver rq) (d_approve rq) (d_surface rq) ∈ s_chain s ->
  decided (d_approve rq) m s.
Proof. intros H1 H2. by exists rq. Qed.

(** A process that is done with a request it does not hold, or gives up. *)
Lemma done_ok o s pid rq r : shared_ok o s -> step_ok o s pid (Decider rq (DDone r)) s.
Proof. intros Hs. apply step_keep; [done|]. split; [|done]. intros _. left. by eexists. Qed.

Lemma weaker_done o s s' pid rq r : shared_ok o s -> weaker s s' -> step_ok o s pid (Decider rq (DDone r)) s'.
Proof. intros Hs Hw. apply step_weaker; [done..|]. split; [|done]. intros _. left. by eexists. Qed.

(** The steps on the marker. *)
Lemma marker_step_ok now ok o s pid rq pc :
  match pc with DCreate _ _ | DWrite _ _ | DUnwrite _ _ => True | _ => False end ->
  shared_ok o s -> proc_ok o s pid (Decider rq pc) ->
  step_ok o s pid (Decider rq (fst (decide_step now ok rq pc s))) (snd (decide_step now ok rq pc s)).
Proof.
  intros Hpc Hs [Hne Hp].
  destruct pc as [|sp| |f m|f m|f m|f m|f m|f m|f m|f m c|f m|r]; try done; cbn [decide_step holds] in *.
  all: try (destruct (Hne ltac:(done)) as [[r0 Hr0]|Hne']; [done|]).
  - destruct Hp as (-> & Hl & Ho & Hc & Hm). specialize (Hc ltac:(done)).
    assert (Hk : proc_ok o s pid (Decider rq (DRevert (json_name m) m))) by (by split; [right|]).
    destruct (markers (d_approve rq) s !! m) eqn:Em; [by apply step_keep|]. destruct ok; [|by apply step_keep].
    cbn [fst snd]. destruct (set_markers_rest (d_approve rq) (<[m:=None]> (markers (d_approve rq) s)) s) as (_ & Rc & Rl).
    assert (Hn : m ∉ s_leftover s -> markers (negb (d_approve rq)) s !! m = None)
      by (intros Hi; by apply (no_marker_iff m s (d_approve rq)), Hm).
    apply (marker_ok o s pid rq _ _ _ m); try done; [by apply evidence|intros id Hid; by rewrite lookup_insert_ne|].
    split; [by right|]. cbn. rewrite Rc, Rl. split_and!; try done. intros Hi.
    rewrite markers_set, bool_decide_false by (by destruct (d_approve rq)). by apply Hn.
  - destruct Hp as (-> & Hl & Ho & Hc & Hm). specialize (Hc ltac:(done)).
    destruct ok; [|by apply step_keep; [|split; [by right|]]]. cbn [fst snd].
    set (M := <[m:=_]> _). destruct (set_markers_rest (d_approve rq) M s) as (_ & Rc & Rl).
    apply (marker_ok o s pid rq _ _ _ m); try done; [by apply evidence|intros id Hid; by apply lookup_insert_ne|].
    split; [by right|]. cbn. rewrite Rc, Rl. split_and!; try done. intros Hi.
    rewrite markers_set, bool_decide_false by (by destruct (d_approve rq)). by apply Hm.
  - destruct Hp as (-> & Hl & Ho & Hc & Hm). specialize (Hc ltac:(done)). destruct ok; cbn [fst snd].
    + set (M := delete m _). destruct (set_markers_rest (d_approve rq) M s) as (_ & Rc & Rl).
      apply (marker_ok o s pid rq _ _ _ m); try done; [by apply evidence|intros id Hid; by apply lookup_delete_ne|].
      split; [by right|]. cbn. rewrite Rc, Rl. split_and!; try done. intros Hi.
      apply (no_marker_iff _ _ (d_approve rq)). rewrite !markers_set, bool_decide_true, bool_decide_false
        by (by destruct (d_approve rq)). split; [apply lookup_delete_eq|by apply Hm].
    + apply (leave_ok o s pid rq _ m); try done. split; [by right|]. cbn. split_and!; try done.
      intros Hi. exfalso. apply Hi, elem_of_union. left. by apply elem_of_singleton.
Qed.

Lemma decide_ok now ok o s pid rq pc :
  shared_ok o s -> proc_ok o s pid (Decider rq pc) ->
  step_ok o s pid (Decider rq (fst (decide_step now ok rq pc s))) (snd (decide_step now ok rq pc s)).
Proof.
  intros Hs [Hne Hp].
  destruct pc as [|sp| |f m|f m|f m|f m|f m|f m|f m|f m c|f m|r]; cbn [decide_step holds] in *; unfold refused.
  all: try (destruct (Hne ltac:(done)) as [[r0 Hr0]|Hne']; [done|]).
  - destruct (d_forbidden rq); [by apply done_ok|]. destruct (negb ok); [by apply done_ok|].
    destruct (negb _); [by apply done_ok|]. case_bool_decide; [by apply done_ok|].
    apply step_keep; [done|]. split; [|done]. by right.
  - pose proof (sweep_weaker now ok sp s) as Hw. destruct (sweep_step now ok sp s) as [[sp'|] s'].
    all: apply step_weaker; [done..|]; split; [by right|done].
  - destruct (locatePending (d_token rq) s) as [[[p f] m]|e] eqn:El; [|by apply done_ok].
    destruct (decide_refusal p _ _) eqn:Er; [by apply done_ok|]. apply step_keep; [done|]. split; [by right|].
    apply (locate_found _ _ _ _ _ _ Hs) in El as (-> & q & a & Ha & Hi & ->). split; [done|]. by exists q, a.
  - destruct Hp as [-> Hl]. destruct (s_dir s !! json_name m) as [g|] eqn:Ef; [|by apply done_ok].
    destruct ok; [by apply claim_ok|by apply done_ok].
  - destruct Hp as (-> & Hl & Ho & Hc & Hm). assert (Hk : proc_ok o s pid (Decider rq (DLog (json_name m) m))).
    { split; [by right|]. done. }
    destruct ok; [|by apply step_keep]. cbn [fst snd].
    assert (Hw : weaker s (set_dir (alter (fun f => mkFile (f_content f) now) (claimed_name m) (s_dir s)) s))
      by by apply weaker_touch.
    apply step_weaker; [done..|]. by apply (weaker_proc o s).
  - destruct Hp as (-> & Hl & Ho & Hc & Hm). destruct ok; [|by apply step_keep; [|split; [by right|]]].
    cbn [fst snd]. apply step_weaker; [done|apply weaker_append|]. split; [by right|]. cbn.
    split_and!; try done. intros _. apply elem_of_app. right. by apply list_elem_of_singleton.
  - exact (marker_step_ok now ok o s pid rq (DCreate f m) I Hs (conj Hne Hp)).
  - exact (marker_step_ok now ok o s pid rq (DWrite f m) I Hs (conj Hne Hp)).
  - exact (marker_step_ok now ok o s pid rq (DUnwrite f m) I Hs (conj Hne Hp)).
  - destruct Hp as (-> & Hl & Ho & Hc & Hm). specialize (Hc ltac:(done)). destruct ok; cbn [fst snd].
    + apply step_weaker; [done|apply weaker_append|]. split; [by right|]. by cbn.
    + apply step_keep; [done|]. split; [by right|]. by cbn.
  - destruct Hp as (-> & Hl & Ho & _ & Hm). destruct (s_dir s !! claimed_name m) as [g|] eqn:Eg; [|by apply done_ok].
    destruct ok; [|by apply done_ok]. by apply release_ok.
  - destruct (s_dir s !! claimed_name m); [|by apply done_ok]. destruct ok; [|by apply done_ok].
    apply weaker_done; [done|apply weaker_delete].
  - by apply done_ok.
Qed.

Lemma wstep_inv w t : Inv w -> Inv (wstep w t).
Proof.
  intros (o & Hs & Hp). destruct t as [[pid now] ok]. unfold wstep.
  destruct (w_procs w !! pid) as [pr|] eqn:E; [|by exists o]. pose proof (Hp _ _ E) as Hpr.
  assert (Hstep : step_ok o (w_sh w) pid (fst (proc_step now ok pr (w_sh w))) (snd (proc_step now ok pr (w_sh w)))).
  { destruct pr as [rq pc|a pc|[sp|]]; cbn [proc_step].
    - pose proof (decide_ok now ok _ _ _ _ _ Hs Hpr). by destruct (decide_step _ _ _ _ _).
    - pose proof (ask_ok now ok _ _ _ _ _ Hs Hpr). by destruct (ask_step _ _ _ _ _).
    - pose proof (sweep_weaker now ok sp (w_sh w)). destruct (sweep_step _ _ _ _). by apply step_weaker.
    - by apply step_keep. }
  destruct (proc_step now ok pr (w_sh w)) as [pr' s']. cbn in Hstep. destruct Hstep as (o' & H1 & H2 & H3).
  exists o'. split; [done|]. cbn. intros q pr2 [[<- <-]|[Hq H]]%lookup_insert_Some; [done|].
  apply H3; [done|by apply Hp].
Qed.

Lemma wrun_inv l : forall w, Inv w -> Inv (wrun w l).
Proof. induction l as [|t l IH]; intros w H; [done|]. by apply IH, wstep_inv. Qed.

End invariant.

(** The requests of a world. *)
Definition asks (w : world) : gmap nat ask :=
  omap (fun pr => match pr with Requester a _ => Some a | _ => None end) (w_procs w).

Lemma asks_lookup w p a : asks w !! p = Some a <-> exists pc, w_procs w !! p = Some (Requester a pc).
Proof.
  unfold asks. rewrite lookup_omap. destruct (w_procs w !! p) as [[| |]|]; cbn; split; try done.
  all: try (intros [= <-]; by eexists). all: intros [? H]; congruence.
Qed.

Lemma asks_ids w p q a b : initial w -> asks w !! p = Some a -> asks w !! q = Some b -> a_id a = a_id b -> p = q.
Proof. intros (_ & _ & H) [pa Ha]%asks_lookup [pb Hb]%asks_lookup. by apply (H p q a b pa pb). Qed.

Lemma initial_inv w : initial w -> Inv (asks w) w.
Proof.
  intros (Hsh & Hst & _). exists ∅. rewrite Hsh. split.
  - split; cbn; try done; [intros b id m H; by destruct b|]. intros. by left.
  - intros pid pr H. specialize (Hst _ _ H). destruct pr as [rq pc|a pc|pc]; cbn in *; subst; [by split; [intros []|]| |done].
    split; [apply asks_lookup; by eexists|]. by split_and!.
Qed.

Lemma run_inv w l : initial w -> Inv (asks w) (wrun w l).
Proof. intros H. apply wrun_inv; [|by apply initial_inv]. intros p q a b. by apply asks_ids. Qed.

Lemma to_valid_valid s : valid_utf8 s = true -> to_valid 0 s = s.
Proof.
  unfold valid_utf8. generalize 0%nat. induction s as [|c s IH]; intros k; [done|].
  cbn [to_valid valid_utf8_from]. destruct k as [|k]; [|intros H; by rewrite IH].
  destruct (utf8_width (c :: s)); [done|]. intros H. by rewrite IH.
Qed.

Lemma refusal_none p approver surface :
  decide_refusal p approver surface = None ->
  (fp_Requester p = [] \/ approver <> fp_Requester p) /\
  (fr_Approver (fp_Rule p) = [] \/ approver = fr_Approver (fp_Rule p)) /\
  (fr_NotApprover (fp_Rule p) = [] \/ approver <> fr_NotApprover (fp_Rule p)) /\
  (fr_Surface (fp_Rule p) = [] \/ surface = fr_Surface (fp_Rule p)).
Proof.
  unfold decide_refusal. destruct (_ && _) eqn:E1; [done|]. destruct (_ && negb (bool_decide (approver = _))) eqn:E2; [done|].
  destruct (negb (bool_decide (fr_NotApprover _ = _)) && _) eqn:E3; [done|].
  destruct (negb (bool_decide (fr_Surface _ = _)) && _) eqn:E4; [done|]. intros _.
  rewrite andb_false_iff, negb_false_iff, bool_decide_eq_true in E1, E3.
  rewrite bool_decide_eq_false in E1, E3.
  rewrite andb_false_iff, !negb_false_iff, !bool_decide_eq_true in E2, E4. tauto.
Qed.

(** C2: Whatever the interleaving of requesters, deciders and sweeps and
    whichever operations fail, a requester whose wait ends in approval has in
    the ledger an approval of its request by a named approver that is not
    itself and that its rule admits, as far as the names are valid UTF-8,
    which is what the request file keeps. *)
Theorem approval_needs_second_person w l pid a :
  initial w -> w_procs (wrun w l) !! pid = Some (Requester a (ADone Approved4)) ->
  exists approver surface,
    EDecision (a_id a) approver true surface ∈ s_chain (w_sh (wrun w l)) /\ approver <> [] /\
    (valid_utf8 (a_requester a) = true -> approver <> a_requester a) /\
    (valid_utf8 (fr_Approver (a_rule a)) = true -> fr_Approver (a_rule a) = [] \/ approver = fr_Approver (a_rule a)) /\
    (valid_utf8 (fr_NotApprover (a_rule a)) = true -> approver <> fr_NotApprover (a_rule a)) /\
    (valid_utf8 (fr_Surface (a_rule a)) = true -> fr_Surface (a_rule a) = [] \/ surface = fr_Surface (a_rule a)).
Proof.
  intros Hi H. pose proof (run_inv w l Hi) as (o & _ & Hp). specialize (Hp _ _ H).
  destruct Hp as [Ha (rq & (p & b & Hb & Hid & Hne & Hr) & Hap & He)].
  assert (p = pid) as -> by by apply (asks_ids w p pid b a). assert (b = a) as -> by congruence.
  exists (d_approver rq), (d_surface rq). split; [done|]. split; [done|].
  apply refusal_none in Hr as (H1 & H2 & H3 & H4). cbn in H1, H2, H3, H4.
  split_and!; intros Hv.
  - case_bool_decide as E; [by rewrite E|]. rewrite to_valid_valid in H1 by done. by destruct H1.
  - by rewrite to_valid_valid in H2.
  - rewrite to_valid_valid in H3 by done. by destruct H3 as [-> |].
  - by rewrite to_valid_valid in H4.
Qed.

(** C5: In every interleaving at most one decider holds the claim of a
    request, a request never has both an approval and a denial marker unless a
    marker could not be removed after a failed write, and every marker has its
    decision in the ledger. *)
Theorem decisions_exclusive w l :
  initial w ->
  (forall p q rq1 rq2 pc1 pc2 f1 f2 id ph1 ph2,
     w_procs (wrun w l) !! p = Some (Decider rq1 pc1) -> w_procs (wrun w l) !! q = Some (Decider rq2 pc2) ->
     holds pc1 = Some (f1, id, ph1) -> holds pc2 = Some (f2, id, ph2) -> p = q) /\
  (forall id, id ∉ s_leftover (w_sh (wrun w l)) ->
     s_approved (w_sh (wrun w l)) !! id = None \/ s_denied (w_sh (wrun w l)) !! id = None) /\
  (forall b id m, markers b (w_sh (wrun w l)) !! id = Some m ->
     exists approver surface, EDecision id approver b surface ∈ s_chain (w_sh (wrun w l))).
Proof.
  intros Hi. pose proof (run_inv w l Hi) as (o & Hs & Hp). split_and!.
  - intros p q rq1 rq2 pc1 pc2 f1 f2 id ph1 ph2 H1%Hp H2%Hp E1 E2. cbn in H1, H2. rewrite E1 in H1. rewrite E2 in H2.
    destruct H1 as (_ & _ & _ & H1 & _), H2 as (_ & _ & _ & H2 & _). congruence.
  - apply Hs.
  - intros b id m H. apply (ok_markers _ _ _ Hs) in H as (rq & _ & _ & H). by eexists _, _.
Qed.

(** ** A decision taken without interference *)

Definition decide_alone (rq : decision) (l : list (Z * bool)) (st : decidePC * shared) : decidePC * shared :=
  foldl (fun st t => decide_step (fst t) (snd t) rq (fst st) (snd st)) st l.

Lemma alone_done rq r l s : decide_alone rq l (DDone r, s) = (DDone r, s).
Proof. by induction l as [|t l IH]. Qed.

Lemma alone_cons rq t l pc s :
  decide_alone rq (t :: l) (pc, s) = decide_alone rq l (decide_step (fst t) (snd t) rq pc s).
Proof. done. Qed.

(** How a claimed decision ends: recorded and marked; refused by the ledger
    and put back; or recorded, not marked, and put back. *)
Definition ends_well (rq : decision) (mk : bytes) (f : file) (s s' : shared) (r : option (decideErr * bool)) : Prop :=
  let b := d_approve rq in
  let ev := EDecision mk (d_approver rq) b (d_surface rq) in
  let marked := s_chain s' = s_chain s ++ [ev] /\ s_dir s' !! json_name mk = None /\
    exists at_, markers b s' !! mk = Some (Some (mkMarker at_ (d_approver rq) (d_surface rq))) in
  let back (yes : bool) := if yes then f_content <$> s_dir s' !! json_name mk = Some (f_content f)
                           else s_dir s' !! json_name mk = None in
  match r with
  | None => marked /\ s_dir s' !! claimed_name mk = None
  | Some (CleanupFailed, _) => marked
  | Some (ClaimFailed, _) => s' = s
  | Some (AuditWriteFailed, yes) => s_chain s' = s_chain s /\ no_marker mk s' /\ back yes
  | Some (MarkerFailed, yes) =>
      (s_chain s' = s_chain s ++ [ev] \/ s_chain s' = s_chain s ++ [ev; EReverted mk (d_approver rq)]) /\
      (mk ∉ s_leftover s' -> no_marker mk s') /\ back yes
  | Some _ => False
  end.

Definition in_hand (mk : bytes) (f : file) (s : shared) : Prop :=
  s_dir s !! json_name mk = None /\
  exists g, s_dir s !! claimed_name mk = Some g /\ f_content g = f_content f.

Lemma release_alone rq mk f c s l :
  in_hand mk f s -> (1 <= length l)%nat ->
  exists yes s', decide_alone rq l (DRelease (json_name mk) mk c, s) = (DDone (Some (c, yes)), s') /\
    s_chain s' = s_chain s /\ s_approved s' = s_approved s /\ s_denied s' = s_denied s /\ s_leftover s' = s_leftover s /\
    if yes then f_content <$> s_dir s' !! json_name mk = Some (f_content f) else s_dir s' !! json_name mk = None.
Proof.
  intros (Hj & g & Hc & Hf) Hl. destruct l as [|[n ok] l]; [by cbn in Hl; lia|]. rewrite alone_cons. cbn. rewrite Hc.
  destruct ok; unfold refused; rewrite alone_done; eexists _, _; (split; [reflexivity|]); split_and!; try done.
  cbn. rewrite lookup_insert_eq. cbn. by rewrite Hf.
Qed.

Lemma revert_alone rq mk f s0 s l :
  in_hand mk f s -> (2 <= length l)%nat -> (mk ∉ s_leftover s -> no_marker mk s) ->
  s_chain s = s_chain s0 ++ [EDecision mk (d_approver rq) (d_approve rq) (d_surface rq)] ->
  exists r s', decide_alone rq l (DRevert (json_name mk) mk, s) = (DDone r, s') /\ ends_well rq mk f s0 s' r.
Proof.
  intros Hh Hl Hm Hc. destruct l as [|[n ok] l]; [by cbn in Hl; lia|]. rewrite alone_cons. cbn [fst snd decide_step].
  cbn [length] in Hl.
  destruct (release_alone rq mk f MarkerFailed (if ok then append (EReverted mk (d_approver rq)) s else s) l)
    as (yes & s' & -> & Hch & Ha & Hd & Hle & Hb); [by destruct ok|lia|].
  exists (Some (MarkerFailed, yes)), s'. split; [done|]. cbn. rewrite Hch, Hle. split_and!; [| |done].
  - destruct ok; cbn; rewrite Hc, <- ?app_assoc; [by right|by left].
  - unfold no_marker. rewrite Ha, Hd. destruct ok; exact Hm.
Qed.

Lemma marked_alone rq mk f s0 s l at_ :
  in_hand mk f s -> (1 <= length l)%nat ->
  s_chain s = s_chain s0 ++ [EDecision mk (d_approver rq) (d_approve rq) (d_surface rq)] ->
  markers (d_approve rq) s !! mk = Some (Some (mkMarker at_ (d_approver rq) (d_surface rq))) ->
  exists r s', decide_alone rq l (DCleanup (json_name mk) mk, s) = (DDone r, s') /\ ends_well rq mk f s0 s' r.
Proof.
  intros (Hj & g & Hg & Hf) Hl Hc Hm. destruct l as [|[n ok] l]; [by cbn in Hl; lia|].
  rewrite alone_cons. cbn [fst snd decide_step]. rewrite Hg. unfold refused.
  destruct ok; rewrite alone_done; eexists _, _; (split; [reflexivity|]); cbn.
  - split; [|apply lookup_delete_eq]. split; [done|]. split; [|exists at_; by destruct (d_approve rq)].
    by rewrite lookup_delete_None; right.
  - split; [done|]. split; [done|]. by exists at_.
Qed.

Lemma create_alone rq mk f s0 s l :
  in_hand mk f s -> (5 <= length l)%nat -> no_marker mk s ->
  s_chain s = s_chain s0 ++ [EDecision mk (d_approver rq) (d_approve rq) (d_surface rq)] ->
  exists r s', decide_alone rq l (DCreate (json_name mk) mk, s) = (DDone r, s') /\ ends_well rq mk f s0 s' r.
Proof.
  intros Hh Hl Hm Hc. destruct l as [|[n1 ok1] [|[n2 ok2] [|[n3 ok3] l]]]; cbn [length] in Hl; [lia..|].
  destruct (proj1 (no_marker_iff mk s (d_approve rq)) Hm) as [Hm1 Hm2].
  rewrite alone_cons. cbn [fst snd decide_step]. rewrite Hm1.
  destruct ok1; [|by apply (revert_alone rq mk f s0); [|cbn; lia|..]].
  set (s1 := set_markers _ _ s). assert (Hs1 : in_hand mk f s1 /\ s_chain s1 = s_chain s)
    by (unfold s1, in_hand; by destruct (d_approve rq)). destruct Hs1 as [Hh1 Hc1].
  rewrite alone_cons. cbn [fst snd decide_step]. destruct ok2.
  - set (M := <[mk:=_]> (markers _ s1)).
    assert (Hs2 : in_hand mk f (set_markers (d_approve rq) M s1) /\ s_chain (set_markers (d_approve rq) M s1) = s_chain s1)
      by (unfold in_hand; by destruct (d_approve rq)). destruct Hs2 as [Hh2 Hc2].
    apply (marked_alone rq mk f s0 _ _ n2); [done|cbn; lia|congruence|].
    rewrite markers_set, bool_decide_true by done. apply lookup_insert_eq.
  - rewrite alone_cons. cbn [fst snd decide_step]. destruct ok3.
    + apply (revert_alone rq mk f s0); [by unfold in_hand; destruct (d_approve rq)|lia| |].
      * intros _. apply (no_marker_iff _ _ (d_approve rq)). rewrite !markers_set, bool_decide_true, bool_decide_false
          by (by destruct (d_approve rq)). split; [apply lookup_delete_eq|].
        unfold s1. by rewrite markers_set, bool_decide_false by (by destruct (d_approve rq)).
      * rewrite <- Hc, <- Hc1. by destruct (d_approve rq).
    + apply (revert_alone rq mk f s0); [done|lia| |cbn; congruence].
      intros Hi. exfalso. apply Hi, elem_of_union. left. by apply elem_of_singleton.
Qed.

(** A claim decided without interference ends, whichever operations fail,
    either recorded and marked with the request gone, or unrecorded with the
    request put back as it was, or recorded and then reverted if the ledger
    still writes, without a marker if it could be removed. *)
Theorem decision_all_or_nothing rq mk f s l :
  s_dir s !! json_name mk = Some f -> no_marker mk s -> (8 <= length l)%nat ->
  exists r s', decide_alone rq l (DClaim (json_name mk) mk, s) = (DDone r, s') /\ ends_well rq mk f s s' r.
Proof.
  intros Hf Hm Hl. destruct l as [|[n1 ok1] [|[n2 ok2] [|[n3 ok3] l]]]; cbn [length] in Hl; [lia..|].
  rewrite alone_cons. cbn [fst snd decide_step]. rewrite Hf. destruct ok1; unfold refused.
  2:{ rewrite alone_done. by eexists _, _. }
  set (s1 := set_dir _ s).
  assert (Hh1 : in_hand mk f s1).
  { unfold in_hand, s1. cbn. rewrite lookup_insert_eq. split; [|by eexists].
    rewrite lookup_insert_ne by (intros H; symmetry in H; by apply json_claimed in H). apply lookup_delete_eq. }
  rewrite alone_cons. cbn [fst snd decide_step]. set (s2 := if ok2 then _ else s1).
  assert (Hs2 : in_hand mk f s2 /\ s_chain s2 = s_chain s /\ no_marker mk s2).
  { unfold s2. destruct ok2; [|done]. split; [|done]. destruct Hh1 as (Hj & g & Hg & Hc). split.
    - cbn. apply lookup_alter_None. exact Hj.
    - exists (mkFile (f_content g) n2). cbn. rewrite lookup_alter_eq. unfold s1 in Hg. cbn in Hg. by rewrite Hg. }
  destruct Hs2 as (Hh2 & Hc2 & Hm2). rewrite alone_cons. cbn [fst snd decide_step]. destruct ok3.
  - apply (create_alone rq mk f s); [done|lia|done|]. cbn. by rewrite Hc2.
  - destruct (release_alone rq mk f AuditWriteFailed s2 l) as (yes & s' & -> & H1 & H2 & H3 & _ & H4); [done|lia|].
    eexists _, s'. split; [reflexivity|]. cbn. rewrite H1. unfold no_marker. by rewrite H2, H3.
Qed.

(** ** Deciders and requesters finish *)

(** Own steps a process still needs. *)
Definition decide_left (pc : decidePC) : option nat :=
  match pc with
  | DStart | DSweep SStart => None
  | DSweep (SNext l) => Some (2 * length l + 11)%nat
  | DSweep (SRemove _ l) => Some (2 * length l + 12)%nat
  | DLocate => Some 10%nat
  | DClaim _ _ => Some 9%nat | DStamp _ _ => Some 8%nat | DLog _ _ => Some 7%nat
  | DCreate _ _ => Some 6%nat | DWrite _ _ => Some 5%nat | DUnwrite _ _ => Some 4%nat
  | DRevert _ _ => Some 3%nat | DRelease _ _ _ => Some 2%nat | DCleanup _ _ => Some 1%nat
  | DDone _ => Some 0%nat
  end.

Lemma decide_step_left now ok rq pc s n :
  decide_left pc = Some n ->
  exists k, decide_left (fst (decide_step now ok rq pc s)) = Some k /\ (k <= n - 1)%nat.
Proof.
  destruct pc as [|[|l|x l]| |f m|f m|f m|f m|f m|f m|f m|f m c|f m|r]; cbn [decide_left decide_step]; try done; intros [= <-].
  - destruct l as [|x l]; cbn [sweep_step]; [exists 10%nat; split; [done|cbn; lia]|].
    destruct (s_dir s !! x) as [f|]; [destruct (_ <=? _); [|destruct ok]|]; eexists; (split; [reflexivity|]); cbn [length]; lia.
  - destruct ok; eexists; (split; [reflexivity|]); lia.
  - unfold refused. destruct (locatePending _ _) as [[[p f] m]|]; [destruct (decide_refusal _ _ _)|];
      eexists; (split; [reflexivity|]); lia.
  - unfold refused. destruct (s_dir s !! f); [destruct ok|]; eexists; (split; [reflexivity|]); lia.
  - eexists; (split; [reflexivity|]); lia.
  - destruct ok; eexists; (split; [reflexivity|]); lia.
  - destruct (markers _ _ !! _); [|destruct ok]; eexists; (split; [reflexivity|]); lia.
  - destruct ok; eexists; (split; [reflexivity|]); lia.
  - eexists; (split; [reflexivity|]); lia.
  - eexists; (split; [reflexivity|]); lia.
  - unfold refused. destruct (s_dir s !! claimed_name m); [destruct ok|]; eexists; (split; [reflexivity|]); lia.
  - unfold refused. destruct (s_dir s !! claimed_name m); [destruct ok|]; eexists; (split; [reflexivity|]); lia.
  - exists 0%nat. split; [done|lia].
Qed.

Definition turns_of (pid : nat) (l : list turn) : nat :=
  length (List.filter (fun t => Nat.eqb (fst (fst t)) pid) l).

Lemma decider_left_run pid rq l : forall w pc n,
  w_procs w !! pid = Some (Decider rq pc) -> decide_left pc = Some n ->
  exists pc' k, w_procs (wrun w l) !! pid = Some (Decider rq pc') /\ decide_left pc' = Some k /\
    (k <= n - turns_of pid l)%nat.
Proof.
  induction l as [|[[q now] ok] l IH]; intros w pc n Hw Hn; [exists pc, n; split_and!; try done; cbn; lia|].
  cbn [wrun foldl]. fold (wrun (wstep w (q, now, ok)) l). unfold turns_of. cbn [List.filter fst snd].
  destruct (Nat.eqb_spec q pid) as [->|Hq].
  - destruct (decide_step_left now ok rq pc (w_sh w) n Hn) as (k & Hk & Hle).
    destruct (IH (wstep w (pid, now, ok)) (fst (decide_step now ok rq pc (w_sh w))) k) as (pc' & j & H1 & H2 & H3); [|done|].
    { unfold wstep. rewrite Hw. cbn [proc_step]. destruct (decide_step _ _ _ _ _). cbn. apply lookup_insert_eq. }
    exists pc', j. split_and!; try done. unfold turns_of in H3. cbn [length]. lia.
  - apply (IH _ pc n); [|done]. unfold wstep. destruct (w_procs w !! q) as [pr|]; [|done].
    destruct (proc_step now ok pr (w_sh w)). cbn. by rewrite lookup_insert_ne.
Qed.

(** C40: A decider that has listed the claims to sweep finishes within two of
    its own steps per claim and eleven more, whatever the other processes do.
    *)
Theorem decider_wait_free w l pid rq names :
  w_procs w !! pid = Some (Decider rq (DSweep (SNext names))) ->
  (2 * length names + 11 <= turns_of pid l)%nat ->
  exists r, w_procs (wrun w l) !! pid = Some (Decider rq (DDone r)).
Proof.
  intros Hw Hl. destruct (decider_left_run pid rq l w _ _ Hw eq_refl) as (pc & k & H & Hk & Hle).
  assert (k = 0%nat) as -> by lia.
  destruct pc as [|[|ns|x ns]| | | | | | | | | | |r]; cbn in Hk; try done; try (injection Hk as Hk; lia).
  by exists r.
Qed.

(** ** A renamed session neither requests nor decides *)

Definition sets_source (op : session_op) : bool := match op with OpIdentitySource _ => true | _ => false end.

Lemma run_op_source now op s :
  sets_source op = false -> s_identitySource s = IdentitySourceAsserted ->
  s_identitySource (run_op now op s) = IdentitySourceAsserted.
Proof.
  destruct op; cbn; try done; intros _ H.
  all: unfold AddPrincipal, RemovePrincipal, ClaimController, ReleaseController,
    Terminate, CancelCommand, DropElevation, ActiveElevation, SetEnv;
    repeat first [case_match | case_bool_decide]; simplify_eq; cbn; try done.
Qed.

Lemma run_ops_source ops : forall s,
  forallb (fun o => negb (sets_source (snd o))) ops = true -> s_identitySource s = IdentitySourceAsserted ->
  s_identitySource (run_ops ops s) = IdentitySourceAsserted.
Proof.
  induction ops as [|[now op] ops IH]; intros s; [done|]. cbn [forallb snd]. intros [H1 H2]%andb_true_iff Hs.
  apply IH; [done|]. apply run_op_source; [by apply negb_true_iff|done].
Qed.

(** A session whose identity was set at run time can neither request an
    approval nor decide one, through any later session operations that do not
    set the identity source. *)
Theorem renamed_cannot_decide now user principals ops s sid r forbidden now' :
  sid <> [] -> forallb (fun o => negb (sets_source (snd o))) ops = true ->
  GetSession sid r = Some (run_ops ops (SetIdentity now user principals s)) ->
  is_ok (fst (shellApprover forbidden now' sid r)) = false /\ checkRequesterIdentity sid r <> None.
Proof.
  intros Hs Ho Hg. assert (Hsrc : s_identitySource (run_ops ops (SetIdentity now user principals s)) = IdentitySourceAsserted)
    by by apply run_ops_source.
  unfold shellApprover, checkRequesterIdentity. rewrite bool_decide_false by done. rewrite Hg, Hsrc.
  split; [|done]. destruct forbidden; [done|]. by destruct (s_agentBinding _).
Qed.

End four_eyes.

(** ** A concrete pair *)

Definition demoAsk : ask :=
  mkAsk (lit "0a") (lit "77") (lit "rm x") (lit "alice") (lit "h") [] (mkRule (lit "rm *") (lit "bob") 60 [] []).
Definition demoApprove : decision := mkDecision4 (lit "0a") (lit "bob") (lit "shell") true false.
Definition demoWorld : world :=
  mkWorld empty_shared {[0%nat := Requester demoAsk AStart; 1%nat := Decider demoApprove DStart]}.

Lemma demo_initial : initial demoWorld.
Proof.
  split; [done|]. cbn [w_procs demoWorld]. split.
  - intros pid pr [[_ <-]|[_ H]]%lookup_insert_Some; [done|]. by apply lookup_singleton_Some in H as [_ <-].
  - intros p q a b pa pb H1 H2 _.
    apply lookup_insert_Some in H1 as [[<- _]|[_ H1]]; [|apply lookup_singleton_Some in H1 as [_ H1]; discriminate H1].
    apply lookup_insert_Some in H2 as [[<- _]|[_ H2]]; [done|apply lookup_singleton_Some in H2 as [_ H2]; discriminate H2].
Defined.

(** The requester creates its request; the decider runs up to the marker. *)
Definition demoTurns : list turn :=
  repeat (0%nat, 1, true) 3 ++ repeat (1%nat, 2, true) 8.

Lemma approval_needs_second_person_witness :
  exists approver surface, EDecision (lit "0a") approver true surface
    ∈ s_chain (w_sh (wrun (Sh := demoSha) demoWorld (demoTurns ++ repeat (1%nat, 3, true) 2 ++ [(0%nat, 4, true)]))) /\
    approver <> lit "alice".
Proof.
  destruct (approval_needs_second_person (Sh := demoSha) demoWorld
    (demoTurns ++ repeat (1%nat, 3, true) 2 ++ [(0%nat, 4, true)]) 0 demoAsk demo_initial
    ltac:(vm_compute; reflexivity)) as (ap & su & H & _ & Hv & _).
  exists ap, su. split; [exact H|]. apply Hv. vm_compute. reflexivity.
Defined.

Lemma decisions_exclusive_witness :
  let w := wrun (Sh := demoSha) demoWorld (demoTurns ++ repeat (1%nat, 3, true) 2) in
  s_denied (w_sh w) !! lit "0a" = None.
Proof.
  cbv zeta. destruct (decisions_exclusive (Sh := demoSha) demoWorld (demoTurns ++ repeat (1%nat, 3, true) 2) demo_initial)
    as (_ & H & _).
  assert (Hl : s_leftover (w_sh (wrun (Sh := demoSha) demoWorld (demoTurns ++ repeat (1%nat, 3, true) 2))) = ∅)
    by (vm_compute; reflexivity).
  destruct (H (lit "0a")) as [Ha|Hd]; [rewrite Hl; apply not_elem_of_empty| |exact Hd].
  vm_compute in Ha. discriminate Ha.
Defined.

Definition demoPendingFS : shared :=
  set_dir {[json_name (lit "0a") := mkFile (Some (stored (ask_pending demoAsk))) 1]} empty_shared.

Lemma decision_all_or_nothing_witness :
  exists r s', decide_alone (Sh := demoSha) demoApprove ((2, true) :: (2, true) :: repeat (2, false) 6)
      (DClaim (json_name (lit "0a")) (lit "0a"), demoPendingFS) = (DDone r, s') /\
    ends_well demoApprove (lit "0a") (mkFile (Some (stored (ask_pending demoAsk))) 1) demoPendingFS s' r.
Proof.
  apply decision_all_or_nothing; [vm_compute; reflexivity|split; reflexivity|cbn; lia].
Defined.

Lemma decider_wait_free_witness :
  exists r, w_procs (wrun (Sh := demoSha) (mkWorld empty_shared {[1%nat := Decider demoApprove (DSweep (SNext []))]})
    (repeat (1%nat, 2, true) 11)) !! 1%nat = Some (Decider demoApprove (DDone r)).
Proof. apply (decider_wait_free _ _ _ _ []); [reflexivity|vm_compute; lia]. Defined.

Lemma renamed_cannot_decide_witness :
  let s := run_ops [(3, OpTouch)] (SetIdentity 2 (lit "carol") [] demoSession) in
  is_ok (fst (shellApprover false 5 (lit "s1") (mkReg {[lit "s1" := s]} ∅ 0))) = false.
Proof.
  cbv zeta. apply (renamed_cannot_decide 2 (lit "carol") [] [(3, OpTouch)] demoSession (lit "s1"));
    [discriminate|reflexivity|vm_compute; reflexivity].
Defined.

(** There is a run in which the marker is created, the requester sees it and
    runs the command, the write of the marker then fails, and the ledger ends
    with the decision reverted, no marker, and the request pending again. *)
Theorem approval_seen_before_revert :
  let w := wrun (Sh := demoSha) demoWorld
    (demoTurns ++ [(0%nat, 3, true); (1%nat, 4, false)] ++ repeat (1%nat, 5, true) 3) in
  w_procs w !! 0%nat = Some (Requester demoAsk (ADone Approved4)) /\
  s_chain (w_sh w) = [EDecision (lit "0a") (lit "bob") true (lit "shell"); EReverted (lit "0a") (lit "bob")] /\
  s_approved (w_sh w) = ∅ /\ is_Some (s_dir (w_sh w) !! json_name (lit "0a")).
Proof.
  cbv zeta. split_and!; [vm_compute; reflexivity..|]. eexists. vm_compute. reflexivity.
Qed.
