(* ===== verification/Lease.v ===== *)
(** * Exec leases

    security/execlease_ee.go: the verification of a signed lease, the keys
    file, the one-time record of a lease's id as processes that share the
    state directory, and the check of a signed envelope.  main_sah_ee.go and
    internal/sah/sah_ee.go: the frame that carries a command and its lease, and
    the steps from the frame to the child.  Signatures, SHA-256 and the JSON
    decoders are classes. *)

From S2P Require Import Prelude GoBytes GoTime Json SafeFile MonitorProto Policy.
From stdpp Require Import pretty.
#[local] Open Scope Z_scope.
#[local] Arguments lit : simpl never.

(** ** Base64, as [DecodeString] of encoding/base64 reads it *)

Inductive alphabet := StdAlphabet | UrlAlphabet.
Definition b64_value (al : alphabet) (c : byte) : option Z :=
  let z := byte_val c in
  if (65 <=? z) && (z <=? 90) then Some (z - 65)
  else if (97 <=? z) && (z <=? 122) then Some (z - 71)
  else if (48 <=? z) && (z <=? 57) then Some (z + 4)
  else match al with
  | StdAlphabet => if z =? 43 then Some 62 else if z =? 47 then Some 63 else None
  | UrlAlphabet => if z =? 45 then Some 62 else if z =? 95 then Some 63 else None
  end.

Definition three (a b c d : Z) : bytes :=
  [byte_of (a * 4 + b / 16); byte_of (b mod 16 * 16 + c / 4); byte_of (c mod 4 * 64 + d)].

(** Four characters at a time; a short last group only without padding. *)
Fixpoint b64_groups (al : alphabet) (padded : bool) (s : bytes) : option bytes :=
  match s with
  | [] => Some []
  | x1 :: x2 :: x3 :: x4 :: s' =>
      match b64_value al x1, b64_value al x2, b64_value al x3, b64_value al x4 with
      | Some a, Some b, Some c, Some d => r ← b64_groups al padded s'; Some (three a b c d ++ r)
      | Some a, Some b, Some c, None =>
          if padded && (x4 =?b "=") then match s' with [] => Some (take 2 (three a b c 0)) | _ => None end else None
      | Some a, Some b, None, _ =>
          if padded && (x3 =?b "=") && (x4 =?b "=")
          then match s' with [] => Some (take 1 (three a b 0 0)) | _ => None end else None
      | _, _, _, _ => None
      end
  | [x1; x2; x3] =>
      if padded then None
      else match b64_value al x1, b64_value al x2, b64_value al x3 with
      | Some a, Some b, Some c => Some (take 2 (three a b c 0))
      | _, _, _ => None
      end
  | [x1; x2] =>
      if padded then None
      else match b64_value al x1, b64_value al x2 with
      | Some a, Some b => Some (take 1 (three a b 0 0))
      | _, _ => None
      end
  | [_] => None
  end.

(** Line ends are skipped. *)
Definition b64_decode (al : alphabet) (padded : bool) (s : bytes) : option bytes :=
  b64_groups al padded (List.filter (fun c => negb ((byte_val c =? 10) || (byte_val c =? 13))) s).

Example b64_samples :
  map (b64_decode StdAlphabet true) [lit "aGk="; lit "aGVsbG8gd29ybGQ="; lit "aGk"; lit "a==="; lit "YQ=="]
  = [Some (lit "hi"); Some (lit "hello world"); None; None; Some (lit "a")] /\
  map (b64_decode UrlAlphabet false) [lit "aGk"; lit "aGk="; lit "_-8"; []] = [Some (lit "hi"); None; Some [byte_of 255; byte_of 239]; Some []].
Proof. vm_compute. by split. Qed.

(** ** Data *)

Definition leaseTokenMax : Z := 8 * 1024.
Definition leasePayloadMax : Z := 4 * 1024.
Definition leaseHeaderMax : Z := 1024.
Definition leaseWindowMax : Z := 300.
Definition leaseKeysMax : Z := 64 * 1024.
Definition envelopeBytesMax : Z := 256 * 1024.
Definition envelopePayloadMax : Z := 64 * 1024.
Definition SignatureSize : Z := 64.
Definition PublicKeySize : Z := 32.

Inductive leaseErr := LeaseRequired | LeaseRejected | LeaseExpired | LeaseReplayed | LeaseCommandMismatch.
#[export] Instance leaseErr_eq_dec : EqDecision leaseErr.
Proof. solve_decision. Defined.

Record LeaseOptions := mkLeaseOptions {
  KeysFile : bytes; Issuer : bytes; HostID : bytes; Scope : bytes; Command : list bytes; Now : Z }.
Record VerifiedLease := mkVerified {
  v_Sub : bytes; v_Host : bytes; v_JTI : bytes; v_Exp : Z; v_Scope : bytes; v_Kid : bytes; v_Cmd : list bytes }.
Definition Claim (v : VerifiedLease) : ExecLeaseClaim := mkExecLease (v_Sub v) (v_Host v) (v_JTI v) (v_Exp v).

Record leaseHeader := mkHeader { h_Alg : bytes; h_Kid : bytes }.
(** The raw [cmd] and [cmd_prefix] are empty when they are absent. *)
Record leasePayload := mkPayload {
  lp_V : Z; lp_Iss : bytes; lp_Kid : bytes; lp_Sub : bytes; lp_Host : bytes; lp_Scope : bytes;
  lp_Cmd : bytes; lp_CmdPrefix : bytes; lp_Iat : Z; lp_Nbf : Z; lp_Exp : Z; lp_JTI : bytes }.
Record envelopeSig := mkSig { es_Kid : bytes; es_Sig : bytes }.
Record signedEnvelope := mkEnvelope { se_Payload : bytes; se_Sigs : list envelopeSig }.

Class LeaseLib := {
  ed25519_verify : bytes -> bytes -> bytes -> bool;   (* key, message, signature *)
  decode_header : bytes -> option leaseHeader;
  decode_payload : bytes -> option leasePayload;
  decode_cmd : bytes -> option (list bytes);
  decode_envelope : bytes -> option signedEnvelope;
  decode_rest : bytes -> rest }.

(** ** Text *)

Definition require {E} (b : bool) (e : E) : result E unit := if b then Ok tt else Err e.

(** [hasSpace]: white space anywhere. *)
Fixpoint hasSpace (s : bytes) : bool :=
  match s with [] => false | _ :: s' => negb (Nat.eqb (space_width s) 0) || hasSpace s' end.
Definition NUL : byte := byte_of 0.
Definition has_char (c : byte) (s : bytes) : bool := existsb (fun x => x =?b c) s.
Definition hasBadText (s : bytes) : bool := has_char NUL s || has_char (byte_of 10) s || has_char (byte_of 13) s.

Definition id_char (c : byte) : bool := is_alnum c || (c =?b "_") || (c =?b "-").
Definition jtiPattern (s : bytes) : bool := (1 <=? zlen s) && (zlen s <=? 128) && forallb id_char s.

Fixpoint cmdsEqual_from (a b : list bytes) : bool :=
  match a, b with
  | [], [] => true
  | x :: a', y :: b' => bool_decide (x = y) && cmdsEqual_from a' b'
  | _, _ => false
  end.
Definition cmdsEqual (a b : list bytes) : bool := negb (bool_decide (a = [])) && cmdsEqual_from a b.

(** ** Keys *)

Definition decodeStdOrRaw (s : bytes) : option bytes :=
  match b64_decode StdAlphabet true s with Some b => Some b | None => b64_decode StdAlphabet false s end.

Definition decodePub (s : bytes) : option bytes :=
  b ← decodeStdOrRaw s; if zlen b =? PublicKeySize then Some b else None.

Definition key_line (line : bytes) : option (bytes * bytes) :=
  let sep := lit "=ed25519:" in
  match index_of sep line with
  | None | Some O => None
  | Some idx =>
      let kid := take idx line in
      let raw := drop (idx + length sep) line in
      if bool_decide (kid = []) || bool_decide (raw = []) || has_char NUL kid
         || has_char " " kid || has_char (byte_of 9) kid then None
      else pub ← decodePub raw; Some (kid, pub)
  end.

Fixpoint key_lines (lines : list bytes) (keys : gmap bytes bytes) : option (gmap bytes bytes) :=
  match lines with
  | [] => Some keys
  | line :: lines' =>
      let line := trim_space line in
      if bool_decide (line = []) || has_prefix (lit "#") line then key_lines lines' keys
      else '(kid, pub) ← key_line line;
           if bool_decide (is_Some (keys !! kid)) then None else key_lines lines' (<[kid := pub]> keys)
  end.

Definition loadEd25519Keys (path : bytes) (look : disk) : option (gmap bytes bytes) :=
  if bool_decide (path = []) || has_char NUL path then None
  else match Open look with
  | Err _ => None
  | Ok f =>
      if negb (Z.land (f_perm f) 63 =? 0) then None
      else match ReadAll f leaseKeysMax with
      | Err _ => None
      | Ok body =>
          keys ← key_lines (split_byte NL body) ∅;
          if bool_decide (keys = ∅) then None else Some keys
      end
  end.

(** ** Verification *)

Section Verify.
Context `{LeaseLib} `{Sha256}.

Definition LeaseFingerprint (token : bytes) : bytes := sha256_hex token.

(** [unmarshalStrict]: one value and nothing after it. *)
Definition unmarshalStrict {A} (dec : bytes -> option A) (data : bytes) : option A :=
  v ← dec data; match decode_rest data with REof => Some v | _ => None end.

Definition parseLeaseCmd (raw : bytes) : option (list bytes) :=
  match raw with
  | [] => None
  | _ => cmd ← decode_cmd raw;
         if bool_decide (cmd = []) then None
         else match decode_rest raw with
         | REof => if existsb (has_char NUL) cmd then None else Some cmd
         | _ => None
         end
  end.

Definition of_option {A} (o : option A) : result leaseErr A := match o with Some a => Ok a | None => Err LeaseRejected end.

(** One segment of the token: its bytes, not empty and at most [max]. *)
Definition segment (s : bytes) (max : Z) : result leaseErr bytes :=
  let! raw := of_option (b64_decode UrlAlphabet false s) in
  let! _ := require (negb (bool_decide (raw = [])) && (zlen raw <=? max)) LeaseRejected in Ok raw.

(** [clock] is the time when [Now] is zero. *)
Definition VerifyExecLease (token : bytes) (opt : LeaseOptions) (keysfile : disk) (clock : Z)
  : result leaseErr VerifiedLease :=
  let! _ := require (negb (bool_decide (KeysFile opt = []) || bool_decide (Issuer opt = []) || bool_decide (HostID opt = [])))
              LeaseRejected in
  let! _ := require (is_one_of (Scope opt) ["exec"; "recover"]) LeaseRejected in
  let! _ := require (negb (bool_decide (token = []) || (leaseTokenMax <? zlen token) || hasSpace token)) LeaseRejected in
  match split_byte "." token with
  | [p0; p1; p2] =>
      let! _ := require (negb (bool_decide (p0 = []) || bool_decide (p1 = []) || bool_decide (p2 = []))) LeaseRejected in
      let! headerRaw := segment p0 leaseHeaderMax in
      let! payloadRaw := segment p1 leasePayloadMax in
      let! sig := of_option (b64_decode UrlAlphabet false p2) in
      let! _ := require (zlen sig =? SignatureSize) LeaseRejected in
      let! hdr := of_option (unmarshalStrict decode_header headerRaw) in
      let! p := of_option (unmarshalStrict decode_payload payloadRaw) in
      let! keys := of_option (loadEd25519Keys (KeysFile opt) keysfile) in
      let! pub := of_option (keys !! lp_Kid p) in
      let! _ := require (zlen pub =? PublicKeySize) LeaseRejected in
      let! _ := require (ed25519_verify pub (p0 ++ lit "." ++ p1) sig) LeaseRejected in
      let! _ := require (bool_decide (h_Kid hdr = []) || bool_decide (h_Kid hdr = lp_Kid p)) LeaseRejected in
      let! _ := require (bool_decide (lp_CmdPrefix p = [])) LeaseRejected in
      let! _ := require ((lp_V p =? 1) && bool_decide (lp_Scope p = Scope opt)) LeaseRejected in
      let! _ := require (bool_decide (lp_Iss p = Issuer opt) && bool_decide (lp_Host p = HostID opt)) LeaseRejected in
      let! _ := require (negb (bool_decide (lp_Iss p = []) || bool_decide (lp_Sub p = [])
                               || bool_decide (lp_Host p = []) || bool_decide (lp_Kid p = []))) LeaseRejected in
      let! _ := require (negb (hasBadText (lp_Iss p) || hasBadText (lp_Sub p) || hasBadText (lp_Host p))) LeaseRejected in
      let! _ := require (jtiPattern (lp_JTI p)) LeaseRejected in
      let! cmd := if bool_decide (Scope opt = lit "recover")
                  then let! _ := require (bool_decide (lp_Cmd p = []) && bool_decide (Command opt = [])) LeaseRejected in Ok []
                  else of_option (parseLeaseCmd (lp_Cmd p)) in
      let now := Unix (if Now opt =? 0 then clock else Now opt) in
      let! _ := require (negb ((lp_Iat p <=? 0) || (lp_Nbf p <=? 0) || (lp_Exp p <=? 0))) LeaseRejected in
      let! _ := require (negb ((lp_Nbf p <? lp_Iat p) || (lp_Exp p <? lp_Nbf p) || (lp_Exp p <=? lp_Iat p))) LeaseRejected in
      let! _ := require (lp_Exp p - lp_Iat p <=? leaseWindowMax) LeaseRejected in
      let! _ := require (negb ((now <? lp_Iat p) || (now <? lp_Nbf p))) LeaseRejected in
      let! _ := require (now <? lp_Exp p) LeaseExpired in
      let! _ := require (negb (bool_decide (Scope opt = lit "exec")) || cmdsEqual cmd (Command opt)) LeaseCommandMismatch in
      Ok (mkVerified (lp_Sub p) (lp_Host p) (lp_JTI p) (lp_Exp p) (lp_Scope p) (lp_Kid p) cmd)
  | _ => Err LeaseRejected
  end.

(** ** Signed envelopes *)

Fixpoint envelope_sigs (payload : bytes) (keys : gmap bytes bytes) (sigs : list envelopeSig) (kids : list bytes)
  : option (list bytes) :=
  match sigs with
  | [] => Some kids
  | s :: sigs' =>
      match keys !! es_Kid s with
      | None => None
      | Some pub =>
          if bool_decide (es_Kid s = []) || negb (zlen pub =? PublicKeySize) then None
          else match decodeStdOrRaw (es_Sig s) with
          | None => None
          | Some raw =>
              if negb (zlen raw =? SignatureSize) || negb (ed25519_verify pub payload raw) then None
              else envelope_sigs payload keys sigs'
                     (if bool_decide (es_Kid s ∈ kids) then kids else kids ++ [es_Kid s])
          end
      end
  end.

(** The payload and the distinct signers, in order of appearance. *)
Definition verifySignedPayload (env : bytes) (keys : gmap bytes bytes) (minDistinct : Z) : option (bytes * list bytes) :=
  if (minDistinct <? 1) || bool_decide (env = []) || (envelopeBytesMax <? zlen env) || bool_decide (keys = ∅) then None
  else
    e ← unmarshalStrict decode_envelope env;
    if bool_decide (se_Sigs e = []) || bool_decide (se_Payload e = []) then None
    else
      payload ← decodeStdOrRaw (se_Payload e);
      if bool_decide (payload = []) || (envelopePayloadMax <? zlen payload) then None
      else
        kids ← envelope_sigs payload keys (se_Sigs e) [];
        if zlen kids <? minDistinct then None else Some (payload, kids).
End Verify.

(** ** The one-time record

    A lease's id names a file of the state directory that holds its expiry.
    A commit is a process of system calls; several share the directory.  A
    name is a link or an inode, and an inode keeps its contents while a
    process holds it open. *)

Inductive entry := ELink | ENode (ino : nat).
Record inode := mkInode { i_regular : bool; i_data : bytes }.
Record leaseDir := mkDir { d_names : gmap bytes entry; d_inodes : gmap nat inode; d_next : nat }.

(** Where a commit stands; [attempt] counts the removals of an expired record. *)
Inductive commitPC :=
| PCreate (attempt : nat) | PWrite (ino : nat) | PCleanup
| POpen (attempt : nat) | PRead (ino attempt : nat) | PUnlink
| PClose (r : result leaseErr unit) | PDone (r : result leaseErr unit).

Record commit := mkCommit { c_name : bytes; c_exp : Z; c_now : Z; c_pc : commitPC }.
Definition at_pc (c : commit) (pc : commitPC) : commit := mkCommit (c_name c) (c_exp c) (c_now c) pc.

(** How a system call ends: as it should, with an error, and for a write an
    error after the first [k] bytes. *)
Inductive outcome := Fine | Fault | Short (k : nat).

(** [strconv.ParseInt(s, 10, 64)]. *)
Definition ParseInt64 (s : bytes) : option Z :=
  let '(neg, ds) := match s with
                    | c :: s' => if c =?b "-" then (true, s') else if c =?b "+" then (false, s') else (false, s)
                    | [] => (false, s)
                    end in
  match ds with
  | [] => None
  | _ => n ← parse_digits 0 ds;
         if neg then (if n <=? 2 ^ 63 then Some (- n) else None) else (if n <? 2 ^ 63 then Some n else None)
  end.

(** What [existingLeaseJTI] makes of the contents it read: the expiry. *)
Definition stored_exp (data : bytes) : option Z :=
  if bool_decide (data = []) || (64 <=? zlen data) then None else ParseInt64 (trim_space data).

Definition unlink (name : bytes) (d : leaseDir) : leaseDir := mkDir (delete name (d_names d)) (d_inodes d) (d_next d).
(** [unlinkLeaseName]: a regular file only. *)
Definition unlinkLeaseName (name : bytes) (d : leaseDir) : option leaseDir :=
  match d_names d !! name with
  | Some (ENode ino) =>
      match d_inodes d !! ino with Some f => if i_regular f then Some (unlink name d) else None | None => None end
  | _ => None
  end.
Definition put (ino : nat) (data : bytes) (d : leaseDir) : leaseDir :=
  mkDir (d_names d) (<[ino := mkInode true data]> (d_inodes d)) (d_next d).

Definition commit_step (o : outcome) (c : commit) (d : leaseDir) : commit * leaseDir :=
  let replayed := at_pc c (PClose (Err LeaseReplayed)) in
  let rejected := at_pc c (PClose (Err LeaseRejected)) in
  let ok := match o with Fine => true | _ => false end in
  match c_pc c with
  | PCreate attempt =>
      if negb ok then (rejected, d)
      else if bool_decide (is_Some (d_names d !! c_name c)) then (at_pc c (POpen attempt), d)
      else (at_pc c (PWrite (d_next d)),
            mkDir (<[c_name c := ENode (d_next d)]> (d_names d)) (<[d_next d := mkInode true []]> (d_inodes d)) (S (d_next d)))
  | PWrite ino =>
      let body := lit (pretty (c_exp c)) in
      match o with
      | Fine => (at_pc c (PClose (Ok tt)), put ino body d)
      | Fault => (at_pc c PCleanup, d)
      | Short k => (at_pc c PCleanup, put ino (take k body) d)
      end
  | PCleanup => (rejected, default d (if ok then unlinkLeaseName (c_name c) d else None))
  | POpen attempt =>
      match d_names d !! c_name c with
      | Some (ENode ino) => if ok then (at_pc c (PRead ino attempt), d) else (replayed, d)
      | _ => (replayed, d)
      end
  | PRead ino attempt =>
      match d_inodes d !! ino with
      | Some f =>
          match (if ok && i_regular f then stored_exp (i_data f) else None) with
          | None => (replayed, d)
          | Some stored =>
              if c_now c <? stored then (replayed, d)
              else if (0 <? attempt)%nat then (replayed, d)
              else (at_pc c PUnlink, d)
          end
      | None => (replayed, d)
      end
  | PUnlink =>
      match (if ok then unlinkLeaseName (c_name c) d else None) with
      | Some d' => (at_pc c (PCreate 1), d')
      | None => (replayed, d)
      end
  | PClose r => (at_pc c (PDone (if ok then r else match r with Ok _ => Err LeaseRejected | Err e => Err e end)), d)
  | PDone r => (c, d)
  end.

(** What [Lstat] shows of the state directory. *)
Inductive statRes := SMissing | SErr | SStat (symlink dir : bool) (perm : Z).
Record dirLook := mkLook { l_first : statRes; l_mkdir : bool; l_chmod : bool; l_second : statRes; l_opens : bool }.

Definition openLeaseStateDir (l : dirLook) : bool :=
  let usable s := match s with SStat link dir perm => negb link && dir && (Z.land perm 63 =? 0) | _ => false end in
  match l_first l with
  | SErr => false
  | SMissing => l_mkdir l && l_chmod l && usable (l_second l) && l_opens l
  | s => usable s && l_opens l
  end.

Definition leaseJTIName `{Sha256} (jti : bytes) : bytes := sha256_hex jti.

(** The commit before its first call on the name. *)
Definition commit_start `{Sha256} (dir jti : bytes) (exp now clock : Z) (l : dirLook) : commit :=
  let c pc := mkCommit (leaseJTIName jti) exp (Unix (if now =? 0 then clock else now)) pc in
  if negb (jtiPattern jti) || (exp <=? 0) || bool_decide (dir = []) || has_char NUL dir
  then c (PDone (Err LeaseRejected))
  else if negb (openLeaseStateDir l) then c (PDone (Err LeaseRejected))
  else c (PCreate 0).

(** One process alone, with the outcomes of its calls; a commit makes at most
    nine. *)
Fixpoint commit_alone (os : list outcome) (c : commit) (d : leaseDir) : result leaseErr unit * leaseDir :=
  match c_pc c, os with
  | PDone r, _ => (r, d)
  | _, [] => (Err LeaseRejected, d)
  | _, o :: os' => let '(c, d) := commit_step o c d in commit_alone os' c d
  end.

Definition CommitLeaseJTI `{Sha256} (dir jti : bytes) (exp now clock : Z) (l : dirLook) (d : leaseDir)
  : result leaseErr unit * leaseDir :=
  commit_alone (repeat Fine 9) (commit_start dir jti exp now clock l) d.

(** ** The frame and its execution *)

Definition maxFrame : Z := 64 * 1024.
Definition maxOutput : Z := 4096.
Definition maxArgs : Z := 32.
Definition maxArgBytes : Z := 4096.
Definition maxIDBytes : Z := 64.

Record sahRequest := mkRequest { q_V : Z; q_ID : bytes; q_Type : bytes; q_Command : list bytes; q_LeaseID : bytes }.
(** The role, the protocol and the handoff are the same in every answer. *)
Record sahResponse := mkResponse {
  r_ID : bytes; r_Type : bytes; r_OK : bool; r_Error : bytes; r_ExitCode : option Z; r_Stdout : bytes; r_Stderr : bytes }.

Definition idPattern (s : bytes) : bool := (1 <=? zlen s) && (zlen s <=? 64) && forallb id_char s.
Definition code_char (c : byte) : bool :=
  let z := byte_val c in ((97 <=? z) && (z <=? 122)) || ((48 <=? z) && (z <=? 57)) || (c =?b "_").
Definition codePattern (s : bytes) : bool := (1 <=? zlen s) && (zlen s <=? 64) && forallb code_char s.

Definition vbinNames : list string :=
  ["jq"; "yq"; "http"; "mirror"; "admin"; "identity"; "gateway"; "lease"; "elevate"; "??"; "cmdgen"; "package"; "darkscan";
   "grant"; "vbins"; "cm"; "evidence"; "4eyes"; "why"; "proc"; "par"; "nav"; "help"; "pick"; "audit"; "runbook"; "plugin";
   "memforensics"; "guard"; "from"; "where"; "select"; "to"].

Definition capBytes (s : bytes) : bytes := if zlen s <=? maxOutput then s else take (Z.to_nat maxOutput) s.
Definition safeCode (msg : bytes) : bytes := if codePattern msg then msg else lit "execute_failed".
Definition fail (id typ code : bytes) : sahResponse :=
  mkResponse id (if bool_decide (typ = []) then lit "error" else typ) false code None [] [].

(** The basename that [filepath.Base] and [path.Base] give a name with a slash. *)
Definition command_base (argv0 : bytes) : bytes := if has_char "/" argv0 then path_base argv0 else argv0.
Definition own_name (argv0 : bytes) : bool := is_one_of (command_base argv0) ["adssh"; "sah"; "adssh-mcp"].

Definition validateCommand (command : list bytes) : bool :=
  match command with
  | [] => false
  | argv0 :: _ =>
      (zlen command <=? maxArgs) &&
      forallb (fun arg => (zlen arg <=? maxArgBytes) && negb (has_char NUL arg)) command &&
      negb (bool_decide (argv0 = []) || bool_decide (trim_space argv0 = [])) &&
      negb (own_name argv0) && negb (is_one_of argv0 vbinNames)
  end.

(** The bytes before the first line end or the end of the input; [bad] is a
    read error at the end. *)
Inductive frameErr := FrameEOF | FrameTooLarge | FrameRead.
Fixpoint readFrame (buf : bytes) (s : bytes) (bad : bool) : result frameErr bytes :=
  match s with
  | [] => if bad then Err FrameRead else if bool_decide (buf = []) then Err FrameEOF else Ok (rev buf)
  | c :: s' =>
      if c =?b NL then if bool_decide (buf = []) then Err FrameEOF else Ok (rev buf)
      else if maxFrame <=? zlen buf then Err FrameTooLarge
      else readFrame (c :: buf) s' bad
  end.

(** What the executor answers: output and exit code, or an error text. *)
Definition execResult : Type := result bytes (bytes * bytes * Z).

Class SahCodec := { decode_request : bytes -> option sahRequest; sah_rest : bytes -> rest }.

Section Sah.
Context `{SahCodec}.

(** [Handle] over a state [S] that the executor, which may be absent, changes:
    the answer and the exit code. *)
Definition handleExecute {S} (req : sahRequest) (exec : option (list bytes -> bytes -> S -> execResult * S)) (st : S)
  : sahResponse * Z * S :=
  if negb (validateCommand (q_Command req)) then (fail (q_ID req) (lit "execute") (lit "command_rejected"), 2, st)
  else match exec with
  | None => (fail (q_ID req) (lit "execute") (lit "execute_unavailable"), 2, st)
  | Some exec =>
      match exec (q_Command req) (q_LeaseID req) st with
      | (Err msg, st) => (fail (q_ID req) (lit "execute") (safeCode msg), 2, st)
      | (Ok (out, err, code), st) =>
          (mkResponse (q_ID req) (lit "execute") true [] (Some code) (capBytes out) (capBytes err), 0, st)
      end
  end.

Definition Handle {S} (enabled : bool) (input : bytes) (bad : bool)
    (exec : option (list bytes -> bytes -> S -> execResult * S)) (st : S) : sahResponse * Z * S :=
  let no r := (r, 2, st) in
  if negb enabled then no (mkResponse [] (lit "error") false (lit "sah_disabled") None [] [])
  else match readFrame [] input bad with
  | Err FrameTooLarge => no (fail [] (lit "error") (lit "too_large"))
  | Err _ => no (fail [] (lit "error") (lit "bad_frame"))
  | Ok frame =>
      match decode_request frame with
      | None => no (fail [] (lit "error") (lit "bad_frame"))
      | Some req =>
          match sah_rest frame with
          | REof =>
              if negb (q_V req =? 1) then no (fail (q_ID req) (lit "error") (lit "version_rejected"))
              else if negb (idPattern (q_ID req)) || (maxIDBytes <? zlen (q_ID req))
              then no (fail (q_ID req) (lit "error") (lit "bad_id"))
              else if bool_decide (q_Type req = lit "hello")
              then (mkResponse (q_ID req) (lit "hello") true [] None [] [], 0, st)
              else if bool_decide (q_Type req = lit "execute") then handleExecute req exec st
              else no (fail (q_ID req) (q_Type req) (lit "type_rejected"))
          | _ => no (fail (q_ID req) (lit "error") (lit "bad_frame"))
          end
      end
  end.
End Sah.

(** The engine as sahExecute uses it, and what it reads of its environment:
    the clocks of the verification and of the commit, the keys file, the
    look at the state directory, and whether the ledger takes the record. *)
Record sahEnv := mkSahEnv {
  policyLoaded : bool; isVBin : bytes -> bool; requireLease : bytes;
  e_keys : bytes; e_issuer : bytes; e_host : bytes; e_stateDir : bytes;
  e_verify_clock : Z; e_commit_clock : Z; e_keysfile : disk; e_look : dirLook; e_log : bool;
  authorize : list bytes -> option ExecLeaseClaim -> option bytes;
  child : list bytes -> execResult }.

(** The directory of lease records, the records logged and the children run. *)
Record sahState := mkSahState { ss_dir : leaseDir; ss_log : list (bytes * bytes); ss_ran : list (list bytes) }.

Definition code_of (e : leaseErr) : bytes :=
  match e with
  | LeaseRequired => lit "lease_required" | LeaseRejected => lit "lease_rejected" | LeaseExpired => lit "lease_expired"
  | LeaseReplayed => lit "lease_replayed" | LeaseCommandMismatch => lit "lease_command_mismatch"
  end.

Definition envTruthy (v : bytes) : bool := is_one_of (to_lower (trim_space v)) ["1"; "true"; "yes"].

Definition sahRun (e : sahEnv) (command : list bytes) (st : sahState) : execResult * sahState :=
  (child e command, mkSahState (ss_dir st) (ss_log st) (ss_ran st ++ [command])).

Definition sahExecute `{LeaseLib} `{Sha256} (e : sahEnv) (command : list bytes) (lease : bytes) (st : sahState)
  : execResult * sahState :=
  if negb (policyLoaded e) then (Err (lit "policy_required"), st)
  else
    let argv0 := hd [] command in
    if own_name argv0 || isVBin e argv0 then (Err (lit "command_rejected"), st)
    else if envTruthy (requireLease e) then
      if bool_decide (lease = []) then (Err (lit "lease_required"), st)
      else match VerifyExecLease lease (mkLeaseOptions (e_keys e) (e_issuer e) (e_host e) (lit "exec") command 0)
                   (e_keysfile e) (e_verify_clock e) with
      | Err er => (Err (code_of er), st)
      | Ok v =>
          if negb (e_log e) then (Err (lit "execute_failed"), st)
          else
            let log := ss_log st ++ [(v_JTI v, LeaseFingerprint lease)] in
            match CommitLeaseJTI (e_stateDir e) (v_JTI v) (v_Exp v) 0 (e_commit_clock e) (e_look e) (ss_dir st) with
            | (Err er, d) => (Err (code_of er), mkSahState d log (ss_ran st))
            | (Ok _, d) =>
                let st := mkSahState d log (ss_ran st) in
                match authorize e command (Some (Claim v)) with
                | Some msg => (Err msg, st)
                | None => sahRun e command st
                end
            end
      end
    else match authorize e command None with
    | Some _ => (Err (lit "policy_denied"), st)
    | None => sahRun e command st
    end.

(** ** Lemmas *)

Lemma unlinkLeaseName_Some name d d' : unlinkLeaseName name d = Some d' -> d' = unlink name d.
Proof.
  unfold unlinkLeaseName. intros H. destruct (_ !! name) as [[|ino]|]; try done. destruct (d_inodes d !! ino) as [f|]; [|done].
  destruct (i_regular f); by invc H.
Qed.

(** The decimal text of an expiry, as a commit reads it back. *)
Lemma stored_exp_pretty n : 0 < n < 2 ^ 63 -> stored_exp (lit (pretty n)) = Some n.
Proof.
  intros Hn. destruct n as [|p|p]; try lia. change (pretty (Z.pos p)) with (pretty (N.pos p)).
  set (x := N.pos p) in *. assert (Hx : Z.of_N x = Z.pos p) by done.
  pose proof (parse_pretty_N x) as Hp.
  assert (Hd : forallb is_digit_or_minus (lit (pretty x)) = true) by exact (pretty_Z_digits (Z.pos p)).
  assert (Hl : (length (lit (pretty x)) <= 19)%nat) by (apply pretty_N_length; [lia|cbn; lia]).
  unfold stored_exp. destruct (lit (pretty x)) as [|c l] eqn:E; [done|].
  rewrite bool_decide_false by done. assert ((64 <=? zlen (c :: l)) = false) as -> by (unfold zlen; lia). cbn [orb].
  rewrite trim_plain.
  2: { rewrite forallb_forall in *. intros y Hy. specialize (Hd y Hy).
       assert (Himp : implb (is_digit_or_minus y) (printable y) = true); [|by rewrite Hd in Himp].
       apply (all_bytes (fun c => implb (is_digit_or_minus c) (printable c))). by vm_compute. }
  unfold ParseInt64. assert (Hc : (48 <=? byte_val c) && (byte_val c <=? 57) = true).
  { cbn [parse_digits] in Hp. by destruct ((48 <=? byte_val c) && (byte_val c <=? 57)). }
  destruct (c =?b "-") eqn:E1; [apply Ascii.eqb_eq in E1; subst c; done|].
  destruct (c =?b "+") eqn:E2; [apply Ascii.eqb_eq in E2; subst c; done|].
  rewrite Hp, Hx. cbn [mbind option_bind]. by assert ((Z.pos p <? 2 ^ 63) = true) as -> by lia.
Qed.

(** ** A lease id is used once *)

(** The processes and the directory; an event lets one process make its next
    call with an outcome. *)
Definition world : Type := gmap nat commit * leaseDir.
Definition sys_step (w : world) (ev : nat * outcome) : world :=
  match fst w !! fst ev with
  | None => w
  | Some c => let '(c', d') := commit_step (snd ev) c (snd w) in (<[fst ev := c']> (fst w), d')
  end.
Definition sys_run : world -> list (nat * outcome) -> world := foldl sys_step.

Definition committed (c : commit) : Prop := c_pc c = PDone (Ok tt).

Definition good (N : Z) (data : bytes) : Prop := match stored_exp data with Some e => N < e | None => True end.

Definition owner (pc : commitPC) : bool :=
  match pc with PWrite _ | PCleanup | PClose (Ok _) | PDone (Ok _) => true | _ => false end.

Definition inode_ok (N : Z) (d : leaseDir) (ino : nat) : Prop :=
  (ino < d_next d)%nat /\ forall f, d_inodes d !! ino = Some f -> good N (i_data f).

Definition pc_ok (N : Z) (n : bytes) (d : leaseDir) (pc : commitPC) : Prop :=
  match pc with
  | PCreate a | POpen a => a = 0%nat
  | PRead ino a => a = 0%nat /\ inode_ok N d ino
  | PWrite ino => d_names d !! n = Some (ENode ino)
  | PUnlink => False
  | _ => True
  end.

Record inv (N : Z) (n : bytes) (w : world) : Prop := {
  inv_static : map_Forall (fun _ c => c_name c = n /\ c_now c <= N < c_exp c /\ 0 < c_exp c < 2 ^ 63) (fst w);
  inv_pc : map_Forall (fun _ c => pc_ok N n (snd w) (c_pc c)) (fst w);
  inv_owner : forall i c, fst w !! i = Some c -> owner (c_pc c) = true -> is_Some (d_names (snd w) !! n);
  inv_one : forall i j ci cj, fst w !! i = Some ci -> fst w !! j = Some cj ->
            owner (c_pc ci) = true -> owner (c_pc cj) = true -> i = j;
  inv_name : forall ino, d_names (snd w) !! n = Some (ENode ino) -> inode_ok N (snd w) ino }.

(** A step that leaves the directory alone and takes no ownership. *)
Lemma inv_pure N n procs d i c pc :
  inv N n (procs, d) -> procs !! i = Some c -> pc_ok N n d pc -> (owner pc = true -> owner (c_pc c) = true) ->
  inv N n (<[i := at_pc c pc]> procs, d).
Proof.
  intros [I1 I2 I3 I4 I5] Hi Hpc Ho. cbn [fst snd] in *. split; cbn [fst snd].
  - apply map_Forall_insert_2; [|done]. by apply I1 in Hi.
  - by apply map_Forall_insert_2.
  - intros j cj Hj Hoj. apply lookup_insert_Some in Hj as [[<- <-]|[_ Hj]]; [|by eapply I3]. cbn in Hoj. eapply I3; [done|auto].
  - intros j k cj ck Hj Hk Hoj Hok.
    apply lookup_insert_Some in Hj as [[<- <-]|[Hne Hj]]; apply lookup_insert_Some in Hk as [[<- <-]|[Hne' Hk]]; try done.
    + eapply I4; [exact Hi|exact Hk|auto|done].
    + symmetry. eapply I4; [exact Hi|exact Hj|auto|done].
    + by eapply I4.
  - done.
Qed.

(** Only the owner's steps change the directory once the name is there. *)
Lemma pc_ok_other N n d d' pc :
  owner pc = false -> (d_next d <= d_next d')%nat -> (forall ino, inode_ok N d ino -> inode_ok N d' ino) ->
  pc_ok N n d pc -> pc_ok N n d' pc.
Proof. destruct pc as [| | | | | |[]|[]]; cbn; try done. intros _ _ H [Ha Hi]. auto. Qed.

Lemma inv_dir N n procs d d' i c pc :
  inv N n (procs, d) -> procs !! i = Some c ->
  (d_next d <= d_next d')%nat -> (forall ino, inode_ok N d ino -> inode_ok N d' ino) ->
  (forall ino, d_names d' !! n = Some (ENode ino) -> inode_ok N d' ino) ->
  (forall j cj, procs !! j = Some cj -> j <> i -> owner (c_pc cj) = false) ->
  pc_ok N n d' pc -> (owner pc = true -> is_Some (d_names d' !! n)) ->
  inv N n (<[i := at_pc c pc]> procs, d').
Proof.
  intros [I1 I2 I3 I4 I5] Hi Hnext Hok Hname Hothers Hpc Hown. cbn [fst snd] in *. split; cbn [fst snd].
  - apply map_Forall_insert_2; [|done]. by apply I1 in Hi.
  - intros j cj Hj. apply lookup_insert_Some in Hj as [[<- <-]|[Hne Hj]]; [done|].
    eapply pc_ok_other; [eapply Hothers; [exact Hj|done]|done|done|]. by apply I2 in Hj.
  - intros j cj Hj Ho. apply lookup_insert_Some in Hj as [[<- <-]|[Hne Hj]]; [by apply Hown|].
    rewrite (Hothers j cj Hj) in Ho by done. done.
  - intros j k cj ck Hj Hk Hoj Hok'.
    apply lookup_insert_Some in Hj as [[<- <-]|[Hne Hj]]; apply lookup_insert_Some in Hk as [[<- <-]|[Hne' Hk]]; try done.
    + rewrite (Hothers k ck Hk) in Hok' by done. done.
    + rewrite (Hothers j cj Hj) in Hoj by done. done.
    + rewrite (Hothers j cj Hj) in Hoj by done. done.
  - done.
Qed.

Lemma others_idle N n procs d i c : inv N n (procs, d) -> procs !! i = Some c ->
  (owner (c_pc c) = true \/ d_names d !! n = None) ->
  forall j cj, procs !! j = Some cj -> j <> i -> owner (c_pc cj) = false.
Proof.
  intros [_ _ I3 I4 _] Hi Hc j cj Hj Hne. apply not_true_iff_false. intros Ho. destruct Hc as [Hc|Hc].
  - apply Hne. by eapply I4.
  - apply I3 in Hj as [e He]; [|done]. cbn in He. congruence.
Qed.

Lemma put_ok N d ino data : (ino < d_next d)%nat -> good N data -> forall k, inode_ok N d k -> inode_ok N (put ino data d) k.
Proof.
  intros Hi Hg k [H1 H2]. split; [done|]. cbn. intros f Hf. apply lookup_insert_Some in Hf as [[_ <-]|[_ Hf]]; [done|by apply H2].
Qed.

Lemma inv_step N n procs d i c o :
  inv N n (procs, d) -> procs !! i = Some c -> (forall k, o <> Short k) ->
  inv N n (let '(c', d') := commit_step o c d in (<[i := c']> procs, d')).
Proof.
  intros HI Hi Ho. pose proof HI as [I1 I2 I3 I4 I5]. cbn [fst snd] in *.
  destruct (I1 _ _ Hi) as (Hn & HN & Hexp). assert (Hpc : pc_ok N n d (c_pc c)) by exact (I2 _ _ Hi). pose proof (others_idle _ _ _ _ _ _ HI Hi) as Hidle.
  unfold commit_step. destruct (c_pc c) as [a|ino| |a|ino a| |r|r] eqn:Epc; cbn [pc_ok] in Hpc.
  - subst a. destruct o as [| |k]; [|by apply inv_pure|by destruct (Ho k)]. cbn [negb]. rewrite Hn. case_bool_decide as En.
    { by apply inv_pure. }
    rewrite <- eq_None_not_Some in En.
    eapply inv_dir; [done|done|cbn; lia| | |apply Hidle; by right| |]; cbn [d_names d_next].
    + intros k [K1 K2]. split; cbn; [lia|]. intros f Hf. rewrite lookup_insert_ne in Hf by lia. by apply K2.
    + intros k Hk. rewrite lookup_insert_eq in Hk. invc Hk. split; cbn; [lia|]. intros f Hf. rewrite lookup_insert_eq in Hf. by invc Hf.
    + cbn. by rewrite lookup_insert_eq.
    + intros _. rewrite lookup_insert_eq. by eexists.
  - pose proof (I5 _ Hpc) as [Hlt _]. destruct o as [| |k]; [| |by destruct (Ho k)].
    + assert (Hg : good N (lit (pretty (c_exp c)))) by (unfold good; rewrite stored_exp_pretty by lia; lia).
      eapply inv_dir; [done|done|done|by apply put_ok| |apply Hidle; by left|done|].
      * cbn. intros k Hk. rewrite Hpc in Hk. invc Hk. split; cbn; [done|]. intros f Hf. rewrite lookup_insert_eq in Hf. by invc Hf.
      * intros _. cbn. by rewrite Hpc.
    + apply inv_pure; [done|done|done|]. by rewrite Epc.
  - destruct o as [| |k]; [|by apply inv_pure|by destruct (Ho k)].
    destruct (unlinkLeaseName (c_name c) d) as [d'|] eqn:Ed; [|by apply inv_pure]. apply unlinkLeaseName_Some in Ed as ->.
    eapply inv_dir; [done|done|done|done| |apply Hidle; by left|done|done].
    cbn. intros k Hk. rewrite Hn, lookup_delete_eq in Hk. done.
  - subst a. rewrite Hn. destruct (d_names d !! n) as [[|ino]|] eqn:En; [by apply inv_pure| |by apply inv_pure].
    destruct o as [| |k]; [|by apply inv_pure|by destruct (Ho k)]. apply inv_pure; [done|done| |done]. split; [done|by apply I5].
  - destruct Hpc as [-> [Hlt Hg]]. destruct (d_inodes d !! ino) as [f|] eqn:Ef; [|by apply inv_pure].
    specialize (Hg _ eq_refl). unfold good in Hg.
    destruct o as [| |k]; [|by apply inv_pure|by destruct (Ho k)]. cbn [andb]. destruct (i_regular f); [|by apply inv_pure].
    destruct (stored_exp (i_data f)) as [e|]; [|by apply inv_pure].
    assert ((c_now c <? e) = true) as -> by lia. by apply inv_pure.
  - done.
  - destruct r as [[]|e]; destruct o as [| |k]; try (by destruct (Ho k)); (apply inv_pure; [done|done|done|]); by rewrite Epc.
  - assert (<[i := c]> procs = procs) as -> by by apply insert_id. done.
Qed.

Lemma sys_run_inv N n evs : forall w, inv N n w -> Forall (fun ev : nat * outcome => forall k, snd ev <> Short k) evs ->
  inv N n (sys_run w evs).
Proof.
  induction evs as [|[i o] evs IH]; intros [procs d] Hw Hevs; [done|]. apply Forall_cons in Hevs as [Ho Hevs].
  cbn [sys_run foldl]. apply IH; [|done]. unfold sys_step. cbn [fst snd].
  destruct (procs !! i) as [c|] eqn:Hi; [|done]. by apply inv_step.
Qed.

(** C15: Of any number of processes that commit the same lease id in one state
    directory that has no record of that id at the start, with any
    interleaving of their system calls and any faults but a partial write, at
    most one succeeds while no clock has reached the expiry. *)
Theorem jti_single_use N n procs d evs :
  map_Forall (fun _ c => c_name c = n /\ c_pc c = PCreate 0 /\ c_now c <= N < c_exp c /\ 0 < c_exp c < 2 ^ 63) procs ->
  d_names d !! n = None ->
  Forall (fun ev : nat * outcome => forall k, snd ev <> Short k) evs ->
  let w := sys_run (procs, d) evs in
  forall i j ci cj, fst w !! i = Some ci -> fst w !! j = Some cj -> committed ci -> committed cj -> i = j.
Proof.
  intros Hp Hn Hevs w i j ci cj Hi Hj Hci Hcj.
  assert (Hw : inv N n (procs, d)).
  { split; cbn [fst snd].
    - intros k c Hk. apply Hp in Hk. tauto.
    - intros k c Hk. apply Hp in Hk as (_ & -> & _). done.
    - intros k c Hk Ho. apply Hp in Hk as (_ & E & _). by rewrite E in Ho.
    - intros k1 k2 c1 c2 H1 _ Ho _. apply Hp in H1 as (_ & E & _). by rewrite E in Ho.
    - intros ino Hino. congruence. }
  apply (sys_run_inv _ _ evs) in Hw; [|done]. eapply (inv_one _ _ _ Hw); [exact Hi|exact Hj| |].
  - by rewrite Hci.
  - by rewrite Hcj.
Qed.

(** ** What a verified lease proves *)

Lemma require_Ok {E} b (e : E) u : require b e = Ok u -> b = true.
Proof. by destruct b. Qed.
Lemma of_option_Ok {A} (o : option A) a : of_option o = Ok a -> o = Some a.
Proof. destruct o; cbn; congruence. Qed.
Lemma rbind_ok {E A B} (r : result E A) (f : A -> result E B) b : rbind r f = Ok b -> exists a, r = Ok a /\ f a = Ok b.
Proof. destruct r; cbn; [by eauto|done]. Qed.

(** Opens the next step of a chain that ended well. *)
Ltac next H :=
  apply rbind_ok in H as (? & ? & H);
  match goal with
  | H0 : require _ _ = Ok _ |- _ => apply require_Ok in H0
  | H0 : of_option _ = Ok _ |- _ => apply of_option_Ok in H0
  | _ => idtac
  end.

Lemma cmdsEqual_from_eq a : forall b, cmdsEqual_from a b = true -> a = b.
Proof.
  induction a as [|x a IH]; intros [|y b] H; cbn in H; try done. bsimp. subst. f_equal. by apply IH.
Qed.

Section Verified.
Context `{L : LeaseLib}.

(** The lease that the token's payload states, on the terms of [opt]. *)
Record grants (token : bytes) (opt : LeaseOptions) (keysfile : disk) (now : Z) (v : VerifiedLease) (p : leasePayload) : Prop := {
  gr_token : exists p0 p1 p2 sig pub keys raw,
    split_byte "." token = [p0; p1; p2] /\ b64_decode UrlAlphabet false p1 = Some raw /\
    unmarshalStrict decode_payload raw = Some p /\ b64_decode UrlAlphabet false p2 = Some sig /\
    loadEd25519Keys (KeysFile opt) keysfile = Some keys /\ keys !! lp_Kid p = Some pub /\
    ed25519_verify pub (p0 ++ lit "." ++ p1) sig = true;
  gr_pinned : lp_Iss p = Issuer opt /\ lp_Host p = HostID opt /\ lp_Scope p = Scope opt /\ lp_V p = 1 /\ lp_CmdPrefix p = [];
  gr_time : 0 < lp_Iat p <= lp_Nbf p /\ lp_Nbf p <= now < lp_Exp p /\ lp_Exp p - lp_Iat p <= 300;
  gr_id : jtiPattern (lp_JTI p) = true /\ lp_Sub p <> [];
  gr_cmd : (Scope opt = lit "exec" /\ parseLeaseCmd (lp_Cmd p) = Some (Command opt) /\ v_Cmd v = Command opt) \/
           (Scope opt = lit "recover" /\ lp_Cmd p = [] /\ Command opt = [] /\ v_Cmd v = []);
  gr_out : v_Sub v = lp_Sub p /\ v_Host v = lp_Host p /\ v_JTI v = lp_JTI p /\ v_Exp v = lp_Exp p /\
           v_Scope v = lp_Scope p /\ v_Kid v = lp_Kid p }.

Lemma verify_grants token opt keysfile clock v :
  VerifyExecLease token opt keysfile clock = Ok v ->
  exists p, grants token opt keysfile (Unix (if Now opt =? 0 then clock else Now opt)) v p.
Proof.
  unfold VerifyExecLease. intros Hv. do 3 next Hv.
  destruct (split_byte "." token) as [|p0 [|p1 [|p2 [|]]]] eqn:Et; try done.
  next Hv. apply rbind_ok in Hv as (headerRaw & Hh & Hv). apply rbind_ok in Hv as (payloadRaw & Hp & Hv).
  apply rbind_ok in Hp as (raw & Hraw & Hp). apply of_option_Ok in Hraw. apply rbind_ok in Hp as (u & _ & Hp). invc Hp.
  apply rbind_ok in Hv as (sig & Hsig & Hv). apply of_option_Ok in Hsig. next Hv.
  apply rbind_ok in Hv as (hdr & Hhdr & Hv). apply rbind_ok in Hv as (p & Hpay & Hv). apply of_option_Ok in Hpay.
  apply rbind_ok in Hv as (keys & Hkeys & Hv). apply of_option_Ok in Hkeys.
  apply rbind_ok in Hv as (pub & Hpub & Hv). apply of_option_Ok in Hpub.
  next Hv. apply rbind_ok in Hv as (u1 & Hsigok & Hv). apply require_Ok in Hsigok.
  next Hv. apply rbind_ok in Hv as (u2 & Hprefix & Hv). apply require_Ok in Hprefix.
  apply rbind_ok in Hv as (u3 & Hscope & Hv). apply require_Ok in Hscope.
  apply rbind_ok in Hv as (u4 & Hiss & Hv). apply require_Ok in Hiss.
  apply rbind_ok in Hv as (u5 & Hne & Hv). apply require_Ok in Hne.
  next Hv. apply rbind_ok in Hv as (u6 & Hjti & Hv). apply require_Ok in Hjti.
  apply rbind_ok in Hv as (cmd & Hcmd & Hv). cbn zeta in Hv. set (now := Unix _) in *.
  apply rbind_ok in Hv as (u7 & Ht1 & Hv). apply require_Ok in Ht1.
  apply rbind_ok in Hv as (u8 & Ht2 & Hv). apply require_Ok in Ht2.
  apply rbind_ok in Hv as (u9 & Ht3 & Hv). apply require_Ok in Ht3.
  apply rbind_ok in Hv as (u10 & Ht4 & Hv). apply require_Ok in Ht4.
  apply rbind_ok in Hv as (u11 & Ht5 & Hv). apply require_Ok in Ht5.
  apply rbind_ok in Hv as (u12 & Heq & Hv). apply require_Ok in Heq. invc Hv.
  exists p. split.
  - exists p0, p1, p2, sig, pub, keys, payloadRaw. split_and!; try done.
  - bsimp. done.
  - change leaseWindowMax with 300 in *. bsimp. lia.
  - bsimp. done.
  - match goal with H : is_one_of (Scope opt) _ = true |- _ => rename H into Hone end.
    unfold is_one_of in Hone. apply bool_decide_eq_true in Hone. cbn in Hone. set_unfold in Hone.
    destruct (decide (Scope opt = lit "recover")) as [Erec|Erec];
      [rewrite bool_decide_true in Hcmd by done|rewrite bool_decide_false in Hcmd by done].
    + right. apply rbind_ok in Hcmd as (u13 & Hc & Hcmd). apply require_Ok in Hc. invc Hcmd. bsimp. done.
    + left. destruct Hone as [Hs|[Hs|[]]]; [|done]. apply of_option_Ok in Hcmd. split; [done|].
      rewrite bool_decide_true in Heq by done. cbn [negb orb] in Heq. unfold cmdsEqual in Heq. bsimp.
      assert (cmd = Command opt) as -> by by apply cmdsEqual_from_eq. done.
  - done.
Qed.

(** C16: A verified lease was signed by the key its payload names over the
    exact token bytes, is for the pinned issuer, host and scope and the exact
    command, is inside its time window of at most 300 seconds, and no other
    issuer, host, scope or command accepts the same token. *)
Theorem verified_lease_binds token opt keysfile clock v :
  VerifyExecLease token opt keysfile clock = Ok v ->
  (exists p, grants token opt keysfile (Unix (if Now opt =? 0 then clock else Now opt)) v p) /\
  forall opt2 keysfile2 clock2 v2, VerifyExecLease token opt2 keysfile2 clock2 = Ok v2 ->
    v2 = v /\ Issuer opt2 = Issuer opt /\ HostID opt2 = HostID opt /\ Scope opt2 = Scope opt /\ Command opt2 = Command opt.
Proof.
  intros Hv. pose proof (verify_grants _ _ _ _ _ Hv) as [p Hp]. split; [by exists p|].
  intros opt2 kf2 clock2 v2 Hv2. apply verify_grants in Hv2 as [q Hq].
  destruct Hp as [(p0 & p1 & p2 & sig & pub & keys & raw & T1 & T2 & T3 & _) (A1 & A2 & A3 & _) _ _ A4 (O1 & O2 & O3 & O4 & O5 & O6)].
  destruct Hq as [(q0 & q1 & q2 & sig' & pub' & keys' & raw' & U1 & U2 & U3 & _) (B1 & B2 & B3 & _) _ _ B4 (Q1 & Q2 & Q3 & Q4 & Q5 & Q6)].
  rewrite T1 in U1. invc U1. rewrite T2 in U2. invc U2. rewrite T3 in U3. invc U3.
  assert (Hcmd : Command opt2 = Command opt /\ v_Cmd v2 = v_Cmd v).
  { destruct A4 as [(Sa & Ca & Va)|(Sa & Ca & Da & Va)], B4 as [(Sb & Cb & Vb)|(Sb & Cb & Db & Vb)];
      try (assert (lit "exec" = lit "recover") as Habs by congruence; by vm_compute in Habs).
    - assert (Command opt2 = Command opt) by congruence. split; congruence.
    - split; congruence. }
  destruct Hcmd as [Hc1 Hc2]. destruct v, v2. cbn in *. split_and!; congruence.
Qed.

(** ** The envelope *)

Lemma envelope_sigs_spec payload keys sigs : forall kids out,
  NoDup kids -> envelope_sigs payload keys sigs kids = Some out ->
  NoDup out /\ (forall k, k ∈ out <-> k ∈ kids \/ k ∈ map es_Kid sigs) /\
  Forall (fun s => exists pub raw, keys !! es_Kid s = Some pub /\ decodeStdOrRaw (es_Sig s) = Some raw /\
                                   ed25519_verify pub payload raw = true) sigs.
Proof.
  induction sigs as [|s sigs IH]; intros kids out Hnd H; cbn [envelope_sigs] in H.
  { injection H as <-. split_and!; [done| |done]. intros k. cbn [map]. rewrite elem_of_nil. tauto. }
  destruct (keys !! es_Kid s) as [pub|] eqn:Ek; [|done]. case_match; [done|].
  destruct (decodeStdOrRaw (es_Sig s)) as [raw|] eqn:Er; [|done].
  destruct (negb (zlen raw =? SignatureSize) || negb (ed25519_verify pub payload raw)) eqn:Ev; [done|]. bsimp.
  apply IH in H as (N1 & N2 & N3).
  - split_and!; [done| |].
    + intros k. rewrite N2. cbn [map]. rewrite elem_of_cons. case_bool_decide as E.
      * split; [tauto|]. intros [?|[->|?]]; tauto.
      * rewrite elem_of_app, list_elem_of_singleton. tauto.
    + constructor; [|done]. by exists pub, raw.
  - case_bool_decide as E; [done|]. apply NoDup_app. split_and!; [done| |apply NoDup_singleton].
    intros x Hx Hx2. apply list_elem_of_singleton in Hx2 as ->. done.
Qed.

(** A verified envelope has at least the required number of distinct signers,
    each of which is a known key whose signature over the exact payload
    checks. *)
Theorem envelope_signed env keys minDistinct payload kids :
  verifySignedPayload env keys minDistinct = Some (payload, kids) ->
  NoDup kids /\ 1 <= minDistinct <= zlen kids /\ payload <> [] /\
  forall k, k ∈ kids -> exists pub raw, keys !! k = Some pub /\ ed25519_verify pub payload raw = true.
Proof.
  unfold verifySignedPayload. case_match eqn:E0; [done|]. intros H. bsimp.
  destruct (unmarshalStrict decode_envelope env) as [e|] eqn:Ee; [|done]. cbn [mbind option_bind] in H.
  case_match eqn:E1; [done|]. destruct (decodeStdOrRaw (se_Payload e)) as [pl|] eqn:Ep; [|done]. cbn [mbind option_bind] in H.
  case_match eqn:E2; [done|]. destruct (envelope_sigs pl keys (se_Sigs e) []) as [ks|] eqn:Es; [|done]. cbn [mbind option_bind] in H.
  case_match eqn:E3; [done|]. invc H. apply envelope_sigs_spec in Es as (N1 & N2 & N3); [|constructor]. bsimp.
  split_and!; [done|lia|lia|done|]. intros k Hk. apply N2 in Hk as [Hk|Hk]; [by apply not_elem_of_nil in Hk|].
  apply list_elem_of_In, in_map_iff in Hk as (s & <- & Hs). rewrite Forall_forall in N3.
  destruct (N3 s) as (pub & raw & K1 & _ & K2); [by apply list_elem_of_In|]. by exists pub, raw.
Qed.
End Verified.

(** ** From the frame to the child *)

Section Run.
Context `{L : LeaseLib} `{Sh : Sha256}.

(** The lease of a request lets it run: what happens to the record of its id. *)
Definition leased (e : sahEnv) (command : list bytes) (lease : bytes) (st : sahState) (v : VerifiedLease) (d : leaseDir) : Prop :=
  VerifyExecLease lease (mkLeaseOptions (e_keys e) (e_issuer e) (e_host e) (lit "exec") command 0) (e_keysfile e)
    (e_verify_clock e) = Ok v /\
  e_log e = true /\
  CommitLeaseJTI (e_stateDir e) (v_JTI v) (v_Exp v) 0 (e_commit_clock e) (e_look e) (ss_dir st) = (Ok tt, d) /\
  authorize e command (Some (Claim v)) = None.

Lemma sahExecute_dir e command lease st :
  let st' := snd (sahExecute e command lease st) in
  ss_dir st' = ss_dir st \/
  exists v, VerifyExecLease lease (mkLeaseOptions (e_keys e) (e_issuer e) (e_host e) (lit "exec") command 0) (e_keysfile e)
              (e_verify_clock e) = Ok v /\
    ss_dir st' = snd (CommitLeaseJTI (e_stateDir e) (v_JTI v) (v_Exp v) 0 (e_commit_clock e) (e_look e) (ss_dir st)).
Proof.
  unfold sahExecute. repeat (case_match; try (by left)); cbn [snd sahRun ss_dir]; try (by left); right; eexists; (split; [done|]);
    match goal with H : CommitLeaseJTI _ _ _ _ _ _ _ = _ |- _ => by rewrite H end.
Qed.

(** sahExecute runs a command exactly when a policy is loaded, the name is
    neither the program itself nor a virtual binary, and either the lease
    verifies for this command, is logged, is committed and the policy admits
    its claim, or no lease is required and the policy admits the command;
    otherwise it runs nothing and answers an error. *)
Theorem sah_runs_iff e command lease st :
  let st' := snd (sahExecute e command lease st) in
  let allowed :=
    policyLoaded e = true /\ own_name (hd [] command) = false /\ isVBin e (hd [] command) = false /\
    (if envTruthy (requireLease e) then exists v d, lease <> [] /\ leased e command lease st v d
     else authorize e command None = None) in
  (allowed -> ss_ran st' = ss_ran st ++ [command] /\ fst (sahExecute e command lease st) = child e command) /\
  (~ allowed -> ss_ran st' = ss_ran st /\ exists code, fst (sahExecute e command lease st) = Err code).
Proof.
  cbn zeta. unfold leased. split.
  - intros (Hp & Ho & Hv & Hl). unfold sahExecute. rewrite Hp, Ho, Hv. cbn [negb orb].
    destruct (envTruthy (requireLease e)); [|by rewrite Hl].
    destruct Hl as (v & d & Hne & H1 & H2 & H3 & H4). rewrite bool_decide_false, H1, H2 by done. cbn [negb]. by rewrite H3, H4.
  - intros Hno. unfold sahExecute.
    destruct (policyLoaded e); cbn [negb]; [|by eauto].
    destruct (own_name (hd [] command)); cbn [orb]; [by eauto|]. destruct (isVBin e (hd [] command)); [by eauto|].
    destruct (envTruthy (requireLease e)).
    + case_bool_decide as El; [by eauto|].
      destruct (VerifyExecLease _ _ _ _) as [v|er] eqn:Ev; [|by eauto].
      destruct (e_log e); cbn [negb]; [|by eauto].
      destruct (CommitLeaseJTI _ _ _ _ _ _ _) as [[[]|er] d] eqn:Ec; [|by eauto].
      destruct (authorize e command (Some (Claim v))) eqn:Ea; [by eauto|]. exfalso. apply Hno.
      split_and!; [done..|]. exists v, d. by split_and!.
    + destruct (authorize e command None) eqn:Ea; [by eauto|]. exfalso. by apply Hno.
Qed.

(** The record of a name that no commit before [exp] removes. *)
Definition recorded (n : bytes) (exp : Z) (d : leaseDir) : Prop :=
  exists ino f, d_names d !! n = Some (ENode ino) /\ d_inodes d !! ino = Some f /\ i_regular f = true /\
                stored_exp (i_data f) = Some exp /\ (ino < d_next d)%nat.

(** Where a commit on a directory with the record may stand. *)
Definition harmless (n : bytes) (d : leaseDir) (c : commit) : Prop :=
  match c_pc c with
  | PUnlink | PCleanup | PClose (Ok _) | PDone (Ok _) => c_name c <> n
  | PWrite ino => c_name c <> n /\ d_names d !! n <> Some (ENode ino)
  | PRead ino _ => c_name c = n -> d_names d !! n = Some (ENode ino)
  | _ => True
  end.

Lemma harmless_step n exp o c d : recorded n exp d -> harmless n d c -> c_now c < exp ->
  let '(c', d') := commit_step o c d in recorded n exp d' /\ harmless n d' c' /\ c_now c' < exp.
Proof.
  intros (ino & f & Hn & Hf & Hreg & Hexp & Hlt) Hc Hnow.
  assert (Hrec : recorded n exp d) by (exists ino, f; by split_and!).
  unfold commit_step. unfold harmless in Hc. destruct (c_pc c) as [a|i| |a|i a| |r|r] eqn:Epc.
  - destruct o; cbn [negb]; try by (split_and!; [done|cbn; done|done]). case_bool_decide as Eb; [by split_and!|].
    assert (Hne : c_name c <> n) by (intros E; apply Eb; rewrite E, Hn; by eexists).
    split_and!; [|cbn|done].
    + exists ino, f. cbn. rewrite lookup_insert_ne by done. rewrite lookup_insert_ne by lia. split_and!; try done. lia.
    + split; [done|]. rewrite lookup_insert_ne by done. rewrite Hn. intros [=]. lia.
  - destruct Hc as [Hne Hi]. assert (Hput : forall data, recorded n exp (put i data d)).
    { intros data. exists ino, f. cbn. rewrite lookup_insert_ne by congruence. by split_and!. }
    destruct o; by split_and!.
  - destruct o; try by split_and!. destruct (unlinkLeaseName (c_name c) d) as [d'|] eqn:Ed; [|by split_and!].
    apply unlinkLeaseName_Some in Ed as ->. split_and!; [|cbn; done|done]. exists ino, f. cbn. rewrite lookup_delete_ne by done. by split_and!.
  - destruct (d_names d !! c_name c) as [[|i]|] eqn:En; try by split_and!. destruct o; try by split_and!.
    split_and!; [done| |done]. unfold harmless. cbn. intros E. by rewrite <- E.
  - destruct (d_inodes d !! i) as [g|] eqn:Eg; [|by split_and!].
    destruct (match o with Fine => true | _ => false end && i_regular g) eqn:Eok; [|by split_and!].
    destruct (stored_exp (i_data g)) as [stored|] eqn:Es; [|by split_and!].
    destruct (c_now c <? stored) eqn:Elt; [by split_and!|]. destruct (0 <? a)%nat; [by split_and!|].
    split_and!; [done| |done]. unfold harmless. cbn. intros E. specialize (Hc E). rewrite Hn in Hc. injection Hc as <-.
    rewrite Hf in Eg. injection Eg as <-. rewrite Hexp in Es. injection Es as <-. bsimp. lia.
  - destruct o; try by split_and!. destruct (unlinkLeaseName (c_name c) d) as [d'|] eqn:Ed; [|by split_and!].
    apply unlinkLeaseName_Some in Ed as ->. split_and!; [|done|done].
    exists ino, f. cbn. rewrite lookup_delete_ne by done. by split_and!.
  - destruct r as [[]|er], o; by split_and!.
  - by split_and!; [|unfold harmless; rewrite Epc|].
Qed.

Lemma harmless_alone n exp os : forall c d, recorded n exp d -> harmless n d c -> c_now c < exp ->
  let '(r, d') := commit_alone os c d in recorded n exp d' /\ (c_name c = n -> r <> Ok tt).
Proof.
  induction os as [|o os IH]; intros c d Hr Hc Hnow.
  - cbn. destruct (c_pc c) eqn:E; cbn; try (by split). split; [done|]. unfold harmless in Hc. rewrite E in Hc. by intros ? ->.
  - cbn [commit_alone]. pose proof (harmless_step n exp o c d Hr Hc Hnow) as Hs.
    assert (Hname : c_name (fst (commit_step o c d)) = c_name c).
    { unfold commit_step. by repeat case_match. }
    destruct (commit_step o c d) as [c' d'] eqn:Ec. cbn [fst] in Hname. destruct Hs as (S1 & S2 & S3).
    specialize (IH c' d' S1 S2 S3). rewrite Hname in IH.
    destruct (c_pc c) eqn:E; try exact IH. split; [done|]. unfold harmless in Hc. rewrite E in Hc. by intros ? ->.
Qed.

Lemma commit_start_name dir jti exp now clock l : c_name (commit_start dir jti exp now clock l) = leaseJTIName jti /\
  c_now (commit_start dir jti exp now clock l) = Unix (if now =? 0 then clock else now) /\
  forall n d, harmless n d (commit_start dir jti exp now clock l).
Proof. unfold commit_start, harmless. by repeat case_match. Qed.

(** A commit that succeeds leaves its record. *)
Definition landed (c : commit) (d : leaseDir) : Prop :=
  match c_pc c with
  | PWrite ino => d_names d !! c_name c = Some (ENode ino) /\ (ino < d_next d)%nat
  | PClose (Ok _) | PDone (Ok _) => recorded (c_name c) (c_exp c) d
  | _ => True
  end.

Ltac triv := split_and!; [exact I|reflexivity|reflexivity].
Lemma landed_step o c d : 0 < c_exp c < 2 ^ 63 -> landed c d ->
  let '(c', d') := commit_step o c d in landed c' d' /\ c_name c' = c_name c /\ c_exp c' = c_exp c.
Proof.
  intros Hx Hc. unfold commit_step. unfold landed in Hc. destruct (c_pc c) as [a|i| |a|i a| |r|r] eqn:Epc.
  - destruct o; cbn [negb]; try (by triv). case_bool_decide; [by triv|]. split_and!; [|done|done].
    unfold landed. cbn. rewrite lookup_insert_eq. split; [done|lia].
  - destruct Hc as [Hn Hlt]. destruct o; try (by triv). split_and!; [|done|done].
    exists i, (mkInode true (lit (pretty (c_exp c)))). cbn. rewrite lookup_insert_eq.
    split_and!; [exact Hn|done|done|by apply stored_exp_pretty|done].
  - destruct o; by triv.
  - destruct (d_names d !! c_name c) as [[|i]|]; try (by triv). destruct o; by triv.
  - destruct (d_inodes d !! i) as [g|]; [|by triv]. destruct (_ && _); [|by triv].
    destruct (stored_exp (i_data g)) as [stored|]; [|by triv]. destruct (c_now c <? stored); [by triv|].
    destruct (0 <? a)%nat; by triv.
  - destruct o; try (by triv). destruct (unlinkLeaseName _ _); by triv.
  - destruct r as [[]|er], o; by split_and!.
  - by split_and!; [unfold landed; rewrite Epc|..].
Qed.

Lemma landed_alone os : forall c d, 0 < c_exp c < 2 ^ 63 -> landed c d ->
  fst (commit_alone os c d) = Ok tt -> recorded (c_name c) (c_exp c) (snd (commit_alone os c d)).
Proof.
  induction os as [|o os IH]; intros c d Hx Hc Hr.
  - cbn in *. destruct (c_pc c) eqn:E; cbn in *; try done. subst. unfold landed in Hc. by rewrite E in Hc.
  - cbn [commit_alone] in *. pose proof (landed_step o c d Hx Hc) as Hs.
    destruct (commit_step o c d) as [c' d']. destruct Hs as (S1 & S2 & S3). rewrite <- S2, <- S3.
    assert (Hx' : 0 < c_exp c' < 2 ^ 63) by by rewrite S3.
    destruct (c_pc c) eqn:E; try (by apply IH). cbn in *. subst. unfold landed in Hc. rewrite E in Hc. by rewrite S2, S3.
Qed.

(** Requests one after the other. *)
Definition sahReq : Type := sahEnv * list bytes * bytes.
Definition sah_step (st : sahState) (q : sahReq) : sahState :=
  let '(e, command, lease) := q in snd (sahExecute e command lease st).
(** How many of the requests that carry the token started a child. *)
Fixpoint runs_of (token : bytes) (l : list sahReq) (st : sahState) : Z :=
  match l with
  | [] => 0
  | q :: l' =>
      let st' := sah_step st q in
      (if bool_decide (snd q = token) && negb (Nat.eqb (length (ss_ran st')) (length (ss_ran st))) then 1 else 0)
      + runs_of token l' st'
  end.

(** A lease is required and the commit's clock is before [X]. *)
Definition early (X : Z) (q : sahReq) : Prop :=
  let '(e, command, lease) := q in envTruthy (requireLease e) = true /\ Unix (e_commit_clock e) < X.

Lemma commit_recorded n E dir jti exp clock l d : recorded n E d -> Unix clock < E ->
  recorded n E (snd (CommitLeaseJTI dir jti exp 0 clock l d)) /\
  (leaseJTIName jti = n -> fst (CommitLeaseJTI dir jti exp 0 clock l d) <> Ok tt).
Proof.
  intros Hr Hlt. unfold CommitLeaseJTI. destruct (commit_start_name dir jti exp 0 clock l) as (Hn & Hc & Hh).
  change (0 =? 0) with true in Hc. cbn iota in Hc.
  pose proof (harmless_alone n E (repeat Fine 9) _ d Hr (Hh _ _)) as H. rewrite Hc in H. specialize (H Hlt).
  destruct (commit_alone _ _ _) as [r d']. rewrite Hn in H. exact H.
Qed.

(** The branch starts no child. *)
Ltac idle := let H := fresh in intros H; exfalso; apply H; reflexivity.
(** A request that started a child has committed its lease. *)
Lemma sahExecute_ran e command lease st : envTruthy (requireLease e) = true ->
  length (ss_ran (snd (sahExecute e command lease st))) <> length (ss_ran st) ->
  exists v, VerifyExecLease lease (mkLeaseOptions (e_keys e) (e_issuer e) (e_host e) (lit "exec") command 0) (e_keysfile e)
              (e_verify_clock e) = Ok v /\
    CommitLeaseJTI (e_stateDir e) (v_JTI v) (v_Exp v) 0 (e_commit_clock e) (e_look e) (ss_dir st)
      = (Ok tt, ss_dir (snd (sahExecute e command lease st))).
Proof.
  intros Hreq. unfold sahExecute. rewrite Hreq.
  destruct (policyLoaded e); cbn [negb]; [|idle].
  destruct (own_name (hd [] command)); cbn [orb]; [idle|]. destruct (isVBin e (hd [] command)); [idle|].
  case_bool_decide; [idle|]. destruct (VerifyExecLease _ _ _ _) as [v|er]; [|idle].
  destruct (e_log e); cbn [negb]; [|idle].
  destruct (CommitLeaseJTI _ _ _ _ _ _ _) as [[[]|er] d] eqn:Ec; [|idle]. destruct (authorize _ _ _); [idle|].
  intros _. exists v. split; [done|]. exact Ec.
Qed.

Lemma runs_after token X E j l : forall st,
  (forall opt kf clock v, VerifyExecLease token opt kf clock = Ok v -> v_JTI v = j) ->
  X <= E -> Forall (early X) l -> recorded (leaseJTIName j) E (ss_dir st) -> runs_of token l st = 0.
Proof.
  induction l as [|[[e command] lease] l IH]; intros st Hj HX Hl Hr; [done|].
  apply Forall_cons in Hl as [[Hreq Hclk] Hl]. cbn [runs_of sah_step snd].
  rewrite IH; [|done|done|done|].
  - case_bool_decide as Et; [|done]. subst lease. cbn [andb].
    destruct (Nat.eqb _ _) eqn:En; [done|]. exfalso. apply Nat.eqb_neq in En.
    destruct (sahExecute_ran e command token st Hreq En) as (v & Hv & Hc).
    apply (commit_recorded _ _ (e_stateDir e) (v_JTI v) (v_Exp v) (e_commit_clock e) (e_look e)) in Hr as [_ Hr]; [|lia].
    apply Hr; [by rewrite (Hj _ _ _ _ Hv)|]. by rewrite Hc.
  - destruct (sahExecute_dir e command lease st) as [->|(v & _ & ->)]; [done|]. apply commit_recorded; [done|lia].
Qed.

Lemma CommitLeaseJTI_eq dir jti exp now clock l d :
  CommitLeaseJTI dir jti exp now clock l d = commit_alone (repeat Fine 9) (commit_start dir jti exp now clock l) d.
Proof. reflexivity. Qed.

Lemma commit_lands dir jti exp clock l d : 0 < exp < 2 ^ 63 ->
  fst (CommitLeaseJTI dir jti exp 0 clock l d) = Ok tt ->
  recorded (leaseJTIName jti) exp (snd (CommitLeaseJTI dir jti exp 0 clock l d)).
Proof.
  rewrite CommitLeaseJTI_eq. intros Hx Hr. generalize (repeat Fine 9) Hr; clear Hr; intros os Hr. destruct (commit_start_name dir jti exp 0 clock l) as (Hn & _ & _).
  assert (He : c_exp (commit_start dir jti exp 0 clock l) = exp) by (unfold commit_start; by repeat case_match).
  pose proof (landed_alone os (commit_start dir jti exp 0 clock l) d) as Hl.
  rewrite Hn, He in Hl. apply Hl; [done| |done].
  unfold commit_start, landed. by repeat case_match.
Qed.

(** C14: While every request requires a lease (ADSSH_SAH_REQUIRE_LEASE), a
    lease token starts at most one child over any sequence of sah requests
    against one state directory, whatever keys, hosts, commands and other
    tokens the requests use, as long as every commit that checks it happens
    before the token expires. *)
Theorem sah_token_once token X l st :
  (forall opt kf clock v, VerifyExecLease token opt kf clock = Ok v -> X <= v_Exp v < 2 ^ 63) ->
  Forall (early X) l ->
  runs_of token l st <= 1.
Proof.
  intros Hexp Hl. revert st. induction Hl as [|[[e command] lease] l [Hreq Hclk] Hl IH]; intros st; [done|].
  cbn [runs_of sah_step snd]. case_bool_decide as Et; [|by apply IH]. subst lease. cbn [andb].
  destruct (Nat.eqb _ _) eqn:En; cbn [negb]; [by apply IH|]. apply Nat.eqb_neq in En.
  destruct (sahExecute_ran e command token st Hreq En) as (v & Hv & Hc).
  destruct (Hexp _ _ _ _ Hv) as [HX H63].
  assert (Hpos : 0 < v_Exp v).
  { apply verify_grants in Hv as [p [_ _ T _ _ (_ & _ & _ & -> & _)]]. lia. }
  rewrite (runs_after token X (v_Exp v) (v_JTI v) l); [done| |done|done|].
  - intros opt kf clock v2 Hv2. apply verify_grants in Hv2 as [q Hq]. apply verify_grants in Hv as [p Hp].
    destruct Hp as [(p0 & p1 & p2 & sig & pub & keys & raw & T1 & T2 & T3 & _) _ _ _ _ (_ & _ & -> & _)].
    destruct Hq as [(q0 & q1 & q2 & sig' & pub' & keys' & raw' & U1 & U2 & U3 & _) _ _ _ _ (_ & _ & -> & _)].
    rewrite T1 in U1. injection U1 as <- <- <-. rewrite T2 in U2. injection U2 as <-. rewrite T3 in U3. by injection U3 as <-.
  - pose proof (commit_lands (e_stateDir e) (v_JTI v) (v_Exp v) (e_commit_clock e) (e_look e) (ss_dir st)) as Hland.
    rewrite Hc in Hland. by apply Hland.
Qed.
End Run.

(** ** The answer to a frame *)

Section Answer.
Context `{C : SahCodec}.

Lemma readFrame_len s : forall buf bad frame, zlen buf <= maxFrame -> readFrame buf s bad = Ok frame ->
  zlen frame <= maxFrame /\ exists l, frame = rev buf ++ l /\ ~ In NL l /\ (s = l \/ exists s', s = l ++ NL :: s').
Proof.
  induction s as [|c s IH]; intros buf bad frame Hb H; cbn [readFrame] in H.
  - destruct bad; [done|]. case_bool_decide; [done|]. injection H as <-. split; [unfold zlen in *; by rewrite length_rev|].
    exists []. rewrite app_nil_r. split_and!; [done|by intros []|by left].
  - destruct (c =?b NL) eqn:Ec.
    + case_bool_decide; [done|]. injection H as <-. split; [unfold zlen in *; by rewrite length_rev|].
      exists []. rewrite app_nil_r. apply Ascii.eqb_eq in Ec as ->. split_and!; [done|by intros []|]. right. by exists s.
    + destruct (maxFrame <=? zlen buf) eqn:Em; [done|]. apply IH in H as (H1 & l & H2 & H3 & H4).
      2: { unfold zlen in *. cbn [length]. lia. }
      split; [done|]. exists (c :: l). cbn [rev] in H2. rewrite <- app_assoc in H2. split; [done|]. split.
      { intros [E|E]; [|by apply H3]. subst. by rewrite Ascii.eqb_refl in Ec. }
      destruct H4 as [->|(s' & ->)]; [by left|right; by exists s'].
Qed.

Lemma capBytes_len s : zlen (capBytes s) <= maxOutput.
Proof. unfold capBytes. case_match eqn:E; [lia|]. unfold zlen in *. rewrite length_take. change maxOutput with 4096 in *. lia. Qed.

Lemma safeCode_ok msg : codePattern (safeCode msg) = true.
Proof. unfold safeCode. case_match eqn:E; [done|]. by vm_compute. Qed.

(** What every answer keeps. *)
Record wellAnswered (r : sahResponse) (code : Z) : Prop := {
  wa_code : code = if r_OK r then 0 else 2;
  wa_out : zlen (r_Stdout r) <= maxOutput /\ zlen (r_Stderr r) <= maxOutput;
  wa_error : if r_OK r then r_Error r = [] else codePattern (r_Error r) = true /\ r_Stdout r = [] /\ r_ExitCode r = None;
  wa_type : r_Type r <> [] }.

Lemma fail_answered id typ code : codePattern code = true -> wellAnswered (fail id typ code) 2.
Proof.
  intros Hc. unfold fail. split; cbn; [done|by vm_compute|done|].
  case_bool_decide; [by vm_compute|done].
Qed.

(** Every answer to a sah frame has exit code 0 or 2 in step with its ok
    field, a fixed error code, and at most 4096 bytes of each output; the
    executor is called at most once, only when enabled, with the validated
    command of the one request on the first line of at most 64 KiB. *)
Theorem Handle_executes {S} enabled input bad exec (st : S) :
  let '(r, code, st') := Handle enabled input bad exec st in
  wellAnswered r code /\
  (st' = st \/ exists f line req,
    enabled = true /\ exec = Some f /\ (input = line \/ exists more, input = line ++ NL :: more) /\ zlen line <= maxFrame /\
    decode_request line = Some req /\ sah_rest line = REof /\ q_Type req = lit "execute" /\ r_ID r = q_ID req /\
    validateCommand (q_Command req) = true /\ st' = snd (f (q_Command req) (q_LeaseID req) st)).
Proof.
  unfold Handle. destruct enabled; cbn [negb].
  2: { split; [|by left]. split; cbn; by vm_compute. }
  destruct (readFrame [] input bad) as [frame|er] eqn:Ef.
  2: { destruct er; (split; [|by left]); by apply fail_answered. }
  destruct (decode_request frame) as [req|] eqn:Ed; [|split; [by apply fail_answered|by left]].
  destruct (sah_rest frame) eqn:Er; try (split; [by apply fail_answered|by left]).
  destruct (q_V req =? 1); cbn [negb]; [|split; [by apply fail_answered|by left]].
  destruct (negb (idPattern (q_ID req)) || (maxIDBytes <? zlen (q_ID req))); [split; [by apply fail_answered|by left]|].
  case_bool_decide as Eh. { split; [|by left]. split; cbn; by vm_compute. }
  case_bool_decide as Ee; [|split; [by apply fail_answered|by left]].
  unfold handleExecute. destruct (validateCommand (q_Command req)) eqn:Ev; cbn [negb]; [|split; [by apply fail_answered|by left]].
  destruct exec as [f|]; [|split; [by apply fail_answered|by left]].
  assert (Hline : zlen frame <= maxFrame /\ (input = frame \/ exists more, input = frame ++ NL :: more)).
  { apply readFrame_len in Ef as (H1 & l & H2 & _ & H3); [|by vm_compute]. cbn in H2. subst. by split. }
  destruct Hline as [Hlen Hline].
  destruct (f (q_Command req) (q_LeaseID req) st) as [[[[out err] code]|msg] st'] eqn:Ex.
  - split; [split; cbn; [done|split; apply capBytes_len|done|by vm_compute]|right].
    exists f, frame, req. rewrite Ex. by split_and!.
  - split; [apply fail_answered, safeCode_ok|right]. exists f, frame, req. rewrite Ex. split_and!; try done.
Qed.
End Answer.

(** ** Concrete inputs *)

Definition toy_payload : leasePayload :=
  mkPayload 1 (lit "iss") (lit "k") (lit "amy") (lit "h1") (lit "exec") (lit "id") [] 1000 1000 1200 (lit "jti1").
Definition toy_lib : LeaseLib := {|
  ed25519_verify key msg sig := bool_decide (take 4 key = take 4 sig);
  decode_header raw := Some (mkHeader [] []);
  decode_payload raw := if bool_decide (raw = lit "p") then Some toy_payload else None;
  decode_cmd raw := Some [raw];
  decode_envelope raw := Some (mkEnvelope (lit "aGk=") [mkSig (lit "k") (repeat "A"%char 86); mkSig (lit "k") (repeat "A"%char 86)]);
  decode_rest _ := REof |}.
Definition toy_sha : Sha256 := {| sha256_hex s := s |}.
Definition toy_token : bytes := lit "aA.cA." ++ repeat "A"%char 86.
Definition toy_keys : disk := Present (mkFile Regular 384 0 (lit "k=ed25519:" ++ repeat "A"%char 43 ++ lit "=")).
Definition toy_options : LeaseOptions := mkLeaseOptions (lit "/keys") (lit "iss") (lit "h1") (lit "exec") [lit "id"] 0.
(** A second of the clock. *)
Definition at_second (s : Z) : Z := (s + 62135596800) * Second.
Definition toy_look : dirLook := mkLook (SStat false true 448) true true SMissing true.
Definition toy_env (verify commit : Z) : sahEnv :=
  mkSahEnv true (fun _ => false) (lit "1") (lit "/keys") (lit "iss") (lit "h1") (lit "/state") (at_second verify) (at_second commit)
    toy_keys toy_look true (fun _ _ => None) (fun _ => Ok (lit "out", [], 0)).
Definition empty_state : sahState := mkSahState (mkDir ∅ ∅ 0) [] [].

#[local] Existing Instance toy_lib.
#[local] Existing Instance toy_sha.

Lemma jti_single_use_witness :
  let c i := mkCommit (lit "n") 1200 i (PCreate 0) in
  let procs : gmap nat commit := {[0%nat := c 1100; 1%nat := c 1101]} in
  let evs := [(0%nat, Fine); (1%nat, Fine); (0%nat, Fine); (1%nat, Fine); (1%nat, Fine); (0%nat, Fine); (1%nat, Fine)] in
  let w := sys_run (procs, mkDir ∅ ∅ 0) evs in
  c_pc <$> fst w !! 0%nat = Some (PDone (Ok tt)) /\ c_pc <$> fst w !! 1%nat = Some (PDone (Err LeaseReplayed)) /\
  forall i j ci cj, fst w !! i = Some ci -> fst w !! j = Some cj -> committed ci -> committed cj -> i = j.
Proof.
  intros c procs evs w. split; [vm_compute; reflexivity|]. split; [vm_compute; reflexivity|].
  apply (jti_single_use 1101 (lit "n") procs (mkDir ∅ ∅ 0) evs).
  - unfold procs. apply map_Forall_insert_2; [|apply map_Forall_singleton]; unfold c; cbn; (split_and!; [reflexivity|reflexivity|lia..]).
  - reflexivity.
  - repeat constructor; discriminate.
Defined.

Lemma verified_lease_binds_witness :
  exists v, VerifyExecLease toy_token toy_options toy_keys (at_second 1100) = Ok v /\ v_JTI v = lit "jti1" /\
    (exists p, grants toy_token toy_options toy_keys (Unix (at_second 1100)) v p).
Proof.
  eexists. split; [vm_compute; reflexivity|]. split; [vm_compute; reflexivity|].
  refine (proj1 (verified_lease_binds toy_token toy_options toy_keys (at_second 1100) _ _)). vm_compute. reflexivity.
Defined.

Lemma envelope_signed_witness :
  verifySignedPayload (lit "e") {[lit "k" := repeat (byte_of 0) 32]} 1 = Some (lit "hi", [lit "k"]) /\
  verifySignedPayload (lit "e") {[lit "k" := repeat (byte_of 0) 32]} 2 = None /\
  NoDup [lit "k"].
Proof.
  split; [vm_compute; reflexivity|]. split; [vm_compute; reflexivity|].
  apply (envelope_signed (lit "e") {[lit "k" := repeat (byte_of 0) 32]} 1 (lit "hi") [lit "k"]). vm_compute. reflexivity.
Defined.

Lemma toy_expiry opt kf clock v : VerifyExecLease toy_token opt kf clock = Ok v -> 1200 <= v_Exp v < 2 ^ 63.
Proof.
  intros H. apply verify_grants in H as [p [(p0 & p1 & p2 & sig & pub & keys & raw & T1 & T2 & T3 & _) _ _ _ _ (_ & _ & _ & -> & _)]].
  assert (Hs : split_byte "." toy_token = [lit "aA"; lit "cA"; repeat "A"%char 86]) by by vm_compute.
  rewrite Hs in T1. injection T1 as <- <- _. assert (Hb : b64_decode UrlAlphabet false (lit "cA") = Some (lit "p")) by by vm_compute.
  rewrite Hb in T2. injection T2 as <-. assert (Hu : unmarshalStrict decode_payload (lit "p") = Some toy_payload) by by vm_compute.
  rewrite Hu in T3. injection T3 as <-. cbn. lia.
Qed.

Lemma sah_token_once_witness :
  let q := (toy_env 1100 1100, [lit "id"], toy_token) in
  runs_of toy_token [q; q] empty_state = 1 /\ runs_of toy_token [q; q] empty_state <= 1.
Proof.
  intros q. split; [vm_compute; reflexivity|]. apply (sah_token_once toy_token 1200 [q; q] empty_state).
  - exact toy_expiry.
  - repeat constructor; vm_compute; reflexivity.
Defined.

(** The commit reads its own clock: a lease that expires between the
    verification and the commit replaces its own record, and the same token
    runs a second time. *)
Example sah_replay_past_expiry :
  let first := (toy_env 1100 1100, [lit "id"], toy_token) in
  let late := (toy_env 1199 1200, [lit "id"], toy_token) in
  map (fun l => runs_of toy_token l empty_state) [[first]; [first; first]; [first; late]; [first; late; late]] = [1; 1; 2; 3].
Proof. vm_compute. reflexivity. Qed.

(** Two commits that read the same expired record may both end well: the
    second removes the first one's new record. *)
Example expired_record_race :
  let c := mkCommit (lit "n") 1300 1200 (PCreate 0) in
  let d := mkDir {[lit "n" := ENode 0]} {[0%nat := mkInode true (lit "1100")]} 1 in
  let run i k := repeat (i, Fine) k in
  let w := sys_run ({[0%nat := c; 1%nat := c]}, d) (run 0%nat 3%nat ++ run 1%nat 3%nat ++ run 0%nat 4%nat ++ run 1%nat 4%nat) in
  c_pc <$> fst w !! 0%nat = Some (PDone (Ok tt)) /\ c_pc <$> fst w !! 1%nat = Some (PDone (Ok tt)).
Proof. vm_compute. by split. Qed.
