(* ===== verification/Guard.v ===== *)
(** * The listener jail

    internal/guard/guard.go: the service that counts failed handshakes and
    connections per peer, bans a peer, writes its bans to a state file and
    refuses a banned peer before the handshake.  The state of the service is
    the record [service]; an operation takes what it reads from the clock and
    the file system as an [env] and returns the new service, the events and
    the state file it wrote.  The YAML and JSON decoders are classes. *)

From S2P Require Import Prelude GoBytes NetIP GoTime Json SafeFile.
From stdpp Require Import pretty sorting.
#[local] Open Scope Z_scope.
#[local] Arguments lit : simpl never.

(** ** Data *)

Definition maxConfigBytes : Z := 64 * 1024.
Definition maxStateBytes : Z := Z.shiftl 1 20.
Definition stateVersion : Z := 1.
Definition maxBanHorizon : Z := 366 * 24 * Hour.

Inductive err :=
| ErrNotBanned | ErrBadPeer | ErrInactive
| EBadSwitch (raw : bytes) | EStatePathEmpty | EIO | EFile (e : fileErr) | EMode (perm : Z)
| EConfigEmpty | EYaml | EMultipleDocuments | EDuration (name : string) | ERange (name : string)
| ETableFull (mode : bytes) | EIgnore (item : bytes)
| EStateJson | ETrailing | EVersion (v : Z) | EAddr (raw : bytes) | EDuplicate (key : bytes)
| EReason (reason : bytes) | EUntilZero | EUntilFar
| EMarshal | EDisappeared | EUnavailable (e : err) | ENotConfigured | EForcedOff.
#[export] Instance err_eq_dec : EqDecision err.
Proof. solve_decision. Defined.

Record Options := mkOptions { ConfigPath : bytes; StatePath : bytes; Switch : bytes }.
Record Decision := mkDecision { Allow : bool; Reason : bytes; Addr : bytes }.
Record Event := mkEvent { Action : bytes; ev_Addr : bytes; ev_Reason : bytes }.

(** A [*T] that may be nil is an option. *)
Record fileConfig := mkFileConfig {
  fc_Enabled : option bool; fc_FindTime : option bytes; fc_MaxRetry : option Z; fc_BanTime : option bytes;
  fc_RateLimit : option Z; fc_RateWindow : option bytes; fc_MaxEntries : option Z; fc_TableFull : option bytes;
  fc_IPv6Prefix : option Z; fc_Ignore : option (list bytes) }.

Record config := mkConfig {
  enabled : bool; findTime : Z; maxRetry : Z; banTime : Z; rateLimit : Z; rateWindow : Z;
  maxEntries : Z; tableFull : bytes; ipv6Prefix : Z; ignore : list IPNet; ignoreText : list bytes }.

Definition tableFullEvict : bytes := lit "evict".
Definition tableFullRefuse : bytes := lit "refuse".
Definition peersPerBan : Z := 4.
Definition minPeerCap : Z := 1024.

Record banRec := mkBan { until : Z; reason : bytes }.
Record peerState := mkPeer { strikes : list Z; rates : list Z }.

Record service := mkService {
  configured : bool; cfg : config; configPath : bytes; statePath : bytes;
  forceOff : bool; forceOn : bool; tripped : option err;
  sawState : bool; stateMtime : Z; stateSize : Z;
  bans : gmap bytes banRec; peers : gmap bytes peerState; peerSweep : Z }.

(** One entry of the state file; [stateFile] is its version and entries. *)
Record stateBan := mkStateBan { sb_Addr : bytes; sb_Until : Z; sb_Reason : bytes }.
Record stateFile := mkStateFile { sf_V : Z; sf_Bans : list stateBan }.

Definition set_bans (b : gmap bytes banRec) (s : service) : service :=
  mkService (configured s) (cfg s) (configPath s) (statePath s) (forceOff s) (forceOn s) (tripped s)
    (sawState s) (stateMtime s) (stateSize s) b (peers s) (peerSweep s).
Definition set_peers (p : gmap bytes peerState) (s : service) : service :=
  mkService (configured s) (cfg s) (configPath s) (statePath s) (forceOff s) (forceOn s) (tripped s)
    (sawState s) (stateMtime s) (stateSize s) (bans s) p (peerSweep s).
Definition set_sweep (t : Z) (s : service) : service :=
  mkService (configured s) (cfg s) (configPath s) (statePath s) (forceOff s) (forceOn s) (tripped s)
    (sawState s) (stateMtime s) (stateSize s) (bans s) (peers s) t.
Definition set_tripped (e : option err) (s : service) : service :=
  mkService (configured s) (cfg s) (configPath s) (statePath s) (forceOff s) (forceOn s) e
    (sawState s) (stateMtime s) (stateSize s) (bans s) (peers s) (peerSweep s).
Definition set_meta (saw : bool) (mtime size : Z) (s : service) : service :=
  mkService (configured s) (cfg s) (configPath s) (statePath s) (forceOff s) (forceOn s) (tripped s)
    saw mtime size (bans s) (peers s) (peerSweep s).
Definition set_cfg (c : config) (s : service) : service :=
  mkService (configured s) c (configPath s) (statePath s) (forceOff s) (forceOn s) (tripped s)
    (sawState s) (stateMtime s) (stateSize s) (bans s) (peers s) (peerSweep s).

(** The write of the state file: an error before or in the rename, a rename
    after which [Lstat] fails, or the time and size [Lstat] then shows. *)
Inductive write := WriteFails | WriteUnseen | Written (mtime size : Z).

(** What one operation sees: the clock in the operation, in [parseState] and
    in [marshalStateLocked], the state file as [Lstat] and then [Open] find
    it, the config file, the outcome of a write, and the order in which a
    range over the peer table visits its keys. *)
Record env := mkEnv {
  e_now : Z; e_load : Z; e_write_now : Z; e_lstat : disk; e_open : disk; e_config : disk;
  e_write : write; e_order : gmap bytes peerState -> list bytes }.

(** The decoders: yaml.v3 into [fileConfig] with [KnownFields], its verdict
    on a further document, and the node tree; encoding/json into [stateFile]
    with [DisallowUnknownFields], and what follows the first value. *)
Inductive nodeKind := DocumentNode | MappingNode | SequenceNode | ScalarNode | AliasNode.
Inductive node := Node (kind : nodeKind) (tag value : bytes) (content : list node).
Class Decoders := {
  yaml_decode : bytes -> result bool fileConfig;   (* [Err true] is [io.EOF] *)
  yaml_rest : bytes -> rest;
  yaml_node : bytes -> option node;
  json_decode : bytes -> option stateFile;
  json_rest : bytes -> rest }.

(** ** The switch and the config *)

Definition space_lower (raw : bytes) : bytes := to_lower (trim_space raw).
Definition among (x : bytes) (l : list string) : bool := bool_decide (x ∈ map lit l).

(** Forced off and forced on.  [ToLower] is modelled on the ASCII letters: no
    other letter has a lower case form in the accepted words. *)
Definition ParseSwitch (raw : bytes) : result err (bool * bool) :=
  let w := space_lower raw in
  if bool_decide (w = []) then Ok (false, false)
  else if among w ["0"; "false"; "no"; "off"] then Ok (true, false)
  else if among w ["1"; "true"; "yes"; "on"] then Ok (false, true)
  else Err (EBadSwitch raw).

Definition ValidateSwitch (raw : bytes) : option err :=
  match ParseSwitch raw with Ok _ => None | Err e => Some e end.

Fixpoint parseIgnore (l : list bytes) : result err (list IPNet * list bytes) :=
  match l with
  | [] => Ok ([], [])
  | raw :: l' =>
      let item := trim_space raw in
      match ParseCIDR item with
      | None => Err (EIgnore item)
      | Some (_, n, ones, _) =>
          if ones =? 0 then Err (EIgnore item)
          else let! (nets, text) := parseIgnore l' in Ok (n :: nets, item :: text)
      end
  end.

(** The built-in ignore list always parses; [panic] is not reached. *)
Definition loopback : list IPNet * list bytes :=
  match parseIgnore [lit "127.0.0.0/8"; lit "::1/128"] with Ok r => r | Err _ => ([], []) end.

Definition defaultConfig : config :=
  mkConfig true (10 * Minute) 5 Hour 30 Minute 10000 tableFullEvict 64 (fst loopback) (snd loopback).

Definition parseDur (name : string) (raw : option bytes) (def min max : Z) : result err Z :=
  match raw with
  | None => Ok def
  | Some s =>
      match ParseDuration (trim_space s) with
      | None => Err (EDuration name)
      | Some d => if (d <? min) || (max <? d) then Err (ERange name) else Ok d
      end
  end.

(** The integer bounds that [buildConfig] writes out per field. *)
Definition parseBounded (name : string) (raw : option Z) (def lo hi : Z) : result err Z :=
  match raw with
  | None => Ok def
  | Some n => if (n <? lo) || (hi <? n) then Err (ERange name) else Ok n
  end.

Definition buildConfig (fc : fileConfig) (ignoreEmpty : bool) : result err config :=
  let d := defaultConfig in
  let on := match fc_Enabled fc with Some b => b | None => enabled d end in
  let! find := parseDur "find_time" (fc_FindTime fc) (findTime d) Second (24 * Hour) in
  let! ban := parseDur "ban_time" (fc_BanTime fc) (banTime d) Second (8760 * Hour) in
  let! window := parseDur "rate_window" (fc_RateWindow fc) (rateWindow d) Second Hour in
  let! retry := parseBounded "max_retry" (fc_MaxRetry fc) (maxRetry d) 1 100 in
  let! limit := parseBounded "rate_limit" (fc_RateLimit fc) (rateLimit d) 1 10000 in
  let! entries := parseBounded "max_entries" (fc_MaxEntries fc) (maxEntries d) 1 100000 in
  let! full := match fc_TableFull fc with
               | None => Ok (tableFull d)
               | Some raw => let mode := trim_space raw in
                             if bool_decide (mode = tableFullEvict) || bool_decide (mode = tableFullRefuse)
                             then Ok mode else Err (ETableFull mode)
               end in
  let! prefix := parseBounded "ipv6_prefix" (fc_IPv6Prefix fc) (ipv6Prefix d) 32 128 in
  let! (nets, text) := if ignoreEmpty then Ok ([], [])
                       else match fc_Ignore fc with
                       | Some l => parseIgnore l
                       | None => Ok (ignore d, ignoreText d)
                       end in
  Ok (mkConfig on find retry ban limit window entries full prefix nets text).

(** The node that [doc] points to: the content of a document node. *)
Fixpoint explicitEmpty (pairs : list node) : bool :=
  match pairs with
  | Node _ _ key _ :: Node kind tag value content :: pairs' =>
      if negb (bool_decide (key = lit "ignore")) then explicitEmpty pairs'
      else (match kind, content with SequenceNode, [] => true | _, _ => false end)
           || bool_decide (tag = lit "!!null")
           || (match kind with ScalarNode => among value [""; "~"; "null"] | _ => false end)
  | _ => false
  end.

Definition readRegular (look : disk) (max : Z) (modeOK : Z -> bool) : result err (bytes * file) :=
  match Open look with
  | Err e => Err (EFile e)
  | Ok f =>
      if negb (modeOK (f_perm f)) then Err (EMode (f_perm f))
      else match ReadAll f max with
      | Err e => Err (EFile e)
      | Ok data => Ok (data, f)
      end
  end.

Section Load.
Context `{Decoders}.

Definition ignoreExplicitEmpty (data : bytes) : result err bool :=
  match yaml_node data with
  | None => Err EYaml
  | Some n =>
      let doc := match n with Node DocumentNode _ _ [c] => c | _ => n end in
      match doc with
      | Node MappingNode _ _ pairs => Ok (explicitEmpty pairs)
      | _ => Ok false
      end
  end.

Definition parseConfigDocument (data : bytes) : result err config :=
  if bool_decide (trim_space data = []) then Err EConfigEmpty
  else match yaml_decode data with
  | Err true => Err EConfigEmpty
  | Err false => Err EYaml
  | Ok fc =>
      match yaml_rest data with
      | RValue => Err EMultipleDocuments
      | RError => Err EYaml
      | REof => let! empty := ignoreExplicitEmpty data in buildConfig fc empty
      end
  end.

Definition loadConfig (path : bytes) (look : disk) : result err config :=
  if bool_decide (path = []) then Ok defaultConfig
  else match readRegular look maxConfigBytes (fun perm => Z.land perm 18 =? 0) with
  | Err (EFile FNotExist) => Ok defaultConfig
  | Err e => Err e
  | Ok (data, _) => parseConfigDocument data
  end.

(** ** Peers and keys *)

Definition canonicalIP (ip : IP) : bytes :=
  match To4 ip with
  | Some v4 => IP_String v4
  | None => match To16 ip with Some v16 => IP_String v16 | None => IP_String ip end
  end.

Definition parsePeer (addr : bytes) : option (bytes * IP) :=
  let host := trim_space addr in
  let host := match SplitHostPort host with Some h => h | None => host end in
  ip ← ParseIP (trim_space host); Some (canonicalIP ip, ip).

Definition peerKey (ip : IP) (prefix : Z) : bytes :=
  if bool_decide (is_Some (To4 ip)) || (prefix <=? 0) || (128 <=? prefix) then canonicalIP ip
  else
    let ip16 := match To16 ip with Some v16 => v16 | None => [] end in
    IP_String (IP_Mask ip16 (CIDRMask prefix 16)) ++ lit "/" ++ lit (pretty prefix).

Definition prefixKey (raw : bytes) : option bytes :=
  '(ip, _, ones, bits) ← ParseCIDR raw;
  if negb (bits =? 128) || bool_decide (is_Some (To4 ip)) || (ones <? 32) || (127 <? ones) then None
  else let key := peerKey ip ones in if bool_decide (key = raw) then Some key else None.

Definition stateKey (raw : bytes) : result err bytes :=
  let addr := trim_space raw in
  if has_byte "/" addr then
    match prefixKey addr with Some key => Ok key | None => Err (EAddr raw) end
  else match ParseIP addr with Some ip => Ok (canonicalIP ip) | None => Err (EAddr raw) end.

(** A network's key, or an address. *)
Definition parseUnbanAddr (addr : bytes) : option (bytes + IP) :=
  let text := trim_space addr in
  if has_byte "/" text then inl <$> prefixKey text
  else '(_, ip) ← parsePeer text; Some (inr ip).

Definition ipCandidates (ip : IP) : list IP :=
  match To4 ip with
  | Some v4 => [v4; v4InV6Prefix ++ v4]
  | None => match To16 ip with Some v16 => [v16] | None => [ip] end
  end.

Definition ignored (nets : list IPNet) (ip : IP) : bool :=
  existsb (fun n => existsb (Contains n) (ipCandidates ip)) nets.

(** ** The state file *)

Fixpoint parse_bans (t : Z) (l : list stateBan) (out : gmap bytes banRec) : result err (gmap bytes banRec) :=
  match l with
  | [] => Ok out
  | b :: l' =>
      let! key := stateKey (sb_Addr b) in
      if bool_decide (is_Some (out !! key)) then Err (EDuplicate key)
      else if negb (among (sb_Reason b) ["handshake"; "rate"]) then Err (EReason (sb_Reason b))
      else if sb_Until b =? 0 then Err EUntilZero
      else if t + maxBanHorizon <? sb_Until b then Err EUntilFar
      else if negb (t <? sb_Until b) then parse_bans t l' out
      else parse_bans t l' (<[key := mkBan (sb_Until b) (sb_Reason b)]> out)
  end.

Definition parseState (t : Z) (data : bytes) : result err (gmap bytes banRec) :=
  match json_decode data with
  | None => Err EStateJson
  | Some doc =>
      match json_rest data with
      | RValue => Err ETrailing
      | RError => Err EStateJson
      | REof => if negb (sf_V doc =? stateVersion) then Err (EVersion (sf_V doc))
                else parse_bans t (sf_Bans doc) ∅
      end
  end.

(** The bans, the modification time and the size. *)
Definition loadState (t : Z) (look : disk) : result err (gmap bytes banRec * Z * Z) :=
  let! (data, f) := readRegular look maxStateBytes (fun perm => perm =? 384) in
  let! b := parseState t data in
  Ok (b, f_mtime f, zlen (f_data f)).

(** The bans and the metadata [saw], [mtime], [size]. *)
Definition loadOptionalState (t : Z) (look : disk) : result err (gmap bytes banRec * (bool * Z * Z)) :=
  match loadState t look with
  | Ok (b, mtime, size) => Ok (b, (true, mtime, size))
  | Err (EFile FNotExist) => Ok (∅, (false, 0, -1))
  | Err e => Err e
  end.

Definition CheckConfig (path : bytes) (look : disk) : option err :=
  match loadConfig path look with Ok _ => None | Err e => Some e end.
Definition CheckState (t : Z) (path : bytes) (look : disk) : option err :=
  if bool_decide (path = []) then Some EStatePathEmpty
  else match loadState t look with Ok _ => None | Err e => Some e end.

(** [marshalStateLocked]: the document and its JSON. *)
Definition active (t : Z) (m : gmap bytes banRec) : gmap bytes banRec := filter (fun kb => t < until kb.2) m.
Definition state_doc (t : Z) (m : gmap bytes banRec) : stateFile :=
  mkStateFile stateVersion
    (omap (fun k => b ← m !! k; Some (mkStateBan k (until b) (reason b)))
       (sort_strings (map fst (map_to_list (active t m))))).
Definition json_ban (b : stateBan) : bytes :=
  json_object (member "addr" (json_string (sb_Addr b)) ++
               member "until" ([byte_of 34] ++ rfc3339_nano (sb_Until b) ++ [byte_of 34]) ++
               member "reason" (json_string (sb_Reason b))).
Definition json_state (doc : stateFile) : bytes :=
  json_object (member "v" (json_int (sf_V doc)) ++
               member "bans" (lit "[" ++ GoBytes.join (lit ",") (map json_ban (sf_Bans doc)) ++ lit "]")).
Definition marshalStateLocked (t : Z) (s : service) : option bytes :=
  let doc := state_doc t (bans s) in
  if forallb (fun b => year_fits (sb_Until b)) (sf_Bans doc) then Some (json_state doc) else None.

(** The error, the service and the file written. *)
Definition persistLocked (e : env) (s : service) : option err * service * option bytes :=
  if bool_decide (statePath s = []) then (Some EStatePathEmpty, s, None)
  else match marshalStateLocked (e_write_now e) s with
  | None => (Some EMarshal, s, None)
  | Some payload =>
      match e_write e with
      | WriteFails => (Some EIO, s, None)
      | WriteUnseen => (Some EIO, s, Some payload)
      | Written mtime size => (None, set_meta true mtime size s, Some payload)
      end
  end.

(** ** The tables *)

(** Adopt a loaded file: a peer whose ban has gone loses its samples. *)
Definition adopt (b : gmap bytes banRec) (mtime size : Z) (s : service) : service :=
  set_meta true mtime size (set_bans b
    (set_peers (filter (fun kp => ~ (is_Some (bans s !! kp.1) /\ b !! kp.1 = None)) (peers s)) s)).

Definition trip (e : err) (s : service) : option err * service :=
  (Some (EUnavailable e), set_tripped (Some (EUnavailable e)) s).

Definition refreshLocked (e : env) (s : service) : option err * service :=
  if forceOff s || bool_decide (statePath s = []) then (None, s)
  else match e_lstat e with
  | Missing => if sawState s then trip EDisappeared s else (None, s)
  | Fails => trip EIO s
  | Present f =>
      if sawState s && (f_mtime f =? stateMtime s) && (zlen (f_data f) =? stateSize s) then (None, s)
      else match loadState (e_load e) (e_open e) with
      | Err er => trip er s
      | Ok (b, mtime, size) => (None, adopt b mtime size s)
      end
  end.

Definition after_last (l : list Z) (cutoff : Z) : bool :=
  match last l with Some x => cutoff <? x | None => false end.
Definition peerIdle (c : config) (p : peerState) (t : Z) : bool :=
  negb (after_last (strikes p) (t - findTime c)) && negb (after_last (rates p) (t - rateWindow c)).

Definition sweepLocked (t : Z) (s : service) : service :=
  let s := set_bans (active t (bans s)) s in
  let every := Z.min (findTime (cfg s)) (rateWindow (cfg s)) in
  if time_sub t (peerSweep s) <? every then s
  else set_peers (filter (fun kp => peerIdle (cfg s) kp.2 t = false) (peers s)) (set_sweep t s).

Definition peerCapLocked (c : config) : Z := Z.max (maxEntries c * peersPerBan) minPeerCap.

Definition zsize {A} (m : gmap bytes A) : Z := Z.of_nat (size m).

(** The scan for a victim: at most sixteen entries in the map's order. *)
Fixpoint evict_scan (c : config) (m : gmap bytes peerState) (t scanned : Z) (victim : bytes) (order : list bytes) : bytes :=
  match order with
  | [] => victim
  | k :: order' =>
      match m !! k with
      | None => evict_scan c m t scanned victim order'
      | Some p =>
          let victim := if bool_decide (victim = []) then k else victim in
          if peerIdle c p t then k
          else if 16 <=? scanned + 1 then victim
          else evict_scan c m t (scanned + 1) victim order'
      end
  end.

(** The peer's samples; the table then holds the peer. *)
Definition peerLocked (e : env) (key : bytes) (t : Z) (s : service) : peerState * service :=
  match peers s !! key with
  | Some p => (p, s)
  | None =>
      let m := if peerCapLocked (cfg s) <=? zsize (peers s)
               then delete (evict_scan (cfg s) (peers s) t 0 [] (e_order e (peers s))) (peers s)
               else peers s in
      (mkPeer [] [], set_peers (<[key := mkPeer [] []]> m) s)
  end.

Definition appendWindow (samples : list Z) (t window capN : Z) : list Z :=
  let kept := List.filter (fun ts => t - window <? ts) samples ++ [t] in
  if (0 <? capN) && (capN <? zlen kept) then drop (Z.to_nat (zlen kept - capN)) kept else kept.

(** The ban that expires first, the smaller key at a tie. *)
Definition pick (best : bytes * Z) (kb : bytes * banRec) : bytes * Z :=
  let '(oldest, u) := best in
  let '(addr, b) := kb in
  if bool_decide (oldest = []) || (until b <? u)
     || ((until b =? u) && negb (bool_decide (oldest = addr)) && bytes_leb addr oldest)
  then (addr, until b) else best.
Definition oldest_ban (m : gmap bytes banRec) : bytes := fst (foldl pick ([], 0) (map_to_list m)).

Fixpoint evict_loop (fuel : nat) (max : Z) (m : gmap bytes banRec) : gmap bytes banRec :=
  match fuel with
  | O => m
  | S fuel' => if max <=? zsize m then evict_loop fuel' max (delete (oldest_ban m) m) else m
  end.

Definition roomForBanLocked (key : bytes) (s : service) : bool * service :=
  if bool_decide (is_Some (bans s !! key)) || (zsize (bans s) <? maxEntries (cfg s)) then (true, s)
  else if bool_decide (tableFull (cfg s) = tableFullRefuse) then (false, s)
  else (true, set_bans (evict_loop (S (size (bans s))) (maxEntries (cfg s)) (bans s)) s).

Definition applyBanLocked (e : env) (key why : bytes) (t : Z) (s : service)
  : list Event * service * option bytes :=
  let s := set_bans (<[key := mkBan (t + banTime (cfg s)) why]> (bans s)) s in
  let '(er, s, written) := persistLocked e s in
  let s := match er with Some x => set_tripped (Some (EUnavailable x)) s | None => s end in
  ([mkEvent (lit "threshold") key why; mkEvent (lit "ban") key why], s, written).

Definition keyLocked (s : service) (ip : IP) : bytes := peerKey ip (ipv6Prefix (cfg s)).

Definition banned_at (m : gmap bytes banRec) (key : bytes) (t : Z) : bool :=
  match m !! key with Some b => t <? until b | None => false end.
Definition bannedLocked (m : gmap bytes banRec) (key : bytes) (ip : IP) (t : Z) : option bytes :=
  if banned_at m key t then Some key
  else if negb (bool_decide (canonicalIP ip = key)) && banned_at m (canonicalIP ip) t then Some (canonicalIP ip)
  else None.

Definition set_peer (key : bytes) (p : peerState) (s : service) : service :=
  set_peers (<[key := p]> (peers s)) s.

Definition noteRateLocked (e : env) (key : bytes) (t : Z) (s : service)
  : list Event * bool * service * option bytes :=
  let '(p, s) := peerLocked e key t s in
  let p := mkPeer (strikes p) (appendWindow (rates p) t (rateWindow (cfg s)) (rateLimit (cfg s))) in
  let s := set_peer key p s in
  if zlen (rates p) <? rateLimit (cfg s) then ([], false, s, None)
  else
    let '(room, s) := roomForBanLocked key s in
    if negb room then ([], false, s, None)
    else let '(evs, s, w) := applyBanLocked e key (lit "rate") t s in (evs, true, s, w).

(** ** Operations *)

Definition answer : Type := Decision * list Event * service * option bytes.

Definition admitLocked (e : env) (addr : bytes) (s : service) : answer :=
  if forceOff s || negb (enabled (cfg s)) then (mkDecision true [] addr, [], s, None)
  else match parsePeer addr with
  | None => (mkDecision false (lit "bad_peer") [], [], s, None)
  | Some (_, ip) =>
      let key := keyLocked s ip in
      if ignored (ignore (cfg s)) ip then (mkDecision true [] key, [], s, None)
      else if bool_decide (is_Some (tripped s)) then (mkDecision false (lit "guard_unavailable") key, [], s, None)
      else match refreshLocked e s with
      | (Some _, s) => (mkDecision false (lit "guard_unavailable") key, [], s, None)
      | (None, s) =>
          let t := e_now e in
          let s := sweepLocked t s in
          match bannedLocked (bans s) key ip t with
          | Some banned => (mkDecision false (lit "banned") banned, [], s, None)
          | None =>
              if bool_decide (tableFull (cfg s) = tableFullRefuse) && (maxEntries (cfg s) <=? zsize (bans s))
              then (mkDecision false (lit "table_full") key, [], s, None)
              else
                let '(evs, banned, s, w) := noteRateLocked e key t s in
                if banned then (mkDecision false (lit "rate") key, evs, s, w)
                else (mkDecision true [] key, [], s, w)
          end
      end
  end.

Definition noteHandshakeLocked (e : env) (addr : bytes) (s : service) : list Event * service * option bytes :=
  if forceOff s || negb (enabled (cfg s)) || bool_decide (is_Some (tripped s)) then ([], s, None)
  else match refreshLocked e s with
  | (Some _, s) => ([], s, None)
  | (None, s) =>
      match parsePeer addr with
      | None => ([], s, None)
      | Some (_, ip) =>
          if ignored (ignore (cfg s)) ip then ([], s, None)
          else
            let key := keyLocked s ip in
            let t := e_now e in
            let s := sweepLocked t s in
            match bannedLocked (bans s) key ip t with
            | Some _ => ([], s, None)
            | None =>
                let '(p, s) := peerLocked e key t s in
                let p := mkPeer (appendWindow (strikes p) t (findTime (cfg s)) (maxRetry (cfg s))) (rates p) in
                let s := set_peer key p s in
                if zlen (strikes p) <? maxRetry (cfg s) then ([], s, None)
                else
                  let '(room, s) := roomForBanLocked key s in
                  if negb room then ([], s, None) else applyBanLocked e key (lit "handshake") t s
            end
      end
  end.

Definition unbanLocked (e : env) (key : bytes) (s : service) : result err (list Event) * service * option bytes :=
  if forceOff s then (Err ErrInactive, s, None)
  else match tripped s with
  | Some er => (Err er, s, None)
  | None =>
      match refreshLocked e s with
      | (Some er, s) => (Err er, s, None)
      | (None, s) =>
          let s := sweepLocked (e_now e) s in
          if bool_decide (bans s !! key = None) then (Err ErrNotBanned, s, None)
          else
            let prev := bans s in
            match persistLocked e (set_bans (delete key prev) s) with
            | (Some er, s, w) => (Err er, set_bans prev s, w)
            | (None, s, w) =>
                (Ok [mkEvent (lit "unban") key (lit "operator")], set_peers (delete key (peers s)) s, w)
            end
      end
  end.

Definition reloadLocked (e : env) (s : service) : result err (list Event) * service :=
  if forceOff s then (Err EForcedOff, s)
  else match loadConfig (configPath s) (e_config e) with
  | Err er => (Err er, s)
  | Ok c =>
      let c := if forceOn s then mkConfig true (findTime c) (maxRetry c) (banTime c) (rateLimit c) (rateWindow c)
                                   (maxEntries c) (tableFull c) (ipv6Prefix c) (ignore c) (ignoreText c) else c in
      let s := set_meta (sawState s) 0 (-1) (set_cfg c s) in
      let fail er := (Err er, set_tripped (Some er) s) in
      let done := Ok [mkEvent (lit "reload") [] (lit "config")] in
      if bool_decide (statePath s = []) then fail EStatePathEmpty
      else match e_lstat e with
      | Missing =>
          if sawState s then fail (EUnavailable EDisappeared)
          else (done, set_tripped None (set_peers ∅ (set_bans ∅ s)))
      | Fails => fail (EUnavailable EIO)
      | Present _ =>
          match loadState (e_load e) (e_open e) with
          | Err er => fail (EUnavailable er)
          | Ok (b, mtime, size) => (done, set_tripped None (adopt b mtime size s))
          end
      end
  end.

(** ** The package's functions *)

(** [emitAll]: what reaches the recorder.  [strings.Map] replaces invalid
    bytes by U+FFFD. *)
Definition stripControls (s : bytes) : bytes :=
  List.filter (fun c => negb ((byte_val c <? 32) || (byte_val c =? 127))) (to_valid 0 s).
Definition allowedAction (a : bytes) : bool := among a ["ban"; "unban"; "reload"; "threshold"].
Definition allowedReason (r : bytes) : bool := among r ["handshake"; "rate"; "operator"; "config"].
Definition emitAll (evs : list Event) : list Event :=
  List.filter (fun ev => allowedAction (Action ev) && allowedReason (ev_Reason ev))
    (map (fun ev => mkEvent (stripControls (Action ev)) (stripControls (ev_Addr ev)) (stripControls (ev_Reason ev))) evs).

Definition newService (opt : Options) (c : config) (off on : bool) (tr : option err) : service :=
  mkService true c (ConfigPath opt) (StatePath opt) off on tr false 0 (-1) ∅ ∅ 0.

(** [current(true)]. *)
Definition current (svc : option service) : service :=
  match svc with
  | Some s => s
  | None => mkService false defaultConfig [] [] false false None false 0 (-1) ∅ ∅ 0
  end.

Definition Configure (e : env) (opt : Options) : option err * service :=
  match ParseSwitch (Switch opt) with
  | Err er => (Some er, newService opt defaultConfig false false (Some er))
  | Ok (true, _) => (None, newService opt defaultConfig true false None)
  | Ok (false, on) =>
      if bool_decide (StatePath opt = [])
      then (Some EStatePathEmpty, newService opt defaultConfig false on (Some EStatePathEmpty))
      else match loadConfig (ConfigPath opt) (e_config e) with
      | Err er => (Some er, newService opt defaultConfig false on (Some er))
      | Ok c =>
          let c := if on then mkConfig true (findTime c) (maxRetry c) (banTime c) (rateLimit c) (rateWindow c)
                                (maxEntries c) (tableFull c) (ipv6Prefix c) (ignore c) (ignoreText c) else c in
          match loadOptionalState (e_load e) (e_open e) with
          | Err er => (Some er, newService opt c false on (Some er))
          | Ok (b, (saw, mtime, size)) => (None, set_meta saw mtime size (set_bans b (newService opt c false on None)))
          end
      end
  end.

Definition Ready (svc : option service) : option err :=
  match svc with
  | None => None
  | Some s => if forceOff s then None else tripped s
  end.

Definition Admit (e : env) (addr : bytes) (svc : option service)
  : Decision * list Event * option service * option bytes :=
  let '(d, evs, s, w) := admitLocked e addr (current svc) in (d, emitAll evs, Some s, w).

Definition NoteHandshake (e : env) (addr : bytes) (ok : bool) (svc : option service)
  : list Event * option service * option bytes :=
  if ok then ([], svc, None)
  else let '(evs, s, w) := noteHandshakeLocked e addr (current svc) in (emitAll evs, Some s, w).

(** The key of the ban to remove; the key of a network is not empty. *)
Definition unban_key (s : service) (target : bytes + IP) : bytes :=
  match target with
  | inl network => network
  | inr ip =>
      let key := keyLocked s ip in
      let exact := canonicalIP ip in
      if bool_decide (bans s !! key = None) && negb (bool_decide (exact = key))
         && bool_decide (is_Some (bans s !! exact)) then exact else key
  end.

Definition Unban (e : env) (addr : bytes) (svc : option service)
  : result err bytes * list Event * option service * option bytes :=
  match parseUnbanAddr addr with
  | None => (Err ErrBadPeer, [], svc, None)
  | Some target =>
      match svc with
      | None => (Err ErrInactive, [], None, None)
      | Some s =>
          let key := unban_key s target in
          match unbanLocked e key s with
          | (Err er, s, w) => (Err er, [], Some s, w)
          | (Ok evs, s, w) => (Ok key, emitAll evs, Some s, w)
          end
      end
  end.

Definition Reload (e : env) (svc : option service) : option err * list Event * option service :=
  match svc with
  | None => (Some ENotConfigured, [], None)
  | Some s => match reloadLocked e s with
              | (Err er, s) => (Some er, [], Some s)
              | (Ok evs, s) => (None, emitAll evs, Some s)
              end
  end.

(** [Snapshot], its note apart; a tripped jail's error is kept as a value. *)
Record Snapshot := mkSnapshot {
  Enabled : bool; ForcedOff : bool; Tripped : option err; st_ConfigPath : bytes; st_StatePath : bytes;
  FindTime : bytes; MaxRetry : Z; BanTime : bytes; RateLimit : Z; RateWindow : bytes; MaxEntries : Z;
  TableFull : bytes; IPv6Prefix : Z; Ignore : list bytes; Bans : list stateBan; Configured : bool; Note : bytes }.

Definition NotConfiguredNote : bytes := lit "not configured in this process".

Definition snapshot (t : Z) (on : bool) (note : bytes) (s : service) : Snapshot :=
  let c := cfg s in
  mkSnapshot on (forceOff s) (tripped s) (configPath s) (statePath s)
    (Duration_String (findTime c)) (maxRetry c) (Duration_String (banTime c)) (rateLimit c)
    (Duration_String (rateWindow c)) (maxEntries c) (tableFull c) (ipv6Prefix c) (ignoreText c)
    (sf_Bans (state_doc t (bans s))) (configured s) note.

Definition Status (e : env) (svc : option service) : Snapshot * option service :=
  match svc with
  | None => (snapshot (e_write_now e) false NotConfiguredNote (current None), None)
  | Some s =>
      let s := if bool_decide (tripped s = None) && negb (forceOff s)
               then match refreshLocked e s with
                    | (None, s) => sweepLocked (e_now e) s
                    | (Some _, s) => s
                    end
               else s in
      (snapshot (e_write_now e) (negb (forceOff s) && enabled (cfg s))
         (if configured s then [] else NotConfiguredNote ++ lit "; built-in defaults, bans in memory only") s, Some s)
  end.
End Load.

(** ** Keys *)

(** An address as [ParseIP] returns it. *)
Definition ip16 (ip : IP) : Prop := length ip = 16%nat /\ Forall octet ip.

Lemma canonicalIP_String ip : ip16 ip -> canonicalIP ip = IP_String ip.
Proof.
  intros [Hl Hf]. unfold canonicalIP. destruct (To4 ip) as [v4|] eqn:H4.
  - destruct (To4_Some _ _ H4 Hl) as [-> Hl4]. unfold IP_String. rewrite H4.
    unfold To4 at 1. by rewrite Hl4.
  - unfold To16. by rewrite Hl.
Qed.

Lemma hex_colon_plain s : forallb hex_colon s = true -> forallb printable s = true.
Proof.
  rewrite !forallb_forall. intros H x Hx. specialize (H x Hx).
  assert (Himp : implb (hex_colon x) (printable x) = true); [|by rewrite H in Himp].
  revert x Hx H. intros x _ _. apply (all_bytes (fun c => implb (hex_colon c) (printable c))). by vm_compute.
Qed.

Lemma dec_plain n : forallb printable (dec n) = true /\ existsb (fun c => c =?b "/") (dec n) = false.
Proof.
  pose proof (pretty_Z_digits n) as H. unfold dec. split.
  - rewrite forallb_forall in *. intros x Hx. specialize (H x Hx).
    assert (Himp : implb (is_digit_or_minus x) (printable x) = true); [|by rewrite H in Himp].
    apply (all_bytes (fun c => implb (is_digit_or_minus c) (printable c))). by vm_compute.
  - apply not_true_iff_false. intros He. apply existsb_exists in He as (c & Hc & E). apply Ascii.eqb_eq in E as ->.
    rewrite forallb_forall in H. by specialize (H _ Hc).
Qed.

Lemma dotted_plain v4 : forallb printable (GoBytes.join (lit ".") (map dec v4)) = true /\
  existsb (fun c => c =?b "/") (GoBytes.join (lit ".") (map dec v4)) = false.
Proof.
  induction v4 as [|a v4 [IH1 IH2]]; [done|]. destruct (dec_plain a) as [D1 D2].
  destruct v4 as [|b v4]; [by split|]. cbn [map GoBytes.join] in *.
  rewrite !forallb_app, !existsb_app. by rewrite D1, D2, IH1, IH2.
Qed.

Lemma IP_String_plain ip : ip16 ip -> forallb printable (IP_String ip) = true /\ has_byte "/" (IP_String ip) = false.
Proof.
  intros [Hl Hf]. destruct (To4 ip) as [v4|] eqn:H4.
  - unfold IP_String. rewrite H4. apply dotted_plain.
  - destruct (v6_text ip Hl Hf H4) as [_ Hc]. split; [by apply hex_colon_plain|by apply no_slash].
Qed.

Lemma peerKey_cases ip prefix : ip16 ip ->
  peerKey ip prefix = IP_String ip \/
  (To4 ip = None /\ 0 < prefix < 128 /\
   peerKey ip prefix = IP_String (IP_Mask ip (CIDRMask prefix 16)) ++ lit "/" ++ dec prefix).
Proof.
  intros Hip. unfold peerKey. rewrite canonicalIP_String by done. case_match eqn:E; [by left|right].
  bsimp. destruct (To4 ip); [by destruct H|]. split_and!; [done|lia|lia|]. unfold To16. by rewrite (proj1 Hip).
Qed.

Lemma peerKey_network net prefix : length net = 16%nat -> To4 net = None -> 0 < prefix < 128 ->
  IP_Mask net (CIDRMask prefix 16) = net -> peerKey net prefix = IP_String net ++ lit "/" ++ dec prefix.
Proof.
  intros Hl H4 Hp Hm. unfold peerKey. rewrite H4, bool_decide_false by by intros [].
  assert ((prefix <=? 0) = false) as -> by lia. assert ((128 <=? prefix) = false) as -> by lia. cbn [orb].
  unfold To16. rewrite Hl. cbn [Nat.eqb]. by rewrite Hm.
Qed.

(** Every key the jail forms is a key its own state file accepts. *)
Lemma stateKey_peerKey ip prefix : ip16 ip -> 32 <= prefix ->
  stateKey (peerKey ip prefix) = Ok (peerKey ip prefix).
Proof.
  intros Hip Hp. destruct (peerKey_cases ip prefix Hip) as [E|(H4 & Hlt & E)]; rewrite E.
  - destruct (IP_String_plain ip Hip) as [P1 P2]. unfold stateKey. rewrite trim_plain, P2 by done.
    destruct Hip as [Hl Hf]. by rewrite ParseIP_String, canonicalIP_String.
  - destruct Hip as [Hl Hf]. destruct (masked ip prefix) as (N1 & N2 & N3 & N4); [lia|done..|].
    set (net := IP_Mask ip (CIDRMask prefix 16)) in *.
    assert (Hnet : ip16 net) by done. destruct (IP_String_plain net Hnet) as [P1 P2]. destruct (dec_plain prefix) as [D1 D2].
    unfold stateKey. rewrite trim_plain by by rewrite !forallb_app, P1, D1.
    assert (has_byte "/" (IP_String net ++ lit "/" ++ dec prefix) = true) as ->.
    { unfold has_byte. rewrite !existsb_app. apply orb_true_iff. by right. }
    unfold prefixKey. rewrite ParseCIDR_v6 by (done || lia). cbn [mbind option_bind]. rewrite N3.
    assert ((128 =? 128) = true) as -> by done. cbn [negb orb]. rewrite bool_decide_false by by intros [].
    cbn [orb].
    assert ((prefix <? 32) || (127 <? prefix) = false) as -> by lia.
    rewrite peerKey_network by (done || lia).
    by rewrite bool_decide_true.
Qed.

Section Laws.
Context `{Dec : Decoders}.

Lemma ParseCIDR_ip16 s ip n ones bits : ParseCIDR s = Some (ip, n, ones, bits) -> ip16 ip.
Proof.
  unfold ParseCIDR. intros H. destruct (cut_byte "/" s) as [[addr mask]|]; [|done].
  destruct (ParseAddr addr) as [a|] eqn:Ea; [|done]. destruct (dtoi mask); [|done].
  case_match; [done|]. destruct (To16 a) as [x|] eqn:E; [|done]. invc H.
  apply (ParseIP_wf addr). unfold ParseIP. by rewrite Ea.
Qed.

Lemma stateKey_idem raw key : stateKey raw = Ok key -> stateKey key = Ok key.
Proof.
  intros H. unfold stateKey in H. destruct (has_byte "/" (trim_space raw)).
  - unfold prefixKey in H. destruct (ParseCIDR _) as [[[[ip n] ones] bits]|] eqn:Ec; [|done]. cbn [mbind option_bind] in H.
    destruct (negb (bits =? 128) || bool_decide (is_Some (To4 ip)) || (ones <? 32) || (127 <? ones)) eqn:E; [done|].
    cbn zeta in H. destruct (decide (peerKey ip ones = trim_space raw)) as [Ek|Ek]; [rewrite bool_decide_true in H by done|rewrite bool_decide_false in H by done; done].
    invc H. bsimp. apply stateKey_peerKey; [by eapply ParseCIDR_ip16|lia].
  - destruct (ParseIP _) as [ip|] eqn:Ei; [|done]. invc H. apply ParseIP_wf in Ei.
    assert (canonicalIP ip = peerKey ip 128) as ->; [|by apply stateKey_peerKey].
    unfold peerKey. by rewrite orb_true_r.
Qed.

(** ** Well-formed services *)

Record cfg_ok (c : config) : Prop := {
  ok_find : Second <= findTime c <= 24 * Hour;
  ok_ban : Second <= banTime c <= 8760 * Hour;
  ok_window : Second <= rateWindow c <= Hour;
  ok_retry : 1 <= maxRetry c <= 100;
  ok_limit : 1 <= rateLimit c <= 10000;
  ok_entries : 1 <= maxEntries c <= 100000;
  ok_full : tableFull c = tableFullEvict \/ tableFull c = tableFullRefuse;
  ok_prefix : 32 <= ipv6Prefix c <= 128 }.

Definition key_ok (k : bytes) : Prop := stateKey k = Ok k.
Definition reason_ok (r : bytes) : Prop := r = lit "handshake" \/ r = lit "rate".
Definition bans_ok (m : gmap bytes banRec) : Prop := map_Forall (fun k b => key_ok k /\ reason_ok (reason b)) m.
Definition peer_ok (p : peerState) : Prop := zlen (strikes p) <= 100 /\ zlen (rates p) <= 10000.
Definition peers_ok (m : gmap bytes peerState) : Prop := map_Forall (fun k p => key_ok k /\ peer_ok p) m.

Record wf (s : service) : Prop := {
  wf_cfg : cfg_ok (cfg s);
  wf_bans : bans_ok (bans s);
  wf_peers : peers_ok (peers s);
  wf_size : zsize (peers s) <= 400000 }.

(** Every order that a range over the table can take visits its keys. *)
Definition env_ok (e : env) : Prop := forall m k, k ∈ e_order e m <-> is_Some (m !! k).

Lemma defaultConfig_ok : cfg_ok defaultConfig.
Proof. split; first [by left | vm_compute; split; congruence]. Qed.

Lemma rbind_Ok {E A B} (r : result E A) (f : A -> result E B) b : rbind r f = Ok b -> exists a, r = Ok a /\ f a = Ok b.
Proof. destruct r; cbn; [by eauto|done]. Qed.

Lemma parseDur_range name raw def lo hi d :
  parseDur name raw def lo hi = Ok d -> lo <= def <= hi -> lo <= d <= hi.
Proof.
  unfold parseDur. intros H Hd. destruct raw; [|by invc H]. case_match; [|done]. case_match; [done|]. invc H. bsimp. lia.
Qed.
Lemma parseBounded_range name raw def lo hi d :
  parseBounded name raw def lo hi = Ok d -> lo <= def <= hi -> lo <= d <= hi.
Proof. unfold parseBounded. intros H Hd. destruct raw; [|by invc H]. case_match; [done|]. invc H. bsimp. lia. Qed.

Lemma buildConfig_ok fc empty c : buildConfig fc empty = Ok c -> cfg_ok c.
Proof.
  unfold buildConfig. intros H. destruct defaultConfig_ok.
  apply rbind_Ok in H as (find & Hfind & H). apply rbind_Ok in H as (ban & Hban & H).
  apply rbind_Ok in H as (window & Hw & H). apply rbind_Ok in H as (retry & Hr & H).
  apply rbind_Ok in H as (limit & Hl & H). apply rbind_Ok in H as (entries & He & H).
  apply rbind_Ok in H as (full & Hf & H). apply rbind_Ok in H as (prefix & Hp & H).
  apply rbind_Ok in H as ([nets text] & _ & H). invc H.
  apply parseDur_range in Hfind, Hban, Hw; [|done..]. apply parseBounded_range in Hr, Hl, He, Hp; [|done..].
  split; cbn; try done. destruct (fc_TableFull fc); [|invc Hf; done]. cbn zeta in Hf. case_match eqn:E; [|done]. invc Hf.
  apply orb_true_iff in E as [E|E]; apply bool_decide_eq_true in E; auto.
Qed.

Lemma loadConfig_ok path look c : loadConfig path look = Ok c -> cfg_ok c.
Proof.
  unfold loadConfig. intros H. case_match; [invc H; apply defaultConfig_ok|].
  destruct (readRegular _ _ _) as [[data f]|er]; [|destruct er as [| | | | | | [] | | | | | | | | | | | | | | | | | | | | |]; try done; injection H as <-; apply defaultConfig_ok].
  unfold parseConfigDocument in H. case_match; [done|]. destruct (yaml_decode data) as [fc|[|]]; try done.
  destruct (yaml_rest data); try done. apply rbind_Ok in H as (b & _ & H). by eapply buildConfig_ok.
Qed.

Lemma among_reason r : among r ["handshake"; "rate"] = true -> reason_ok r.
Proof. unfold among, reason_ok. intros Hin. apply bool_decide_eq_true in Hin. cbn in Hin. set_unfold in Hin. tauto. Qed.

Lemma parse_bans_ok t l : forall out m, bans_ok out -> parse_bans t l out = Ok m -> bans_ok m.
Proof.
  induction l as [|b l IH]; intros out m Ho H; cbn [parse_bans] in H; [by invc H|].
  apply rbind_Ok in H as (key & Hk & H). case_match; [done|]. case_match eqn:Er; [done|]. bsimp.
  case_match; [done|]. case_match; [done|]. case_match; eapply IH in H; eauto.
  apply map_Forall_insert_2; [|done]. split; [by eapply stateKey_idem|by apply among_reason].
Qed.

Lemma loadState_ok t look m mtime size : loadState t look = Ok (m, mtime, size) -> bans_ok m.
Proof.
  unfold loadState. intros H. apply rbind_Ok in H as ([data f] & _ & H). apply rbind_Ok in H as (b & Hb & H). invc H.
  unfold parseState in Hb. destruct (json_decode data); [|done]. destruct (json_rest data); try done.
  case_match; [done|]. eapply parse_bans_ok; [|done]. apply map_Forall_empty.
Qed.

(** ** Operations keep services well formed *)

Lemma zsize_nonneg {A} (m : gmap bytes A) : 0 <= zsize m.
Proof. unfold zsize. lia. Qed.
Lemma zsize_filter {A} (P : bytes * A -> Prop) `{!forall x, base.Decision (P x)} (m : gmap bytes A) : zsize (filter P m) <= zsize m.
Proof. unfold zsize. pose proof (map_subseteq_size (filter P m) m (map_filter_subseteq _ _)). lia. Qed.
Lemma zsize_insert_present {A} (m : gmap bytes A) k x y : m !! k = Some y -> zsize (<[k := x]> m) = zsize m.
Proof. intros H. unfold zsize. rewrite map_size_insert_Some by by eexists. done. Qed.
Lemma zsize_insert_new {A} (m : gmap bytes A) k x : m !! k = None -> zsize (<[k := x]> m) = 1 + zsize m.
Proof. intros H. unfold zsize. rewrite map_size_insert_None by done. lia. Qed.
Lemma zsize_delete {A} (m : gmap bytes A) k : zsize (delete k m) = zsize m - (if bool_decide (is_Some (m !! k)) then 1 else 0).
Proof.
  unfold zsize. case_bool_decide as E.
  - destruct E as [x Hx]. rewrite map_size_delete_Some by by eexists.
    assert (size m <> 0%nat); [|lia]. intros H0. apply map_size_empty_inv in H0 as ->. by rewrite lookup_empty in Hx.
  - rewrite map_size_delete_None; [lia|]. by apply eq_None_not_Some.
Qed.

Lemma map_Forall_sub {A} (P : bytes -> A -> Prop) (m m' : gmap bytes A) : m ⊆ m' -> map_Forall P m' -> map_Forall P m.
Proof. intros Hs HP k x Hx. eapply HP, lookup_weaken; done. Qed.
Lemma Forall_filter {A} (P : bytes -> A -> Prop) (Q : bytes * A -> Prop) `{!forall x, base.Decision (Q x)} (m : gmap bytes A) :
  map_Forall P m -> map_Forall P (filter Q m).
Proof. apply map_Forall_sub, map_filter_subseteq. Qed.

Lemma wf_same_tables s s' : cfg s' = cfg s -> bans s' = bans s -> peers s' = peers s -> wf s -> wf s'.
Proof. intros Hc Hb Hp [? ? ? ?]. by split; rewrite ?Hc, ?Hb, ?Hp. Qed.

Lemma adopt_wf b mtime size s : bans_ok b -> wf s -> wf (adopt b mtime size s).
Proof.
  intros Hb [W1 W2 W3 W4]. split; cbn; [done..| |].
  - by apply Forall_filter.
  - etransitivity; [apply zsize_filter|done].
Qed.

Lemma refreshLocked_wf e s : wf s -> wf (snd (refreshLocked e s)).
Proof.
  intros Hw. unfold refreshLocked, trip. repeat case_match; try done; try (by apply (wf_same_tables s)).
  cbn. apply adopt_wf; [by eapply loadState_ok|done].
Qed.

Lemma active_ok t m : bans_ok m -> bans_ok (active t m).
Proof. apply Forall_filter. Qed.

Lemma sweepLocked_wf t s : wf s -> wf (sweepLocked t s).
Proof.
  intros [W1 W2 W3 W4]. unfold sweepLocked. case_match; split; cbn; try done; try by apply active_ok.
  - by apply Forall_filter.
  - etransitivity; [apply zsize_filter|done].
Qed.

(** The victim is in the table, so the table does not grow past its cap. *)
Lemma evict_scan_member c m t order : forall scanned victim,
  (victim = [] \/ is_Some (m !! victim)) -> (exists k, k ∈ order /\ is_Some (m !! k)) \/ is_Some (m !! victim) ->
  is_Some (m !! evict_scan c m t scanned victim order).
Proof.
  induction order as [|k order IH]; intros scanned victim Hv Hex; cbn [evict_scan].
  { destruct Hex as [(k & Hk & _)|H]; [by apply not_elem_of_nil in Hk|done]. }
  destruct (m !! k) as [p|] eqn:Ek.
  - cbn zeta. assert (Hv' : is_Some (m !! (if bool_decide (victim = []) then k else victim))).
    { case_bool_decide; [by rewrite Ek|]. by destruct Hv. }
    destruct (peerIdle c p t); [by rewrite Ek|]. destruct (16 <=? scanned + 1); [done|]. apply IH; by right.
  - apply IH; [done|]. destruct Hex as [(k' & Hk & Hs)|H]; [|by right]. left.
    apply elem_of_cons in Hk as [->|Hk]; [rewrite Ek in Hs; by destruct Hs|]. by exists k'.
Qed.

Definition delete_victim (e : env) (t : Z) (s : service) : gmap bytes peerState :=
  if peerCapLocked (cfg s) <=? zsize (peers s)
  then delete (evict_scan (cfg s) (peers s) t 0 [] (e_order e (peers s))) (peers s) else peers s.

Lemma delete_victim_size e t s : env_ok e ->
  zsize (delete_victim e t s) + 1 <= Z.max (zsize (peers s)) (peerCapLocked (cfg s)).
Proof.
  intros He. unfold delete_victim. case_match; bsimp; [|lia].
  rewrite zsize_delete, bool_decide_true; [lia|]. apply evict_scan_member; [by left|]. left.
  destruct (decide (peers s = ∅)) as [E|E].
  - rewrite E in *. unfold peerCapLocked, minPeerCap, zsize in *. rewrite map_size_empty in *. lia.
  - apply map_choose in E as (k & p & Hk). exists k. split; [by apply He; eexists|by eexists].
Qed.

Lemma peerCap_bound c : cfg_ok c -> peerCapLocked c <= 400000.
Proof. intros []. unfold peerCapLocked, peersPerBan, minPeerCap. lia. Qed.

Lemma peerLocked_spec e key t s p s' : peerLocked e key t s = (p, s') ->
  s' = set_peers (peers s') s /\ peers s' !! key = Some p /\
  (peers s !! key = Some p \/ peers s !! key = None /\ p = mkPeer [] [] /\ peers s' = <[key := p]> (delete_victim e t s)).
Proof.
  unfold peerLocked. destruct (peers s !! key) as [q|] eqn:E; intros H; invc H.
  - split_and!; [by destruct s'|done|by left].
  - split_and!; [done|cbn; by rewrite lookup_insert_eq|right; by split_and!].
Qed.

Lemma peerLocked_wf e key t s p s' : env_ok e -> key_ok key -> wf s -> peerLocked e key t s = (p, s') -> wf s' /\ peer_ok p.
Proof.
  intros He Hk [W1 W2 W3 W4] H. destruct (peerLocked_spec _ _ _ _ _ _ H) as (E & Hp & [Hold|(Hnone & -> & Hps)]).
  - assert (s' = s) as -> by (unfold peerLocked in H; rewrite Hold in H; congruence). split; [done|]. by apply W3 in Hold as [].
  - assert (peer_ok (mkPeer [] [])) by done. split; [|done]. rewrite E. split; cbn; [done..| |].
    + rewrite Hps. apply map_Forall_insert_2; [done|]. unfold delete_victim. case_match; [|done]. by apply map_Forall_delete.
    + rewrite Hps. pose proof (delete_victim_size e t s He). pose proof (peerCap_bound _ W1).
      destruct (delete_victim e t s !! key) as [q|] eqn:Eq.
      * rewrite (zsize_insert_present _ _ _ _ Eq). lia.
      * rewrite zsize_insert_new by done. lia.
Qed.

Lemma set_peer_wf key p s q : peers s !! key = Some q -> key_ok key -> peer_ok p -> wf s -> wf (set_peer key p s).
Proof.
  intros Hq Hk Hp [W1 W2 W3 W4]. split; cbn; [done..| |].
  - by apply map_Forall_insert_2.
  - by rewrite (zsize_insert_present _ _ _ _ Hq).
Qed.

Lemma appendWindow_cap l t w c : 1 <= c -> zlen (appendWindow l t w c) <= c.
Proof.
  intros Hc. unfold appendWindow. case_match; bsimp.
  - unfold zlen in *. rewrite length_drop. lia.
  - unfold zlen in *. lia.
Qed.

Lemma evict_loop_sub fuel max m : evict_loop fuel max m ⊆ m.
Proof.
  revert m. induction fuel as [|fuel IH]; intros m; cbn; [done|]. case_match; [|done].
  etransitivity; [apply IH|apply delete_subseteq].
Qed.

Lemma roomForBanLocked_wf key s : wf s -> wf (snd (roomForBanLocked key s)).
Proof.
  intros [W1 W2 W3 W4]. unfold roomForBanLocked. repeat case_match; try done. split; cbn [snd set_bans cfg bans peers]; try done.
  eapply map_Forall_sub; [|exact W2]. apply evict_loop_sub.
Qed.

Lemma persistLocked_tables e s er s' w : persistLocked e s = (er, s', w) ->
  cfg s' = cfg s /\ bans s' = bans s /\ peers s' = peers s /\ tripped s' = tripped s /\ statePath s' = statePath s /\ forceOff s' = forceOff s.
Proof. unfold persistLocked. intros H. repeat case_match; by invc H. Qed.

Lemma applyBanLocked_wf e key why t s evs s' w :
  key_ok key -> reason_ok why -> wf s -> applyBanLocked e key why t s = (evs, s', w) -> wf s'.
Proof.
  intros Hk Hr [W1 W2 W3 W4]. unfold applyBanLocked. cbn zeta.
  destruct (persistLocked e _) as [[er s1] w1] eqn:Ep. apply persistLocked_tables in Ep as (E1 & E2 & E3 & _). cbn in E1, E2, E3.
  intros H. invc H. destruct er; split; cbn; rewrite ?E1, ?E2, ?E3; try done; by apply map_Forall_insert_2.
Qed.

Lemma parsePeer_ip16 addr c ip : parsePeer addr = Some (c, ip) -> ip16 ip.
Proof.
  unfold parsePeer. intros H. apply bind_Some in H as (a & Ha & H). invc H. by apply ParseIP_wf in Ha.
Qed.

Lemma keyLocked_ok s ip : cfg_ok (cfg s) -> ip16 ip -> key_ok (keyLocked s ip).
Proof. intros [] Hip. apply stateKey_peerKey; [done|lia]. Qed.

Lemma refreshLocked_cfg e s : cfg (snd (refreshLocked e s)) = cfg s.
Proof. unfold refreshLocked, trip. by repeat case_match. Qed.
Lemma sweepLocked_cfg t s : cfg (sweepLocked t s) = cfg s.
Proof. unfold sweepLocked. by case_match. Qed.

Lemma noteRateLocked_wf e key t s evs b s' w :
  env_ok e -> key_ok key -> wf s -> noteRateLocked e key t s = (evs, b, s', w) -> wf s'.
Proof.
  intros He Hk Hw. unfold noteRateLocked. destruct (peerLocked e key t s) as [p s1] eqn:Ep.
  destruct (peerLocked_wf _ _ _ _ _ _ He Hk Hw Ep) as [W1 Pp]. destruct (peerLocked_spec _ _ _ _ _ _ Ep) as (_ & Hp & _).
  cbn zeta. set (q := mkPeer _ _). assert (Wq : wf (set_peer key q s1)).
  { eapply set_peer_wf; [done..| |done]. split; [apply Pp|]. cbn. destruct (wf_cfg _ W1).
    etransitivity; [apply appendWindow_cap|]; lia. }
  case_match; [intros H1; by invc H1|]. destruct (roomForBanLocked key _) as [room s2] eqn:Er.
  pose proof (roomForBanLocked_wf key _ Wq) as W2. rewrite Er in W2. cbn in W2.
  destruct room; cbn [negb]; [|intros H1; by invc H1].
  destruct (applyBanLocked e key (lit "rate") t s2) as [[evs1 s3] w1] eqn:Ea. intros H1. invc H1.
  eapply applyBanLocked_wf; [done| |done|done]. by right.
Qed.

Lemma admitLocked_wf e addr s d evs s' w : env_ok e -> wf s -> admitLocked e addr s = (d, evs, s', w) -> wf s'.
Proof.
  intros He Hw H. unfold admitLocked in H. case_match; [by invc H|].
  destruct (parsePeer addr) as [[c ip]|] eqn:Epp; [|by invc H]. cbn zeta in H.
  case_match; [by invc H|]. case_match; [by invc H|].
  pose proof (refreshLocked_wf e s Hw) as W1. pose proof (refreshLocked_cfg e s) as C1.
  destruct (refreshLocked e s) as [[er|] s1]; cbn [snd] in *; [by invc H|].
  pose proof (sweepLocked_wf (e_now e) s1 W1) as W2. case_match; [by invc H|]. case_match; [by invc H|].
  destruct (noteRateLocked e _ _ _) as [[[evs1 b] s2] w1] eqn:En.
  eapply noteRateLocked_wf in En; [|done| |done]; [by destruct b; invc H|].
  apply keyLocked_ok; [apply Hw|]. by eapply parsePeer_ip16.
Qed.

Lemma noteHandshakeLocked_wf e addr s evs s' w : env_ok e -> wf s -> noteHandshakeLocked e addr s = (evs, s', w) -> wf s'.
Proof.
  intros He Hw H. unfold noteHandshakeLocked in H. case_match; [by invc H|].
  pose proof (refreshLocked_wf e s Hw) as W1.
  destruct (refreshLocked e s) as [[er|] s1]; cbn [snd] in *; [by invc H|].
  destruct (parsePeer addr) as [[c ip]|] eqn:Epp; [|by invc H]. case_match; [by invc H|]. cbn zeta in H.
  pose proof (sweepLocked_wf (e_now e) s1 W1) as W2.
  assert (Hk : key_ok (keyLocked s1 ip)) by (apply keyLocked_ok; [apply W1|by eapply parsePeer_ip16]).
  case_match; [by invc H|].
  destruct (peerLocked e _ _ _) as [p s2] eqn:Ep.
  destruct (peerLocked_wf _ _ _ _ _ _ He Hk W2 Ep) as [W3 Pp]. destruct (peerLocked_spec _ _ _ _ _ _ Ep) as (_ & Hp & _).
  set (q := mkPeer _ _) in H. assert (Wq : wf (set_peer (keyLocked s1 ip) q s2)).
  { eapply set_peer_wf; [done..| |done]. split; [|apply Pp]. cbn. destruct (wf_cfg _ W3).
    etransitivity; [apply appendWindow_cap|]; lia. }
  case_match; [by invc H|]. destruct (roomForBanLocked _ _) as [room s3] eqn:Er.
  pose proof (roomForBanLocked_wf (keyLocked s1 ip) _ Wq) as W4. rewrite Er in W4. cbn in W4.
  destruct room; cbn [negb] in H; [|by invc H]. eapply applyBanLocked_wf; [done| |done|done]. by left.
Qed.

Lemma unbanLocked_wf e key s r s' w : wf s -> unbanLocked e key s = (r, s', w) -> wf s'.
Proof.
  intros Hw H. unfold unbanLocked in H. case_match; [by invc H|]. destruct (tripped s); [by invc H|].
  pose proof (refreshLocked_wf e s Hw) as W1.
  destruct (refreshLocked e s) as [[er|] s1]; cbn [snd] in *; [by invc H|].
  pose proof (sweepLocked_wf (e_now e) s1 W1) as W2. cbn zeta in H. case_match; [by invc H|].
  destruct (persistLocked e _) as [[er s2] w1] eqn:Ep. apply persistLocked_tables in Ep as (E1 & E2 & E3 & _). cbn in E1, E2, E3.
  destruct W2 as [V1 V2 V3 V4]. destruct er; invc H; split; cbn; rewrite ?E1, ?E2, ?E3; try done.
  - by apply map_Forall_delete.
  - by apply map_Forall_delete.
  - etransitivity; [|exact V4]. rewrite zsize_delete. case_match; lia.
Qed.

Lemma reloadLocked_wf e s : wf s -> wf (snd (reloadLocked e s)).
Proof.
  intros Hw. unfold reloadLocked. case_match; [done|]. destruct (loadConfig _ _) as [c|er] eqn:Ec; [|done].
  apply loadConfig_ok in Ec. cbn zeta. set (c' := if forceOn s then _ else c).
  assert (Hc : cfg_ok c') by (unfold c'; destruct (forceOn s); [destruct Ec; by split|done]).
  destruct Hw as [W1 W2 W3 W4].
  assert (Hs : wf (set_meta (sawState s) 0 (-1) (set_cfg c' s))) by (by split).
  set (s1 := set_meta _ _ _ _) in *. case_match; [by apply (wf_same_tables s1)|].
  destruct (e_lstat e).
  - case_match; [by apply (wf_same_tables s1)|]. split; cbn; [done|apply map_Forall_empty..|].
    unfold zsize. rewrite map_size_empty. lia.
  - by apply (wf_same_tables s1).
  - destruct (loadState _ _) as [[[b mtime] size]|er] eqn:El; [|by apply (wf_same_tables s1)].
    apply (wf_same_tables (adopt b mtime size s1)); [done..|]. apply adopt_wf; [by eapply loadState_ok|done].
Qed.

Lemma empty_wf s : cfg_ok (cfg s) -> bans_ok (bans s) -> peers s = ∅ -> wf s.
Proof.
  intros Hc Hb Hp. split; [done|done|rewrite Hp; apply map_Forall_empty|]. rewrite Hp. unfold zsize. rewrite map_size_empty. lia.
Qed.

Lemma current_wf svc : (forall s, svc = Some s -> wf s) -> wf (current svc).
Proof.
  intros H. destruct svc as [s|]; [by apply H|]. apply empty_wf; [apply defaultConfig_ok|apply map_Forall_empty|done].
Qed.

Lemma Configure_wf e opt : wf (snd (Configure e opt)).
Proof.
  assert (Hn : forall c off on tr, cfg_ok c -> wf (newService opt c off on tr)).
  { intros. apply empty_wf; [done|apply map_Forall_empty|done]. }
  pose proof defaultConfig_ok as Hd. unfold Configure. destruct (ParseSwitch _) as [[[|] on]|er]; [by apply Hn| |by apply Hn].
  case_match; [by apply Hn|]. destruct (loadConfig _ _) as [c|er] eqn:Ec; [|by apply Hn].
  apply loadConfig_ok in Ec. cbn zeta. set (c' := if on then _ else c).
  assert (Hc : cfg_ok c') by (unfold c'; destruct on; [destruct Ec; by split|done]).
  destruct (loadOptionalState _ _) as [[b [[saw mtime] size]]|er] eqn:El; [|by apply Hn].
  apply empty_wf; [done| |done]. cbn. unfold loadOptionalState in El.
  destruct (loadState _ _) as [[[b0 m0] z0]|er] eqn:E.
  - invc El. by eapply loadState_ok.
  - repeat (case_match; try done). invc El. apply map_Forall_empty.
Qed.

(** ** Runs of the jail *)

Inductive op := OpAdmit (addr : bytes) | OpNote (addr : bytes) (ok : bool) | OpUnban (addr : bytes) | OpReload | OpStatus.

Definition step (svc : option service) (eo : env * op) : option service :=
  let '(e, o) := eo in
  match o with
  | OpAdmit addr => let '(_, _, svc, _) := Admit e addr svc in svc
  | OpNote addr ok => let '(_, svc, _) := NoteHandshake e addr ok svc in svc
  | OpUnban addr => let '(_, _, svc, _) := Unban e addr svc in svc
  | OpReload => let '(_, _, svc) := Reload e svc in svc
  | OpStatus => snd (Status e svc)
  end.
Definition run : option service -> list (env * op) -> option service := foldl step.

Definition svc_wf (svc : option service) : Prop := forall s, svc = Some s -> wf s.

Lemma step_wf svc e o : env_ok e -> svc_wf svc -> svc_wf (step svc (e, o)).
Proof.
  intros He Hw s' Hs'. pose proof (current_wf svc Hw) as Hc. unfold step in Hs'. destruct o as [addr|addr ok|addr| |].
  - unfold Admit in Hs'. destruct (admitLocked e addr _) as [[[d evs] s1] w] eqn:E. invc Hs'. by eapply admitLocked_wf.
  - unfold NoteHandshake in Hs'. destruct ok; [by apply Hw|].
    destruct (noteHandshakeLocked e addr _) as [[evs s1] w] eqn:E. invc Hs'. by eapply noteHandshakeLocked_wf.
  - unfold Unban in Hs'. destruct (parseUnbanAddr addr) as [target|]; [|by apply Hw]. destruct svc as [s|]; [|done].
    destruct (unbanLocked e _ s) as [[r s1] w] eqn:E. apply unbanLocked_wf in E; [|by apply Hw]. by destruct r; invc Hs'.
  - unfold Reload in Hs'. destruct svc as [s|]; [|done]. pose proof (reloadLocked_wf e s (Hw s eq_refl)) as H1.
    destruct (reloadLocked e s) as [[evs|er] s1]; by invc Hs'.
  - unfold Status in Hs'. destruct svc as [s|]; [|done]. cbn [snd] in Hs'. specialize (Hw s eq_refl). case_match; [|by invc Hs'].
    pose proof (refreshLocked_wf e s Hw) as H1. destruct (refreshLocked e s) as [[er|] s1]; invc Hs'; [done|by apply sweepLocked_wf].
Qed.

(** C18: From an unconfigured or any configured jail, every sequence of
    operations, file contents and failures keeps a configuration within the
    documented limits, ban keys that the state file accepts with known
    reasons, at most 100 strikes and 10000 rate samples per peer and at most
    400000 peers. *)
Theorem jail_well_formed e opt l :
  Forall (fun eo => env_ok (fst eo)) l ->
  svc_wf (run None l) /\ svc_wf (run (Some (snd (Configure e opt))) l).
Proof.
  intros Hl. assert (Hrun : forall svc, svc_wf svc -> svc_wf (run svc l)).
  { induction Hl as [|[e0 o] l He Hl IH]; intros svc Hs; [done|]. cbn [run foldl]. apply IH. by apply step_wf. }
  split; apply Hrun; [done|]. intros s Hs. injection Hs as <-. apply Configure_wf.
Qed.

(** A tripped jail: nothing but a reload changes it. *)
Definition serving (s : service) : Prop := forceOff s = false /\ enabled (cfg s) = true.

Lemma tripped_admit e addr s er : serving s -> tripped s = Some er ->
  exists d, admitLocked e addr s = (d, [], s, None) /\
    (Allow d = true <-> exists c ip, parsePeer addr = Some (c, ip) /\ ignored (ignore (cfg s)) ip = true).
Proof.
  intros [Hf He] Ht. unfold admitLocked. rewrite Hf, He. cbn [orb negb].
  destruct (parsePeer addr) as [[c ip]|].
  - cbn zeta. destruct (ignored (ignore (cfg s)) ip) eqn:Ei.
    + eexists. split; [done|]. split; [|done]. intros _. by exists c, ip.
    + rewrite bool_decide_true by by rewrite Ht. eexists. split; [done|]. split; [done|].
      intros (c' & ip' & Hp & Hi). invc Hp. congruence.
  - eexists. split; [done|]. split; [done|]. by intros (? & ? & ? & _).
Qed.

Lemma tripped_step e o s er : serving s -> tripped s = Some er -> o <> OpReload -> step (Some s) (e, o) = Some s.
Proof.
  intros Hs Ht Ho. pose proof Hs as [Hf He]. destruct o as [addr|addr ok|addr| |]; cbn [step]; [..|done|].
  - unfold Admit. destruct (tripped_admit e addr s er Hs Ht) as (d & E & _). cbn [current]. by rewrite E.
  - unfold NoteHandshake. destruct ok; [done|]. cbn [current]. unfold noteHandshakeLocked. rewrite Hf, He.
    by rewrite bool_decide_true by by rewrite Ht.
  - unfold Unban. destruct (parseUnbanAddr addr); [|done]. unfold unbanLocked. by rewrite Hf, Ht.
  - unfold Status. cbn [snd]. by rewrite bool_decide_false by by rewrite Ht.
Qed.

Lemma tripped_run l s er : serving s -> tripped s = Some er ->
  Forall (fun eo : env * op => snd eo <> OpReload) l -> run (Some s) l = Some s.
Proof.
  intros Hs Ht Hl. induction Hl as [|[e o] l Ho Hl IH]; [done|]. cbn [run foldl].
  rewrite (tripped_step e o s er) by done. exact IH.
Qed.

Lemma applyBanLocked_spec e key why t s evs s' w : applyBanLocked e key why t s = (evs, s', w) ->
  evs = [mkEvent (lit "threshold") key why; mkEvent (lit "ban") key why] /\
  bans s' = <[key := mkBan (t + banTime (cfg s)) why]> (bans s) /\ peers s' = peers s /\ cfg s' = cfg s /\ forceOff s' = forceOff s /\
  ((forall mtime size, e_write e <> Written mtime size) -> is_Some (tripped s')) /\ (is_Some w -> statePath s <> []).
Proof.
  unfold applyBanLocked. cbn zeta. destruct (persistLocked e _) as [[er s1] w1] eqn:Ep.
  pose proof (persistLocked_tables _ _ _ _ _ Ep) as (E1 & E2 & E3 & E4 & E5 & E6). cbn in E1, E2, E3, E4, E5, E6.
  intros H. invc H. split_and!; [done|by destruct er|by destruct er|by destruct er|by destruct er| |].
  - intros Hw. destruct er; [by eexists|]. unfold persistLocked in Ep. repeat case_match; try done. by destruct (Hw mtime size).
  - intros [d Hd]. subst. unfold persistLocked in Ep. cbn in Ep. case_bool_decide; [done|done].
Qed.

(** Events reach the recorder as they are. *)
Lemma to_valid_plain s : forallb printable s = true -> to_valid 0 s = s.
Proof.
  induction s as [|c s IH]; [done|]. cbn [forallb]. intros H. bsimp. cbn [to_valid].
  assert (utf8_width (c :: s) = 1%nat) as ->; [|by rewrite IH].
  unfold printable in *. bsimp. unfold utf8_width. cbn. by assert ((byte_val c <? 128) = true) as -> by lia.
Qed.

Lemma stripControls_plain s : forallb printable s = true -> stripControls s = s.
Proof.
  intros H. unfold stripControls. rewrite to_valid_plain by done.
  induction s as [|c s IH]; [done|]. cbn [forallb] in H. bsimp. cbn [List.filter]. rewrite IH by done.
  unfold printable in *. bsimp. assert ((byte_val c <? 32) || (byte_val c =? 127) = false) as -> by lia. done.
Qed.

Lemma key_plain s ip : cfg_ok (cfg s) -> ip16 ip -> forallb printable (keyLocked s ip) = true.
Proof.
  intros [] Hip. unfold keyLocked. destruct (peerKey_cases ip (ipv6Prefix (cfg s)) Hip) as [E|(H4 & Hlt & E)]; rewrite E.
  - by apply IP_String_plain.
  - destruct Hip as [Hl Hf]. destruct (masked ip (ipv6Prefix (cfg s))) as (N1 & N2 & _); [lia|done..|].
    destruct (IP_String_plain (IP_Mask ip (CIDRMask (ipv6Prefix (cfg s)) 16))) as [P1 _]; [done|].
    destruct (dec_plain (ipv6Prefix (cfg s))) as [D1 _]. by rewrite !forallb_app, P1, D1.
Qed.

Lemma emitAll_ban key why : forallb printable key = true -> reason_ok why ->
  emitAll [mkEvent (lit "threshold") key why; mkEvent (lit "ban") key why]
  = [mkEvent (lit "threshold") key why; mkEvent (lit "ban") key why].
Proof.
  intros Hk Hr. unfold emitAll. cbn [map Action ev_Addr ev_Reason]. rewrite (stripControls_plain key) by done.
  by destruct Hr as [-> | ->].
Qed.

(** ** Admission *)

Definition samples (s : service) (key : bytes) : peerState := match peers s !! key with Some p => p | None => mkPeer [] [] end.
(** The samples of a window of length [w] that ends at [t]. *)
Definition within (t w : Z) (l : list Z) : list Z := List.filter (fun ts => t - w <? ts) l.

Lemma appendWindow_length l t w c : 1 <= c -> zlen (appendWindow l t w c) = Z.min c (zlen (within t w l) + 1).
Proof.
  intros Hc. unfold appendWindow, within. set (f := List.filter _ l).
  assert (zlen (f ++ [t]) = zlen f + 1) as E by (rewrite zlen_app; reflexivity).
  rewrite E. case_match; bsimp; [|lia]. unfold zlen in *. rewrite length_drop, length_app in *. cbn [length] in *. lia.
Qed.

Lemma roomForBan_true key s : ~ (tableFull (cfg s) = tableFullRefuse /\ maxEntries (cfg s) <= zsize (bans s)) ->
  fst (roomForBanLocked key s) = true.
Proof.
  intros H. unfold roomForBanLocked.
  destruct (bool_decide (is_Some (bans s !! key)) || (zsize (bans s) <? maxEntries (cfg s))) eqn:E; [done|].
  destruct (bool_decide (tableFull (cfg s) = tableFullRefuse)) eqn:E2; [|done]. exfalso. bsimp. by apply H.
Qed.

Lemma peerLocked_samples e key t s p s' : peerLocked e key t s = (p, s') -> p = samples s key.
Proof.
  intros H. destruct (peerLocked_spec _ _ _ _ _ _ H) as (_ & _ & [E|(E & -> & _)]); unfold samples; by rewrite E.
Qed.

Lemma noteRate_spec e key t s evs b s' w : cfg_ok (cfg s) ->
  ~ (tableFull (cfg s) = tableFullRefuse /\ maxEntries (cfg s) <= zsize (bans s)) ->
  noteRateLocked e key t s = (evs, b, s', w) ->
  (b = true <-> rateLimit (cfg s) <= zlen (within t (rateWindow (cfg s)) (rates (samples s key))) + 1) /\
  (b = false -> evs = [] /\ w = None /\ bans s' = bans s) /\
  (b = true -> evs = [mkEvent (lit "threshold") key (lit "rate"); mkEvent (lit "ban") key (lit "rate")] /\
               bans s' !! key = Some (mkBan (t + banTime (cfg s)) (lit "rate")) /\
               ((forall mtime size, e_write e <> Written mtime size) -> is_Some (tripped s'))).
Proof.
  intros [] Hroom. unfold noteRateLocked. destruct (peerLocked e key t s) as [p s1] eqn:Ep.
  pose proof (peerLocked_samples _ _ _ _ _ _ Ep) as ->. destruct (peerLocked_spec _ _ _ _ _ _ Ep) as (E1 & _ & _). cbn zeta.
  assert (Hc : cfg s1 = cfg s) by by rewrite E1. assert (Hb : bans s1 = bans s) by by rewrite E1.
  assert (Hc2 : forall q, cfg (set_peer key q s1) = cfg s) by done. rewrite Hc2, Hc. cbn [rates].
  rewrite appendWindow_length by lia. case_match eqn:Elt; bsimp.
  - intros H. invc H. split_and!; [split; [done|lia]| |done]. intros _. by rewrite <- Hb.
  - pose proof (roomForBan_true key (set_peer key (mkPeer (strikes (samples s key)) (appendWindow (rates (samples s key)) t
      (rateWindow (cfg s)) (rateLimit (cfg s)))) s1)) as Hr. cbn [set_peer set_peers cfg bans] in Hr. rewrite Hc, Hb in Hr. specialize (Hr Hroom).
    destruct (roomForBanLocked key _) as [room s2] eqn:Er. cbn [fst] in Hr. subst room. cbn [negb].
    assert (cfg s2 = cfg s) as C2 by (unfold roomForBanLocked in Er; repeat case_match; invc Er; done).
    destruct (applyBanLocked e key (lit "rate") t s2) as [[evs1 s3] w1] eqn:Ea. intros H. invc H.
    apply applyBanLocked_spec in Ea as (-> & Hbs & _ & _ & _ & Ht & _). rewrite C2 in Hbs.
    split_and!; [split; [lia|done]|done|]. intros _. split_and!; [done| |done]. by rewrite Hbs, lookup_insert_eq.
Qed.

Lemma banned_at_active m key t : banned_at m key t = bool_decide (is_Some (active t m !! key)).
Proof.
  unfold banned_at, active. rewrite map_lookup_filter. destruct (m !! key) as [b|]; cbn; [|done].
  destruct (t <? until b) eqn:E; bsimp.
  - rewrite option_guard_True by done. done.
  - rewrite option_guard_False by (cbn; lia). done.
Qed.

Lemma active_active t m : active t (active t m) = active t m.
Proof. unfold active. apply map_filter_id. intros i x Hx. by apply map_lookup_filter_Some in Hx as [_ ?]. Qed.

Lemma sweepLocked_bans t s : bans (sweepLocked t s) = active t (bans s).
Proof. unfold sweepLocked. by case_match. Qed.

Lemma bannedLocked_None m key ip t :
  bannedLocked (active t m) key ip t = None <-> active t m !! key = None /\ active t m !! canonicalIP ip = None.
Proof.
  unfold bannedLocked. rewrite !banned_at_active, active_active.
  destruct (decide (canonicalIP ip = key)) as [->|Hne].
  - rewrite (bool_decide_true (key = key)) by done. cbn [negb andb]. case_bool_decide as E.
    + split; [done|]. intros [H _]. rewrite H in E. by destruct E.
    + by rewrite <- eq_None_not_Some in E.
  - rewrite (bool_decide_false (canonicalIP ip = key)) by done. cbn [negb andb].
    case_bool_decide as E; [split; [done|intros [H _]; rewrite H in E; by destruct E]|].
    case_bool_decide as E2; [split; [done|intros [_ H]; rewrite H in E2; by destruct E2]|].
    rewrite <- eq_None_not_Some in E, E2. done.
Qed.

(** What [Admit] grants, once the jail is serving and the peer is counted. *)
Definition clear_peer (e : env) (ip : IP) (s1 : service) : Prop :=
  let t := e_now e in
  let m := active t (bans s1) in
  let key := keyLocked s1 ip in
  m !! key = None /\ m !! canonicalIP ip = None /\
  ~ (tableFull (cfg s1) = tableFullRefuse /\ maxEntries (cfg s1) <= zsize m) /\
  zlen (within t (rateWindow (cfg s1)) (rates (samples (sweepLocked t s1) key))) + 1 < rateLimit (cfg s1).

(** The condition, for [Admit] and for the end of a ban. *)
Lemma admit_allows e addr s : wf s ->
  Allow (fst (fst (fst (Admit e addr (Some s))))) = true <->
  forceOff s = true \/ enabled (cfg s) = false \/
  exists c ip, parsePeer addr = Some (c, ip) /\
    (ignored (ignore (cfg s)) ip = true \/
     tripped s = None /\ exists s1, refreshLocked e s = (None, s1) /\ clear_peer e ip s1).
Proof.
  intros Hw. unfold Admit. cbn [current]. destruct (admitLocked e addr s) as [[[d evs] s'] w] eqn:E. cbn [fst].
  unfold admitLocked in E. destruct (forceOff s || negb (enabled (cfg s))) eqn:Eoff.
  { invc E. split; [intros _|done]. bsimp. destruct Eoff; bsimp; auto. }
  bsimp. destruct (parsePeer addr) as [[c ip]|] eqn:Epp.
  2: { invc E. split; [done|]. intros [?|[?|(? & ? & ? & _)]]; congruence. }
  cbn zeta in E. destruct (ignored (ignore (cfg s)) ip) eqn:Eig.
  { invc E. split; [intros _|done]. right; right. exists c, ip. auto. }
  assert (Hred : forall Q : Prop, (Allow d = true <-> (tripped s = None /\ exists s1, refreshLocked e s = (None, s1) /\ clear_peer e ip s1)) ->
    (Allow d = true <-> forceOff s = true \/ enabled (cfg s) = false \/ exists c0 ip0, Some (c, ip) = Some (c0, ip0) /\
      (ignored (ignore (cfg s)) ip0 = true \/ tripped s = None /\ exists s1, refreshLocked e s = (None, s1) /\ clear_peer e ip0 s1))).
  { intros _ ->. split; [intros Hx; right; right; exists c, ip; auto|].
    intros [?|[?|(c0 & ip0 & Heq & [?|?])]]; try congruence; invc Heq; first [congruence|done]. }
  apply Hred; [exact True|clear Hred].
  destruct (tripped s) as [er|]. { rewrite bool_decide_true in E by done. invc E. split; [done|]. by intros [? _]. }
  rewrite bool_decide_false in E by by intros [].
  pose proof (refreshLocked_wf e s Hw) as W1. pose proof (refreshLocked_cfg e s) as C1.
  destruct (refreshLocked e s) as [[er|] s1]; cbn [snd] in *.
  { invc E. split; [done|]. by intros (_ & ? & ? & _). }
  assert (Hkey : keyLocked s ip = keyLocked s1 ip) by (unfold keyLocked; by rewrite C1). rewrite Hkey in E.
  assert (Hred : (Allow d = true <-> clear_peer e ip s1) -> (Allow d = true <-> None = @None err /\ exists s2, (@None err, s1) = (None, s2) /\ clear_peer e ip s2)).
  { intros ->. split; [eauto|]. intros (_ & s2 & Heq & ?). by invc Heq. }
  apply Hred; clear Hred. unfold clear_peer. rewrite sweepLocked_bans, sweepLocked_cfg in E.
  destruct (bannedLocked _ _ _ _) as [banned|] eqn:Eb.
  { invc E. split; [done|]. intros (H1 & H2 & _). by rewrite (proj2 (bannedLocked_None _ _ _ _) (conj H1 H2)) in Eb. }
  apply bannedLocked_None in Eb as [B1 B2]. case_match eqn:Efull.
  { invc E. split; [done|]. intros (_ & _ & Hx & _). exfalso. apply Hx. by bsimp. }
  assert (Hroom : ~ (tableFull (cfg (sweepLocked (e_now e) s1)) = tableFullRefuse /\
            maxEntries (cfg (sweepLocked (e_now e) s1)) <= zsize (bans (sweepLocked (e_now e) s1)))).
  { rewrite sweepLocked_cfg, sweepLocked_bans. intros [F1 F2]. rewrite bool_decide_true in Efull by done.
    cbn [andb] in Efull. bsimp. lia. }
  destruct (noteRateLocked e _ _ _) as [[[evs1 b] s2] w1] eqn:En.
  apply noteRate_spec in En as (Hb & _ & _); [|by apply sweepLocked_wf|done].
  rewrite !sweepLocked_cfg, ?sweepLocked_bans in *. destruct b; invc E; cbn [Allow].
  - split; [done|]. intros (_ & _ & _ & Hlt). exfalso. destruct Hb as [Hb _]. specialize (Hb eq_refl). lia.
  - split; [intros _|done]. split_and!; [done..|]. destruct Hb as [_ Hb]. apply Z.nle_gt. intros Hle. by specialize (Hb Hle).
Qed.

(** C13: Admit lets a connection through exactly when the jail is off or
    disabled, or the address parses and is in an ignore network, or the jail
    is not tripped, the state file is readable, no active ban covers the
    address or its network, the table is not a full one in refuse mode, and
    this connection stays under the rate limit of the window. *)
Theorem admit_allows_iff e addr s : wf s ->
  Allow (fst (fst (fst (Admit e addr (Some s))))) = true <->
  forceOff s = true \/ enabled (cfg s) = false \/
  exists c ip, parsePeer addr = Some (c, ip) /\
    (ignored (ignore (cfg s)) ip = true \/
     tripped s = None /\ exists s1, refreshLocked e s = (None, s1) /\ clear_peer e ip s1).
Proof. apply admit_allows. Qed.

(** ** A failed write *)

Definition same_conf (s s' : service) : Prop := cfg s' = cfg s /\ forceOff s' = forceOff s.
Definition unwritten (e : env) : Prop := forall mtime size, e_write e <> Written mtime size.

Lemma refreshLocked_conf e s : same_conf s (snd (refreshLocked e s)).
Proof. unfold refreshLocked, trip, same_conf. by repeat case_match. Qed.
Lemma sweepLocked_conf t s : same_conf s (sweepLocked t s).
Proof. unfold sweepLocked, same_conf. by case_match. Qed.
Lemma roomForBanLocked_conf key s : same_conf s (snd (roomForBanLocked key s)).
Proof. unfold roomForBanLocked, same_conf. by repeat case_match. Qed.
Lemma same_conf_trans a b c : same_conf a b -> same_conf b c -> same_conf a c.
Proof. intros [? ?] [? ?]. split; congruence. Qed.

Lemma applyBanLocked_conf e key why t s evs s' w : unwritten e -> applyBanLocked e key why t s = (evs, s', w) ->
  same_conf s s' /\ is_Some (tripped s').
Proof. intros Hu H. apply applyBanLocked_spec in H as (_ & _ & _ & Hc & Hf & Ht & _). split; [done|by apply Ht]. Qed.

Lemma peerLocked_conf e key t s p s' q : peerLocked e key t s = (p, s') -> same_conf s (set_peer key q s').
Proof. intros H. destruct (peerLocked_spec _ _ _ _ _ _ H) as (E & _). rewrite E. done. Qed.

Lemma noteRateLocked_trips e key t s evs b s' w : unwritten e -> noteRateLocked e key t s = (evs, b, s', w) -> evs <> [] ->
  same_conf s s' /\ is_Some (tripped s').
Proof.
  intros Hu H Hne. unfold noteRateLocked in H. destruct (peerLocked e key t s) as [p s1] eqn:Ep. cbn zeta in H.
  case_match; [by invc H|]. set (q := mkPeer _ _) in *.
  pose proof (roomForBanLocked_conf key (set_peer key q s1)) as C2. destruct (roomForBanLocked key _) as [room s2].
  destruct room; [|by invc H]. cbn [negb] in H. destruct (applyBanLocked e key (lit "rate") t s2) as [[evs1 s3] w1] eqn:Ea. invc H.
  apply applyBanLocked_conf in Ea as [C3 Ht]; [|done]. split; [|done].
  eapply same_conf_trans; [by eapply peerLocked_conf|]. by eapply same_conf_trans.
Qed.

Lemma admitLocked_trips e addr s d evs s' w : unwritten e -> admitLocked e addr s = (d, evs, s', w) -> evs <> [] ->
  same_conf s s' /\ is_Some (tripped s').
Proof.
  intros Hu H Hne. unfold admitLocked in H. case_match; [by invc H|]. destruct (parsePeer addr) as [[c ip]|]; [|by invc H].
  cbn zeta in H. case_match; [by invc H|]. case_match; [by invc H|].
  pose proof (refreshLocked_conf e s) as C1. destruct (refreshLocked e s) as [[er|] s1]; cbn [snd] in *; [by invc H|].
  case_match; [by invc H|]. case_match; [by invc H|].
  destruct (noteRateLocked e _ _ _) as [[[evs1 b] s2] w1] eqn:En.
  assert (evs1 = evs /\ s2 = s') as [-> ->] by (by destruct b; invc H).
  apply noteRateLocked_trips in En as [C2 Ht]; [|done|done]. split; [|done].
  eapply same_conf_trans; [done|]. eapply same_conf_trans; [apply sweepLocked_conf|done].
Qed.

Lemma noteHandshakeLocked_trips e addr s evs s' w : unwritten e -> noteHandshakeLocked e addr s = (evs, s', w) -> evs <> [] ->
  same_conf s s' /\ is_Some (tripped s').
Proof.
  intros Hu H Hne. unfold noteHandshakeLocked in H. case_match; [by invc H|].
  pose proof (refreshLocked_conf e s) as C1. destruct (refreshLocked e s) as [[er|] s1]; cbn [snd] in *; [by invc H|].
  destruct (parsePeer addr) as [[c ip]|]; [|by invc H]. case_match; [by invc H|]. cbn zeta in H. case_match; [by invc H|].
  destruct (peerLocked e _ _ _) as [p s2] eqn:Ep. set (q := mkPeer _ _) in *. case_match; [by invc H|].
  pose proof (roomForBanLocked_conf (keyLocked s1 ip) (set_peer (keyLocked s1 ip) q s2)) as C2.
  destruct (roomForBanLocked _ _) as [room s3]. destruct room; [|by invc H]. cbn [negb] in H.
  apply applyBanLocked_conf in H as [C3 Ht]; [|done]. split; [|done].
  eapply same_conf_trans; [done|]. eapply same_conf_trans; [apply sweepLocked_conf|].
  eapply same_conf_trans; [by eapply peerLocked_conf|]. by eapply same_conf_trans.
Qed.

(** C17: When an operation bans a peer and the state file cannot be written,
    then until a reload no operation changes the jail and Admit refuses every
    address that is not in an ignore network. *)
Theorem failed_write_fails_closed e addr s evs s1 w l :
  serving s -> unwritten e ->
  (exists d, Admit e addr (Some s) = (d, evs, Some s1, w)) \/ NoteHandshake e addr false (Some s) = (evs, Some s1, w) ->
  evs <> [] ->
  Forall (fun eo : env * op => snd eo <> OpReload) l ->
  run (Some s1) l = Some s1 /\
  forall e' a, Allow (fst (fst (fst (Admit e' a (Some s1))))) = true <->
               exists c ip, parsePeer a = Some (c, ip) /\ ignored (ignore (cfg s)) ip = true.
Proof.
  intros [Hf He] Hu Hop Hne Hl.
  assert (same_conf s s1 /\ is_Some (tripped s1)) as [[Hc Hf1] [er Ht]].
  { destruct Hop as [[d H]|H]; unfold Admit, NoteHandshake in H; cbn [current] in H.
    - destruct (admitLocked e addr s) as [[[d1 evs1] s2] w1] eqn:E. invc H.
      eapply admitLocked_trips; [done|done|]. by intros ->.
    - destruct (noteHandshakeLocked e addr s) as [[evs1 s2] w1] eqn:E. invc H.
      eapply noteHandshakeLocked_trips; [done|done|]. by intros ->. }
  assert (Hs : serving s1) by (split; congruence). split; [by eapply tripped_run|].
  intros e' a. unfold Admit. cbn [current]. destruct (tripped_admit e' a s1 er Hs Ht) as (d & E & Hd).
  rewrite E. cbn [fst]. by rewrite Hd, Hc.
Qed.

(** ** Eviction *)

Lemma key_ok_nonempty k : key_ok k -> k <> [].
Proof. intros Hk ->. by vm_compute in Hk. Qed.

Lemma pick_spec l : forall oldest u, Forall (fun kb => fst kb <> []) l ->
  let r := foldl pick (oldest, u) l in
  (oldest <> [] -> snd r <= u) /\ Forall (fun kb => snd r <= until (snd kb)) l /\ (r = (oldest, u) \/ exists kb, kb ∈ l /\ r = (fst kb, until (snd kb))).
Proof.
  induction l as [|[addr b] l IH]; intros oldest u Hne; cbn zeta; [cbn; split_and!; [lia|done|by left]|].
  apply Forall_cons in Hne as [Ha Hne]. cbn [fst] in Ha. cbn [foldl pick].
  set (c := bool_decide (oldest = []) || (until b <? u) || _).
  destruct c eqn:Ec; unfold c in Ec.
  - destruct (IH addr (until b) Hne) as (H1 & H2 & H3). specialize (H1 Ha). split_and!.
    + intros Ho. bsimp. destruct Ec as [Ec|Ec]; bsimp; [destruct Ec; bsimp; [done|lia]|lia].
    + by constructor.
    + right. destruct H3 as [->|(kb & Hk & ->)]; [exists (addr, b)|exists kb]; split; try done; by constructor.
  - destruct (IH oldest u Hne) as (H1 & H2 & H3). apply orb_false_iff in Ec as [Ec _]. apply orb_false_iff in Ec as [Eo Eu].
    apply bool_decide_eq_false in Eo. specialize (H1 Eo). bsimp. split_and!; [done| |].
    + constructor; [cbn; lia|done].
    + destruct H3 as [->|(kb & Hk & ->)]; [by left|right]. exists kb. split; [by constructor|done].
Qed.

(** The ban that expires first is in the table. *)
Lemma oldest_ban_spec m : (forall k b, m !! k = Some b -> k <> []) -> m <> ∅ ->
  exists b, m !! oldest_ban m = Some b /\ forall k' b', m !! k' = Some b' -> until b <= until b'.
Proof.
  intros Hne Hm. unfold oldest_ban.
  assert (Hf : Forall (fun kb => fst kb <> []) (map_to_list m)).
  { apply Forall_forall. intros [k b] Hin. apply elem_of_map_to_list in Hin. by eapply Hne. }
  destruct (pick_spec (map_to_list m) [] 0 Hf) as (_ & H2 & H3). rewrite Forall_forall in H2.
  destruct H3 as [E|([k b] & Hin & E)].
  - exfalso. apply map_choose in Hm as (k & b & Hk). apply elem_of_map_to_list in Hk.
    destruct (map_to_list m) as [|[k0 b0] l] eqn:El; [by apply not_elem_of_nil in Hk|].
    cbn [foldl pick] in E. rewrite bool_decide_true in E by done. cbn [orb] in E.
    apply Forall_cons in Hf as [Hk0 Hf]. cbn [fst] in Hk0.
    destruct (pick_spec l k0 (until b0) Hf) as (_ & _ & [E2|(kb & Hin & E2)]); rewrite E in E2; invc E2; [done|].
    rewrite Forall_forall in Hf. by apply (Hf kb Hin).
  - exists b. rewrite E. cbn [fst snd] in *. split; [by apply elem_of_map_to_list|].
    intros k' b' Hk'. apply elem_of_map_to_list in Hk'. specialize (H2 _ Hk'). rewrite E in H2. exact H2.
Qed.

Lemma evict_loop_spec max fuel : forall m, 1 <= max -> (forall k b, m !! k = Some b -> k <> []) -> (size m < fuel)%nat ->
  zsize (evict_loop fuel max m) < max /\
  (max <= zsize m -> zsize (evict_loop fuel max m) = max - 1) /\
  forall k b k' b', m !! k = Some b -> evict_loop fuel max m !! k = None -> evict_loop fuel max m !! k' = Some b' -> until b <= until b'.
Proof.
  induction fuel as [|fuel IH]; intros m Hmax Hne Hfuel; [lia|]. cbn [evict_loop].
  case_match eqn:E; bsimp.
  2: { split_and!; [lia|lia|]. congruence. }
  destruct (oldest_ban_spec m Hne) as (b0 & Hb0 & Hmin).
  { intros ->. unfold zsize in E. rewrite map_size_empty in E. lia. }
  pose proof (zsize_delete m (oldest_ban m)) as Hs. rewrite bool_decide_true in Hs by by eexists.
  destruct (IH (delete (oldest_ban m) m)) as (I1 & I2 & I3); [done| |unfold zsize in Hs; lia|].
  { intros k b Hk. apply lookup_delete_Some in Hk as [_ Hk]. by eapply Hne. }
  split_and!; [done| |].
  - intros _. destruct (decide (max <= zsize m - 1)); [apply I2; lia|].
    assert (evict_loop fuel max (delete (oldest_ban m) m) = delete (oldest_ban m) m) as ->; [|lia].
    destruct fuel; cbn [evict_loop]; [done|]. by assert ((max <=? zsize (delete (oldest_ban m) m)) = false) as -> by lia.
  - intros k b k' b' Hk Hgone Hk'. destruct (decide (k = oldest_ban m)) as [->|Hne'].
    + rewrite Hk in Hb0. invc Hb0. eapply Hmin, lookup_weaken; [done|].
      etransitivity; [apply evict_loop_sub|apply delete_subseteq].
    + eapply I3; [|done|done]. by rewrite lookup_delete_ne by done.
Qed.

(** Making room for a ban ends with room for it, removes nothing when there
    was room, and in a full table in evict mode removes only as many bans as
    needed, none of which expires after a ban that is kept. *)
Theorem room_evicts_earliest key s s' : wf s -> roomForBanLocked key s = (true, s') ->
  bans s' ⊆ bans s /\
  (is_Some (bans s !! key) \/ zsize (bans s') < maxEntries (cfg s)) /\
  forall k b, bans s !! k = Some b -> bans s' !! k = None ->
    tableFull (cfg s) = tableFullEvict /\ zsize (bans s') = maxEntries (cfg s) - 1 /\
  forall k' b', bans s' !! k' = Some b' -> until b <= until b'.
Proof.
  intros [[] W2 W3 W4] H. unfold roomForBanLocked in H. case_match eqn:E.
  { invc H. split_and!; [done| |congruence]. bsimp. destruct E; bsimp; auto. }
  destruct (decide (tableFull (cfg s) = tableFullRefuse)) as [Er|Er]; [by rewrite bool_decide_true in H by done|].
  rewrite bool_decide_false in H by done. invc H. cbn [set_bans bans].
  apply orb_false_iff in E as [_ E]. bsimp.
  destruct (evict_loop_spec (maxEntries (cfg s)) (S (size (bans s))) (bans s)) as (I1 & I2 & I3); [lia| |lia|].
  { intros k b Hk. by apply W2 in Hk as [Hk%key_ok_nonempty _]. }
  pose proof (evict_loop_sub (S (size (bans s))) (maxEntries (cfg s)) (bans s)) as Hsub.
  split_and!; [exact Hsub|by right|]. intros k b Hk Hgone. split_and!; [by destruct ok_full0|by apply I2|].
  intros k' b' Hk'. by eapply I3.
Qed.

(** ** The state file *)

Definition entry (kb : bytes * banRec) : stateBan := mkStateBan (fst kb) (until (snd kb)) (reason (snd kb)).

(** The entries of the document, in key order. *)
Definition doc_entries (t : Z) (m : gmap bytes banRec) : list (bytes * banRec) :=
  omap (fun k => b ← m !! k; Some (k, b)) (sort_strings (map fst (map_to_list (active t m)))).

Lemma state_doc_entries t m : sf_Bans (state_doc t m) = map entry (doc_entries t m).
Proof.
  unfold state_doc, doc_entries. cbn [sf_Bans]. induction (sort_strings _) as [|k l IH]; [done|].
  cbn. destruct (m !! k); cbn; by rewrite IH.
Qed.

Lemma doc_keys_elem t m k : k ∈ sort_strings (map fst (map_to_list (active t m))) <-> is_Some (active t m !! k).
Proof.
  rewrite elem_of_sort_strings. split.
  - intros H. apply list_elem_of_In, in_map_iff in H as ([k' b] & <- & H). apply list_elem_of_In, elem_of_map_to_list in H. by eexists.
  - intros [b Hb]. apply list_elem_of_In, in_map_iff. exists (k, b). split; [done|]. by apply list_elem_of_In, elem_of_map_to_list.
Qed.

Lemma doc_entries_elem t m k b : (k, b) ∈ doc_entries t m <-> active t m !! k = Some b.
Proof.
  unfold doc_entries. rewrite list_elem_of_omap. split.
  - intros (k' & Hk & H). apply doc_keys_elem in Hk as [b' Hb']. pose proof Hb' as Hm.
    apply map_lookup_filter_Some in Hm as [Hm _]. rewrite Hm in H. cbn in H. by invc H.
  - intros H. exists k. split; [apply doc_keys_elem; by eexists|].
    apply map_lookup_filter_Some in H as [H _]. by rewrite H.
Qed.

Lemma doc_entries_keys t m : map fst (doc_entries t m) = sort_strings (map fst (map_to_list (active t m))).
Proof.
  unfold doc_entries. assert (Hs : Forall (fun k => is_Some (m !! k)) (sort_strings (map fst (map_to_list (active t m))))).
  { apply Forall_forall. intros k Hk. apply doc_keys_elem in Hk as [b Hb]. apply map_lookup_filter_Some in Hb as [Hb _]. by eexists. }
  induction Hs as [|k l [b Hb] Hl IH]; [done|]. cbn. rewrite Hb. cbn. by rewrite IH.
Qed.

Lemma doc_entries_NoDup t m : NoDup (map fst (doc_entries t m)).
Proof. rewrite doc_entries_keys. apply NoDup_sort_strings. apply NoDup_fst_map_to_list. Qed.

Lemma doc_entries_map t m : list_to_map (doc_entries t m) = active t m.
Proof.
  apply map_eq. intros k. destruct (active t m !! k) as [b|] eqn:E.
  - apply elem_of_list_to_map_1; [apply doc_entries_NoDup|]. by apply doc_entries_elem.
  - apply not_elem_of_list_to_map_1. intros H. apply list_elem_of_In, in_map_iff in H as ([k' b'] & Ek & H). cbn in Ek. subst k'.
    apply list_elem_of_In, doc_entries_elem in H. congruence.
Qed.

Lemma reason_among r : reason_ok r -> among r ["handshake"; "rate"] = true.
Proof. by intros [-> | ->]. Qed.

(** What the loader accepts of entries that the jail wrote. *)
Lemma parse_bans_written t l : forall out,
  NoDup (map fst l) -> (forall k b, (k, b) ∈ l -> out !! k = None) ->
  (forall k b, (k, b) ∈ l -> key_ok k /\ reason_ok (reason b) /\ until b <> 0 /\ until b <= t + maxBanHorizon) ->
  parse_bans t (map entry l) out = Ok (out ∪ active t (list_to_map l)).
Proof.
  induction l as [|[k b] l IH]; intros out Hnd Hout Hok; cbn [map parse_bans].
  { f_equal. unfold active. cbn. rewrite map_filter_empty. by rewrite map_union_empty. }
  cbn [map fst] in Hnd. apply NoDup_cons in Hnd as [Hnk Hnd].
  destruct (Hok k b) as (K1 & K2 & K3 & K4); [by constructor|]. cbn [entry sb_Addr sb_Reason sb_Until fst snd]. rewrite K1. cbn [rbind].
  assert (Hk : out !! k = None) by (eapply Hout; by constructor).
  rewrite bool_decide_false by (rewrite Hk; by intros []). rewrite reason_among by done. cbn [negb].
  assert ((until b =? 0) = false) as -> by lia. assert ((t + maxBanHorizon <? until b) = false) as -> by lia.
  assert (Hrest : forall k' b', (k', b') ∈ l -> k' <> k).
  { intros k' b' Hin ->. apply Hnk, list_elem_of_In, in_map_iff. exists (k, b'). split; [done|]. by apply list_elem_of_In. }
  assert (Hnone : list_to_map (M := gmap bytes banRec) l !! k = None) by by apply not_elem_of_list_to_map_1.
  rewrite list_to_map_cons. destruct (t <? until b) eqn:Et; cbn [negb]; bsimp.
  - rewrite IH; [|done| |].
    + f_equal. unfold active. rewrite map_filter_insert_True by done.
      rewrite <- insert_union_l, insert_union_r by done. by destruct b.
    + intros k' b' Hin. rewrite lookup_insert_ne by (symmetry; by eapply Hrest). eapply Hout. by constructor.
    + intros k' b' Hin. apply Hok. by constructor.
  - rewrite IH; [|done| |].
    + f_equal. unfold active. rewrite map_filter_insert_False by (cbn; lia). by rewrite delete_id.
    + intros k' b' Hin. eapply Hout. by constructor.
    + intros k' b' Hin. apply Hok. by constructor.
Qed.

(** What the decoder does with a document the encoder wrote. *)
Definition decodes (doc : stateFile) : Prop := json_decode (json_state doc) = Some doc /\ json_rest (json_state doc) = REof.

Lemma active_later t t' m : t <= t' -> active t' (active t m) = active t' m.
Proof.
  intros Ht. unfold active. rewrite map_filter_filter. apply map_filter_ext. intros k b _. cbn. lia.
Qed.

Lemma marshal_Some t s data : marshalStateLocked t s = Some data -> data = json_state (state_doc t (bans s)).
Proof. unfold marshalStateLocked. cbn zeta. case_match; [|done]. by intros [= <-]. Qed.

Lemma persist_file e s er s' data : persistLocked e s = (er, s', Some data) -> data = json_state (state_doc (e_write_now e) (bans s)).
Proof.
  unfold persistLocked. case_match; [done|]. destruct (marshalStateLocked _ _) as [p|] eqn:E; [|done].
  apply marshal_Some in E as ->. by destruct (e_write e); intros H'; invc H'.
Qed.

(** A jail configured from the state file that another jail wrote has exactly
    the bans of that jail that have not expired, given a decoder that reads
    back the document that was encoded and a file within the size limit. *)
Theorem restart_keeps_bans e s er s' data e' opt c on mtime :
  wf s -> persistLocked e s = (er, s', Some data) ->
  (forall k b, bans s !! k = Some b -> until b <= e_load e' + maxBanHorizon) ->
  0 <= e_write_now e <= e_load e' ->
  decodes (state_doc (e_write_now e) (bans s)) ->
  zlen data <= maxStateBytes ->
  ParseSwitch (Switch opt) = Ok (false, on) -> StatePath opt <> [] -> loadConfig (ConfigPath opt) (e_config e') = Ok c ->
  e_open e' = Present (mkFile Regular 384 mtime data) ->
  let '(failure, s2) := Configure e' opt in
  failure = None /\ bans s2 = active (e_load e') (bans s') /\ tripped s2 = None /\ stateSize s2 = zlen data.
Proof.
  intros Hw Hp Hhor Ht [D1 D2] Hlen Hsw Hsp Hcfg Hopen.
  pose proof (persist_file _ _ _ _ _ Hp) as Hdata. destruct (persistLocked_tables _ _ _ _ _ Hp) as (_ & Hb & _).
  assert (Hload : loadState (e_load e') (e_open e') = Ok (active (e_load e') (bans s), mtime, zlen data)).
  { rewrite Hopen. unfold loadState, readRegular. cbn [Open f_kind f_perm].
    assert ((384 =? 384) = true) as -> by done. cbn [negb]. unfold ReadAll. cbn [f_data].
    assert ((maxStateBytes <? zlen data) = false) as -> by lia. cbn [rbind]. unfold parseState. rewrite Hdata, D1, D2. cbn [sf_V].
    change (negb (sf_V (state_doc (e_write_now e) (bans s)) =? stateVersion)) with false. cbn iota.
    rewrite state_doc_entries, parse_bans_written.
    - cbn [rbind]. rewrite doc_entries_map, active_later by lia. by rewrite map_empty_union, <- Hdata.
    - apply doc_entries_NoDup.
    - intros. apply lookup_empty.
    - intros k b Hin. apply doc_entries_elem in Hin. pose proof Hin as Hin2.
      apply map_lookup_filter_Some in Hin as [Hin Hu]. cbn in Hu.
      destruct (wf_bans _ Hw _ _ Hin) as [K1 K2]. split_and!; [done|done|lia|]. by eapply Hhor. }
  unfold Configure. rewrite Hsw. rewrite bool_decide_false by done. rewrite Hcfg. cbn zeta.
  unfold loadOptionalState. rewrite Hload. cbn. by rewrite Hb.
Qed.

Lemma join_length sep n l : 0 <= n -> Forall (fun x => n <= zlen x) l -> n * zlen l <= zlen (GoBytes.join sep l).
Proof.
  intros Hn H. induction H as [|x l Hx Hl IH]; [unfold zlen; cbn; lia|]. destruct l as [|y l].
  - cbn [GoBytes.join]. rewrite zlen_cons, zlen_nil. lia.
  - change (GoBytes.join sep (x :: y :: l)) with (x ++ sep ++ GoBytes.join sep (y :: l)).
    rewrite !zlen_app, zlen_cons. pose proof (zlen_nonneg sep). lia.
Qed.

Lemma json_ban_length b : 30 <= zlen (json_ban b).
Proof.
  unfold json_ban, json_object, member. cbn [app GoBytes.join]. repeat (rewrite zlen_app || rewrite zlen_cons).
  pose proof (zlen_nonneg (json_string (sb_Addr b))). pose proof (zlen_nonneg (json_string (sb_Reason b))).
  pose proof (zlen_nonneg (rfc3339_nano (sb_Until b))).
  repeat match goal with |- context [zlen (json_string (lit ?x))] =>
    let v := eval vm_compute in (zlen (json_string (lit x))) in change (zlen (json_string (lit x))) with v end.
  repeat match goal with |- context [zlen (lit ?x)] =>
    let v := eval vm_compute in (zlen (lit x)) in change (zlen (lit x)) with v end.
  rewrite ?zlen_cons, ?zlen_nil. lia.
Qed.

Lemma json_state_length doc : 30 * zlen (sf_Bans doc) <= zlen (json_state doc).
Proof.
  pose proof (join_length (lit ",") 30 (map json_ban (sf_Bans doc)) ltac:(lia)) as H.
  assert (Hf : Forall (fun x => 30 <= zlen x) (map json_ban (sf_Bans doc))).
  { apply Forall_forall. intros x Hx. apply list_elem_of_In, in_map_iff in Hx as (b & <- & _). apply json_ban_length. }
  specialize (H Hf). unfold json_state, json_object, member. cbn [app GoBytes.join]. repeat (rewrite zlen_app || rewrite zlen_cons).
  unfold zlen in H at 1. rewrite length_map in H. unfold zlen in *. lia.
Qed.

Lemma doc_size t m : zlen (sf_Bans (state_doc t m)) = zsize (active t m).
Proof.
  rewrite state_doc_entries. unfold zlen, zsize. rewrite length_map. f_equal.
  transitivity (length (map fst (doc_entries t m))); [by rewrite length_map|]. rewrite doc_entries_keys.
  rewrite sort_strings_perm. rewrite length_map. by rewrite length_map_to_list.
Qed.

(** A table of 40000 active bans, which max_entries admits, is written without
    an error to a file that the next start refuses as too large: the new jail
    is tripped, not ready and has none of the bans. *)
Theorem oversized_state_trips_restart e s s' data e' opt c on mtime :
  persistLocked e s = (None, s', Some data) -> 40000 <= zsize (active (e_write_now e) (bans s)) ->
  ParseSwitch (Switch opt) = Ok (false, on) -> StatePath opt <> [] -> loadConfig (ConfigPath opt) (e_config e') = Ok c ->
  e_open e' = Present (mkFile Regular 384 mtime data) ->
  let '(failure, s2) := Configure e' opt in
  failure = Some (EFile ErrTooLarge) /\ Ready (Some s2) = Some (EFile ErrTooLarge) /\ bans s2 = ∅.
Proof.
  intros Hp Hsize Hsw Hsp Hcfg Hopen.
  assert (Hbig : (maxStateBytes <? zlen data) = true).
  { rewrite (persist_file _ _ _ _ _ Hp). pose proof (json_state_length (state_doc (e_write_now e) (bans s))) as H.
    rewrite doc_size in H. apply Z.ltb_lt. change maxStateBytes with 1048576. lia. }
  unfold Configure. rewrite Hsw, bool_decide_false by done. rewrite Hcfg. cbn zeta.
  unfold loadOptionalState, loadState, readRegular. rewrite Hopen. cbn [Open f_kind f_perm].
  assert ((384 =? 384) = true) as -> by done. cbn [negb]. unfold ReadAll. cbn [f_data]. rewrite Hbig. cbn. done.
Qed.

(** ** The threshold *)

(** The state file is as the service last saw it. *)
Definition unchanged (e : env) (s : service) : Prop :=
  match e_lstat e with
  | Missing => sawState s = false
  | Fails => False
  | Present f => sawState s = true /\ f_mtime f = stateMtime s /\ zlen (f_data f) = stateSize s
  end.

Lemma refresh_unchanged e s : unchanged e s -> refreshLocked e s = (None, s).
Proof.
  unfold unchanged, refreshLocked. intros H. destruct (forceOff s || bool_decide (statePath s = [])); [done|]. destruct (e_lstat e) as [| |f]; [by rewrite H|done|].
  destruct H as (-> & -> & ->). by rewrite !Z.eqb_refl.
Qed.

Lemma within_app t w a b : within t w (a ++ b) = within t w a ++ within t w b.
Proof. unfold within. induction a as [|x a IH]; [done|]. cbn. case_match; cbn; by rewrite IH. Qed.
Lemma within_within t t' w l : t <= t' -> within t' w (within t w l) = within t' w l.
Proof.
  intros Ht. unfold within. induction l as [|x l IH]; [done|]. cbn [List.filter].
  destruct (t - w <? x) eqn:E; cbn [List.filter]; rewrite IH; [reflexivity|]. bsimp.
  by assert ((t' - w <? x) = false) as -> by lia.
Qed.
Lemma within_nil t w l : (forall x, In x l -> x <= t - w) -> within t w l = [].
Proof.
  unfold within. induction l as [|x l IH]; [done|]. intros H. cbn. assert ((t - w <? x) = false) as ->.
  { specialize (H x (or_introl eq_refl)). lia. } apply IH. intros y Hy. apply H. by right.
Qed.

Lemma last_bound l x : StronglySorted Z.le l -> last l = Some x -> forall y, In y l -> y <= x.
Proof.
  intros Hs. induction Hs as [|a l Hs IH Ha]; intros Hl y Hy; [done|]. destruct l as [|b l].
  - cbn in Hl. invc Hl. destruct Hy as [->|[]]. lia.
  - rewrite last_cons_cons in Hl. destruct Hy as [->|Hy]; [|by apply IH].
    rewrite Forall_forall in Ha. transitivity b; [apply Ha; by constructor|]. apply IH; [done|by left].
Qed.

Lemma idle_strikes c p t : StronglySorted Z.le (strikes p) -> peerIdle c p t = true -> within t (findTime c) (strikes p) = [].
Proof.
  unfold peerIdle, after_last. intros Hs H. apply andb_true_iff in H as [H _]. apply negb_true_iff in H.
  destruct (last (strikes p)) as [x|] eqn:E.
  - apply within_nil. intros y Hy. pose proof (last_bound _ _ Hs E y Hy). bsimp. lia.
  - apply last_None in E. by rewrite E.
Qed.

(** The peer's samples account for the history [h] from time [T] on. *)
Record tracks (s0 : service) (key : bytes) (ip : IP) (T : Z) (h : list Z) (s : service) : Prop := {
  tr_conf : same_conf s0 s;
  tr_tripped : tripped s = None;
  tr_meta : statePath s = statePath s0 /\ sawState s = sawState s0 /\ stateMtime s = stateMtime s0 /\ stateSize s = stateSize s0;
  tr_bans : bans s !! key = None /\ bans s !! canonicalIP ip = None;
  tr_sorted : StronglySorted Z.le (strikes (samples s key)) /\ Forall (fun x => x <= T) (strikes (samples s key));
  tr_window : forall t, T <= t -> within t (findTime (cfg s0)) (strikes (samples s key)) = within t (findTime (cfg s0)) h }.

Lemma active_None t m k : m !! k = None -> active t m !! k = None.
Proof. intros H. unfold active. rewrite map_lookup_filter, H. done. Qed.

Lemma sweep_tracks s0 key ip T h s t : T <= t -> tracks s0 key ip T h s -> tracks s0 key ip t h (sweepLocked t s).
Proof.
  intros Ht [H1 H2 H3 H4 [H5 H5'] H6].
  assert (Hst : (samples (sweepLocked t s) key = samples s key) \/
                (samples (sweepLocked t s) key = mkPeer [] [] /\ within t (findTime (cfg s0)) (strikes (samples s key)) = [])).
  { unfold sweepLocked. case_match; [by left|]. unfold samples. cbn. rewrite map_lookup_filter.
    unfold samples in H5. destruct (peers s !! key) as [p|] eqn:Ep; cbn; [|by left].
    destruct (peerIdle (cfg s) p t) eqn:Ei.
    - right. rewrite option_guard_False by (cbn; congruence). split; [done|].
      destruct H1 as [<- _]. by apply idle_strikes.
    - left. by rewrite option_guard_True by done. }
  split.
  - eapply same_conf_trans; [done|apply sweepLocked_conf].
  - unfold sweepLocked. by case_match.
  - unfold sweepLocked. by case_match.
  - rewrite sweepLocked_bans. destruct H4. by split; apply active_None.
  - destruct Hst as [->|[-> _]]; [|split; constructor]. split; [done|]. eapply Forall_impl; [done|]. cbn. lia.
  - intros t' Ht'. destruct Hst as [->|[-> Hn]]; [apply H6; lia|]. cbn [strikes].
    rewrite <- (within_within t t' _ h) by lia. rewrite <- (H6 t) by lia. by rewrite Hn.
Qed.

Lemma sorted_snoc l t : StronglySorted Z.le l -> Forall (fun x => x <= t) l -> StronglySorted Z.le (l ++ [t]).
Proof.
  intros Hs Hf. induction Hs as [|a l Hs IH Ha]; [repeat constructor|]. apply Forall_cons in Hf as [Hat Hf].
  cbn. constructor; [by apply IH|]. apply Forall_app. split; [done|]. by constructor.
Qed.

Lemma within_sorted t w l : StronglySorted Z.le l -> StronglySorted Z.le (within t w l).
Proof.
  intros Hs. induction Hs as [|a l Hs IH Ha]; [constructor|]. unfold within. cbn. case_match; [|done].
  constructor; [done|]. apply Forall_forall. intros x Hx. apply list_elem_of_In, filter_In in Hx as [Hx _].
  rewrite Forall_forall in Ha. by apply Ha, list_elem_of_In.
Qed.
Lemma within_Forall (P : Z -> Prop) t w l : Forall P l -> Forall P (within t w l).
Proof.
  intros H. apply Forall_forall. intros x Hx. apply list_elem_of_In, filter_In in Hx as [Hx _].
  rewrite Forall_forall in H. by apply H, list_elem_of_In.
Qed.

(** The failures of a history within the window that ends at its last one. *)
Definition failures (w : Z) (h : list Z) (t : Z) : Z := zlen (within t w (h ++ [t])).

Lemma noteHandshake_tracked e addr c ip s0 T h s :
  cfg_ok (cfg s0) -> serving s0 -> tableFull (cfg s0) = tableFullEvict ->
  parsePeer addr = Some (c, ip) -> ignored (ignore (cfg s0)) ip = false ->
  unchanged e s0 -> T <= e_now e ->
  tracks s0 (keyLocked s0 ip) ip T h s ->
  exists evs s' w, noteHandshakeLocked e addr s = (evs, s', w) /\
  if failures (findTime (cfg s0)) h (e_now e) <? maxRetry (cfg s0)
  then evs = [] /\ tracks s0 (keyLocked s0 ip) ip (e_now e) (h ++ [e_now e]) s'
  else evs = [mkEvent (lit "threshold") (keyLocked s0 ip) (lit "handshake"); mkEvent (lit "ban") (keyLocked s0 ip) (lit "handshake")] /\
       bans s' !! keyLocked s0 ip = Some (mkBan (e_now e + banTime (cfg s0)) (lit "handshake")).
Proof.
  intros Hcfg [Sf Se] Hfull Hpp Hig Hun HT Htr. set (key := keyLocked s0 ip) in *. set (t := e_now e) in *.
  pose proof Htr as [[C1 C2] M1 (P1 & P2 & P3 & P4) _ _ _].
  assert (Hun' : unchanged e s) by (unfold unchanged in *; by rewrite P2, P3, P4).
  unfold noteHandshakeLocked. rewrite C1, C2, M1, Sf, Se. cbn [orb negb]. rewrite bool_decide_false by by intros [].
  rewrite refresh_unchanged by done. rewrite Hpp, C1, Hig. cbn zeta.
  assert (Hkey : keyLocked s ip = key) by (unfold key, keyLocked; by rewrite C1). rewrite Hkey. fold t.
  pose proof (sweep_tracks _ _ _ _ _ _ t HT Htr) as Htr1. set (s1 := sweepLocked t s) in *.
  destruct Htr1 as [[D1 D2] N1 N2 [B1 B2] [O1 O2] W1].
  assert (bannedLocked (bans s1) key ip t = None) as ->.
  { unfold s1 in *. rewrite sweepLocked_bans in *. by apply bannedLocked_None. }
  destruct (peerLocked e key t s1) as [p s2] eqn:Ep. pose proof (peerLocked_samples _ _ _ _ _ _ Ep) as ->.
  destruct (peerLocked_spec _ _ _ _ _ _ Ep) as (E2 & _ & _).
  assert (Hc2 : cfg s2 = cfg s0) by (rewrite E2; exact D1).
  set (q := mkPeer _ _). assert (Hcq : cfg (set_peer key q s2) = cfg s0) by exact Hc2. rewrite Hcq. cbn [strikes q].
  assert (Hlen : zlen (strikes q) = Z.min (maxRetry (cfg s0)) (failures (findTime (cfg s0)) h t)).
  { unfold q. cbn [strikes]. destruct Hcfg. rewrite Hc2, appendWindow_length by lia. f_equal.
    unfold failures. rewrite within_app, W1 by lia. rewrite zlen_app. f_equal.
    unfold within at 1. cbn. assert ((t - findTime (cfg s0) <? t) = true) as -> by (apply Z.ltb_lt; unfold Second in *; lia). done. }
  change (appendWindow (strikes (samples s1 key)) t (findTime (cfg s2)) (maxRetry (cfg s2))) with (strikes q). rewrite Hlen.
  destruct (failures (findTime (cfg s0)) h t <? maxRetry (cfg s0)) eqn:Ef; bsimp.
  - assert ((Z.min (maxRetry (cfg s0)) (failures (findTime (cfg s0)) h t) <? maxRetry (cfg s0)) = true) as -> by lia.
    do 3 eexists. split; [done|]. split; [done|].
    assert (Hq : samples (set_peer key q s2) key = q) by (unfold samples; cbn; by rewrite lookup_insert_eq).
    assert (Hqs : strikes q = within t (findTime (cfg s0)) (strikes (samples s1 key)) ++ [t]).
    { unfold q in *. cbn [strikes] in *. rewrite Hc2 in *. unfold appendWindow in *. fold (within t (findTime (cfg s0)) (strikes (samples s1 key))) in *.
      case_match eqn:E; [|done]. bsimp. exfalso. unfold zlen in *. rewrite length_drop in Hlen. lia. }
    split.
    + split; [exact Hcq|]. cbn. rewrite E2. exact D2.
    + cbn. rewrite E2. exact N1.
    + cbn. rewrite E2. exact N2.
    + cbn. rewrite E2. by split.
    + rewrite Hq, Hqs. split.
      * apply sorted_snoc; [by apply within_sorted|by apply within_Forall].
      * apply Forall_app. split; [by apply within_Forall|]. repeat constructor. lia.
    + intros t' Ht'. rewrite Hq, Hqs, !within_app, within_within by lia. by rewrite W1.
  - assert ((Z.min (maxRetry (cfg s0)) (failures (findTime (cfg s0)) h t) <? maxRetry (cfg s0)) = false) as -> by lia.
    pose proof (roomForBan_true key (set_peer key q s2)) as Hr. rewrite Hcq, Hfull in Hr.
    pose proof (roomForBanLocked_conf key (set_peer key q s2)) as [Cr _].
    destruct (roomForBanLocked key _) as [room s3]. cbn [fst snd] in *. rewrite Hr by by intros [? _]. cbn [negb].
    destruct (applyBanLocked e key (lit "handshake") t s3) as [[evs s4] w] eqn:Ea.
    apply applyBanLocked_spec in Ea as (-> & Hb & _). do 3 eexists. split; [done|]. split; [done|].
    rewrite Hb, lookup_insert_eq, Cr. by rewrite Hcq.
Qed.

(** The failures of one address, one after the other. *)
Definition fail_ops (addr : bytes) (es : list env) : list (env * op) := map (fun e => (e, OpNote addr false)) es.

(** Times that do not go back, from [T] on. *)
Fixpoint clocked (T : Z) (es : list env) : Prop :=
  match es with [] => True | e :: es' => T <= e_now e /\ clocked (e_now e) es' end.

(** No failure of [es], after the history [h], reaches the limit. *)
Fixpoint below (c : config) (h : list Z) (es : list env) : Prop :=
  match es with
  | [] => True
  | e :: es' => failures (findTime c) h (e_now e) < maxRetry c /\ below c (h ++ [e_now e]) es'
  end.

Lemma last_cons_default (x : Z) l d : List.last (x :: l) d = List.last l x.
Proof. revert x d. induction l as [|y l IH]; intros x d; [done|]. change (List.last (x :: y :: l) d) with (List.last (y :: l) d). by rewrite !IH. Qed.

Lemma run_below addr c ip s0 es : forall T h s,
  cfg_ok (cfg s0) -> serving s0 -> tableFull (cfg s0) = tableFullEvict ->
  parsePeer addr = Some (c, ip) -> ignored (ignore (cfg s0)) ip = false ->
  Forall (fun e => unchanged e s0) es -> clocked T es -> below (cfg s0) h es ->
  tracks s0 (keyLocked s0 ip) ip T h s ->
  exists s', run (Some s) (fail_ops addr es) = Some s' /\
    tracks s0 (keyLocked s0 ip) ip (List.last (map e_now es) T) (h ++ map e_now es) s'.
Proof.
  induction es as [|e es IH]; intros T h s Hc Hs Hf Hp Hi Hu Hclk Hb Htr.
  { exists s. split; [done|]. by rewrite app_nil_r. }
  apply Forall_cons in Hu as [Hu1 Hu]. destruct Hclk as [HT Hclk]. destruct Hb as [Hb1 Hb].
  destruct (noteHandshake_tracked e addr c ip s0 T h s) as (evs & s1 & w & E & H1); [done..|].
  rewrite (proj2 (Z.ltb_lt _ _) Hb1) in H1. destruct H1 as [_ H1].
  cbn [fail_ops map run foldl step]. unfold NoteHandshake. cbn [current]. rewrite E.
  destruct (IH (e_now e) (h ++ [e_now e]) s1) as (s' & E' & H'); [done..|]. exists s'. split; [done|].
  rewrite <- app_assoc in H'. cbn [map]. by rewrite last_cons_default.
Qed.

(** Whatever else is in the tables, the failures of an address below the limit
    ban nothing, and the failure that makes max_retry of them within find_time
    bans the key of the address until ban_time later and records both events;
    idle sweeps and the cap on samples do not change this count. *)
Theorem handshake_threshold addr c ip s0 es e :
  wf s0 -> serving s0 -> tripped s0 = None -> tableFull (cfg s0) = tableFullEvict ->
  parsePeer addr = Some (c, ip) -> ignored (ignore (cfg s0)) ip = false ->
  let key := keyLocked s0 ip in
  bans s0 !! key = None -> bans s0 !! canonicalIP ip = None -> peers s0 !! key = None ->
  Forall (fun e => unchanged e s0) (es ++ [e]) -> clocked 0 (es ++ [e]) -> below (cfg s0) [] es ->
  exists s1 s2 w, run (Some s0) (fail_ops addr es) = Some s1 /\
    NoteHandshake e addr false (Some s1) =
      (if failures (findTime (cfg s0)) (map e_now es) (e_now e) <? maxRetry (cfg s0) then []
       else [mkEvent (lit "threshold") key (lit "handshake"); mkEvent (lit "ban") key (lit "handshake")], Some s2, w) /\
    bans s2 !! key = (if failures (findTime (cfg s0)) (map e_now es) (e_now e) <? maxRetry (cfg s0) then None
                      else Some (mkBan (e_now e + banTime (cfg s0)) (lit "handshake"))).
Proof.
  intros Hw Hs Ht Hfull Hpp Hig key Hb1 Hb2 Hnp Hun Hclk Hbelow. apply Forall_app in Hun as [Hun1 Hun2].
  apply Forall_cons in Hun2 as [Hun2 _].
  assert (Htr0 : tracks s0 key ip 0 [] s0).
  { split; [done|done|done|done| |]; unfold samples; rewrite Hnp; [split; constructor|done]. }
  assert (Hclk2 : clocked 0 es /\ List.last (map e_now es) 0 <= e_now e).
  { clear -Hclk. revert Hclk. generalize 0. induction es as [|e0 es IH]; intros T H; cbn [clocked app map] in *; [cbn; lia|].
    destruct H as [HT H]. apply IH in H as [H1 H2]. split; [done|]. by rewrite last_cons_default. }
  destruct Hclk2 as [Hclk1 Hlast].
  destruct (run_below addr c ip s0 es 0 [] s0) as (s1 & E1 & Htr); [by destruct Hw|done..|]. cbn [app] in Htr.
  destruct (noteHandshake_tracked e addr c ip s0 _ _ s1 (wf_cfg _ Hw) Hs Hfull Hpp Hig Hun2 Hlast Htr) as (evs & s2 & w & E & H).
  exists s1, s2, w. split; [done|]. unfold NoteHandshake. cbn [current]. rewrite E. fold key in H.
  case_match.
  - destruct H as [-> H]. split; [done|]. by destruct (tr_bans _ _ _ _ _ _ H).
  - destruct H as [-> H]. split; [|done]. rewrite emitAll_ban; [done| |by left].
    apply key_plain; [by destruct Hw|by eapply parsePeer_ip16].
Qed.

(** ** Bans end *)

(** For every well-formed serving jail and address there is a time from which
    Admit lets the address in while the state file is undisturbed, so no ban
    and no full table lasts for ever, provided rate_limit is more than one. *)
Theorem ban_expires s addr c ip :
  wf s -> serving s -> tripped s = None -> parsePeer addr = Some (c, ip) -> 1 < rateLimit (cfg s) ->
  exists t0, forall e, unchanged e s -> t0 <= e_now e -> Allow (fst (fst (fst (Admit e addr (Some s))))) = true.
Proof.
  intros Hw [Hf He] Ht Hpp Hrl.
  exists (Z.max (map_fold (fun _ b acc => Z.max (until b) acc) 0 (bans s))
            (map_fold (fun _ p acc => Z.max (foldr Z.max 0 (rates p) + rateWindow (cfg s)) acc) 0 (peers s))).
  intros e Hu Hle. apply admit_allows; [done|]. right; right. exists c, ip. split; [done|]. right. split; [done|].
  exists s. split; [by apply refresh_unchanged|]. unfold clear_peer. cbn zeta.
  set (t := e_now e) in *. set (key := keyLocked s ip).
  assert (Hempty : active t (bans s) = ∅).
  { apply map_eq. intros k. rewrite lookup_empty. unfold active. rewrite map_lookup_filter.
    destruct (bans s !! k) as [b|] eqn:Eb; [|done]. cbn. rewrite option_guard_False; [done|]. cbn.
    assert (until b <= map_fold (fun _ b acc => Z.max (until b) acc) 0 (bans s)); [|lia].
    clear -Eb. revert Eb. apply (map_fold_weak_ind (fun r m => m !! k = Some b -> until b <= r)); [by rewrite lookup_empty|].
    intros i x m r Hi IH Hk. destruct (decide (i = k)) as [->|Hne].
    - rewrite lookup_insert_eq in Hk. invc Hk. lia.
    - rewrite lookup_insert_ne in Hk by done. specialize (IH Hk). lia. }
  rewrite Hempty, !lookup_empty. split_and!; [done|done| |].
  - intros [_ H]. unfold zsize in H. rewrite map_size_empty in H. destruct (wf_cfg _ Hw). lia.
  - assert (Hr : within t (rateWindow (cfg s)) (rates (samples (sweepLocked t s) key)) = []); [|by rewrite Hr, zlen_nil].
    apply within_nil. intros x Hx.
    assert (Hs : exists p, peers s !! key = Some p /\ In x (rates p)).
    { unfold samples in Hx. destruct (peers (sweepLocked t s) !! key) as [p|] eqn:Ep; [|done]. exists p. split; [|done].
      unfold sweepLocked in Ep. destruct (time_sub _ _ <? _); [done|]. cbn in Ep.
      by apply map_lookup_filter_Some in Ep as [Ep _]. }
    destruct Hs as (p & Hp & Hin).
    assert (x <= foldr Z.max 0 (rates p)).
    { clear -Hin. induction (rates p) as [|y l IH]; [done|]. cbn. destruct Hin as [->|Hin]; [lia|]. specialize (IH Hin). lia. }
    assert (foldr Z.max 0 (rates p) + rateWindow (cfg s) <=
            map_fold (fun _ p acc => Z.max (foldr Z.max 0 (rates p) + rateWindow (cfg s)) acc) 0 (peers s)); [|lia].
    clear -Hp. revert Hp.
    apply (map_fold_weak_ind (fun r m => m !! key = Some p -> foldr Z.max 0 (rates p) + rateWindow (cfg s) <= r)); [by rewrite lookup_empty|].
    intros i y m r Hi IH Hk. destruct (decide (i = key)) as [->|Hne].
    + rewrite lookup_insert_eq in Hk. invc Hk. lia.
    + rewrite lookup_insert_ne in Hk by done. specialize (IH Hk). lia.
Qed.

(** ** Concrete runs *)

Definition quiet_env (t : Z) (w : write) : env :=
  mkEnv t t t Missing Missing Missing w (fun m => map fst (map_to_list m)).
Definition seen_env (t : Z) (mtime size : Z) : env :=
  mkEnv t t t (Present (mkFile Regular 384 mtime (repeat "0"%char (Z.to_nat size)))) Missing Missing WriteFails
    (fun m => map fst (map_to_list m)).

Lemma quiet_env_ok t w : env_ok (quiet_env t w).
Proof.
  intros m k. cbn. split.
  - intros H. apply list_elem_of_In, in_map_iff in H as ([k' p] & <- & H). apply list_elem_of_In, elem_of_map_to_list in H. by eexists.
  - intros [p Hp]. apply list_elem_of_In, in_map_iff. exists (k, p). split; [done|]. by apply list_elem_of_In, elem_of_map_to_list.
Qed.

Definition tight (limit retry ban : Z) : config :=
  mkConfig true Minute retry ban limit Minute 10 tableFullEvict 64 [] [].
Definition jail (c : config) : service := mkService true c [] (lit "/s") false false None false 0 (-1) ∅ ∅ 0.
Definition day : Z := 700000 * 24 * Hour.
Definition peer1 : bytes := lit "203.0.113.9:4711".

(** With ban_time of one second and rate_limit two per minute, a connection
    four seconds after a rate ban has expired is refused and banned again. *)
Example expired_rate_ban_renewed :
  let '(d1, _, s1, _) := Admit (quiet_env day WriteFails) peer1 (Some (jail (tight 2 5 Second))) in
  let '(d2, _, s2, _) := Admit (quiet_env (day + 1) (Written 7 9)) peer1 s1 in
  let '(d3, ev3, s3, _) := Admit (seen_env (day + 5 * Second) 7 9) peer1 s2 in
  Allow d1 = true /\ Reason d2 = lit "rate" /\
  (forall s, s2 = Some s -> bans s !! lit "203.0.113.9" = Some (mkBan (day + 1 + Second) (lit "rate"))) /\
  Allow d3 = false /\ Reason d3 = lit "rate" /\
  ev3 = [mkEvent (lit "threshold") (lit "203.0.113.9") (lit "rate"); mkEvent (lit "ban") (lit "203.0.113.9") (lit "rate")].
Proof. vm_compute. split_and!; try reflexivity. intros s [= <-]. reflexivity. Qed.
End Laws.

(** Decoders that know one document each. *)
Definition one_document (doc : stateFile) : Decoders :=
  {| yaml_decode := fun _ => Ok (mkFileConfig (Some true) None (Some 3) None None None None None None (Some []));
     yaml_rest := fun _ => REof; yaml_node := fun _ => None;
     json_decode := fun data => if bool_decide (data = json_state doc) then Some doc else None;
     json_rest := fun _ => REof |}.

Lemma one_document_decodes doc : @decodes (one_document doc) doc.
Proof. split; [|done]. cbn. by rewrite bool_decide_true. Qed.

Definition no_document : Decoders := one_document (mkStateFile 1 []).

Lemma tight_ok limit retry : 1 <= limit <= 10000 -> 1 <= retry <= 100 -> cfg_ok (tight limit retry Hour).
Proof. intros ? ?. split; cbn; first [by left | done | vm_compute; split; congruence]. Qed.

Lemma jail_wf c : cfg_ok c -> wf (jail c).
Proof. intros Hc. apply empty_wf; [done|apply map_Forall_empty|done]. Qed.

Lemma jail_well_formed_witness :
  svc_wf (@run no_document None [(quiet_env day WriteFails, OpAdmit peer1)]) /\
  svc_wf (@run no_document (Some (snd (@Configure no_document (quiet_env day WriteFails) (mkOptions [] (lit "/s") []))))
            [(quiet_env day WriteFails, OpAdmit peer1)]).
Proof. apply (@jail_well_formed no_document). constructor; [apply quiet_env_ok|constructor]. Defined.

Lemma admit_allows_iff_witness :
  Allow (fst (fst (fst (@Admit no_document (quiet_env day WriteFails) peer1 (Some (jail (tight 2 5 Hour))))))) = true.
Proof.
  apply (@admit_allows_iff no_document); [apply jail_wf, tight_ok; lia|]. right; right.
  exists (lit "203.0.113.9"), (v4InV6Prefix ++ [203; 0; 113; 9]). split; [by vm_compute|]. right. split; [done|].
  exists (jail (tight 2 5 Hour)). split; [done|]. vm_compute. split_and!; try done; intros [? ?]; done.
Defined.

Lemma failed_write_fails_closed_witness :
  exists s1, @run no_document (Some s1) [(quiet_env day WriteFails, OpStatus)] = Some s1 /\
  Allow (fst (fst (fst (@Admit no_document (quiet_env day WriteFails) (lit "198.51.100.7:22") (Some s1))))) = false.
Proof.
  assert (exists evs s1 w, @NoteHandshake no_document (quiet_env day WriteFails) peer1 false (Some (jail (tight 2 1 Hour)))
            = (evs, Some s1, w) /\ evs <> []) as (evs & s1 & w & E & Hne).
  { do 3 eexists. split; [vm_compute; reflexivity|done]. }
  destruct (@failed_write_fails_closed no_document (quiet_env day WriteFails) peer1 (jail (tight 2 1 Hour)) evs s1 w
              [(quiet_env day WriteFails, OpStatus)]) as [H1 H2]; [by split|done|by right|exact Hne|by repeat constructor|].
  exists s1. split; [exact H1|]. apply not_true_iff_false. intros H. apply H2 in H as (c & ip & _ & H). done.
Defined.

Definition two_bans : service :=
  set_bans {[lit "192.0.2.1" := mkBan 5 (lit "rate"); lit "192.0.2.2" := mkBan 9 (lit "rate")]}
    (jail (mkConfig true Minute 5 Hour 30 Minute 2 tableFullEvict 64 [] [])).

Lemma two_bans_wf : wf two_bans.
Proof.
  apply empty_wf; [| |done].
  - split; cbn; first [by left | done | vm_compute; split; congruence].
  - cbn. repeat (apply map_Forall_insert_2; [split; [by vm_compute|by right]|]).
    apply map_Forall_empty.
Qed.

Lemma room_evicts_earliest_witness :
  exists s', roomForBanLocked (lit "192.0.2.3") two_bans = (true, s') /\ bans s' !! lit "192.0.2.2" = Some (mkBan 9 (lit "rate")) /\ zsize (bans s') = 1.
Proof.
  assert (exists s', roomForBanLocked (lit "192.0.2.3") two_bans = (true, s') /\ bans s' !! lit "192.0.2.1" = None /\ bans s' !! lit "192.0.2.2" = Some (mkBan 9 (lit "rate"))) as (s' & E & Hgone & Hkept).
  { eexists. split; [vm_compute; reflexivity|]. by split; vm_compute. }
  destruct (room_evicts_earliest (lit "192.0.2.3") two_bans s' two_bans_wf E) as (_ & _ & Hmin).
  destruct (Hmin (lit "192.0.2.1") (mkBan 5 (lit "rate"))) as (_ & Hz & _); [by vm_compute|exact Hgone|].
  exists s'. split; [exact E|]. split; [exact Hkept|exact Hz].
Defined.

Lemma handshake_threshold_witness :
  exists s2 w, @NoteHandshake no_document (quiet_env (day + 1) (Written 7 9)) peer1 false
     (@run no_document (Some (jail (tight 30 2 Hour))) (fail_ops peer1 [quiet_env day WriteFails]))
  = ([mkEvent (lit "threshold") (lit "203.0.113.9") (lit "handshake"); mkEvent (lit "ban") (lit "203.0.113.9") (lit "handshake")], Some s2, w).
Proof.
  destruct (@handshake_threshold no_document peer1 (lit "203.0.113.9") (v4InV6Prefix ++ [203; 0; 113; 9]) (jail (tight 30 2 Hour))
             [quiet_env day WriteFails] (quiet_env (day + 1) (Written 7 9))) as (s1 & s2 & w & H1 & H2 & _);
    try first [done | apply jail_wf, tight_ok; lia | by repeat constructor | by vm_compute].
  exists s2, w. rewrite H1. exact H2.
Defined.

Lemma ban_expires_witness :
  exists t0, forall e, unchanged e (jail (tight 2 5 Hour)) -> t0 <= e_now e ->
    Allow (fst (fst (fst (@Admit no_document e peer1 (Some (jail (tight 2 5 Hour))))))) = true.
Proof.
  apply (@ban_expires no_document _ peer1 (lit "203.0.113.9") (v4InV6Prefix ++ [203; 0; 113; 9]));
    [apply jail_wf, tight_ok; lia|done|done|by vm_compute|done].
Defined.

(** A jail with one ban, and what it writes. *)
Definition banned_jail : service :=
  set_bans {[lit "2001:db8::/64" := mkBan (day + Hour) (lit "rate")]} (jail (tight 2 5 Hour)).
Definition banned_doc : stateFile := state_doc day (bans banned_jail).
Definition restart_env : env :=
  mkEnv (day + 1) (day + 1) (day + 1) Missing (Present (mkFile Regular 384 7 (json_state banned_doc))) Missing WriteFails
    (fun m => map fst (map_to_list m)).

Lemma restart_keeps_bans_witness :
  bans (snd (@Configure (one_document banned_doc) restart_env (mkOptions [] (lit "/s") []))) !! lit "2001:db8::/64"
  = Some (mkBan (day + Hour) (lit "rate")).
Proof.
  assert (Hw : wf banned_jail).
  { apply empty_wf; [apply tight_ok; lia| |done]. apply map_Forall_singleton. split; [by vm_compute|by right]. }
  destruct (persistLocked (quiet_env day (Written 7 9)) banned_jail) as [[er s'] w] eqn:Ep.
  pose proof (@restart_keeps_bans (one_document banned_doc) (quiet_env day (Written 7 9)) banned_jail er s' (json_state banned_doc)
    restart_env (mkOptions [] (lit "/s") []) defaultConfig false 7 Hw) as H.
  destruct (@Configure (one_document banned_doc) restart_env (mkOptions [] (lit "/s") [])) as [f s2].
  assert (w = Some (json_state banned_doc)) as -> by (vm_compute in Ep |- *; by injection Ep as <- <- <-).
  assert (bans s' = bans banned_jail) as Hb by (by apply persistLocked_tables in Ep as (_ & ? & _)).
  destruct H as (_ & H & _); [exact Ep| | |apply one_document_decodes| |done|done|done|done|].
  - intros k b Hk. cbn in Hk. apply lookup_singleton_Some in Hk as [_ <-]. by vm_compute.
  - change (0 <= day <= day + 1). split; [by vm_compute|lia].
  - apply Z.leb_le. vm_compute. reflexivity.
  - cbn [snd]. rewrite H, Hb. vm_compute. reflexivity.
Defined.

(** A table of one ban per number. *)
Definition bans_for (l : list Z) : gmap bytes banRec :=
  list_to_map (map (fun i => (dec i, mkBan (day + Hour) (lit "rate"))) l).

Lemma dec_inj i j : dec i = dec j -> i = j.
Proof.
  unfold dec, lit. intros H. apply (inj pretty).
  rewrite <- (string_of_list_ascii_of_string (pretty i)), <- (string_of_list_ascii_of_string (pretty j)). by rewrite H.
Qed.

Lemma bans_for_until l k b : bans_for l !! k = Some b -> until b = day + Hour.
Proof.
  unfold bans_for. intros H. apply elem_of_list_to_map_2, list_elem_of_In, in_map_iff in H as (i & H & _). by invc H.
Qed.

Lemma bans_for_size l : NoDup l -> zsize (active day (bans_for l)) = zlen l.
Proof.
  intros Hl. unfold active. rewrite map_filter_id.
  - unfold bans_for, zsize. rewrite <- length_map_to_list, map_to_list_to_map; [by rewrite length_map|].
    rewrite <- list_fmap_compose. apply NoDup_fmap_2; [|done]. intros i j. apply dec_inj.
  - intros k b H. cbn. rewrite (bans_for_until l k b H). by vm_compute.
Qed.

Lemma uniform_persists m : (forall k b, m !! k = Some b -> until b = day + Hour) ->
  exists s' data, persistLocked (quiet_env day (Written 7 9)) (set_bans m (jail (tight 2 5 Hour))) = (None, s', Some data).
Proof.
  intros Hm. unfold persistLocked. rewrite bool_decide_false by done. unfold marshalStateLocked. cbn zeta.
  cbn [e_write_now quiet_env bans set_bans e_write].
  assert (forallb (fun b => year_fits (sb_Until b)) (sf_Bans (state_doc day m)) = true) as Hf.
  { rewrite state_doc_entries. apply forallb_forall. intros b Hb. apply in_map_iff in Hb as ([k r] & <- & Hb).
    apply list_elem_of_In, doc_entries_elem, map_lookup_filter_Some in Hb as [Hb _]. cbn [entry sb_Until snd].
    rewrite (Hm _ _ Hb). by vm_compute. }
  rewrite Hf. do 2 eexists. reflexivity.
Qed.

Lemma oversized_state_trips_restart_witness :
  exists data, Ready (Some (snd (@Configure no_document
    (mkEnv day day day Missing (Present (mkFile Regular 384 7 data)) Missing WriteFails (fun m => []))
    (mkOptions [] (lit "/s") [])))) = Some (EFile ErrTooLarge).
Proof.
  destruct (uniform_persists (bans_for (seqZ 0 40000)) (bans_for_until _)) as (s' & data & Hp). exists data.
  pose proof (@oversized_state_trips_restart no_document _ _ _ data
    (mkEnv day day day Missing (Present (mkFile Regular 384 7 data)) Missing WriteFails (fun m => []))
    (mkOptions [] (lit "/s") []) defaultConfig false 7 Hp) as H.
  destruct (@Configure no_document _ _) as [f s2].
  destruct H as (_ & H & _); [|done..|exact H].
  change (active _ (bans _)) with (active day (bans_for (seqZ 0 40000))).
  rewrite bans_for_size by apply NoDup_seqZ. unfold zlen. rewrite length_seqZ, Z2Nat.id by lia. done.
Defined.
