(* ===== verification/Grid.v ===== *)
(** * Grid membership and agent flights

    internal/grid/grid_ee.go: the membership of one process, the flights it
    holds with their agent and worktree ids, the operations on them over the
    session table and the agent budgets, the HTTP handler of a peer, and the
    scratch worktrees.  The locked regions are sections that any interleaving
    of operations runs one at a time. *)

From S2P Require Import Prelude GoBytes GoTime GoPath MonitorProto Policy Session AdminPlane SafeFile.
#[local] Open Scope Z_scope.
#[local] Arguments lit : simpl never.

(** ** Data *)

Definition gridPeerUser : bytes := lit "grid-peer".
Definition gridMaxFlights : Z := 64.
Definition gridMaxBody : Z := 64 * 1024.
Definition gridMaxCA : Z := Z.shiftl 1 20.
Definition gridMaxTokenFile : Z := 4096.
Definition gridMaxCat : Z := Z.shiftl 1 20.
Definition gridMaxArgs : Z := 32.
Definition gridMaxArgLen : Z := 256.
Definition gridCancelledRetention : Z := Hour.
Definition worktreeDestroying : bytes := byte_of 0 :: lit "destroying".

Definition validGridID (id : bytes) : bool := roleNamePattern id.

(** [*security.Engine] as the grid uses it, at the time of a call. *)
Record Gate := mkGate {
  PolicyLoaded : bool;
  BuildPolicyContext : bytes -> list bytes -> bytes -> PolicyContext;
  EvaluatePolicy : PolicyContext -> option (bool * bytes) }.
Definition gateReady (g : option Gate) : bool := match g with Some g => PolicyLoaded g | None => false end.

(** The status 0 is a plain error. *)
Record gridError := mkErr { e_Status : Z; e_msg : bytes }.
Definition gridErr (status : Z) (msg : string) : gridError := mkErr status (lit msg).

Inductive flightStatusCode := Placed | Rehearsed | Denied | Canceled.
#[export] Instance flightStatusCode_eq_dec : EqDecision flightStatusCode.
Proof. solve_decision. Defined.
Definition status_text (s : flightStatusCode) : bytes :=
  match s with Placed => lit "placed" | Rehearsed => lit "rehearsed" | Denied => lit "denied" | Canceled => lit "cancelled" end.

Record flightRecord := mkFlight {
  fl_ID : bytes; fl_AgentID : bytes; fl_WorktreeID : bytes; fl_SessionID : bytes; fl_User : bytes;
  fl_Status : flightStatusCode; fl_Reason : bytes; fl_ExpiresAt : Z; fl_Remote : bool;
  fl_Source : bytes; fl_CancelledAt : Z }.

(** A token is known by its digest in hex; [None] is a digest of the wrong size. *)
Record gridMembership := mkMember {
  gm_id : bytes; gm_tokenHash : option bytes; gm_drained : bool; gm_listenURL : bytes; gm_listening : bool;
  gm_gate : option Gate; gm_flights : gmap bytes flightRecord;
  gm_agents : gmap bytes bytes; gm_worktrees : gmap bytes bytes; gm_sessions : gmap bytes bytes }.

(** The grid of the process with the session table and the budgets it shares. *)
Record gridState := mkGrid {
  st_member : option gridMembership; st_scratchRoot : bytes; st_gate : option Gate;
  st_reg : registry; st_budgets : budgets }.

Definition with_member (m : option gridMembership) (st : gridState) : gridState :=
  mkGrid m (st_scratchRoot st) (st_gate st) (st_reg st) (st_budgets st).
Definition with_reg (r : registry) (st : gridState) : gridState :=
  mkGrid (st_member st) (st_scratchRoot st) (st_gate st) r (st_budgets st).
Definition with_budgets (b : budgets) (st : gridState) : gridState :=
  mkGrid (st_member st) (st_scratchRoot st) (st_gate st) (st_reg st) b.
Definition with_tables (fl : gmap bytes flightRecord) (ag wt se : gmap bytes bytes) (m : gridMembership) : gridMembership :=
  mkMember (gm_id m) (gm_tokenHash m) (gm_drained m) (gm_listenURL m) (gm_listening m) (gm_gate m) fl ag wt se.
Definition with_flights (fl : gmap bytes flightRecord) (m : gridMembership) : gridMembership :=
  with_tables fl (gm_agents m) (gm_worktrees m) (gm_sessions m) m.
Definition with_worktrees (wt : gmap bytes bytes) (m : gridMembership) : gridMembership :=
  with_tables (gm_flights m) (gm_agents m) wt (gm_sessions m) m.
Definition set_drained (m : gridMembership) : gridMembership :=
  mkMember (gm_id m) (gm_tokenHash m) true (gm_listenURL m) (gm_listening m) (gm_gate m)
    (gm_flights m) (gm_agents m) (gm_worktrees m) (gm_sessions m).
Definition set_status (s : flightStatusCode) (reason : bytes) (f : flightRecord) : flightRecord :=
  mkFlight (fl_ID f) (fl_AgentID f) (fl_WorktreeID f) (fl_SessionID f) (fl_User f) s reason (fl_ExpiresAt f)
    (fl_Remote f) (fl_Source f) (fl_CancelledAt f).

(** A lookup of a Go map with string values. *)
Definition at_key (m : gmap bytes bytes) (k : bytes) : bytes := default [] (m !! k).
Definition notInitialized : gridError := gridErr 0 "grid: not initialized".

Record flightWire := mkWire {
  w_Action : bytes; w_FlightID : bytes; w_AgentID : bytes; w_WorktreeID : bytes; w_TTLSeconds : Z;
  w_Rehearsal : bool; w_Command : list bytes; w_User : bytes }.
Record flightResult := mkResult { r_Status : bytes; r_Reason : bytes; r_SessionID : bytes; r_FlightID : bytes }.
Record placeOpts := mkOpts {
  o_FlightID : bytes; o_AgentID : bytes; o_WorktreeID : bytes; o_TTL : Z; o_User : bytes; o_SponsorSession : bytes;
  o_Remote : bool; o_Gate : option Gate; o_Source : bytes }.

(** ** Tokens *)

Section Tokens.
Context `{Sha256}.

Definition fingerprintToken (token : bytes) : bytes := sha256_hex token.

(** The trimmed token and its digest. *)
Definition loadMembershipToken (look : disk) : option (bytes * bytes) :=
  match Open look with
  | Err _ => None
  | Ok f =>
      if negb (Z.land (f_perm f) 63 =? 0) then None
      else if gridMaxTokenFile <? zlen (f_data f) then None
      else let trimmed := trim_space (f_data f) in Some (trimmed, sha256_hex trimmed)
  end.

Definition gridTokenMatches (stored : option bytes) (bearer : bytes) : bool :=
  match stored with
  | None => false
  | Some h => negb (bool_decide (bearer = []) || (gridMaxTokenFile <? zlen bearer))
              && bool_decide (h = sha256_hex (trim_space bearer))
  end.

(** How [writeMembershipToken] ends: the file made, written, closed and its
    mode set. *)
Definition writeMembershipToken (encoded : bytes) (created written chmod : bool) : option bytes :=
  if negb created then None
  else if negb written then None
  else if negb chmod then None
  else Some (fingerprintToken encoded).

(** [token] is the file of --token-file or the outcome of --token-out;
    [random] is what an empty id becomes. *)
Definition initGrid (id tokenFile tokenOut : bytes) (random : bytes) (look : disk) (out : option bytes) (st : gridState)
  : result gridError (bytes * bytes) * gridState :=
  let fails msg := (Err (gridErr 0 msg), st) in
  if negb (bool_decide (tokenFile = [])) && negb (bool_decide (tokenOut = [])) then fails "grid: --token-file and --token-out cannot be combined"%string
  else if bool_decide (tokenFile = []) && bool_decide (tokenOut = []) then fails "grid: --token-file or --token-out is required"%string
  else if negb (bool_decide (id = [])) && negb (validGridID id) then fails "grid: invalid id"%string
  else match st_member st with
  | Some _ => fails "grid: already initialized"%string
  | None =>
      let id := if bool_decide (id = []) then random else id in
      match (if bool_decide (tokenFile = []) then out else snd <$> loadMembershipToken look) with
      | None => fails "grid: token file"%string
      | Some hash =>
          (Ok (id, hash), with_member (Some (mkMember id (Some hash) false [] false None ∅ ∅ ∅ ∅)) st)
      end
  end.

Definition drainGrid (st : gridState) : result gridError unit * gridState :=
  match st_member st with
  | None => (Err notInitialized, st)
  | Some m => (Ok tt, with_member (Some (set_drained m)) st)
  end.

(** [installGridServer]: [hexToken] and [hash] come from the token file and
    [url] from the listener. *)
Definition installGridServer (url : bytes) (gate : option Gate) (hexToken hash : bytes) (st : gridState)
  : result gridError bytes * gridState :=
  match st_member st with
  | None => (Err notInitialized, st)
  | Some m =>
      if gm_listening m then (Err (gridErr 0 "grid: already listening"), st)
      else if match gm_tokenHash m with Some _ => negb (gridTokenMatches (gm_tokenHash m) hexToken) | None => false end
      then (Err (gridErr 0 "grid: token mismatch"), st)
      else
        (Ok url, with_member (Some (mkMember (gm_id m) (Some (default hash (gm_tokenHash m))) (gm_drained m) url true gate
                   (gm_flights m) (gm_agents m) (gm_worktrees m) (gm_sessions m))) st)
  end.
End Tokens.

(** ** Canceling and reaping *)

(** [cancelFlightLocked]: the session to release. *)
Definition cancelFlightLocked (rec : flightRecord) (reason : bytes) (now : Z) (m : gridMembership) : bytes * gridMembership :=
  let rec' := mkFlight (fl_ID rec) (fl_AgentID rec) (fl_WorktreeID rec) (fl_SessionID rec) (fl_User rec) Canceled reason
                (fl_ExpiresAt rec) (fl_Remote rec) (fl_Source rec) now in
  let agents := if bool_decide (at_key (gm_agents m) (fl_AgentID rec) = fl_ID rec)
                then delete (fl_AgentID rec) (gm_agents m) else gm_agents m in
  let worktrees := if bool_decide (at_key (gm_worktrees m) (fl_WorktreeID rec) = fl_ID rec)
                   then <[fl_WorktreeID rec := []]> (gm_worktrees m) else gm_worktrees m in
  (fl_SessionID rec,
   with_tables (<[fl_ID rec := rec']> (gm_flights m)) agents worktrees (delete (fl_SessionID rec) (gm_sessions m)) m).

Definition clearSession (now : Z) (id : bytes) (r : registry) : registry :=
  match GetSession id r with
  | None => r
  | Some s => mkReg (<[id := ClearManagedAgent now s]> (globalSessions r)) (unregisterHooks r) (unregisterHookSeq r)
  end.

Definition releaseAgentSession (now : Z) (st : gridState) (id : bytes) : gridState :=
  let st := with_budgets (ClearAgentBudget id (st_budgets st)) st in
  let st := with_reg (clearSession now id (st_reg st)) st in
  with_reg (snd (UnregisterSession id (st_reg st))) st.
Definition releaseAgentSessions (now : Z) (ids : list bytes) (st : gridState) : gridState :=
  foldl (releaseAgentSession now) st ids.

Definition expired (now : Z) (f : flightRecord) : bool := negb (now <? fl_ExpiresAt f).

(** One flight of [reapExpiredFlights]. *)
Definition reap_one (now : Z) (acc : list bytes * gridMembership) (kv : bytes * flightRecord) : list bytes * gridMembership :=
  let '(released, m) := acc in
  let '(id, rec) := kv in
  if bool_decide (fl_Status rec = Canceled) then
    (released, if gridCancelledRetention <? time_sub now (fl_CancelledAt rec)
               then with_flights (delete id (gm_flights m)) m else m)
  else if expired now rec then
    let '(sid, m) := cancelFlightLocked rec (lit "lease expired") now m in (released ++ [sid], m)
  else (released, m).

Definition reapLocked (now : Z) (m : gridMembership) : list bytes * gridMembership :=
  foldl (reap_one now) ([], m) (map_to_list (gm_flights m)).

Definition reapExpiredFlights (now : Z) (st : gridState) : gridState :=
  match st_member st with
  | None => st
  | Some m => let '(released, m) := reapLocked now m in releaseAgentSessions now released (with_member (Some m) st)
  end.

Definition is_live (f : flightRecord) : bool := negb (bool_decide (fl_Status f = Canceled)).
Definition count_flights (p : flightRecord -> bool) (m : gridMembership) : Z :=
  zlen (List.filter p (map snd (map_to_list (gm_flights m)))).

(** [gridStatus]: id, fingerprint, listen URL, drained and the live flights. *)
Definition gridStatus (now : Z) (st : gridState) : result gridError (bytes * bytes * bytes * bool * Z) * gridState :=
  let st := reapExpiredFlights now st in
  match st_member st with
  | None => (Err notInitialized, st)
  | Some m => (Ok (gm_id m, default [] (gm_tokenHash m), gm_listenURL m, gm_drained m, count_flights is_live m), st)
  end.

(** ** The scratch root

    What the file system answers during one call; the text of a wrapped
    system error is left out of the errors. *)

Inductive lstatAnswer := LMissing | LFail | LStat (link dir : bool) (perm uid : Z).
Inductive mkdirAnswer := MkOk | MkExists | MkFail.
Record fileSys := mkFS {
  fs_lstat : bytes -> lstatAnswer; fs_lstat_again : bytes -> lstatAnswer; fs_stat : bytes -> option Z;
  fs_eval : bytes -> option bytes; fs_mkdirAll : bytes -> bool; fs_mkdir : bytes -> mkdirAnswer;
  fs_chmod : bytes -> bool; fs_removeAll : bytes -> bool; fs_open : bytes -> disk; fs_euid : Z }.

Definition pathInside (base target : bytes) : bool :=
  match Rel base target with
  | None => false
  | Some rel => negb (bool_decide (rel = lit "..")) && negb (has_prefix (lit "../") rel) && negb (IsAbs rel)
  end.

(** The loops go up one directory at a time; [fuel] is one more than the
    elements of the path. *)
Fixpoint existing_parent (fuel : nat) (fs : fileSys) (parent : bytes) : result bytes bytes :=
  match fuel with
  | O => Err (lit "worktree: scratch root")
  | S fuel' =>
      match fs_lstat fs parent with
      | LStat _ _ _ _ => Ok parent
      | LFail => Err (lit "worktree: scratch root")
      | LMissing => if bool_decide (Dir parent = parent) then Ok parent else existing_parent fuel' fs (Dir parent)
      end
  end.
Fixpoint no_world_writable (fuel : nat) (fs : fileSys) (dir : bytes) : result bytes unit :=
  match fuel with
  | O => Err (lit "worktree: scratch root")
  | S fuel' =>
      match fs_stat fs dir with
      | None => Err (lit "worktree: scratch root")
      | Some perm =>
          if negb (Z.land perm 2 =? 0) then Err (lit "worktree: scratch root is under a world-writable directory")
          else if bool_decide (Dir dir = dir) then Ok tt else no_world_writable fuel' fs (Dir dir)
      end
  end.
Definition path_fuel (s : bytes) : nat := S (length (elems s)).

Definition refuseWorldWritableAncestor (fs : fileSys) (root : bytes) : result bytes unit :=
  let! parent := existing_parent (path_fuel (Dir root)) fs (Dir root) in
  match fs_eval fs parent with
  | None => Err (lit "worktree: scratch root")
  | Some resolved => no_world_writable (path_fuel resolved) fs resolved
  end.

Definition checkedScratchRoot (fs : fileSys) (scratch : bytes) : result bytes bytes :=
  let root := Clean scratch in
  if negb (IsAbs root) then Err (lit "worktree: scratch root must be absolute")
  else
    let! _ := refuseWorldWritableAncestor fs root in
    let! info := match fs_lstat fs root with
                 | LMissing =>
                     if negb (fs_mkdirAll fs (Dir root)) then Err (lit "worktree: scratch root")
                     else match fs_mkdir fs root with
                     | MkFail => Err (lit "worktree: scratch root")
                     | _ => Ok (fs_lstat_again fs root)
                     end
                 | i => Ok i
                 end in
    match info with
    | LMissing | LFail => Err (lit "worktree: scratch root")
    | LStat link dir perm uid =>
        if link then Err (lit "worktree: scratch root is a symlink")
        else if negb dir then Err (lit "worktree: scratch root is not a directory")
        else if negb (uid =? fs_euid fs) then Err (lit "worktree: scratch root is not owned by this user")
        else if negb (perm =? 448) then Err (lit "worktree: scratch root mode must be 0700")
        else Ok root
    end.

Definition confinedWorktreePath (fs : fileSys) (scratch id : bytes) : result bytes bytes :=
  if negb (validGridID id) then Err (lit "worktree: invalid id")
  else
    let! root := checkedScratchRoot fs scratch in
    let dest := Join root id in
    if negb (pathInside root dest) then Err (lit "worktree: invalid id") else Ok dest.

Definition ensureWorktreeDir (fs : fileSys) (path : bytes) : result bytes unit :=
  match fs_lstat fs path with
  | LStat link dir _ _ =>
      if link then Err (lit "worktree: destination is a symlink")
      else if negb dir then Err (lit "worktree: destination is not a directory")
      else if fs_chmod fs path then Ok tt else Err (lit "worktree: directory")
  | LFail => Err (lit "worktree: directory")
  | LMissing =>
      if negb (fs_mkdirAll fs (Dir path)) then Err (lit "worktree: directory")
      else match fs_mkdir fs path with
      | MkOk => if fs_chmod fs path then Ok tt else Err (lit "worktree: directory")
      | MkFail => Err (lit "worktree: directory")
      | MkExists => match fs_lstat_again fs path with
                    | LStat true _ _ _ => Err (lit "worktree: destination is a symlink")
                    | _ => Err (lit "worktree: directory")
                    end
      end
  end.

Definition lift {A} (r : result bytes A) : result gridError A :=
  match r with Ok a => Ok a | Err msg => Err (mkErr 0 msg) end.

(** ** Checkout sources *)

Record goURL := mkURL { u_Scheme : bytes; u_User : bool; u_Hostname : bytes; u_Path : bytes }.
Class UrlLib := { url_Parse : bytes -> option goURL }.

Section Sources.
Context `{UrlLib}.

Definition validateCheckoutSource (src : bytes) : result bytes bytes :=
  let plain :=
    if contains (lit ":") src && negb (contains (lit "://") src) then Err (lit "worktree: remote URLs are rejected")
    else if negb (IsAbs src) then Err (lit "worktree: source must be an absolute path")
    else Ok src in
  if contains (lit "://") src then
    match url_Parse src with
    | None => Err (lit "worktree: source must be an absolute path")
    | Some u =>
        if u_User u then Err (lit "worktree: credentials are rejected")
        else if negb (bool_decide (u_Scheme u = [])) && negb (bool_decide (u_Scheme u = lit "file"))
        then Err (lit "worktree: remote URLs are rejected")
        else if bool_decide (u_Scheme u = lit "file") then
          if negb (bool_decide (u_Hostname u = [])) && negb (EqualFold (u_Hostname u) (lit "localhost"))
          then Err (lit "worktree: source must be an absolute path")
          else if negb (IsAbs (u_Path u)) then Err (lit "worktree: source must be an absolute path")
          else Ok (u_Path u)
        else plain
    end
  else plain.

(** ** Placing a flight *)

Definition AgentAllowlist : list bytes := names ["worktree"; "repo"; "runbook"; "par"; "why"; "??"; "evidence"; "lease"].

(** The user of the session and the cleaned source. *)
Definition validatePlaceOpts (opts : placeOpts) : result gridError (bytes * bytes) :=
  if negb (validGridID (o_FlightID opts) && validGridID (o_AgentID opts) && validGridID (o_WorktreeID opts))
  then Err (gridErr 400 "flight: invalid id")
  else if (o_TTL opts <? Second) || (24 * Hour <? o_TTL opts) then Err (gridErr 400 "flight: ttl is invalid")
  else
    let user := if o_Remote opts then gridPeerUser else o_User opts in
    if bool_decide (user = []) then Err (gridErr 400 "flight: user is required")
    else if negb (gateReady (o_Gate opts)) then Err (gridErr 403 "policy_required")
    else if bool_decide (o_Source opts = []) then Ok (user, [])
    else if o_Remote opts then Err (gridErr 400 "flight: a remote flight cannot bind a source")
    else let! src := lift (validateCheckoutSource (o_Source opts)) in Ok (user, Clean src).

Definition agentSession (agent : bytes) : bytes := lit "agent-" ++ agent.

Definition placed_record (opts : placeOpts) (user source : bytes) (now : Z) : flightRecord :=
  mkFlight (o_FlightID opts) (o_AgentID opts) (o_WorktreeID opts) (agentSession (o_AgentID opts)) user Placed []
    (now + o_TTL opts) (o_Remote opts) source 0.

Definition placed_session (opts : placeOpts) (user : bytes) (now : Z) : Session :=
  BindManagedAgent now
    (Some (mkAgent (o_AgentID opts) (o_FlightID opts) (o_WorktreeID opts) AgentAllowlist (now + o_TTL opts)))
    (mkSession (agentSession (o_AgentID opts)) user [] 0 [] None 0 [] false None false false None None [] [] None ∅ false None [] []).

Definition live_at (now : Z) (f : flightRecord) : bool := is_live f && (now <? fl_ExpiresAt f).

(** [registerFlight]; the session table is the one of the grid. *)
Definition registerFlight (startRec : Session -> option (Z * bytes)) (h : host) (rec : flightRecord) (session : Session) (now : Z)
    (st : gridState) : result gridError gridState :=
  match st_member st with
  | None => Err notInitialized
  | Some m =>
      if gm_drained m then Err (gridErr 409 "drained")
      else if bool_decide (is_Some (gm_flights m !! fl_ID rec)) || bool_decide (is_Some (gm_agents m !! fl_AgentID rec))
              || bool_decide (is_Some (gm_sessions m !! fl_SessionID rec))
              || negb (bool_decide (at_key (gm_worktrees m) (fl_WorktreeID rec) = []))
              || bool_decide (is_Some (GetSession (fl_SessionID rec) (st_reg st)))
      then Err (gridErr 409 "flight: duplicate id")
      else if gridMaxFlights <=? count_flights (live_at now) m then Err (gridErr 409 "flight: too many flights")
      else match RegisterSession startRec now session h (st_reg st) with
      | Err _ => Err (gridErr 0 "session")
      | Ok r =>
          let m := with_tables (<[fl_ID rec := rec]> (gm_flights m)) (<[fl_AgentID rec := fl_ID rec]> (gm_agents m))
                     (<[fl_WorktreeID rec := fl_ID rec]> (gm_worktrees m)) (<[fl_SessionID rec := fl_ID rec]> (gm_sessions m)) m in
          Ok (with_reg r (with_member (Some m) st))
      end
  end.

Definition flightBudget (opts : placeOpts) (expires : Z) : AgentBudget :=
  mkBudget AgentAllowlist 64 (Z.shiftl 1 20) expires (o_SponsorSession opts).

Definition placeFlight (startRec : Session -> option (Z * bytes)) (h : host) (fs : fileSys) (now : Z) (opts : placeOpts)
    (st : gridState) : result gridError flightResult * gridState :=
  match validatePlaceOpts opts with
  | Err e => (Err e, st)
  | Ok (user, source) =>
      match st_member st with
      | None => (Err notInitialized, st)
      | Some m =>
          if gm_drained m then (Err (gridErr 409 "drained"), st)
          else
            let st := reapExpiredFlights now st in
            match (let! dir := confinedWorktreePath fs (st_scratchRoot st) (o_WorktreeID opts) in ensureWorktreeDir fs dir) with
            | Err msg => (Err (mkErr 0 msg), st)
            | Ok _ =>
                let rec := placed_record opts user source now in
                match registerFlight startRec h rec (placed_session opts user now) now st with
                | Err e => (Err e, st)
                | Ok st =>
                    match BindAgentBudget (fl_SessionID rec) (flightBudget opts (fl_ExpiresAt rec)) (st_budgets st) with
                    | (true, b) => (Ok (mkResult (lit "placed") [] (fl_SessionID rec) (o_FlightID opts)), with_budgets b st)
                    | (false, _) =>
                        match st_member st with
                        | None => (Err notInitialized, st)
                        | Some m =>
                            let '(sid, m) := cancelFlightLocked rec (lit "budget") now m in
                            (Err (gridErr 0 "admin plane: agent budget"), releaseAgentSession now (with_member (Some m) st) sid)
                        end
                    end
                end
            end
      end
  end.

(** ** Rehearsing, canceling, reading *)

Definition validateFlightCommand (command : list bytes) : bool :=
  negb (bool_decide (command = [])) && (zlen command <=? gridMaxArgs)
  && forallb (fun arg => negb (bool_decide (arg = [])) && (zlen arg <=? gridMaxArgLen)) command.

Definition update_flight (id : bytes) (s : flightStatusCode) (reason : bytes) (st : gridState) : gridState :=
  match st_member st with
  | None => st
  | Some m =>
      match gm_flights m !! id with
      | None => st
      | Some rec => if is_live rec then with_member (Some (with_flights (<[id := set_status s reason rec]> (gm_flights m)) m)) st
                    else st
      end
  end.

Definition rememberFlightDenial (id reason : bytes) (previous : flightStatusCode) (st : gridState) : gridState :=
  if bool_decide (previous = Canceled) then st else update_flight id Denied reason st.

Definition peer_context (remote : bool) (p : PolicyContext) : PolicyContext :=
  if remote then mkPctx gridPeerUser [] (p_Command p) (p_Args p) (p_Capabilities p) (p_Time p) (p_SessionID p) None
                   (p_Gateway p) (p_Lease p) (p_ExecLease p) (p_Agent p) (p_Snoop p) (p_IdentityUnknown p)
  else p.

(** [quoted] is the command name as %q prints it. *)
Definition rehearseFlight (quoted : bytes -> bytes) (gate : option Gate) (now : Z) (id : bytes) (command : list bytes)
    (remote : bool) (st : gridState) : result gridError flightResult * gridState :=
  if negb (validGridID id) then (Err (gridErr 400 "flight: invalid id"), st)
  else if negb (validateFlightCommand command) then (Err (gridErr 400 "flight: command is invalid"), st)
  else match gate with
  | Some gate =>
      if negb (PolicyLoaded gate) then (Err (gridErr 403 "policy_required"), st)
      else match st_member st with
      | None => (Err notInitialized, st)
      | Some m =>
          match gm_flights m !! id with
          | None => (Err (gridErr 404 "flight: not found"), st)
          | Some rec =>
              let name := hd [] command in
              let lapsed := (Err (gridErr 403 "flight: agent lease expired"), st) in
              let denied reason := (Ok (mkResult (lit "denied") reason [] id), rememberFlightDenial id reason (fl_Status rec) st) in
              if negb (AgentCommandAllowed name) then denied (lit "agent cannot run " ++ quoted name)
              else if bool_decide (fl_Status rec = Canceled) then lapsed
              else match GetSession (fl_SessionID rec) (st_reg st) with
              | None => lapsed
              | Some session =>
                  match s_agentBinding session with
                  | None => lapsed
                  | Some agent =>
                      if negb (now <? ag_ExpiresAt agent) then lapsed
                      else
                        let pctx := peer_context remote (BuildPolicyContext gate name (tl command) (fl_SessionID rec)) in
                        match EvaluatePolicy gate pctx with
                        | None => (Err (gridErr 403 "flight: policy evaluation failed"), st)
                        | Some (false, reason) => denied (if bool_decide (reason = []) then lit "denied" else reason)
                        | Some (true, _) => (Ok (mkResult (lit "rehearsed") [] [] id), update_flight id Rehearsed [] st)
                        end
                  end
              end
          end
      end
  | None => (Err (gridErr 403 "policy_required"), st)
  end.

(** The flight a caller may name; a peer's caller sees the flights of peers. *)
Definition visible_flight (remoteOnly : bool) (id : bytes) (m : gridMembership) : option flightRecord :=
  match gm_flights m !! id with
  | Some rec => if remoteOnly && negb (fl_Remote rec) then None else Some rec
  | None => None
  end.

Definition cancelFlight (now : Z) (id : bytes) (remoteOnly : bool) (st : gridState) : result gridError flightResult * gridState :=
  if negb (validGridID id) then (Err (gridErr 400 "flight: invalid id"), st)
  else match st_member st with
  | None => (Err notInitialized, st)
  | Some m =>
      match visible_flight remoteOnly id m with
      | None => (Err (gridErr 404 "flight: not found"), st)
      | Some rec =>
          let '(sid, m) := cancelFlightLocked rec [] now m in
          (Ok (mkResult (lit "cancelled") [] [] id), releaseAgentSession now (with_member (Some m) st) sid)
      end
  end.

Definition flightStatus (id : bytes) (remoteOnly : bool) (st : gridState) : result gridError flightResult :=
  if negb (validGridID id) then Err (gridErr 400 "flight: invalid id")
  else match st_member st with
  | None => Err notInitialized
  | Some m =>
      match visible_flight remoteOnly id m with
      | None => Err (gridErr 404 "flight: not found")
      | Some rec => Ok (mkResult (status_text (fl_Status rec)) (fl_Reason rec) (fl_SessionID rec) (fl_ID rec))
      end
  end.

Definition listAgents (st : gridState) : list flightRecord :=
  match st_member st with
  | None => []
  | Some m =>
      map (fun kv : bytes * bytes =>
             match gm_flights m !! snd kv with
             | Some rec => rec
             | None => mkFlight (snd kv) (fst kv) [] [] [] Placed [] 0 false [] 0
             end) (map_to_list (gm_agents m))
  end.

(** ** Actions and the handler of a peer *)

Definition dispatchFlightAction (quoted : bytes -> bytes) (startRec : Session -> option (Z * bytes)) (h : host) (fs : fileSys)
    (now : Z) (gate : option Gate) (action : bytes) (wire : flightWire) (remote : bool) (st : gridState)
  : result gridError flightResult * gridState :=
  let required := (Err (gridErr 403 "policy_required"), st) in
  if bool_decide (action = lit "place") then
    if negb (gateReady gate) then required
    else if (w_TTLSeconds wire <? 1) || (86400 <? w_TTLSeconds wire) then (Err (gridErr 400 "flight: ttl is invalid"), st)
    else placeFlight startRec h fs now
           (mkOpts (w_FlightID wire) (w_AgentID wire) (w_WorktreeID wire) (w_TTLSeconds wire * Second) gridPeerUser [] true gate []) st
  else if is_one_of action ["rehearse"; "rehearsal"] then
    if negb (gateReady gate) then required
    else rehearseFlight quoted gate now (w_FlightID wire) (w_Command wire) remote st
  else if is_one_of action ["cancel"; "status"] then
    if negb (gateReady gate) then required
    else if bool_decide (action = lit "cancel") then cancelFlight now (w_FlightID wire) remote st
    else (flightStatus (w_FlightID wire) remote st, st)
  else (Err (gridErr 400 "unknown action"), st).

(** A request: [h_body] is what the reader gives before an error, if any. *)
Record httpRequest := mkReq {
  h_path : bytes; h_method : bytes; h_contentLength : Z; h_authorization : bytes; h_body : bytes; h_bodyError : bool }.
Class GridCodec := { decode_wire : bytes -> option flightWire; encode_result : flightResult -> bytes;
                     encode_wire : flightWire -> bytes; decode_result : bytes -> option flightResult }.

(** [http.Error] ends its text with a new line. *)
Definition httpError (status : Z) (msg : bytes) : Z * bytes := (status, msg ++ [NL]).

Definition writeGridHTTPError (e : gridError) : Z * bytes :=
  if e_Status e =? 0 then httpError 500 (lit "grid: request failed") else httpError (e_Status e) (e_msg e).

Definition bearer_of (auth : bytes) : bytes := if has_prefix (lit "Bearer ") auth then drop 7 auth else [].

Definition wire_action (w : flightWire) : bytes :=
  if bool_decide (w_Action w = []) then (if w_Rehearsal w then lit "rehearse" else lit "place") else w_Action w.

Definition gridFlightHandler `{GridCodec} `{Sha256} (quoted : bytes -> bytes) (startRec : Session -> option (Z * bytes)) (h : host)
    (fs : fileSys) (now : Z) (r : httpRequest) (st : gridState) : (Z * bytes) * gridState :=
  let no status msg := (httpError status (lit msg), st) in
  if negb (bool_decide (h_path r = lit "/v1/flight")) then no 404 "404 page not found"%string
  else if negb (bool_decide (h_method r = lit "POST")) then no 405 "method not allowed"%string
  else if gridMaxBody <? h_contentLength r then no 413 "request too large"%string
  else
    let stored := match st_member st with Some m => gm_tokenHash m | None => None end in
    let gate := match st_gate st with Some _ => match st_member st with Some m => gm_gate m | None => None end | None => None end in
    if negb (gridTokenMatches stored (bearer_of (h_authorization r))) then no 401 "unauthorized"%string
    else if gridMaxBody <? zlen (h_body r) then no 413 "request too large"%string
    else if h_bodyError r then no 400 "bad request"%string
    else match decode_wire (h_body r) with
    | None => no 400 "bad request"%string
    | Some wire =>
        match dispatchFlightAction quoted startRec h fs now gate (wire_action wire) wire true st with
        | (Err e, st) => (writeGridHTTPError e, st)
        | (Ok res, st) => ((200, encode_result res), st)
        end
    end.

(** ** Worktrees *)

Definition worktree_err (msg : string) : result bytes unit := Err (lit msg).

(** The locked regions of create and destroy. *)
Definition record_worktree (id : bytes) (st : gridState) : result bytes gridState :=
  match st_member st with
  | None => Err (e_msg notInitialized)
  | Some m =>
      match gm_worktrees m !! id with
      | Some _ => Err (lit "worktree: duplicate id")
      | None => Ok (with_member (Some (with_worktrees (<[id := []]> (gm_worktrees m)) m)) st)
      end
  end.
Definition reserve_worktree (id : bytes) (st : gridState) : result bytes gridState :=
  match st_member st with
  | None => Err (e_msg notInitialized)
  | Some m =>
      match gm_worktrees m !! id with
      | None => Err (lit "worktree: not found")
      | Some flight =>
          if negb (bool_decide (flight = [])) then Err (lit "worktree: in use")
          else Ok (with_member (Some (with_worktrees (<[id := worktreeDestroying]> (gm_worktrees m)) m)) st)
      end
  end.
Definition finish_destroy (id : bytes) (removed : bool) (st : gridState) : gridState :=
  match st_member st with
  | None => st
  | Some m =>
      if bool_decide (at_key (gm_worktrees m) id = worktreeDestroying)
      then with_member (Some (with_worktrees (if removed then delete id (gm_worktrees m) else <[id := []]> (gm_worktrees m)) m)) st
      else st
  end.

Definition createWorktree (fs : fileSys) (id : bytes) (st : gridState) : result bytes bytes * gridState :=
  if negb (validGridID id) then (Err (lit "worktree: invalid id"), st)
  else match confinedWorktreePath fs (st_scratchRoot st) id with
  | Err e => (Err e, st)
  | Ok path =>
      match record_worktree id st with
      | Err e => (Err e, st)
      | Ok st' =>
          match ensureWorktreeDir fs path with
          | Err e => (Err e, st)
          | Ok _ => (Ok path, st')
          end
      end
  end.

(** The path that was removed is the one of the grid's scratch root. *)
Definition removeWorktreeDir (fs : fileSys) (scratch id : bytes) : result bytes bytes :=
  let! path := confinedWorktreePath fs scratch id in
  match fs_lstat fs path with
  | LMissing => Err (lit "worktree: not found")
  | LFail => Err (lit "worktree: directory")
  | LStat link dir _ _ =>
      if link then Err (lit "worktree: destination is a symlink")
      else if negb dir then Err (lit "worktree: destination is not a directory")
      else if fs_removeAll fs path then Ok path else Err (lit "worktree: directory")
  end.

Definition destroyWorktree (fs : fileSys) (id : bytes) (st : gridState) : result bytes bytes * gridState :=
  if negb (validGridID id) then (Err (lit "worktree: invalid id"), st)
  else match reserve_worktree id st with
  | Err e => (Err e, st)
  | Ok st =>
      let r := removeWorktreeDir fs (st_scratchRoot st) id in
      (r, finish_destroy id (is_ok r) st)
  end.

Definition agentCheckoutSource (agent : ManagedAgent) (from : bytes) (st : gridState) : result bytes bytes :=
  let bound :=
    match st_member st with
    | None => []
    | Some m =>
        match gm_flights m !! ag_FlightID agent with
        | Some rec => if bool_decide (fl_AgentID rec = ag_ID agent) && is_live rec then fl_Source rec else []
        | None => []
        end
    end in
  if bool_decide (bound = []) then Err (lit "worktree: agent has no bound source")
  else if bool_decide (from = []) then Ok bound
  else
    let! src := validateCheckoutSource from in
    if negb (bool_decide (Clean src = bound)) then Err (lit "worktree: source is not the flight's bound source") else Ok bound.

Definition hex_char (c : byte) : bool :=
  let z := byte_val c in ((48 <=? z) && (z <=? 57)) || ((97 <=? z) && (z <=? 102)) || ((65 <=? z) && (z <=? 70)).
Definition commitHashPattern (s : bytes) : bool := (zlen s =? 40) && forallb hex_char s.

(** [git] clones without a checkout, checks the revision out and names the
    head it got. *)
Definition checkoutWorktree (git : bytes -> bytes -> bytes -> option bytes) (fs : fileSys) (scratch id source rev : bytes)
  : result bytes unit :=
  let! src := validateCheckoutSource source in
  if negb (commitHashPattern rev) then Err (lit "worktree: rev must be a 40-character commit hash")
  else
    let! dest := confinedWorktreePath fs scratch id in
    match ensureWorktreeDir fs dest with
    | Err _ => Err (lit "worktree: checkout failed")
    | Ok _ =>
        match git dest src rev with
        | Some head => if EqualFold head rev then Ok tt else Err (lit "worktree: checkout failed")
        | None => Err (lit "worktree: checkout failed")
        end
    end.
End Sources.

(** ** Reading a file of a worktree *)

Definition repo_escapes : bytes := lit "repo: path escapes worktree".

(** The fields between slashes and backslashes. *)
Fixpoint repo_fields (cur s : bytes) : list bytes :=
  match s with
  | [] => if bool_decide (cur = []) then [] else [rev cur]
  | c :: s' => if (c =?b "/") || (byte_val c =? 92)
               then (if bool_decide (cur = []) then [] else [rev cur]) ++ repo_fields [] s'
               else repo_fields (c :: cur) s'
  end.

Definition validateRepoPath (rel : bytes) : bool :=
  let clean := Clean rel in
  negb (bool_decide (rel = []) || IsAbs rel)
  && forallb (fun part => negb (bool_decide (part = lit ".."))) (repo_fields [] rel)
  && negb (bool_decide (clean = lit "..") || has_prefix (lit "../") clean || IsAbs clean).

Definition repoCat (fs : fileSys) (scratch id rel : bytes) : result bytes bytes :=
  let escapes := Err repo_escapes in
  if negb (validGridID id) then Err (lit "repo: invalid id")
  else if negb (validateRepoPath rel) then escapes
  else
    let! base := confinedWorktreePath fs scratch id in
    match fs_lstat fs base with
    | LStat false true _ _ =>
        match fs_eval fs base with
        | None => escapes
        | Some resolvedBase =>
            if negb (validateRepoPath (Clean rel)) then escapes
            else
              let full := Join resolvedBase (Clean rel) in
              if negb (pathInside resolvedBase full) then escapes
              else match fs_eval fs full with
              | None => escapes
              | Some resolved =>
                  if negb (pathInside resolvedBase resolved) then escapes
                  else match fs_open fs resolved with
                  | Present f =>
                      match f_kind f with
                      | Regular => if gridMaxCat <? zlen (f_data f) then Err (lit "repo: file is too large") else Ok (f_data f)
                      | _ => escapes
                      end
                  | _ => escapes
                  end
              end
        end
    | _ => escapes
    end.

(** ** Sections

    A section is a locked region of an operation, or a call on the session
    table or the budgets outside the lock.  [SOutside] is any change that
    another component makes to those two. *)

Inductive section :=
| SReap (now : Z) | SRegister (opts : placeOpts) (now : Z) | SCancel (id : bytes) (remoteOnly : bool) (now : Z)
| SUpdate (id : bytes) (s : flightStatusCode) (reason : bytes) | SDrain | SRecord (id : bytes)
| SReserve (id : bytes) | SFinish (id : bytes) (removed : bool)
| SBind (sid : bytes) (b : AgentBudget) | SClear (sid : bytes) | SUnbind (sid : bytes) (now : Z) | SUnregister (sid : bytes)
| SOutside (r : registry) (b : budgets).

Section Steps.
Context `{UrlLib} (startRec : Session -> option (Z * bytes)) (h : host).

Definition on_member (f : gridMembership -> gridMembership) (st : gridState) : gridState :=
  match st_member st with Some m => with_member (Some (f m)) st | None => st end.

Definition cancel_section (id : bytes) (remoteOnly : bool) (now : Z) (m : gridMembership) : gridMembership :=
  match visible_flight remoteOnly id m with Some rec => snd (cancelFlightLocked rec [] now m) | None => m end.

Definition section_step (s : section) (st : gridState) : gridState :=
  match s with
  | SReap now => on_member (fun m => snd (reapLocked now m)) st
  | SRegister opts now =>
      match validatePlaceOpts opts with
      | Ok (user, source) =>
          match registerFlight startRec h (placed_record opts user source now) (placed_session opts user now) now st with
          | Ok st' => st'
          | Err _ => st
          end
      | Err _ => st
      end
  | SCancel id remoteOnly now => on_member (cancel_section id remoteOnly now) st
  | SUpdate id s reason => if bool_decide (s = Canceled) then st else update_flight id s reason st
  | SDrain => on_member set_drained st
  | SRecord id => match record_worktree id st with Ok st' => st' | Err _ => st end
  | SReserve id => match reserve_worktree id st with Ok st' => st' | Err _ => st end
  | SFinish id removed => finish_destroy id removed st
  | SBind sid b => with_budgets (snd (BindAgentBudget sid b (st_budgets st))) st
  | SClear sid => with_budgets (ClearAgentBudget sid (st_budgets st)) st
  | SUnbind sid now => with_reg (clearSession now sid (st_reg st)) st
  | SUnregister sid => with_reg (snd (UnregisterSession sid (st_reg st))) st
  | SOutside r b => with_reg r (with_budgets b st)
  end.
Definition run_sections (l : list section) (st : gridState) : gridState := foldl (fun st s => section_step s st) st l.

(** The clock of a section. *)
Definition section_clock (s : section) : option Z :=
  match s with SReap now | SRegister _ now | SCancel _ _ now => Some now | _ => None end.
End Steps.

(** ** The invariant of the membership *)

Definition live_flight (m : gridMembership) (id : bytes) (f : flightRecord) : Prop :=
  gm_flights m !! id = Some f /\ fl_Status f <> Canceled.

(** At any time from [T] on at most 64 flights are live. *)
Record member_ok (T : Z) (m : gridMembership) : Prop := {
  ok_key : forall id f, gm_flights m !! id = Some f -> fl_ID f = id /\ validGridID id = true;
  ok_session : forall id f, gm_flights m !! id = Some f -> fl_SessionID f = agentSession (fl_AgentID f);
  ok_bound : forall id f, live_flight m id f ->
    gm_agents m !! fl_AgentID f = Some id /\ gm_worktrees m !! fl_WorktreeID f = Some id;
  ok_agents : forall a id, gm_agents m !! a = Some id -> exists f, live_flight m id f /\ fl_AgentID f = a;
  ok_worktrees : forall w id, gm_worktrees m !! w = Some id ->
    id = [] \/ id = worktreeDestroying \/ exists f, live_flight m id f /\ fl_WorktreeID f = w;
  ok_remote : forall id f, gm_flights m !! id = Some f -> fl_Remote f = true -> fl_User f = gridPeerUser /\ fl_Source f = [];
  ok_cap : forall t, T <= t -> count_flights (live_at t) m <= gridMaxFlights }.

Lemma valid_id_plain id : validGridID id = true -> id <> [] /\ id <> worktreeDestroying.
Proof. unfold validGridID. intros H. split; intros ->; by vm_compute in H. Qed.

(** *** Counting *)

Lemma filter_perm {A} (p : A -> bool) l k : l ≡ₚ k -> List.filter p l ≡ₚ List.filter p k.
Proof.
  induction 1 as [|x l k _ IH|x y l|l k j _ IH1 _ IH2]; cbn; [done| | |by etrans].
  - destruct (p x); [by constructor|done].
  - destruct (p x), (p y); try done. apply perm_swap.
Qed.

Lemma filter_insert (p : flightRecord -> bool) (fl : gmap bytes flightRecord) id f : fl !! id = None ->
  List.filter p (map snd (map_to_list (<[id:=f]> fl))) ≡ₚ List.filter p (f :: map snd (map_to_list fl)).
Proof. intros Hi. apply filter_perm. exact (fmap_Permutation snd _ _ (map_to_list_insert fl id f Hi)). Qed.

Lemma count_filter (p : flightRecord -> bool) (fl : gmap bytes flightRecord) :
  zlen (List.filter p (map snd (map_to_list fl))) = Z.of_nat (size (filter (fun kv : bytes * flightRecord => p (snd kv) = true) fl)).
Proof.
  induction fl as [|i f fl Hi IH] using map_ind; [done|].
  unfold zlen in *. rewrite (filter_insert p fl i f Hi). cbn [List.filter]. destruct (p f) eqn:E.
  - rewrite map_filter_insert_True by done. rewrite map_size_insert_None by (apply map_lookup_filter_None; by left).
    cbn [length]. lia.
  - rewrite map_filter_insert_False by (cbn; congruence). by rewrite delete_id.
Qed.

Lemma count_mono p q m m' :
  (forall id f, gm_flights m !! id = Some f -> p f = true -> exists f', gm_flights m' !! id = Some f' /\ q f' = true) ->
  count_flights p m <= count_flights q m'.
Proof.
  intros Hpq. unfold count_flights. rewrite !count_filter, <- !size_dom. apply inj_le, subseteq_size.
  intros id Hid. apply elem_of_dom in Hid as [f Hf]. apply map_lookup_filter_Some in Hf as [Hf Hp]. cbn in Hp.
  destruct (Hpq id f Hf Hp) as (f' & Hf' & Hq). apply elem_of_dom. exists f'. by apply map_lookup_filter_Some.
Qed.

Lemma count_insert p m fl id f : gm_flights m = <[id := f]> fl -> fl !! id = None ->
  count_flights p m <= 1 + zlen (List.filter p (map snd (map_to_list fl))).
Proof.
  intros E Hi. unfold count_flights. rewrite E.
  unfold zlen. rewrite (filter_insert p fl id f Hi). cbn [List.filter]. destruct (p f); cbn [length]; lia.
Qed.

(** *** Preservation *)

Lemma at_key_Some m k v : v <> [] -> at_key m k = v -> m !! k = Some v.
Proof. unfold at_key. destruct (m !! k); cbn; congruence. Qed.
Lemma at_key_lookup m k v : m !! k = Some v -> at_key m k = v.
Proof. unfold at_key. by intros ->. Qed.

(** The tables after a cancel of a recorded flight. *)
Lemma cancel_tables T m id rec reason now : member_ok T m -> gm_flights m !! id = Some rec ->
  let '(sid, m') := cancelFlightLocked rec reason now m in
  sid = fl_SessionID rec /\
  (forall k f, gm_flights m' !! k = Some f -> k <> id -> gm_flights m !! k = Some f) /\
  (forall k f, gm_flights m !! k = Some f -> k <> id -> gm_flights m' !! k = Some f) /\
  (exists f, gm_flights m' !! id = Some f /\ fl_Status f = Canceled /\ fl_AgentID f = fl_AgentID rec /\ fl_WorktreeID f = fl_WorktreeID rec /\
             fl_ID f = id /\ fl_SessionID f = fl_SessionID rec /\ fl_User f = fl_User rec /\ fl_Source f = fl_Source rec /\
             fl_Remote f = fl_Remote rec /\ fl_ExpiresAt f = fl_ExpiresAt rec) /\
  (forall a, gm_agents m' !! a = if bool_decide (gm_agents m !! a = Some id /\ a = fl_AgentID rec) then None else gm_agents m !! a) /\
  (forall w, gm_worktrees m' !! w = if bool_decide (gm_worktrees m !! w = Some id /\ w = fl_WorktreeID rec) then Some [] else gm_worktrees m !! w).
Proof.
  intros Hok Hid. destruct (ok_key _ _ Hok _ _ Hid) as [Hk Hv]. destruct (valid_id_plain _ Hv) as [Hne Hnd].
  unfold cancelFlightLocked. cbn. rewrite Hk. split_and!; [done| | | | |].
  - intros k f Hf Hkid. by rewrite lookup_insert_ne in Hf.
  - intros k f Hf Hkid. by rewrite lookup_insert_ne.
  - eexists. rewrite lookup_insert_eq. split; [done|]. cbn. by split_and!.
  - intros a. destruct (decide (a = fl_AgentID rec)) as [->|Ha].
    + destruct (decide (gm_agents m !! fl_AgentID rec = Some id)) as [E|E].
      * rewrite !bool_decide_true; [|by split|by apply at_key_lookup]. apply lookup_delete_eq.
      * rewrite !bool_decide_false; [done|tauto|]. intros H. by apply at_key_Some in H.
    + rewrite (bool_decide_false (_ /\ _)) by tauto. case_bool_decide; [by rewrite lookup_delete_ne|done].
  - intros w. destruct (decide (w = fl_WorktreeID rec)) as [->|Hw].
    + destruct (decide (gm_worktrees m !! fl_WorktreeID rec = Some id)) as [E|E].
      * rewrite !bool_decide_true; [|by split|by apply at_key_lookup]. apply lookup_insert_eq.
      * rewrite !bool_decide_false; [done|tauto|]. intros H. by apply at_key_Some in H.
    + rewrite (bool_decide_false (_ /\ _)) by tauto. case_bool_decide; [by rewrite lookup_insert_ne|done].
Qed.

Lemma cancel_ok T m id rec reason now : member_ok T m -> gm_flights m !! id = Some rec ->
  member_ok T (snd (cancelFlightLocked rec reason now m)).
Proof.
  intros Hok Hid. pose proof (cancel_tables T m id rec reason now Hok Hid) as Hc.
  destruct (cancelFlightLocked rec reason now m) as [sid m']. cbn [snd].
  destruct Hc as (_ & Hback & Hfwd & (f0 & H0 & Hst & Ha0 & Hw0 & Hid0 & Hs0 & Hu0 & Hso0 & Hr0 & He0) & Hag & Hwt).
  destruct (ok_key _ _ Hok _ _ Hid) as [Hk Hv].
  assert (Hlive : forall k f, live_flight m' k f -> k <> id /\ live_flight m k f).
  { intros k f [Hf Hl]. assert (k <> id) by (intros ->; congruence). split; [done|]. split; [by apply Hback|done]. }
  assert (Hlive' : forall k f, live_flight m k f -> k <> id -> live_flight m' k f) by (intros k f [Hf Hl] Hne; split; auto).
  split.
  - intros k f Hf. destruct (decide (k = id)) as [->|Hne]; [|by eapply ok_key, Hback]. rewrite H0 in Hf. by invc Hf.
  - intros k f Hf. destruct (decide (k = id)) as [->|Hne]; [|by eapply ok_session, Hback]. rewrite H0 in Hf. invc Hf.
    rewrite Hs0, Ha0. by eapply ok_session.
  - intros k f Hl. apply Hlive in Hl as [Hne Hl]. destruct (ok_bound _ _ Hok _ _ Hl) as [B1 B2].
    rewrite Hag, Hwt, !bool_decide_false; [done| |]; intros [E _]; congruence.
  - intros a k Hak. rewrite Hag in Hak. case_bool_decide as E; [done|]. destruct (ok_agents _ _ Hok _ _ Hak) as (f & Hl & Hfa).
    exists f. split; [|done]. apply Hlive'; [done|]. intros ->. apply E. destruct Hl as [Hl _]. rewrite Hid in Hl. invc Hl. done.
  - intros w k Hwk. rewrite Hwt in Hwk. case_bool_decide as E; [left; congruence|].
    destruct (ok_worktrees _ _ Hok _ _ Hwk) as [?|[?|(f & Hl & Hfw)]]; [by left|by right; left|right; right].
    exists f. split; [|done]. apply Hlive'; [done|]. intros ->. apply E. destruct Hl as [Hl _]. rewrite Hid in Hl. invc Hl. done.
  - intros k f Hf Hrem. destruct (decide (k = id)) as [->|Hne]; [|by eapply ok_remote; [done|by apply Hback|]].
    rewrite H0 in Hf. invc Hf. rewrite Hu0, Hso0. eapply ok_remote; [done|exact Hid|congruence].
  - intros t Ht. etrans; [|by apply (ok_cap _ _ Hok t)]. apply count_mono. intros k f Hf Hp. exists f. split; [|done].
    apply Hback; [done|]. intros ->. rewrite H0 in Hf. invc Hf. unfold live_at, is_live in Hp. rewrite Hst in Hp. done.
Qed.

Lemma forget_ok T m id rec : member_ok T m -> gm_flights m !! id = Some rec -> fl_Status rec = Canceled ->
  member_ok T (with_flights (delete id (gm_flights m)) m).
Proof.
  intros Hok Hid Hst.
  assert (Hlive : forall k f, live_flight m k f <-> live_flight (with_flights (delete id (gm_flights m)) m) k f).
  { intros k f. unfold live_flight. cbn. split; intros [Hf Hl]; (split; [|done]).
    - rewrite lookup_delete_ne; [done|]. intros ->. congruence.
    - by apply lookup_delete_Some in Hf as [_ Hf]. }
  split; cbn.
  - intros k f Hf. apply lookup_delete_Some in Hf as [_ Hf]. by eapply ok_key.
  - intros k f Hf. apply lookup_delete_Some in Hf as [_ Hf]. by eapply ok_session.
  - intros k f Hl. apply Hlive in Hl. by eapply ok_bound.
  - intros a k Hak. destruct (ok_agents _ _ Hok _ _ Hak) as (f & Hl & ?). exists f. by rewrite <- Hlive.
  - intros w k Hwk. destruct (ok_worktrees _ _ Hok _ _ Hwk) as [?|[?|(f & Hl & ?)]]; [by left|by right; left|right; right].
    exists f. by rewrite <- Hlive.
  - intros k f Hf. apply lookup_delete_Some in Hf as [_ Hf]. by eapply ok_remote.
  - intros t Ht. etrans; [|by apply (ok_cap _ _ Hok t)]. apply count_mono. intros k f Hf Hp. cbn in Hf.
    apply lookup_delete_Some in Hf as [_ Hf]. by exists f.
Qed.

(** *** Reaping *)

(** What a reap at [now] makes of one recorded flight. *)
Definition reaped (now : Z) (f : flightRecord) : option flightRecord :=
  if bool_decide (fl_Status f = Canceled)
  then if gridCancelledRetention <? time_sub now (fl_CancelledAt f) then None else Some f
  else if expired now f
  then Some (mkFlight (fl_ID f) (fl_AgentID f) (fl_WorktreeID f) (fl_SessionID f) (fl_User f) Canceled (lit "lease expired")
               (fl_ExpiresAt f) (fl_Remote f) (fl_Source f) now)
  else Some f.

Definition reap_released (now : Z) (f : flightRecord) : bool := is_live f && expired now f.

Lemma reap_one_spec T now rel m id rec : member_ok T m -> gm_flights m !! id = Some rec ->
  let '(rel', m') := reap_one now (rel, m) (id, rec) in
  member_ok T m' /\ gm_flights m' !! id = reaped now rec /\ (forall k, k <> id -> gm_flights m' !! k = gm_flights m !! k) /\
  rel' = rel ++ (if reap_released now rec then [fl_SessionID rec] else []).
Proof.
  intros Hok Hid. unfold reap_one, reaped, reap_released, is_live. destruct (ok_key _ _ Hok _ _ Hid) as [Hk _].
  case_bool_decide as Est; cbn [negb andb].
  - destruct (gridCancelledRetention <? _); rewrite app_nil_r; [|done]. split_and!; [by eapply forget_ok| | |done]; cbn.
    + apply lookup_delete_eq.
    + intros k Hne. by apply lookup_delete_ne.
  - destruct (expired now rec) eqn:Ee; [|by rewrite app_nil_r].
    pose proof (cancel_ok T m id rec (lit "lease expired") now Hok Hid) as Hc. unfold cancelFlightLocked in *. cbn [snd] in Hc.
    split_and!; [done| | |done]; cbn; rewrite Hk.
    + apply lookup_insert_eq.
    + intros k Hne. by apply lookup_insert_ne.
Qed.

Lemma reap_fold T now l : forall rel m, member_ok T m -> NoDup (map fst l) ->
  (forall id rec, In (id, rec) l -> gm_flights m !! id = Some rec) ->
  let '(rel', m') := foldl (reap_one now) (rel, m) l in
  member_ok T m' /\ (forall id rec, In (id, rec) l -> gm_flights m' !! id = reaped now rec) /\
  (forall k, ~ In k (map fst l) -> gm_flights m' !! k = gm_flights m !! k) /\
  rel' = rel ++ map fl_SessionID (List.filter (reap_released now) (map snd l)).
Proof.
  induction l as [|[id rec] l IH]; intros rel m Hok Hnd Hin; cbn [foldl].
  { split_and!; [done|by intros|done|by rewrite app_nil_r]. }
  cbn [map fst snd List.filter] in *. apply NoDup_cons in Hnd as [Hni Hnd]. rewrite list_elem_of_In in Hni.
  pose proof (reap_one_spec T now rel m id rec Hok (Hin _ _ (or_introl eq_refl))) as H1.
  destruct (reap_one now (rel, m) (id, rec)) as [rel1 m1]. destruct H1 as (O1 & L1 & K1 & R1).
  specialize (IH rel1 m1 O1 Hnd). destruct (foldl (reap_one now) (rel1, m1) l) as [rel' m'].
  destruct IH as (O2 & L2 & K2 & R2).
  { intros k f Hkf. rewrite K1; [by apply Hin; right|]. intros ->. apply Hni. apply in_map_iff. by exists (id, f). }
  split_and!; [done| | |].
  - intros k f [[= <- <-]|Hkf]; [|by apply L2]. by rewrite K2.
  - intros k Hk. rewrite K2, K1; [done| |]; intros E; apply Hk; [left; congruence|by right].
  - rewrite R2, R1, <- app_assoc. f_equal. by destruct (reap_released now rec).
Qed.

Lemma reapLocked_spec T now m : member_ok T m ->
  let '(rel, m') := reapLocked now m in
  member_ok T m' /\ (forall id, gm_flights m' !! id = gm_flights m !! id ≫= reaped now) /\
  rel = map fl_SessionID (List.filter (reap_released now) (map snd (map_to_list (gm_flights m)))).
Proof.
  intros Hok. unfold reapLocked. pose proof (reap_fold T now (map_to_list (gm_flights m)) [] m Hok) as H.
  destruct (foldl _ _ _) as [rel m']. destruct H as (O & L & K & R).
  - exact (NoDup_fst_map_to_list (gm_flights m)).
  - intros id rec Hin. by apply elem_of_map_to_list, list_elem_of_In.
  - split_and!; [done| |done]. intros id. destruct (gm_flights m !! id) as [rec|] eqn:E; cbn [mbind option_bind].
    + apply L. by apply list_elem_of_In, elem_of_map_to_list.
    + rewrite K; [done|]. intros Hin. apply in_map_iff in Hin as ([k f] & <- & Hin).
      apply list_elem_of_In, elem_of_map_to_list in Hin. cbn in *. congruence.
Qed.

(** *** Registering and the other sections *)

Lemma register_ok T m rec : member_ok T m -> fl_Status rec <> Canceled ->
  validGridID (fl_ID rec) = true -> fl_SessionID rec = agentSession (fl_AgentID rec) ->
  (fl_Remote rec = true -> fl_User rec = gridPeerUser /\ fl_Source rec = []) ->
  gm_flights m !! fl_ID rec = None -> gm_agents m !! fl_AgentID rec = None -> at_key (gm_worktrees m) (fl_WorktreeID rec) = [] ->
  forall now se, now <= T -> count_flights (live_at now) m < gridMaxFlights ->
  member_ok T (with_tables (<[fl_ID rec := rec]> (gm_flights m)) (<[fl_AgentID rec := fl_ID rec]> (gm_agents m))
                 (<[fl_WorktreeID rec := fl_ID rec]> (gm_worktrees m)) se m).
Proof.
  intros Hok Hst Hv Hs Hrem Hf Ha Hw now se Hnow Hcap. destruct (valid_id_plain _ Hv) as [Hne _]. set (m' := with_tables _ _ _ _ _).
  assert (Hfree : forall k f, live_flight m k f -> k <> fl_ID rec /\ fl_AgentID f <> fl_AgentID rec /\ fl_WorktreeID f <> fl_WorktreeID rec).
  { intros k f Hl. destruct (ok_bound _ _ Hok _ _ Hl) as [B1 B2]. split_and!.
    - intros ->. destruct Hl as [Hl _]. congruence.
    - intros E. congruence.
    - intros E. rewrite E in B2. apply at_key_lookup in B2. destruct Hl as [Hl _]. apply (ok_key _ _ Hok), proj2, valid_id_plain in Hl.
      destruct Hl as [Hk _]. congruence. }
  assert (Hlive : forall k f, live_flight m' k f <-> (k = fl_ID rec /\ f = rec) \/ live_flight m k f).
  { intros k f. unfold live_flight. cbn. split.
    - intros [Hk Hl]. apply lookup_insert_Some in Hk as [[<- <-]|[_ Hk]]; [by left|by right].
    - intros [[-> ->]|[Hk Hl]]; [by rewrite lookup_insert_eq|]. split; [|done]. rewrite lookup_insert_ne; [done|]. congruence. }
  split; cbn.
  - intros k f Hk. apply lookup_insert_Some in Hk as [[<- <-]|[_ Hk]]; [done|by eapply ok_key].
  - intros k f Hk. apply lookup_insert_Some in Hk as [[<- <-]|[_ Hk]]; [done|by eapply ok_session].
  - intros k f Hl. apply Hlive in Hl as [[-> ->]|Hl]; [by rewrite !lookup_insert_eq|].
    destruct (Hfree _ _ Hl) as (F1 & F2 & F3). rewrite !lookup_insert_ne by congruence. by apply (ok_bound _ _ Hok).
  - intros a k Hak. apply lookup_insert_Some in Hak as [[<- <-]|[_ Hak]].
    + exists rec. rewrite Hlive. by split; [left|].
    + destruct (ok_agents _ _ Hok _ _ Hak) as (f & Hl & ?). exists f. rewrite Hlive. by split; [right|].
  - intros w k Hwk. apply lookup_insert_Some in Hwk as [[<- <-]|[_ Hwk]].
    + right. right. exists rec. rewrite Hlive. by split; [left|].
    + destruct (ok_worktrees _ _ Hok _ _ Hwk) as [?|[?|(f & Hl & ?)]]; [by left|by right; left|right; right].
      exists f. rewrite Hlive. by split; [right|].
  - intros k f Hk. apply lookup_insert_Some in Hk as [[<- <-]|[_ Hk]]; [done|by eapply ok_remote].
  - intros t Ht. etrans; [by eapply (count_insert _ m' (gm_flights m) (fl_ID rec) rec)|].
    assert (count_flights (live_at t) m <= count_flights (live_at now) m).
    { apply count_mono. intros k f Hk Hp. exists f. split; [done|]. unfold live_at in *. bsimp. apply andb_true_intro. split; [done|lia]. }
    unfold count_flights in *. lia.
Qed.

(** A table that differs in the statuses of live flights only. *)
Lemma status_ok T m id rec s reason : member_ok T m -> gm_flights m !! id = Some rec -> fl_Status rec <> Canceled -> s <> Canceled ->
  member_ok T (with_flights (<[id := set_status s reason rec]> (gm_flights m)) m).
Proof.
  intros Hok Hid Hl Hs. set (m' := with_flights _ _).
  assert (Hback : forall k f, gm_flights m' !! k = Some f -> exists g, gm_flights m !! k = Some g /\ fl_ID g = fl_ID f /\
    fl_AgentID g = fl_AgentID f /\ fl_WorktreeID g = fl_WorktreeID f /\ fl_SessionID g = fl_SessionID f /\ fl_User g = fl_User f /\
    fl_Source g = fl_Source f /\ fl_Remote g = fl_Remote f /\ fl_ExpiresAt g = fl_ExpiresAt f /\
    (fl_Status f <> Canceled <-> fl_Status g <> Canceled)).
  { intros k f Hk. cbn in Hk. apply lookup_insert_Some in Hk as [[<- <-]|[_ Hk]].
    - exists rec. by split_and!.
    - exists f. by split_and!. }
  assert (Hfwd : forall k f, live_flight m k f -> exists g, live_flight m' k g /\ fl_AgentID g = fl_AgentID f /\ fl_WorktreeID g = fl_WorktreeID f).
  { intros k f [Hk Hf]. destruct (decide (k = id)) as [->|Hne].
    - rewrite Hid in Hk. invc Hk. exists (set_status s reason f). split; [|done]. split; [by cbn; rewrite lookup_insert_eq|done].
    - exists f. split; [|done]. split; [|done]. cbn. by rewrite lookup_insert_ne. }
  split.
  - intros k f Hk. apply Hback in Hk as (g & Hg & E & _). rewrite <- E. by eapply ok_key.
  - intros k f Hk. apply Hback in Hk as (g & Hg & _ & E1 & _ & E2 & _). rewrite <- E1, <- E2. by eapply ok_session.
  - intros k f [Hk Hf]. apply Hback in Hk as (g & Hg & _ & E1 & E2 & _ & _ & _ & _ & _ & E). rewrite <- E1, <- E2. cbn.
    eapply ok_bound; [exact Hok|]. split; [exact Hg|by apply E].
  - intros a k Hak. destruct (ok_agents _ _ Hok _ _ Hak) as (f & Hf & <-). destruct (Hfwd _ _ Hf) as (g & Hg & E & _). by exists g.
  - intros w k Hwk. destruct (ok_worktrees _ _ Hok _ _ Hwk) as [?|[?|(f & Hf & <-)]]; [by left|by right; left|right; right].
    destruct (Hfwd _ _ Hf) as (g & Hg & _ & E). by exists g.
  - intros k f Hk Hr. apply Hback in Hk as (g & Hg & _ & _ & _ & _ & E1 & E2 & E3 & _). rewrite <- E1, <- E2.
    eapply ok_remote; [exact Hok|exact Hg|congruence].
  - intros t Ht. etrans; [|by apply (ok_cap _ _ Hok t)]. apply count_mono. intros k f Hk Hp.
    apply Hback in Hk as (g & Hg & _ & _ & _ & _ & _ & _ & _ & E1 & E2). exists g. split; [done|].
    unfold live_at, is_live in *. rewrite E1. bsimp. apply andb_true_intro.
    split; [|lia]. apply negb_true_iff, bool_decide_eq_false. tauto.
Qed.

Lemma worktrees_ok T m w v : member_ok T m -> (v = [] \/ v = worktreeDestroying) ->
  (forall id f, live_flight m id f -> fl_WorktreeID f <> w) -> member_ok T (with_worktrees (<[w := v]> (gm_worktrees m)) m).
Proof.
  intros [O1 O2 O3 O4 O5 O6 O7] Hv Hw. split; cbn; try done.
  - intros k f Hl. rewrite lookup_insert_ne; [by apply O3|]. intros E. by eapply Hw.
  - intros x k Hk. apply lookup_insert_Some in Hk as [[<- <-]|[_ Hk]]; [|by apply O5]. destruct Hv as [->| ->]; [by left|by right; left].
Qed.

Lemma free_worktree T m w : member_ok T m -> (forall id, gm_worktrees m !! w = Some id -> id = [] \/ id = worktreeDestroying) ->
  forall id f, live_flight m id f -> fl_WorktreeID f <> w.
Proof.
  intros Hok Hw id f Hl E. destruct (ok_bound _ _ Hok _ _ Hl) as [_ B]. rewrite E in B. apply Hw in B.
  destruct Hl as [Hl _]. apply (ok_key _ _ Hok), proj2, valid_id_plain in Hl as [H1 H2]. by destruct B.
Qed.

Lemma worktree_dropped_ok T m w : member_ok T m -> (forall id f, live_flight m id f -> fl_WorktreeID f <> w) ->
  member_ok T (with_worktrees (delete w (gm_worktrees m)) m).
Proof.
  intros [O1 O2 O3 O4 O5 O6 O7] Hw. split; cbn; try done.
  - intros k f Hl. rewrite lookup_delete_ne; [by apply O3|]. intros E. by eapply Hw.
  - intros x k Hk. apply lookup_delete_Some in Hk as [_ Hk]. by apply O5.
Qed.

Definition grid_ok (T : Z) (st : gridState) : Prop := match st_member st with Some m => member_ok T m | None => True end.

Section Keeps.
Context `{UrlLib} (startRec : Session -> option (Z * bytes)) (h : host).

Lemma validatePlaceOpts_ok opts user source : validatePlaceOpts opts = Ok (user, source) ->
  validGridID (o_FlightID opts) = true /\ validGridID (o_AgentID opts) = true /\ validGridID (o_WorktreeID opts) = true /\
  Second <= o_TTL opts <= 24 * Hour /\ user <> [] /\ gateReady (o_Gate opts) = true /\
  (if o_Remote opts then user = gridPeerUser /\ source = [] /\ o_Source opts = [] else user = o_User opts).
Proof.
  unfold validatePlaceOpts. intros Hv. case_match; [done|]. case_match; [done|]. case_match eqn:Eu; [done|]. case_match; [done|]. bsimp.
  assert (Hus : user = (if o_Remote opts then gridPeerUser else o_User opts) /\ (o_Remote opts = true -> source = [] /\ o_Source opts = [])).
  { case_bool_decide; [by invc Hv|]. destruct (o_Remote opts); [done|].
    destruct (validateCheckoutSource (o_Source opts)); cbn in Hv; [by invc Hv|done]. }
  destruct Hus as [-> Hsrc]. split_and!; try done. destruct (o_Remote opts); [|done]. split; [done|by apply Hsrc].
Qed.

Lemma on_member_ok T f st : (forall m, member_ok T m -> member_ok T (f m)) -> grid_ok T st -> grid_ok T (on_member f st).
Proof. unfold grid_ok, on_member. intros Hf Hst. destruct (st_member st) eqn:E; [by apply Hf|by rewrite E]. Qed.

Lemma register_member opts user source now st st' : validatePlaceOpts opts = Ok (user, source) ->
  registerFlight startRec h (placed_record opts user source now) (placed_session opts user now) now st = Ok st' ->
  forall T, now <= T -> grid_ok T st -> grid_ok T st'.
Proof.
  intros Hv Hr T Hnow Hok. apply validatePlaceOpts_ok in Hv as (V1 & _ & _ & _ & _ & _ & V7).
  unfold registerFlight, grid_ok in *. destruct (st_member st) as [m|]; [|done].
  destruct (gm_drained m); [done|]. destruct (_ || _) eqn:Edup; [done|]. destruct (gridMaxFlights <=? _) eqn:Ecap; [done|].
  destruct (RegisterSession _ _ _ _ _) as [r|]; [|done]. invc Hr. cbn -[placed_record]. bsimp. rewrite <- !eq_None_not_Some in *.
  eapply register_ok; try done; cbn. intros Hrem. rewrite Hrem in V7. tauto.
Qed.

Lemma reserve_ok T id st : grid_ok T st -> grid_ok T (match reserve_worktree id st with Ok st' => st' | Err _ => st end).
Proof.
  intros Hok. unfold reserve_worktree, grid_ok in *. destruct (st_member st) as [m|] eqn:Em; [|by rewrite Em].
  destruct (gm_worktrees m !! id) as [w|] eqn:E; [|by rewrite Em]. case_bool_decide; cbn [negb]; [|by rewrite Em].
  apply worktrees_ok; [done|by right|]. eapply free_worktree; [done|]. intros k Hk. left. congruence.
Qed.

Lemma finish_ok T id removed st : grid_ok T st -> grid_ok T (finish_destroy id removed st).
Proof.
  intros Hok. unfold finish_destroy, grid_ok in *. destruct (st_member st) as [m|] eqn:Em; [|by rewrite Em].
  case_bool_decide as E; [|by rewrite Em]. cbn.
  assert (Hfree : forall k f, live_flight m k f -> fl_WorktreeID f <> id).
  { eapply free_worktree; [done|]. intros k Hk. right. apply at_key_lookup in Hk. congruence. }
  destruct removed; [by apply worktree_dropped_ok|]. apply worktrees_ok; [done|by left|done].
Qed.

Lemma section_ok T s st : grid_ok T st -> (forall t, section_clock s = Some t -> t <= T) -> grid_ok T (section_step startRec h s st).
Proof.
  intros Hok Hclk. destruct s as [now|opts now|id ro now|id s reason| |id|id|id rm|sid b|sid|sid now|sid|r b]; cbn [section_step]; try exact Hok.
  - apply on_member_ok; [|done]. intros m Hm. pose proof (reapLocked_spec T now m Hm) as Hs. destruct (reapLocked now m). by destruct Hs.
  - destruct (validatePlaceOpts opts) as [[user source]|] eqn:Ev; [|done].
    destruct (registerFlight _ _ _ _ _ _) eqn:Er; [|done]. eapply register_member; [done|exact Er|by apply Hclk|done].
  - apply on_member_ok; [|done]. intros m Hm. unfold cancel_section, visible_flight.
    destruct (gm_flights m !! id) as [rec|] eqn:E; [|done]. destruct (_ && _); [done|]. by eapply cancel_ok.
  - case_bool_decide as Es; [done|]. unfold update_flight, grid_ok in *. destruct (st_member st) as [m|] eqn:Em; [|by rewrite Em].
    destruct (gm_flights m !! id) as [rec|] eqn:E; [|by rewrite Em]. unfold is_live.
    case_bool_decide as El; cbn [negb]; [by rewrite Em|]. cbn. by apply status_ok.
  - apply on_member_ok; [|done]. intros m [O1 O2 O3 O4 O5 O6 O7]. by split.
  - unfold record_worktree, grid_ok in *. destruct (st_member st) as [m|] eqn:Em; [|by rewrite Em].
    destruct (gm_worktrees m !! id) eqn:E; [by rewrite Em|]. cbn. apply worktrees_ok; [done|by left|].
    eapply free_worktree; [done|]. congruence.
  - by apply reserve_ok.
  - by apply finish_ok.
Qed.

Lemma sections_ok T l : forall st, grid_ok T st -> (forall s t, In s l -> section_clock s = Some t -> t <= T) ->
  grid_ok T (run_sections startRec h l st).
Proof.
  induction l as [|s l IH]; intros st Hok Hl; [done|]. cbn. apply IH; [|intros; apply (Hl s0); [by right|done]].
  apply section_ok; [done|]. intros t Ht. apply (Hl s); [by left|done].
Qed.
End Keeps.

(** ** Operations are sections *)

Inductive gridOp :=
| OpPlace (fs : fileSys) (now : Z) (opts : placeOpts) | OpRehearse (gate : option Gate) (now : Z) (id : bytes) (command : list bytes)
| OpCancel (now : Z) (id : bytes) | OpStatus (now : Z) | OpDrain
| OpCreate (fs : fileSys) (id : bytes) | OpDestroy (fs : fileSys) (id : bytes)
| OpRequest (fs : fileSys) (now : Z) (r : httpRequest).

Section Operations.
Context `{UrlLib} `{Sha256} `{GridCodec} (quoted : bytes -> bytes) (startRec : Session -> option (Z * bytes)) (h : host).

Definition grid_op (op : gridOp) (st : gridState) : gridState :=
  match op with
  | OpPlace fs now opts => snd (placeFlight startRec h fs now opts st)
  | OpRehearse gate now id command => snd (rehearseFlight quoted gate now id command false st)
  | OpCancel now id => snd (cancelFlight now id false st)
  | OpStatus now => snd (gridStatus now st)
  | OpDrain => snd (drainGrid st)
  | OpCreate fs id => snd (createWorktree fs id st)
  | OpDestroy fs id => snd (destroyWorktree fs id st)
  | OpRequest fs now r => snd (gridFlightHandler quoted startRec h fs now r st)
  end.

#[local] Abbreviation run := (run_sections startRec h).
(** [st'] is what a run of sections, with no clock but [c], makes of [st]. *)
Definition by_sections (c : option Z) (st st' : gridState) : Prop :=
  exists l, st' = run l st /\ forall s t, In s l -> section_clock s = Some t -> c = Some t.

Lemma by_refl c st : by_sections c st st.
Proof. by exists []. Qed.
Lemma by_trans o a b c : by_sections o a b -> by_sections o b c -> by_sections o a c.
Proof.
  intros (l & -> & Hl) (k & -> & Hk). exists (l ++ k). split; [unfold run_sections; by rewrite foldl_app|].
  intros s t Hs. apply in_app_or in Hs as [Hs|Hs]; eauto.
Qed.
Lemma by_one c s st : (forall t, section_clock s = Some t -> c = Some t) -> by_sections c st (section_step startRec h s st).
Proof. intros Hs. exists [s]. split; [done|]. intros s' t [<-|[]]. apply Hs. Qed.
Hint Resolve by_refl : core.

Lemma by_release now id st : by_sections (Some now) st (releaseAgentSession now st id).
Proof.
  exists [SClear id; SUnbind id now; SUnregister id]. split; [done|]. intros s t [<-|[<-|[<-|[]]]]; done.
Qed.
Lemma by_releases now ids : forall st, by_sections (Some now) st (releaseAgentSessions now ids st).
Proof. induction ids as [|id ids IH]; intros st; [done|]. eapply by_trans; [apply by_release|apply IH]. Qed.

Lemma by_drain c st : by_sections c st (snd (drainGrid st)).
Proof.
  unfold drainGrid. destruct (st_member st) as [m|] eqn:Em; [|done]. exists [SDrain]. split; [|by intros s t [<-|[]]].
  cbn. unfold on_member. by rewrite Em.
Qed.

Lemma by_reap now st : by_sections (Some now) st (reapExpiredFlights now st).
Proof.
  unfold reapExpiredFlights. destruct (st_member st) as [m|] eqn:Em; [|done].
  destruct (reapLocked now m) as [rel m'] eqn:Er. eapply by_trans; [apply (by_one (Some now) (SReap now)); by intros t [= <-]|].
  cbn [section_step]. unfold on_member. rewrite Em, Er. apply by_releases.
Qed.

Lemma by_update now id s reason st : s <> Canceled -> by_sections (Some now) st (update_flight id s reason st).
Proof. intros Hs. pose proof (by_one (Some now) (SUpdate id s reason) st) as Hb. cbn in Hb. rewrite bool_decide_false in Hb by done. by apply Hb. Qed.

Lemma by_place fs now opts st : by_sections (Some now) st (snd (placeFlight startRec h fs now opts st)).
Proof.
  unfold placeFlight. destruct (validatePlaceOpts opts) as [[user source]|] eqn:Ev; [|done].
  destruct (st_member st) as [m|]; [|done]. destruct (gm_drained m); [done|].
  eapply by_trans; [apply (by_reap now)|]. set (st1 := reapExpiredFlights now st).
  destruct (rbind _ _); [|done]. destruct (registerFlight _ _ _ _ _ _) as [st2|] eqn:Er; [|done].
  eapply by_trans; [apply (by_one (Some now) (SRegister opts now)); by intros t [= <-]|]. cbn [section_step]. rewrite Ev, Er.
  exact (by_one (Some now) (SBind (agentSession (o_AgentID opts)) (flightBudget opts (now + o_TTL opts))) st2 ltac:(done)).
Qed.

Lemma by_rehearse gate now id command remote st : by_sections (Some now) st (snd (rehearseFlight quoted gate now id command remote st)).
Proof.
  unfold rehearseFlight. destruct (negb (validGridID id)); [done|]. destruct (negb (validateFlightCommand command)); [done|].
  destruct gate as [gate|]; [|done]. destruct (negb (PolicyLoaded gate)); [done|]. destruct (st_member st) as [m|]; [|done].
  destruct (gm_flights m !! id) as [rec|]; [|done].
  assert (Hden : forall reason, by_sections (Some now) st (rememberFlightDenial id reason (fl_Status rec) st)).
  { intros reason. unfold rememberFlightDenial. case_bool_decide; [done|]. by apply by_update. }
  destruct (negb (AgentCommandAllowed _)); [apply Hden|]. case_bool_decide; [done|].
  destruct (GetSession _ _) as [session|]; [|done]. destruct (s_agentBinding session) as [agent|]; [|done].
  destruct (negb (now <? ag_ExpiresAt agent)); [done|].
  destruct (EvaluatePolicy _ _) as [[[] reason]|]; [|apply Hden|done]. by apply by_update.
Qed.

Lemma by_cancel now id ro st : by_sections (Some now) st (snd (cancelFlight now id ro st)).
Proof.
  unfold cancelFlight. destruct (negb (validGridID id)); [done|]. destruct (st_member st) as [m|] eqn:Em; [|done].
  destruct (visible_flight ro id m) as [rec|] eqn:Er; [|done]. destruct (cancelFlightLocked rec [] now m) as [sid m'] eqn:Ec.
  eapply by_trans; [apply (by_one (Some now) (SCancel id ro now)); by intros t [= <-]|]. cbn [section_step]. unfold on_member, cancel_section.
  rewrite Em, Er, Ec. apply by_release.
Qed.

Lemma by_destroy fs c id st : by_sections c st (snd (destroyWorktree fs id st)).
Proof.
  unfold destroyWorktree. destruct (negb (validGridID id)); [done|]. destruct (reserve_worktree id st) as [st'|] eqn:Er; [|done].
  exists [SReserve id; SFinish id (is_ok (removeWorktreeDir fs (st_scratchRoot st') id))]. split; [|by intros s t [<-|[<-|[]]]].
  cbn. by rewrite Er.
Qed.

Lemma by_create fs c id st : by_sections c st (snd (createWorktree fs id st)).
Proof.
  unfold createWorktree. destruct (negb (validGridID id)); [done|]. destruct (confinedWorktreePath _ _ _); [|done].
  destruct (record_worktree id st) as [st'|] eqn:Er; [|done]. destruct (ensureWorktreeDir _ _); [|done].
  exists [SRecord id]. split; [cbn; by rewrite Er|]. by intros s t [<-|[]].
Qed.

Lemma by_dispatch fs now gate action wire remote st :
  by_sections (Some now) st (snd (dispatchFlightAction quoted startRec h fs now gate action wire remote st)).
Proof.
  unfold dispatchFlightAction. repeat (case_match; try done).
  all: first [apply by_place|apply by_rehearse|apply by_cancel].
Qed.

Definition op_clock (op : gridOp) : option Z :=
  match op with
  | OpPlace _ now _ | OpRehearse _ now _ _ | OpCancel now _ | OpStatus now | OpRequest _ now _ => Some now
  | _ => None
  end.

(** Every operation of the grid (place, rehearse, cancel, status, drain,
    create, destroy and a peer request) changes the state only as a sequence
    of its locked regions and of calls on the session table and the budgets,
    all with the clock of the operation, so an invariant of the regions holds
    for any interleaving of operations. *)
Theorem operations_are_sections op st :
  exists l, grid_op op st = run_sections startRec h l st /\
            forall s t, In s l -> section_clock s = Some t -> op_clock op = Some t.
Proof.
  change (by_sections (op_clock op) st (grid_op op st)). destruct op; cbn [grid_op op_clock].
  - apply by_place.
  - apply by_rehearse.
  - apply by_cancel.
  - unfold gridStatus. eapply by_trans; [apply by_reap|]. by destruct (st_member (reapExpiredFlights now st)).
  - apply by_drain.
  - apply by_create.
  - apply by_destroy.
  - unfold gridFlightHandler. repeat (case_match; try done).
    all: match goal with E : dispatchFlightAction _ _ _ ?fs ?now ?g ?a ?w ?r ?s = _ |- _ =>
           pose proof (by_dispatch fs now g a w r s) as Hd; by rewrite E in Hd end.
Qed.
End Operations.

(** ** The tables agree *)

Section Agree.
Context `{UrlLib} (startRec : Session -> option (Z * bytes)) (h : host).

Lemma empty_ok T id hash : member_ok T (mkMember id hash false [] false None ∅ ∅ ∅ ∅).
Proof. split; cbn; try (by intros); try (by intros ? ? [? _]). Qed.

Lemma section_member s st m : st_member st = Some m -> exists m', st_member (section_step startRec h s st) = Some m'.
Proof.
  intros Hm. destruct s as [now|opts now|id ro now|id s reason| |id|id|id rm|sid b|sid|sid now|sid|r b]; cbn [section_step]; unfold on_member; rewrite ?Hm; cbn; try (by eexists).
  - destruct (validatePlaceOpts opts) as [[user source]|]; [|by eexists].
    unfold registerFlight. rewrite Hm. destruct (gm_drained m); [by eexists|]. destruct (_ || _); [by eexists|].
    destruct (gridMaxFlights <=? _); [by eexists|]. destruct (RegisterSession _ _ _ _ _); by eexists.
  - case_bool_decide; [by eexists|]. unfold update_flight. rewrite Hm. destruct (gm_flights m !! id); [|by eexists].
    destruct (is_live _); by eexists.
  - unfold record_worktree. rewrite Hm. destruct (gm_worktrees m !! id); by eexists.
  - unfold reserve_worktree. rewrite Hm. destruct (gm_worktrees m !! id); [|by eexists]. destruct (negb _); by eexists.
  - unfold finish_destroy. rewrite Hm. case_bool_decide; by eexists.
Qed.

Lemma sections_member l : forall st m, st_member st = Some m -> exists m', st_member (run_sections startRec h l st) = Some m'.
Proof.
  induction l as [|s l IH]; intros st m Hm; [by exists m|]. destruct (section_member s st m Hm) as [m' Hm']. by eapply IH.
Qed.

(** C36: After initGrid and any interleaving of the locked regions of grid
    operations and of changes to sessions and budgets, every flight is
    recorded under its own valid id and its agent session id, each live flight
    holds its agent id and its worktree id, every held id belongs to a live
    flight (or, for a worktree, is free or being destroyed), a remote flight
    is the grid-peer user with no source, and at most 64 flights are live. *)
Theorem flight_tables_agree `{Sha256} T id tokenFile tokenOut random look out st0 st r l :
  initGrid id tokenFile tokenOut random look out st0 = (Ok r, st) ->
  (forall s t, In s l -> section_clock s = Some t -> t <= T) ->
  exists m, st_member (run_sections startRec h l st) = Some m /\ member_ok T m.
Proof.
  unfold initGrid. intros Hi Hl.
  assert (Hm : exists i hash, st_member st = Some (mkMember i hash false [] false None ∅ ∅ ∅ ∅)).
  { destruct (negb _ && negb _); [done|]. destruct (bool_decide _ && bool_decide _); [done|]. destruct (negb _ && negb _); [done|].
    destruct (st_member st0); [done|]. destruct (if bool_decide (tokenFile = []) then _ else _); [|done]. invc Hi. cbn. by eexists _, _. }
  destruct Hm as (i & hash & Hm). destruct (sections_member l st _ Hm) as [m Hm']. exists m. split; [done|].
  assert (Hok : grid_ok T st) by (unfold grid_ok; rewrite Hm; apply empty_ok).
  apply (sections_ok startRec h T l) in Hok; [|done]. unfold grid_ok in Hok. by rewrite Hm' in Hok.
Qed.

(** ** Removing a worktree

    A destroyer holds its id from the reservation to the end of the removal;
    the directory is removed in between, while other sections run. *)

Definition plain (s : section) : Prop := match s with SReserve _ | SFinish _ _ => False | _ => True end.

Inductive gstep (T : Z) : gmap nat bytes * gridState -> gmap nat bytes * gridState -> Prop :=
| g_section s p st : plain s -> (forall t, section_clock s = Some t -> t <= T) -> gstep T (p, st) (p, section_step startRec h s st)
| g_reserve i id p st st' : p !! i = None -> reserve_worktree id st = Ok st' -> gstep T (p, st) (<[i := id]> p, st')
| g_finish i id removed p st : p !! i = Some id -> gstep T (p, st) (delete i p, finish_destroy id removed st).

Definition destroying (id : bytes) (st : gridState) : Prop :=
  match st_member st with Some m => gm_worktrees m !! id = Some worktreeDestroying | None => False end.

Lemma cancel_destroying T m k rec reason now id : member_ok T m -> gm_flights m !! k = Some rec ->
  gm_worktrees m !! id = Some worktreeDestroying -> gm_worktrees (snd (cancelFlightLocked rec reason now m)) !! id = Some worktreeDestroying.
Proof.
  intros Hok Hk Hw. pose proof (cancel_tables T m k rec reason now Hok Hk) as Hc. destruct (cancelFlightLocked rec reason now m) as [sid m'].
  destruct Hc as (_ & _ & _ & _ & _ & Hwt). cbn. rewrite Hwt, bool_decide_false; [done|]. intros [E _].
  destruct (ok_key _ _ Hok _ _ Hk) as [_ Hv]. apply valid_id_plain in Hv as [_ Hv]. congruence.
Qed.

Lemma reap_destroying T now id l : forall rel m, member_ok T m -> NoDup (map fst l) ->
  (forall k rec, In (k, rec) l -> gm_flights m !! k = Some rec) ->
  gm_worktrees m !! id = Some worktreeDestroying -> gm_worktrees (snd (foldl (reap_one now) (rel, m) l)) !! id = Some worktreeDestroying.
Proof.
  induction l as [|[k rec] l IH]; intros rel m Hok Hnd Hin Hw; [done|]. cbn [foldl map fst] in *.
  apply NoDup_cons in Hnd as [Hni Hnd]. rewrite list_elem_of_In in Hni. assert (Hk := Hin _ _ (or_introl eq_refl)).
  pose proof (reap_one_spec T now rel m k rec Hok Hk) as H1.
  assert (Hw1 : gm_worktrees (snd (reap_one now (rel, m) (k, rec))) !! id = Some worktreeDestroying).
  { cbn. case_bool_decide; [by destruct (gridCancelledRetention <? _)|]. destruct (expired now rec); [|done].
    pose proof (cancel_destroying T m k rec (lit "lease expired") now id Hok Hk Hw) as Hc.
    exact Hc. }
  destruct (reap_one now (rel, m) (k, rec)) as [rel1 m1]. destruct H1 as (O1 & _ & K1 & _). apply IH; [done|done| |done].
  intros k' f Hf. rewrite K1; [by apply Hin; right|]. intros ->. apply Hni, in_map_iff. by exists (k, f).
Qed.

Lemma plain_destroying T id s st : grid_ok T st -> plain s -> destroying id st -> destroying id (section_step startRec h s st).
Proof.
  unfold destroying, grid_ok. destruct (st_member st) as [m|] eqn:Em; [|done]. intros Hok Hp Hw.
  destruct s as [now|opts now|k ro now|k s reason| |k|k|k rm|sid b|sid|sid now|sid|r b]; cbn [section_step]; unfold on_member; rewrite ?Em; cbn; try done; try (by destruct Hp); try (by rewrite Em).
  - unfold reapLocked. apply (reap_destroying T); [done|exact (NoDup_fst_map_to_list _)| |done].
    intros k rec Hin. by apply elem_of_map_to_list, list_elem_of_In.
  - destruct (validatePlaceOpts opts) as [[user source]|]; [|by rewrite Em]. unfold registerFlight. rewrite Em.
    destruct (gm_drained m); [by rewrite Em|]. destruct (_ || _) eqn:Edup; [by rewrite Em|].
    destruct (gridMaxFlights <=? _); [by rewrite Em|]. destruct (RegisterSession _ _ _ _ _); [|by rewrite Em]. cbn. bsimp.
    rewrite lookup_insert_ne; [done|]. intros <-. apply at_key_lookup in Hw.
    match goal with E : at_key _ _ = [] |- _ => change (at_key (gm_worktrees m) (o_WorktreeID opts) = []) in E; by rewrite Hw in E end.
  - unfold cancel_section, visible_flight. destruct (gm_flights m !! k) as [rec|] eqn:Ek; [|done]. destruct (_ && _); [done|].
    by eapply cancel_destroying.
  - case_bool_decide; [by rewrite Em|]. unfold update_flight. rewrite Em. destruct (gm_flights m !! k); [|by rewrite Em].
    destruct (is_live _); [done|by rewrite Em].
  - unfold record_worktree. rewrite Em. destruct (gm_worktrees m !! k) eqn:E; [by rewrite Em|]. cbn. rewrite lookup_insert_ne; [done|congruence].
Qed.

Lemma reserve_other id k st st' : reserve_worktree k st = Ok st' -> destroying id st -> id <> k /\ destroying id st'.
Proof.
  unfold reserve_worktree, destroying. destruct (st_member st) as [m|]; [|done]. intros Hr Hw.
  destruct (gm_worktrees m !! k) as [w|] eqn:E; [|done]. case_bool_decide; cbn in Hr; [|done]. invc Hr. cbn.
  assert (id <> k) by (intros ->; rewrite Hw in E; by invc E). by rewrite lookup_insert_ne.
Qed.
Lemma reserve_this k st st' : reserve_worktree k st = Ok st' -> destroying k st'.
Proof.
  unfold reserve_worktree, destroying. destruct (st_member st) as [m|]; [|done]. intros Hr.
  destruct (gm_worktrees m !! k); [|done]. destruct (negb _); [done|]. invc Hr. cbn. apply lookup_insert_eq.
Qed.
Lemma finish_other id k removed st : id <> k -> destroying id st -> destroying id (finish_destroy k removed st).
Proof.
  unfold finish_destroy, destroying. destruct (st_member st) as [m|] eqn:Em; [|done]. intros Hne Hw.
  case_bool_decide; [|by rewrite Em]. cbn. destruct removed; [by rewrite lookup_delete_ne|by rewrite lookup_insert_ne].
Qed.

Definition removals_ok (T : Z) (w : gmap nat bytes * gridState) : Prop :=
  grid_ok T (snd w) /\ (forall i id, fst w !! i = Some id -> destroying id (snd w)) /\
  (forall i j id, fst w !! i = Some id -> fst w !! j = Some id -> i = j).

Lemma gstep_ok T w w' : gstep T w w' -> removals_ok T w -> removals_ok T w'.
Proof.
  intros Hstep (Hok & Hd & Hu). destruct Hstep as [s p st Hp Hc|i id p st st' Hi Hr|i id removed p st Hi]; cbn [fst snd] in *; split; cbn [fst snd].
  - by apply section_ok.
  - split; [|done]. intros i id Hi. eapply plain_destroying; [done|done|by eapply Hd].
  - pose proof (reserve_ok T id st Hok) as H1. by rewrite Hr in H1.
  - split.
    + intros j k Hj. apply lookup_insert_Some in Hj as [[<- <-]|[_ Hj]]; [by eapply reserve_this|].
      eapply reserve_other; [done|by eapply Hd].
    + intros j k x Hj Hk. apply lookup_insert_Some in Hj as [[<- <-]|[Hne Hj]]; apply lookup_insert_Some in Hk as [[<- E]|[Hne' Hk]]; try done.
      * by destruct (reserve_other _ _ _ _ Hr (Hd _ _ Hk)).
      * subst. by destruct (reserve_other _ _ _ _ Hr (Hd _ _ Hj)).
      * by eapply Hu.
  - by apply finish_ok.
  - split.
    + intros j k Hj. apply lookup_delete_Some in Hj as [Hne Hj]. apply finish_other; [|by eapply Hd]. intros ->. by apply Hne, (Hu _ _ id).
    + intros j k x Hj Hk. apply lookup_delete_Some in Hj as [_ Hj]. apply lookup_delete_Some in Hk as [_ Hk]. by eapply Hu.
Qed.

(** In every interleaving of grid operations and of any number of destroys,
    while a destroy removes the directory of a worktree the id stays reserved,
    no other destroy removes the same worktree, and no live flight is bound to
    it. *)
Theorem removal_exclusive T st0 p st i id : grid_ok T st0 -> rtc (gstep T) (∅, st0) (p, st) -> p !! i = Some id ->
  destroying id st /\ (forall j, p !! j = Some id -> j = i) /\
  forall m k f, st_member st = Some m -> live_flight m k f -> fl_WorktreeID f <> id.
Proof.
  intros Hok0 Hrun Hi. assert (H0 : removals_ok T (∅, st0)) by (split_and!; by intros).
  assert (Hw : removals_ok T (p, st)).
  { remember (∅, st0) as w0. remember (p, st) as w1. clear -Hrun H0. induction Hrun; [done|]. apply IHHrun. by eapply gstep_ok. }
  destruct Hw as (Hok & Hd & Hu). cbn [fst snd] in *. split_and!; [by eapply Hd|intros j Hj; by eapply Hu|].
  intros m k f Hm Hl E. specialize (Hd _ _ Hi). unfold destroying, grid_ok in *. rewrite Hm in *.
  eapply (free_worktree T m id); [done| |exact Hl|done]. intros x Hx. right. congruence.
Qed.
End Agree.

(** ** Reaping ends the flights that are over *)

Lemma release_get now st id k :
  GetSession k (st_reg (releaseAgentSession now st id)) = if bool_decide (k = id) then None else GetSession k (st_reg st).
Proof.
  unfold releaseAgentSession, GetSession. cbn.
  assert (Hu : forall r, globalSessions (snd (UnregisterSession id r)) = delete id (globalSessions r)).
  { intros r. unfold UnregisterSession. by destruct (globalSessions r !! id). }
  rewrite Hu. case_bool_decide as E.
  - subst. apply lookup_delete_eq.
  - rewrite lookup_delete_ne by done. unfold clearSession, GetSession. destruct (globalSessions (st_reg st) !! id); [|done].
    cbn. by rewrite lookup_insert_ne.
Qed.

Lemma releases_spec now ids : forall st,
  let st' := releaseAgentSessions now ids st in
  st_member st' = st_member st /\ st_scratchRoot st' = st_scratchRoot st /\ st_gate st' = st_gate st /\
  (forall k, GetSession k (st_reg st') = if bool_decide (k ∈ ids) then None else GetSession k (st_reg st)) /\
  (forall k, st_budgets st' !! k = if bool_decide (k ∈ ids) then None else st_budgets st !! k).
Proof.
  induction ids as [|id ids IH]; intros st; cbn zeta.
  { by split_and!; intros; rewrite ?bool_decide_false by apply not_elem_of_nil. }
  change (releaseAgentSessions now (id :: ids) st) with (releaseAgentSessions now ids (releaseAgentSession now st id)).
  assert (Hcons : forall k, k <> id -> bool_decide (k ∈ id :: ids) = bool_decide (k ∈ ids)).
  { intros k Hne. apply bool_decide_ext. rewrite elem_of_cons. tauto. }
  destruct (IH (releaseAgentSession now st id)) as (I1 & I2 & I3 & I4 & I5). split_and!; [done|done|done| |].
  - intros k. rewrite I4, release_get. destruct (decide (k = id)) as [->|Hne].
    + rewrite (bool_decide_true (id = id)), (bool_decide_true (id ∈ id :: ids)) by (done || left). by case_bool_decide.
    + rewrite (bool_decide_false (k = id)) by done. by rewrite (Hcons k Hne).
  - intros k. rewrite I5. unfold releaseAgentSession, ClearAgentBudget. cbn. destruct (decide (k = id)) as [->|Hne].
    + rewrite lookup_delete_eq, (bool_decide_true (id ∈ id :: ids)) by left. by case_bool_decide.
    + rewrite lookup_delete_ne by done. by rewrite (Hcons k Hne).
Qed.

Lemma reap_spec T now st m : st_member st = Some m -> member_ok T m ->
  exists m', st_member (reapExpiredFlights now st) = Some m' /\ member_ok T m' /\
    (forall id, gm_flights m' !! id = gm_flights m !! id ≫= reaped now) /\
    (forall id f, gm_flights m !! id = Some f -> reap_released now f = true ->
       GetSession (fl_SessionID f) (st_reg (reapExpiredFlights now st)) = None /\
       st_budgets (reapExpiredFlights now st) !! fl_SessionID f = None).
Proof.
  intros Hm Hok. unfold reapExpiredFlights. rewrite Hm. pose proof (reapLocked_spec T now m Hok) as Hr.
  destruct (reapLocked now m) as [rel m']. destruct Hr as (O & L & ->). exists m'.
  destruct (releases_spec now (map fl_SessionID (List.filter (reap_released now) (map snd (map_to_list (gm_flights m))))) (with_member (Some m') st))
    as (R1 & _ & _ & R4 & R5). split_and!; [done|done|done|].
  intros id f Hf Hrel. rewrite R4, R5.
  assert (Hin : fl_SessionID f ∈ map fl_SessionID (List.filter (reap_released now) (map snd (map_to_list (gm_flights m))))).
  { apply list_elem_of_In, in_map, filter_In. split; [|done]. apply in_map_iff. exists (id, f). split; [done|].
    by apply list_elem_of_In, elem_of_map_to_list. }
  by rewrite !bool_decide_true.
Qed.

(** After a reap the live flights are exactly those that were live and have
    not reached their expiry, every other live flight is canceled, its agent
    id is free and its session and budget are gone. *)
Theorem reap_ends_flights T now st m : st_member st = Some m -> member_ok T m ->
  let st' := reapExpiredFlights now st in
  exists m', st_member st' = Some m' /\ member_ok T m' /\
    (forall id f, live_flight m' id f -> live_flight m id f /\ now < fl_ExpiresAt f) /\
    (forall id f, live_flight m id f -> now < fl_ExpiresAt f -> live_flight m' id f) /\
    (forall id f, live_flight m id f -> fl_ExpiresAt f <= now ->
       (exists g, gm_flights m' !! id = Some g /\ fl_Status g = Canceled) /\ gm_agents m' !! fl_AgentID f = None /\
       GetSession (fl_SessionID f) (st_reg st') = None /\ st_budgets st' !! fl_SessionID f = None).
Proof.
  intros Hm Hok st'. destruct (reap_spec T now st m Hm Hok) as (m' & Hm' & Hok' & HL & HS). exists m'.
  assert (Hback : forall id f, live_flight m' id f -> live_flight m id f /\ now < fl_ExpiresAt f).
  { intros id f [Hf Hl]. rewrite HL in Hf. destruct (gm_flights m !! id) as [g|] eqn:Eg; [|done]. cbn in Hf. unfold reaped in Hf.
    destruct (decide (fl_Status g = Canceled)) as [E|E]; [rewrite bool_decide_true in Hf by done; by case_match; invc Hf|].
    rewrite bool_decide_false in Hf by done. unfold expired in Hf. destruct (now <? fl_ExpiresAt g) eqn:Et; cbn in Hf; invc Hf; [|done].
    split; [by split|lia]. }
  assert (Hrel : forall f, fl_Status f <> Canceled -> fl_ExpiresAt f <= now -> expired now f = true /\ reap_released now f = true).
  { intros f Hs Ht. unfold reap_released, is_live, expired. rewrite bool_decide_false by done.
    assert ((now <? fl_ExpiresAt f) = false) as -> by lia. done. }
  split_and!; [done|done|done| |].
  - intros id f [Hf Hl] Ht. split; [|done]. rewrite HL, Hf. cbn. unfold reaped, expired. rewrite bool_decide_false by done.
    by assert ((now <? fl_ExpiresAt f) = true) as -> by lia.
  - intros id f [Hf Hl] Ht. destruct (Hrel f Hl Ht) as [He Hr]. destruct (HS id f Hf Hr) as [S1 S2]. split_and!; [|  |done|done].
    + eexists. rewrite HL, Hf. cbn. unfold reaped. rewrite bool_decide_false, He by done. by split.
    + destruct (gm_agents m' !! fl_AgentID f) as [k|] eqn:Ek; [|done]. exfalso.
      destruct (ok_agents _ _ Hok' _ _ Ek) as (g & Hg & Ea). apply Hback in Hg as [Hg Htg].
      destruct (ok_bound _ _ Hok _ _ Hg) as [B _]. destruct (ok_bound _ _ Hok id f) as [B' _]; [by split|].
      rewrite Ea, B' in B. invc B. destruct Hg as [Hg _]. rewrite Hf in Hg. invc Hg. lia.
Qed.

(** ** Placing is all or nothing *)

Section Placing.
Context `{UrlLib} (startRec : Session -> option (Z * bytes)) (h : host).

(** What a placed flight leaves in the tables. *)
Record placed (now : Z) (opts : placeOpts) (st' : gridState) : Prop := {
  pl_flight : exists m f, st_member st' = Some m /\ live_flight m (o_FlightID opts) f /\ fl_ExpiresAt f = now + o_TTL opts /\
      fl_User f = (if o_Remote opts then gridPeerUser else o_User opts) /\ fl_Remote f = o_Remote opts /\
      gm_agents m !! o_AgentID opts = Some (o_FlightID opts) /\ gm_worktrees m !! o_WorktreeID opts = Some (o_FlightID opts) /\
      gm_sessions m !! agentSession (o_AgentID opts) = Some (o_FlightID opts);
  pl_session : exists s a, GetSession (agentSession (o_AgentID opts)) (st_reg st') = Some s /\ s_agentBinding s = Some a /\
      ag_ID a = o_AgentID opts /\ ag_FlightID a = o_FlightID opts /\ ag_Worktree a = o_WorktreeID opts /\ ag_ExpiresAt a = now + o_TTL opts;
  pl_budget : exists c, st_budgets st' !! agentSession (o_AgentID opts) = Some c /\ c_cmdsLeft c = 64 /\ c_bytesLeft c = 1048576 /\
      c_deadline c = now + o_TTL opts /\ c_sponsor c = o_SponsorSession opts }.

Lemma RegisterSession_get now s r r' : RegisterSession startRec now s h r = Ok r' ->
  GetSession (s_ID s) r = None /\ GetSession (s_ID s) r' = Some (prepareSession startRec now s).
Proof.
  unfold RegisterSession, GetSession. destruct (globalSessions r !! s_ID s) eqn:E; [done|]. destruct (sessionCapRefuse h); [done|].
  destruct (_ && _); [done|]. intros Hr. invc Hr. cbn. by rewrite lookup_insert_eq.
Qed.

Lemma prepare_agent now s : s_Out s = None -> s_agentBinding (prepareSession startRec now s) = s_agentBinding s.
Proof.
  intros Ho. unfold prepareSession.
  set (s1 := if s_CreatedAt s =? 0 then _ else _). assert (H1 : s_Out s1 = None /\ s_agentBinding s1 = s_agentBinding s).
  { unfold s1. destruct (s_CreatedAt s =? 0); split; solve [exact Ho|reflexivity]. }
  destruct H1 as [H1' H1]. set (s2 := if s_lastActive s1 =? 0 then _ else _). assert (H2 : s_Out s2 = None /\ s_agentBinding s2 = s_agentBinding s1).
  { unfold s2. destruct (s_lastActive s1 =? 0); split; solve [exact H1'|reflexivity]. }
  destruct H2 as [H2 H3]. rewrite H2. by rewrite H3.
Qed.

(** Placing a flight either fails and leaves the state as it was or as an
    expiry sweep leaves it, or answers placed with the live flight, its agent
    and worktree ids, its registered session bound to the agent and the budget
    of 64 commands and 1 MiB all in place with the expiry of the flight, which
    only a grid that is not drained, a loaded policy and a ttl of one second
    to 24 hours allow. *)
Theorem place_all_or_nothing fs now opts st :
  let '(r, st') := placeFlight startRec h fs now opts st in
  match r with
  | Ok res => placed now opts st' /\ res = mkResult (lit "placed") [] (agentSession (o_AgentID opts)) (o_FlightID opts) /\
              Second <= o_TTL opts <= 24 * Hour /\ gateReady (o_Gate opts) = true /\
              (exists m, st_member st = Some m /\ gm_drained m = false)
  | Err _ => st' = st \/ st' = reapExpiredFlights now st
  end.
Proof.
  unfold placeFlight. destruct (validatePlaceOpts opts) as [[user source]|] eqn:Ev; [|by left].
  pose proof (validatePlaceOpts_ok _ _ _ Ev) as (V1 & V2 & V3 & V4 & V5 & V6 & V7).
  destruct (st_member st) as [m|] eqn:Em; [|by left]. destruct (gm_drained m) eqn:Ed; [by left|].
  set (st1 := reapExpiredFlights now st). destruct (rbind _ _); [|by right].
  destruct (registerFlight _ _ _ _ _ _) as [st2|] eqn:Er; [|by right].
  change (BindAgentBudget _ _ _) with (true, <[agentSession (o_AgentID opts) :=
    mkCharge (list_to_set AgentAllowlist) 64 (Z.shiftl 1 20) (now + o_TTL opts) (o_SponsorSession opts)]> (st_budgets st2)).
  unfold registerFlight in Er. destruct (st_member st1) as [m1|]; [|done]. destruct (gm_drained m1); [done|].
  destruct (_ || _); [done|]. destruct (gridMaxFlights <=? _); [done|]. destruct (RegisterSession _ _ _ _ _) as [r|] eqn:Ereg; [|done]. invc Er.
  apply RegisterSession_get in Ereg as [_ Hget]. split_and!; [|done|lia|lia|done|by exists m]. split.
  - eexists _, (placed_record opts user source now). cbn -[placed_record lookup insert].
    change (fl_ID (placed_record opts user source now)) with (o_FlightID opts).
    change (fl_AgentID (placed_record opts user source now)) with (o_AgentID opts).
    change (fl_WorktreeID (placed_record opts user source now)) with (o_WorktreeID opts).
    change (fl_SessionID (placed_record opts user source now)) with (agentSession (o_AgentID opts)).
    split_and!; try done; try apply lookup_insert_eq.
    + split; [apply lookup_insert_eq|done].
    + cbn. destruct (o_Remote opts); tauto.
  - eexists _, _. split; [exact Hget|]. rewrite prepare_agent by done. by split_and!.
  - eexists. cbn -[lookup insert]. rewrite lookup_insert_eq. by split_and!.
Qed.
End Placing.

(** ** What a peer can do to the flights of the operator *)

Definition same_flight (f g : flightRecord) : Prop :=
  fl_ID g = fl_ID f /\ fl_AgentID g = fl_AgentID f /\ fl_WorktreeID g = fl_WorktreeID f /\ fl_SessionID g = fl_SessionID f /\
  fl_User g = fl_User f /\ fl_ExpiresAt g = fl_ExpiresAt f /\ fl_Remote g = fl_Remote f /\ fl_Source g = fl_Source f.

Definition peer_flight (g : flightRecord) : Prop := fl_Remote g = true /\ fl_User g = gridPeerUser /\ fl_Source g = [].

(** The operator's live flights are kept, canceled only if they are over at
    [now], and the new flights are a peer's. *)
Definition peer_frame (now : Z) (m m' : gridMembership) : Prop :=
  (forall id f, live_flight m id f -> fl_Remote f = false ->
     exists g, gm_flights m' !! id = Some g /\ same_flight f g /\ (fl_Status g = Canceled -> expired now f = true)) /\
  (forall id g, gm_flights m' !! id = Some g -> peer_flight g \/ exists f, gm_flights m !! id = Some f /\ same_flight f g).

Lemma same_refl f : same_flight f f.
Proof. by split_and!. Qed.
Lemma frame_refl now m : peer_frame now m m.
Proof.
  split.
  - intros id f [Hf Hl] _. exists f. split_and!; [done|apply same_refl|done].
  - intros id g Hg. right. exists g. split; [done|apply same_refl].
Qed.

Lemma frame_reaped now m m' : (forall id, gm_flights m' !! id = gm_flights m !! id ≫= reaped now) -> peer_frame now m m'.
Proof.
  intros HL. split.
  - intros id f [Hf Hl] _. rewrite HL, Hf. cbn. unfold reaped. rewrite bool_decide_false by done.
    destruct (expired now f) eqn:Ee; eexists; (split_and!; [reflexivity|by split_and!|by intros]).
  - intros id g Hg. right. rewrite HL in Hg. destruct (gm_flights m !! id) as [f|]; [|done]. exists f. split; [done|].
    cbn in Hg. unfold reaped in Hg. repeat case_match; simplify_eq; by split_and!.
Qed.

Section Peer.
Context `{UrlLib} `{Sha256} `{GridCodec} (quoted : bytes -> bytes) (startRec : Session -> option (Z * bytes)) (h : host).

(** [st'] keeps the member of [st] as a peer may leave it. *)
Definition peer_state (now : Z) (m : gridMembership) (st' : gridState) : Prop :=
  exists m', st_member st' = Some m' /\ peer_frame now m m'.

Lemma peer_same now st m : st_member st = Some m -> peer_state now m st.
Proof. intros Hm. exists m. split; [done|apply frame_refl]. Qed.

Lemma peer_update now id s reason st m : st_member st = Some m -> s <> Canceled -> peer_state now m (update_flight id s reason st).
Proof.
  intros Hm Hs. unfold update_flight. rewrite Hm. destruct (gm_flights m !! id) as [rec|] eqn:Er; [|by apply peer_same].
  destruct (is_live rec); [|by apply peer_same]. eexists. split; [done|]. split; cbn.
  - intros k f [Hf Hl] _. destruct (decide (k = id)) as [->|Hne].
    + rewrite lookup_insert_eq. rewrite Er in Hf. invc Hf. eexists. by split_and!.
    + rewrite lookup_insert_ne, Hf by done. exists f. by split_and!.
  - intros k g Hg. right. apply lookup_insert_Some in Hg as [[<- <-]|[_ Hg]]; [exists rec|exists g]; by split_and!.
Qed.

Lemma peer_rehearse gate now id command remote st m : st_member st = Some m ->
  peer_state now m (snd (rehearseFlight quoted gate now id command remote st)).
Proof.
  intros Hm. assert (Hsame := peer_same now st m Hm). unfold rehearseFlight. destruct (negb (validGridID id)); [done|].
  destruct (negb (validateFlightCommand command)); [done|].
  destruct gate as [gate|]; [|done]. destruct (negb (PolicyLoaded gate)); [done|]. rewrite Hm.
  destruct (gm_flights m !! id) as [rec|]; [|done].
  assert (Hden : forall reason, peer_state now m (rememberFlightDenial id reason (fl_Status rec) st)).
  { intros reason. unfold rememberFlightDenial. case_bool_decide; [done|]. by apply peer_update. }
  destruct (negb (AgentCommandAllowed _)); [apply Hden|]. case_bool_decide; [done|].
  destruct (GetSession _ _) as [session|]; [|done]. destruct (s_agentBinding session) as [agent|]; [|done].
  destruct (negb (now <? ag_ExpiresAt agent)); [done|].
  destruct (EvaluatePolicy _ _) as [[[] reason]|]; [|apply Hden|done]. by apply peer_update.
Qed.

Lemma peer_cancel now id st m T : st_member st = Some m -> member_ok T m -> peer_state now m (snd (cancelFlight now id true st)).
Proof.
  intros Hm Hok. assert (Hsame := peer_same now st m Hm). unfold cancelFlight. destruct (negb (validGridID id)); [done|]. rewrite Hm.
  unfold visible_flight. destruct (gm_flights m !! id) as [rec|] eqn:Er; [|done]. destruct (fl_Remote rec) eqn:Erem; [|done]. cbn [negb andb].
  pose proof (cancel_tables T m id rec [] now Hok Er) as Hc. destruct (cancelFlightLocked rec [] now m) as [sid m'].
  destruct Hc as (_ & Hback & Hfwd & Hcan & _). exists m'. split.
  { by destruct (releases_spec now [sid] (with_member (Some m') st)) as (R & _). }
  split.
  - intros k f [Hf Hl] Hloc. exists f. rewrite (Hfwd k f Hf); [by split_and!|]. intros ->. congruence.
  - intros k g Hg. right. destruct (decide (k = id)) as [->|Hne].
    + destruct Hcan as (f & Hf & _ & E1 & E2 & E3 & E4 & E5 & E6 & E7 & E8). rewrite Hf in Hg. invc Hg. exists rec. split; [done|].
      destruct (ok_key _ _ Hok _ _ Er) as [E9 _]. split_and!; congruence.
    + exists g. split; [by apply Hback|apply same_refl].
Qed.

Lemma peer_place fs now opts st m T : o_Remote opts = true -> st_member st = Some m -> member_ok T m ->
  peer_state now m (snd (placeFlight startRec h fs now opts st)).
Proof.
  intros Hrem Hm Hok. assert (Hsame := peer_same now st m Hm). unfold placeFlight.
  destruct (validatePlaceOpts opts) as [[user source]|] eqn:Ev; [|done].
  apply validatePlaceOpts_ok in Ev as (_ & _ & _ & _ & _ & _ & V). rewrite Hrem in V. destruct V as (-> & -> & _).
  rewrite Hm. destruct (gm_drained m); [done|]. set (st1 := reapExpiredFlights now st).
  destruct (reap_spec T now st m Hm Hok) as (m1 & Hm1 & Hok1 & HL & _). change (st_member st1 = Some m1) in Hm1.
  assert (Hf1 := frame_reaped now m m1 HL). assert (Hp1 : peer_state now m st1) by by exists m1. destruct (rbind _ _); [|done].
  unfold registerFlight. rewrite Hm1. destruct (gm_drained m1); [done|]. destruct (_ || _) eqn:Edup; [done|].
  destruct (gridMaxFlights <=? _); [done|]. destruct (RegisterSession _ _ _ _ _) as [r|]; [|done].
  bsimp. rewrite <- !eq_None_not_Some in *. eexists. split; [reflexivity|].
  match goal with E : gm_flights m1 !! _ = None |- _ => change (gm_flights m1 !! o_FlightID opts = None) in E; rename E into Hnew end.
  destruct Hf1 as [F1 F2]. split; cbn [gm_flights with_tables]; change (fl_ID (placed_record opts gridPeerUser [] now)) with (o_FlightID opts).
  - intros k f Hl Hloc. destruct (F1 k f Hl Hloc) as (g & Hg & Hs). exists g. rewrite lookup_insert_ne; [done|congruence].
  - intros k g Hg. apply lookup_insert_Some in Hg as [[<- <-]|[_ Hg]]; [by left|by apply F2].
Qed.

(** C37: Whatever a peer sends, every live flight the operator placed keeps
    its ids, user, source and expiry and is canceled only if it has expired,
    every flight that is new belongs to the grid-peer user with no source, and
    a request without the membership token or without a gate that has a policy
    loaded changes nothing. *)
Theorem peer_confined T fs now r st m : st_member st = Some m -> member_ok T m ->
  let st' := snd (gridFlightHandler quoted startRec h fs now r st) in
  (exists m', st_member st' = Some m' /\ peer_frame now m m') /\
  (gridTokenMatches (gm_tokenHash m) (bearer_of (h_authorization r)) = false -> st' = st) /\
  ((match st_gate st with Some _ => gateReady (gm_gate m) | None => false end) = false -> st' = st).
Proof.
  intros Hm Hok. assert (Hsame := peer_same now st m Hm). unfold gridFlightHandler. rewrite Hm.
  set (gate := match st_gate st with Some _ => gm_gate m | None => None end).
  assert (Hgate : match st_gate st with Some _ => gateReady (gm_gate m) | None => false end = gateReady gate).
  { unfold gate. by destruct (st_gate st). }
  rewrite Hgate. destruct (negb (bool_decide (h_path r = _))); [by split_and!|]. destruct (negb (bool_decide (h_method r = _))); [by split_and!|].
  destruct (gridMaxBody <? h_contentLength r); [by split_and!|].
  destruct (gridTokenMatches _ _); cbn [negb]; [|by split_and!]. destruct (gridMaxBody <? zlen (h_body r)); [by split_and!|].
  destruct (h_bodyError r); [by split_and!|]. destruct (decode_wire (h_body r)) as [wire|]; [|by split_and!].
  assert (Hd : peer_state now m (snd (dispatchFlightAction quoted startRec h fs now gate (wire_action wire) wire true st)) /\
    (gateReady gate = false -> snd (dispatchFlightAction quoted startRec h fs now gate (wire_action wire) wire true st) = st)).
  { unfold dispatchFlightAction. destruct (gateReady gate); cbn [negb]; split; try done; repeat (case_match; try done).
    - by apply (peer_place _ _ _ _ _ T).
    - by apply peer_rehearse.
    - by apply (peer_cancel _ _ _ _ T). }
  destruct (dispatchFlightAction _ _ _ _ _ _ _ _ _ _) as [[res|e] st']; cbn [snd] in *; by destruct Hd.
Qed.
End Peer.

(** ** Paths stay inside *)

Lemma join_dots bs : has_prefix (lit "../") (join [SLASH] (lit ".." :: bs)) = true \/ join [SLASH] (lit ".." :: bs) = lit "..".
Proof. destruct bs as [|b bs]; [by right|left]. done. Qed.

Lemma join_first y k r : Forall elem (y :: k) -> join [SLASH] (y :: k) = r -> split_byte SLASH r = y :: k.
Proof.
  intros Hl <-. apply split_byte_unique; [done|]. eapply Forall_impl; [exact Hl|]. by intros x [].
Qed.

(** For absolute paths [pathInside] compares whole elements. *)
Lemma pathInside_iff b t : IsAbs b = true -> IsAbs t = true -> pathInside b t = true <-> elems b `prefix_of` elems t.
Proof.
  intros Hb Ht. destruct (Rel_abs b t Hb Ht) as (p & b' & t' & Eb & Et & Hd & HR). unfold pathInside. rewrite HR, Eb, Et.
  pose proof (elems_abs t Ht) as Hel. rewrite Et in Hel. apply Forall_app in Hel as [_ Hel].
  destruct b' as [|x b'].
  - rewrite app_nil_r. split; [intros _; by exists t'|intros _]. destruct t' as [|y k]; [done|]. cbn [map app].
    assert (Hsp : forall r, join [SLASH] (y :: k) = r -> split_byte SLASH r = y :: k) by (intros r; by apply join_first).
    apply Forall_cons in Hel as [Hy _]. rewrite !andb_true_iff, !negb_true_iff. split_and!.
    + apply bool_decide_eq_false. intros E. apply Hsp in E. change (split_byte SLASH (lit "..")) with [lit ".."] in E. invc E. by destruct (el_dots _ Hy).
    + apply not_true_iff_false. intros E. apply has_prefix_spec in E as [r E]. apply Hsp in E. rewrite <- (app_nil_l (lit "../" ++ r)) in E.
      change ([] ++ lit "../" ++ r) with (lit ".." ++ SLASH :: r) in E. rewrite split_app in E. cbn in E. invc E. by destruct (el_dots _ Hy).
    + apply not_true_iff_false. intros E. apply IsAbs_cons in E as [r E]. apply Hsp in E. cbn [split_byte] in E.
      rewrite Ascii.eqb_refl in E. invc E. by destruct (el_full _ Hy).
  - split.
    + intros H. exfalso. revert H. cbn [map app].
      destruct (join_dots (map (fun _ => lit "..") b' ++ t')) as [E|E]; rewrite E; [cbn [negb]; rewrite andb_false_r; by cbn|by vm_compute].
    + intros [r E]. exfalso. rewrite <- app_assoc in E. apply app_inv_head in E. subst t'. by apply Hd.
Qed.

Section Confined.
Context (fs : fileSys).
(** EvalSymlinks gives a clean absolute path for an absolute one. *)
Context (eval_clean : forall p r, IsAbs p = true -> fs_eval fs p = Some r -> clean_abs r).

Definition not_world_writable (dir : bytes) : Prop := exists perm, fs_stat fs dir = Some perm /\ Z.land perm 2 = 0.

Lemma Dir_moves l x : Forall elem (l ++ [x]) -> Dir (abs_path (l ++ [x])) <> abs_path (l ++ [x]).
Proof.
  intros Hl E. rewrite Dir_abs in E by done. apply abs_path_inj in E; [|by apply Forall_app in Hl as [Hl _]|done].
  apply (f_equal length) in E. rewrite length_app in E. cbn in E. lia.
Qed.

Lemma no_world_writable_iff l : forall fuel, Forall elem l -> (length l < fuel)%nat ->
  no_world_writable fuel fs (abs_path l) = Ok tt <-> forall k, k `prefix_of` l -> not_world_writable (abs_path k).
Proof.
  induction l as [|x l IH] using rev_ind; intros fuel Hl Hf; (destruct fuel as [|fuel]; [lia|]); cbn [no_world_writable]; split.
  - intros H k Hk. apply prefix_nil_inv in Hk as ->. destruct (fs_stat fs (abs_path [])) as [perm|] eqn:Es; [|done].
    exists perm. split; [done|]. destruct (Z.land perm 2 =? 0) eqn:E; [lia|done].
  - intros H. destruct (H [] (prefix_nil _)) as (perm & -> & E). by rewrite E, bool_decide_true by apply Dir_root.
  - intros H k Hk. destruct (fs_stat fs (abs_path (l ++ [x]))) as [perm|] eqn:Es; [|done].
    destruct (Z.land perm 2 =? 0) eqn:E; [|done]. cbn [negb] in H. rewrite bool_decide_false in H by by apply Dir_moves.
    rewrite Dir_abs in H by done. rewrite length_app in Hf. cbn in Hf. apply Forall_app in Hl as [Hl _].
    rewrite IH in H by (done || lia). destruct (decide (k = l ++ [x])) as [->|Hne]; [exists perm; split; [done|lia]|].
    apply H. destruct Hk as [r Hr]. destruct r as [|y r _] using rev_ind; [rewrite app_nil_r in Hr; by destruct Hne|].
    rewrite app_assoc in Hr. apply app_inj_tail in Hr as [-> _]. by exists r.
  - intros H. destruct (H (l ++ [x])) as (perm & -> & E); [done|]. rewrite E. cbn [Z.eqb negb].
    rewrite bool_decide_false by by apply Dir_moves. rewrite Dir_abs by done. rewrite length_app in Hf. cbn in Hf.
    apply Forall_app in Hl as [Hl _]. apply IH; [done|lia|]. intros k [r Hk]. apply H. exists (r ++ [x]). by rewrite Hk, app_assoc.
Qed.

(** The search for a directory that exists ends at a prefix of the path, and
    fails only where the file system does. *)
Lemma existing_parent_spec l : forall fuel, Forall elem l -> (length l < fuel)%nat ->
  match existing_parent fuel fs (abs_path l) with
  | Ok p => exists k, k `prefix_of` l /\ p = abs_path k
  | Err _ => exists k, k `prefix_of` l /\ fs_lstat fs (abs_path k) = LFail
  end.
Proof.
  induction l as [|x l IH] using rev_ind; intros fuel Hl Hf; (destruct fuel as [|fuel]; [lia|]); cbn [existing_parent].
  - destruct (fs_lstat fs (abs_path [])) eqn:E; [|by exists []|by exists []]. rewrite bool_decide_true by apply Dir_root. by exists [].
  - destruct (fs_lstat fs (abs_path (l ++ [x]))) eqn:E; [|by exists (l ++ [x])|by exists (l ++ [x])].
    rewrite bool_decide_false by by apply Dir_moves. rewrite Dir_abs by done. rewrite length_app in Hf. cbn in Hf.
    apply Forall_app in Hl as [Hl _]. specialize (IH fuel Hl ltac:(lia)).
    destruct (existing_parent fuel fs (abs_path l)) as [p|]; destruct IH as (k & Hk & ->) || destruct IH as (k & Hk & E2);
      exists k; (split; [|done]); etrans; try exact Hk; by exists [x].
Qed.

(** What a scratch root that passed the check is. *)
Record safe_root (root : bytes) : Prop := {
  sr_clean : clean_abs root;
  sr_real : exists look, look = LStat false true 448 (fs_euid fs) /\ (look = fs_lstat fs root \/ look = fs_lstat_again fs root);
  sr_above : exists k l, k `prefix_of` elems root /\ fs_eval fs (abs_path k) = Some (abs_path l) /\ Forall elem l /\
               forall a, a `prefix_of` l -> not_world_writable (abs_path a) }.

Lemma checkedScratchRoot_safe scratch root : checkedScratchRoot fs scratch = Ok root -> safe_root root.
Proof.
  unfold checkedScratchRoot. rewrite Clean_IsAbs. destruct (IsAbs scratch) eqn:Ea; cbn [negb]; [|done].
  pose proof (Clean_clean scratch Ea) as Hclean. set (r := Clean scratch) in *. intros H.
  destruct (refuseWorldWritableAncestor fs r) as [[]|] eqn:Ew; cbn in H; [|done].
  assert (Hlook : root = r /\ exists look, look = LStat false true 448 (fs_euid fs) /\ (look = fs_lstat fs r \/ look = fs_lstat_again fs r)).
  { set (info := match fs_lstat fs r with LMissing => _ | _ => _ end) in H.
    assert (Hinfo : forall i, info = Ok i -> i = fs_lstat fs r \/ i = fs_lstat_again fs r).
    { unfold info. intros i. destruct (fs_lstat fs r); [|intros [= <-]; by left..]. destruct (negb _); [done|].
      destruct (fs_mkdir fs r); try done; intros [= <-]; by right. }
    destruct info as [i|]; cbn in H; [|done]. specialize (Hinfo i eq_refl). destruct i as [| |link dir perm uid]; try done.
    destruct link; [done|]. destruct dir; [|done]. destruct (uid =? fs_euid fs) eqn:Eu; [|done]. destruct (perm =? 448) eqn:Ep; [|done].
    cbn in H. invc H. split; [done|]. exists (LStat false true perm uid). split; [f_equal; lia|done]. }
  destruct Hlook as [-> Hlook]. split; [done|done|]. unfold refuseWorldWritableAncestor in Ew.
  destruct Hclean as (l & Hl & Er). rewrite Er in Ew.
  assert (Hdir : exists d, Dir (abs_path l) = abs_path d /\ d `prefix_of` l /\ Forall elem d).
  { destruct l as [|x l _] using rev_ind; [by exists []|]. exists l. rewrite Dir_abs by done. split_and!; [done|by exists [x]|by apply Forall_app in Hl as [Hl _]]. }
  destruct Hdir as (d & Ed & Hd & Hde). rewrite Ed in Ew. unfold path_fuel in Ew. rewrite elems_abs_path in Ew by done.
  pose proof (existing_parent_spec d (S (length d)) Hde ltac:(lia)) as Hp.
  destruct (existing_parent _ fs (abs_path d)) as [p|]; cbn [rbind] in Ew; [|done]. destruct Hp as (k & Hk & ->).
  destruct (fs_eval fs (abs_path k)) as [resolved|] eqn:Ev; [|done]. destruct (eval_clean (abs_path k) resolved eq_refl Ev) as (a & Ha & ->).
  rewrite elems_abs_path in Ew by done. rewrite no_world_writable_iff in Ew by (done || lia).
  exists k, a. rewrite Er, elems_abs_path by done. split_and!; [by etrans|done|done|done].
Qed.

Lemma grid_id_elem id : validGridID id = true -> elem id.
Proof.
  unfold validGridID, roleNamePattern. destruct id as [|c s]; [done|]. intros H. bsimp. rename H into Hc.
  assert (Hall : forallb role_char (c :: s) = true).
  { cbn. unfold role_char at 1. rewrite Hc. cbn. done. }
  split; [done|intros E; invc E; done|intros E; invc E; done|]. intros Hin. rewrite forallb_forall in Hall. by specialize (Hall _ Hin).
Qed.

Lemma confinedWorktreePath_ok scratch id path : confinedWorktreePath fs scratch id = Ok path ->
  validGridID id = true /\ exists root, checkedScratchRoot fs scratch = Ok root /\ safe_root root /\ path = abs_path (elems root ++ [id]).
Proof.
  unfold confinedWorktreePath. destruct (validGridID id) eqn:Ev; cbn [negb]; [|done].
  destruct (checkedScratchRoot fs scratch) as [root|] eqn:Er; cbn; [|done]. pose proof (checkedScratchRoot_safe _ _ Er) as Hs.
  destruct (negb (pathInside root (Join root id))); [done|]. intros H. invc H. split; [done|]. exists root.
  split_and!; [done|done|]. apply Join_elem; [apply Hs|by apply grid_id_elem].
Qed.

(** A valid id never leaves a root that passed the check. *)
Lemma confinedWorktreePath_total scratch id root : validGridID id = true -> checkedScratchRoot fs scratch = Ok root ->
  confinedWorktreePath fs scratch id = Ok (abs_path (elems root ++ [id])).
Proof.
  intros Hv Hr. unfold confinedWorktreePath. rewrite Hv, Hr. cbn. pose proof (checkedScratchRoot_safe _ _ Hr) as Hs.
  assert (Hid := grid_id_elem _ Hv). rewrite (Join_elem root id) by (done || apply Hs).
  destruct (clean_abs_Clean root (sr_clean _ Hs)) as [_ Habs].
  assert (Hin : pathInside root (abs_path (elems root ++ [id])) = true).
  { apply pathInside_iff; [done|done|]. rewrite elems_abs_path; [by exists [id]|]. apply Forall_app. split; [by apply elems_abs|by constructor]. }
  by rewrite Hin.
Qed.

(** A file that repoCat returns is a regular file of at most 1 MiB whose path,
    with every symbolic link resolved, is inside the resolved directory of the
    worktree, which is itself a real directory under a scratch root of this
    user with mode 0700 and no world-writable ancestor. *)
Theorem repoCat_confined scratch id rel data : repoCat fs scratch id rel = Ok data ->
  exists root base resolved f,
    safe_root root /\ fs_eval fs (abs_path (elems root ++ [id])) = Some base /\
    (exists perm uid, fs_lstat fs (abs_path (elems root ++ [id])) = LStat false true perm uid) /\
    elems base `prefix_of` elems resolved /\ fs_open fs resolved = Present f /\ f_kind f = Regular /\ data = f_data f /\ zlen data <= 1048576.
Proof.
  unfold repoCat. destruct (negb (validGridID id)); [done|]. destruct (negb (validateRepoPath rel)); [done|].
  destruct (confinedWorktreePath fs scratch id) as [path|] eqn:Ep; cbn; [|done].
  apply confinedWorktreePath_ok in Ep as (Hv & root & Hr & Hs & ->).
  destruct (fs_lstat fs _) as [| |[] [] perm uid] eqn:El; try done. destruct (fs_eval fs (abs_path _)) as [base|] eqn:Eb; [|done].
  destruct (negb (validateRepoPath (Clean rel))); [done|]. destruct (negb (pathInside base (Join base (Clean rel)))) eqn:Ef; [done|].
  destruct (fs_eval fs (Join base (Clean rel))) as [resolved|] eqn:Ee; [|done].
  destruct (negb (pathInside base resolved)) eqn:Ei; [done|]. destruct (fs_open fs resolved) as [| |f] eqn:Eo; try done.
  destruct (f_kind f) eqn:Ek; try done. destruct (gridMaxCat <? zlen (f_data f)) eqn:Es; [done|]. intros H. invc H.
  apply negb_false_iff in Ei, Ef. exists root, base, resolved, f. change gridMaxCat with 1048576 in Es.
  assert (Hbase : IsAbs base = true) by by apply (clean_abs_Clean base), (eval_clean (abs_path (elems root ++ [id])) base eq_refl Eb).
  split_and!; [done|done|by eexists _, _| |done|done|done|lia].
  apply pathInside_iff; [done| |done]. apply (clean_abs_Clean resolved). eapply eval_clean; [|exact Ee].
  destruct base; [done|]. unfold Join. destruct (Clean rel); by rewrite Clean_IsAbs.
Qed.
End Confined.

(** ** Concrete inputs *)

Definition toy_fs : fileSys :=
  mkFS (fun _ => LStat false true 448 1000) (fun _ => LMissing) (fun _ => Some 493) (fun p => Some (Clean p)) (fun _ => true)
    (fun _ => MkOk) (fun _ => true) (fun _ => true) (fun _ => Present (mkFile Regular 420 0 (lit "data"))) 1000.
Definition toy_gate : Gate :=
  mkGate true (fun command args sid => mkPctx (lit "amy") [] command args [] [] sid None None None None None None false)
    (fun p => Some (negb (bool_decide (p_User p = gridPeerUser)), lit "peers only look")).
Definition toy_wire (action id agent worktree : string) : flightWire :=
  mkWire (lit action) (lit id) (lit agent) (lit worktree) 600 false [lit "why"] [].
#[local] Instance toy_codec : GridCodec := {|
  decode_wire body :=
    if bool_decide (body = lit "place") then Some (toy_wire "place" "f1" "a1" "w1")
    else if bool_decide (body = lit "cancel") then Some (toy_wire "cancel" "f1" "a1" "w1")
    else if bool_decide (body = lit "rehearse f2") then Some (toy_wire "rehearse" "f2" "a1" "w1")
    else if bool_decide (body = lit "rehearse f9") then Some (toy_wire "rehearse" "f9" "a1" "w1") else None;
  encode_result r := r_Status r; encode_wire _ := []; decode_result _ := None |}.
#[local] Instance toy_urls : UrlLib := {| url_Parse _ := None |}.
#[local] Instance toy_digest : Sha256 := {| sha256_hex s := s |}.
Definition toy_grid : gridState := mkGrid None (lit "/data/worktrees") (Some toy_gate) emptyRegistry ∅.
Definition toy_member : gridState :=
  snd (installGridServer (lit "https://127.0.0.1:9") (Some toy_gate) (lit "tok") (lit "tok")
    (snd (initGrid (lit "g1") (lit "/token") [] [] (Present (mkFile Regular 384 0 (lit "tok"))) None toy_grid))).
Definition toy_request (body : string) : httpRequest :=
  mkReq (lit "/v1/flight") (lit "POST") 10 (lit "Bearer tok") (lit body) false.
Definition toy_place (id agent worktree : string) : placeOpts :=
  mkOpts (lit id) (lit agent) (lit worktree) (10 * Minute) (lit "amy") (lit "s1") false (Some toy_gate) (lit "/src/repo").
Definition toy_run (l : list gridOp) (st : gridState) : gridState :=
  foldl (fun st op => grid_op (fun s => s) (fun _ => None) defaultHost op st) st l.
Definition peer_op (body : string) : gridOp := OpRequest toy_fs 1000 (toy_request body).

(** A flight's status, its source, whether its agent has a session and a
    budget: what an operator sees of flight [id] of agent [a]. *)
Definition seen (id a : string) (st : gridState) : option (flightStatusCode * bytes) * bool * bool :=
  (match st_member st with Some m => (fun f => (fl_Status f, fl_Source f)) <$> gm_flights m !! lit id | None => None end,
   bool_decide (is_Some (GetSession (agentSession (lit a)) (st_reg st))), bool_decide (is_Some (st_budgets st !! agentSession (lit a)))).

(** A second cancel of a canceled flight releases the session of the flight
    that holds the agent now: the peer's old flight [f1] and the operator's
    live flight [f2] share the agent id. *)
Example peer_cancel_ends_local_session :
  let ops := [peer_op "place"; peer_op "cancel"; OpPlace toy_fs 1000 (toy_place "f2" "a1" "w2")] in
  seen "f2" "a1" (toy_run ops toy_member) = (Some (Placed, lit "/src/repo"), true, true) /\
  seen "f2" "a1" (toy_run (ops ++ [peer_op "cancel"]) toy_member) = (Some (Placed, lit "/src/repo"), false, false).
Proof. vm_compute. by split. Qed.

(** The release unbinds the agent before it unregisters the session: in
    between the session is there with no agent and no budget. *)
Example release_unbinds_first :
  let st := toy_run [OpPlace toy_fs 1000 (toy_place "f1" "a1" "w1")] toy_member in
  let st := run_sections (fun _ => None) defaultHost [SCancel (lit "f1") false 1001; SClear (lit "agent-a1"); SUnbind (lit "agent-a1") 1001] st in
  (fun s => (s_User s, bool_decide (is_Some (s_agentBinding s)))) <$> GetSession (lit "agent-a1") (st_reg st) = Some (lit "amy", false) /\
  st_budgets st !! lit "agent-a1" = None.
Proof. vm_compute. by split. Qed.

(** A rehearsal shows a peer the operator's flights and marks them. *)
Example peer_rehearses_local :
  let st := toy_run [OpPlace toy_fs 1000 (toy_place "f2" "a1" "w2")] toy_member in
  let ask body := gridFlightHandler (fun s => s) (fun _ => None) defaultHost toy_fs 1000 (toy_request body) st in
  fst (ask "rehearse f2"%string) = (200, lit "denied") /\ fst (ask "rehearse f9"%string) = (404, lit "flight: not found" ++ [NL]) /\
  seen "f2" "a1" (snd (ask "rehearse f2"%string)) = (Some (Denied, lit "/src/repo"), true, true).
Proof. vm_compute. by split. Qed.

Lemma toy_member_ok T : exists m, st_member toy_member = Some m /\ member_ok T m.
Proof.
  eexists. split; [vm_compute; reflexivity|]. split; cbn; try (by intros); try (by intros ? ? [? _]).
Qed.

Lemma flight_tables_agree_witness :
  let l := [SRegister (toy_place "f1" "a1" "w1") 1000; SCancel (lit "f1") false 1001; SReap 1002] in
  exists m, st_member (run_sections (fun _ => None) defaultHost l
      (snd (initGrid (lit "g1") (lit "/token") [] [] (Present (mkFile Regular 384 0 (lit "tok"))) None toy_grid))) = Some m /\
    member_ok 1002 m.
Proof.
  intros l. eapply (flight_tables_agree (fun _ => None) defaultHost 1002 (lit "g1") (lit "/token") [] []
    (Present (mkFile Regular 384 0 (lit "tok"))) None toy_grid _ (lit "g1", lit "tok") l).
  - vm_compute. reflexivity.
  - intros s t [<-|[<-|[<-|[]]]]; cbn; intros [= <-]; lia.
Defined.

Lemma removal_exclusive_witness :
  let free := section_step (fun _ => None) defaultHost (SRecord (lit "w1")) toy_member in
  exists st, reserve_worktree (lit "w1") free = Ok st /\ destroying (lit "w1") st.
Proof.
  intros free. eexists. split; [vm_compute; reflexivity|].
  refine (proj1 (removal_exclusive (fun _ => None) defaultHost 0 toy_member {[0%nat := lit "w1"]} _ 0%nat (lit "w1") _ _ _)).
  - destruct (toy_member_ok 0) as (m & Hm & Hok). unfold grid_ok. rewrite Hm. exact Hok.
  - eapply rtc_l; [apply (g_section _ _ 0 (SRecord (lit "w1"))); [exact I|discriminate]|].
    eapply rtc_l; [|apply rtc_refl]. eapply (g_reserve _ _ 0 0%nat (lit "w1")); [reflexivity|vm_compute; reflexivity].
  - reflexivity.
Defined.

Lemma reap_ends_flights_witness :
  let st := toy_run [OpPlace toy_fs 1000 (toy_place "f1" "a1" "w1")] toy_member in
  let late := 1000 + 10 * Minute in
  seen "f1" "a1" (reapExpiredFlights (late - 1) st) = (Some (Placed, lit "/src/repo"), true, true) /\
  seen "f1" "a1" (reapExpiredFlights late st) = (Some (Canceled, lit "/src/repo"), false, false) /\
  exists m', st_member (reapExpiredFlights late st) = Some m' /\ member_ok late m'.
Proof.
  intros st late. split; [vm_compute; reflexivity|]. split; [vm_compute; reflexivity|].
  assert (Hm : exists m, st_member st = Some m /\ member_ok late m).
  { destruct (by_place (fun _ => None) defaultHost toy_fs 1000 (toy_place "f1" "a1" "w1") toy_member)
      as (l & Hl & Hc).
    destruct (toy_member_ok late) as (m0 & Hm0 & Hok0).
    destruct (sections_member (fun _ => None) defaultHost l toy_member m0 Hm0) as [m Hm]. exists m.
    assert (Hst : st = run_sections (fun _ => None) defaultHost l toy_member) by exact Hl. rewrite Hst. split; [exact Hm|].
    assert (Hg : grid_ok late toy_member) by (unfold grid_ok; rewrite Hm0; exact Hok0).
    apply (sections_ok (fun _ => None) defaultHost late l) in Hg; [unfold grid_ok in Hg; rewrite Hm in Hg; exact Hg|].
    intros s t Hs Ht. specialize (Hc s t Hs Ht). cbn in Hc. injection Hc as <-. unfold late. vm_compute. discriminate. }
  destruct Hm as (m & Hm & Hok). destruct (reap_ends_flights late late st m Hm Hok) as (m' & H1 & H2 & _). exists m'. split; assumption.
Defined.

Lemma peer_confined_witness :
  exists m, st_member toy_member = Some m /\
    gridTokenMatches (gm_tokenHash m) (bearer_of (lit "Bearer tok")) = true /\
    exists m', st_member (snd (gridFlightHandler (fun s => s) (fun _ => None) defaultHost toy_fs 1000 (toy_request "place") toy_member)) = Some m' /\
      peer_frame 1000 m m'.
Proof.
  destruct (toy_member_ok 0) as (m & Hm & Hok). exists m. split; [exact Hm|].
  split; [vm_compute in Hm; injection Hm as <-; vm_compute; reflexivity|].
  exact (proj1 (peer_confined (fun s => s) (fun _ => None) defaultHost 0 toy_fs 1000 (toy_request "place") toy_member m Hm Hok)).
Defined.

Lemma repoCat_confined_witness :
  repoCat toy_fs (lit "/data/worktrees") (lit "w1") (lit "README") = Ok (lit "data") /\
  repoCat toy_fs (lit "/data/worktrees") (lit "w1") (lit "a/../../w2/x") = Err repo_escapes /\
  exists root, safe_root toy_fs root.
Proof.
  split; [vm_compute; reflexivity|]. split; [vm_compute; reflexivity|].
  assert (Heval : forall p r, IsAbs p = true -> fs_eval toy_fs p = Some r -> clean_abs r).
  { intros p r Hp Hr. injection Hr as <-. apply Clean_clean. exact Hp. }
  destruct (repoCat_confined toy_fs Heval (lit "/data/worktrees") (lit "w1") (lit "README") (lit "data")) as (root & base & resolved & f & Hroot & _).
  - vm_compute. reflexivity.
  - exists root. exact Hroot.
Defined.
