(* ===== verification/GridVbin.v ===== *)
(** * The grid's virtual binaries and its client

    internal/grid/vbin_ee.go: the flags and the bodies of grid, flight, agent,
    worktree and repo, with the elevation they need; from grid_ee.go the
    listener's configuration and the client that posts a flight to a peer. *)

From S2P Require Import Prelude GoBytes GoTime GoPath NetIP MonitorProto Policy Session AdminPlane SafeFile Grid.
From stdpp Require Import pretty sorting.
#[local] Open Scope Z_scope.
#[local] Arguments lit : simpl never.

(** ** Errors and flags *)

(** [UnknownOption] and [NeedsValue] print the argument with %q and %s. *)
Inductive vbinErr :=
| VText (msg : bytes) | VUsage (command : bytes) | UnknownOption (command arg : bytes) | NeedsValue (command arg : bytes)
| VRequired (command name : bytes) | VGrid (e : gridError).
Definition says {A} (msg : string) : result vbinErr A := Err (VText (lit msg)).
Definition of_grid {A} (r : result gridError A) : result vbinErr A := match r with Ok a => Ok a | Err e => Err (VGrid e) end.
Definition of_text {A} (r : result bytes A) : result vbinErr A := match r with Ok a => Ok a | Err e => Err (VText e) end.

Fixpoint splitDashDash (args : list bytes) : list bytes * list bytes :=
  match args with
  | [] => ([], [])
  | arg :: args' =>
      if bool_decide (arg = lit "--") then ([], args')
      else let '(head, rest) := splitDashDash args' in (arg :: head, rest)
  end.

(** Every flag takes a value. *)
Fixpoint parse_flags (command : bytes) (valued : list string) (args : list bytes) (out : gmap bytes bytes)
  : result vbinErr (gmap bytes bytes) :=
  match args with
  | [] => Ok out
  | arg :: args' =>
      if negb (has_prefix (lit "--") arg) || (zlen arg <? 3) then Err (UnknownOption command arg)
      else
        let name := drop 2 arg in
        if negb (is_one_of name valued) || bool_decide (is_Some (out !! name)) then Err (UnknownOption command arg)
        else match args' with
        | [] => Err (NeedsValue command arg)
        | value :: args'' =>
            if has_prefix (lit "--") value then Err (NeedsValue command arg)
            else parse_flags command valued args'' (<[name := value]> out)
        end
  end.
Definition parseNamedFlags (command : string) (args : list bytes) (valued : list string) : result vbinErr (gmap bytes bytes) :=
  parse_flags (lit command) valued args ∅.

Definition flag (flags : gmap bytes bytes) (name : string) : bytes := at_key flags (lit name).
Definition requiredFlag (command : string) (flags : gmap bytes bytes) (name : string) : result vbinErr bytes :=
  if bool_decide (flag flags name = []) then Err (VRequired (lit command) (lit name)) else Ok (flag flags name).
Definition dashIfEmpty (value : bytes) : bytes := if bool_decide (value = []) then lit "-" else value.

Definition rejectOrphanRemoteFlags (flags : gmap bytes bytes) : result vbinErr unit :=
  if negb (bool_decide (flag flags "host" = [])) then Ok tt
  else if bool_decide (flag flags "ca" = []) && bool_decide (flag flags "server-name" = []) && bool_decide (flag flags "token-file" = [])
  then Ok tt else says "flight: --host is required".

Definition parseFlightTTL (raw : bytes) (remote : bool) : result vbinErr (Z * Z) :=
  match ParseDuration raw with
  | None => says "flight: ttl is invalid"
  | Some ttl =>
      if (ttl <? Second) || (24 * Hour <? ttl) then says "flight: ttl is invalid"
      else if remote && negb (Z.rem ttl Second =? 0) then says "flight: ttl is invalid"
      else Ok (ttl, Z.quot ttl Second)
  end.

(** ** The listener's configuration *)

Definition loadGridListenConfig `{Sha256} (listen certFile keyFile tokenFile : bytes) (cert_ok : bool) (look : disk)
  : result vbinErr (bytes * bytes) :=
  let blank s := bool_decide (trim_space s = []) in
  if blank certFile || blank keyFile || blank tokenFile then says "grid: cert, key, and token file are required"
  else match SplitHostPort listen with
  | None => says "grid: listen address must be a loopback IP"
  | Some host =>
      match ParseIP host with
      | None => says "grid: listen address must be a loopback IP"
      | Some ip =>
          if negb (IsLoopback ip) then says "grid: listen address must be a loopback IP"
          else if negb cert_ok then says "grid: certificate"
          else match loadMembershipToken look with None => says "grid: token file" | Some t => Ok t end
      end
  end.

(** ** The client *)

Record flightClientOpts := mkClient {
  fc_Host : bytes; fc_CAFile : bytes; fc_ServerName : bytes; fc_TokenFile : bytes; fc_Action : bytes; fc_Wire : flightWire }.

(** [url.Parse] of the host, and the endpoint that a parsed URL prints to with
    the flight path and without query and fragment. *)
Class EndpointLib := { parse_host : bytes -> option goURL; endpoint_of : bytes -> bytes }.

Definition flightEndpoint `{EndpointLib} (opts : flightClientOpts) : result vbinErr bytes :=
  if bool_decide (fc_CAFile opts = []) then says "flight: --host requires --ca"
  else match parse_host (fc_Host opts) with
  | None => says "flight: host must be https"
  | Some u =>
      if u_User u then says "flight: credentials are rejected"
      else if negb (bool_decide (u_Scheme u = lit "https")) then says "flight: host must be https"
      else if bool_decide (fc_TokenFile opts = []) then says "flight: --host requires --token-file"
      else Ok (endpoint_of (fc_Host opts))
  end.

(** [loadFlightCA]; [pem] tells whether the file holds a certificate. *)
Definition loadFlightCA (pem : bytes -> bool) (look : disk) : result vbinErr bytes :=
  match Open look with
  | Err _ => says "flight: ca file"
  | Ok f =>
      match ReadAll f gridMaxCA with
      | Err ErrTooLarge => says "flight: ca file is too large"
      | Err _ => says "flight: ca file"
      | Ok data => if pem data then Ok data else says "flight: ca file has no certificates"
      end
  end.

Definition decodeFlightResponse `{GridCodec} (status : Z) (body : option bytes) : result vbinErr flightResult :=
  match body with
  | None => says "flight: response failed"
  | Some body =>
      if gridMaxCA <? zlen body then says "flight: response too large"
      else
        let text := Err (VText (lit "flight: " ++ trim_space body)) in
        if negb (status =? 200) then text
        else match decode_result body with
        | None => text
        | Some r => if bool_decide (r_Status r = lit "denied") then Err (VText (lit "flight: denied: " ++ r_Reason r)) else Ok r
        end
  end.

(** What a client reaches: the CA file, the token file, and the round trip of
    a request with its target, bearer and body, under the CA and server name. *)
Record clientEnv := mkClientEnv {
  ce_pem : bytes -> bool; ce_ca : disk; ce_token : disk;
  ce_send : bytes -> bytes -> bytes -> bytes -> bytes -> option (Z * option bytes) }.

Definition set_action (action : bytes) (w : flightWire) : flightWire :=
  if bool_decide (w_Action w = []) then
    mkWire action (w_FlightID w) (w_AgentID w) (w_WorktreeID w) (w_TTLSeconds w) (w_Rehearsal w) (w_Command w) (w_User w)
  else w.

Definition postFlight `{GridCodec} `{Sha256} `{EndpointLib} (ce : clientEnv) (gate : option Gate) (opts : flightClientOpts)
  : result vbinErr flightResult :=
  let! target := flightEndpoint opts in
  let action := if bool_decide (fc_Action opts = []) then w_Action (fc_Wire opts) else fc_Action opts in
  if is_one_of action ["place"; "rehearse"; "rehearsal"] && negb (gateReady gate) then Err (VGrid (gridErr 403 "policy_required"))
  else
    let! ca := loadFlightCA (ce_pem ce) (ce_ca ce) in
    match loadMembershipToken (ce_token ce) with
    | None => says "grid: token file"
    | Some (token, _) =>
        let name := if bool_decide (fc_ServerName opts = []) then lit "localhost" else fc_ServerName opts in
        match ce_send ce ca name target (lit "Bearer " ++ token) (encode_wire (set_action action (fc_Wire opts))) with
        | None => says "flight: request failed"
        | Some (status, body) => decodeFlightResponse status body
        end
    end.

(** ** The bodies

    A body changes the grid's state and ends with the text it prints or an
    error. *)

Definition M (A : Type) : Type := gridState -> result vbinErr A * gridState.
Definition ret {A} (a : A) : M A := fun st => (Ok a, st).
Definition andThen {A B} (m : M A) (k : A -> M B) : M B :=
  fun st => match m st with (Ok a, st) => k a st | (Err e, st) => (Err e, st) end.
Notation "'let*' x ':=' m 'in' k" := (andThen m (fun x => k)) (at level 10, x pattern, m at level 100, k at level 200) : go_scope.
Definition check {A} (r : result vbinErr A) : M A := fun st => (r, st).
Definition grid_call {A} (f : gridState -> result gridError A * gridState) : M A := fun st => let '(r, st) := f st in (of_grid r, st).
Definition text_call {A} (f : gridState -> result bytes A * gridState) : M A := fun st => let '(r, st) := f st in (of_text r, st).

(** What a dispatched binary has around it: the clock, its session, the
    engine that dispatched it, the file system, the client, the random id, the
    token files, the listener and git. *)
Record vbinEnv := mkVEnv {
  ve_now : Z; ve_sid : bytes; ve_engine : option Gate; ve_fs : fileSys; ve_quoted : bytes -> bytes;
  ve_startRec : Session -> option (Z * bytes); ve_host : host; ve_client : clientEnv; ve_random : bytes;
  ve_token : disk; ve_tokenOut : option bytes; ve_cert : bool; ve_url : bytes; ve_git : bytes -> bytes -> bytes -> option bytes }.

Section Bodies.
Context `{UrlLib} `{GridCodec} `{Sha256} `{EndpointLib} (env : vbinEnv).

Definition gateFor : M Gate := fun st =>
  match st_gate st with
  | None => (says "grid: no policy gate", st)
  | Some g => (Ok (default g (ve_engine env)), st)
  end.

Definition needsGridOps {A} (command : string) : result vbinErr A :=
  Err (VText (lit command ++ lit ": requires an active gridops elevation")).

(** An expired elevation is dropped from the session object. *)
Definition requireGridOps (command : string) : M Session := fun st =>
  match GetSession (ve_sid env) (st_reg st) with
  | None => (needsGridOps command, st)
  | Some s =>
      match s_agentBinding s with
      | Some _ => (needsGridOps command, st)
      | None =>
          let '(e, s) := ActiveElevation (ve_now env) s in
          let r := st_reg st in
          let st := with_reg (mkReg (<[ve_sid env := s]> (globalSessions r)) (unregisterHooks r) (unregisterHookSeq r)) st in
          match e with
          | Some e => if bool_decide (el_Role e = lit "gridops") then (Ok s, st) else (needsGridOps command, st)
          | None => (needsGridOps command, st)
          end
      end
  end.

Definition requireSession (msg : string) : M Session := fun st =>
  match GetSession (ve_sid env) (st_reg st) with Some s => (Ok s, st) | None => (says msg, st) end.

Definition requireAgentWorktree (s : Session) (id : bytes) (command : string) : result vbinErr unit :=
  match s_agentBinding s with
  | None => Ok tt
  | Some agent =>
      if negb (ve_now env <? ag_ExpiresAt agent) then Err (VText (lit command ++ lit ": agent lease expired"))
      else if negb (bool_decide (ag_Worktree agent = id)) then Err (VText (lit command ++ lit ": agent is bound to a different worktree"))
      else Ok tt
  end.

Definition no_rest (command : string) (rest : list bytes) : result vbinErr unit :=
  match rest with [] => Ok tt | x :: _ => Err (UnknownOption (lit command) x) end.
Definition bool_text (b : bool) : bytes := if b then lit "true" else lit "false".

Definition gridServe (args : list bytes) : M bytes :=
  let* flags := check (parseNamedFlags "grid" args ["listen"; "cert"; "key"; "token-file"]) in
  let* listen := check (requiredFlag "grid" flags "listen") in
  let* cert := check (requiredFlag "grid" flags "cert") in
  let* key := check (requiredFlag "grid" flags "key") in
  let* tokenFile := check (requiredFlag "grid" flags "token-file") in
  let* gate := gateFor in
  let* (token, hash) := check (loadGridListenConfig listen cert key tokenFile (ve_cert env) (ve_token env)) in
  let* url := grid_call (installGridServer (ve_url env) (Some gate) token hash) in
  ret (lit "grid: listening " ++ url ++ [NL]).

Definition gridRun (args : list bytes) : M bytes :=
  let* _ := gateFor in let* _ := requireGridOps "grid" in
  match args with
  | _ :: verb :: args' =>
      let '(head, rest) := splitDashDash args' in
      let* _ := check (no_rest "grid" rest) in
      if bool_decide (verb = lit "status") then
        let* _ := check (parseNamedFlags "grid" head []) in
        let* (id, fingerprint, listen, drained, flights) := grid_call (gridStatus (ve_now env)) in
        ret (lit "grid: id=" ++ id ++ lit " fingerprint=" ++ fingerprint ++ lit " drained=" ++ bool_text drained
             ++ lit " flights=" ++ lit (pretty flights) ++ lit " listening=" ++ dashIfEmpty listen ++ [NL])
      else if bool_decide (verb = lit "init") then
        let* flags := check (parseNamedFlags "grid" head ["id"; "token-file"; "token-out"]) in
        let* (id, fingerprint) := grid_call (initGrid (flag flags "id") (flag flags "token-file") (flag flags "token-out")
                                             (ve_random env) (ve_token env) (ve_tokenOut env)) in
        ret (lit "grid: id=" ++ id ++ lit " fingerprint=" ++ fingerprint ++ [NL])
      else if bool_decide (verb = lit "serve") then gridServe head
      else if bool_decide (verb = lit "drain") then
        let* _ := check (parseNamedFlags "grid" head []) in
        let* _ := grid_call drainGrid in
        ret (lit "grid: drained=true" ++ [NL])
      else check (Err (UnknownOption (lit "grid") verb))
  | _ => check (Err (VUsage (lit "grid")))
  end.

Definition blank_wire (action : string) (id : bytes) : flightWire := mkWire (lit action) id [] [] 0 false [] [].

Definition flightPlace (session : Session) (args : list bytes) : M bytes :=
  let* flags := check (parseNamedFlags "flight" args
                       ["id"; "agent"; "worktree"; "for"; "source"; "host"; "ca"; "server-name"; "token-file"]) in
  let* _ := check (rejectOrphanRemoteFlags flags) in
  let* id := check (requiredFlag "flight" flags "id") in
  let* agent := check (requiredFlag "flight" flags "agent") in
  let* worktree := check (requiredFlag "flight" flags "worktree") in
  let* forRaw := check (requiredFlag "flight" flags "for") in
  let remote := negb (bool_decide (flag flags "host" = [])) in
  let* _ := check (if remote && negb (bool_decide (flag flags "source" = [])) then says "flight: --source cannot be sent to a remote host" else Ok tt) in
  let* (ttl, seconds) := check (parseFlightTTL forRaw remote) in
  let* gate := gateFor in
  let* result := (if remote then
                  check (postFlight (ve_client env) (Some gate)
                    (mkClient (flag flags "host") (flag flags "ca") (flag flags "server-name") (flag flags "token-file") (lit "place")
                       (mkWire (lit "place") id agent worktree seconds false [] [])))
                else
                  grid_call (placeFlight (ve_startRec env) (ve_host env) (ve_fs env) (ve_now env)
                    (mkOpts id agent worktree ttl (s_User session) (s_ID session) false (Some gate) (flag flags "source")))) in
  ret (lit "flight: id=" ++ r_FlightID result ++ lit " session=" ++ r_SessionID result ++ lit " status=placed" ++ [NL]).

Definition flightRehearse (args command : list bytes) : M bytes :=
  let* flags := check (parseNamedFlags "flight" args ["id"; "host"; "ca"; "server-name"; "token-file"]) in
  let* _ := check (rejectOrphanRemoteFlags flags) in
  let* id := check (requiredFlag "flight" flags "id") in
  let* gate := gateFor in
  let* result := (if negb (bool_decide (flag flags "host" = [])) then
                  check (postFlight (ve_client env) (Some gate)
                    (mkClient (flag flags "host") (flag flags "ca") (flag flags "server-name") (flag flags "token-file") (lit "rehearse")
                       (mkWire (lit "rehearse") id [] [] 0 false command [])))
                else
                  let* r := grid_call (rehearseFlight (ve_quoted env) (Some gate) (ve_now env) id command false) in
                  check (if bool_decide (r_Status r = lit "denied") then Err (VText (lit "flight: denied: " ++ r_Reason r)) else Ok r)) in
  ret (lit "flight: id=" ++ r_FlightID result ++ lit " status=" ++ r_Status result ++ [NL]).

Definition flightCancel (args : list bytes) : M bytes :=
  let* flags := check (parseNamedFlags "flight" args ["id"]) in
  let* id := check (requiredFlag "flight" flags "id") in
  let* result := grid_call (cancelFlight (ve_now env) id false) in
  ret (lit "flight: id=" ++ r_FlightID result ++ lit " status=cancelled" ++ [NL]).

Definition flightStatusCmd (args : list bytes) : M bytes :=
  let* flags := check (parseNamedFlags "flight" args ["id"]) in
  let* id := check (requiredFlag "flight" flags "id") in
  let* result := grid_call (fun st => (flightStatus id false st, st)) in
  ret (lit "flight: id=" ++ r_FlightID result ++ lit " status=" ++ r_Status result
       ++ (if bool_decide (r_Reason result = []) then [] else lit " reason=" ++ r_Reason result) ++ [NL]).

Definition flightRun (args : list bytes) : M bytes :=
  let* _ := gateFor in let* session := requireGridOps "flight" in
  match args with
  | _ :: verb :: args' =>
      let '(head, rest) := splitDashDash args' in
      if bool_decide (verb = lit "place") then let* _ := check (no_rest "flight" rest) in flightPlace session head
      else if bool_decide (verb = lit "rehearse") then flightRehearse head rest
      else if bool_decide (verb = lit "cancel") then let* _ := check (no_rest "flight" rest) in flightCancel head
      else if bool_decide (verb = lit "status") then let* _ := check (no_rest "flight" rest) in flightStatusCmd head
      else check (Err (UnknownOption (lit "flight") verb))
  | _ => check (Err (VUsage (lit "flight")))
  end.

Definition agent_le (a b : flightRecord) : Prop := bytes_le (fl_AgentID a) (fl_AgentID b).
#[local] Instance agent_le_dec : RelDecision agent_le.
Proof. intros a b. unfold agent_le, bytes_le. apply _. Defined.

Definition agentRun (args : list bytes) : M bytes :=
  let* _ := gateFor in let* _ := requireGridOps "agent" in
  match args with
  | _ :: verb :: args' =>
      if negb (bool_decide (verb = lit "status")) then check (Err (VUsage (lit "agent")))
      else
        let '(head, rest) := splitDashDash args' in
        let* _ := check (no_rest "agent" rest) in
        let* _ := check (parseNamedFlags "agent" head []) in
        fun st =>
          match merge_sort agent_le (listAgents st) with
          | [] => (Ok (lit "agent: none" ++ [NL]), st)
          | records =>
              (Ok (concat (map (fun rec => lit "agent: id=" ++ fl_AgentID rec ++ lit " flight=" ++ fl_ID rec ++ lit " worktree=" ++ fl_WorktreeID rec
                                           ++ lit " session=" ++ fl_SessionID rec ++ lit " user=" ++ fl_User rec ++ [NL]) records)), st)
          end
  | _ => check (Err (VUsage (lit "agent")))
  end.

Definition worktreeSession : M Session := requireSession "worktree: requires an active registered session".

Definition worktreeCreateOrDestroy (verb : bytes) (args : list bytes) : M bytes :=
  let* flags := check (parseNamedFlags "worktree" args ["id"]) in
  let* id := check (requiredFlag "worktree" flags "id") in
  let* session := worktreeSession in
  let* _ := check (match s_agentBinding session with
                 | Some _ => Err (VText (lit "worktree: agents cannot " ++ verb ++ lit " a worktree"))
                 | None => Ok tt
                 end) in
  let* _ := requireGridOps "worktree" in
  if bool_decide (verb = lit "destroy") then
    let* _ := text_call (destroyWorktree (ve_fs env) id) in
    ret (lit "worktree: id=" ++ id ++ lit " destroyed" ++ [NL])
  else
    let* path := text_call (createWorktree (ve_fs env) id) in
    ret (lit "worktree: id=" ++ id ++ lit " path=" ++ path ++ [NL]).

(** The source and the revision that a checkout of [id] uses. *)
Definition checkout_source (flags : gmap bytes bytes) (id : bytes) (session : Session) : M bytes :=
  match s_agentBinding session with
  | Some agent =>
      let* _ := check (requireAgentWorktree session id "worktree") in
      fun st => (of_text (agentCheckoutSource agent (flag flags "from") st), st)
  | None =>
      let* _ := requireGridOps "worktree" in
      check (requiredFlag "worktree" flags "from")
  end.

Definition worktreeCheckout (args : list bytes) : M bytes :=
  let* flags := check (parseNamedFlags "worktree" args ["id"; "from"; "rev"]) in
  let* id := check (requiredFlag "worktree" flags "id") in
  let* rev := check (requiredFlag "worktree" flags "rev") in
  let* session := worktreeSession in
  let* source := checkout_source flags id session in
  let* _ := (fun st => (of_text (checkoutWorktree (ve_git env) (ve_fs env) (st_scratchRoot st) id source rev), st)) in
  ret (lit "worktree: id=" ++ id ++ lit " rev=" ++ rev ++ [NL]).

Definition worktreeRun (args : list bytes) : M bytes :=
  let* _ := gateFor in
  match args with
  | _ :: verb :: args' =>
      let '(head, rest) := splitDashDash args' in
      let* _ := check (no_rest "worktree" rest) in
      if is_one_of verb ["create"; "destroy"] then worktreeCreateOrDestroy verb head
      else if bool_decide (verb = lit "checkout") then worktreeCheckout head
      else check (Err (UnknownOption (lit "worktree") verb))
  | _ => check (Err (VUsage (lit "worktree")))
  end.

Definition repoRun (args : list bytes) : M bytes :=
  let* _ := gateFor in
  match args with
  | _ :: verb :: args' =>
      if negb (bool_decide (verb = lit "cat")) then check (Err (VUsage (lit "repo")))
      else
        let '(head, rest) := splitDashDash args' in
        let* _ := check (no_rest "repo" rest) in
        let* flags := check (parseNamedFlags "repo" head ["id"; "path"]) in
        let* id := check (requiredFlag "repo" flags "id") in
        let* rel := check (requiredFlag "repo" flags "path") in
        let* session := requireSession "repo: requires an active registered session" in
        let* _ := check (requireAgentWorktree session id "repo") in
        fun st => (of_text (repoCat (ve_fs env) (st_scratchRoot st) id rel), st)
  | _ => check (Err (VUsage (lit "repo")))
  end.
End Bodies.

(** ** Who may do what *)

Lemma andThen_ok {A B} (m : M A) (k : A -> M B) st b st' :
  andThen m k st = (Ok b, st') -> exists a st1, m st = (Ok a, st1) /\ k a st1 = (Ok b, st').
Proof. unfold andThen. destruct (m st) as [[a|e] st1]; [by eauto|done]. Qed.
Lemma check_ok {A} (r : result vbinErr A) st a st' : check r st = (Ok a, st') -> r = Ok a /\ st' = st.
Proof. unfold check. by intros [= -> ->]. Qed.

Lemma of_text_ok {A} (r : result bytes A) a : of_text r = Ok a -> r = Ok a.
Proof. destruct r; [by intros [= ->]|done]. Qed.

(** Takes the next step of a body that ended well. *)
Ltac step H :=
  apply andThen_ok in H as (? & ? & ?H & H);
  try match goal with H0 : check _ _ = (Ok _, _) |- _ => apply check_ok in H0 as [? ->] end.

Section Who.
Context `{UrlLib} `{GridCodec} `{Sha256} `{EndpointLib} (env : vbinEnv).

(** The caller is an operator with a live gridops elevation. *)
Definition elevated (st : gridState) : Prop :=
  exists s e, GetSession (ve_sid env) (st_reg st) = Some s /\ s_agentBinding s = None /\ s_elevation s = Some e /\
              el_Role e = lit "gridops" /\ ve_now env < el_ExpiresAt e.

(** The grid and the budgets are as they were. *)
Definition untouched (st st' : gridState) : Prop :=
  st_member st' = st_member st /\ st_budgets st' = st_budgets st /\ st_scratchRoot st' = st_scratchRoot st /\ st_gate st' = st_gate st.

Lemma requireGridOps_spec command st :
  match requireGridOps env command st with
  | (Ok s, st') => elevated st /\ untouched st st'
  | (Err _, st') => ~ elevated st /\ untouched st st'
  end.
Proof.
  unfold requireGridOps, elevated. destruct (GetSession _ _) as [s|]; [|split; [|by split_and!]; intros (s & e & [=] & _)].
  destruct (s_agentBinding s) eqn:Ea; [split; [|by split_and!]; intros (s' & e & [= <-] & ? & _); congruence|].
  unfold ActiveElevation. destruct (s_elevation s) as [e|] eqn:Ee.
  - destruct (ve_now env <? el_ExpiresAt e) eqn:Et.
    + case_bool_decide as Er; (split; [|by split_and!]); [by exists s, e; split_and!; try done; lia|].
      intros (s' & e' & [= <-] & _ & E & Hr & _). congruence.
    + split; [|by split_and!]. intros (s' & e' & [= <-] & _ & E & _ & Ht). rewrite Ee in E. invc E. lia.
  - split; [|by split_and!]. intros (s' & e & [= <-] & _ & E & _). congruence.
Qed.

Lemma gateFor_same st : exists r, gateFor env st = (r, st).
Proof. unfold gateFor. destruct (st_gate st); by eexists. Qed.

(** A body that asks for the elevation first. *)
Lemma needs_elevation {A} command (k : Session -> M A) st : ~ elevated st ->
  let m := andThen (gateFor env) (fun _ => andThen (requireGridOps env command) k) in
  (exists e, fst (m st) = Err e) /\ untouched st (snd (m st)).
Proof.
  intros Hno m. unfold m, andThen. destruct (gateFor_same st) as [r ->]. destruct r as [g|e]; [|split; [by eexists|by split_and!]].
  pose proof (requireGridOps_spec command st) as Hr. destruct (requireGridOps env command st) as [[s|e] st']; [tauto|].
  destruct Hr. split; [by eexists|done].
Qed.

(** What a body of an agent's checkout did. *)
Definition agent_checkout (a : ManagedAgent) (st : gridState) : Prop :=
  exists m rec rev, st_member st = Some m /\ live_flight m (ag_FlightID a) rec /\ fl_AgentID rec = ag_ID a /\ fl_Source rec <> [] /\
    checkoutWorktree (ve_git env) (ve_fs env) (st_scratchRoot st) (ag_Worktree a) (fl_Source rec) rev = Ok tt.

Lemma requireAgentWorktree_ok s a id command u : s_agentBinding s = Some a -> requireAgentWorktree env s id command = Ok u ->
  ve_now env < ag_ExpiresAt a /\ ag_Worktree a = id.
Proof.
  unfold requireAgentWorktree. intros ->. destruct (ve_now env <? ag_ExpiresAt a) eqn:E; cbn [negb]; [|done].
  case_bool_decide; cbn; [|done]. intros _. split; [lia|done].
Qed.

Lemma requireSession_ok msg st s st' : requireSession env msg st = (Ok s, st') -> GetSession (ve_sid env) (st_reg st) = Some s /\ st' = st.
Proof. unfold requireSession. destruct (GetSession _ _) as [s'|]; [|done]. by intros [= -> ->]. Qed.

Lemma agentCheckoutSource_ok a from st src : agentCheckoutSource a from st = Ok src ->
  exists m rec, st_member st = Some m /\ live_flight m (ag_FlightID a) rec /\ fl_AgentID rec = ag_ID a /\ fl_Source rec = src /\ src <> [].
Proof.
  unfold agentCheckoutSource. set (bound := match st_member st with Some _ => _ | None => _ end).
  case_bool_decide as Eb; [done|]. intros Hok. assert (src = bound) as ->.
  { case_bool_decide; [by invc Hok|]. destruct (validateCheckoutSource _); [|discriminate]. cbn in Hok. case_bool_decide; [|discriminate]. by invc Hok. }
  clear Hok. revert Eb. subst bound. destruct (st_member st) as [m|]; [|done]. destruct (gm_flights m !! ag_FlightID a) as [rec|] eqn:Er; [|done].
  destruct (is_live rec) eqn:El; [rewrite andb_true_r|by rewrite andb_false_r]. case_bool_decide as Eid; [|done]. intros Eb. exists m, rec. split_and!; try done.
  split; [done|]. unfold is_live in El. by case_bool_decide.
Qed.

(** From an agent session the grid, flight and agent binaries and worktree
    create and destroy fail and change nothing of the grid; a checkout or a
    repo cat that ends well came before the lease expired, touched only the
    worktree of the agent, and a checkout cloned only the source its live
    flight is bound to. *)
Theorem agent_confined st s a : GetSession (ve_sid env) (st_reg st) = Some s -> s_agentBinding s = Some a ->
  (forall args, let refused (m : M bytes) := (exists e, fst (m st) = Err e) /\ untouched st (snd (m st)) in
     refused (gridRun env args) /\ refused (flightRun env args) /\ refused (agentRun env args) /\
     refused (worktreeCreateOrDestroy env (lit "create") args) /\ refused (worktreeCreateOrDestroy env (lit "destroy") args)) /\
  (forall args out st', worktreeCheckout env args st = (Ok out, st') -> st' = st /\ ve_now env < ag_ExpiresAt a /\ agent_checkout a st) /\
  (forall args data st', repoRun env args st = (Ok data, st') -> st' = st /\ ve_now env < ag_ExpiresAt a /\
     exists rel, repoCat (ve_fs env) (st_scratchRoot st) (ag_Worktree a) rel = Ok data).
Proof.
  intros Hs Ha. assert (Hno : ~ elevated st) by (intros (s' & e & Hs' & Hb & _); congruence). split_and!.
  - intros args refused. split_and!; try by apply needs_elevation.
    all: unfold refused, worktreeCreateOrDestroy, andThen, check, worktreeSession, requireSession; destruct (parseNamedFlags _ _ _); [|split; [by eexists|by split_and!]];
      destruct (requiredFlag _ _ _); [|split; [by eexists|by split_and!]]; rewrite Hs, Ha; split; [by eexists|by split_and!].
  - intros args out st' Hrun. unfold worktreeCheckout, worktreeSession in Hrun. step Hrun. step Hrun. step Hrun.
    apply andThen_ok in Hrun as (s' & st1 & Hsess & Hrun). apply requireSession_ok in Hsess as [Hs' ->]. rewrite Hs in Hs'. invc Hs'.
    apply andThen_ok in Hrun as (source & st2 & Hsrc & Hrun). unfold checkout_source in Hsrc. rewrite Ha in Hsrc. step Hsrc.
    match goal with Hw : requireAgentWorktree _ _ _ _ = Ok _ |- _ => apply (requireAgentWorktree_ok _ a) in Hw as [Ht <-]; [|done] end.
    injection Hsrc as Hsrc <-. apply andThen_ok in Hrun as ([] & st3 & Hco & Hrun). injection Hco as Hco <-. injection Hrun as _ <-.
    split_and!; [done|done|]. apply of_text_ok in Hsrc. apply of_text_ok in Hco.
    apply agentCheckoutSource_ok in Hsrc as (m & rec & Em & Hlive & Hid & <- & Hne). exists m, rec. eexists. by split_and!.
  - intros args data st' Hrun. unfold repoRun in Hrun.
    apply andThen_ok in Hrun as (g & st0 & Hg & Hrun). destruct (gateFor_same st) as [r Hr]. rewrite Hr in Hg. injection Hg as -> <-.
    destruct args as [|x [|verb args]]; [done|done|]. destruct (negb _); [done|]. destruct (splitDashDash args) as [head rest].
    step Hrun. step Hrun. step Hrun. step Hrun.
    apply andThen_ok in Hrun as (s' & st1 & Hsess & Hrun). apply requireSession_ok in Hsess as [Hs' ->]. rewrite Hs in Hs'. invc Hs'. step Hrun.
    match goal with Hw : requireAgentWorktree _ _ _ _ = Ok _ |- _ => apply (requireAgentWorktree_ok _ a) in Hw as [Ht <-]; [|done] end.
    injection Hrun as Hrun <-. split_and!; [done|done|]. eexists. by apply of_text_ok.
Qed.

(** A run that asks for the elevation: it ends well only for an elevated
    operator, and for anybody else it changes nothing of the grid. *)
Definition guarded (st : gridState) (m : M bytes) : Prop :=
  match m st with
  | (Ok _, _) => elevated st
  | (Err _, st') => elevated st \/ untouched st st'
  end.

Lemma guarded_unless st m : (~ elevated st -> (exists e, fst (m st) = Err e) /\ untouched st (snd (m st))) -> guarded st m.
Proof.
  intros Hno. unfold guarded. assert (Hdec : elevated st \/ ~ elevated st).
  { pose proof (requireGridOps_spec "grid" st) as Hr. destruct (requireGridOps env "grid" st) as [[]]; [left|right]; tauto. }
  destruct Hdec as [He|He]; [destruct (m st) as [[]]; auto|]. destruct (Hno He) as [[e Hm] Hu].
  destruct (m st) as [[]]; [done|auto].
Qed.

(** The grid, flight and agent binaries and worktree create and destroy end
    well only for a session that is no agent and has a live gridops elevation,
    and for any other caller they leave the membership, the budgets, the
    scratch root and the gate unchanged. *)
Theorem grid_needs_elevation args verb st :
  Forall (guarded st) [gridRun env args; flightRun env args; agentRun env args; worktreeCreateOrDestroy env verb args].
Proof.
  repeat constructor; apply guarded_unless; intros Hno; try by apply needs_elevation.
  unfold worktreeCreateOrDestroy, andThen, check, worktreeSession, requireSession.
  destruct (parseNamedFlags _ _ _); [|split; [by eexists|by split_and!]].
  destruct (requiredFlag _ _ _); [|split; [by eexists|by split_and!]].
  destruct (GetSession _ _); [|split; [by eexists|by split_and!]].
  destruct (s_agentBinding _); [split; [by eexists|by split_and!]|].
  pose proof (requireGridOps_spec "worktree" st) as Hr. destruct (requireGridOps env "worktree" st) as [[s'|e] st']; [tauto|].
  destruct Hr. split; [by eexists|done].
Qed.
End Who.

(** ** Concrete inputs *)

#[local] Existing Instances toy_codec toy_urls toy_digest.
#[local] Instance toy_endpoints : EndpointLib := {| parse_host _ := None; endpoint_of h := h |}.
Definition toy_client : clientEnv := mkClientEnv (fun _ => true) Missing Missing (fun _ _ _ _ _ => None).
(** What the session [sid] dispatches from, with a git that does as asked. *)
Definition toy_env (sid : string) : vbinEnv :=
  mkVEnv 2000 (lit sid) None toy_fs (fun s => s) (fun _ => None) defaultHost toy_client (lit "r") Missing None false (lit "https://127.0.0.1:9")
    (fun _ _ _ => Some []).
Definition words (l : list string) : list bytes := map lit l.
Definition toy_flight : gridState := toy_run [OpPlace toy_fs 1000 (toy_place "f1" "a1" "w1")] toy_member.

(** The agent of the flight reads its own worktree and no other. *)
Example agent_reads_own :
  let env := toy_env "agent-a1" in
  fst (repoRun env (words ["repo"; "cat"; "--id"; "w1"; "--path"; "README"]) toy_flight) = Ok (lit "data") /\
  fst (repoRun env (words ["repo"; "cat"; "--id"; "w2"; "--path"; "README"]) toy_flight) =
    Err (VText (lit "repo: agent is bound to a different worktree")) /\
  fst (flightRun env (words ["flight"; "cancel"; "--id"; "f1"]) toy_flight) =
    Err (VText (lit "flight: requires an active gridops elevation")).
Proof. vm_compute. by split_and!. Qed.

Lemma agent_confined_witness :
  let env := toy_env "agent-a1" in
  exists s a, GetSession (lit "agent-a1") (st_reg toy_flight) = Some s /\ s_agentBinding s = Some a /\ ag_Worktree a = lit "w1" /\
    exists rel, repoCat toy_fs (lit "/data/worktrees") (ag_Worktree a) rel = Ok (lit "data").
Proof.
  intros env.
  assert (Hs : exists s a, GetSession (lit "agent-a1") (st_reg toy_flight) = Some s /\ s_agentBinding s = Some a /\ ag_Worktree a = lit "w1")
    by (eexists; eexists; split; [vm_compute; reflexivity|split; reflexivity]).
  destruct Hs as (s & a & Hs & Ha & Hw). exists s, a. split; [exact Hs|]. split; [exact Ha|]. split; [exact Hw|].
  destruct (agent_confined env toy_flight s a Hs Ha) as (_ & _ & Hrepo).
  destruct (Hrepo (words ["repo"; "cat"; "--id"; "w1"; "--path"; "README"]) (lit "data") toy_flight) as (_ & _ & rel & Hcat).
  - vm_compute. reflexivity.
  - exists rel. exact Hcat.
Defined.
