(* ===== verification/GoNum.v ===== *)
(** * Numerals in a base

    Go's [strconv.ParseUint] with an explicit base and with base 0, and
    [strconv.FormatUint]; the decimal parser is in [GoBytes]. *)

From S2P Require Import Prelude GoBytes.
#[local] Open Scope Z_scope.
#[local] Arguments lit : simpl never.

Definition digit_val (c : byte) : option Z :=
  let z := byte_val c in
  if (48 <=? z) && (z <=? 57) then Some (z - 48)
  else if (97 <=? z) && (z <=? 122) then Some (z - 87)
  else if (65 <=? z) && (z <=? 90) then Some (z - 55)
  else None.

(** [us] lets an underscore stand between digits. *)
Fixpoint digits_from (base : Z) (us : bool) (acc : Z) (s : bytes) : option Z :=
  match s with
  | [] => Some acc
  | c :: s' =>
      if us && (c =?b "_") then digits_from base us acc s'
      else match digit_val c with
      | Some d => if d <? base then digits_from base us (acc * base + d) s' else None
      | None => None
      end
  end.

Definition in_width (width : Z) (n : option Z) : option Z :=
  match n with Some n => if n <? 2 ^ width then Some n else None | None => None end.

(** [strconv.ParseUint(s, base, width)] for [2 <= base <= 36]. *)
Definition ParseUintBase (base width : Z) (s : bytes) : option Z :=
  match s with [] => None | _ => in_width width (digits_from base false 0 s) end.

(** The letter in lower case, of the characters the parser looks at. *)
Definition low (c : byte) : byte := byte_of (Z.lor (byte_val c) 32).

(** [underscoreOK]: the underscores stand after a base prefix or between
    digits.  [i] is what the last character was. *)
Inductive seen_char := SawStart | SawDigit | SawUnderscore | SawOther.
Fixpoint underscores_from (hex : bool) (i : seen_char) (s : bytes) : bool :=
  match s with
  | [] => match i with SawUnderscore => false | _ => true end
  | c :: s' =>
      let z := byte_val c in let l := byte_val (low c) in
      if ((48 <=? z) && (z <=? 57)) || (hex && (97 <=? l) && (l <=? 102)) then underscores_from hex SawDigit s'
      else if c =?b "_" then match i with SawDigit => underscores_from hex SawUnderscore s' | _ => false end
      else match i with SawUnderscore => false | _ => underscores_from hex SawOther s' end
  end.
Definition underscoreOK (s : bytes) : bool :=
  let s := match s with c :: s' => if (c =?b "-") || (c =?b "+") then s' else s | [] => s end in
  match s with
  | z :: p :: s' =>
      if (z =?b "0") && ((low p =?b "b") || (low p =?b "o") || (low p =?b "x"))
      then underscores_from (low p =?b "x") SawDigit s' else underscores_from false SawStart s
  | _ => underscores_from false SawStart s
  end.

(** The base that a prefix names, with the digits that follow. *)
Definition base_prefix (s : bytes) : Z * bytes :=
  match s with
  | z :: s1 =>
      if negb (z =?b "0") then (10, s)
      else match s1 with
      | p :: (_ :: _) as s2 =>
          let digits := tl s1 in
          if low p =?b "b" then (2, digits) else if low p =?b "o" then (8, digits) else if low p =?b "x" then (16, digits) else (8, s1)
      | _ => (8, s1)
      end
  | [] => (10, s)
  end.

(** [strconv.ParseUint(s, 0, width)]. *)
Definition ParseUint0 (width : Z) (s : bytes) : option Z :=
  match s with
  | [] => None
  | _ =>
      let '(base, digits) := base_prefix s in
      match in_width width (digits_from base true 0 digits) with
      | Some n => if existsb (fun c => c =?b "_") digits && negb (underscoreOK s) then None else Some n
      | None => None
      end
  end.

(** [strconv.FormatUint(n, base)]; a numeral has no more digits than the
    number has bits. *)
Definition digit_char (d : Z) : byte := byte_of (if d <? 10 then 48 + d else 87 + d).
Fixpoint format_from (fuel : nat) (base n : Z) (acc : bytes) : bytes :=
  match fuel with
  | O => acc
  | S fuel' =>
      if n <? base then digit_char n :: acc
      else format_from fuel' base (n / base) (digit_char (n mod base) :: acc)
  end.
Definition FormatUint (base n : Z) : bytes := format_from (S (Z.to_nat (Z.log2 n))) base n [].

(** ** Round trip *)

Lemma digit_val_char d : 0 <= d < 36 -> digit_val (digit_char d) = Some d.
Proof.
  intros Hd. unfold digit_val, digit_char. rewrite byte_val_of.
  destruct (d <? 10) eqn:E; rewrite Z.mod_small by lia.
  - assert ((48 <=? 48 + d) && (48 + d <=? 57) = true) as -> by lia. f_equal. lia.
  - assert ((48 <=? 87 + d) && (87 + d <=? 57) = false) as -> by lia.
    assert ((97 <=? 87 + d) && (87 + d <=? 122) = true) as -> by lia. f_equal. lia.
Qed.

Lemma digits_format base us : 2 <= base <= 36 -> forall fuel n s, 0 <= n < 2 ^ Z.of_nat fuel ->
  digits_from base us 0 (format_from fuel base n s) = digits_from base us n s.
Proof.
  intros Hb. assert (Hone : forall a d s, 0 <= d < base ->
    digits_from base us a (digit_char d :: s) = digits_from base us (a * base + d) s).
  { intros a d s Hd. cbn [digits_from]. assert (us && (digit_char d =?b "_") = false) as ->.
    { destruct (Ascii.eqb_spec (digit_char d) "_"%char) as [E|]; [|by rewrite andb_false_r].
      apply (f_equal digit_val) in E. by rewrite digit_val_char in E by lia. }
    rewrite digit_val_char by lia. by assert ((d <? base) = true) as -> by lia. }
  induction fuel as [|fuel IH]; intros n s Hn.
  - change (2 ^ Z.of_nat 0) with 1 in Hn. assert (n = 0) as -> by lia. reflexivity.
  - cbn [format_from]. destruct (n <? base) eqn:E; [rewrite Hone by lia; f_equal; lia|].
    pose proof (Z.mod_pos_bound n base ltac:(lia)) as Hm. pose proof (Z.div_mod n base ltac:(lia)) as Hd.
    rewrite IH.
    + rewrite Hone by done. f_equal. lia.
    + rewrite Nat2Z.inj_succ, Z.pow_succ_r in Hn by lia. split; [apply Z.div_pos; lia|].
      apply Z.div_lt_upper_bound; [lia|]. pose proof (Z.pow_pos_nonneg 2 (Z.of_nat fuel)). nia.
Qed.

Lemma FormatUint_fuel n : 0 <= n -> 0 <= n < 2 ^ Z.of_nat (S (Z.to_nat (Z.log2 n))).
Proof.
  intros Hn. split; [done|]. rewrite Nat2Z.inj_succ, Z2Nat.id by apply Z.log2_nonneg.
  destruct (Z.eq_dec n 0) as [->|Hne]; [done|]. by apply Z.log2_spec; lia.
Qed.

Lemma format_from_digits base fuel : 2 <= base <= 36 -> forall n s, 0 <= n ->
  Forall (fun c => is_Some (digit_val c)) s -> Forall (fun c => is_Some (digit_val c)) (format_from fuel base n s).
Proof.
  intros Hb. induction fuel as [|fuel IH]; intros n s Hn Hs; [done|]. cbn [format_from].
  pose proof (Z.mod_pos_bound n base ltac:(lia)). destruct (n <? base) eqn:E.
  - constructor; [rewrite digit_val_char by lia; by eexists|done].
  - apply IH; [apply Z.div_pos; lia|]. constructor; [rewrite digit_val_char by lia; by eexists|done].
Qed.

Lemma FormatUint_digits base n : 2 <= base <= 36 -> 0 <= n -> Forall (fun c => is_Some (digit_val c)) (FormatUint base n).
Proof. intros. by apply format_from_digits. Qed.

Lemma format_from_nonempty base fuel : forall n s, format_from (S fuel) base n s <> [].
Proof.
  induction fuel as [|fuel IH]; intros n s; cbn [format_from]; destruct (n <? base); try done. apply IH.
Qed.

Lemma ParseUint_Format base width n : 2 <= base <= 36 -> 0 <= n < 2 ^ width -> ParseUintBase base width (FormatUint base n) = Some n.
Proof.
  intros Hb Hn. unfold ParseUintBase. destruct (FormatUint base n) as [|c s] eqn:E; [by apply format_from_nonempty in E|].
  rewrite <- E. unfold FormatUint. rewrite digits_format by (done || (apply FormatUint_fuel; lia)). cbn.
  by assert ((n <? 2 ^ width) = true) as -> by lia.
Qed.

Lemma digits_from_nonneg base us s : forall acc n, 0 <= base -> 0 <= acc -> digits_from base us acc s = Some n -> 0 <= n.
Proof.
  induction s as [|c s IH]; intros acc n Hb Ha; cbn [digits_from]; [by intros [= ->]|].
  destruct (us && _); [by apply IH|]. destruct (digit_val c) as [d|] eqn:Ed; [|done]. destruct (d <? base); [|done].
  apply IH; [done|]. assert (0 <= d); [|nia]. unfold digit_val in Ed. revert Ed. repeat case_match; bsimp; intros [= <-]; lia.
Qed.

Lemma ParseUintBase_range base width s n : 0 <= base -> ParseUintBase base width s = Some n -> 0 <= n < 2 ^ width.
Proof.
  intros Hb. unfold ParseUintBase, in_width. destruct s as [|c s]; [done|]. destruct (digits_from _ _ _ _) as [m|] eqn:E; [|done].
  destruct (m <? 2 ^ width) eqn:Em; [|done]. intros [= <-]. split; [|lia]. by eapply digits_from_nonneg; [..|exact E].
Qed.

Lemma ParseUint0_range width s n : ParseUint0 width s = Some n -> 0 <= n < 2 ^ width.
Proof.
  unfold ParseUint0, in_width. destruct s as [|c s]; [done|]. destruct (base_prefix _) as [base ds] eqn:Eb.
  destruct (digits_from _ _ _ _) as [m|] eqn:E; [|done]. destruct (m <? 2 ^ width) eqn:Em; [|done].
  destruct (_ && _); [done|]. intros [= <-]. split; [|lia]. eapply digits_from_nonneg; [| |exact E]; [|done].
  unfold base_prefix in Eb. revert Eb. repeat case_match; intros [= <- _]; lia.
Qed.

(** ** On numbers *)

Example base0_reads :
  map (fun s => ParseUint0 8 (lit s)) ["0x1b"; "033"; "27"; "0"; "0b101"; "0o17"; "1_0"; "0x_1"; "_1"; "256"; "08"; "0x"; "0X1B"]
  = [Some 27; Some 27; Some 27; Some 0; Some 5; Some 15; Some 10; Some 1; None; None; None; None; Some 27]%string.
Proof. vm_compute. reflexivity. Qed.
