(* ===== verification/TtyModes.v ===== *)
(** * Terminal modes

    internal/sys/ttymodes.go with saneTermios, [GetTerminalSize] and
    [SetWinsize] of termios_linux.go and ioctl.go: the tables of flags and
    control characters, the printed and the saved form, the operands of stty,
    and the modes of a pty-req. *)

From S2P Require Import Prelude GoBytes GoNum Frames.
From stdpp Require Import pretty.
#[local] Open Scope Z_scope.
#[local] Arguments lit : simpl never.

(** ** Data *)

(** The constants of golang.org/x/sys/unix and golang.org/x/crypto/ssh by
    name, and the length of [Termios.Cc]. *)
Class Constants := { unix : string -> Z; ssh : string -> Z; NCCS : nat }.

Definition maxSSHModes : Z := 256.
Definition tcflagBits : Z := 32.
Definition vdisable : Z := 0.
Definition maxPTYDim : Z := 1000.

(** [unix.Termios]; the line discipline and the speeds are left alone. *)
Record Termios := mkTermios { Iflag : Z; Oflag : Z; Cflag : Z; Lflag : Z; Cc : list Z }.
#[export] Instance Termios_eq_dec : EqDecision Termios.
Proof. solve_decision. Defined.

Inductive ttyWord := WI | WO | WC | WL.
#[export] Instance ttyWord_eq_dec : EqDecision ttyWord.
Proof. solve_decision. Defined.
Record ttyFlag := mkTFlag { f_name : bytes; f_word : ttyWord; f_mask : Z; f_sshOp : Z }.
Record ttyChar := mkTChar { c_name : bytes; c_index : Z; c_sshOp : Z }.

Definition tcflag (z : Z) : Z := wrapu tcflagBits z.

Section Tables.
Context `{Constants}.

(** A row whose opcode is the one of the same name, or none. *)
Definition fl (name : string) (w : ttyWord) (c : string) : ttyFlag := mkTFlag (lit name) w (unix c) (ssh c).
Definition fl0 (name : string) (w : ttyWord) (c : string) : ttyFlag := mkTFlag (lit name) w (unix c) 0.
Definition ch (name c : string) : ttyChar := mkTChar (lit name) (unix c) (ssh c).

Definition ttyFlags : list ttyFlag := [
  fl0 "ignbrk" WI "IGNBRK"; fl0 "brkint" WI "BRKINT"; fl "ignpar" WI "IGNPAR"; fl "parmrk" WI "PARMRK"; fl "inpck" WI "INPCK";
  fl "istrip" WI "ISTRIP"; fl "inlcr" WI "INLCR"; fl "igncr" WI "IGNCR"; fl "icrnl" WI "ICRNL"; fl "ixon" WI "IXON";
  fl "ixany" WI "IXANY"; fl "ixoff" WI "IXOFF"; fl "imaxbel" WI "IMAXBEL"; fl "iutf8" WI "IUTF8";
  fl "opost" WO "OPOST"; fl "onlcr" WO "ONLCR"; fl "ocrnl" WO "OCRNL"; fl "onocr" WO "ONOCR"; fl "onlret" WO "ONLRET";
  fl0 "parenb" WC "PARENB"; fl0 "parodd" WC "PARODD"; fl0 "cstopb" WC "CSTOPB"; fl0 "cread" WC "CREAD"; fl0 "hupcl" WC "HUPCL";
  fl0 "clocal" WC "CLOCAL";
  fl "isig" WL "ISIG"; fl "icanon" WL "ICANON"; fl "iexten" WL "IEXTEN"; fl "echo" WL "ECHO"; fl "echoe" WL "ECHOE"; fl "echok" WL "ECHOK";
  fl "echonl" WL "ECHONL"; fl "noflsh" WL "NOFLSH"; fl "tostop" WL "TOSTOP"; fl "echoctl" WL "ECHOCTL"; fl0 "echoprt" WL "ECHOPRT";
  fl "echoke" WL "ECHOKE"; fl "pendin" WL "PENDIN"]%string.

Definition ttyChars : list ttyChar := [
  ch "intr" "VINTR"; ch "quit" "VQUIT"; ch "erase" "VERASE"; ch "kill" "VKILL"; ch "eof" "VEOF"; ch "eol" "VEOL"; ch "eol2" "VEOL2";
  ch "start" "VSTART"; ch "stop" "VSTOP"; ch "susp" "VSUSP"; ch "rprnt" "VREPRINT"; ch "werase" "VWERASE"; ch "lnext" "VLNEXT";
  ch "discard" "VDISCARD"]%string.

Definition lookupFlag (name : bytes) : option ttyFlag := find (fun f => bool_decide (f_name f = name)) ttyFlags.
Definition lookupChar (name : bytes) : option ttyChar := find (fun c => bool_decide (c_name c = name)) ttyChars.
Definition charBySSHOp (op : Z) : option ttyChar := find (fun c => c_sshOp c =? op) ttyChars.
Definition flagBySSHOp (op : Z) : option ttyFlag := if op =? 0 then None else find (fun f => f_sshOp f =? op) ttyFlags.
End Tables.

(** ** Flag words and control characters *)

Definition flagWord (t : Termios) (w : ttyWord) : Z :=
  match w with WI => Iflag t | WO => Oflag t | WC => Cflag t | WL => Lflag t end.
Definition on_word (w : ttyWord) (f : Z -> Z) (t : Termios) : Termios :=
  match w with
  | WI => mkTermios (f (Iflag t)) (Oflag t) (Cflag t) (Lflag t) (Cc t)
  | WO => mkTermios (Iflag t) (f (Oflag t)) (Cflag t) (Lflag t) (Cc t)
  | WC => mkTermios (Iflag t) (Oflag t) (f (Cflag t)) (Lflag t) (Cc t)
  | WL => mkTermios (Iflag t) (Oflag t) (Cflag t) (f (Lflag t)) (Cc t)
  end.
Definition set_mask (w : ttyWord) (mask : Z) (on : bool) : Termios -> Termios :=
  on_word w (fun v => if on then Z.lor v (tcflag mask) else Z.ldiff v (tcflag mask)).
Definition setFlag (t : Termios) (f : ttyFlag) (on : bool) : Termios := set_mask (f_word f) (f_mask f) on t.
(** [t.Cc[i] = v]. *)
Definition set_cc (i v : Z) (t : Termios) : Termios :=
  mkTermios (Iflag t) (Oflag t) (Cflag t) (Lflag t) (<[Z.to_nat i := v]> (Cc t)).

(** [formatCC] of a byte. *)
Definition formatCC (c : Z) : bytes :=
  if c =? vdisable then lit "<undef>"
  else if c =? 127 then lit "^?"
  else if c <? 32 then ["^"%char; byte_of (c + 64)]
  else if 128 <=? c then lit "0x" ++ FormatUint 16 c
  else [byte_of c].

Definition parseCC (s : bytes) : option Z :=
  if bool_decide (s = lit "undef") || bool_decide (s = lit "^-") then Some vdisable
  else if bool_decide (s = lit "^?") then Some 127
  else
    let number := ParseUint0 8 s in
    match s with
    | [a; b] =>
        if a =?b "^" then
          let c := if (97 <=? byte_val b) && (byte_val b <=? 122) then byte_val b - 32 else byte_val b in
          if (64 <=? c) && (c <=? 95) then Some (c - 64) else number
        else number
    | [a] => if byte_val a <? 128 then Some (byte_val a) else number
    | _ => number
    end.

Section Modes.
Context `{Constants}.

(** The union of masks. *)
Definition masks (l : list string) : Z := fold_right (fun c m => Z.lor (unix c) m) 0 l.

Definition makeRawTermios (t : Termios) : Termios :=
  let t := set_mask WI (masks ["IGNBRK"; "BRKINT"; "IGNPAR"; "PARMRK"; "INPCK"; "ISTRIP"; "INLCR"; "IGNCR"; "ICRNL"; "IXON"; "IXOFF";
                               "IXANY"; "IMAXBEL"]%string) false t in
  let t := set_mask WO (unix "OPOST") false t in
  let t := set_mask WL (masks ["ISIG"; "ICANON"; "IEXTEN"; "ECHO"; "ECHOE"; "ECHOK"; "ECHONL"]%string) false t in
  set_cc (unix "VTIME") 0 (set_cc (unix "VMIN") 1 t).

Definition makeCookedTermios (t : Termios) : Termios :=
  let t := set_mask WI (masks ["BRKINT"; "ICRNL"; "IXON"]%string) true t in
  let t := set_mask WO (unix "OPOST") true t in
  set_mask WL (masks ["ISIG"; "ICANON"; "IEXTEN"; "ECHO"; "ECHOE"; "ECHOK"]%string) true t.

Definition sane_chars : list (string * Z) := [
  ("VINTR", 3); ("VQUIT", 28); ("VERASE", 127); ("VKILL", 21); ("VEOF", 4); ("VSUSP", 26); ("VSTART", 17); ("VSTOP", 19);
  ("VWERASE", 23); ("VLNEXT", 22); ("VREPRINT", 18); ("VDISCARD", 15); ("VEOL", vdisable); ("VEOL2", vdisable); ("VMIN", 1);
  ("VTIME", 0)]%string.
Definition saneTermios (t : Termios) : Termios :=
  let t := set_mask WI (masks ["BRKINT"; "ICRNL"; "IMAXBEL"; "IXON"]%string) true t in
  let t := set_mask WI (masks ["IGNBRK"; "INLCR"; "IGNCR"; "IXOFF"; "ISTRIP"]%string) false t in
  let t := set_mask WO (masks ["OPOST"; "ONLCR"]%string) true t in
  let t := set_mask WL (masks ["ICANON"; "ISIG"; "IEXTEN"; "ECHO"; "ECHOE"; "ECHOK"; "ECHOCTL"; "ECHOKE"]%string) true t in
  let t := set_mask WL (unix "NOFLSH") false t in
  foldl (fun t '(c, v) => set_cc (unix c) v t) t sane_chars.

(** ** The saved form *)

Definition formatSave (t : Termios) : bytes :=
  GoBytes.join (lit ":") (map (FormatUint 16) ([Iflag t; Oflag t; Cflag t; Lflag t] ++ Cc t)).

Definition all_parsed (width : Z) (l : list bytes) : option (list Z) := mapM (ParseUintBase 16 width) l.
Definition parseSave (s : bytes) : result bytes Termios :=
  let parts := split_byte ":" s in
  if negb (length parts =? 4 + NCCS)%nat then Err (lit "invalid saved settings: wrong field count")
  else match all_parsed tcflagBits (take 4 parts), all_parsed 8 (drop 4 parts) with
  | Some [i; o; c; l], Some cc => Ok (mkTermios i o c l cc)
  | _, _ => Err (lit "invalid saved settings")
  end.

(** ** The printed form *)

Definition print_flags (t : Termios) (w : ttyWord) : bytes :=
  GoBytes.join (lit " ") (map (fun f => (if Z.land (flagWord t w) (tcflag (f_mask f)) =? 0 then lit "-" else []) ++ f_name f)
                    (List.filter (fun f => bool_decide (f_word f = w)) ttyFlags)) ++ [NL].
Definition cc_at (t : Termios) (i : Z) : Z := nth (Z.to_nat i) (Cc t) 0.
Definition formatAll (t : Termios) (rows cols : Z) : bytes :=
  lit "rows " ++ lit (pretty rows) ++ lit "; columns " ++ lit (pretty cols) ++ lit ";" ++ [NL]
  ++ GoBytes.join (lit " ") (map (fun c => c_name c ++ lit " = " ++ formatCC (cc_at t (c_index c)) ++ lit ";") ttyChars)
  ++ lit " min = " ++ lit (pretty (cc_at t (unix "VMIN"))) ++ lit "; time = " ++ lit (pretty (cc_at t (unix "VTIME"))) ++ lit ";" ++ [NL]
  ++ print_flags t WI ++ print_flags t WO ++ print_flags t WC ++ print_flags t WL.
End Modes.

(** ** stty *)

(** The terminal: what reading its modes and its size gives, and whether the
    calls that set them and the write of the output succeed. *)
Record tty := mkTTY { y_termios : option Termios; y_size : option (Z * Z); y_setT : bool; y_setW : bool; y_write : bool }.
Inductive ttyEffect := EOut (s : bytes) | ETermios (t : Termios) | EWinsize (rows cols : Z).
Inductive sttyErr :=
| NotTerminal | MissingArgument (name : bytes) | InvalidNumber (name v : bytes) | BadSave (e : bytes)
| BadChar (name v : bytes) | InvalidArgument (a : bytes) | StyleWithModes | ManyStyles | IOFailed.

Inductive style := SAll | SSave | SSize.
Inductive dimension := DRows | DCols | DMin | DTime.
Definition style_of (a : bytes) : option style :=
  if bool_decide (a = lit "-a") || bool_decide (a = lit "--all") then Some SAll
  else if bool_decide (a = lit "-g") || bool_decide (a = lit "--save") then Some SSave
  else if bool_decide (a = lit "size") then Some SSize else None.
Definition dimension_of (a : bytes) : option dimension :=
  if bool_decide (a = lit "rows") then Some DRows
  else if bool_decide (a = lit "cols") || bool_decide (a = lit "columns") then Some DCols
  else if bool_decide (a = lit "min") then Some DMin
  else if bool_decide (a = lit "time") then Some DTime else None.
Definition dimension_value (d : dimension) (v : bytes) : option Z :=
  match ParseUint 16 v with
  | None => None
  | Some n =>
      match d with
      | DMin | DTime => if 255 <? n then None else Some n
      | DRows | DCols => if (n =? 0) || (maxPTYDim <? n) then None else Some n
      end
  end.

(** The variables of [Stty]'s loop. *)
Record sttyState := mkStty { s_t : Termios; s_all : bool; s_save : bool; s_size : bool; s_setting : bool; s_rows : Z; s_cols : Z }.

Section Stty.
Context `{Constants}.

Definition on_termios (f : Termios -> Termios) (s : sttyState) : sttyState :=
  mkStty (f (s_t s)) (s_all s) (s_save s) (s_size s) (s_setting s) (s_rows s) (s_cols s).
Definition mark (st : option style) (s : sttyState) : sttyState :=
  match st with
  | Some SAll => mkStty (s_t s) true (s_save s) (s_size s) (s_setting s) (s_rows s) (s_cols s)
  | Some SSave => mkStty (s_t s) (s_all s) true (s_size s) (s_setting s) (s_rows s) (s_cols s)
  | Some SSize => mkStty (s_t s) (s_all s) (s_save s) true (s_setting s) (s_rows s) (s_cols s)
  | None => mkStty (s_t s) (s_all s) (s_save s) (s_size s) true (s_rows s) (s_cols s)
  end.
Definition set_dimension (d : dimension) (n : Z) (s : sttyState) : sttyState :=
  match d with
  | DRows => mkStty (s_t s) (s_all s) (s_save s) (s_size s) (s_setting s) n (s_cols s)
  | DCols => mkStty (s_t s) (s_all s) (s_save s) (s_size s) (s_setting s) (s_rows s) n
  | DMin => on_termios (set_cc (unix "VMIN") n) s
  | DTime => on_termios (set_cc (unix "VTIME") n) s
  end.
Definition trim_prefix (p s : bytes) : bytes := if has_prefix p s then drop (length p) s else s.

Fixpoint stty_loop (args : list bytes) (s : sttyState) : result sttyErr sttyState :=
  match args with
  | [] => Ok s
  | a :: args1 =>
      let st := style_of a in
      let s := mark st s in
      if bool_decide (is_Some st) then stty_loop args1 s
      else if bool_decide (a = lit "sane") then stty_loop args1 (on_termios saneTermios s)
      else if bool_decide (a = lit "raw") || bool_decide (a = lit "-cooked") then stty_loop args1 (on_termios makeRawTermios s)
      else if bool_decide (a = lit "-raw") || bool_decide (a = lit "cooked") then stty_loop args1 (on_termios makeCookedTermios s)
      else match dimension_of a with
      | Some d =>
          match args1 with
          | [] => Err (MissingArgument a)
          | v :: args2 =>
              match dimension_value d v with
              | Some n => stty_loop args2 (set_dimension d n s)
              | None => Err (InvalidNumber a v)
              end
          end
      | None =>
          if contains (lit ":") a then
            match parseSave a with
            | Ok t => stty_loop args1 (on_termios (fun _ => t) s)
            | Err e => Err (BadSave e)
            end
          else match lookupChar a with
          | Some c =>
              match args1 with
              | [] => Err (MissingArgument a)
              | v :: args2 =>
                  match parseCC v with
                  | Some b => stty_loop args2 (on_termios (set_cc (c_index c) b) s)
                  | None => Err (BadChar a v)
                  end
              end
          | None =>
              match lookupFlag (trim_prefix (lit "-") a) with
              | Some f => stty_loop args1 (on_termios (fun t => setFlag t f (negb (has_prefix (lit "-") a))) s)
              | None => Err (InvalidArgument a)
              end
          end
      end
  end.

Definition btoi (b : bool) : Z := if b then 1 else 0.

(** [SetWinsize]; 0 leaves a dimension. *)
Definition SetWinsize (y : tty) (rows cols : Z) : result sttyErr unit * list ttyEffect :=
  match y_size y with
  | None => (Err IOFailed, [])
  | Some (r, c) =>
      if y_setW y then (Ok tt, [EWinsize (if 0 <? rows then wrapu 16 rows else r) (if 0 <? cols then wrapu 16 cols else c)])
      else (Err IOFailed, [])
  end.

Definition print_out (y : tty) (s : bytes) : result sttyErr unit * list ttyEffect :=
  if y_write y then (Ok tt, [EOut s]) else (Err IOFailed, []).

(** What follows the loop. *)
Definition stty_finish (y : tty) (orig : Termios) (s : sttyState) : result sttyErr unit * list ttyEffect :=
  let output := s_all s || s_save s || s_size s in
  if output && s_setting s then (Err StyleWithModes, [])
  else if output && (1 <? btoi (s_all s) + btoi (s_save s) + btoi (s_size s)) then (Err ManyStyles, [])
  else if s_save s then print_out y (formatSave (s_t s) ++ [NL])
  else if s_size s then
    match y_size y with
    | None => (Err IOFailed, [])
    | Some (r, c) => print_out y (lit (pretty r) ++ lit " " ++ lit (pretty c) ++ [NL])
    end
  else if s_all s then let '(r, c) := default (0, 0) (y_size y) in print_out y (formatAll (s_t s) r c)
  else
    let set_t := if bool_decide (s_t s = orig) then Some []
                 else if y_setT y then Some [ETermios (s_t s)] else None in
    match set_t with
    | None => (Err IOFailed, [])
    | Some eff =>
        if (0 <=? s_rows s) || (0 <=? s_cols s) then
          let '(r, eff') := SetWinsize y (Z.max (s_rows s) 0) (Z.max (s_cols s) 0) in (r, eff ++ eff')
        else (Ok tt, eff)
    end.

Definition stty_start (t : Termios) : sttyState := mkStty t false false false false (-1) (-1).
Definition stty_args (args : list bytes) : list bytes := match args with [] => [lit "-a"] | _ => args end.
Definition Stty (y : tty) (args : list bytes) : result sttyErr unit * list ttyEffect :=
  match y_termios y with
  | None => (Err NotTerminal, [])
  | Some t =>
      match stty_loop (stty_args args) (stty_start t) with
      | Err e => (Err e, [])
      | Ok s => stty_finish y t s
      end
  end.

(** ** The modes of a pty-req *)

Record SSHMode := mkMode { Op : Z; Value : Z }.

(** [charBySSHOp] of the opcode, with a value that is no byte. *)
Definition bad_char_value (m : SSHMode) : bool := bool_decide (is_Some (charBySSHOp (Op m))) && (255 <? Value m).

Fixpoint parse_modes (n : Z) (b : bytes) : result bytes (list SSHMode) :=
  match b with
  | [] => Ok []
  | o :: b1 =>
      let op := byte_val o in
      if (op =? 0) || (160 <=? op) then Ok []
      else match b1 with
      | v0 :: v1 :: v2 :: v3 :: b2 =>
          if n =? maxSSHModes then Err (lit "ssh terminal modes: too many opcodes")
          else
            let m := mkMode op (be_get [v0; v1; v2; v3]) in
            if bad_char_value m then Err (lit "ssh terminal modes: value is not a byte")
            else let! out := parse_modes (n + 1) b2 in Ok (m :: out)
      | _ => Err (lit "ssh terminal modes: truncated argument")
      end
  end.
Definition ParseSSHModes (s : bytes) : result bytes (list SSHMode) := parse_modes 0 s.

Definition apply_mode (t : Termios) (m : SSHMode) : Termios :=
  match charBySSHOp (Op m) with
  | Some c => let v := wrapu 8 (Value m) in set_cc (c_index c) (if v =? 255 then vdisable else v) t
  | None =>
      match flagBySSHOp (Op m) with
      | Some f => setFlag t f (negb (Value m =? 0))
      | None => t
      end
  end.
Definition ApplySSHModes (t : Termios) (modes : list SSHMode) : Termios := foldl apply_mode t modes.

(** [applySSHModesFile]: the read and the write of the terminal. *)
Definition applySSHModesFile (y : tty) (modes : list SSHMode) : bool * list ttyEffect :=
  match modes with
  | [] => (true, [])
  | _ =>
      match y_termios y with
      | None => (false, [])
      | Some t => if y_setT y then (true, [ETermios (ApplySSHModes t modes)]) else (false, [])
      end
  end.
End Stty.

(** ** The saved form reads back *)

Definition word_ok (z : Z) : Prop := 0 <= z < 2 ^ tcflagBits.
Definition byte_ok (z : Z) : Prop := 0 <= z < 256.

Section Saved.
Context `{Constants}.

Record termios_ok (t : Termios) : Prop := {
  to_words : word_ok (Iflag t) /\ word_ok (Oflag t) /\ word_ok (Cflag t) /\ word_ok (Lflag t);
  to_length : length (Cc t) = NCCS; to_bytes : Forall byte_ok (Cc t) }.

Lemma no_colon n : 0 <= n -> ~ In ":"%char (FormatUint 16 n).
Proof.
  intros Hn Hin. pose proof (FormatUint_digits 16 n ltac:(lia) Hn) as Hd. rewrite List.Forall_forall in Hd.
  apply Hd in Hin. vm_compute in Hin. by destruct Hin.
Qed.

Lemma all_parsed_format width l : Forall (fun n => 0 <= n < 2 ^ width) l -> all_parsed width (map (FormatUint 16) l) = Some l.
Proof.
  unfold all_parsed. induction 1 as [|n l Hn _ IH]; [done|]. cbn [map mapM]. rewrite ParseUint_Format by (lia || done).
  cbn. by rewrite IH.
Qed.

Lemma all_parsed_range width s l : all_parsed width s = Some l -> length l = length s /\ Forall (fun n => 0 <= n < 2 ^ width) l.
Proof.
  unfold all_parsed. revert l. induction s as [|x s IH]; intros l Hl; [by invc Hl|]. cbn [mapM] in Hl.
  destruct (ParseUintBase 16 width x) as [n|] eqn:En; [|done]. cbn in Hl. destruct (mapM _ s) as [k|] eqn:Ek; [|done].
  cbn in Hl. invc Hl. destruct (IH k eq_refl) as [Hlen Hk]. split; [cbn; lia|]. constructor; [|done].
  by eapply ParseUintBase_range; [|exact En].
Qed.

(** The string that stty -g prints for any terminal modes reads back as the
    same modes, and every string that parses gives modes of the right shape.
    *)
Theorem save_reads_back t s :
  (termios_ok t -> parseSave (formatSave t) = Ok t) /\ (parseSave s = Ok t -> termios_ok t).
Proof.
  split.
  - intros [(Hi & Ho & Hc & Hl) Hlen Hcc]. unfold parseSave, formatSave. cbn [app map].
    rewrite split_byte_unique; [|done|].
    + cbn [length]. rewrite length_map, Hlen. assert ((S (S (S (S NCCS))) =? 4 + NCCS)%nat = true) as -> by by apply Nat.eqb_eq.
      cbn [negb firstn skipn]. rewrite take_0, drop_0. rewrite (all_parsed_format 8) by done.
      change [FormatUint 16 (Iflag t); FormatUint 16 (Oflag t); FormatUint 16 (Cflag t); FormatUint 16 (Lflag t)]
        with (map (FormatUint 16) [Iflag t; Oflag t; Cflag t; Lflag t]).
      rewrite all_parsed_format by (repeat constructor; unfold word_ok in *; lia). by destruct t.
    + unfold word_ok in *. repeat (constructor; [apply no_colon; lia|]). apply Forall_map, (Forall_impl _ _ _ Hcc).
      intros n Hn. apply no_colon. unfold byte_ok in Hn. lia.
  - unfold parseSave. destruct (_ =? _)%nat eqn:El; [|done]. apply Nat.eqb_eq in El. cbn [negb].
    destruct (all_parsed tcflagBits _) as [ws|] eqn:Ew; [|done]. apply all_parsed_range in Ew as [_ Hw].
    destruct ws as [|i [|o [|c [|l [|]]]]]; try done. destruct (all_parsed 8 _) as [cc|] eqn:Ec; [|done].
    apply all_parsed_range in Ec as [Hlen Hcc]. intros [= <-]. rewrite !Forall_cons in Hw.
    split; cbn; [unfold word_ok; tauto| |exact Hcc]. rewrite Hlen, length_drop, El. lia.
Qed.
End Saved.

(** A control character prints to what reads back, but for the disabled one. *)
Lemma cc_reads_back c : byte_ok c -> parseCC (formatCC c) = if c =? vdisable then None else Some c.
Proof.
  intros Hc. assert (Hall : forallb (fun n => bool_decide (parseCC (formatCC (Z.of_nat n)) =
      if Z.of_nat n =? vdisable then None else Some (Z.of_nat n))) (seq 0 256) = true) by (vm_compute; reflexivity).
  rewrite forallb_forall in Hall. specialize (Hall (Z.to_nat c)). unfold byte_ok in Hc.
  rewrite Z2Nat.id in Hall by lia. eapply bool_decide_eq_true_1, Hall, in_seq. lia.
Qed.

Lemma parseCC_byte s b : parseCC s = Some b -> byte_ok b.
Proof.
  unfold parseCC, byte_ok. assert (Hn : ParseUint0 8 s = Some b -> 0 <= b < 256) by apply ParseUint0_range.
  intros Hp. destruct (_ || _); [invc Hp; unfold vdisable; lia|]. destruct (bool_decide _); [invc Hp; lia|].
  destruct s as [|a [|c [|]]]; [by apply Hn| |  |by apply Hn].
  - pose proof (byte_val_range a). destruct (byte_val a <? 128); [invc Hp; lia|by apply Hn].
  - destruct (a =?b "^"); [|by apply Hn]. cbv zeta in Hp.
    set (z := if (97 <=? byte_val c) && (byte_val c <=? 122) then byte_val c - 32 else byte_val c) in Hp.
    destruct ((64 <=? z) && (z <=? 95)) eqn:E; [|by apply Hn]. bsimp. invc Hp. lia.
Qed.

(** ** The modes of a pty-req *)

Section Pty.
Context `{Constants}.

Definition mode_ok (m : SSHMode) : Prop := 1 <= Op m < 160 /\ 0 <= Value m < 2 ^ 32 /\ bad_char_value m = false.
Definition encode_mode (m : SSHMode) : bytes := byte_of (Op m) :: be_put 4 (Value m).
Definition encode_modes (ms : list SSHMode) : bytes := concat (map encode_mode ms).
(** Where the reader stops: the end, or an opcode that ends the modes. *)
Definition modes_end (rest : bytes) : Prop :=
  match rest with [] => True | o :: _ => byte_val o = 0 \/ 160 <= byte_val o end.

Lemma parse_modes_sound k : forall n s ms, (length s <= k)%nat -> 0 <= n <= maxSSHModes -> parse_modes n s = Ok ms ->
  n + zlen ms <= maxSSHModes /\ Forall mode_ok ms /\ exists rest, s = encode_modes ms ++ rest /\ modes_end rest.
Proof.
  assert (Hdone : forall n s, 0 <= n <= maxSSHModes -> modes_end s ->
    n + zlen (@nil SSHMode) <= maxSSHModes /\ Forall mode_ok [] /\ exists rest, s = encode_modes [] ++ rest /\ modes_end rest).
  { intros n s Hn Hs. split_and!; [autorewrite with go; lia|constructor|by exists s]. }
  induction k as [|k IH]; intros n s ms Hk Hn Hp.
  - destruct s; [|cbn in Hk; lia]. invc Hp. by apply Hdone.
  - destruct s as [|o s]; [invc Hp; by apply Hdone|]. cbn [parse_modes] in Hp.
    destruct ((byte_val o =? 0) || (160 <=? byte_val o)) eqn:Eo; [invc Hp; apply Hdone; [done|bsimp; cbn; lia]|].
    destruct s as [|v0 [|v1 [|v2 [|v3 s]]]]; try done. destruct (n =? maxSSHModes) eqn:En; [done|].
    set (m := mkMode _ _) in Hp. destruct (bad_char_value m) eqn:Eb; [done|].
    destruct (parse_modes (n + 1) s) as [out|] eqn:Er; [|done]. cbn [rbind] in Hp. invc Hp.
    apply IH in Er as (Hlen & Hok & rest & -> & Hend); [|cbn in Hk; lia|bsimp; lia]. split_and!.
    + rewrite zlen_cons. lia.
    + constructor; [|done]. unfold mode_ok, m. cbn [Op Value]. pose proof (byte_val_range o). bsimp.
      pose proof (be_get_range [v0; v1; v2; v3]) as Hr. change (256 ^ zlen [v0; v1; v2; v3]) with (2 ^ 32) in Hr. split_and!; (lia || done).
    + exists rest. split; [|done]. change (encode_modes (m :: out)) with (encode_mode m ++ encode_modes out).
      unfold encode_mode, m. cbn [Op Value]. rewrite byte_of_val. pose proof (be_put_get [v0; v1; v2; v3]) as Hg. cbn [length] in Hg. rewrite Hg. by rewrite <- app_assoc.
Qed.

Lemma parse_modes_complete ms : forall n rest, n + zlen ms <= maxSSHModes -> Forall mode_ok ms -> modes_end rest ->
  parse_modes n (encode_modes ms ++ rest) = Ok ms.
Proof.
  induction ms as [|m ms IH]; intros n rest Hn Hok Hend.
  - cbn. destruct rest as [|o rest]; [done|]. cbn in *. by assert ((byte_val o =? 0) || (160 <=? byte_val o) = true) as -> by lia.
  - apply Forall_cons in Hok as [(Hop & Hv & Hb) Hok]. rewrite zlen_cons in Hn. pose proof (zlen_nonneg ms).
    change (encode_modes (m :: ms)) with (encode_mode m ++ encode_modes ms). unfold encode_mode. pose proof (length_be_put 4 (Value m)) as Hl.
    pose proof (be_get_put 4 (Value m)) as Hg. destruct (be_put 4 (Value m)) as [|v0 [|v1 [|v2 [|v3 [|]]]]]; try done.
    cbn [app parse_modes]. rewrite byte_val_of, Z.mod_small by lia.
    assert ((Op m =? 0) || (160 <=? Op m) = false) as -> by lia. assert ((n =? maxSSHModes) = false) as -> by (unfold maxSSHModes in *; lia).
    rewrite Hg. change (256 ^ Z.of_nat 4) with (2 ^ 32). rewrite Z.mod_small by done.
    assert (mkMode (Op m) (Value m) = m) as -> by by destruct m. rewrite Hb. by rewrite IH by (lia || done).
Qed.

(** A terminal-mode string is accepted with a list of modes exactly when it is
    the encoding of at most 256 modes with opcodes 1 to 159 and no control
    character above 255, followed by nothing or by an opcode that ends the
    modes; so a truncated or oversized string is refused as a whole. *)
Theorem ParseSSHModes_iff s ms :
  ParseSSHModes s = Ok ms <->
  zlen ms <= 256 /\ Forall mode_ok ms /\ exists rest, s = encode_modes ms ++ rest /\ modes_end rest.
Proof.
  split.
  - intros H0. by apply (parse_modes_sound (length s) 0 s ms) in H0; [|done|unfold maxSSHModes; lia].
  - intros (Hl & Hok & rest & -> & Hend). apply parse_modes_complete; [unfold maxSSHModes; lia|done|done].
Qed.
End Pty.

(** ** stty parses before it changes anything *)

(** An operand, read from the words alone. *)
Inductive sttyOp :=
| XStyle (st : style) | XSane | XRaw | XCooked | XDim (d : dimension) (n : Z) | XSaved (t : Termios) | XChar (c : ttyChar) (b : Z)
| XFlag (f : ttyFlag) (on : bool).

Section Operands.
Context `{Constants}.

Definition run_op (s : sttyState) (x : sttyOp) : sttyState :=
  match x with
  | XStyle st => mark (Some st) s
  | XSane => on_termios saneTermios (mark None s)
  | XRaw => on_termios makeRawTermios (mark None s)
  | XCooked => on_termios makeCookedTermios (mark None s)
  | XDim d n => set_dimension d n (mark None s)
  | XSaved t => on_termios (fun _ => t) (mark None s)
  | XChar c b => on_termios (set_cc (c_index c) b) (mark None s)
  | XFlag f on => on_termios (fun t => setFlag t f on) (mark None s)
  end.

(** What an operand may carry. *)
Definition op_ok (x : sttyOp) : Prop :=
  match x with
  | XDim (DRows | DCols) n => 1 <= n <= maxPTYDim
  | XDim _ n => byte_ok n
  | XSaved t => termios_ok t
  | XChar c b => In c ttyChars /\ byte_ok b
  | XFlag f _ => In f ttyFlags
  | _ => True
  end.

Lemma dimension_value_ok d v n : dimension_value d v = Some n -> op_ok (XDim d n).
Proof.
  unfold dimension_value. destruct (ParseUint 16 v) as [m|] eqn:Em; [|done].
  assert (0 <= m) as Hm.
  { unfold ParseUint in Em. destruct v as [|c v]; [done|]. destruct (parse_digits 0 (c :: v)) as [k|] eqn:Ek; [|done]. cbn in Em.
    destruct (k <? 2 ^ 16); [|done]. invc Em. clear -Ek. revert Ek. generalize (c :: v). intros l.
    assert (Hgen : forall acc, 0 <= acc -> parse_digits acc l = Some m -> 0 <= m); [|by apply Hgen].
    induction l as [|x l IH]; intros acc Ha; cbn [parse_digits]; [by intros [= ->]|].
    destruct ((48 <=? byte_val x) && _) eqn:E; [|done]. bsimp. apply IH. lia. }
  destruct d; cbn; unfold byte_ok, maxPTYDim in *.
  1,2: destruct ((m =? 0) || (1000 <? m)) eqn:E; [done|]; intros [= <-]; bsimp; lia.
  all: destruct (255 <? m) eqn:E; [done|]; intros [= <-]; lia.
Qed.

(** The loop reads the operands whatever state it starts in. *)
Lemma stty_loop_ops k : forall args, (length args <= k)%nat ->
  (exists e, forall s, stty_loop args s = Err e) \/
  (exists ops, Forall op_ok ops /\ forall s, stty_loop args s = Ok (foldl run_op s ops)).
Proof.
  induction k as [|k IH]; intros args Hk.
  { destruct args; [|cbn in Hk; lia]. right. by exists []. }
  destruct args as [|a args]; [right; by exists []|].
  assert (Hmore : forall x rest (f : sttyState -> sttyState), (length rest <= k)%nat -> op_ok x -> (forall s, f s = run_op s x) ->
    (exists e, forall s, stty_loop rest (f s) = Err e) \/
    (exists ops, Forall op_ok ops /\ forall s, stty_loop rest (f s) = Ok (foldl run_op s ops))).
  { intros x rest f Hlen Hx Hf. destruct (IH rest Hlen) as [[e He]|(ops & Hops & Ho)]; [left; exists e; intros s; apply He|].
    right. exists (x :: ops). split; [by constructor|]. intros s. rewrite Ho, Hf. reflexivity. }
  cbn [length] in Hk. cbn [stty_loop]. destruct (style_of a) as [st|] eqn:Est.
  { rewrite bool_decide_true by by eexists. apply (Hmore (XStyle st)); [lia|done|done]. }
  rewrite bool_decide_false by by intros [? [=]].
  case_bool_decide; [apply (Hmore XSane); [lia|done|done]|].
  destruct (_ || _); [apply (Hmore XRaw); [lia|done|done]|]. destruct (_ || _); [apply (Hmore XCooked); [lia|done|done]|].
  destruct (dimension_of a) as [d|].
  { destruct args as [|v args]; [left; by eexists|]. destruct (dimension_value d v) as [n|] eqn:Ed; [|left; by eexists].
    apply (Hmore (XDim d n)); [cbn in Hk; lia|by eapply dimension_value_ok|done]. }
  destruct (contains _ a).
  { destruct (parseSave a) as [t|] eqn:Ep; [|left; by eexists]. apply (Hmore (XSaved t)); [lia| |done].
    unfold parseSave in Ep. by eapply (save_reads_back t a). }
  destruct (lookupChar a) as [c|] eqn:Ec.
  { destruct args as [|v args]; [left; by eexists|]. destruct (parseCC v) as [b|] eqn:Eb; [|left; by eexists].
    apply (Hmore (XChar c b)); [cbn in Hk; lia| |done]. apply find_some in Ec as [Hin _]. split; [done|by eapply parseCC_byte]. }
  destruct (lookupFlag _) as [f|] eqn:Ef; [|left; by eexists]. apply find_some in Ef as [Hin _].
  by apply (Hmore (XFlag f (negb (has_prefix (lit "-") a)))); [lia| |].
Qed.

(** The operands of stty alone decide: either they are refused with the same
    error on every terminal and nothing is written, or they are a list of
    valid operands and stty applies exactly that list before it writes. *)
Theorem stty_parses_first args :
  (exists e, forall y t, y_termios y = Some t -> Stty y args = (Err e, [])) \/
  (exists ops, Forall op_ok ops /\
     forall y t, y_termios y = Some t -> Stty y args = stty_finish y t (foldl run_op (stty_start t) ops)).
Proof.
  destruct (stty_loop_ops (length (stty_args args)) (stty_args args) ltac:(lia)) as [[e He]|(ops & Hops & Ho)]; [left; exists e|right; exists ops];
    [|split; [done|]]; intros y t Hy; unfold Stty; rewrite Hy; [by rewrite He|by rewrite Ho].
Qed.
End Operands.

(** ** What the client's modes set *)

(** The constants are what the tables need: indices inside [Cc] and distinct,
    single opcodes, and masks of one word that share no bit. *)
Class ConstantLaws `{Constants} : Prop := {
  index_ok : forall c, In c ttyChars -> 0 <= c_index c < Z.of_nat NCCS;
  index_inj : forall c d, In c ttyChars -> In d ttyChars -> c_index c = c_index d -> c = d;
  char_op : forall c d, In c ttyChars -> In d ttyChars -> c_sshOp c = c_sshOp d -> c = d;
  char_flag_op : forall c f, In c ttyChars -> In f ttyFlags -> c_sshOp c <> f_sshOp f;
  flag_op : forall f g, In f ttyFlags -> In g ttyFlags -> f_sshOp f = f_sshOp g -> f_sshOp f <> 0 -> f = g;
  mask_ok : forall f, In f ttyFlags -> 0 < f_mask f < 2 ^ tcflagBits;
  mask_disjoint : forall f g, In f ttyFlags -> In g ttyFlags -> f <> g -> f_word f = f_word g -> Z.land (f_mask f) (f_mask g) = 0 }.

Definition flag_on (t : Termios) (f : ttyFlag) : bool := negb (Z.land (flagWord t (f_word f)) (tcflag (f_mask f)) =? 0).
(** The value of the last mode with an opcode. *)
Definition last_value (op : Z) (modes : list SSHMode) : option Z :=
  foldl (fun acc m => if Op m =? op then Some (Value m) else acc) None modes.

Lemma flagWord_on_word t w g v : flagWord (on_word w g t) v = if bool_decide (w = v) then g (flagWord t v) else flagWord t v.
Proof. by destruct w, v. Qed.

Lemma land_set a m : m <> 0 -> Z.land (Z.lor a m) m <> 0.
Proof.
  intros Hm E. apply Hm. apply Z.bits_inj'. intros i Hi. apply (f_equal (fun z => Z.testbit z i)) in E.
  rewrite Z.land_spec, Z.lor_spec, Z.bits_0 in E. rewrite Z.bits_0. destruct (Z.testbit m i); [|done]. by rewrite orb_true_r in E.
Qed.
Lemma land_cleared a m : Z.land (Z.ldiff a m) m = 0.
Proof. apply Z.bits_inj'. intros i Hi. rewrite Z.land_spec, Z.ldiff_spec, Z.bits_0. destruct (Z.testbit m i); [by rewrite andb_false_r|by rewrite andb_false_r]. Qed.
Lemma land_other a m k (b : bool) : Z.land m k = 0 -> Z.land (if b then Z.lor a m else Z.ldiff a m) k = Z.land a k.
Proof.
  intros Hd. apply Z.bits_inj'. intros i Hi. apply (f_equal (fun z => Z.testbit z i)) in Hd. rewrite Z.land_spec, Z.bits_0 in Hd.
  destruct b; rewrite !Z.land_spec, ?Z.lor_spec, ?Z.ldiff_spec; destruct (Z.testbit m i), (Z.testbit k i); try done; by rewrite ?orb_false_r, ?andb_true_r, ?andb_false_r.
Qed.

Lemma cc_at_set t i v j : 0 <= i < zlen (Cc t) -> 0 <= j -> cc_at (set_cc i v t) j = if i =? j then v else cc_at t j.
Proof.
  unfold cc_at, set_cc. cbn. intros Hi Hj. rewrite !nth_lookup. unfold zlen in Hi. destruct (i =? j) eqn:E.
  - assert (i = j) as -> by lia. by rewrite list_lookup_insert_eq by lia.
  - by rewrite list_lookup_insert_ne by lia.
Qed.

Section Client.
Context `{ConstantLaws}.

Lemma tcflag_mask f : In f ttyFlags -> tcflag (f_mask f) = f_mask f.
Proof. intros Hf. pose proof (mask_ok f Hf). unfold tcflag, wrapu. by rewrite Z.mod_small by lia. Qed.

Lemma flag_on_set t f g b : In f ttyFlags -> In g ttyFlags ->
  (f = g -> flag_on (setFlag t f b) g = b) /\ (f <> g -> flag_on (setFlag t f b) g = flag_on t g).
Proof.
  intros Hf Hg. unfold flag_on, setFlag, set_mask. rewrite flagWord_on_word, !tcflag_mask by done. split.
  - intros ->. rewrite bool_decide_true by done. pose proof (mask_ok g Hg). destruct b; [|by rewrite land_cleared].
    apply negb_true_iff, Z.eqb_neq, land_set. lia.
  - intros Hne. case_bool_decide as Ew; [|done]. by rewrite land_other by by apply mask_disjoint.
Qed.

Lemma charBySSHOp_char c : In c ttyChars -> charBySSHOp (c_sshOp c) = Some c.
Proof.
  intros Hc. unfold charBySSHOp. destruct (find _ ttyChars) as [d|] eqn:E.
  - apply find_some in E as [Hd E]. f_equal. apply char_op; [done|done|lia].
  - apply (find_none _ _ E) in Hc. lia.
Qed.
Lemma charBySSHOp_flag f : In f ttyFlags -> charBySSHOp (f_sshOp f) = None.
Proof.
  intros Hf. unfold charBySSHOp. destruct (find _ ttyChars) as [d|] eqn:E; [|done]. apply find_some in E as [Hd E].
  destruct (char_flag_op d f Hd Hf). lia.
Qed.
Lemma flagBySSHOp_flag f : In f ttyFlags -> f_sshOp f <> 0 -> flagBySSHOp (f_sshOp f) = Some f.
Proof.
  intros Hf Hne. unfold flagBySSHOp. assert ((f_sshOp f =? 0) = false) as -> by lia. destruct (find _ ttyFlags) as [g|] eqn:E.
  - apply find_some in E as [Hg E]. f_equal. symmetry. apply flag_op; [done|done|lia|done].
  - apply (find_none _ _ E) in Hf. lia.
Qed.

(** What the modes leave of a terminal. *)
Record client_set (t : Termios) (modes : list SSHMode) (t' : Termios) : Prop := {
  cs_char : forall c, In c ttyChars -> cc_at t' (c_index c) =
    match last_value (c_sshOp c) modes with Some v => if v =? 255 then vdisable else v | None => cc_at t (c_index c) end;
  cs_flag : forall f, In f ttyFlags -> flag_on t' f =
    match last_value (f_sshOp f) modes with Some v => negb (v =? 0) | None => flag_on t f end;
  cs_cflag : Cflag t' = Cflag t;
  cs_length : length (Cc t') = length (Cc t);
  cs_other : forall i, 0 <= i -> (forall c, In c ttyChars -> c_index c <> i) -> cc_at t' i = cc_at t i }.

Lemma last_value_app op modes m : last_value op (modes ++ [m]) = if Op m =? op then Some (Value m) else last_value op modes.
Proof. unfold last_value. by rewrite foldl_app. Qed.

(** The flags of the control word have no opcode. *)
Lemma cflag_no_op f : In f ttyFlags -> f_word f = WC -> f_sshOp f = 0.
Proof. unfold ttyFlags. cbn [In]. intros Hf Hw. repeat destruct Hf as [<-|Hf]; try done. Qed.

(** After a client's modes are applied each control character and each flag
    with an opcode has the value of its last mode (255 disables a character),
    everything without a mode is as before, and the control flags of the line
    cannot be set at all. *)
Theorem client_modes_set t modes : length (Cc t) = NCCS -> Forall mode_ok modes -> client_set t modes (ApplySSHModes t modes).
Proof.
  intros Ht Hm. induction modes as [|m modes IH] using rev_ind; [by split|]. apply Forall_app in Hm as [Hm Hl].
  apply Forall_cons in Hl as [(Hop & Hv & Hb) _]. specialize (IH Hm). unfold ApplySSHModes in *. rewrite foldl_app. cbn [foldl].
  set (t1 := foldl apply_mode t modes) in *. destruct IH as [I1 I2 I3 I4 I5]. unfold apply_mode.
  destruct (charBySSHOp (Op m)) as [c|] eqn:Ec.
  - unfold charBySSHOp in Ec. pose proof (find_some _ _ Ec) as [Hc Eo]. pose proof (index_ok c Hc) as Hi.
    assert (Hval : Value m <= 255).
    { unfold bad_char_value, charBySSHOp in Hb. rewrite Ec in Hb. rewrite bool_decide_true in Hb by by eexists. cbn in Hb. lia. }
    assert (wrapu 8 (Value m) = Value m) as -> by (unfold wrapu; rewrite Z.mod_small by lia; done).
    assert (Hset : forall j v, 0 <= j -> cc_at (set_cc (c_index c) v t1) j = if c_index c =? j then v else cc_at t1 j).
    { intros j v Hj. apply cc_at_set; [|done]. unfold zlen. rewrite I4, Ht. lia. }
    split.
    + intros d Hd. pose proof (index_ok d Hd). rewrite Hset, last_value_app by lia. destruct (Op m =? c_sshOp d) eqn:E.
      * assert (c = d) as -> by (apply char_op; [done|done|lia]). by rewrite Z.eqb_refl.
      * destruct (c_index c =? c_index d) eqn:Ei; [|by apply I1]. assert (c = d) as -> by (apply index_inj; [done|done|lia]). lia.
    + intros f Hf. rewrite last_value_app. pose proof (char_flag_op c f Hc Hf). assert ((Op m =? f_sshOp f) = false) as -> by lia. by apply I2.
    + exact I3.
    + cbn. by rewrite length_insert.
    + intros i Hi0 Hno. rewrite Hset by done. assert ((c_index c =? i) = false) as -> by (specialize (Hno c Hc); lia). by apply I5.
  - assert (Hchars : forall d, In d ttyChars -> (Op m =? c_sshOp d) = false).
    { intros d Hd. destruct (Op m =? c_sshOp d) eqn:E; [|done]. assert (Op m = c_sshOp d) as Eo by lia. rewrite Eo, charBySSHOp_char in Ec; done. }
    destruct (flagBySSHOp (Op m)) as [f|] eqn:Ef.
    + unfold flagBySSHOp in Ef. destruct (Op m =? 0) eqn:E0; [done|]. apply find_some in Ef as [Hf Eo].
      assert (Hword : f_word f <> WC) by (intros Hw; apply cflag_no_op in Hw; [lia|done]). split.
      * intros d Hd. rewrite last_value_app, Hchars by done. rewrite <- I1 by done. unfold setFlag, set_mask. by destruct (f_word f).
      * intros g Hg. rewrite last_value_app. destruct (flag_on_set t1 f g (negb (Value m =? 0)) Hf Hg) as [Hsame Hdiff].
        destruct (Op m =? f_sshOp g) eqn:E; [apply Hsame, flag_op; [done|done|lia|lia]|]. rewrite Hdiff; [by apply I2|]. intros ->. lia.
      * rewrite <- I3. unfold setFlag, set_mask. by destruct (f_word f).
      * rewrite <- I4. unfold setFlag, set_mask. by destruct (f_word f).
      * intros i Hi Hno. rewrite <- I5 by done. unfold setFlag, set_mask. by destruct (f_word f).
    + split; [|  |done|done|done].
      * intros d Hd. by rewrite last_value_app, Hchars, I1.
      * intros f Hf. rewrite last_value_app. destruct (Op m =? f_sshOp f) eqn:E; [|by apply I2]. assert (Op m = f_sshOp f) as Eo by lia.
        rewrite Eo, flagBySSHOp_flag in Ef by (done || lia). done.
Qed.
End Client.

(** ** What stty may write *)

Section Effects.
Context `{Constants}.

Lemma word_op_ok v m (on : bool) : word_ok v -> word_ok (if on then Z.lor v (tcflag m) else Z.ldiff v (tcflag m)).
Proof.
  intros Hv. assert (Hm : 0 <= tcflag m < 2 ^ tcflagBits) by (unfold tcflag, wrapu; apply Z.mod_pos_bound; done).
  assert (Hhigh : forall z, word_ok z <-> 0 <= z /\ forall i, tcflagBits <= i -> Z.testbit z i = false).
  { intros z. unfold word_ok. split.
    - intros [Hz Hlt]. split; [done|]. intros i Hi. destruct (Z.eq_dec z 0) as [->|Hne]; [apply Z.bits_0|].
      apply Z.bits_above_log2; [done|]. apply Z.log2_lt_pow2 in Hlt; lia.
    - intros [Hz Hbits]. split; [done|]. destruct (Z.eq_dec z 0) as [->|Hne]; [done|]. apply Z.log2_lt_pow2; [lia|].
      destruct (Z_lt_ge_dec (Z.log2 z) tcflagBits) as [Hl|Hg]; [done|]. specialize (Hbits (Z.log2 z) ltac:(lia)).
      by rewrite Z.bit_log2 in Hbits by lia. }
  apply Hhigh in Hv as [Hv Hvb]. assert (word_ok (tcflag m)) as Hmw by exact Hm. apply Hhigh in Hmw as [Hm0 Hmb]. apply Hhigh. destruct on; split.
  - by apply Z.lor_nonneg.
  - intros i Hi. by rewrite Z.lor_spec, Hvb, Hmb.
  - apply Z.ldiff_nonneg. by left.
  - intros i Hi. by rewrite Z.ldiff_spec, Hvb.
Qed.

Lemma set_mask_ok w m on t : termios_ok t -> termios_ok (set_mask w m on t).
Proof.
  intros [(Hi & Ho & Hc & Hl) Hlen Hcc]. unfold set_mask.
  split; destruct w; cbn [on_word Iflag Oflag Cflag Lflag Cc]; try done; split_and!; try done; by apply word_op_ok.
Qed.
Lemma set_cc_ok i v t : termios_ok t -> byte_ok v -> termios_ok (set_cc i v t).
Proof.
  intros [Hw Hlen Hcc] Hv. split; cbn [set_cc Iflag Oflag Cflag Lflag Cc]; [done|by rewrite length_insert|by apply Forall_insert].
Qed.
#[local] Hint Resolve set_mask_ok set_cc_ok : core.

Lemma saneTermios_ok t : termios_ok t -> termios_ok (saneTermios t).
Proof.
  intros Ht. unfold saneTermios. cbv zeta.
  assert (Hall : Forall (fun cv : string * Z => byte_ok (snd cv)) sane_chars) by (repeat constructor; cbn; unfold byte_ok, vdisable; lia).
  match goal with |- termios_ok (foldl _ ?x _) => assert (Hx : termios_ok x) by auto 10; revert Hx; generalize x end.
  induction Hall as [|[k v] l Hv _ IH]; intros u Hu; [done|]. apply IH. by apply set_cc_ok.
Qed.
Lemma makeRawTermios_ok t : termios_ok t -> termios_ok (makeRawTermios t).
Proof. intros Ht. unfold makeRawTermios. repeat apply set_cc_ok; auto 10; unfold byte_ok; lia. Qed.
Lemma makeCookedTermios_ok t : termios_ok t -> termios_ok (makeCookedTermios t).
Proof. intros Ht. unfold makeCookedTermios. auto 10. Qed.

Lemma run_op_ok s x : termios_ok (s_t s) -> op_ok x -> termios_ok (s_t (run_op s x)).
Proof.
  intros Hs Hx. destruct x as [[]| | | |[] n|t|c b|f on]; cbn [run_op on_termios mark set_dimension s_t op_ok] in *;
    try done; auto using saneTermios_ok, makeRawTermios_ok, makeCookedTermios_ok.
  - by apply set_cc_ok; [|tauto].
  - by apply set_mask_ok.
Qed.

Definition dim_ok (n : Z) : Prop := n = -1 \/ 1 <= n <= maxPTYDim.
Definition state_ok (s : sttyState) : Prop := termios_ok (s_t s) /\ dim_ok (s_rows s) /\ dim_ok (s_cols s).
Lemma run_ops_ok ops : Forall op_ok ops -> forall s, state_ok s -> state_ok (foldl run_op s ops).
Proof.
  induction 1 as [|x ops Hx _ IH]; intros s (Ht & Hr & Hc); [done|]. cbn [foldl]. apply IH. split; [by apply run_op_ok|].
  destruct x as [[]| | | |[] n| | |]; cbn in *; unfold dim_ok in *; split; (lia || assumption).
Qed.

(** What one write may carry: modes of the right shape that differ from the
    old ones, or a size of at most 1000 a side where it changes. *)
Definition effect_ok (t : Termios) (size : option (Z * Z)) (e : ttyEffect) : Prop :=
  match e with
  | EOut _ => True
  | ETermios t' => termios_ok t' /\ t' <> t
  | EWinsize r c => exists r0 c0, size = Some (r0, c0) /\ (r = r0 \/ 1 <= r <= 1000) /\ (c = c0 \/ 1 <= c <= 1000)
  end.
Definition is_out (e : ttyEffect) : bool := match e with EOut _ => true | _ => false end.

Lemma stty_finish_effects y t s : state_ok s ->
  let '(r, effs) := stty_finish y t s in
  Forall (effect_ok t (y_size y)) effs /\ (forall e, r = Err e -> e <> IOFailed -> effs = []) /\
  (s_all s || s_save s || s_size s = true -> Forall (fun e => is_out e = true) effs) /\
  (s_all s || s_save s || s_size s = false -> Forall (fun e => is_out e = false) effs).
Proof.
  intros (Ht & Hr & Hc). unfold stty_finish. set (out := s_all s || s_save s || s_size s).
  destruct (out && s_setting s) eqn:E1; [split_and!; intros; by constructor|].
  destruct (out && (1 <? _)) eqn:E2; [split_and!; intros; by constructor|].
  assert (Hprint : forall b, out = true -> let '(r, effs) := print_out y b in
    Forall (effect_ok t (y_size y)) effs /\ (forall e, r = Err e -> e <> IOFailed -> effs = []) /\
    (out = true -> Forall (fun e => is_out e = true) effs) /\ (out = false -> Forall (fun e => is_out e = false) effs)).
  { intros b Ho. unfold print_out. destruct (y_write y); split_and!; intros; try congruence; by repeat constructor. }
  destruct (s_save s) eqn:Es; [apply Hprint; unfold out; by rewrite orb_true_r|].
  destruct (s_size s) eqn:Ez.
  { destruct (y_size y) as [[r c]|] eqn:Ey; [rewrite <- Ey in *; apply Hprint; unfold out; by rewrite orb_true_r|].
    split_and!; intros; try congruence; constructor. }
  destruct (s_all s) eqn:Ea; [destruct (default _ _); by apply Hprint|]. assert (out = false) as Hout by done. rewrite Hout.
  set (set_t := if bool_decide (s_t s = t) then _ else _).
  assert (Hset : match set_t with Some eff => Forall (effect_ok t (y_size y)) eff /\ Forall (fun e => is_out e = false) eff | None => True end).
  { unfold set_t. case_bool_decide; [by split|]. destruct (y_setT y); [|done]. split; (constructor; [|constructor]); by split_and?. }
  destruct set_t as [eff|]; [|split_and!; intros; try congruence; constructor]. destruct Hset as [He Hn].
  destruct ((0 <=? s_rows s) || (0 <=? s_cols s)); [|split_and!; intros; congruence || done].
  unfold SetWinsize. destruct (y_size y) as [[r0 c0]|] eqn:Ey; [|rewrite app_nil_r; split_and!; intros; congruence || done].
  destruct (y_setW y); [|rewrite app_nil_r; split_and!; intros; congruence || done]. split_and!; try (intros; congruence).
  - apply Forall_app. split; [done|]. constructor; [|done]. exists r0, c0. split; [done|]. unfold dim_ok, maxPTYDim, wrapu in *.
    split; [destruct (0 <? Z.max (s_rows s) 0) eqn:E|destruct (0 <? Z.max (s_cols s) 0) eqn:E]; try (by left); right; rewrite Z.mod_small by lia; lia.
  - intros _. apply Forall_app. by repeat constructor.
Qed.

(** Whatever its operands, stty writes only modes with 32-bit flag words and
    byte characters that differ from the old ones and sizes of at most 1000 a
    side, writes nothing on any error but a failed call, and never both prints
    and changes the terminal. *)
Theorem stty_writes y t args : y_termios y = Some t -> termios_ok t ->
  let '(r, effs) := Stty y args in
  Forall (effect_ok t (y_size y)) effs /\
  (forall e, r = Err e -> e <> IOFailed -> effs = []) /\
  (Forall (fun e => is_out e = true) effs \/ Forall (fun e => is_out e = false) effs).
Proof.
  intros Hy Ht. unfold Stty. rewrite Hy.
  destruct (stty_loop_ops (length (stty_args args)) (stty_args args) ltac:(lia)) as [[e He]|(ops & Hops & Ho)].
  - rewrite He. split_and!; [constructor|done|by left].
  - rewrite Ho. pose proof (run_ops_ok ops Hops (stty_start t)) as Hs. pose proof (stty_finish_effects y t _ (Hs ltac:(split_and!; [done|by left|by left]))) as Hf.
    destruct (stty_finish _ _ _) as [r effs]. destruct Hf as (H1 & H2 & H3 & H4). split_and!; [done|done|].
    destruct (s_all _ || _ || _) eqn:E; [left; by apply H3|right; by apply H4].
Qed.
End Effects.

(** ** Concrete inputs *)

Definition table (l : list (string * Z)) (c : string) : Z :=
  match find (fun kv => bool_decide (fst kv = c)) l with Some (_, v) => v | None => 0 end.
(** The values of Linux on amd64 and of RFC 4254. *)
#[local] Instance linux : Constants := {|
  unix := table [("IGNBRK", 1); ("BRKINT", 2); ("IGNPAR", 4); ("PARMRK", 8); ("INPCK", 16); ("ISTRIP", 32); ("INLCR", 64); ("IGNCR", 128);
    ("ICRNL", 256); ("IXON", 1024); ("IXANY", 2048); ("IXOFF", 4096); ("IMAXBEL", 8192); ("IUTF8", 16384);
    ("OPOST", 1); ("ONLCR", 4); ("OCRNL", 8); ("ONOCR", 16); ("ONLRET", 32);
    ("CSTOPB", 64); ("CREAD", 128); ("PARENB", 256); ("PARODD", 512); ("HUPCL", 1024); ("CLOCAL", 2048);
    ("ISIG", 1); ("ICANON", 2); ("ECHO", 8); ("ECHOE", 16); ("ECHOK", 32); ("ECHONL", 64); ("NOFLSH", 128); ("TOSTOP", 256); ("ECHOCTL", 512);
    ("ECHOPRT", 1024); ("ECHOKE", 2048); ("PENDIN", 16384); ("IEXTEN", 32768);
    ("VINTR", 0); ("VQUIT", 1); ("VERASE", 2); ("VKILL", 3); ("VEOF", 4); ("VTIME", 5); ("VMIN", 6); ("VSTART", 8); ("VSTOP", 9); ("VSUSP", 10);
    ("VEOL", 11); ("VREPRINT", 12); ("VDISCARD", 13); ("VWERASE", 14); ("VLNEXT", 15); ("VEOL2", 16)]%string;
  ssh := table [("VINTR", 1); ("VQUIT", 2); ("VERASE", 3); ("VKILL", 4); ("VEOF", 5); ("VEOL", 6); ("VEOL2", 7); ("VSTART", 8); ("VSTOP", 9);
    ("VSUSP", 10); ("VREPRINT", 12); ("VWERASE", 13); ("VLNEXT", 14); ("VDISCARD", 18);
    ("IGNPAR", 30); ("PARMRK", 31); ("INPCK", 32); ("ISTRIP", 33); ("INLCR", 34); ("IGNCR", 35); ("ICRNL", 36); ("IXON", 38); ("IXANY", 39);
    ("IXOFF", 40); ("IMAXBEL", 41); ("IUTF8", 42); ("ISIG", 50); ("ICANON", 51); ("ECHO", 53); ("ECHOE", 54); ("ECHOK", 55); ("ECHONL", 56);
    ("NOFLSH", 57); ("TOSTOP", 58); ("IEXTEN", 59); ("ECHOCTL", 60); ("ECHOKE", 61); ("PENDIN", 62);
    ("OPOST", 70); ("ONLCR", 72); ("OCRNL", 73); ("ONOCR", 74); ("ONLRET", 75)]%string;
  NCCS := 19%nat |}.

#[local] Instance ttyFlag_eq_dec : EqDecision ttyFlag.
Proof. solve_decision. Defined.
#[local] Instance ttyChar_eq_dec : EqDecision ttyChar.
Proof. solve_decision. Defined.

(** A test of every pair of two tables. *)
Lemma all_pairs {A B} (p : A -> B -> bool) l k : forallb (fun a => forallb (p a) k) l = true -> forall a b, In a l -> In b k -> p a b = true.
Proof. intros Hp a b Ha Hb. rewrite forallb_forall in Hp. specialize (Hp a Ha). rewrite forallb_forall in Hp. by apply Hp. Qed.

Lemma pair_law {A B} (p : A -> B -> bool) (P : A -> B -> Prop) l k : forallb (fun a => forallb (p a) k) l = true ->
  (forall a b, p a b = true -> P a b) -> forall a b, In a l -> In b k -> P a b.
Proof. intros Hp HP a b Ha Hb. apply HP. by eapply all_pairs. Qed.

#[local] Instance linux_laws : ConstantLaws.
Proof.
  split.
  - intros c Hc. assert (Hp : forallb (fun c => (0 <=? c_index c) && (c_index c <? 19)) ttyChars = true) by (vm_compute; reflexivity).
    rewrite forallb_forall in Hp. apply Hp in Hc. bsimp. cbn. lia.
  - apply (pair_law (fun c d => negb (c_index c =? c_index d) || bool_decide (c = d)) (fun c d => c_index c = c_index d -> c = d)); [vm_compute; reflexivity|].
    intros c d Hcd E. bsimp. destruct Hcd; bsimp; [lia|done].
  - apply (pair_law (fun c d => negb (c_sshOp c =? c_sshOp d) || bool_decide (c = d)) (fun c d => c_sshOp c = c_sshOp d -> c = d)); [vm_compute; reflexivity|].
    intros c d Hcd E. bsimp. destruct Hcd; bsimp; [lia|done].
  - apply (pair_law (fun c f => negb (c_sshOp c =? f_sshOp f)) (fun c f => c_sshOp c <> f_sshOp f)); [vm_compute; reflexivity|]. intros c f E. bsimp. lia.
  - apply (pair_law (fun f g => negb (f_sshOp f =? f_sshOp g) || (f_sshOp f =? 0) || bool_decide (f = g))
      (fun f g => f_sshOp f = f_sshOp g -> f_sshOp f <> 0 -> f = g)); [vm_compute; reflexivity|].
    intros f g Hfg E Hne. bsimp. destruct Hfg as [Hfg|Hfg]; bsimp; [|done]. destruct Hfg; bsimp; lia.
  - intros f Hf. assert (Hp : forallb (fun f => (0 <? f_mask f) && (f_mask f <? 2 ^ tcflagBits)) ttyFlags = true) by (vm_compute; reflexivity).
    rewrite forallb_forall in Hp. apply Hp in Hf. bsimp. lia.
  - apply (pair_law (fun f g => bool_decide (f = g) || negb (bool_decide (f_word f = f_word g)) || (Z.land (f_mask f) (f_mask g) =? 0))
      (fun f g => f <> g -> f_word f = f_word g -> Z.land (f_mask f) (f_mask g) = 0));
      [vm_compute; reflexivity|]. intros f g Hfg Hne Hw. bsimp. destruct Hfg as [Hfg|Hfg]; bsimp; [|done]. destruct Hfg; bsimp; done.
Qed.

Definition toy_termios : Termios := saneTermios (mkTermios 0 0 191 0 (repeat 0 19)).
Definition toy_tty : tty := mkTTY (Some toy_termios) (Some (24, 80)) true true true.
Definition args (l : list string) : list bytes := map lit l.
(** A control-C of 7, echo off, and an opcode that ends the modes. *)
Definition toy_modes : bytes := map byte_of [1; 0; 0; 0; 7; 53; 0; 0; 0; 0; 0; 99].

Example stty_runs :
  fst (Stty toy_tty (args ["-echo"; "rows"; "50"; "intr"; "^X"])) = Ok tt /\
  Stty toy_tty (args ["-echo"; "rows"; "5000"]) = (Err (InvalidNumber (lit "rows") (lit "5000")), []) /\
  Stty toy_tty (args ["size"]) = (Ok tt, [EOut (lit "24 80" ++ [NL])]) /\
  Stty toy_tty (args ["-a"; "echo"]) = (Err StyleWithModes, []) /\
  ParseSSHModes toy_modes = Ok [mkMode 1 7; mkMode 53 0].
Proof. vm_compute. by split_and!. Qed.

(** stty prints a disabled character in a form that it does not read. *)
Example undef_not_read : Stty toy_tty (args ["intr"; "<undef>"]) = (Err (BadChar (lit "intr") (lit "<undef>")), []).
Proof. vm_compute. reflexivity. Qed.

Lemma toy_termios_ok : termios_ok toy_termios.
Proof.
  apply saneTermios_ok. split; [unfold word_ok, tcflagBits; cbn; lia|reflexivity|]. cbn. repeat constructor; lia.
Qed.

Lemma save_reads_back_witness :
  parseSave (formatSave toy_termios) = Ok toy_termios /\ termios_ok toy_termios.
Proof.
  split.
  - exact (proj1 (save_reads_back toy_termios []) toy_termios_ok).
  - apply (proj2 (save_reads_back toy_termios (formatSave toy_termios))). vm_compute. reflexivity.
Defined.

Lemma client_modes_set_witness :
  client_set toy_termios [mkMode 1 7; mkMode 53 0] (ApplySSHModes toy_termios [mkMode 1 7; mkMode 53 0]).
Proof.
  apply client_modes_set; [reflexivity|].
  repeat constructor; try (vm_compute; discriminate); reflexivity.
Defined.

Lemma stty_writes_witness :
  Stty toy_tty (args ["raw"]) = (Ok tt, [ETermios (makeRawTermios toy_termios)]) /\ termios_ok (makeRawTermios toy_termios).
Proof.
  split; [vm_compute; reflexivity|].
  pose proof (stty_writes toy_tty toy_termios (args ["raw"]) eq_refl toy_termios_ok) as Hw.
  assert (Hs : Stty toy_tty (args ["raw"]) = (Ok tt, [ETermios (makeRawTermios toy_termios)])) by (vm_compute; reflexivity).
  rewrite Hs in Hw. destruct Hw as [He _]. apply Forall_cons in He as [[Hok _] _]. exact Hok.
Defined.
