(* ===== verification/SshAuth.v ===== *)
(** * SSH login

    The authentication half of internal/sys/ssh.go (authorized keys, the
    public key callback, the principals it passes on), internal/sys/ssh_revoke.go
    and internal/sys/ssh_audit.go (the records of logins and their rate). *)

From S2P Require Import Prelude GoBytes GoTime NetIP Json Policy.
From stdpp Require Import pretty.
#[local] Open Scope Z_scope.
#[local] Arguments lit : simpl never.

(** ** Keys

    A raw key is its marshaled form.  A certificate is what the code reads of
    it; its own key, its authority and its signature can be missing. *)

Record certificate := mkCert {
  c_blob : bytes; c_Key : option bytes; c_SignatureKey : option bytes; c_Signature : bool; c_ValidPrincipals : list bytes;
  c_Serial : Z; c_KeyId : bytes; c_CriticalOptions : gmap bytes bytes; c_Extensions : gmap bytes bytes }.
Inductive PublicKey := Raw (k : bytes) | Cert (c : certificate).
Definition Marshal (key : PublicKey) : bytes := match key with Raw k => k | Cert c => c_blob c end.

(** golang.org/x/crypto/ssh: an authorized_keys line gives a marshaled key and
    its options; a fingerprint; the checks that [CertChecker.Authenticate]
    makes of a certificate for a user beside its authority; and the JSON
    decoder of a list of strings. *)
Class SshKeys := {
  ParseAuthorizedKey : bytes -> option (bytes * list bytes);
  fingerprint : bytes -> bytes;
  CheckCert : bytes -> certificate -> bool;
  decode_strings : bytes -> option (list bytes) }.
(** [json.Marshal] of a list of strings that is not nil. *)
Definition json_strings (l : list bytes) : bytes := lit "[" ++ GoBytes.join (lit ",") (map json_string l) ++ lit "]".
Definition FingerprintSHA256 `{SshKeys} (key : PublicKey) : bytes := fingerprint (Marshal key).

(** What the library documents of a checked certificate, and that the decoder
    reads what [json.Marshal] wrote: the strings, with invalid UTF-8 replaced. *)
Class SshKeyLaws `{SshKeys} : Prop := {
  cert_principals : forall user c, CheckCert user c = true -> c_ValidPrincipals c = [] \/ In user (c_ValidPrincipals c);
  strings_read : forall l, decode_strings (json_strings l) = Some (map (to_valid 0) l) }.

(** ** authorized_keys *)

Record authorizedKeySet := mkKeys { userKeys : gmap bytes (list bytes); authorities : gset bytes }.
Definition keys_empty (k : authorizedKeySet) : bool := bool_decide (userKeys k = ∅) && bool_decide (authorities k = ∅).

Record SSHServerOptions := mkSshOpts { PermitRoot : bool; RevokedKeysPath : bytes; Audit : option (bytes -> bool) }.

Definition userOptionPrefix : bytes := lit "user=".
Definition QUOTE : byte := byte_of 34.

(** [unicode.IsControl] of the rune that starts [s]. *)
Definition starts_control (s : bytes) : bool :=
  match map byte_val s with
  | b0 :: rest =>
      (b0 <? 32) || (b0 =? 127) || ((b0 =? 194) && match rest with b1 :: _ => (128 <=? b1) && (b1 <=? 159) | [] => false end)
  | [] => false
  end.
Definition bad_login_rune (s : bytes) : bool :=
  match s with
  | c :: _ => (0 <? Z.of_nat (space_width s)) || starts_control s || (c =?b "/") || (c =?b QUOTE)
  | [] => false
  end.
(** A rune of that kind somewhere: none of their encodings starts inside
    another rune. *)
Fixpoint bad_login (s : bytes) : bool :=
  match s with [] => false | _ :: s' => bad_login_rune s || bad_login s' end.

Fixpoint unquote_mid (s : bytes) : option bytes :=
  match s with
  | [] => None
  | [c] => if c =?b QUOTE then Some [] else None
  | c :: s' => match unquote_mid s' with Some v => Some (c :: v) | None => None end
  end.
(** The first name that is empty or has a bad rune. *)
Fixpoint bad_name (names : list bytes) : option bytes :=
  match names with
  | [] => None
  | n :: names' => if bool_decide (n = []) || bad_login n then Some n else bad_name names'
  end.
Definition parseUserOption (option : bytes) : result bytes (list bytes) :=
  let value := drop (length userOptionPrefix) option in
  match value with
  | q :: rest =>
      if negb (q =?b QUOTE) then Err (lit "user= value must be quoted")
      else match unquote_mid rest with
      | None => Err (lit "user= value must be quoted")
      | Some [] => Err (lit "user= names no login")
      | Some value =>
          let names := split_byte "," value in
          match bad_name names with
          | Some [] => Err (lit "user= has an empty login name")
          | Some _ => Err (lit "user= login name has a bad character")
          | None => Ok names
          end
      end
  | [] => Err (lit "user= value must be quoted")
  end.

Section Auth.
Context `{SshKeys}.

(** The options of one line: whether it is an authority, and its names. *)
Fixpoint line_options (options : list bytes) (isAuthority : bool) (names : option (list bytes))
  : result bytes (bool * option (list bytes)) :=
  match options with
  | [] => Ok (isAuthority, names)
  | o :: options' =>
      if bool_decide (o = lit "cert-authority") then line_options options' true names
      else if has_prefix userOptionPrefix o then
        match names with
        | Some _ => Err (lit "user= appears more than once")
        | None => let! parsed := parseUserOption o in line_options options' isAuthority (Some parsed)
        end
      else Err (lit "unsupported authorized_keys option")
  end.

Definition authorized_line (line : bytes) (keys : authorizedKeySet) : result bytes authorizedKeySet :=
  let line := trim_space line in
  if bool_decide (line = []) || has_prefix (lit "#") line then Ok keys
  else match ParseAuthorizedKey line with
  | None => Err (lit "failed to parse authorized_keys")
  | Some (marshaled, options) =>
      let! (isAuthority, names) := line_options options false None in
      match isAuthority, names with
      | true, Some _ => Err (lit "user= is not valid on a cert-authority line")
      | true, None => Ok (mkKeys (userKeys keys) ({[marshaled]} ∪ authorities keys))
      | false, None => Err (lit "key has no user= option")
      | false, Some names => Ok (mkKeys (<[marshaled := default [] (userKeys keys !! marshaled) ++ names]> (userKeys keys)) (authorities keys))
      end
  end.
Fixpoint authorized_lines (lines : list bytes) (keys : authorizedKeySet) : result bytes authorizedKeySet :=
  match lines with
  | [] => Ok keys
  | line :: lines' => let! keys := authorized_line line keys in authorized_lines lines' keys
  end.
Definition no_keys : authorizedKeySet := mkKeys ∅ ∅.

(** [loadAuthorizedKeys]; a missing file is an empty one. *)
Inductive readAnswer := ReadMissing | ReadFails | ReadData (data : bytes).
Definition loadAuthorizedKeys (file : readAnswer) : result bytes authorizedKeySet :=
  match file with
  | ReadMissing => Ok no_keys
  | ReadFails => Err (lit "failed to read authorized_keys")
  | ReadData data =>
      let '(lines, tooLong) := scan_lines 65536 data in
      let! keys := authorized_lines lines no_keys in
      if tooLong then Err (lit "failed to scan authorized_keys") else Ok keys
  end.

(** ** Revocation *)

Definition revokedKeysMax : Z := Z.shiftl 1 20.
Record revocationList := mkRevoked { rl_fingerprints : gset bytes; rl_serials : gset Z; rl_keyIDs : gset bytes }.

Definition revocation_line (line : bytes) (rl : revocationList) : option revocationList :=
  let line := trim_space line in
  let after p := drop (length (lit p)) line in
  if bool_decide (line = []) || has_prefix (lit "#") line then Some rl
  else if has_prefix (lit "SHA256:") line && (7 <? zlen line) && negb (existsb (fun c => (c =?b " ") || (byte_val c =? 9)) line)
  then Some (mkRevoked ({[line]} ∪ rl_fingerprints rl) (rl_serials rl) (rl_keyIDs rl))
  else if has_prefix (lit "serial:") line then
    match ParseUint 64 (after "serial:"%string) with
    | Some v => Some (mkRevoked (rl_fingerprints rl) ({[v]} ∪ rl_serials rl) (rl_keyIDs rl))
    | None => None
    end
  else if has_prefix (lit "keyid:") line && (6 <? zlen line)
  then Some (mkRevoked (rl_fingerprints rl) (rl_serials rl) ({[after "keyid:"%string]} ∪ rl_keyIDs rl))
  else None.
Fixpoint revocation_lines (lines : list bytes) (rl : revocationList) : option revocationList :=
  match lines with
  | [] => Some rl
  | line :: lines' => match revocation_line line rl with Some rl => revocation_lines lines' rl | None => None end
  end.
Definition parseRevocationList (data : bytes) : option revocationList :=
  let '(lines, tooLong) := scan_lines 4096 data in
  match revocation_lines lines (mkRevoked ∅ ∅ ∅) with
  | Some rl => if tooLong then None else Some rl
  | None => None
  end.

(** [revocationChecker]: the list with the size and time it was read at. *)
Record fileStat := mkStat { st_regular : bool; st_size : Z; st_mtime : Z }.
Record revocationChecker := mkChecker { rc_size : Z; rc_modTime : Z; rc_list : option revocationList }.
Definition newRevocationChecker : revocationChecker := mkChecker 0 0 None.

(** [current]; [stat] and [data] are what the two calls find. *)
Definition current (stat : option fileStat) (data : option bytes) (c : revocationChecker)
  : option revocationList * revocationChecker :=
  let failed := (None, mkChecker (rc_size c) (rc_modTime c) None) in
  match stat with
  | None => failed
  | Some info =>
      match (if (st_size info =? rc_size c) && (st_mtime info =? rc_modTime c) then rc_list c else None) with
      | Some list => (Some list, c)
      | None =>
          if negb (st_regular info) || (revokedKeysMax <? st_size info) then failed
          else match data with
          | None => failed
          | Some data =>
              match parseRevocationList data with
              | None => failed
              | Some list => (Some list, mkChecker (st_size info) (st_mtime info) (Some list))
              end
          end
      end
  end.

Definition revoked_by (list : revocationList) (key : PublicKey) : bool :=
  let fp k := bool_decide (fingerprint k ∈ rl_fingerprints list) in
  let some_fp k := match k with Some k => fp k | None => false end in
  fp (Marshal key) ||
  match key with
  | Raw _ => false
  | Cert c => some_fp (c_Key c) || some_fp (c_SignatureKey c) || bool_decide (c_Serial c ∈ rl_serials list)
              || bool_decide (c_KeyId c ∈ rl_keyIDs list)
  end.
Definition revocation_check (stat : option fileStat) (data : option bytes) (key : PublicKey) (c : revocationChecker)
  : bool * revocationChecker :=
  match current stat data c with
  | (None, c) => (false, c)
  | (Some list, c) => (negb (revoked_by list key), c)
  end.

(** ** The public key callback *)

Definition extPubkeyFP : bytes := lit "pubkey-fp".
Definition extAuthMethod : bytes := lit "adssh-auth-method".
Definition extCertKeyFP : bytes := lit "adssh-cert-key-fp".
Definition extCertCAFP : bytes := lit "adssh-cert-ca-fp".
Definition extCertSerial : bytes := lit "adssh-cert-serial".
Definition extCertKeyID : bytes := lit "adssh-cert-key-id".
Definition principalsExtension : bytes := lit "principals".

Definition validSessionToken (v : bytes) : bool :=
  negb (bool_decide (v = [])) && negb (existsb (fun c => byte_val c =? 0) v) && negb (has_prefix (lit "-") v).

Record Permissions := mkPerms { p_CriticalOptions : gmap bytes bytes; p_Extensions : gmap bytes bytes }.

(** [CertChecker.Authenticate]: a key that is no certificate goes to the
    fallback; a certificate to the authority test and the library's checks. *)
Definition UserKeyFallback (keys : authorizedKeySet) (user : bytes) (key : bytes) : option Permissions :=
  match userKeys keys !! key with
  | Some names => if bool_decide (user ∈ names) then Some (mkPerms ∅ ∅) else None
  | None => None
  end.
Definition Authenticate (keys : authorizedKeySet) (user : bytes) (key : PublicKey) : option Permissions :=
  match key with
  | Raw k => UserKeyFallback keys user k
  | Cert c =>
      match c_SignatureKey c with
      | Some ca => if bool_decide (ca ∈ authorities keys) && CheckCert user c
                   then Some (mkPerms (c_CriticalOptions c) (c_Extensions c)) else None
      | None => None
      end
  end.

(** [loginIsRoot]; [None] is a failed lookup. *)
Definition loginIsRoot (lookupUser : bytes -> option bytes) (name : bytes) : option bool :=
  if bool_decide (name = lit "root") then Some true
  else match lookupUser name with Some uid => Some (bool_decide (uid = lit "0")) | None => None end.

Definition cert_shape (c : certificate) : result bytes unit :=
  match c_Key c, c_SignatureKey c, c_Signature c with
  | Some _, Some _, true =>
      match c_ValidPrincipals c with
      | [] => Err (lit "ssh: certificate has no principals")
      | ps => if forallb validSessionToken ps then Ok tt else Err (lit "ssh: certificate has an invalid principal")
      end
  | _, _, _ => Err (lit "ssh: malformed user certificate")
  end.

Definition cert_extensions (c : certificate) (ext : gmap bytes bytes) : gmap bytes bytes :=
  <[principalsExtension := json_strings (c_ValidPrincipals c)]>
  (<[extCertKeyID := c_KeyId c]> (<[extCertSerial := lit (pretty (c_Serial c))]>
  (<[extCertCAFP := match c_SignatureKey c with Some k => fingerprint k | None => [] end]>
  (<[extCertKeyFP := match c_Key c with Some k => fingerprint k | None => [] end]> (<[extAuthMethod := lit "cert"]> ext))))).
Definition own_extensions : list bytes :=
  [extPubkeyFP; extAuthMethod; extCertKeyFP; extCertCAFP; extCertSerial; extCertKeyID; principalsExtension].
Definition login_extensions (key : PublicKey) (ext : gmap bytes bytes) : gmap bytes bytes :=
  let ext := foldl (fun e k => delete k e) ext own_extensions in
  let ext := <[extAuthMethod := lit "publickey"]> (<[extPubkeyFP := FingerprintSHA256 key]> ext) in
  match key with Raw _ => ext | Cert c => cert_extensions c ext end.

(** What a login finds: the revocation file at this time and the user
    database. *)
Record loginEnv := mkLoginEnv { le_stat : option fileStat; le_data : option bytes; le_lookup : bytes -> option bytes }.

(** The callback gives the permissions or refuses, with the fingerprints it
    notes for the record of a failure and the checker it leaves. *)
Definition publicKeyCallback (keys : authorizedKeySet) (opts : SSHServerOptions) (env : loginEnv) (user : bytes) (key : PublicKey)
    (checker : option revocationChecker) : option Permissions * list bytes * option revocationChecker :=
  let presentedFP := FingerprintSHA256 key in
  let noted_cert := match key with Cert _ => [presentedFP] | Raw _ => [] end in
  match (match key with Cert c => cert_shape c | Raw _ => Ok tt end) with
  | Err _ => (None, noted_cert, checker)
  | Ok _ =>
      let '(live, checker) := match checker with
                              | Some c => let '(ok, c) := revocation_check (le_stat env) (le_data env) key c in (ok, Some c)
                              | None => (true, None)
                              end in
      if negb live then (None, noted_cert ++ [presentedFP], checker)
      else match Authenticate keys user key with
      | None => (None, noted_cert ++ [presentedFP], checker)
      | Some authed =>
          if negb (PermitRoot opts) && (match loginIsRoot (le_lookup env) user with Some false => false | _ => true end)
          then (None, noted_cert ++ [presentedFP], checker)
          else (Some (mkPerms (p_CriticalOptions authed) (login_extensions key (p_Extensions authed))), noted_cert, checker)
      end
  end.

(** [principalsFromPermissions] of the permissions of a connection. *)
Definition principalsFromPermissions (perms : option Permissions) : result bytes (list bytes) :=
  match perms with
  | None => Ok []
  | Some p =>
      match p_Extensions p !! principalsExtension with
      | None => Ok []
      | Some raw =>
          match decode_strings raw with
          | None => Err (lit "ssh: malformed principals")
          | Some ps => if forallb validSessionToken ps then Ok ps else Err (lit "ssh: malformed principals")
          end
      end
  end.
End Auth.

(** ** Audit records *)

Definition audit_plain (c : byte) : bool :=
  let z := byte_val c in
  ((97 <=? z) && (z <=? 122)) || ((65 <=? z) && (z <=? 90)) || ((48 <=? z) && (z <=? 57))
  || existsb (fun d => c =?b d) (lit "._@:+/,~-").
(** A digit of [%02X]. *)
Definition upper_hex (d : Z) : byte := byte_of (if d <? 10 then 48 + d else 55 + d).
Definition audit_char (c : byte) : bytes :=
  if audit_plain c then [c] else ["%"%char; upper_hex (byte_val c / 16); upper_hex (byte_val c mod 16)].
Definition encodeAudit (v : bytes) (max : nat) : bytes :=
  let v := if (0 <? max)%nat && (max <? length v)%nat then take max v else v in concat (map audit_char v).
Definition EncodeAuditValue (v : bytes) : bytes := encodeAudit v 256.
Definition q (v : bytes) : bytes := encodeAudit v 256.
Definition qFull (v : bytes) : bytes := encodeAudit v 0.

Definition auditSSH (audit : option (bytes -> bool)) (event : bytes) : bool :=
  match audit with None => true | Some a => a event end.

(** One connection's attempts. *)
Record authRecord := mkRec { ar_user : bytes; ar_attempts : Z; ar_reasons : list bytes; ar_keyFPs : list bytes }.
Definition new_record : authRecord := mkRec [] 0 [] [].
Definition records := gmap bytes authRecord.
Definition beginAuthRecord (peer : bytes) (rs : records) : records := <[peer := new_record]> rs.
Definition endAuthRecord (peer : bytes) (rs : records) : records := delete peer rs.
(** [err] is the reason of a refused attempt. *)
Definition authLogCallback (peer user method : bytes) (err : option bytes) (rs : records) : records :=
  match err with
  | None => rs
  | Some reason =>
      if bool_decide (method = lit "none") then rs
      else match rs !! peer with
      | Some r => <[peer := mkRec user (ar_attempts r + 1)
                              (if zlen (ar_reasons r) <? 8 then ar_reasons r ++ [reason] else ar_reasons r) (ar_keyFPs r)]> rs
      | None => rs
      end
  end.
Definition noteAuthKey (peer fp : bytes) (rs : records) : records :=
  match rs !! peer with
  | Some r => if (zlen (ar_keyFPs r) <? 8) && negb (bool_decide (fp ∈ ar_keyFPs r))
              then <[peer := mkRec (ar_user r) (ar_attempts r) (ar_reasons r) (ar_keyFPs r ++ [fp])]> rs else rs
  | None => rs
  end.

Definition loginFailWindow : Z := Minute.
Definition loginFailBurst : Z := 5.
Definition loginFailGlobal : Z := 60.
Definition loginFailSources : Z := 4096.

Record failWindow := mkWindow { fw_start : Z; fw_count : Z; fw_suppressed : Z }.
(** [loginFailAll] is absent until the first failure. *)
Record failTable := mkFails { ft_all : option failWindow; ft_src : gmap bytes failWindow }.
Definition no_fails : failTable := mkFails None ∅.

(** [allowLoginFailRecord] at [now]: whether a record may be written, how many
    were suppressed before it, and the table. *)
Definition allowLoginFailRecord (now : Z) (host : bytes) (t : failTable) : bool * Z * failTable :=
  let fresh := mkWindow now 0 0 in
  let all := match ft_all t with
             | Some a => if loginFailWindow <=? time_sub now (fw_start a) then fresh else a
             | None => fresh
             end in
  if loginFailGlobal <=? fw_count all then
    (false, 0, mkFails (Some (mkWindow (fw_start all) (fw_count all) (fw_suppressed all + 1))) (ft_src t))
  else
    let counted := Some (mkWindow (fw_start all) (fw_count all + 1) (fw_suppressed all)) in
    match ft_src t !! host with
    | None =>
        let src := if loginFailSources <=? Z.of_nat (size (ft_src t)) then ∅ else ft_src t in
        (true, 0, mkFails counted (<[host := mkWindow now 1 0]> src))
    | Some w =>
        if loginFailWindow <=? time_sub now (fw_start w) then
          (true, fw_suppressed w, mkFails counted (<[host := mkWindow now 1 0]> (ft_src t)))
        else if fw_count w <? loginFailBurst then
          (true, 0, mkFails counted (<[host := mkWindow (fw_start w) (fw_count w + 1) (fw_suppressed w)]> (ft_src t)))
        else (false, 0, mkFails (Some all) (<[host := mkWindow (fw_start w) (fw_count w) (fw_suppressed w + 1)]> (ft_src t)))
    end.

(** [hostOf]: the key of the rate limit. *)
Definition hostOf (peer : bytes) : bytes :=
  let h := default peer (SplitHostPort peer) in
  match ParseIP h with
  | Some ip => match To4 ip with
               | None => IP_String (IP_Mask ip (CIDRMask 64 16)) ++ lit "/64"
               | Some _ => h
               end
  | None => h
  end.

(** [recordLoginFailure]: the event to write, if any. *)
Definition recordLoginFailure (now : Z) (peer : bytes) (r : authRecord) (t : failTable) : option bytes * failTable :=
  if ar_attempts r =? 0 then (None, t)
  else
    let '(ok, suppressed, t) := allowLoginFailRecord now (hostOf peer) t in
    if negb ok then (None, t)
    else
      let event := lit "SSH_LOGIN_FAIL addr=" ++ peer ++ lit " user=" ++ q (ar_user r) ++ lit " attempts=" ++ lit (pretty (ar_attempts r))
                   ++ lit " keys=" ++ qFull (GoBytes.join (lit ",") (ar_keyFPs r)) in
      (Some (event ++ (if 0 <? suppressed then lit " suppressed_before=" ++ lit (pretty suppressed) else [])), t).

Definition ext_at (ext : gmap bytes bytes) (k : bytes) : bytes := default [] (ext !! k).
Definition loginOKEvent (addr user client : bytes) (perms : Permissions) : bytes :=
  let ext := ext_at (p_Extensions perms) in
  let event := lit "SSH_LOGIN_OK addr=" ++ addr ++ lit " user=" ++ q user ++ lit " client=" ++ q client
               ++ lit " method=" ++ ext extAuthMethod ++ lit " key_fp=" ++ ext extPubkeyFP in
  event ++ (if bool_decide (ext extAuthMethod = lit "cert") then
              lit " cert_key_fp=" ++ ext extCertKeyFP ++ lit " ca_fp=" ++ ext extCertCAFP ++ lit " serial=" ++ ext extCertSerial
              ++ lit " key_id=" ++ q (ext extCertKeyID) ++ lit " principals=" ++ qFull (ext principalsExtension)
            else []).

(** How a session's process ended. *)
Inductive exitInfo := ExitOK | ExitCode (code : Z) | ExitSignal (signal : Z) (core : bool) | ExitError.
Definition sessionEndReason (e : exitInfo) : Z * bytes :=
  match e with
  | ExitOK => (0, lit "exit")
  | ExitCode c => if 0 <=? c then (c, lit "exit") else (-1, lit "signal")
  | ExitSignal _ _ => (-1, lit "signal")
  | ExitError => (-1, lit "error")
  end.

(** ** Names *)

Definition login_name (n : bytes) : Prop := n <> [] /\ bad_login n = false /\ ~ In ","%char n.
Definition user_option (names : list bytes) : bytes := userOptionPrefix ++ QUOTE :: GoBytes.join (lit ",") names ++ [QUOTE].

Lemma unquote_mid_iff s v : unquote_mid s = Some v <-> s = v ++ [QUOTE].
Proof.
  revert v. induction s as [|c s IH]; intros v; [split; [done|by destruct v]|]. destruct s as [|d s].
  - cbn. destruct (Ascii.eqb_spec c QUOTE) as [->|Hne]; split; [by intros [= <-]| | done|].
    + destruct v as [|x [|]]; intros [=]; by subst.
    + destruct v as [|x [|]]; intros [=]; by subst.
  - change (unquote_mid (c :: d :: s)) with (match unquote_mid (d :: s) with Some v => Some (c :: v) | None => None end).
    destruct (unquote_mid (d :: s)) as [w|] eqn:E.
    + destruct (IH w) as [Hw _]. specialize (Hw eq_refl). rewrite Hw. split; [by intros [= <-]|].
      destruct v as [|x v]; [by destruct w|]. intros Hv. injection Hv as -> Hv. apply app_inj_tail in Hv as [-> _]. done.
    + split; [done|]. destruct v as [|x v]; [done|]. intros [= -> Hv]. destruct (IH v) as [_ Hw]. by specialize (Hw Hv).
Qed.

Lemma bad_name_none names : bad_name names = None <-> Forall (fun n => n <> [] /\ bad_login n = false) names.
Proof.
  induction names as [|n names IH]; [done|]. cbn [bad_name]. rewrite Forall_cons, <- IH. case_bool_decide as E; cbn [orb]; [split; [done|tauto]|].
  destruct (bad_login n); split; try done; try tauto. by intros [[_ ?] _].
Qed.

Lemma parseUserOption_iff o names : has_prefix userOptionPrefix o = true ->
  parseUserOption o = Ok names <-> names <> [] /\ Forall login_name names /\ o = user_option names.
Proof.
  intros Hp. apply has_prefix_spec in Hp as [value ->]. unfold parseUserOption, user_option. rewrite drop_app_length.
  set (rhs := names <> [] /\ _).
  assert (Hval : rhs <-> names <> [] /\ Forall login_name names /\ value = QUOTE :: GoBytes.join (lit ",") names ++ [QUOTE]).
  { unfold rhs. split; intros (H1 & H2 & H3); (split_and!; [done|done|]); [by apply app_inv_head in H3|by rewrite H3]. }
  rewrite Hval. clear rhs Hval. destruct value as [|c rest]; [split; [done|by intros (_ & _ & ?)]|].
  destruct (Ascii.eqb_spec c QUOTE) as [->|Hne]; cbn [negb]; [|split; [done|by intros (_ & _ & [= ? _])]].
  destruct (unquote_mid rest) as [v|] eqn:E.
  - apply unquote_mid_iff in E as ->.
    assert (Heq : QUOTE :: v ++ [QUOTE] = QUOTE :: GoBytes.join (lit ",") names ++ [QUOTE] <-> v = GoBytes.join (lit ",") names).
    { split; [|by intros ->]. intros Hv. injection Hv as Hv. by apply app_inj_tail in Hv as [-> _]. }
    rewrite Heq. destruct v as [|c v].
    { split; [done|]. intros (Hne & Hf & Hj). destruct names as [|n [|n2 names]]; [done| |].
      - cbn in Hj. subst n. apply Forall_cons in Hf as [(? & _) _]. done.
      - cbn in Hj. by destruct n. }
    set (w := c :: v) in *. assert (Hw : w <> []) by done. clearbody w. clear c v. pose proof (split_byte_join "," w) as Hj. pose proof (split_byte_no_sep "," w) as Hs.
    destruct (bad_name (split_byte "," w)) as [n|] eqn:E1.
    { split; [by destruct n|]. intros (Hne & Hf & ->). change (lit ",") with [","%char] in E1. rewrite split_byte_unique in E1; [|done|].
      - assert (Hn : bad_name names = None) by (apply bad_name_none, (Forall_impl _ _ _ Hf); by intros m (? & ? & _)). congruence.
      - apply (Forall_impl _ _ _ Hf). by intros m (_ & _ & ?). }
    apply bad_name_none in E1. split.
    + intros [= <-]. split_and!; [intros E; rewrite E in Hj; by apply Hw| |by symmetry].
      rewrite Forall_forall in *. intros n Hn. destruct (E1 n Hn). split_and!; auto.
    + intros (Hne & Hf & ->). f_equal. apply split_byte_unique; [done|]. apply (Forall_impl _ _ _ Hf). by intros n (_ & _ & ?).
  - split; [done|]. intros (_ & _ & Hv). injection Hv as Hv. apply unquote_mid_iff in Hv. congruence.
Qed.

Section Logins.
Context `{SshKeys}.

(** What the options of an accepted line are. *)
Lemma line_options_spec options : forall auth names auth' names', line_options options auth names = Ok (auth', names') ->
  (auth = true -> auth' = true) /\ (auth' = true -> names = None -> names' = None -> auth = false -> In (lit "cert-authority") options) /\
  (names' = None -> names = None /\ Forall (fun o => o = lit "cert-authority") options) /\
  (auth' = false -> forall ns, names = None -> names' = Some ns ->
     exists o, options = [o] /\ has_prefix userOptionPrefix o = true /\ parseUserOption o = Ok ns) /\
  (auth' = false -> names <> None -> options = [] /\ names' = names).
Proof.
  induction options as [|o options IH]; intros auth names auth' names' Hl.
  { injection Hl as -> ->. split_and!; intros; try done; congruence. }
  cbn [line_options] in Hl. case_bool_decide as Ea.
  - apply IH in Hl as (I1 & I2 & I3 & I4 & I5). subst o. assert (auth' = true) as -> by by apply I1. split_and!; try done.
    + intros. by left.
    + intros Hn. destruct (I3 Hn). split; [done|by constructor].
  - destruct (has_prefix userOptionPrefix o) eqn:Ep; [|done]. destruct names as [ns0|]; [done|].
    destruct (parseUserOption o) as [ns0|] eqn:Eu; [|done]. apply IH in Hl as (I1 & I2 & I3 & I4 & I5). split_and!; try done.
    + intros _ _ Hn. by destruct (I3 Hn).
    + intros Hn. by destruct (I3 Hn).
    + intros Hf ns _ Hns. destruct (I5 Hf) as [-> Heq]; [done|]. exists o. split_and!; [done|done|congruence].
Qed.

(** A line of the file that binds a key, or names an authority. *)
Definition binds_key (line key user : bytes) : Prop :=
  exists names, ParseAuthorizedKey (trim_space line) = Some (key, [user_option names]) /\ Forall login_name names /\ In user names.
Definition names_authority (line key : bytes) : Prop :=
  exists options, ParseAuthorizedKey (trim_space line) = Some (key, options) /\ In (lit "cert-authority") options /\
    Forall (fun o => o = lit "cert-authority") options.

Lemma authorized_lines_from lines : forall keys keys', authorized_lines lines keys = Ok keys' ->
  (forall k user, In user (default [] (userKeys keys' !! k)) ->
     In user (default [] (userKeys keys !! k)) \/ exists line, In line lines /\ binds_key line k user) /\
  (forall k, k ∈ authorities keys' -> k ∈ authorities keys \/ exists line, In line lines /\ names_authority line k).
Proof.
  induction lines as [|line lines IH]; intros keys keys' Hl; [injection Hl as ->; auto|]. cbn [authorized_lines] in Hl.
  destruct (authorized_line line keys) as [k1|] eqn:E1; [|done]. cbn [rbind] in Hl. apply IH in Hl as [Hu Ha].
  assert (Hone : (forall k user, In user (default [] (userKeys k1 !! k)) -> In user (default [] (userKeys keys !! k)) \/ binds_key line k user) /\
    (forall k, k ∈ authorities k1 -> k ∈ authorities keys \/ names_authority line k)).
  { unfold authorized_line in E1. destruct (_ || _); [injection E1 as <-; auto|].
    destruct (ParseAuthorizedKey _) as [[marshaled options]|] eqn:Ek; [|done].
    destruct (line_options options false None) as [[auth names]|] eqn:Eo; [|done]. cbn [rbind] in E1.
    apply line_options_spec in Eo as (_ & O2 & O3 & O4 & _). destruct auth, names as [ns|]; try done; injection E1 as <-; cbn [userKeys authorities].
    - split; [auto|]. intros k Hk. apply elem_of_union in Hk as [->%elem_of_singleton|Hk]; [right|by left].
      exists options. split_and!; [done|by apply O2|by apply O3].
    - split; [|auto]. intros k user Hin. destruct (decide (k = marshaled)) as [->|Hne]; [|rewrite lookup_insert_ne in Hin by done; by left].
      rewrite lookup_insert_eq in Hin. cbn in Hin. apply in_app_iff in Hin as [Hin|Hin]; [by left|right].
      destruct (O4 eq_refl ns eq_refl eq_refl) as (o & -> & Hp & Hus). apply parseUserOption_iff in Hus as (_ & Hf & ->); [|done].
      by exists ns. }
  destruct Hone as [H1 H2]. split.
  - intros k user Hin. apply Hu in Hin as [Hin|(l & Hin & Hb)]; [|right; exists l; split; [by right|done]].
    apply H1 in Hin as [Hin|Hb]; [by left|right]. exists line. split; [by left|done].
  - intros k Hin. apply Ha in Hin as [Hin|(l & Hin & Hb)]; [|right; exists l; split; [by right|done]].
    apply H2 in Hin as [Hin|Hb]; [by left|right]. exists line. split; [by left|done].
Qed.

(** ** Who logs in *)

(** The file gives the key to the user. *)
Definition file_grants (data : bytes) (user : bytes) (key : PublicKey) : Prop :=
  let lines := fst (scan_lines 65536 data) in
  match key with
  | Raw k => exists line, In line lines /\ binds_key line k user
  | Cert c => exists own ca line, c_Key c = Some own /\ c_SignatureKey c = Some ca /\ c_Signature c = true /\
      In line lines /\ names_authority line ca /\ CheckCert user c = true /\ c_ValidPrincipals c <> [] /\
      Forall (fun p => validSessionToken p = true) (c_ValidPrincipals c)
  end.
(** What the revocation file says at this login. *)
Definition not_revoked (env : loginEnv) (key : PublicKey) (checker : option revocationChecker) : Prop :=
  match checker with
  | None => True
  | Some c => exists list, fst (current (le_stat env) (le_data env) c) = Some list /\ revoked_by list key = false
  end.
Definition root_ok (opts : SSHServerOptions) (env : loginEnv) (user : bytes) : Prop :=
  PermitRoot opts = true \/ (user <> lit "root" /\ exists uid, le_lookup env user = Some uid /\ uid <> lit "0").

Lemma cert_shape_ok c : cert_shape c = Ok tt <-> (exists own, c_Key c = Some own) /\ (exists ca, c_SignatureKey c = Some ca) /\ c_Signature c = true /\
  c_ValidPrincipals c <> [] /\ Forall (fun p => validSessionToken p = true) (c_ValidPrincipals c).
Proof.
  unfold cert_shape. destruct (c_Key c) as [own|]; [|split; [done|by intros ([? ?] & _)]].
  destruct (c_SignatureKey c) as [ca|]; [|split; [done|by intros (_ & [? ?] & _)]].
  destruct (c_Signature c); [|split; [done|by intros (_ & _ & ? & _)]]. destruct (c_ValidPrincipals c) as [|p ps]; [split; [done|tauto]|].
  destruct (forallb validSessionToken (p :: ps)) eqn:E.
  - split; [|done]. intros _. split_and!; try done; [by eexists|by eexists|]. apply Forall_forall. rewrite forallb_forall in E.
    intros x Hx. by apply E, list_elem_of_In.
  - split; [done|]. intros (_ & _ & _ & _ & Hf). assert (forallb validSessionToken (p :: ps) = true); [|congruence].
    apply forallb_forall. intros x Hx. rewrite Forall_forall in Hf. by apply Hf, list_elem_of_In.
Qed.

Lemma root_ok_test opts env user :
  negb (PermitRoot opts) && (match loginIsRoot (le_lookup env) user with Some false => false | _ => true end) = false <-> root_ok opts env user.
Proof.
  unfold root_ok, loginIsRoot. destruct (PermitRoot opts); cbn [negb andb]; [split; [by left|done]|].
  case_bool_decide as Er; [split; [done|by intros [?|[? _]]]|]. destruct (le_lookup env user) as [uid|].
  - case_bool_decide as Eu; split; try done.
    + intros [?|(_ & u & [= <-] & ?)]; done.
    + intros _. right. split; [done|]. by exists uid.
  - split; [done|]. by intros [?|(_ & u & [=] & _)].
Qed.

Lemma callback_ok keys opts env user key checker perms notes checker' :
  publicKeyCallback keys opts env user key checker = (Some perms, notes, checker') ->
  (match key with Cert c => cert_shape c = Ok tt | Raw _ => True end) /\ not_revoked env key checker /\ root_ok opts env user /\
  exists authed, Authenticate keys user key = Some authed /\
    perms = mkPerms (p_CriticalOptions authed) (login_extensions key (p_Extensions authed)).
Proof.
  unfold publicKeyCallback. destruct (match key with Cert c => cert_shape c | Raw _ => Ok tt end) as [[]|] eqn:Es; [|done].
  unfold not_revoked. set (rev := match checker with Some c => _ | None => _ end). assert (Hrev : fst rev = true ->
    match checker with None => True | Some c => exists list, fst (current (le_stat env) (le_data env) c) = Some list /\ revoked_by list key = false end).
  { unfold rev, revocation_check. destruct checker as [c|]; [|done]. destruct (current _ _ c) as [[list|] c']; [|done]. cbn.
    intros Hn. exists list. split; [done|]. by apply negb_true_iff. }
  destruct rev as [live ch]. cbn [fst] in Hrev. destruct live; cbn [negb]; [|done].
  destruct (Authenticate keys user key) as [authed|] eqn:Ea; [|done].
  destruct (negb (PermitRoot opts) && _) eqn:Er; [done|]. intros [= <- _ _]. split_and!; [by destruct key|by apply Hrev|by apply root_ok_test|by exists authed].
Qed.

(** A login that the public key callback accepts is granted by a line of
    authorized_keys: one that binds the key to this very user, or one that
    names the authority of a complete certificate with valid principals that
    is good for the user; and the revocation list in force does not name the
    key, and root is admitted only where the options say so. *)
Theorem login_needs_binding data opts env user key checker keys perms notes checker' :
  loadAuthorizedKeys (ReadData data) = Ok keys ->
  publicKeyCallback keys opts env user key checker = (Some perms, notes, checker') ->
  file_grants data user key /\ not_revoked env key checker /\ root_ok opts env user.
Proof.
  intros Hload Hcall. apply callback_ok in Hcall as (Hshape & Hrev & Hroot & authed & Hauth & _). split_and!; [|done|done].
  unfold loadAuthorizedKeys in Hload. destruct (scan_lines 65536 data) as [lines tooLong] eqn:Es.
  destruct (authorized_lines lines no_keys) as [k1|] eqn:El; [|done]. cbn [rbind] in Hload. destruct tooLong; [done|]. injection Hload as ->.
  apply authorized_lines_from in El as [Hu Ha]. unfold file_grants. rewrite Es. cbn [fst]. destruct key as [k|c]; cbn [Authenticate] in Hauth.
  - unfold UserKeyFallback in Hauth. destruct (userKeys keys !! k) as [names|] eqn:Ek; [|done]. case_bool_decide as Hin; [|done].
    destruct (Hu k user) as [Hno|Hline]; [rewrite Ek; by apply list_elem_of_In|done|done].
  - destruct (c_SignatureKey c) as [ca|] eqn:Eca; [|done]. destruct (bool_decide (ca ∈ authorities keys)) eqn:Ein; [|done].
    destruct (CheckCert user c) eqn:Echeck; [|done]. apply cert_shape_ok in Hshape as ([own Hown] & _ & Hsig & Hne & Hf).
    apply bool_decide_eq_true_1 in Ein. destruct (Ha ca Ein) as [Hno|(line & Hline & Hca)]; [done|]. exists own, ca, line. by split_and!.
Qed.
End Logins.

(** ** Principals *)

Lemma utf8_width_zero c s : utf8_width (c :: s) = 0%nat -> 128 <= byte_val c.
Proof. cbn [utf8_width]. destruct (byte_val c <? 128) eqn:E; [done|lia]. Qed.

Definition replacement : bytes := map byte_of [239; 191; 189].
Lemma to_valid_chars s : forall k c, In c (to_valid k s) -> In c s \/ In c replacement.
Proof.
  induction s as [|d s IH]; intros k c Hc; [by left|]. cbn [to_valid] in Hc. destruct k as [|k].
  - destruct (utf8_width (d :: s)) as [|w].
    + apply in_app_iff in Hc as [Hc|Hc]; [by right|]. destruct (IH _ _ Hc); [left; by right|by right].
    + destruct Hc as [<-|Hc]; [left; by left|]. destruct (IH _ _ Hc); [left; by right|by right].
  - destruct Hc as [<-|Hc]; [left; by left|]. destruct (IH _ _ Hc); [left; by right|by right].
Qed.
Lemma to_valid_head c s : exists t, to_valid 0 (c :: s) = c :: t \/ exists u, to_valid 0 (c :: s) = replacement ++ u.
Proof. cbn [to_valid]. destruct (utf8_width (c :: s)); [exists []; right; by eexists|eexists; by left]. Qed.

Lemma validSessionToken_to_valid v : validSessionToken v = true -> validSessionToken (to_valid 0 v) = true.
Proof.
  unfold validSessionToken. intros Hv. bsimp. destruct v as [|c v]; [done|]. apply andb_true_iff. split; [apply andb_true_iff; split|].
  - apply negb_true_iff, bool_decide_eq_false. by destruct (to_valid_head c v) as (t & [->|[u ->]]).
  - apply negb_true_iff, not_true_iff_false. intros Hz. apply existsb_exists in Hz as (x & Hx & Hz).
    destruct (to_valid_chars _ _ _ Hx) as [Hin|Hin].
    + assert (existsb (fun c => byte_val c =? 0) (c :: v) = true); [|congruence]. apply existsb_exists. by exists x.
    + destruct Hin as [<-|[<-|[<-|[]]]]; done.
  - apply negb_true_iff. destruct (to_valid_head c v) as (t & [->|[u ->]]); [|done]. cbn in *. by destruct (c =?b "-"); destruct v; destruct t.
Qed.

Section Connection.
Context `{SshKeyLaws}.

Lemma own_deleted (k : bytes) (ext : gmap bytes bytes) : k ∈ own_extensions -> foldl (fun e k => delete k e) ext own_extensions !! k = None.
Proof.
  unfold own_extensions. intros Hk. cbn [foldl]. set_unfold in Hk.
  repeat destruct Hk as [->|Hk]; try done; rewrite !lookup_delete; by repeat case_decide.
Qed.

(** What a session learns of a login is what the key proves: the principals
    read back are those of the certificate (none for a raw key), they contain
    the user, and every audit extension comes from the presented key, whatever
    extensions the certificate carries. *)
Theorem login_principals keys opts env user key checker perms notes checker' :
  publicKeyCallback keys opts env user key checker = (Some perms, notes, checker') ->
  principalsFromPermissions (Some perms) = Ok (match key with Raw _ => [] | Cert c => map (to_valid 0) (c_ValidPrincipals c) end) /\
  (match key with Cert c => In user (c_ValidPrincipals c) | Raw _ => True end) /\
  p_Extensions perms !! extPubkeyFP = Some (FingerprintSHA256 key) /\
  p_Extensions perms !! extAuthMethod = Some (match key with Raw _ => lit "publickey" | Cert _ => lit "cert" end) /\
  (forall k, k ∈ [extCertKeyFP; extCertCAFP; extCertSerial; extCertKeyID; principalsExtension] ->
     match key with Raw _ => p_Extensions perms !! k = None | Cert c => is_Some (cert_extensions c ∅ !! k) /\ p_Extensions perms !! k = cert_extensions c ∅ !! k end).
Proof.
  intros Hcall. apply callback_ok in Hcall as (Hshape & _ & _ & authed & Hauth & ->). cbn [p_Extensions]. destruct key as [k|c].
  - unfold principalsFromPermissions, login_extensions. cbn [p_Extensions].
    set (ext := foldl _ _ _). assert (Hno : forall k, k ∈ own_extensions -> ext !! k = None) by (intros; by apply own_deleted).
    clearbody ext. split_and!.
    + rewrite !lookup_insert_ne by done. by rewrite Hno by (unfold own_extensions; set_solver).
    + done.
    + rewrite lookup_insert_ne by done. apply lookup_insert_eq.
    + apply lookup_insert_eq.
    + intros x Hx. set_unfold in Hx. repeat destruct Hx as [->|Hx]; try done; rewrite !lookup_insert_ne by done; apply Hno; unfold own_extensions; set_solver.
  - apply cert_shape_ok in Hshape as (_ & _ & _ & Hne & Hf). cbn [Authenticate] in Hauth.
    destruct (c_SignatureKey c) as [ca|] eqn:Eca; [|done]. destruct (bool_decide _); [|done]. destruct (CheckCert user c) eqn:Echeck; [|done].
    unfold principalsFromPermissions, login_extensions, cert_extensions. cbn [p_Extensions].
    set (ext := foldl _ _ _). clearbody ext. split_and!.
    + rewrite lookup_insert_eq. rewrite strings_read. assert (forallb validSessionToken (map (to_valid 0) (c_ValidPrincipals c)) = true) as ->; [|done].
      apply forallb_forall. intros x Hx. apply in_map_iff in Hx as (p & <- & Hp). apply validSessionToken_to_valid.
      rewrite Forall_forall in Hf. by apply Hf, list_elem_of_In.
    + by destruct (cert_principals user c Echeck).
    + rewrite !lookup_insert_ne by done. by rewrite lookup_insert_eq.
    + rewrite !lookup_insert_ne by done. by rewrite lookup_insert_eq.
    + intros x Hx. set_unfold in Hx. repeat destruct Hx as [->|Hx]; try done;
        rewrite !lookup_insert; repeat case_decide; try congruence; (split; [by eexists|done]).
Qed.
End Connection.

(** ** Revocation *)

Section Revocation.
Context `{SshKeys}.

(** A file whose size and modification time determine its contents. *)
Variable content : Z * Z -> bytes.
Definition honest (env : option fileStat * option bytes) : Prop :=
  match env with (Some info, Some d) => d = content (st_size info, st_mtime info) | _ => True end.
Definition cache_ok (c : revocationChecker) : Prop :=
  match rc_list c with Some l => parseRevocationList (content (rc_size c, rc_modTime c)) = Some l | None => True end.

Lemma current_ok stat data c : honest (stat, data) -> cache_ok c ->
  cache_ok (snd (current stat data c)) /\
  forall list, fst (current stat data c) = Some list ->
    exists info, stat = Some info /\ parseRevocationList (content (st_size info, st_mtime info)) = Some list.
Proof.
  intros Hh Hc. unfold current. destruct stat as [info|]; [|by split].
  set (cached := if (st_size info =? rc_size c) && (st_mtime info =? rc_modTime c) then rc_list c else None).
  destruct cached as [l|] eqn:El.
  - unfold cached in El. destruct ((st_size info =? rc_size c) && (st_mtime info =? rc_modTime c)) eqn:E; [|done]. bsimp. split; [done|].
    cbn. intros list [= <-]. exists info. split; [done|]. unfold cache_ok in Hc. rewrite El in Hc.
    by replace (st_size info) with (rc_size c) by lia; replace (st_mtime info) with (rc_modTime c) by lia.
  - destruct (negb (st_regular info) || _); [by split|]. destruct data as [d|]; [|by split]. cbn in Hh.
    destruct (parseRevocationList d) as [l|] eqn:Ep; [|by split]. subst d. cbn. split; [exact Ep|]. intros list [= <-]. by exists info.
Qed.

(** The checker after any logins. *)
Definition checks (history : list (option fileStat * option bytes)) : revocationChecker :=
  foldl (fun c e => snd (current (fst e) (snd e) c)) newRevocationChecker history.
Lemma checks_ok history : Forall honest history -> cache_ok (checks history).
Proof.
  intros Hh. unfold checks. assert (Hgen : forall c, cache_ok c -> cache_ok (foldl (fun c e => snd (current (fst e) (snd e) c)) c history)); [|by apply Hgen].
  induction Hh as [|[stat data] history He _ IH]; intros c Hc; [done|]. cbn [foldl fst snd]. by apply IH, current_ok.
Qed.

(** C35: When the size and time of the revocation file determine its contents,
    an accepted login was tested against the file as it is now, cached or not:
    the key, the certificate, its key, its authority, its serial and its key
    id are not in it. *)
Theorem revocation_in_force history keys opts env user key perms notes checker' :
  Forall honest history -> honest (le_stat env, le_data env) ->
  publicKeyCallback keys opts env user key (Some (checks history)) = (Some perms, notes, checker') ->
  exists info list, le_stat env = Some info /\ parseRevocationList (content (st_size info, st_mtime info)) = Some list /\
    (fingerprint (Marshal key) ∉ rl_fingerprints list) /\
    match key with
    | Raw _ => True
    | Cert c => (forall k, c_Key c = Some k \/ c_SignatureKey c = Some k -> (fingerprint k ∉ rl_fingerprints list)) /\
                (c_Serial c ∉ rl_serials list) /\ (c_KeyId c ∉ rl_keyIDs list)
    end.
Proof.
  intros Hh He Hcall. apply callback_ok in Hcall as (_ & (list & Hcur & Hrev) & _).
  destruct (current_ok _ _ _ He (checks_ok _ Hh)) as [_ Hok]. destruct (Hok list Hcur) as (info & Hinfo & Hparse).
  exists info, list. unfold revoked_by in Hrev. apply orb_false_iff in Hrev as [Hfp Hc]. split_and!; [done|done|by apply bool_decide_eq_false_1 in Hfp|].
  destruct key as [k|c]; [done|]. bsimp. split_and!; [|done|done].
  intros k [Hk|Hk]; rewrite Hk in *; bsimp; done.
Qed.
End Revocation.

(** ** The rate of failure records *)

(** The answers to failures at the given times from the given hosts. *)
Fixpoint answers (l : list (Z * bytes)) (t : failTable) : list (Z * bool) * failTable :=
  match l with
  | [] => ([], t)
  | (now, host) :: l =>
      let '(ok, _, t) := allowLoginFailRecord now host t in
      let '(out, t) := answers l t in ((now, ok) :: out, t)
  end.
(** Records written in the minute from [t0]. *)
Definition written_in (t0 : Z) (out : list (Z * bool)) : Z :=
  zlen (List.filter (fun a => snd a && (t0 <=? fst a) && (fst a <? t0 + loginFailWindow)) out).

Definition table_ok (t : failTable) : Prop :=
  (match ft_all t with Some a => 0 <= fw_count a <= loginFailGlobal | None => True end) /\
  Z.of_nat (size (ft_src t)) <= loginFailSources /\ (forall h w, ft_src t !! h = Some w -> fw_count w <= loginFailBurst).

Lemma elapsed_window now start : (loginFailWindow <=? time_sub now start) = (loginFailWindow <=? now - start).
Proof. unfold loginFailWindow, time_sub, Minute, Second. destruct (60 * 1000000000 <=? now - start) eqn:E; lia. Qed.

(** What one failure does to the window of all sources: [n] is the count it
    starts from. *)
Definition opened (now : Z) (a : option failWindow) : failWindow :=
  match a with
  | Some a => if loginFailWindow <=? now - fw_start a then mkWindow now 0 0 else a
  | None => mkWindow now 0 0
  end.

Lemma allow_all now host t ok sup t' : allowLoginFailRecord now host t = (ok, sup, t') ->
  exists a', ft_all t' = Some a' /\ fw_start a' = fw_start (opened now (ft_all t)) /\
    fw_count a' = fw_count (opened now (ft_all t)) + (if ok then 1 else 0) /\
    (ok = true -> fw_count (opened now (ft_all t)) < loginFailGlobal).
Proof.
  unfold allowLoginFailRecord. set (all := match ft_all t with Some a => _ | None => _ end).
  assert (Eall : all = opened now (ft_all t)).
  { unfold all, opened. destruct (ft_all t); [by rewrite elapsed_window|done]. }
  rewrite Eall. clear Eall all. set (a := opened now (ft_all t)). clearbody a.
  destruct (loginFailGlobal <=? fw_count a) eqn:E.
  - intros [= <- _ <-]. eexists. cbn. split_and!; [done|done|cbn; lia|done].
  - destruct (ft_src t !! host) as [w|]; [destruct (loginFailWindow <=? _); [|destruct (fw_count w <? loginFailBurst)]|];
      intros [= <- _ <-]; eexists; cbn; split_and!; try done; try (cbn; lia).
Qed.

Lemma allow_ok now host t ok sup t' : allowLoginFailRecord now host t = (ok, sup, t') -> table_ok t -> table_ok t'.
Proof.
  intros Ha (Hall & Hsize & Hw). pose proof (allow_all _ _ _ _ _ _ Ha) as (a' & Ea & _ & Hc & Hlt). split_and!.
  - rewrite Ea, Hc. assert (0 <= fw_count (opened now (ft_all t)) <= loginFailGlobal).
    { unfold opened. clear -Hall. set (o := ft_all t) in *. clearbody o. destruct o as [a|]; [destruct (loginFailWindow <=? _)|]; cbn; unfold loginFailGlobal in *; lia. }
    destruct ok; [specialize (Hlt eq_refl)|]; lia.
  - revert Ha. unfold allowLoginFailRecord. cbv zeta. destruct (loginFailGlobal <=? _); [by intros [= _ _ <-]|].
    destruct (ft_src t !! host) as [w|] eqn:Eh; [destruct (loginFailWindow <=? _); [|destruct (fw_count w <? loginFailBurst)]|].
    1-3: intros [= _ _ <-]; cbn; rewrite map_size_insert_Some by done; done.
    destruct (loginFailSources <=? Z.of_nat (size (ft_src t))) eqn:Es; intros [= _ _ <-]; cbn.
    + rewrite map_size_insert_None by apply lookup_empty. rewrite map_size_empty. unfold loginFailSources. lia.
    + rewrite map_size_insert_None by done. lia.
  - revert Ha. unfold allowLoginFailRecord. cbv zeta. destruct (loginFailGlobal <=? _); [by intros [= _ _ <-]|].
    assert (Hins : forall (x : failWindow) (m : gmap bytes failWindow) (h : bytes) w, fw_count x <= loginFailBurst -> (forall h w, m !! h = Some w -> fw_count w <= loginFailBurst) ->
      <[host := x]> m !! h = Some w -> fw_count w <= loginFailBurst).
    { intros x m h w Hx Hm. rewrite lookup_insert. case_decide; [by intros [= <-]|apply Hm]. }
    destruct (ft_src t !! host) as [w|] eqn:Eh; [destruct (loginFailWindow <=? _); [|destruct (fw_count w <? loginFailBurst) eqn:Eb]|];
      intros [= _ _ <-] h x; cbn; apply Hins; cbn; try done; try (unfold loginFailBurst in *; lia).
    + by apply Hw in Eh.
    + destruct (loginFailSources <=? Z.of_nat (size (ft_src t))); [by intros ? ?; rewrite lookup_empty|done].
Qed.

Lemma written_cons t0 now ok out : written_in t0 ((now, ok) :: out) =
  (if ok && (t0 <=? now) && (now <? t0 + loginFailWindow) then 1 else 0) + written_in t0 out.
Proof. unfold written_in. cbn [List.filter fst snd]. destruct (ok && _ && _); [by rewrite zlen_cons|done]. Qed.

(** No failure after [t0 + loginFailWindow] counts. *)
Lemma written_late t0 l : forall t, Forall (fun e => t0 + loginFailWindow <= fst e) l -> written_in t0 (fst (answers l t)) = 0.
Proof.
  induction l as [|[now host] l IH]; intros t Hl; [done|]. apply Forall_cons in Hl as [Hn Hl]. cbn [answers].
  destruct (allowLoginFailRecord now host t) as [[ok sup] t1]. specialize (IH t1 Hl). destruct (answers l t1) as [out t2].
  cbn [fst]. rewrite written_cons. cbn in Hn, IH. rewrite IH. assert ((now <? t0 + loginFailWindow) = false) as -> by lia. by rewrite andb_false_r.
Qed.

(** What can still be written in that minute when the last failure was at
    [last]: a window that starts in it is the last one that counts. *)
Definition room (t0 last : Z) (a : option failWindow) : Z :=
  match a with
  | Some a => if t0 <=? fw_start a then loginFailGlobal - fw_count a
              else if t0 <=? last then loginFailGlobal + (loginFailGlobal - fw_count a) else 2 * loginFailGlobal
  | None => 2 * loginFailGlobal
  end.

Lemma written_room t0 l : forall t last, table_ok t -> (match ft_all t with Some a => fw_start a <= last | None => True end) ->
  Sorted.LocallySorted Z.le (last :: map fst l) -> written_in t0 (fst (answers l t)) <= room t0 last (ft_all t).
Proof.
  induction l as [|[now host] l IH]; intros t last Ht Hlast Hs.
  - change (0 <= room t0 last (ft_all t)). destruct Ht as [Ha _]. unfold room, loginFailGlobal in *. set (o := ft_all t) in *. clearbody o. destruct o as [a|]; [destruct (t0 <=? fw_start a); [|destruct (t0 <=? last)]|]; lia.
  - cbn [answers]. destruct (allowLoginFailRecord now host t) as [[ok sup] t1] eqn:Ea. pose proof (allow_ok _ _ _ _ _ _ Ea Ht) as Ht1.
    apply allow_all in Ea as (a' & Ea' & Hst & Hc & Hlt). inversion Hs as [| |? ? ? Hs' Hle]; subst.
    assert (Hstart : fw_start a' <= now).
    { rewrite Hst. clear -Hlast Hle. unfold opened. set (o := ft_all t) in *. clearbody o.
      destruct o as [a|]; [destruct (loginFailWindow <=? _)|]; cbn in *; lia. }
    assert (Hrest : written_in t0 (fst (answers l t1)) <= room t0 now (ft_all t1)) by (eapply (IH t1 now Ht1); [by rewrite Ea'|exact Hs']).
    assert (Hdone : t0 + loginFailWindow <= now -> written_in t0 (fst (answers l t1)) = 0).
    { intros Hn. apply written_late. clear -Hs' Hn. apply (Sorted.Sorted_LocallySorted_iff Z.le) in Hs'.
      apply Sorted.Sorted_StronglySorted in Hs'; [|intros x y z; lia]. apply Sorted.StronglySorted_inv in Hs' as [_ Hf].
      rewrite Forall_map in Hf. apply (Forall_impl _ _ _ Hf). cbn. intros. lia. }
    destruct (answers l t1) as [out t2]. cbn [fst] in *. rewrite written_cons. destruct Ht as [Hall _].
    unfold room in *. rewrite Ea' in Hrest. unfold opened in *. clear Ea' IH Ht1.
    set (o := ft_all t) in *. clearbody o. destruct o as [a|].
    + destruct (loginFailWindow <=? now - fw_start a) eqn:Ew; cbn [fw_start fw_count] in *; rewrite Hst, Hc in Hrest.
      * destruct (t0 <=? fw_start a) eqn:E0; [|clear Hdone].
        -- specialize (Hdone ltac:(lia)). rewrite Hdone. assert ((now <? t0 + loginFailWindow) = false) as -> by lia.
           rewrite andb_false_r. unfold loginFailGlobal in *. lia.
        -- destruct ok; cbn [andb]; unfold loginFailGlobal in *; destruct (t0 <=? now) eqn:E1, (t0 <=? last) eqn:E2, (now <? t0 + loginFailWindow); cbn [andb] in *; lia.
      * unfold loginFailGlobal in *; destruct ok; cbn [andb]; destruct (t0 <=? fw_start a) eqn:E0, (t0 <=? now) eqn:E1, (t0 <=? last) eqn:E2, (now <? t0 + loginFailWindow);
          cbn [andb] in *; lia.
    + cbn [fw_start fw_count] in *. rewrite Hst, Hc in Hrest. unfold loginFailGlobal in *. destruct ok; cbn [andb];
        destruct (t0 <=? now) eqn:E1, (now <? t0 + loginFailWindow); cbn [andb] in *; lia.
Qed.

(** However many logins fail from however many sources, any minute sees at
    most 120 failure records, the table holds at most 4096 sources and no
    window counts more than 5. *)
Theorem failure_records_bounded l t0 : Sorted.LocallySorted Z.le (map fst l) ->
  let '(out, t) := answers l no_fails in
  written_in t0 out <= 120 /\ Z.of_nat (size (ft_src t)) <= 4096 /\ (forall h w, ft_src t !! h = Some w -> fw_count w <= 5).
Proof.
  intros Hs. assert (Hno : table_ok no_fails).
  { split_and!; [done|cbn [ft_src no_fails]; rewrite map_size_empty; unfold loginFailSources; lia|]. intros h w. cbn. by rewrite lookup_empty. }
  assert (Hok : forall l t, table_ok t -> table_ok (snd (answers l t))).
  { clear. induction l as [|[now host] l IH]; intros t Ht; [done|]. cbn [answers].
    destruct (allowLoginFailRecord now host t) as [[ok sup] t1] eqn:Ea. specialize (IH t1 (allow_ok _ _ _ _ _ _ Ea Ht)).
    by destruct (answers l t1). }
  specialize (Hok l no_fails Hno). assert (Hw : written_in t0 (fst (answers l no_fails)) <= 2 * loginFailGlobal).
  { destruct l as [|[now host] l]; [done|]. apply (written_room t0 _ no_fails now Hno I). cbn [map fst] in *. by constructor. }
  destruct (answers l no_fails) as [out t]. destruct Hok as (_ & H1 & H2). split_and!; [exact Hw|exact H1|exact H2].
Qed.

(** ** Records that no value can forge *)

Lemma hex_pair_inj a b c d : 0 <= a < 16 -> 0 <= b < 16 -> 0 <= c < 16 -> 0 <= d < 16 ->
  upper_hex a = upper_hex c -> upper_hex b = upper_hex d -> a = c /\ b = d.
Proof.
  intros Ha Hb Hc Hd H1 H2. apply (f_equal byte_val) in H1, H2. unfold upper_hex in *. rewrite !byte_val_of in *.
  destruct (a <? 10) eqn:?, (b <? 10) eqn:?, (c <? 10) eqn:?, (d <? 10) eqn:?; rewrite !Z.mod_small in * by lia; lia.
Qed.

Lemma audit_plain_percent : audit_plain "%"%char = false.
Proof. reflexivity. Qed.

Lemma audit_char_inj c d u v : audit_char c ++ u = audit_char d ++ v -> c = d /\ u = v.
Proof.
  unfold audit_char. destruct (audit_plain c) eqn:Ec, (audit_plain d) eqn:Ed; cbn [app]; intros E.
  - by injection E as -> ->.
  - injection E as -> _. by rewrite audit_plain_percent in Ec.
  - injection E as E _. rewrite <- E in Ed. by rewrite audit_plain_percent in Ed.
  - injection E as H1 H2 ->. split; [|done]. pose proof (byte_val_range c). pose proof (byte_val_range d).
    pose proof (Z.div_mod (byte_val c) 16 ltac:(lia)). pose proof (Z.div_mod (byte_val d) 16 ltac:(lia)).
    pose proof (Z.mod_pos_bound (byte_val c) 16 ltac:(lia)). pose proof (Z.mod_pos_bound (byte_val d) 16 ltac:(lia)).
    apply byte_val_inj. destruct (hex_pair_inj (byte_val c / 16) (byte_val c mod 16) (byte_val d / 16) (byte_val d mod 16)); try done; try lia;
      split; (apply Z.div_pos || apply Z.div_lt_upper_bound); lia.
Qed.

(** A value that was not cut reads back from its encoding. *)
Lemma qFull_inj v w : qFull v = qFull w -> v = w.
Proof.
  unfold qFull, encodeAudit. cbn [Nat.ltb Nat.leb andb]. revert w. induction v as [|c v IH]; intros [|d w] E; try done.
  - cbn in E. unfold audit_char in E. by destruct (audit_plain d).
  - cbn in E. unfold audit_char in E. by destruct (audit_plain c).
  - cbn [map concat] in E. apply audit_char_inj in E as [-> E]. f_equal. by apply IH.
Qed.
Lemma q_inj v w : q v = q w -> take 256 v = take 256 w.
Proof.
  assert (Hq : forall v, q v = qFull (take 256 v)).
  { intros x. unfold q, qFull, encodeAudit.
    change ((0 <? 0)%nat && (0 <? length (take 256 x))%nat) with false. change ((0 <? 256)%nat && (256 <? length x)%nat) with (256 <? length x)%nat.
    destruct (256 <? length x)%nat eqn:E; [done|]. apply Nat.ltb_ge in E. by rewrite take_ge. }
  rewrite !Hq. apply qFull_inj.
Qed.

Definition SP : byte := " "%char.
Lemma encoded_no_space v n : ~ In SP (encodeAudit v n).
Proof.
  unfold encodeAudit. generalize (if (0 <? n)%nat && (n <? length v)%nat then take n v else v). clear v n. intros v Hin.
  apply in_concat in Hin as (x & Hx & Hin). apply in_map_iff in Hx as (c & <- & _). revert c Hin.
  assert (Hall : forall c, negb (existsb (fun d => d =?b SP) (audit_char c)) = true) by (apply all_bytes; vm_compute; reflexivity).
  intros c Hin. specialize (Hall c). apply negb_true_iff in Hall. assert (existsb (fun d => d =?b SP) (audit_char c) = true); [|congruence].
  apply existsb_exists. exists SP. split; [done|]. apply Ascii.eqb_refl.
Qed.

Lemma pretty_no_space z : ~ In SP (lit (pretty (z : Z))).
Proof.
  intros Hin. pose proof (pretty_Z_digits z) as Hd. rewrite forallb_forall in Hd. apply Hd in Hin. vm_compute in Hin. done.
Qed.

Section Events.
Context `{SshKeyLaws}.
(** Fingerprints are base64 text. *)
Context (fingerprint_text : forall k, ~ In SP (fingerprint k)).

(** The fields of a login record. *)
Definition field (name : string) (v : bytes) : bytes := lit name ++ v.
Definition login_fields (addr user client : bytes) (key : PublicKey) : list bytes :=
  [lit "SSH_LOGIN_OK"; field "addr=" addr; field "user=" (q user); field "client=" (q client)] ++
  match key with
  | Raw _ => [field "method=" (lit "publickey"); field "key_fp=" (FingerprintSHA256 key)]
  | Cert c => [field "method=" (lit "cert"); field "key_fp=" (FingerprintSHA256 key);
               field "cert_key_fp=" (from_option fingerprint [] (c_Key c)); field "ca_fp=" (from_option fingerprint [] (c_SignatureKey c));
               field "serial=" (lit (pretty (c_Serial c))); field "key_id=" (q (c_KeyId c));
               field "principals=" (qFull (json_strings (c_ValidPrincipals c)))]
  end.

Lemma field_no_space name v : ~ In SP (lit name) -> ~ In SP v -> ~ In SP (field name v).
Proof. intros Hn Hv Hin. by apply in_app_iff in Hin as [?|?]. Qed.

Lemma cert_ext_values (c : certificate) (ext : gmap bytes bytes) : let e := cert_extensions c ext in
  e !! extAuthMethod = Some (lit "cert") /\ e !! extPubkeyFP = ext !! extPubkeyFP /\
  e !! extCertKeyFP = Some (from_option fingerprint [] (c_Key c)) /\ e !! extCertCAFP = Some (from_option fingerprint [] (c_SignatureKey c)) /\
  e !! extCertSerial = Some (lit (pretty (c_Serial c))) /\ e !! extCertKeyID = Some (c_KeyId c) /\
  e !! principalsExtension = Some (json_strings (c_ValidPrincipals c)).
Proof.
  unfold cert_extensions. repeat split; repeat first [apply lookup_insert_eq | rewrite lookup_insert_ne by done]; try done.
  all: rewrite lookup_insert_eq; by destruct (c_Key c), (c_SignatureKey c).
Qed.

(** Splitting a login record at its spaces gives back exactly its fields, each
    in its place and encoded from the login, so no user name, client version,
    key id or principal can forge another field. *)
Theorem login_record_fields keys opts env user key checker perms notes checker' addr client :
  publicKeyCallback keys opts env user key checker = (Some perms, notes, checker') -> ~ In SP addr ->
  split_byte SP (loginOKEvent addr user client perms) = login_fields addr user client key.
Proof.
  intros Hcall Haddr. apply callback_ok in Hcall as (_ & _ & _ & authed & _ & ->).
  assert (Hns : forall name v, forallb (fun c => negb (c =?b SP)) (lit name) = true -> ~ In SP v -> ~ In SP (field name v)).
  { intros name v Hn Hv. apply field_no_space; [|done]. intros Hin. rewrite forallb_forall in Hn. apply Hn in Hin. by rewrite Ascii.eqb_refl in Hin. }
  assert (Hopt : forall o, ~ In SP (from_option fingerprint [] o)) by (intros [k|]; [apply fingerprint_text|by intros []]).
  assert (E : loginOKEvent addr user client (mkPerms (p_CriticalOptions authed) (login_extensions key (p_Extensions authed))) =
              GoBytes.join [SP] (login_fields addr user client key)).
  { unfold loginOKEvent, ext_at. cbn [p_Extensions]. set (ext := foldl (fun e k => delete k e) (p_Extensions authed) own_extensions).
    assert (Eext : login_extensions key (p_Extensions authed) =
      match key with Raw _ => <[extAuthMethod := lit "publickey"]> (<[extPubkeyFP := FingerprintSHA256 key]> ext)
                   | Cert c => cert_extensions c (<[extAuthMethod := lit "publickey"]> (<[extPubkeyFP := FingerprintSHA256 key]> ext)) end) by (by destruct key).
    rewrite Eext. clearbody ext. destruct key as [k|c].
    - rewrite lookup_insert_eq, lookup_insert_ne by done. rewrite lookup_insert_eq. cbn [default from_option].
      rewrite bool_decide_false by done. rewrite app_nil_r. unfold login_fields, field. cbn [app GoBytes.join]. rewrite <- !app_assoc. reflexivity.
    - destruct (cert_ext_values c (<[extAuthMethod := lit "publickey"]> (<[extPubkeyFP := FingerprintSHA256 (Cert c)]> ext)))
        as (-> & -> & -> & -> & -> & -> & ->). rewrite lookup_insert_ne by done. rewrite lookup_insert_eq.
      cbn [default from_option id]. rewrite bool_decide_true by done. unfold login_fields, field. cbn [app GoBytes.join]. rewrite <- !app_assoc.
      by destruct (c_Key c), (c_SignatureKey c). }
  rewrite E. apply split_byte_unique; [done|]. unfold login_fields.
  assert (Hlit : forall s, forallb (fun c => negb (c =?b SP)) (lit s) = true -> ~ In SP (lit s)).
  { intros s Hs Hin. rewrite forallb_forall in Hs. apply Hs in Hin. by rewrite Ascii.eqb_refl in Hin. }
  destruct key as [k|c]; cbn [app]; repeat constructor; try (apply Hns; [reflexivity|]); try (by apply Hlit).
  all: first [exact Haddr | apply encoded_no_space | apply pretty_no_space | apply Hopt | apply fingerprint_text].
Qed.
End Events.

(** ** A decoder

    The strings that [json_string] writes, read back: with it the laws of
    [SshKeyLaws] hold of a concrete instance. *)

Definition unhex (c : byte) : Z :=
  let v := byte_val c in if v <? 58 then v - 48 else v - 87.
Definition rune_utf8 (r : Z) : bytes :=
  map byte_of (if r <? 128 then [r] else if r <? 2048 then [192 + r / 64; 128 + r mod 64]
               else [224 + r / 4096; 128 + r / 64 mod 64; 128 + r mod 64]).
Definition unescaped (c : byte) : byte :=
  if c =?b "b" then byte_of 8 else if c =?b "f" then byte_of 12 else if c =?b "n" then byte_of 10
  else if c =?b "r" then byte_of 13 else if c =?b "t" then byte_of 9 else c.
Definition onto (p : bytes) (r : option (bytes * bytes)) : option (bytes * bytes) :=
  match r with Some (v, t) => Some (p ++ v, t) | None => None end.
(** The rest of a string after its opening quote, and what follows it. *)
Fixpoint unstring (s : bytes) : option (bytes * bytes) :=
  match s with
  | [] => None
  | c :: s' =>
      if c =?b FlowScan.QUOTE2 then Some ([], s')
      else if c =?b FlowScan.BSL then
        match s' with
        | e :: s'' =>
            if e =?b "u" then
              match s'' with
              | a :: b :: c' :: d :: t => onto (rune_utf8 (((unhex a * 16 + unhex b) * 16 + unhex c') * 16 + unhex d)) (unstring t)
              | _ => None
              end
            else onto [unescaped e] (unstring s'')
        | [] => None
        end
      else onto [c] (unstring s')
  end.
(** The strings after a [[]: each, then a comma or the end. *)
Fixpoint unstrings (fuel : nat) (s : bytes) : option (list bytes) :=
  match fuel, s with
  | S fuel, c :: s' =>
      if c =?b FlowScan.QUOTE2 then
        match unstring s' with
        | Some (v, sep :: t) => if sep =?b "," then option_map (cons v) (unstrings fuel t) else Some [v]
        | _ => None
        end
      else Some []
  | _, _ => None
  end.
Definition toy_decode (raw : bytes) : option (list bytes) := unstrings (length raw) (drop 1 raw).

Lemma unstring_ascii c t : (byte_val c <? 128) = true -> unstring (json_ascii c ++ t) = onto [c] (unstring t).
Proof. destruct c as [[] [] [] [] [] [] [] []]; intros Hc; try (vm_compute in Hc; discriminate); reflexivity. Qed.

Lemma onto_onto p p' r : onto p (onto p' r) = onto (p ++ p') r.
Proof. destruct r as [[v t]|]; [|done]. cbn. by rewrite app_assoc. Qed.

Lemma unstring_high c t : high c = true -> unstring (c :: t) = onto [c] (unstring t).
Proof.
  intros Hc. cbn [unstring]. assert ((c =?b FlowScan.QUOTE2) = false) as -> by (apply Ascii.eqb_neq; intros ->; done).
  by assert ((c =?b FlowScan.BSL) = false) as -> by (apply Ascii.eqb_neq; intros ->; done).
Qed.

Definition esc_value (m : jsonMode) (s : bytes) : bytes :=
  match m with JCopy k => to_valid k s | JDrop k => to_valid 0 (drop k s) end.

Lemma line_separator_bytes c s d k : line_separator (c :: s) = Some d -> utf8_width (c :: s) = S k ->
  exists s', s = map byte_of [128] ++ map byte_of [if d =?b "8" then 168 else 169] ++ s' /\ c = byte_of 226 /\ k = 2%nat /\ In d ["8"; "9"]%char.
Proof.
  unfold line_separator. intros Hl Hw. destruct s as [|c1 [|c2 s]]; cbn [map] in Hl; try (repeat case_match; discriminate).
  assert (Hb : byte_val c = 226 /\ byte_val c1 = 128 /\ ((byte_val c2 = 168 /\ d = "8"%char) \/ (byte_val c2 = 169 /\ d = "9"%char))).
  { repeat case_match; try discriminate; injection Hl as <-; auto. }
  destruct Hb as (H0 & H1 & H2).
  assert (Hof : forall x z, byte_val x = z -> x = byte_of z).
  { intros x z <-. apply byte_val_inj. rewrite byte_val_of. pose proof (byte_val_range x). by rewrite Z.mod_small by lia. }
  apply Hof in H0, H1. exists s. subst. destruct H2 as [[H2 ->]|[H2 ->]]; apply Hof in H2; subst c2; cbn in Hw; injection Hw as <-; cbn; intuition.
Qed.

Lemma unstring_esc s t : forall m, match m with JCopy k => forallb high (take k s) = true | JDrop _ => True end ->
  unstring (json_esc m s ++ FlowScan.QUOTE2 :: t) = Some (esc_value m s, t).
Proof.
  induction s as [|c s IH]; intros m Hm; [by destruct m as [k|[]]; [destruct k|..]|].
  assert (Hstep : unstring ((if byte_val c <? 128 then json_ascii c ++ json_esc (JCopy 0) s
          else match utf8_width (c :: s) with
          | O => FlowScan.BSL :: lit "ufffd" ++ json_esc (JCopy 0) s
          | S k => match line_separator (c :: s) with
              | Some d => FlowScan.BSL :: lit "u202" ++ d :: json_esc (JDrop k) s
              | None => c :: json_esc (JCopy k) s
              end end) ++ FlowScan.QUOTE2 :: t) = Some (to_valid 0 (c :: s), t)).
  { destruct (byte_val c <? 128) eqn:Ec.
    - rewrite <- app_assoc, unstring_ascii, IH by done. cbn [esc_value onto app to_valid utf8_width]. by rewrite Ec.
    - cbn [to_valid]. destruct (utf8_width (c :: s)) as [|k] eqn:Ew.
      + change (FlowScan.BSL :: lit "ufffd" ++ json_esc (JCopy 0) s) with (lit "\ufffd" ++ json_esc (JCopy 0) s). rewrite <- app_assoc.
        change (unstring (lit "\ufffd" ++ json_esc (JCopy 0) s ++ FlowScan.QUOTE2 :: t)) with (onto (map byte_of [239; 191; 189]) (unstring (json_esc (JCopy 0) s ++ FlowScan.QUOTE2 :: t))).
        by rewrite IH.
      + destruct (forallb_take_tail high k c s) as [H1 H2]; [by apply utf8_width_high|].
        destruct (line_separator (c :: s)) as [d|] eqn:El.
        * destruct (line_separator_bytes _ _ _ _ El Ew) as (s' & -> & -> & -> & Hd). specialize (IH (JDrop 2) I). cbn [esc_value] in IH.
          set (e := json_esc _ _) in *. change (drop 2 (_ ++ _ ++ s')) with s' in IH. clearbody e.
          change ((FlowScan.BSL :: lit "u202" ++ d :: e) ++ FlowScan.QUOTE2 :: t) with (FlowScan.BSL :: "u"%char :: "2"%char :: "0"%char :: "2"%char :: d :: (e ++ FlowScan.QUOTE2 :: t)).
          destruct Hd as [<-|[<-|[]]]; cbn [unstring]; rewrite IH; reflexivity.
        * cbn [app]. rewrite unstring_high, IH by done. done. }
  destruct m as [[|k]|[|k]]; cbn [json_esc esc_value]; [exact Hstep| |exact Hstep|].
  - destruct (forallb_take_tail high k c s Hm) as [H1 H2]. cbn [app]. by rewrite unstring_high, IH.
  - by rewrite IH.
Qed.
Lemma unstring_string s t : unstring (drop 1 (json_string s) ++ t) = Some (to_valid 0 s, t).
Proof.
  change (drop 1 (json_string s)) with (json_esc (JCopy 0) s ++ [FlowScan.QUOTE2]). rewrite <- app_assoc. cbn [app]. by apply (unstring_esc s t (JCopy 0)).
Qed.

Lemma unstrings_join l : forall fuel, (length l < fuel)%nat ->
  unstrings fuel (GoBytes.join (lit ",") (map json_string l) ++ lit "]") = Some (map (to_valid 0) l).
Proof.
  induction l as [|s l IH]; intros [|fuel] Hf; try (cbn in Hf; lia); [done|]. cbn in Hf. destruct l as [|s' l].
  - cbn [map GoBytes.join]. change (json_string s) with (FlowScan.QUOTE2 :: drop 1 (json_string s)). cbn [app unstrings]. rewrite unstring_string. reflexivity.
  - set (rest := GoBytes.join (lit ",") (map json_string (s' :: l))) in IH |- *.
    change (GoBytes.join (lit ",") (map json_string (s :: s' :: l))) with (json_string s ++ lit "," ++ rest).
    change (json_string s) with (FlowScan.QUOTE2 :: drop 1 (json_string s)). rewrite <- !app_assoc. change ((FlowScan.QUOTE2 :: drop 1 (json_string s)) ++ lit "," ++ rest ++ lit "]") with (FlowScan.QUOTE2 :: (drop 1 (json_string s) ++ ","%char :: (rest ++ lit "]"))).
    cbn [unstrings]. rewrite unstring_string. specialize (IH fuel ltac:(cbn in *; lia)). rewrite IH. reflexivity.
Qed.

(** ** Witnesses *)

(** A library whose keys are their own text: a line gives the key after its
    options, a certificate is good for the names it lists. *)
#[local] Instance toy_ssh : SshKeys := {
  ParseAuthorizedKey line :=
    match split_byte " " line with
    | [k] => Some (k, [])
    | [o; k] => Some (k, [o])
    | _ => None
    end;
  fingerprint k := lit "SHA256:" ++ map (fun c => if c =?b SP then "_"%char else c) k;
  CheckCert user c := bool_decide (user ∈ c_ValidPrincipals c);
  decode_strings := toy_decode }.
Lemma toy_decode_strings l : toy_decode (json_strings l) = Some (map (to_valid 0) l).
Proof.
  unfold toy_decode, json_strings. change (drop 1 (lit "[" ++ ?x)) with x. apply unstrings_join.
  rewrite !length_app. change (length (lit "[")) with 1%nat. change (length (lit "]")) with 1%nat.
  assert (length l <= length (GoBytes.join (lit ",") (map json_string l)))%nat; [|lia].
  induction l as [|s [|s' l] IH]; [done|cbn; lia|].
  change (GoBytes.join (lit ",") (map json_string (s :: s' :: l))) with (json_string s ++ lit "," ++ GoBytes.join (lit ",") (map json_string (s' :: l))).
  rewrite !length_app. change (length (lit ",")) with 1%nat. cbn in *. lia.
Qed.
#[local] Instance toy_ssh_laws : SshKeyLaws.
Proof.
  split; [|apply toy_decode_strings]. intros user c Hc. right. by apply bool_decide_eq_true_1, list_elem_of_In in Hc.
Qed.
Lemma toy_fingerprint_text k : ~ In SP (fingerprint k).
Proof.
  cbn. intros Hin. repeat (destruct Hin as [Hin|Hin]; [discriminate|]). apply in_map_iff in Hin as (c & Hc & _).
  destruct (Ascii.eqb_spec c SP); [done|congruence].
Qed.

Definition toy_file : bytes := lit "user=" ++ [QUOTE] ++ lit "ann,bob" ++ [QUOTE] ++ lit " KEYA" ++ [byte_of 10] ++ lit "cert-authority CA" ++ [byte_of 10].
Definition toy_keys : authorizedKeySet := match loadAuthorizedKeys (ReadData toy_file) with Ok k => k | Err _ => no_keys end.
Definition toy_revoked : bytes := lit "# lost" ++ [byte_of 10] ++ lit "serial:7" ++ [byte_of 10] ++ lit "keyid:old" ++ [byte_of 10] ++ lit "SHA256:KEYZ" ++ [byte_of 10].
Definition toy_login : loginEnv := mkLoginEnv (Some (mkStat true 36 1)) (Some toy_revoked) (fun _ => Some (lit "1000")).
Definition toy_cert : certificate :=
  mkCert (lit "CERT") (Some (lit "OWN")) (Some (lit "CA")) true [lit "ann"; lit "a" ++ [byte_of 233]] 8 (lit "id 1") ∅ {[ lit "permit-pty" := [] ]}.
Definition toy_opts : SSHServerOptions := mkSshOpts false (lit "revoked") None.
Definition toy_perms (key : PublicKey) : Permissions :=
  match publicKeyCallback toy_keys toy_opts toy_login (lit "ann") key (Some newRevocationChecker) with
  | (Some p, _, _) => p
  | _ => mkPerms ∅ ∅
  end.
Definition toy_after : revocationChecker := snd (current (le_stat toy_login) (le_data toy_login) newRevocationChecker).

Example revoked_serial_refused :
  fst (fst (publicKeyCallback toy_keys toy_opts toy_login (lit "ann")
    (Cert (mkCert (lit "CERT") (Some (lit "OWN")) (Some (lit "CA")) true [lit "ann"] 7 (lit "id 1") ∅ ∅)) (Some newRevocationChecker))) = None.
Proof. vm_compute. reflexivity. Qed.

Lemma login_needs_binding_witness :
  file_grants toy_file (lit "ann") (Cert toy_cert) /\ not_revoked toy_login (Cert toy_cert) (Some newRevocationChecker) /\ root_ok toy_opts toy_login (lit "ann").
Proof.
  apply (login_needs_binding toy_file toy_opts toy_login (lit "ann") (Cert toy_cert) (Some newRevocationChecker) toy_keys
    (toy_perms (Cert toy_cert)) [FingerprintSHA256 (Cert toy_cert)] (Some toy_after)); vm_compute; reflexivity.
Defined.

Lemma login_principals_witness :
  principalsFromPermissions (Some (toy_perms (Cert toy_cert))) = Ok [lit "ann"; lit "a" ++ map byte_of [239; 191; 189]].
Proof.
  destruct (login_principals toy_keys toy_opts toy_login (lit "ann") (Cert toy_cert) (Some newRevocationChecker)
    (toy_perms (Cert toy_cert)) [FingerprintSHA256 (Cert toy_cert)] (Some toy_after)) as [Hp _]; [vm_compute; reflexivity|].
  rewrite Hp. vm_compute. reflexivity.
Defined.

Lemma revocation_in_force_witness :
  exists info list, le_stat toy_login = Some info /\ parseRevocationList toy_revoked = Some list /\ (8 ∉ rl_serials list).
Proof.
  destruct (revocation_in_force (fun _ => toy_revoked) [(le_stat toy_login, le_data toy_login)] toy_keys toy_opts toy_login (lit "ann") (Cert toy_cert)
    (toy_perms (Cert toy_cert)) [FingerprintSHA256 (Cert toy_cert)] (Some toy_after)) as (info & list & H1 & H2 & _ & _ & H3 & _).
  - by repeat constructor.
  - reflexivity.
  - vm_compute. reflexivity.
  - by exists info, list.
Defined.

Lemma failure_records_bounded_witness :
  let '(out, t) := answers (repeat (5, lit "10.0.0.1") 7) no_fails in
  written_in 0 out <= 120 /\ Z.of_nat (size (ft_src t)) <= 4096 /\ (forall h w, ft_src t !! h = Some w -> fw_count w <= 5).
Proof.
  apply (failure_records_bounded (repeat (5, lit "10.0.0.1") 7) 0). cbn [repeat map fst]. repeat constructor; lia.
Defined.

Lemma login_record_fields_witness :
  split_byte SP (loginOKEvent (lit "10.0.0.1:22") (lit "ann") (lit "SSH-2.0-x y") (toy_perms (Cert toy_cert)))
  = login_fields (lit "10.0.0.1:22") (lit "ann") (lit "SSH-2.0-x y") (Cert toy_cert).
Proof.
  apply (login_record_fields toy_fingerprint_text toy_keys toy_opts toy_login (lit "ann") (Cert toy_cert) (Some newRevocationChecker)
    (toy_perms (Cert toy_cert)) [FingerprintSHA256 (Cert toy_cert)] (Some toy_after)); [vm_compute; reflexivity|].
  intros Hin. vm_compute in Hin. intuition discriminate.
Defined.

(** Failures that the limit over all sources drops are counted in no later
    record: the sixty-first source of a minute was dropped, and its next
    record a minute later says nothing of it. *)
Example global_drop_uncounted :
  let t := snd (answers (map (fun n => (0, lit (pretty n))) (seqZ 0 60)) no_fails) in
  let '(ok, _, t) := allowLoginFailRecord 0 (lit "60") t in
  let '(ok', suppressed, _) := allowLoginFailRecord loginFailWindow (lit "60") t in
  (ok, ok', suppressed) = (false, true, 0).
Proof. vm_compute. reflexivity. Qed.
