(* ===== verification/SshServer.v ===== *)
(** * The SSH listener

    The serving half of internal/sys/ssh.go: the daemon's start, connections
    and their handshakes, session channels and their requests, forwarded
    channels, and the slots that bound them.  Goroutines are operations on one
    state, in any order. *)

From S2P Require Import Prelude GoBytes GoNum GoTime NetIP Json Frames Session Guard TtyModes SshAuth.
From stdpp Require Import pretty.
#[local] Open Scope Z_scope.
#[local] Arguments lit : simpl never.

(** ** Payloads *)

(** A packet is far shorter than 2^32 bytes; beyond that the sum below would
    wrap, as it does in the code. *)
Definition parseSSHString (data : bytes) : option (bytes * bytes) :=
  if zlen data <? 4 then None
  else
    let length := be_get (take 4 data) in
    if wrapu 32 (zlen data - 4) <? length then None
    else let n := Z.to_nat (wrapu 32 (4 + length)) in Some (drop 4 (take n data), drop n data).

Record directTCPIPPayload := mkDirect {
  d_TargetHost : bytes; d_TargetPort : Z; d_OriginatorHost : bytes; d_OriginatorPort : Z }.
Definition malformedDirect : bytes := lit "malformed direct-tcpip payload".
Definition parseDirectTCPIPPayload (data : bytes) : result bytes directTCPIPPayload :=
  match parseSSHString data with
  | None => Err malformedDirect
  | Some (host, rest) =>
      if zlen rest <? 4 then Err malformedDirect
      else
        let port := be_get (take 4 rest) in
        match parseSSHString (drop 4 rest) with
        | None => Err malformedDirect
        | Some (ohost, rest) =>
            if zlen rest <? 4 then Err malformedDirect
            else if bool_decide (host = []) || (port =? 0) || (65535 <? port) then Err (lit "invalid direct-tcpip target")
            else Ok (mkDirect host port ohost (be_get (take 4 rest)))
        end
  end.

(** golang.org/x/crypto/ssh: [ssh.Unmarshal] into the three structures that
    requests are read into; it refuses a packet with bytes left over. *)
Record ptyRequest := mkPty { p_Term : bytes; p_Cols : Z; p_Rows : Z; p_Width : Z; p_Height : Z; p_Modes : bytes }.
Record windowChange := mkWindowChange { w_Cols : Z; w_Rows : Z; w_Width : Z; w_Height : Z }.
Class SshWire := {
  UnmarshalPty : bytes -> option ptyRequest;
  UnmarshalWindow : bytes -> option windowChange;
  UnmarshalEnv : bytes -> option (bytes * bytes) }.
(** The dimensions are 32-bit words. *)
Class SshWireLaws `{SshWire} : Prop := {
  pty_words : forall p r, UnmarshalPty p = Some r -> 0 <= p_Cols r < 2 ^ 32 /\ 0 <= p_Rows r < 2 ^ 32;
  window_words : forall p r, UnmarshalWindow p = Some r -> 0 <= w_Cols r < 2 ^ 32 /\ 0 <= w_Rows r < 2 ^ 32 }.

(** ** Terminals and locales *)

Definition maxTermLen : Z := 64.
(** The columns and rows that [clampDims] gives. *)
Definition clampDims (cols rows : Z) : Z * Z :=
  let cols := if cols =? 0 then 80 else cols in
  let rows := if rows =? 0 then 24 else rows in
  (wrapu 16 (Z.min cols maxPTYDim), wrapu 16 (Z.min rows maxPTYDim)).

Definition clientLocaleVars : list bytes :=
  map lit ["LANG"; "LC_ALL"; "LC_CTYPE"; "LC_COLLATE"; "LC_MESSAGES"; "LC_MONETARY"; "LC_NUMERIC"; "LC_TIME"; "LC_ADDRESS";
           "LC_IDENTIFICATION"; "LC_MEASUREMENT"; "LC_NAME"; "LC_PAPER"; "LC_TELEPHONE"]%string.
Definition alnum (c : byte) : bool :=
  let z := byte_val c in ((97 <=? z) && (z <=? 122)) || ((65 <=? z) && (z <=? 90)) || ((48 <=? z) && (z <=? 57)).
Definition locale_char (c : byte) : bool := alnum c || existsb (Ascii.eqb c) (lit "_.-@").
Definition validLocaleValue (v : bytes) : bool :=
  negb (bool_decide (v = []) || (64 <? zlen v)) && forallb locale_char v.
Definition term_char (c : byte) : bool := alnum c || existsb (Ascii.eqb c) (lit "-_.+").

Section Requests.
Context `{Constants} `{SshWire}.

Definition ptyTerm (payload : bytes) : bytes :=
  match UnmarshalPty payload with
  | None => []
  | Some req => if bool_decide (p_Term req = []) || (maxTermLen <? zlen (p_Term req)) then []
                else if forallb term_char (p_Term req) then p_Term req else []
  end.
Definition acceptClientLocale (payload : bytes) (s : Session) : bool * Session :=
  match UnmarshalEnv payload with
  | None => (false, s)
  | Some (name, value) =>
      if negb (bool_decide (name ∈ clientLocaleVars)) || negb (validLocaleValue value) then (false, s)
      else match SetEnv name value s with Ok s => (true, s) | Err _ => (false, s) end
  end.

(** Whether [setSize] works; the terminal behind [setModes], when it is not
    nil.  The calls that took effect are returned. *)
Definition applyPTYRequest (setSize : bool) (setModes : option tty) (payload : bytes) : bool * list ttyEffect :=
  match UnmarshalPty payload with
  | None => (false, [])
  | Some req =>
      if maxTermLen <? zlen (p_Term req) then (false, [])
      else match ParseSSHModes (p_Modes req) with
      | Err _ => (false, [])
      | Ok modes =>
          if negb setSize then (false, [])
          else
            let '(cols, rows) := clampDims (p_Cols req) (p_Rows req) in
            match setModes with
            | None => (true, [EWinsize rows cols])
            | Some y => let '(ok, eff) := applySSHModesFile y modes in (ok, EWinsize rows cols :: eff)
            end
      end
  end.
Definition handlePTYRequest (started : bool) (setSize : bool) (setModes : tty) (payload : bytes) : bool * list ttyEffect :=
  applyPTYRequest setSize (if started then None else Some setModes) payload.
Definition applyWindowChange (setSize : bool) (payload : bytes) : bool * list ttyEffect :=
  match UnmarshalWindow payload with
  | None => (false, [])
  | Some req =>
      if setSize then let '(cols, rows) := clampDims (w_Cols req) (w_Rows req) in (true, [EWinsize rows cols])
      else (false, [])
  end.

(** ** The requests of a session channel

    A request with what the terminal answers when it is handled. *)
Record chanRequest := mkReq { rq_Type : bytes; rq_Payload : bytes; rq_setSize : bool; rq_tty : tty }.

(** One turn of the request loop: the reply, what reached the terminal, and
    the loop's [started] (the shell channel is closed with it) and session. *)
Definition channelRequest (req : chanRequest) (started : bool) (s : Session) : bool * list ttyEffect * bool * Session :=
  if bool_decide (rq_Type req = lit "shell") then
    if started then (false, [], started, s) else (true, [], true, s)
  else if bool_decide (rq_Type req = lit "pty-req") then
    let '(ok, eff) := handlePTYRequest started (rq_setSize req) (rq_tty req) (rq_Payload req) in
    let s := if ok && negb started then
               let term := ptyTerm (rq_Payload req) in
               if bool_decide (term = []) then s
               else match SetEnv (lit "TERM") term s with Ok s => s | Err _ => s end
             else s in
    (ok, eff, started, s)
  else if bool_decide (rq_Type req = lit "window-change") then
    let '(ok, eff) := applyWindowChange (rq_setSize req) (rq_Payload req) in (ok, eff, started, s)
  else if bool_decide (rq_Type req = lit "env") then
    if started then (false, [], started, s)
    else let '(ok, s) := acceptClientLocale (rq_Payload req) s in (ok, [], started, s)
  else (false, [], started, s).

(** The loop: the answers in order, and where it ends. *)
Fixpoint channelRequests (reqs : list chanRequest) (started : bool) (s : Session)
  : list (bool * list ttyEffect) * bool * Session :=
  match reqs with
  | [] => ([], started, s)
  | req :: reqs =>
      let '(ok, eff, started, s) := channelRequest req started s in
      let '(out, started, s) := channelRequests reqs started s in
      ((ok, eff) :: out, started, s)
  end.
End Requests.

(** [requestDetail]: what the debug log says of a request. *)
Definition requestDetail (reqType payload : bytes) : bytes :=
  match parseSSHString payload with
  | None => []
  | Some (v, _) => if bool_decide (reqType = lit "exec") then lit "command of " ++ lit (pretty (zlen v)) ++ lit " bytes" else q v
  end.

(** ** The end of a session

    [SignalName] is golang.org/x/sys/unix's. *)
Section Exit.
Variable SignalName : Z -> bytes.
Definition exitSignal (err : exitInfo) : option (bytes * bool) :=
  match err with
  | ExitSignal signal core =>
      let n := SignalName signal in
      let n := if has_prefix (lit "SIG") n then drop 3 n else n in
      Some (if bool_decide (n = []) then lit (pretty signal) else n, core)
  | _ => None
  end.
Inductive exitMessage := MsgSignal (signal : bytes) (core : bool) | MsgStatus (status : Z).
Definition sendExitStatus (err : exitInfo) : exitMessage :=
  match exitSignal err with
  | Some (name, core) => MsgSignal name core
  | None => let '(code, _) := sessionEndReason err in MsgStatus (wrapu 32 (if code <? 0 then 1 else code))
  end.
End Exit.

(** ** Forwarded channels *)

Record GatewayAuthRequest := mkGateway {
  g_SessionID : bytes; g_User : bytes; g_Principals : list bytes; g_TargetHost : bytes; g_TargetIP : bytes;
  g_TargetPort : Z; g_OriginatorHost : bytes; g_OriginatorPort : Z }.

(** [None] is a lookup that fails. *)
Definition resolveGatewayTarget (lookup : bytes -> option (list IP)) (host : bytes) : option IP :=
  match ParseIP host with
  | Some ip => Some ip
  | None => match lookup host with Some (ip :: _) => Some ip | _ => None end
  end.

Inductive rejectCode := Prohibited | ConnectionFailed | UnknownChannelType | ResourceShortage.
Inductive forwardResult := ForwardRefused (code : rejectCode) | ForwardDropped | ForwardOpen.

(** What the world answers a forwarded channel: the policy ([None] when there
    is none), the resolver, whether the dial and the accept work. *)
Record forwardEnv := mkForward {
  f_sessionID : bytes; f_authorize : option (GatewayAuthRequest -> bool); f_lookup : bytes -> option (list IP);
  f_dial : bytes -> bool; f_accept : bool }.

(** [handleDirectTCPIP] up to the copy: the request put to the policy, the
    address dialed, and the outcome. *)
Definition handleDirectTCPIP (user : bytes) (principals : list bytes) (extraData : bytes) (e : forwardEnv)
  : option GatewayAuthRequest * option bytes * forwardResult :=
  match parseDirectTCPIPPayload extraData with
  | Err _ => (None, None, ForwardRefused ConnectionFailed)
  | Ok payload =>
      match f_authorize e with
      | None => (None, None, ForwardRefused Prohibited)
      | Some authorize =>
          match resolveGatewayTarget (f_lookup e) (d_TargetHost payload) with
          | None => (None, None, ForwardRefused ConnectionFailed)
          | Some ip =>
              let address := IP_String ip in
              let req := mkGateway (f_sessionID e) user principals (d_TargetHost payload) address (d_TargetPort payload)
                           (d_OriginatorHost payload) (d_OriginatorPort payload) in
              let target := JoinHostPort address (FormatUint 10 (d_TargetPort payload)) in
              if negb (authorize req) then (Some req, None, ForwardRefused Prohibited)
              else if negb (f_dial e target) then (Some req, Some target, ForwardRefused ConnectionFailed)
              else if f_accept e then (Some req, Some target, ForwardOpen) else (Some req, Some target, ForwardDropped)
          end
      end
  end.

(** ** Payloads read back *)

Definition ssh_string (v : bytes) : bytes := be_put 4 (zlen v) ++ v.

Lemma parseSSHString_iff data v rest : zlen data < 2 ^ 32 ->
  parseSSHString data = Some (v, rest) <-> data = ssh_string v ++ rest.
Proof.
  intros Hlen. unfold parseSSHString, ssh_string. pose proof (zlen_nonneg data). split.
  - destruct (zlen data <? 4) eqn:E4; [done|]. apply Z.ltb_ge in E4. set (n := be_get (take 4 data)) in *.
    assert (H4 : length (take 4 data) = 4%nat) by (rewrite length_take; unfold zlen in E4; lia).
    assert (Hn : 0 <= n < 256 ^ 4) by (pose proof (be_get_range (take 4 data)) as Hr; unfold zlen in Hr; rewrite H4 in Hr; exact Hr).
    unfold wrapu. rewrite Z.mod_small by lia. destruct (zlen data - 4 <? n) eqn:E; [done|]. apply Z.ltb_ge in E.
    rewrite Z.mod_small by lia. intros [= <- <-].
    assert (Hz : zlen (drop 4 (take (Z.to_nat (4 + n)) data)) = n).
    { unfold zlen in *. rewrite length_drop, length_take. lia. }
    rewrite Hz. assert (He : be_put 4 n = take 4 data) by (unfold n; rewrite <- H4 at 1; apply be_put_get). rewrite He.
    replace (take 4 data) with (take 4 (take (Z.to_nat (4 + n)) data)) by (rewrite take_take; f_equal; lia).
    by rewrite take_drop, take_drop.
  - intros ->. rewrite !zlen_app in *. pose proof (zlen_nonneg v). pose proof (zlen_nonneg rest).
    assert (Hp : zlen (be_put 4 (zlen v)) = 4) by (unfold zlen; by rewrite length_be_put).
    rewrite Hp in *. rewrite (proj2 (Z.ltb_ge _ _)) by lia.
    assert (Hg : be_get (take 4 ((be_put 4 (zlen v) ++ v) ++ rest)) = zlen v).
    { rewrite <- app_assoc, take_app_length' by (by rewrite length_be_put). rewrite be_get_put, Z.mod_small; [done|]. change (256 ^ Z.of_nat 4) with (2 ^ 32). lia. }
    rewrite Hg. unfold wrapu. rewrite !Z.mod_small by lia. rewrite (proj2 (Z.ltb_ge _ _)) by lia.
    assert (Hd : (be_put 4 (zlen v) ++ v) ++ rest = (be_put 4 (zlen v) ++ v) ++ rest) by done.
    f_equal. f_equal.
    + rewrite take_app_length' by (rewrite length_app, length_be_put; unfold zlen; lia). by rewrite drop_app_length' by (by rewrite length_be_put).
    + by rewrite drop_app_length' by (rewrite length_app, length_be_put; unfold zlen; lia).
Qed.

Lemma parseSSHString_read v rest : zlen (ssh_string v ++ rest) < 2 ^ 32 -> parseSSHString (ssh_string v ++ rest) = Some (v, rest).
Proof. intros H. by apply parseSSHString_iff. Qed.

Definition direct_bytes (p : directTCPIPPayload) : bytes :=
  ssh_string (d_TargetHost p) ++ be_put 4 (d_TargetPort p) ++ ssh_string (d_OriginatorHost p) ++ be_put 4 (d_OriginatorPort p).
Definition direct_ok (p : directTCPIPPayload) : Prop :=
  d_TargetHost p <> [] /\ 1 <= d_TargetPort p <= 65535 /\ 0 <= d_OriginatorPort p < 2 ^ 32.

Lemma word_split data : 4 <= zlen data -> exists n rest, data = be_put 4 n ++ rest /\ be_get (take 4 data) = n /\ drop 4 data = rest /\ 0 <= n < 2 ^ 32.
Proof.
  intros H. assert (H4 : length (take 4 data) = 4%nat) by (rewrite length_take; unfold zlen in H; lia).
  exists (be_get (take 4 data)), (drop 4 data). split_and!; try done.
  - rewrite <- H4 at 1. by rewrite be_put_get, take_drop.
  - pose proof (be_get_range (take 4 data)). lia.
  - pose proof (be_get_range (take 4 data)) as Hr. unfold zlen in Hr. rewrite H4 in Hr. lia.
Qed.
Lemma word_read n rest : 0 <= n < 2 ^ 32 -> be_get (take 4 (be_put 4 n ++ rest)) = n /\ drop 4 (be_put 4 n ++ rest) = rest /\ 4 <= zlen (be_put 4 n ++ rest).
Proof.
  intros Hn. split_and!.
  - rewrite take_app_length' by (by rewrite length_be_put). by rewrite be_get_put, Z.mod_small.
  - by rewrite drop_app_length' by (by rewrite length_be_put).
  - rewrite zlen_app. unfold zlen at 1. rewrite length_be_put. pose proof (zlen_nonneg rest). lia.
Qed.

Lemma parseDirect_iff data p : zlen data < 2 ^ 32 ->
  parseDirectTCPIPPayload data = Ok p <-> direct_ok p /\ exists tail, data = direct_bytes p ++ tail.
Proof.
  intros Hlen. unfold parseDirectTCPIPPayload, direct_bytes. split.
  - destruct (parseSSHString data) as [[host rest]|] eqn:E1; [|done]. apply parseSSHString_iff in E1; [|done].
    destruct (zlen rest <? 4) eqn:L1; [done|]. apply Z.ltb_ge in L1. destruct (word_split rest L1) as (port & rest2 & Er & -> & -> & Hp).
    assert (Hl2 : zlen rest2 < 2 ^ 32) by (rewrite E1, Er, !zlen_app in Hlen; pose proof (zlen_nonneg (ssh_string host)); pose proof (zlen_nonneg (be_put 4 port)); lia).
    destruct (parseSSHString rest2) as [[ohost rest3]|] eqn:E2; [|done]. apply parseSSHString_iff in E2; [|done].
    destruct (zlen rest3 <? 4) eqn:L2; [done|]. apply Z.ltb_ge in L2. destruct (word_split rest3 L2) as (oport & tail & Et & -> & _ & Ho).
    destruct (bool_decide (host = []) || (port =? 0) || (65535 <? port)) eqn:Eb; [done|]. bsimp. intros [= <-]. split.
    + split_and!; cbn; try done; lia.
    + exists tail. rewrite E1, Er, E2, Et. by rewrite <- !app_assoc.
  - intros [(Hh & Hp & Ho) [tail ->]]. rewrite <- !app_assoc in *.
    rewrite parseSSHString_read by exact Hlen.
    destruct (word_read (d_TargetPort p) (ssh_string (d_OriginatorHost p) ++ be_put 4 (d_OriginatorPort p) ++ tail) ltac:(lia)) as (-> & -> & L1).
    rewrite (proj2 (Z.ltb_ge _ _) L1). rewrite zlen_app in Hlen. rewrite (zlen_app (be_put 4 (d_TargetPort p))) in Hlen.
    rewrite parseSSHString_read by (pose proof (zlen_nonneg (ssh_string (d_TargetHost p))); pose proof (zlen_nonneg (be_put 4 (d_TargetPort p))); lia).
    destruct (word_read (d_OriginatorPort p) tail ltac:(lia)) as (-> & _ & L2). rewrite (proj2 (Z.ltb_ge _ _) L2).
    rewrite bool_decide_false by done. rewrite (proj2 (Z.eqb_neq _ _)) by lia. rewrite (proj2 (Z.ltb_ge _ _)) by lia. by destruct p.
Qed.

(** A forwarded channel dials only when its payload is a well-formed request
    for a nonempty host and a port from 1 to 65535 and the policy allowed that
    very request with the address that is dialed: the host when it is an
    address, else the first address it resolves to; it opens exactly when the
    dial and the accept work, and without a policy nothing is resolved or
    dialed. *)
Theorem forward_authorized user principals data e asked dialed result : zlen data < 2 ^ 32 ->
  handleDirectTCPIP user principals data e = (asked, dialed, result) ->
  (forall target, dialed = Some target ->
    exists p tail ip authorize, data = direct_bytes p ++ tail /\ direct_ok p /\ f_authorize e = Some authorize /\
      (ParseIP (d_TargetHost p) = Some ip \/ (ParseIP (d_TargetHost p) = None /\ exists ips, f_lookup e (d_TargetHost p) = Some (ip :: ips))) /\
      let req := mkGateway (f_sessionID e) user principals (d_TargetHost p) (IP_String ip) (d_TargetPort p) (d_OriginatorHost p) (d_OriginatorPort p) in
      asked = Some req /\ authorize req = true /\ target = JoinHostPort (IP_String ip) (FormatUint 10 (d_TargetPort p))) /\
  (result = ForwardOpen <-> exists target, dialed = Some target /\ f_dial e target = true /\ f_accept e = true) /\
  (f_authorize e = None -> asked = None /\ dialed = None).
Proof.
  intros Hlen. unfold handleDirectTCPIP. destruct (parseDirectTCPIPPayload data) as [p|] eqn:Ep; [|intros [= <- <- <-]; split_and!; [done| |done]; split; [done|by intros (? & ? & _)]].
  apply parseDirect_iff in Ep as [Hok [tail Htail]]; [|done].
  destruct (f_authorize e) as [authorize|] eqn:Ea; [|intros [= <- <- <-]; split_and!; [done| |done]; split; [done|by intros (? & ? & _)]].
  destruct (resolveGatewayTarget (f_lookup e) (d_TargetHost p)) as [ip|] eqn:Er; [|intros [= <- <- <-]; split_and!; [done| |done]; split; [done|by intros (? & ? & _)]].
  assert (Hip : ParseIP (d_TargetHost p) = Some ip \/ (ParseIP (d_TargetHost p) = None /\ exists ips, f_lookup e (d_TargetHost p) = Some (ip :: ips))).
  { unfold resolveGatewayTarget in Er. destruct (ParseIP (d_TargetHost p)); [by left|]. right. split; [done|].
    destruct (f_lookup e (d_TargetHost p)) as [[|ip' ips]|]; [done| |done]. injection Er as ->. by exists ips. }
  clear Er. cbv zeta. set (req := mkGateway _ _ _ _ _ _ _ _). set (target := JoinHostPort _ _).
  destruct (authorize req) eqn:Eauth; cbn [negb]; [|intros [= <- <- <-]; split_and!; [done| |done]; split; [done|by intros (? & ? & _)]].
  assert (Hall : forall target', Some target = Some target' -> exists p tail ip authorize', data = direct_bytes p ++ tail /\ direct_ok p /\ Some authorize = Some authorize' /\
      (ParseIP (d_TargetHost p) = Some ip \/ (ParseIP (d_TargetHost p) = None /\ exists ips, f_lookup e (d_TargetHost p) = Some (ip :: ips))) /\
      let req' := mkGateway (f_sessionID e) user principals (d_TargetHost p) (IP_String ip) (d_TargetPort p) (d_OriginatorHost p) (d_OriginatorPort p) in
      Some req = Some req' /\ authorize' req' = true /\ target' = JoinHostPort (IP_String ip) (FormatUint 10 (d_TargetPort p))).
  { intros target' [= <-]. exists p, tail, ip, authorize. by split_and!. }
  destruct (f_dial e target) eqn:Ed; cbn [negb]; [destruct (f_accept e) eqn:Ec|]; intros [= <- <- <-]; (split_and!; [exact Hall| |done]).
  - split; [|done]. intros _. by exists target.
  - split; [done|]. by intros (? & _ & _ & ?).
  - split; [done|]. intros (t & [= <-] & ? & _). congruence.
Qed.

(** ** What a client's requests can do *)

Definition TERM : bytes := lit "TERM".
Definition shell : bytes := lit "shell".
(** The environment a client may give. *)
Definition client_env (k v : bytes) : Prop :=
  (k = TERM /\ v <> [] /\ zlen v <= 64 /\ forallb term_char v = true) \/ (k ∈ clientLocaleVars /\ validLocaleValue v = true).
Definition winsize_ok (e : ttyEffect) : Prop :=
  match e with EWinsize r c => 1 <= r <= 1000 /\ 1 <= c <= 1000 | ETermios _ => True | EOut _ => False end.
Definition only_size (e : ttyEffect) : Prop := match e with EWinsize _ _ => True | _ => False end.
Definition has_shell (reqs : list chanRequest) : bool := existsb (fun r => bool_decide (rq_Type r = shell)) reqs.

Ltac solve_eff := repeat split; intros; repeat (apply Forall_cons_2; [done|]); apply Forall_nil_2.

Section Confined.
Context `{Constants} `{SshWireLaws}.

Lemma clampDims_ok cols rows : 0 <= cols -> 0 <= rows ->
  let '(c, r) := clampDims cols rows in 1 <= r <= 1000 /\ 1 <= c <= 1000.
Proof.
  intros Hc Hr. unfold clampDims, maxPTYDim, wrapu. rewrite !Z.mod_small by (destruct (cols =? 0) eqn:?, (rows =? 0) eqn:?; lia).
  destruct (cols =? 0) eqn:E1, (rows =? 0) eqn:E2; lia.
Qed.

Lemma applyPTYRequest_effects setSize setModes payload ok eff : applyPTYRequest setSize setModes payload = (ok, eff) ->
  Forall winsize_ok eff /\ (setModes = None -> Forall only_size eff).
Proof.
  unfold applyPTYRequest. destruct (UnmarshalPty payload) as [req|] eqn:E; [|by intros [= <- <-]].
  apply pty_words in E as [Hc Hr]. destruct (maxTermLen <? _); [by intros [= <- <-]|]. destruct (ParseSSHModes _) as [modes|]; [|by intros [= <- <-]].
  destruct setSize; cbn [negb]; [|by intros [= <- <-]]. pose proof (clampDims_ok (p_Cols req) (p_Rows req) ltac:(lia) ltac:(lia)) as Hd.
  destruct (clampDims _ _) as [cols rows]. destruct setModes as [y|]; [|intros [= <- <-]; solve_eff].
  unfold applySSHModesFile. destruct modes as [|m modes]; [intros [= <- <-]; solve_eff|].
  destruct (y_termios y); [|intros [= <- <-]; solve_eff]. destruct (y_setT y); intros [= <- <-]; solve_eff.
Qed.

Lemma ptyTerm_ok payload : ptyTerm payload <> [] -> client_env TERM (ptyTerm payload).
Proof.
  unfold ptyTerm, maxTermLen. destruct (UnmarshalPty payload) as [req|]; [|done].
  destruct (bool_decide (p_Term req = []) || _) eqn:E; [done|]. bsimp. destruct (forallb term_char (p_Term req)) eqn:Ef; [|done].
  intros Hne. left. split_and!; (done || lia).
Qed.

Lemma request_step req started s ok eff started' s' : channelRequest req started s = (ok, eff, started', s') ->
  (started' = started || bool_decide (rq_Type req = shell)) /\
  (s' = s \/ (started = false /\ exists k v, client_env k v /\ SetEnv k v s = Ok s')) /\
  (ok = true -> rq_Type req ∈ (if started then [lit "pty-req"; lit "window-change"] else [shell; lit "pty-req"; lit "window-change"; lit "env"])) /\
  Forall winsize_ok eff /\ (started = true \/ rq_Type req <> lit "pty-req" -> Forall only_size eff).
Proof.
  unfold channelRequest. change (lit "shell") with shell.
  assert (Hin : forall x y l, x = y -> In y l -> x ∈ (l : list bytes)) by (intros x y l -> Hy; by apply list_elem_of_In).
  case_bool_decide as E1.
  { destruct started; intros [= <- <- <- <-]; (split_and!; [done|by left|try done|done|done]). intros _. eapply Hin; [exact E1|by left]. }
  case_bool_decide as E2.
  { destruct (handlePTYRequest started (rq_setSize req) (rq_tty req) (rq_Payload req)) as [ok1 eff1] eqn:Ep.
    apply applyPTYRequest_effects in Ep as [Hw Ho]. intros [= <- <- <- Hs]. split_and!.
    - by rewrite orb_false_r.
    - destruct (ok1 && negb started) eqn:Eok; [|by left]. bsimp. case_bool_decide as Et; [by left|].
      destruct (SetEnv (lit "TERM") (ptyTerm (rq_Payload req)) s) as [s1|] eqn:Es; [|by left]. right. split; [done|].
      exists TERM, (ptyTerm (rq_Payload req)). split; [by apply ptyTerm_ok|]. by subst.
    - intros _. destruct started; (eapply Hin; [exact E2|cbn; tauto]).
    - done.
    - intros [->|?]; [by apply Ho|done]. }
  case_bool_decide as E3.
  { unfold applyWindowChange. destruct (UnmarshalWindow (rq_Payload req)) as [w|] eqn:Ew.
    - apply window_words in Ew as [Hc Hr]. pose proof (clampDims_ok (w_Cols w) (w_Rows w) ltac:(lia) ltac:(lia)) as Hd.
      destruct (clampDims _ _) as [cols rows]. destruct (rq_setSize req); intros [= <- <- <- <-];
        (split_and!; [by rewrite orb_false_r|by left|try done|solve_eff|intros _; solve_eff]).
      intros _. destruct started; (eapply Hin; [exact E3|cbn; tauto]).
    - intros [= <- <- <- <-]. split_and!; [by rewrite orb_false_r|by left|done|done|done]. }
  case_bool_decide as E4; [|intros [= <- <- <- <-]; split_and!; [by rewrite orb_false_r|by left|done|done|done]].
  destruct started; [intros [= <- <- <- <-]; split_and!; [done|by left|done|done|done]|].
  unfold acceptClientLocale. destruct (UnmarshalEnv (rq_Payload req)) as [[name value]|]; [|intros [= <- <- <- <-]; split_and!; [done|by left|done|done|done]].
  destruct (negb (bool_decide (name ∈ clientLocaleVars)) || negb (validLocaleValue value)) eqn:Eb;
    [intros [= <- <- <- <-]; split_and!; [done|by left|done|done|done]|]. bsimp.
  destruct (SetEnv name value s) as [s1|] eqn:Es; intros [= <- <- <- <-]; [|split_and!; [done|by left|done|done|done]]. split_and!; try done.
  - right. split; [done|]. exists name, value. split; [by right|done].
  - intros _. eapply Hin; [exact E4|cbn; tauto].
Qed.

Lemma SetEnv_same k v s s' : SetEnv k v s = Ok s' -> s' = set_envOverlay (<[k := v]> (s_envOverlay s)) s.
Proof. unfold SetEnv. repeat (case_match; try done). by intros [= <-]. Qed.

(** What the loop has done when it ends, from any of its states. *)
Lemma requests_run reqs : forall started s,
  let '(out, started', s') := channelRequests reqs started s in
  (started' = started || has_shell reqs) /\
  (started = true -> s' = s) /\
  (s' = set_envOverlay (s_envOverlay s') s) /\
  (forall k v, s_envOverlay s' !! k = Some v -> s_envOverlay s !! k = Some v \/ client_env k v) /\
  length out = length reqs.
Proof.
  induction reqs as [|req reqs IH]; intros started s; cbn [channelRequests].
  { split_and!; try done; [by rewrite orb_false_r|by destruct s|by left]. }
  destruct (channelRequest req started s) as [[[ok eff] started1] s1] eqn:E. apply request_step in E as (-> & Hs & _).
  specialize (IH (started || bool_decide (rq_Type req = shell)) s1). destruct (channelRequests reqs _ s1) as [[out started2] s2].
  destruct IH as (-> & Hsame & Hover & Hfrom & Hlen). cbn [has_shell existsb length]. split_and!; [by rewrite orb_assoc| | | |by rewrite Hlen].
  - intros ->. rewrite Hsame by done. by destruct Hs as [->|[? _]].
  - destruct Hs as [->|(_ & k & v & _ & Hset)]; [done|]. apply SetEnv_same in Hset. rewrite Hover at 1. rewrite Hset. done.
  - intros k v Hk. destruct (Hfrom k v Hk) as [Hk1|]; [|by right]. destruct Hs as [->|(_ & k' & v' & Hc & Hset)]; [by left|].
    apply SetEnv_same in Hset as ->. cbn in Hk1. destruct (decide (k' = k)) as [->|Hne].
    + rewrite lookup_insert_eq in Hk1. injection Hk1 as <-. by right.
    + rewrite lookup_insert_ne in Hk1 by done. by left.
Qed.

Lemma requests_app pre reqs started s :
  channelRequests (pre ++ reqs) started s =
  let '(out1, started1, s1) := channelRequests pre started s in
  let '(out2, started2, s2) := channelRequests reqs started1 s1 in (out1 ++ out2, started2, s2).
Proof.
  revert started s. induction pre as [|req pre IH]; intros started s; cbn [app channelRequests].
  { by destruct (channelRequests reqs started s) as [[? ?] ?]. }
  destruct (channelRequest req started s) as [[[ok eff] started1] s1]. rewrite IH.
  destruct (channelRequests pre started1 s1) as [[out1 started2] s2]. by destruct (channelRequests reqs started2 s2) as [[out2 started3] s3].
Qed.

(** C21: Whatever requests a client sends on a session channel, only shell,
    pty-req, window-change and env can succeed, and after the first shell only
    pty-req and window-change; the session object changes only in its
    environment, which holds nothing but a plain TERM and plain locale values
    and is frozen by the shell; every window size set is between 1 and 1000 a
    side, and terminal modes are set by a pty-req before the shell only. *)
Theorem channel_requests_confined reqs s0 : s_envOverlay s0 = ∅ ->
  let '(out, started, s) := channelRequests reqs false s0 in
  started = has_shell reqs /\ (s = set_envOverlay (s_envOverlay s) s0) /\
  (forall k v, s_envOverlay s !! k = Some v -> client_env k v) /\
  (forall pre post, reqs = pre ++ post -> has_shell pre = true -> s = snd (channelRequests pre false s0)) /\
  (forall pre req post, reqs = pre ++ req :: post -> exists ok eff, nth_error out (length pre) = Some (ok, eff) /\
    (ok = true -> rq_Type req ∈ (if has_shell pre then [lit "pty-req"; lit "window-change"] else [shell; lit "pty-req"; lit "window-change"; lit "env"])) /\
    Forall winsize_ok eff /\ (has_shell pre = true \/ rq_Type req <> lit "pty-req" -> Forall only_size eff)).
Proof.
  intros Hempty. pose proof (requests_run reqs false s0) as Hrun. destruct (channelRequests reqs false s0) as [[out started] s] eqn:Eall.
  destruct Hrun as (-> & _ & Hover & Hfrom & _). split_and!; [done|done| | |].
  - intros k v Hk. destruct (Hfrom k v Hk) as [Hk0|]; [|done]. by rewrite Hempty, lookup_empty in Hk0.
  - intros pre post -> Hsh. rewrite requests_app in Eall. pose proof (requests_run pre false s0) as Hpre.
    destruct (channelRequests pre false s0) as [[out1 started1] s1]. destruct Hpre as (-> & _).
    pose proof (requests_run post (false || has_shell pre) s1) as Hpost. destruct (channelRequests post _ s1) as [[out2 started2] s2].
    injection Eall as _ _ <-. by destruct Hpost as (_ & -> & _).
  - intros pre req post ->. rewrite requests_app in Eall. pose proof (requests_run pre false s0) as Hpre.
    destruct (channelRequests pre false s0) as [[out1 started1] s1]. destruct Hpre as (-> & _ & _ & _ & Hlen). cbn [orb channelRequests] in Eall.
    destruct (channelRequest req (has_shell pre) s1) as [[[ok eff] started2] s2] eqn:E. destruct (channelRequests post started2 s2) as [[out3 started3] s3].
    injection Eall as <- _ _. exists ok, eff. apply request_step in E as (_ & _ & H3 & H4 & H5). rewrite <- Hlen.
    split_and!; [by rewrite nth_error_app2, Nat.sub_diag by done|done|done|done].
Qed.
End Confined.

(** ** The daemon *)

(** What [EnableSSHWithOptions] finds when it is called. *)
Record enableEnv := mkEnable {
  en_running : bool; en_euid : Z; en_guard : option service; en_host : host; en_keys : readAnswer;
  en_stat : option fileStat; en_revoked : option bytes; en_hostKey : bool; en_listen : bool }.
Inductive enableErr := AlreadyRunning | NotRoot | GuardNotReady (e : err) | CapInvalid | KeysUnread (e : bytes) | NoKeys | RevokedUnread
  | HostKeyFails | ListenFails | NotRunning.
(** [SessionCapReady]. *)
Definition SessionCapReady (h : host) : bool := negb (sessionCapRefuse h).

Definition EnableSSHWithOptions (opts : SSHServerOptions) (e : enableEnv) `{SshKeys} : result enableErr authorizedKeySet :=
  if en_running e then Err AlreadyRunning
  else if negb (en_euid e =? 0) then Err NotRoot
  else match Ready (en_guard e) with
  | Some er => Err (GuardNotReady er)
  | None =>
      if negb (SessionCapReady (en_host e)) then Err CapInvalid
      else match loadAuthorizedKeys (en_keys e) with
      | Err m => Err (KeysUnread m)
      | Ok keys =>
          if keys_empty keys then Err NoKeys
          else if negb (bool_decide (RevokedKeysPath opts = [])) &&
                  match fst (SshAuth.current (en_stat e) (en_revoked e) newRevocationChecker) with None => true | Some _ => false end
          then Err RevokedUnread
          else if negb (en_hostKey e) then Err HostKeyFails
          else if negb (en_listen e) then Err ListenFails
          else Ok keys
      end
  end.
Definition EnableSSH (e : enableEnv) `{SshKeys} : result enableErr authorizedKeySet := EnableSSHWithOptions (mkSshOpts false [] None) e.
(** The checker that the callback of these options starts with. *)
Definition first_checker (opts : SSHServerOptions) : option revocationChecker :=
  if bool_decide (RevokedKeysPath opts = []) then None else Some newRevocationChecker.

Definition maxSessionsPerConn : Z := 4.
Definition maxSessionsPerUser : Z := 8.
Definition maxDirectTCPIPPerConn : Z := 16.
Definition preAuthSlots : Z := 64.

(** A semaphore channel of capacity [cap] with [held] tokens in it. *)
Definition trySlot (cap held : Z) : option Z := if held <? cap then Some (held + 1) else None.

Definition users_at (users : gmap bytes Z) (name : bytes) : Z := default 0 (users !! name).
Definition acquireUserSession (name : bytes) (limit : Z) (users : gmap bytes Z) : bool * gmap bytes Z :=
  if (0 <? limit) && (limit <=? users_at users name) then (false, users)
  else (true, <[name := users_at users name + 1]> users).
Definition releaseUserSession (name : bytes) (users : gmap bytes Z) : gmap bytes Z :=
  if users_at users name <=? 1 then delete name users else <[name := users_at users name - 1]> users.

(** A connection in its handshake, with the answers of the public key callback
    that accepted: the library ends a handshake with the permissions of the
    one whose key the client proved. *)
Record shake := mkShake { h_peer : bytes; h_accepted : list (bytes * PublicKey * Permissions) }.
Record connection := mkConn {
  k_peer : bytes; k_user : bytes; k_principals : list bytes; k_open : bool; k_sessionSlots : Z; k_tcpSlots : Z }.
(** A session channel: its slots are taken and it is being set up; it is
    registered and waits for a shell; its process runs; it is unregistered and
    its slots are to be released. *)
Inductive phase := Opening | Waiting | Running | Closing.
#[export] Instance phase_eq_dec : EqDecision phase.
Proof. solve_decision. Defined.
Record channel := mkChan {
  c_conn : Z; c_name : bytes; c_phase : phase; c_session : bytes; c_started : bool; c_requestsDone : bool }.

Record listener := mkListener {
  l_listening : bool; l_guard : option service; l_checker : option revocationChecker; l_slots : Z; l_shakes : gmap Z shake;
  l_records : records; l_fails : failTable; l_conns : gmap Z connection; l_users : gmap bytes Z; l_chans : gmap Z channel;
  l_forwards : gmap Z Z; l_reg : registry; l_ledger : list bytes; l_started : list (bytes * bytes * list bytes) }.

Definition set_listening (v : bool) (l : listener) : listener :=
  mkListener v (l_guard l) (l_checker l) (l_slots l) (l_shakes l) (l_records l) (l_fails l) (l_conns l) (l_users l) (l_chans l) (l_forwards l) (l_reg l) (l_ledger l) (l_started l).
Definition set_guard (v : option service) (l : listener) : listener :=
  mkListener (l_listening l) v (l_checker l) (l_slots l) (l_shakes l) (l_records l) (l_fails l) (l_conns l) (l_users l) (l_chans l) (l_forwards l) (l_reg l) (l_ledger l) (l_started l).
Definition set_checker (v : option revocationChecker) (l : listener) : listener :=
  mkListener (l_listening l) (l_guard l) v (l_slots l) (l_shakes l) (l_records l) (l_fails l) (l_conns l) (l_users l) (l_chans l) (l_forwards l) (l_reg l) (l_ledger l) (l_started l).
Definition set_shakes (n : Z) (v : gmap Z shake) (l : listener) : listener :=
  mkListener (l_listening l) (l_guard l) (l_checker l) n v (l_records l) (l_fails l) (l_conns l) (l_users l) (l_chans l) (l_forwards l) (l_reg l) (l_ledger l) (l_started l).
Definition set_records (v : records) (l : listener) : listener :=
  mkListener (l_listening l) (l_guard l) (l_checker l) (l_slots l) (l_shakes l) v (l_fails l) (l_conns l) (l_users l) (l_chans l) (l_forwards l) (l_reg l) (l_ledger l) (l_started l).
Definition set_fails (v : failTable) (l : listener) : listener :=
  mkListener (l_listening l) (l_guard l) (l_checker l) (l_slots l) (l_shakes l) (l_records l) v (l_conns l) (l_users l) (l_chans l) (l_forwards l) (l_reg l) (l_ledger l) (l_started l).
Definition set_conns (v : gmap Z connection) (l : listener) : listener :=
  mkListener (l_listening l) (l_guard l) (l_checker l) (l_slots l) (l_shakes l) (l_records l) (l_fails l) v (l_users l) (l_chans l) (l_forwards l) (l_reg l) (l_ledger l) (l_started l).
Definition set_users (v : gmap bytes Z) (l : listener) : listener :=
  mkListener (l_listening l) (l_guard l) (l_checker l) (l_slots l) (l_shakes l) (l_records l) (l_fails l) (l_conns l) v (l_chans l) (l_forwards l) (l_reg l) (l_ledger l) (l_started l).
Definition set_chans (v : gmap Z channel) (l : listener) : listener :=
  mkListener (l_listening l) (l_guard l) (l_checker l) (l_slots l) (l_shakes l) (l_records l) (l_fails l) (l_conns l) (l_users l) v (l_forwards l) (l_reg l) (l_ledger l) (l_started l).
Definition set_forwards (v : gmap Z Z) (l : listener) : listener :=
  mkListener (l_listening l) (l_guard l) (l_checker l) (l_slots l) (l_shakes l) (l_records l) (l_fails l) (l_conns l) (l_users l) (l_chans l) v (l_reg l) (l_ledger l) (l_started l).
Definition set_reg (v : registry) (l : listener) : listener :=
  mkListener (l_listening l) (l_guard l) (l_checker l) (l_slots l) (l_shakes l) (l_records l) (l_fails l) (l_conns l) (l_users l) (l_chans l) (l_forwards l) v (l_ledger l) (l_started l).
Definition add_ledger (e : bytes) (l : listener) : listener :=
  mkListener (l_listening l) (l_guard l) (l_checker l) (l_slots l) (l_shakes l) (l_records l) (l_fails l) (l_conns l) (l_users l) (l_chans l) (l_forwards l) (l_reg l) (l_ledger l ++ [e]) (l_started l).
Definition add_started (v : bytes * bytes * list bytes) (l : listener) : listener :=
  mkListener (l_listening l) (l_guard l) (l_checker l) (l_slots l) (l_shakes l) (l_records l) (l_fails l) (l_conns l) (l_users l) (l_chans l) (l_forwards l) (l_reg l) (l_ledger l) (l_started l ++ [v]).
Definition set_slots (ks kt : Z) (c : connection) : connection := mkConn (k_peer c) (k_user c) (k_principals c) (k_open c) ks kt.
Definition set_phase (p : phase) (c : channel) : channel := mkChan (c_conn c) (c_name c) p (c_session c) (c_started c) (c_requestsDone c).

(** ** The operations

    Each is what one goroutine does between two points where others can run. *)

Section Listener.
Context `{Constants} `{SshWire} `{SshKeys} `{Decoders}.
(** The keys and options the daemon was started with, the limits of the host
    and the session recorder. *)
Variable keys : authorizedKeySet.
Variable opts : SSHServerOptions.
Variable limits : host.
Variable startRec : Session -> option (Z * bytes).

(** [hook] is what the audit hook answers now, where there is one. *)
Definition audited (hook : bytes -> bool) (event : bytes) (l : listener) : bool * listener :=
  let ok := auditSSH (match Audit opts with Some _ => Some hook | None => None end) event in
  (ok, match Audit opts with Some _ => if ok then add_ledger event l else l | None => l end).

(** [handleSSHConnection] to the start of the handshake; [c] names the
    connection. *)
Definition acceptConn (c : Z) (peer : bytes) (ge : Guard.env) (l : listener) : listener :=
  if negb (l_listening l) || bool_decide (is_Some (l_shakes l !! c)) || bool_decide (is_Some (l_conns l !! c)) then l
  else
    let '(decision, _, svc, _) := Admit ge peer (l_guard l) in
    let l := set_guard svc l in
    if negb (Allow decision) then l
    else match trySlot preAuthSlots (l_slots l) with
    | None => l
    | Some n => set_records (beginAuthRecord peer (l_records l)) (set_shakes n (<[c := mkShake peer []]> (l_shakes l)) l)
    end.

(** A key that the client offers in its handshake. *)
Definition offerKey (c : Z) (user : bytes) (key : PublicKey) (env : loginEnv) (l : listener) : listener :=
  match l_shakes l !! c with
  | None => l
  | Some h =>
      let '(res, notes, checker) := publicKeyCallback keys opts env user key (l_checker l) in
      let l := set_checker checker (set_records (foldl (fun rs fp => noteAuthKey (h_peer h) fp rs) (l_records l) notes) l) in
      match res with
      | Some perms => set_shakes (l_slots l) (<[c := mkShake (h_peer h) (h_accepted h ++ [(user, key, perms)])]> (l_shakes l)) l
      | None => l
      end
  end.
Definition logAttempt (c : Z) (user method : bytes) (err : option bytes) (l : listener) : listener :=
  match l_shakes l !! c with
  | None => l
  | Some h => set_records (authLogCallback (h_peer h) user method err (l_records l)) l
  end.

(** The return of [handshake]: the slot and the record are given back. *)
Definition endShake (c : Z) (peer : bytes) (l : listener) : listener :=
  set_records (endAuthRecord peer (l_records l)) (set_shakes (l_slots l - 1) (delete c (l_shakes l)) l).
Definition noteShake (ge : Guard.env) (peer : bytes) (ok : bool) (l : listener) : listener :=
  let '(_, svc, _) := NoteHandshake ge peer ok (l_guard l) in set_guard svc l.
Definition shakeFails (c : Z) (ge : Guard.env) (now : Z) (hook : bytes -> bool) (l : listener) : listener :=
  match l_shakes l !! c with
  | None => l
  | Some h =>
      let rec := default new_record (l_records l !! h_peer h) in
      let l := noteShake ge (h_peer h) false (endShake c (h_peer h) l) in
      let '(event, fails) := recordLoginFailure now (h_peer h) rec (l_fails l) in
      let l := set_fails fails l in
      match event with Some event => snd (audited hook event l) | None => l end
  end.
(** The handshake succeeds with the [n]th accepted key. *)
Definition shakeDone (c : Z) (n : nat) (client : bytes) (ge : Guard.env) (hook : bytes -> bool) (l : listener) : listener :=
  match l_shakes l !! c with
  | None => l
  | Some h =>
      match h_accepted h !! n with
      | None => l
      | Some (user, _, perms) =>
          let l := noteShake ge (h_peer h) true (endShake c (h_peer h) l) in
          let '(ok, l) := audited hook (loginOKEvent (h_peer h) user client perms) l in
          if negb ok then l
          else match principalsFromPermissions (Some perms) with
          | Err _ => l
          | Ok principals => set_conns (<[c := mkConn (h_peer h) user principals true 0 0]> (l_conns l)) l
          end
      end
  end.

(** A forwarded channel: its slot, then [handleDirectTCPIP] in a goroutine of
    its own, and the return of that. *)
Definition openForward (c f : Z) (l : listener) : listener :=
  match l_conns l !! c with
  | None => l
  | Some k =>
      if negb (k_open k) || bool_decide (is_Some (l_forwards l !! f)) then l
      else match trySlot (Z.max maxDirectTCPIPPerConn 1) (k_tcpSlots k) with
      | None => l
      | Some n => set_forwards (<[f := c]> (l_forwards l)) (set_conns (<[c := set_slots (k_sessionSlots k) n k]> (l_conns l)) l)
      end
  end.
Definition endForward (f : Z) (l : listener) : listener :=
  match l_forwards l !! f with
  | None => l
  | Some c =>
      match l_conns l !! c with
      | None => l
      | Some k => set_forwards (delete f (l_forwards l)) (set_conns (<[c := set_slots (k_sessionSlots k) (k_tcpSlots k - 1) k]> (l_conns l)) l)
      end
  end.
Definition runForward (f : Z) (data : bytes) (e : forwardEnv) (l : listener) : listener :=
  match l_forwards l !! f with
  | None => l
  | Some c =>
      match l_conns l !! c with
      | None => l
      | Some k =>
          match snd (handleDirectTCPIP (k_user k) (k_principals k) data e) with
          | ForwardOpen => l
          | _ => endForward f l
          end
      end
  end.

(** A session channel. *)
Definition openSession (c ch : Z) (l : listener) : listener :=
  match l_conns l !! c with
  | None => l
  | Some k =>
      if negb (k_open k) || bool_decide (is_Some (l_chans l !! ch)) then l
      else match trySlot (Z.max maxSessionsPerConn 1) (k_sessionSlots k) with
      | None => l
      | Some n =>
          match acquireUserSession (k_user k) maxSessionsPerUser (l_users l) with
          | (false, _) => l
          | (true, users) =>
              set_users users (set_chans (<[ch := mkChan c (k_user k) Opening [] false false]> (l_chans l))
                (set_conns (<[c := set_slots n (k_tcpSlots k) k]> (l_conns l)) l))
          end
      end
  end.
Definition to_phase (ch : Z) (p : phase) (l : listener) : listener := set_chans (alter (set_phase p) ch (l_chans l)) l.

Definition RequireResolvableSSHUser (lookup : bytes -> option bytes) (name : bytes) : bool :=
  negb (bool_decide (name = [])) && bool_decide (is_Some (lookup name)).
(** The session object of a channel, which writes to the channel. *)
Definition newSession (ch : Z) (id user : bytes) (principals : list bytes) : Session :=
  mkSession id user principals 0 [] (Some [ch]) 0 [] false None true false None None [] [] None ∅ true None [] [].
(** [serveSessionChannel] to its goroutines: the login is looked up, the
    channel accepted, a pty opened, the session registered. *)
Definition setupSession (ch : Z) (id : bytes) (lookup : bytes -> option bytes) (accepts pty : bool) (now : Z) (l : listener) : listener :=
  match l_chans l !! ch with
  | Some c =>
      if negb (bool_decide (c_phase c = Opening)) then l
      else match l_conns l !! c_conn c with
      | None => l
      | Some k =>
          if negb (RequireResolvableSSHUser lookup (c_name c)) || negb accepts || negb pty then to_phase ch Closing l
          else match RegisterSession startRec now (newSession ch id (c_name c) (k_principals k)) limits (l_reg l) with
          | Err _ => to_phase ch Closing l
          | Ok r =>
              set_reg (reg_step startRec limits (OnSession id now (OpPrompt (Some ch))) r)
                (set_chans (<[ch := mkChan (c_conn c) (c_name c) Waiting id false false]> (l_chans l)) l)
          end
      end
  | None => l
  end.

(** One request; those that come after the channel is closed reach a closed
    pty and an unregistered session. *)
Definition requestOn (ch : Z) (req : chanRequest) (l : listener) : listener :=
  match l_chans l !! ch with
  | Some c =>
      if negb (bool_decide (c_phase c = Waiting) || bool_decide (c_phase c = Running)) || c_requestsDone c then l
      else match GetSession (c_session c) (l_reg l) with
      | None => l
      | Some s =>
          let '(_, _, started, s) := channelRequest req (c_started c) s in
          set_reg (mkReg (<[c_session c := s]> (globalSessions (l_reg l))) (unregisterHooks (l_reg l)) (unregisterHookSeq (l_reg l)))
            (set_chans (<[ch := mkChan (c_conn c) (c_name c) (c_phase c) (c_session c) started (c_requestsDone c)]> (l_chans l)) l)
      end
  | None => l
  end.
Definition requestsEnd (ch : Z) (l : listener) : listener :=
  set_chans (alter (fun c => mkChan (c_conn c) (c_name c) (c_phase c) (c_session c) (c_started c) true) ch (l_chans l)) l.

(** The first deferred call of the session goroutine. *)
Definition unregister (ch : Z) (c : channel) (l : listener) : listener :=
  to_phase ch Closing (set_reg (snd (UnregisterSession (c_session c) (l_reg l))) l).
Definition startEvent (id name peer : bytes) : bytes :=
  lit "SSH_SESSION_START session=" ++ id ++ lit " user=" ++ q name ++ lit " addr=" ++ peer.
Definition endEvent (id name peer : bytes) (code : Z) (reason duration : bytes) : bytes :=
  lit "SSH_SESSION_END session=" ++ id ++ lit " user=" ++ q name ++ lit " addr=" ++ peer
  ++ lit " exit=" ++ lit (pretty code) ++ lit " reason=" ++ reason ++ lit " duration=" ++ duration.

(** A shell was asked for: the record, then the process. *)
Definition startSession (ch : Z) (hook : bytes -> bool) (l : listener) : listener :=
  match l_chans l !! ch with
  | Some c =>
      if negb (bool_decide (c_phase c = Waiting) && c_started c) then l
      else match l_conns l !! c_conn c with
      | None => l
      | Some k =>
          let '(ok, l) := audited hook (startEvent (c_session c) (c_name c) (k_peer k)) l in
          if ok then add_started (c_session c, c_name c, k_principals k) (to_phase ch Running l) else unregister ch c l
      end
  | None => l
  end.
(** The requests ended without a shell. *)
Definition abandonSession (ch : Z) (l : listener) : listener :=
  match l_chans l !! ch with
  | Some c => if bool_decide (c_phase c = Waiting) && c_requestsDone c && negb (c_started c) then unregister ch c l else l
  | None => l
  end.
(** The process ended. *)
Definition endSession (ch : Z) (err : exitInfo) (duration : bytes) (hook : bytes -> bool) (l : listener) : listener :=
  match l_chans l !! ch with
  | Some c =>
      if negb (bool_decide (c_phase c = Running)) then l
      else match l_conns l !! c_conn c with
      | None => l
      | Some k =>
          let '(code, reason) := sessionEndReason err in
          unregister ch c (snd (audited hook (endEvent (c_session c) (c_name c) (k_peer k) code reason duration) l))
      end
  | None => l
  end.
(** [release]. *)
Definition releaseSession (ch : Z) (l : listener) : listener :=
  match l_chans l !! ch with
  | Some c =>
      if negb (bool_decide (c_phase c = Closing)) then l
      else match l_conns l !! c_conn c with
      | None => l
      | Some k =>
          set_users (releaseUserSession (c_name c) (l_users l)) (set_chans (delete ch (l_chans l))
            (set_conns (<[c_conn c := set_slots (k_sessionSlots k - 1) (k_tcpSlots k) k]> (l_conns l)) l))
      end
  | None => l
  end.

(** The channels of a connection end. *)
Definition dropConn (c : Z) (l : listener) : listener :=
  set_conns (alter (fun k => mkConn (k_peer k) (k_user k) (k_principals k) false (k_sessionSlots k) (k_tcpSlots k)) c (l_conns l)) l.

Definition StopAcceptingSSH (l : listener) : option enableErr * listener :=
  if l_listening l then (None, set_listening false l) else (Some NotRunning, l).
Definition DisableSSH (euid : Z) (l : listener) : option enableErr * listener :=
  if negb (euid =? 0) then (Some NotRoot, l) else StopAcceptingSSH l.

Inductive listener_op :=
| LAccept (c : Z) (peer : bytes) (ge : Guard.env)
| LOffer (c : Z) (user : bytes) (key : PublicKey) (env : loginEnv)
| LAttempt (c : Z) (user method : bytes) (err : option bytes)
| LShakeFails (c : Z) (ge : Guard.env) (now : Z) (hook : bytes -> bool)
| LShakeDone (c : Z) (n : nat) (client : bytes) (ge : Guard.env) (hook : bytes -> bool)
| LOpenForward (c f : Z) | LRunForward (f : Z) (data : bytes) (e : forwardEnv) | LEndForward (f : Z)
| LOpenSession (c ch : Z)
| LSetup (ch : Z) (id : bytes) (lookup : bytes -> option bytes) (accepts pty : bool) (now : Z)
| LRequest (ch : Z) (req : chanRequest) | LRequestsEnd (ch : Z)
| LStart (ch : Z) (hook : bytes -> bool) | LAbandon (ch : Z)
| LEnd (ch : Z) (err : exitInfo) (duration : bytes) (hook : bytes -> bool) | LRelease (ch : Z)
| LDrop (c : Z) | LStop | LDisable (euid : Z)
| LSession (id : bytes) (now : Z) (op : session_op).

Definition listener_step (op : listener_op) (l : listener) : listener :=
  match op with
  | LAccept c peer ge => acceptConn c peer ge l
  | LOffer c user key env => offerKey c user key env l
  | LAttempt c user method err => logAttempt c user method err l
  | LShakeFails c ge now hook => shakeFails c ge now hook l
  | LShakeDone c n client ge hook => shakeDone c n client ge hook l
  | LOpenForward c f => openForward c f l
  | LRunForward f data e => runForward f data e l
  | LEndForward f => endForward f l
  | LOpenSession c ch => openSession c ch l
  | LSetup ch id lookup accepts pty now => setupSession ch id lookup accepts pty now l
  | LRequest ch req => requestOn ch req l
  | LRequestsEnd ch => requestsEnd ch l
  | LStart ch hook => startSession ch hook l
  | LAbandon ch => abandonSession ch l
  | LEnd ch err duration hook => endSession ch err duration hook l
  | LRelease ch => releaseSession ch l
  | LDrop c => dropConn c l
  | LStop => snd (StopAcceptingSSH l)
  | LDisable euid => snd (DisableSSH euid l)
  | LSession id now op => set_reg (reg_step startRec limits (OnSession id now op) (l_reg l)) l
  end.
Definition listener_run (ops : list listener_op) (l : listener) : listener := foldl (fun l op => listener_step op l) l ops.
(** What [EnableSSHWithOptions] starts. *)
Definition newListener (guard : option service) (fails : failTable) (reg : registry) (ledger : list bytes) : listener :=
  mkListener true guard (first_checker opts) 0 ∅ ∅ fails ∅ ∅ ∅ ∅ reg ledger [].
End Listener.

(** ** Slots *)

Section Count.
Context {A : Type}.
Definition count (P : A -> bool) (m : gmap Z A) : Z := Z.of_nat (size (filter (fun kv : Z * A => P (snd kv) = true) m)).

Lemma count_empty P : count P ∅ = 0.
Proof. unfold count. by rewrite map_filter_empty, map_size_empty. Qed.
Lemma count_nonneg P m : 0 <= count P m.
Proof. unfold count. lia. Qed.
Lemma count_insert_new P m i x : m !! i = None -> count P (<[i := x]> m) = count P m + (if P x then 1 else 0).
Proof.
  intros Hi. unfold count. destruct (P x) eqn:E.
  - rewrite map_filter_insert_True by done. rewrite map_size_insert_None by (apply map_lookup_filter_None; by left). lia.
  - rewrite map_filter_insert_False by (cbn; congruence). rewrite delete_id by done. lia.
Qed.
Lemma count_delete P m i x : m !! i = Some x -> count P (delete i m) = count P m - (if P x then 1 else 0).
Proof.
  intros Hi. assert (Hd : delete i m !! i = None) by apply lookup_delete_eq. pose proof (count_insert_new P _ i x Hd) as Hc.
  rewrite insert_delete_id in Hc by done. lia.
Qed.
Lemma count_update P m i x y : m !! i = Some x -> P y = P x -> count P (<[i := y]> m) = count P m.
Proof.
  intros Hi He. assert (Hd : delete i m !! i = None) by apply lookup_delete_eq. pose proof (count_insert_new P _ i y Hd) as Hc.
  rewrite insert_delete_eq in Hc. rewrite Hc, (count_delete P m i x Hi), He. lia.
Qed.
Lemma count_alter P f i m : (forall x, P (f x) = P x) -> count P (alter f i m) = count P m.
Proof.
  intros Hf. destruct (m !! i) as [x|] eqn:Hi.
  - rewrite <- (insert_id m i x Hi) at 1. rewrite alter_insert. rewrite decide_True by done. by apply (count_update P m i x).
  - f_equal. apply map_eq. intros j. destruct (decide (i = j)) as [->|Hne]; [by rewrite lookup_alter_eq, Hi|by rewrite lookup_alter_ne].
Qed.
Lemma count_pos P m i x : m !! i = Some x -> P x = true -> 1 <= count P m.
Proof. intros Hi Hp. pose proof (count_delete P m i x Hi) as Hd. rewrite Hp in Hd. pose proof (count_nonneg P (delete i m)). lia. Qed.
End Count.

Definition of_conn (c : Z) (ch : channel) : bool := c_conn ch =? c.
Definition of_user (name : bytes) (ch : channel) : bool := bool_decide (c_name ch = name).

(** Every semaphore and counter holds what is in use, within its cap. *)
Record tables_ok (conns : gmap Z connection) (users : gmap bytes Z) (chans : gmap Z channel) (forwards : gmap Z Z) : Prop := {
  chan_conn : forall ch c, chans !! ch = Some c -> exists k, conns !! c_conn c = Some k /\ k_user k = c_name c;
  forward_conn : forall f c, forwards !! f = Some c -> is_Some (conns !! c);
  conn_slots : forall c k, conns !! c = Some k ->
    k_sessionSlots k = count (of_conn c) chans /\ k_sessionSlots k <= 4 /\ k_tcpSlots k = count (Z.eqb c) forwards /\ k_tcpSlots k <= 16;
  user_slots : forall name, users_at users name = count (of_user name) chans /\ users_at users name <= 8;
  user_used : forall name n, users !! name = Some n -> 1 <= n }.
Definition slots_ok (l : listener) : Prop :=
  l_slots l = Z.of_nat (size (l_shakes l)) /\ l_slots l <= 64 /\ tables_ok (l_conns l) (l_users l) (l_chans l) (l_forwards l).

(** A connection changed in what the counts do not see. *)
Lemma tables_conn_same conns users chans forwards c k k' : tables_ok conns users chans forwards -> conns !! c = Some k ->
  k_user k' = k_user k -> k_sessionSlots k' = k_sessionSlots k -> k_tcpSlots k' = k_tcpSlots k -> tables_ok (<[c := k']> conns) users chans forwards.
Proof.
  intros [H1 H2 H3 H4 H5] Hk Hu Hs Ht. split; try done.
  - intros ch x Hx. destruct (H1 ch x Hx) as (kx & Hkx & Hux). destruct (decide (c = c_conn x)) as [->|Hne].
    + exists k'. rewrite lookup_insert_eq. split; [done|]. congruence.
    + exists kx. by rewrite lookup_insert_ne.
  - intros f x Hx. destruct (decide (c = x)) as [->|Hne]; [rewrite lookup_insert_eq; by eexists|rewrite lookup_insert_ne by done; by eapply H2].
  - intros x kx Hx. destruct (decide (c = x)) as [->|Hne].
    + rewrite lookup_insert_eq in Hx. injection Hx as <-. rewrite Hs, Ht. by apply H3.
    + rewrite lookup_insert_ne in Hx by done. by apply H3.
Qed.

Lemma tables_new_conn conns users chans forwards c k : tables_ok conns users chans forwards -> conns !! c = None ->
  k_sessionSlots k = 0 -> k_tcpSlots k = 0 -> tables_ok (<[c := k]> conns) users chans forwards.
Proof.
  intros [H1 H2 H3 H4 H5] Hn Hs Ht. split; try done.
  - intros ch x Hx. destruct (H1 ch x Hx) as (kx & Hkx & Hux). exists kx. rewrite lookup_insert_ne; [done|]. congruence.
  - intros f x Hx. destruct (H2 f x Hx) as [kx Hkx]. exists kx. rewrite lookup_insert_ne; [done|]. congruence.
  - intros x kx Hx. destruct (decide (c = x)) as [->|Hne]; [|rewrite lookup_insert_ne in Hx by done; by apply H3].
    rewrite lookup_insert_eq in Hx. injection Hx as <-. rewrite Hs, Ht.
    assert (Hz : forall {A} (P : A -> bool) (m : gmap Z A), (forall i y, m !! i = Some y -> P y = false) -> count P m = 0).
    { intros A P m Hm. unfold count. assert (filter (fun kv : Z * A => P (snd kv) = true) m = ∅) as ->; [|by rewrite map_size_empty].
      apply map_empty. intros i. apply map_lookup_filter_None. right. intros y Hy. cbn. by rewrite (Hm i y Hy). }
    rewrite !Hz; [split_and!; (done || lia)| |].
    + intros f y Hy. apply Z.eqb_neq. intros ->. destruct (H2 f y Hy) as [? ?]. congruence.
    + intros i y Hy. apply Z.eqb_neq. intros <-. destruct (H1 i y Hy) as (? & ? & _). congruence.
Qed.

(** A channel changed in what the counts do not see. *)
Lemma tables_chan_same conns users chans forwards ch c c' : tables_ok conns users chans forwards -> chans !! ch = Some c ->
  c_conn c' = c_conn c -> c_name c' = c_name c -> tables_ok conns users (<[ch := c']> chans) forwards.
Proof.
  intros [H1 H2 H3 H4 H5] Hc Hk Hn. split; try done.
  - intros i x Hx. destruct (decide (ch = i)) as [->|Hne]; [|rewrite lookup_insert_ne in Hx by done; by apply (H1 i)].
    rewrite lookup_insert_eq in Hx. injection Hx as <-. rewrite Hk, Hn. by apply (H1 i).
  - intros x k Hx. rewrite (count_update (of_conn x) chans ch c c' Hc) by (unfold of_conn; by rewrite Hk). by apply H3.
  - intros name. rewrite (count_update (of_user name) chans ch c c' Hc) by (unfold of_user; by rewrite Hn). apply H4.
Qed.

Lemma users_at_insert name v users m : users_at (<[name := v]> users) m = if bool_decide (name = m) then v else users_at users m.
Proof. unfold users_at. case_bool_decide as E; [by rewrite E, lookup_insert_eq|by rewrite lookup_insert_ne]. Qed.
Lemma users_at_release name users m : 1 <= users_at users name ->
  users_at (releaseUserSession name users) m = users_at users m - (if bool_decide (name = m) then 1 else 0).
Proof.
  intros Hu. unfold releaseUserSession. destruct (users_at users name <=? 1) eqn:E.
  - unfold users_at in *. case_bool_decide as En; [subst m; rewrite lookup_delete_eq; cbn; lia|rewrite lookup_delete_ne by done; lia].
  - rewrite users_at_insert. case_bool_decide as En; [subst m; lia|lia].
Qed.

Lemma tables_open_session conns users chans forwards c k ch n : tables_ok conns users chans forwards ->
  conns !! c = Some k -> chans !! ch = None -> trySlot (Z.max maxSessionsPerConn 1) (k_sessionSlots k) = Some n ->
  users_at users (k_user k) < maxSessionsPerUser ->
  tables_ok (<[c := set_slots n (k_tcpSlots k) k]> conns) (<[k_user k := users_at users (k_user k) + 1]> users)
    (<[ch := mkChan c (k_user k) Opening [] false false]> chans) forwards.
Proof.
  intros [H1 H2 H3 H4 H5] Hk Hch Hn Hu. unfold trySlot, maxSessionsPerConn, maxSessionsPerUser in *.
  destruct (k_sessionSlots k <? Z.max 4 1) eqn:Es; [|done]. injection Hn as <-. split.
  - intros i x Hx. destruct (decide (ch = i)) as [->|Hne].
    + rewrite lookup_insert_eq in Hx. injection Hx as <-. cbn. eexists. by rewrite lookup_insert_eq.
    + rewrite lookup_insert_ne in Hx by done. destruct (H1 i x Hx) as (kx & Hkx & Hux). destruct (decide (c = c_conn x)) as [->|Hnc].
      * eexists. rewrite lookup_insert_eq. split; [done|]. cbn. congruence.
      * exists kx. by rewrite lookup_insert_ne.
  - intros f x Hx. destruct (decide (c = x)) as [->|Hne]; [rewrite lookup_insert_eq; by eexists|rewrite lookup_insert_ne by done; by eapply H2].
  - intros x kx Hx. rewrite count_insert_new by done. unfold of_conn at 2. cbn [c_conn]. destruct (decide (c = x)) as [->|Hne].
    + rewrite lookup_insert_eq in Hx. injection Hx as <-. cbn. rewrite Z.eqb_refl. destruct (H3 x k Hk) as (? & ? & ? & ?). split_and!; lia.
    + rewrite lookup_insert_ne in Hx by done. rewrite (proj2 (Z.eqb_neq c x) Hne). destruct (H3 x kx Hx) as (? & ? & ? & ?). split_and!; lia.
  - intros name. rewrite count_insert_new, users_at_insert by done. unfold of_user at 2. cbn [c_name]. destruct (H4 name) as [Hc Hle].
    case_bool_decide as En; [subst name; lia|]. split; [lia|done].
  - intros name m. destruct (decide (k_user k = name)) as [<-|Hne]; [|rewrite lookup_insert_ne by done; apply H5].
    rewrite lookup_insert_eq. intros [= <-]. destruct (H4 (k_user k)) as [-> _]. pose proof (count_nonneg (of_user (k_user k)) chans). lia.
Qed.

Lemma tables_release conns users chans forwards ch x k : tables_ok conns users chans forwards ->
  chans !! ch = Some x -> conns !! c_conn x = Some k ->
  tables_ok (<[c_conn x := set_slots (k_sessionSlots k - 1) (k_tcpSlots k) k]> conns) (releaseUserSession (c_name x) users) (delete ch chans) forwards.
Proof.
  intros [H1 H2 H3 H4 H5] Hx Hk.
  assert (Hu : 1 <= users_at users (c_name x)).
  { destruct (H4 (c_name x)) as [-> _]. apply (count_pos _ _ ch x Hx). unfold of_user. by rewrite bool_decide_true. }
  split.
  - intros i y Hy. apply lookup_delete_Some in Hy as [Hne Hy]. destruct (H1 i y Hy) as (ky & Hky & Huy). destruct (decide (c_conn x = c_conn y)) as [E|Hnc].
    + eexists. rewrite E, lookup_insert_eq. split; [done|]. cbn. rewrite E in Hk. congruence.
    + exists ky. by rewrite lookup_insert_ne.
  - intros f y Hy. destruct (decide (c_conn x = y)) as [->|Hne]; [rewrite lookup_insert_eq; by eexists|rewrite lookup_insert_ne by done; by eapply H2].
  - intros y ky Hy. rewrite (count_delete (of_conn y) chans ch x Hx). unfold of_conn at 2. destruct (decide (c_conn x = y)) as [<-|Hne].
    + rewrite lookup_insert_eq in Hy. injection Hy as <-. cbn. rewrite Z.eqb_refl. destruct (H3 _ k Hk) as (? & ? & ? & ?). split_and!; lia.
    + rewrite lookup_insert_ne in Hy by done. rewrite (proj2 (Z.eqb_neq _ _) Hne). destruct (H3 y ky Hy) as (? & ? & ? & ?). split_and!; lia.
  - intros name. rewrite (users_at_release _ _ name Hu), (count_delete (of_user name) chans ch x Hx). unfold of_user at 2. destruct (H4 name) as [Hc Hle].
    case_bool_decide; lia.
  - intros name n. unfold releaseUserSession. destruct (users_at users (c_name x) <=? 1) eqn:E.
    + intros Hn. apply lookup_delete_Some in Hn as [_ Hn]. by apply H5 in Hn.
    + destruct (decide (c_name x = name)) as [<-|Hne]; [|rewrite lookup_insert_ne by done; apply H5]. rewrite lookup_insert_eq. intros [= <-]. lia.
Qed.

Lemma tables_forward conns users chans forwards forwards' c k n d : tables_ok conns users chans forwards -> conns !! c = Some k ->
  n = k_tcpSlots k + d -> n <= 16 -> (forall x, count (Z.eqb x) forwards' = count (Z.eqb x) forwards + (if x =? c then d else 0)) ->
  (forall f x, forwards' !! f = Some x -> x = c \/ forwards !! f = Some x) ->
  tables_ok (<[c := set_slots (k_sessionSlots k) n k]> conns) users chans forwards'.
Proof.
  intros [H1 H2 H3 H4 H5] Hk -> Hle Hcount Hin. split; try done.
  - intros ch x Hx. destruct (H1 ch x Hx) as (kx & Hkx & Hux). destruct (decide (c = c_conn x)) as [->|Hne].
    + eexists. rewrite lookup_insert_eq. split; [done|]. cbn. congruence.
    + exists kx. by rewrite lookup_insert_ne.
  - intros f x Hx. destruct (decide (c = x)) as [->|Hne]; [rewrite lookup_insert_eq; by eexists|]. rewrite lookup_insert_ne by done.
    destruct (Hin f x Hx) as [->|Hf]; [done|]. by eapply H2.
  - intros x kx Hx. rewrite Hcount. destruct (decide (c = x)) as [->|Hne].
    + rewrite lookup_insert_eq in Hx. injection Hx as <-. cbn. rewrite Z.eqb_refl. destruct (H3 _ k Hk) as (? & ? & ? & ?). split_and!; lia.
    + rewrite lookup_insert_ne in Hx by done. rewrite (proj2 (Z.eqb_neq x c)) by congruence. destruct (H3 x kx Hx) as (? & ? & ? & ?). split_and!; lia.
Qed.

Lemma alter_as_insert `{Countable K} {A} (f : A -> A) (m : gmap K A) i x : m !! i = Some x -> alter f i m = <[i := f x]> m.
Proof.
  intros Hi. apply map_eq. intros j. destruct (decide (i = j)) as [->|Hne]; [by rewrite lookup_alter_eq, lookup_insert_eq, Hi|].
  by rewrite lookup_alter_ne, lookup_insert_ne.
Qed.
Lemma alter_none `{Countable K} {A} (f : A -> A) (m : gmap K A) i : m !! i = None -> alter f i m = m.
Proof.
  intros Hi. apply map_eq. intros j. destruct (decide (i = j)) as [->|Hne]; [by rewrite lookup_alter_eq, Hi|by rewrite lookup_alter_ne].
Qed.

Section Safety.
Context `{Constants} `{SshWire} `{SshKeys} `{Decoders}.
Variable keys : authorizedKeySet.
Variable opts : SSHServerOptions.
Variable limits : host.
Variable startRec : Session -> option (Z * bytes).

Abbreviation step := (listener_step keys opts limits startRec).
Abbreviation run := (listener_run keys opts limits startRec).

Definition fresh_conns (l : listener) : Prop := forall c h, l_shakes l !! c = Some h -> l_conns l !! c = None.
Definition well_slotted (l : listener) : Prop := slots_ok l /\ fresh_conns l.

Lemma audited_cases hook event l : snd (audited opts hook event l) = l \/ snd (audited opts hook event l) = add_ledger event l.
Proof. unfold audited. destruct (Audit opts); [|by left]. cbn. destruct (hook event); [by right|by left]. Qed.
Lemma audited_slots hook event l : well_slotted l -> well_slotted (snd (audited opts hook event l)).
Proof. intros Hl. destruct (audited_cases hook event l) as [->| ->]; exact Hl. Qed.

Lemma phase_slots ch p l : well_slotted l -> well_slotted (to_phase ch p l).
Proof.
  intros ((Q1 & Q2 & Q3) & Hf). split; [|exact Hf]. split_and!; [exact Q1|exact Q2|]. cbn. destruct (l_chans l !! ch) as [c|] eqn:Hc.
  - rewrite (alter_as_insert _ _ _ c Hc). by apply (tables_chan_same _ _ _ _ ch c).
  - by rewrite alter_none.
Qed.
Lemma unregister_slots ch c l : well_slotted l -> well_slotted (unregister ch c l).
Proof. intros Hl. by apply phase_slots. Qed.

Lemma shakes_size_insert c h (m : gmap Z shake) : m !! c = None -> Z.of_nat (size (<[c := h]> m)) = Z.of_nat (size m) + 1.
Proof. intros Hc. rewrite map_size_insert_None by done. lia. Qed.
Lemma shakes_size_delete c h (m : gmap Z shake) : m !! c = Some h -> Z.of_nat (size (delete c m)) = Z.of_nat (size m) - 1.
Proof. intros Hc. assert (Hd : delete c m !! c = None) by apply lookup_delete_eq. pose proof (shakes_size_insert c h _ Hd) as Hs. rewrite insert_delete_id in Hs by done. lia. Qed.
Lemma shakes_size_update c h h' (m : gmap Z shake) : m !! c = Some h -> size (<[c := h']> m) = size m.
Proof. intros Hc. by rewrite map_size_insert_Some by by eexists. Qed.

Lemma endShake_slots c h l : l_shakes l !! c = Some h -> well_slotted l ->
  well_slotted (endShake c (h_peer h) l) /\ l_conns (endShake c (h_peer h) l) !! c = None /\ l_shakes (endShake c (h_peer h) l) !! c = None.
Proof.
  intros Hc ((Q1 & Q2 & Q3) & Hf). split_and!; [|by eapply Hf|apply lookup_delete_eq]. split.
  - split_and!; [cbn; rewrite (shakes_size_delete c h) by done; lia|cbn; lia|exact Q3].
  - intros x hx Hx. cbn in Hx. apply lookup_delete_Some in Hx as [_ Hx]. by eapply Hf.
Qed.
Lemma noteShake_frame ge peer ok l : exists svc, noteShake ge peer ok l = set_guard svc l.
Proof. unfold noteShake. destruct (NoteHandshake _ _ _ _) as [[? svc] ?]. by exists svc. Qed.

Lemma new_conn_slots c peer user ps l : well_slotted l -> l_conns l !! c = None -> l_shakes l !! c = None ->
  well_slotted (set_conns (<[c := mkConn peer user ps true 0 0]> (l_conns l)) l).
Proof.
  intros ((Q1 & Q2 & Q3) & Hf) Hc Hs. split; [split_and!; [exact Q1|exact Q2|by apply tables_new_conn]|].
  intros x h Hx. cbn in *. rewrite lookup_insert_ne by congruence. by eapply Hf.
Qed.

Lemma conn_update_slots (l : listener) c k k' users chans forwards : well_slotted l -> l_conns l !! c = Some k ->
  tables_ok (<[c := k']> (l_conns l)) users chans forwards ->
  well_slotted (set_users users (set_chans chans (set_forwards forwards (set_conns (<[c := k']> (l_conns l)) l)))).
Proof.
  intros ((Q1 & Q2 & Q3) & Hf) Hk Ht. split; [split_and!; [exact Q1|exact Q2|exact Ht]|].
  intros x h Hx. cbn in *. rewrite lookup_insert_ne; [by eapply Hf|]. intros ->. apply Hf in Hx. congruence.
Qed.

Lemma endForward_slots f l : well_slotted l -> well_slotted (endForward f l).
Proof.
  intros Hl. unfold endForward. destruct (l_forwards l !! f) as [c|] eqn:Hf; [|done]. destruct (l_conns l !! c) as [k|] eqn:Hk; [|done].
  pose proof Hl as ((Q1 & Q2 & Q3) & _). destruct (conn_slots _ _ _ _ Q3 c k Hk) as (_ & _ & _ & Hle).
  apply (conn_update_slots l c k _ (l_users l) (l_chans l) (delete f (l_forwards l)) Hl Hk).
  apply (tables_forward _ _ _ _ _ c k _ (-1) Q3 Hk); [lia|lia| |].
  - intros x. rewrite (count_delete (Z.eqb x) (l_forwards l) f c Hf). destruct (x =? c); lia.
  - intros g x Hx. apply lookup_delete_Some in Hx as [_ Hx]. by right.
Qed.

Lemma accept_slots c peer ge l : well_slotted l -> well_slotted (acceptConn c peer ge l).
Proof.
  intros Hl. pose proof Hl as ((Q1 & Q2 & Q3) & Hf). unfold acceptConn. destruct (negb (l_listening l) || _ || _) eqn:E; [done|]. bsimp.
  destruct (Admit _ _ _) as [[[d ?] svc] ?]. destruct (negb (Allow d)); [exact Hl|]. unfold trySlot, preAuthSlots. cbn [l_slots set_guard].
  destruct (l_slots l <? 64) eqn:E64; [|exact Hl]. apply Z.ltb_lt in E64.
  assert (Hs : l_shakes l !! c = None) by (destruct (l_shakes l !! c); [exfalso; eauto|done]).
  assert (Hc : l_conns l !! c = None) by (destruct (l_conns l !! c); [exfalso; eauto|done]).
  split; [split_and!; [cbn; rewrite shakes_size_insert by done; lia|cbn; lia|exact Q3]|].
  intros x h Hx. cbn in Hx. destruct (decide (c = x)) as [->|Hne]; [done|]. rewrite lookup_insert_ne in Hx by done. by eapply Hf.
Qed.
Lemma shakeDone_slots c n client ge hook l : well_slotted l -> well_slotted (shakeDone opts c n client ge hook l).
Proof.
  intros Hl. pose proof Hl as ((Q1 & Q2 & Q3) & Hf). unfold shakeDone. destruct (l_shakes l !! c) as [h|] eqn:Hc; [|done]. destruct (h_accepted h !! n) as [[[user key] perms]|]; [|done].
  destruct (endShake_slots c h l Hc Hl) as (He & Hn & Hn'). destruct (noteShake_frame ge (h_peer h) true (endShake c (h_peer h) l)) as [svc ->].
  set (l1 := set_guard svc (endShake c (h_peer h) l)). set (ev := loginOKEvent _ _ _ _).
  assert (Hl1 : well_slotted (snd (audited opts hook ev l1)) /\ l_conns (snd (audited opts hook ev l1)) !! c = None /\ l_shakes (snd (audited opts hook ev l1)) !! c = None).
  { split; [by apply audited_slots|]. by destruct (audited_cases hook ev l1) as [->| ->]. }
  destruct (audited opts hook ev l1) as [ok l2]. cbn [snd] in Hl1. destruct Hl1 as (Hl2 & Hc2 & Hs2). destruct ok; cbn [negb]; [|done].
  destruct (principalsFromPermissions _); [|done]. by apply new_conn_slots.
Qed.
Lemma openForward_slots c f l : well_slotted l -> well_slotted (openForward c f l).
Proof.
  intros Hl. pose proof Hl as ((Q1 & Q2 & Q3) & Hf). unfold openForward. destruct (l_conns l !! c) as [k|] eqn:Hk; [|done]. destruct (negb (k_open k) || _) eqn:E; [done|]. bsimp.
  unfold trySlot, maxDirectTCPIPPerConn. destruct (k_tcpSlots k <? Z.max 16 1) eqn:Et; [|done]. apply Z.ltb_lt in Et.
  assert (Hff : l_forwards l !! f = None) by (destruct (l_forwards l !! f); [exfalso; eauto|done]).
  apply (conn_update_slots l c k _ (l_users l) (l_chans l) (<[f := c]> (l_forwards l)) Hl Hk).
  apply (tables_forward _ _ _ _ _ c k _ 1 Q3 Hk); [done|lia| |].
  + intros x. rewrite count_insert_new by done. destruct (x =? c); lia.
  + intros g x Hx. destruct (decide (f = g)) as [->|Hne]; [rewrite lookup_insert_eq in Hx; injection Hx as <-; by left|].
    rewrite lookup_insert_ne in Hx by done. by right.
Qed.
Lemma openSession_slots c ch l : well_slotted l -> well_slotted (openSession c ch l).
Proof.
  intros Hl. pose proof Hl as ((Q1 & Q2 & Q3) & Hf). unfold openSession. destruct (l_conns l !! c) as [k|] eqn:Hk; [|done]. destruct (negb (k_open k) || _) eqn:E; [done|]. bsimp.
  destruct (trySlot _ _) as [n|] eqn:Et; [|done]. unfold acquireUserSession, maxSessionsPerUser.
  destruct ((0 <? 8) && (8 <=? users_at (l_users l) (k_user k))) eqn:Eu; [done|].
  assert (Hch : l_chans l !! ch = None) by (destruct (l_chans l !! ch); [exfalso; eauto|done]).
  apply (conn_update_slots l c k _ _ _ (l_forwards l) Hl Hk). apply tables_open_session; try done. unfold maxSessionsPerUser.
  change (0 <? 8) with true in Eu. cbn [andb] in Eu. lia.
Qed.

Lemma step_slots op l : well_slotted l -> well_slotted (step op l).
Proof.
  intros Hl. pose proof Hl as ((Q1 & Q2 & Q3) & Hf). destruct op; cbn [listener_step].
  - by apply accept_slots.
  - unfold offerKey. destruct (l_shakes l !! c) as [h|] eqn:Hc; [|done]. destruct (publicKeyCallback _ _ _ _ _ _) as [[[perms|] notes] chk]; [|exact Hl].
    split; [split_and!; [cbn; by rewrite (shakes_size_update c h)|exact Q2|exact Q3]|].
    intros x hx Hx. cbn in Hx. destruct (decide (c = x)) as [->|Hne]; [by eapply Hf|]. rewrite lookup_insert_ne in Hx by done. by eapply Hf.
  - unfold logAttempt. by destruct (l_shakes l !! c).
  - unfold shakeFails. destruct (l_shakes l !! c) as [h|] eqn:Hc; [|done]. destruct (endShake_slots c h l Hc Hl) as (He & _).
    destruct (noteShake_frame ge (h_peer h) false (endShake c (h_peer h) l)) as [svc ->]. cbn [l_fails set_guard].
    destruct (recordLoginFailure _ _ _ _) as [[event|] fails]; [|exact He]. apply audited_slots. exact He.
  - by apply shakeDone_slots.
  - by apply openForward_slots.
  - unfold runForward. destruct (l_forwards l !! f) as [c|] eqn:Hff; [|done]. destruct (l_conns l !! c) as [k|]; [|done].
    destruct (snd _); try exact Hl; by apply endForward_slots.
  - by apply endForward_slots.
  - by apply openSession_slots.
  - unfold setupSession. destruct (l_chans l !! ch) as [c|] eqn:Hch; [|done]. destruct (negb _); [done|]. destruct (l_conns l !! c_conn c) as [k|]; [|done].
    destruct (_ || _ || _); [by apply phase_slots|]. destruct (RegisterSession _ _ _ _ _) as [r|]; [|by apply phase_slots].
    split; [|exact Hf]. split_and!; [exact Q1|exact Q2|]. cbn. by apply (tables_chan_same _ _ _ _ ch c).
  - unfold requestOn. destruct (l_chans l !! ch) as [c|] eqn:Hch; [|done]. destruct (_ || _); [done|]. destruct (GetSession _ _) as [s|]; [|done].
    destruct (channelRequest _ _ _) as [[[? ?] started] s']. split; [|exact Hf]. split_and!; [exact Q1|exact Q2|]. cbn. by apply (tables_chan_same _ _ _ _ ch c).
  - unfold requestsEnd. split; [|exact Hf]. split_and!; [exact Q1|exact Q2|]. cbn. destruct (l_chans l !! ch) as [c|] eqn:Hc.
    + rewrite (alter_as_insert _ _ _ c Hc). by apply (tables_chan_same _ _ _ _ ch c).
    + by rewrite alter_none.
  - unfold startSession. destruct (l_chans l !! ch) as [c|] eqn:Hch; [|done]. destruct (negb _); [done|]. destruct (l_conns l !! c_conn c) as [k|]; [|done].
    set (ev := startEvent _ _ _). pose proof (audited_slots hook ev l Hl) as Ha. destruct (audited opts hook ev l) as [ok l2]. cbn [snd] in Ha.
    destruct ok; [|by apply unregister_slots]. by apply (phase_slots ch Running) in Ha.
  - unfold abandonSession. destruct (l_chans l !! ch) as [c|]; [|done]. destruct (_ && _ && _); [by apply unregister_slots|done].
  - unfold endSession. destruct (l_chans l !! ch) as [c|]; [|done]. destruct (negb _); [done|]. destruct (l_conns l !! c_conn c) as [k|]; [|done].
    destruct (sessionEndReason err) as [code reason]. by apply unregister_slots, audited_slots.
  - unfold releaseSession. destruct (l_chans l !! ch) as [c|] eqn:Hch; [|done]. destruct (negb _); [done|]. destruct (l_conns l !! c_conn c) as [k|] eqn:Hk; [|done].
    apply (conn_update_slots l (c_conn c) k _ _ _ (l_forwards l) Hl Hk). by apply tables_release.
  - unfold dropConn. destruct (l_conns l !! c) as [k|] eqn:Hk.
    + rewrite (alter_as_insert _ _ _ k Hk). apply (conn_update_slots l c k _ (l_users l) (l_chans l) (l_forwards l) Hl Hk). by apply (tables_conn_same _ _ _ _ c k).
    + by rewrite alter_none.
  - unfold StopAcceptingSSH. by destruct (l_listening l).
  - unfold DisableSSH, StopAcceptingSSH. destruct (negb _); [done|]. by destruct (l_listening l).
  - exact Hl.
Qed.

Lemma run_slots ops l : well_slotted l -> well_slotted (run ops l).
Proof. revert l. induction ops as [|op ops IH]; intros l Hl; [done|]. apply IH. by apply step_slots. Qed.
Lemma newListener_slots guard fails reg ledger : well_slotted (newListener opts guard fails reg ledger).
Proof.
  split; [|intros c h Hc; cbn in Hc; by rewrite lookup_empty in Hc]. split_and!; [done|done|]. split; cbn.
  - intros ch c Hc. by rewrite lookup_empty in Hc.
  - intros f c Hc. by rewrite lookup_empty in Hc.
  - intros c k Hc. by rewrite lookup_empty in Hc.
  - intros name. rewrite count_empty. unfold users_at. by rewrite lookup_empty.
  - intros name n Hn. by rewrite lookup_empty in Hn.
Qed.

(** C20: In every state the listener can reach each semaphore and counter
    holds exactly what is in use: at most 64 handshakes, 4 sessions and 16
    forwarded channels a connection and 8 sessions a user, and no user counter
    outlives the user's last session. *)
Theorem slots_exact guard fails reg ledger ops :
  let l := run ops (newListener opts guard fails reg ledger) in
  (l_slots l = Z.of_nat (size (l_shakes l)) /\ l_slots l <= 64) /\
  (forall c k, l_conns l !! c = Some k -> k_sessionSlots k = count (of_conn c) (l_chans l) /\ k_sessionSlots k <= 4 /\
     k_tcpSlots k = count (Z.eqb c) (l_forwards l) /\ k_tcpSlots k <= 16) /\
  (forall name, users_at (l_users l) name = count (of_user name) (l_chans l) /\ users_at (l_users l) name <= 8) /\
  (l_chans l = ∅ -> l_users l = ∅).
Proof.
  cbv zeta. destruct (run_slots ops _ (newListener_slots guard fails reg ledger)) as ((Q1 & Q2 & [_ _ Q3 Q4 Q5]) & _).
  split_and!; [exact Q1|exact Q2|exact Q3|exact Q4|]. intros He. apply map_empty. intros name.
  destruct (l_users _ !! name) as [n|] eqn:En; [|done]. pose proof (Q5 name n En) as Hn. destruct (Q4 name) as [Hc _].
  rewrite He, count_empty in Hc. unfold users_at in Hc. rewrite En in Hc. cbn in Hc. lia.
Qed.

(** ** Who a process runs for *)

Definition accepted (user : bytes) (key : PublicKey) (perms : Permissions) : Prop :=
  exists env notes checker checker', publicKeyCallback keys opts env user key checker = (Some perms, notes, checker').
Definition logged_in (peer user : bytes) (ps : list bytes) (ledger : list bytes) : Prop :=
  exists key perms client, accepted user key perms /\ principalsFromPermissions (Some perms) = Ok ps /\
    (is_Some (Audit opts) -> In (loginOKEvent peer user client perms) ledger).
Definition recorded (id user : bytes) (ps : list bytes) (ledger : list bytes) : Prop :=
  exists peer key perms client, accepted user key perms /\ principalsFromPermissions (Some perms) = Ok ps /\
    (is_Some (Audit opts) -> exists l1 l2 l3, ledger = l1 ++ loginOKEvent peer user client perms :: l2 ++ startEvent id user peer :: l3).
Definition shakes_traced (shakes : gmap Z shake) : Prop :=
  forall c h user key perms, shakes !! c = Some h -> In (user, key, perms) (h_accepted h) -> accepted user key perms.
Definition conns_traced (conns : gmap Z connection) (ledger : list bytes) : Prop :=
  forall c k, conns !! c = Some k -> logged_in (k_peer k) (k_user k) (k_principals k) ledger.
Definition started_traced (started : list (bytes * bytes * list bytes)) (ledger : list bytes) : Prop :=
  forall id user ps, In (id, user, ps) started -> recorded id user ps ledger.
Definition traced (l : listener) : Prop :=
  shakes_traced (l_shakes l) /\ conns_traced (l_conns l) (l_ledger l) /\ started_traced (l_started l) (l_ledger l).

Lemma logged_in_more peer user ps ledger more : logged_in peer user ps ledger -> logged_in peer user ps (ledger ++ more).
Proof. intros (key & perms & client & Q1 & Q2 & Q3). exists key, perms, client. split_and!; [done|done|]. intros Ha. apply in_or_app. left. by apply Q3. Qed.
Lemma recorded_more id user ps ledger more : recorded id user ps ledger -> recorded id user ps (ledger ++ more).
Proof.
  intros (peer & key & perms & client & Q1 & Q2 & Q3). exists peer, key, perms, client. split_and!; [done|done|].
  intros Ha. destruct (Q3 Ha) as (l1 & l2 & l3 & ->). exists l1, l2, (l3 ++ more). rewrite <- app_assoc. cbn. by rewrite <- app_assoc.
Qed.
Lemma traced_more shakes conns started ledger more :
  shakes_traced shakes /\ conns_traced conns ledger /\ started_traced started ledger ->
  shakes_traced shakes /\ conns_traced conns (ledger ++ more) /\ started_traced started (ledger ++ more).
Proof.
  intros (Q1 & Q2 & Q3). split_and!; [exact Q1| |].
  - intros c k Hk. apply logged_in_more. by eapply Q2.
  - intros id user ps Hin. apply recorded_more. by apply Q3.
Qed.
Lemma audited_traced hook event l : traced l -> traced (snd (audited opts hook event l)).
Proof. intros Hl. destruct (audited_cases hook event l) as [->| ->]; [exact Hl|]. by apply traced_more. Qed.
Lemma audited_ok hook event l l' : audited opts hook event l = (true, l') ->
  is_Some (Audit opts) -> l_ledger l' = l_ledger l ++ [event].
Proof. unfold audited. destruct (Audit opts); [|by intros _ [? ?]]. cbn. destruct (hook event); [|done]. by intros [= <-] _. Qed.

Lemma conns_traced_update conns ledger c k k' : conns_traced conns ledger -> conns !! c = Some k ->
  k_peer k' = k_peer k -> k_user k' = k_user k -> k_principals k' = k_principals k -> conns_traced (<[c := k']> conns) ledger.
Proof.
  intros Ht Hk E1 E2 E3 x y Hy. destruct (decide (c = x)) as [->|Hne]; [|rewrite lookup_insert_ne in Hy by done; by eapply Ht].
  rewrite lookup_insert_eq in Hy. injection Hy as <-. rewrite E1, E2, E3. by eapply Ht.
Qed.
Lemma shakes_traced_delete shakes c : shakes_traced shakes -> shakes_traced (delete c shakes).
Proof. intros Ht x h user key perms Hx. apply lookup_delete_Some in Hx as [_ Hx]. by eapply Ht. Qed.
Lemma endForward_traced f l : traced l -> traced (endForward f l).
Proof.
  intros (Q1 & Q2 & Q3). unfold endForward. destruct (l_forwards l !! f) as [c|]; [|done]. destruct (l_conns l !! c) as [k|] eqn:Hk; [|done].
  split_and!; [exact Q1| |exact Q3]. by apply (conns_traced_update _ _ c k).
Qed.

Lemma shakeDone_traced c n client ge hook l : traced l -> traced (shakeDone opts c n client ge hook l).
Proof.
  intros (Q1 & Q2 & Q3). unfold shakeDone. destruct (l_shakes l !! c) as [h|] eqn:Hc; [|done]. destruct (h_accepted h !! n) as [[[user key] perms]|] eqn:Hn; [|done].
  assert (Hacc : accepted user key perms) by (eapply Q1; [exact Hc|]; apply list_elem_of_In; by eapply list_elem_of_lookup_2).
  destruct (noteShake_frame ge (h_peer h) true (endShake c (h_peer h) l)) as [svc ->]. set (ev := loginOKEvent _ _ _ _). set (l1 := set_guard svc _).
  assert (Ht1 : traced l1) by (split_and!; [by apply shakes_traced_delete|exact Q2|exact Q3]).
  pose proof (audited_traced hook ev l1 Ht1) as Ht2. pose proof (audited_ok hook ev l1) as Hok. destruct (audited opts hook ev l1) as [ok l2]. cbn [snd] in Ht2.
  destruct ok; cbn [negb]; [|done]. destruct (principalsFromPermissions _) as [ps|] eqn:Ep; [|done]. destruct Ht2 as (R1 & R2 & R3). split_and!; [exact R1| |exact R3].
  intros x k Hx. cbn in Hx. destruct (decide (c = x)) as [->|Hne]; [|rewrite lookup_insert_ne in Hx by done; by eapply R2].
  rewrite lookup_insert_eq in Hx. injection Hx as <-. exists key, perms, client. split_and!; [done|done|]. intros Ha. cbn [l_ledger set_conns].
  rewrite (Hok l2 eq_refl Ha). apply in_or_app. right. by left.
Qed.

Lemma startSession_traced ch hook l : well_slotted l -> traced l -> traced (startSession opts ch hook l).
Proof.
  intros ((_ & _ & [Hcc _ _ _ _]) & _) Hl. pose proof Hl as (Q1 & Q2 & Q3). unfold startSession. destruct (l_chans l !! ch) as [c|] eqn:Hch; [|done].
  destruct (negb _); [done|]. destruct (l_conns l !! c_conn c) as [k|] eqn:Hk; [|done].
  destruct (Hcc ch c Hch) as (k' & Hk' & Hu). rewrite Hk in Hk'. injection Hk' as <-.
  destruct (Q2 _ k Hk) as (key & perms & client & Hacc & Hps & Hlog). rewrite Hu in Hacc, Hlog.
  set (ev := startEvent _ _ _). pose proof (audited_traced hook ev l Hl) as Ht. pose proof (audited_ok hook ev l) as Hok.
  assert (Hstarted : l_started (snd (audited opts hook ev l)) = l_started l) by (by destruct (audited_cases hook ev l) as [->| ->]).
  destruct (audited opts hook ev l) as [ok l2]. cbn [snd] in *. destruct ok; [|exact Ht].
  destruct Ht as (R1 & R2 & R3). split_and!; [exact R1|exact R2|]. intros id user ps Hin. cbn in Hin. apply in_app_iff in Hin as [Hin|[Hin|[]]]; [by apply R3|].
  injection Hin as <- <- <-. exists (k_peer k), key, perms, client. split_and!; [done|done|]. intros Ha. specialize (Hok l2 eq_refl Ha).
  destruct (in_split _ _ (Hlog Ha)) as (l1 & l3 & El). exists l1, l3, []. cbn [l_ledger add_started to_phase set_chans]. rewrite Hok, El, <- app_assoc. done.
Qed.

Lemma step_traced op l : well_slotted l -> traced l -> traced (step op l).
Proof.
  intros Hw Hl. pose proof Hl as (Q1 & Q2 & Q3). destruct op; cbn [listener_step].
  - unfold acceptConn. destruct (negb (l_listening l) || _ || _); [done|]. destruct (Admit _ _ _) as [[[d ?] svc] ?]. destruct (negb (Allow d)); [exact Hl|].
    destruct (trySlot _ _); [|exact Hl]. split_and!; [|exact Q2|exact Q3]. intros x h user key perms Hx Hin. cbn in Hx.
    destruct (decide (c = x)) as [->|Hne]; [rewrite lookup_insert_eq in Hx; by injection Hx as <-|]. rewrite lookup_insert_ne in Hx by done. by eapply Q1.
  - unfold offerKey. destruct (l_shakes l !! c) as [h|] eqn:Hc; [|done]. destruct (publicKeyCallback _ _ _ _ _ _) as [[[perms|] notes] chk] eqn:Ecall; [|exact Hl].
    split_and!; [|exact Q2|exact Q3]. intros x hx user' key' perms' Hx Hin. cbn in Hx. destruct (decide (c = x)) as [->|Hne]; [|rewrite lookup_insert_ne in Hx by done; by eapply Q1].
    rewrite lookup_insert_eq in Hx. injection Hx as <-. cbn in Hin. apply in_app_iff in Hin as [Hin|[Hin|[]]]; [by eapply Q1|].
    injection Hin as <- <- <-. by exists env, notes, (l_checker l), chk.
  - unfold logAttempt. by destruct (l_shakes l !! c).
  - unfold shakeFails. destruct (l_shakes l !! c) as [h|] eqn:Hc; [|done]. destruct (noteShake_frame ge (h_peer h) false (endShake c (h_peer h) l)) as [svc ->].
    cbn [l_fails set_guard]. destruct (recordLoginFailure _ _ _ _) as [[event|] fails]; [apply audited_traced|]; (split_and!; [by apply shakes_traced_delete|exact Q2|exact Q3]).
  - by apply shakeDone_traced.
  - unfold openForward. destruct (l_conns l !! c) as [k|] eqn:Hk; [|done]. destruct (negb (k_open k) || _); [done|]. destruct (trySlot _ _); [|done].
    split_and!; [exact Q1| |exact Q3]. by apply (conns_traced_update _ _ c k).
  - unfold runForward. destruct (l_forwards l !! f) as [c|]; [|done]. destruct (l_conns l !! c) as [k|]; [|done]. destruct (snd _); try exact Hl; by apply endForward_traced.
  - by apply endForward_traced.
  - unfold openSession. destruct (l_conns l !! c) as [k|] eqn:Hk; [|done]. destruct (negb (k_open k) || _); [done|]. destruct (trySlot _ _); [|done].
    destruct (acquireUserSession _ _ _) as [[|] users]; [|done]. split_and!; [exact Q1| |exact Q3]. by apply (conns_traced_update _ _ c k).
  - unfold setupSession. destruct (l_chans l !! ch) as [c|]; [|done]. destruct (negb _); [done|]. destruct (l_conns l !! c_conn c); [|done].
    destruct (_ || _ || _); [exact Hl|]. by destruct (RegisterSession _ _ _ _ _).
  - unfold requestOn. destruct (l_chans l !! ch) as [c|]; [|done]. destruct (_ || _); [done|]. destruct (GetSession _ _); [|done].
    by destruct (channelRequest _ _ _) as [[[? ?] ?] ?].
  - exact Hl.
  - by apply startSession_traced.
  - unfold abandonSession. destruct (l_chans l !! ch) as [c|]; [|done]. by destruct (_ && _ && _).
  - unfold endSession. destruct (l_chans l !! ch) as [c|]; [|done]. destruct (negb _); [done|]. destruct (l_conns l !! c_conn c); [|done].
    destruct (sessionEndReason err). by apply audited_traced.
  - unfold releaseSession. destruct (l_chans l !! ch) as [c|]; [|done]. destruct (negb _); [done|]. destruct (l_conns l !! c_conn c) as [k|] eqn:Hk; [|done].
    split_and!; [exact Q1| |exact Q3]. by apply (conns_traced_update _ _ (c_conn c) k).
  - unfold dropConn. destruct (l_conns l !! c) as [k|] eqn:Hk; [|by rewrite alter_none].
    split_and!; [exact Q1| |exact Q3]. cbn. rewrite (alter_as_insert _ _ _ k Hk). by apply (conns_traced_update _ _ c k).
  - unfold StopAcceptingSSH. by destruct (l_listening l).
  - unfold DisableSSH, StopAcceptingSSH. destruct (negb _); [done|]. by destruct (l_listening l).
  - exact Hl.
Qed.
Lemma run_traced ops l : well_slotted l -> traced l -> traced (run ops l).
Proof.
  revert l. induction ops as [|op ops IH]; intros l Hw Hl; [done|]. apply IH; [by apply step_slots|by apply step_traced].
Qed.
End Safety.

Section Login.
Context `{Constants} `{SshWire} `{SshKeyLaws} `{Decoders}.

(** C19: Whatever connections, keys, requests and failures the listener sees
    in any order, a session process runs only for a user whom authorized_keys
    grants to the key that was proved (never for root unless permitted), with
    exactly the principals of that key, and after the ledger has the login and
    then the start of the session, when the daemon has an audit hook. *)
Theorem process_needs_login data keys opts limits startRec guard fails reg ledger ops id user ps :
  loadAuthorizedKeys (ReadData data) = Ok keys ->
  let l := listener_run keys opts limits startRec ops (newListener opts guard fails reg ledger) in
  In (id, user, ps) (l_started l) ->
  exists peer key perms client, file_grants data user key /\ (exists env, root_ok opts env user) /\
    ps = match key with Raw _ => [] | Cert c => map (to_valid 0) (c_ValidPrincipals c) end /\
    p_Extensions perms !! extPubkeyFP = Some (FingerprintSHA256 key) /\
    (is_Some (Audit opts) -> exists l1 l2 l3, l_ledger l = l1 ++ loginOKEvent peer user client perms :: l2 ++ startEvent id user peer :: l3).
Proof.
  intros Hload. cbv zeta. intros Hin.
  assert (Ht : traced keys opts (newListener opts guard fails reg ledger)).
  { split_and!; [intros c h ? ? ? Hc|intros c k Hc|by intros ? ? ? []]; cbn in Hc; by rewrite lookup_empty in Hc. }
  destruct (run_traced keys opts limits startRec ops _ (newListener_slots opts guard fails reg ledger) Ht) as (_ & _ & Hst).
  destruct (Hst id user ps Hin) as (peer & key & perms & client & (env & notes & chk & chk' & Hcall) & Hps & Hlog).
  destruct (login_needs_binding _ _ _ _ _ _ _ _ _ _ Hload Hcall) as (Hg & _ & Hr). destruct (login_principals _ _ _ _ _ _ _ _ _ Hcall) as (Hp & _ & Hfp & _).
  exists peer, key, perms, client. split_and!; [done|by exists env|congruence|done|done].
Qed.
End Login.

(** ** The session table *)

Section Table.
Context `{Constants} `{SshWireLaws} `{SshKeys} `{Decoders}.
Variable keys : authorizedKeySet.
Variable opts : SSHServerOptions.
Variable limits : host.
Variable startRec : Session -> option (Z * bytes).
(** The table when the daemon starts. *)
Variable reg0 : registry.

Definition live (c : channel) : bool := bool_decide (c_phase c = Waiting) || bool_decide (c_phase c = Running).
Record table_exact (chans : gmap Z channel) (sessions : gmap bytes Session) : Prop := {
  live_registered : forall ch c, chans !! ch = Some c -> live c = true ->
    (exists s, sessions !! c_session c = Some s /\ s_ID s = c_session c) /\ globalSessions reg0 !! c_session c = None;
  live_apart : forall ch c ch' c', chans !! ch = Some c -> chans !! ch' = Some c' -> live c = true -> live c' = true ->
    c_session c = c_session c' -> ch = ch';
  only_live : forall id, is_Some (sessions !! id) -> is_Some (globalSessions reg0 !! id) \/ exists ch c, chans !! ch = Some c /\ live c = true /\ c_session c = id;
  first_stay : forall id, is_Some (globalSessions reg0 !! id) -> is_Some (sessions !! id);
  running_started : forall ch c, chans !! ch = Some c -> c_phase c = Running -> c_started c = true }.

Lemma table_chan_same chans sessions ch c c' : table_exact chans sessions -> chans !! ch = Some c ->
  live c' = live c -> c_session c' = c_session c -> (c_phase c' = Running -> c_started c' = true) -> table_exact (<[ch := c']> chans) sessions.
Proof.
  intros [T1 T2 T3 T4 T5] Hc Hl Hs Hr.
  assert (Hat : forall i x, <[ch := c']> chans !! i = Some x -> exists y, chans !! i = Some y /\ live x = live y /\ c_session x = c_session y).
  { intros i x Hx. destruct (decide (ch = i)) as [->|Hne]; [|rewrite lookup_insert_ne in Hx by done; by exists x].
    rewrite lookup_insert_eq in Hx. injection Hx as <-. by exists c. }
  split.
  - intros i x Hx Hlx. destruct (Hat i x Hx) as (y & Hy & El & ->). apply (T1 i y Hy). by rewrite <- El.
  - intros i x j y Hx Hy Hlx Hly E. destruct (Hat i x Hx) as (x' & Hx' & El & Es). destruct (Hat j y Hy) as (y' & Hy' & El' & Es').
    apply (T2 i x' j y'); congruence.
  - intros id Hid. destruct (T3 id Hid) as [?|(i & x & Hx & Hlx & E)]; [by left|]. right. destruct (decide (ch = i)) as [->|Hne].
    + exists i, c'. rewrite lookup_insert_eq. split_and!; [done|congruence|congruence].
    + exists i, x. by rewrite lookup_insert_ne.
  - done.
  - intros i x Hx. destruct (decide (ch = i)) as [->|Hne]; [|rewrite lookup_insert_ne in Hx by done; by apply (T5 i)].
    rewrite lookup_insert_eq in Hx. by injection Hx as <-.
Qed.

(** A channel that is not registered appears, changes or goes. *)
Lemma table_chan_idle chans sessions ch c' : table_exact chans sessions -> (forall c, chans !! ch = Some c -> live c = false) ->
  live c' = false -> table_exact (<[ch := c']> chans) sessions.
Proof.
  intros [T1 T2 T3 T4 T5] Hc Hl.
  assert (Hat : forall i x, <[ch := c']> chans !! i = Some x -> live x = true -> chans !! i = Some x).
  { intros i x Hx Hlx. destruct (decide (ch = i)) as [->|Hne]; [|by rewrite lookup_insert_ne in Hx]. rewrite lookup_insert_eq in Hx. injection Hx as <-. congruence. }
  split.
  - intros i x Hx Hlx. by apply (T1 i x (Hat i x Hx Hlx)).
  - intros i x j y Hx Hy Hlx Hly E. by apply (T2 i x j y (Hat i x Hx Hlx) (Hat j y Hy Hly)).
  - intros id Hid. destruct (T3 id Hid) as [?|(i & x & Hx & Hlx & E)]; [by left|]. right. exists i, x. rewrite lookup_insert_ne; [done|].
    intros ->. apply Hc in Hx. congruence.
  - done.
  - intros i x Hx Hr. destruct (decide (ch = i)) as [->|Hne]; [|rewrite lookup_insert_ne in Hx by done; by apply (T5 i)].
    rewrite lookup_insert_eq in Hx. injection Hx as <-. unfold live in Hl. rewrite Hr in Hl. done.
Qed.
Lemma table_chan_delete chans sessions ch c : table_exact chans sessions -> chans !! ch = Some c -> live c = false -> table_exact (delete ch chans) sessions.
Proof.
  intros [T1 T2 T3 T4 T5] Hc Hl. split; try done.
  - intros i x Hx. apply lookup_delete_Some in Hx as [_ Hx]. by apply (T1 i).
  - intros i x j y Hx Hy. apply lookup_delete_Some in Hx as [_ Hx]. apply lookup_delete_Some in Hy as [_ Hy]. by apply (T2 i x j y).
  - intros id Hid. destruct (T3 id Hid) as [?|(i & x & Hx & Hlx & E)]; [by left|]. right. exists i, x. rewrite lookup_delete_ne; [done|]. intros ->. congruence.
  - intros i x Hx. apply lookup_delete_Some in Hx as [_ Hx]. by apply (T5 i).
Qed.

(** The session of a registered channel goes with it. *)
Lemma table_unregister chans sessions ch c : table_exact chans sessions -> chans !! ch = Some c -> live c = true ->
  table_exact (<[ch := set_phase Closing c]> chans) (delete (c_session c) sessions).
Proof.
  intros [T1 T2 T3 T4 T5] Hc Hl.
  assert (Hat : forall i x, <[ch := set_phase Closing c]> chans !! i = Some x -> live x = true -> chans !! i = Some x /\ ch <> i).
  { intros i x Hx Hlx. destruct (decide (ch = i)) as [->|Hne]; [|by rewrite lookup_insert_ne in Hx]. rewrite lookup_insert_eq in Hx. injection Hx as <-. done. }
  split.
  - intros i x Hx Hlx. destruct (Hat i x Hx Hlx) as [Hx' Hne]. destruct (T1 i x Hx' Hlx) as [(s & Hs & Hid) H0']. split; [|done].
    exists s. rewrite lookup_delete_ne; [done|]. intros E. by apply Hne, (T2 ch c i x).
  - intros i x j y Hx Hy Hlx Hly E. destruct (Hat i x Hx Hlx), (Hat j y Hy Hly). by apply (T2 i x j y).
  - intros id [s Hs]. apply lookup_delete_Some in Hs as [Hne Hs]. destruct (T3 id (mk_is_Some _ _ Hs)) as [?|(i & x & Hx & Hlx & E)]; [by left|].
    right. exists i, x. rewrite lookup_insert_ne; [done|]. intros ->. congruence.
  - intros id Hid. destruct (T1 ch c Hc Hl) as [_ Hnone]. rewrite lookup_delete_ne; [by apply T4|]. intros <-. rewrite Hnone in Hid. by destruct Hid.
  - intros i x Hx Hr. destruct (decide (ch = i)) as [->|Hne]; [|rewrite lookup_insert_ne in Hx by done; by apply (T5 i)].
    rewrite lookup_insert_eq in Hx. by injection Hx as <-.
Qed.
Lemma table_register chans sessions ch c c' s : table_exact chans sessions -> chans !! ch = Some c -> live c = false ->
  c_phase c' = Waiting -> sessions !! c_session c' = None -> s_ID s = c_session c' ->
  table_exact (<[ch := c']> chans) (<[c_session c' := s]> sessions).
Proof.
  intros [T1 T2 T3 T4 T5] Hc Hl Hp Hfree Hid.
  assert (Hnone : globalSessions reg0 !! c_session c' = None).
  { destruct (globalSessions reg0 !! c_session c') as [s0|] eqn:E; [|done]. assert (Hs0 : is_Some (globalSessions reg0 !! c_session c')) by by eexists.
    apply T4 in Hs0 as [? ?]. congruence. }
  assert (Hat : forall i x, <[ch := c']> chans !! i = Some x -> live x = true -> (i = ch /\ x = c') \/ (ch <> i /\ chans !! i = Some x /\ c_session x <> c_session c')).
  { intros i x Hx Hlx. destruct (decide (ch = i)) as [->|Hne]; [rewrite lookup_insert_eq in Hx; injection Hx as <-; by left|].
    rewrite lookup_insert_ne in Hx by done. right. split_and!; [done|done|]. intros E. destruct (T1 i x Hx Hlx) as [(s1 & Hs1 & _) _]. congruence. }
  split.
  - intros i x Hx Hlx. destruct (Hat i x Hx Hlx) as [[-> ->]|(Hne & Hx' & Hd)].
    + split; [|done]. exists s. by rewrite lookup_insert_eq.
    + destruct (T1 i x Hx' Hlx) as [(s1 & Hs1 & Hi1) Hn1]. split; [|done]. exists s1. by rewrite lookup_insert_ne.
  - intros i x j y Hx Hy Hlx Hly E. destruct (Hat i x Hx Hlx) as [[-> ->]|(Hne & Hx' & Hd)], (Hat j y Hy Hly) as [[-> ->]|(Hne' & Hy' & Hd')]; try done; try congruence.
    by apply (T2 i x j y).
  - intros id [s1 Hs1]. destruct (decide (c_session c' = id)) as [<-|Hne].
    + right. exists ch, c'. rewrite lookup_insert_eq. split_and!; [done| |done]. unfold live. by rewrite Hp.
    + rewrite lookup_insert_ne in Hs1 by done. destruct (T3 id (mk_is_Some _ _ Hs1)) as [?|(i & x & Hx & Hlx & E)]; [by left|].
      right. exists i, x. rewrite lookup_insert_ne; [done|]. intros ->. congruence.
  - intros id Hi. destruct (decide (c_session c' = id)) as [<-|Hne]; [rewrite lookup_insert_eq; by eexists|rewrite lookup_insert_ne by done; by apply T4].
  - intros i x Hx Hr. destruct (decide (ch = i)) as [->|Hne]; [|rewrite lookup_insert_ne in Hx by done; by apply (T5 i)].
    rewrite lookup_insert_eq in Hx. injection Hx as <-. congruence.
Qed.
Lemma table_session_same chans sessions id s s' : table_exact chans sessions -> sessions !! id = Some s -> s_ID s' = s_ID s ->
  table_exact chans (<[id := s']> sessions).
Proof.
  intros [T1 T2 T3 T4 T5] Hs E. assert (Hsome : forall i, is_Some (<[id := s']> sessions !! i) <-> is_Some (sessions !! i)).
  { intros i. destruct (decide (id = i)) as [->|Hne]; [|by rewrite lookup_insert_ne]. rewrite lookup_insert_eq, Hs. split; intros _; by eexists. }
  split; try done.
  - intros i x Hx Hlx. destruct (T1 i x Hx Hlx) as [(s1 & Hs1 & Hi1) Hn1]. split; [|done]. destruct (decide (id = c_session x)) as [->|Hne].
    + exists s'. rewrite lookup_insert_eq. split; [done|]. congruence.
    + exists s1. by rewrite lookup_insert_ne.
  - intros i Hi. apply T3. by apply Hsome.
  - intros i Hi. apply Hsome. by apply T4.
Qed.

Definition table_ok (l : listener) : Prop := table_exact (l_chans l) (globalSessions (l_reg l)).

Lemma to_phase_at ch p l c : l_chans l !! ch = Some c -> l_chans (to_phase ch p l) = <[ch := set_phase p c]> (l_chans l).
Proof. intros Hc. cbn. by apply alter_as_insert. Qed.
Lemma audited_table hook event l : l_chans (snd (audited opts hook event l)) = l_chans l /\ l_reg (snd (audited opts hook event l)) = l_reg l /\
  l_conns (snd (audited opts hook event l)) = l_conns l /\ l_users (snd (audited opts hook event l)) = l_users l.
Proof. by destruct (audited_cases opts hook event l) as [->| ->]. Qed.
Lemma UnregisterSession_sessions id r : globalSessions (snd (UnregisterSession id r)) = delete id (globalSessions r).
Proof. unfold UnregisterSession. by destruct (globalSessions r !! id). Qed.
Lemma unregister_table ch c l : table_ok l -> l_chans l !! ch = Some c -> live c = true -> table_ok (unregister ch c l).
Proof.
  intros Ht Hc Hl. unfold table_ok, unregister. rewrite (to_phase_at ch Closing _ c) by done. cbn [l_reg to_phase set_chans set_reg l_chans].
  rewrite UnregisterSession_sessions. by apply table_unregister.
Qed.
Lemma channelRequest_ID req started s : s_ID (snd (channelRequest req started s)) = s_ID s.
Proof.
  destruct (channelRequest req started s) as [[[ok eff] started'] s'] eqn:E. apply request_step in E as (_ & [->|(_ & k & v & _ & Hs)] & _); [done|].
  by apply SetEnv_same in Hs as ->.
Qed.

Lemma setupSession_table ch id lookup accepts pty now l : table_ok l -> table_ok (setupSession limits startRec ch id lookup accepts pty now l).
Proof.
  intros Ht. unfold setupSession. destruct (l_chans l !! ch) as [c|] eqn:Hch; [|done]. case_bool_decide as Eo; cbn [negb]; [|done].
  destruct (l_conns l !! c_conn c) as [k|]; [|done]. assert (Hidle : live c = false) by (unfold live; by rewrite Eo).
  assert (Hclose : table_ok (to_phase ch Closing l)).
  { unfold table_ok. rewrite (to_phase_at ch Closing l c Hch). apply table_chan_idle; [done|intros c0 Hc0; congruence|done]. }
  destruct (_ || _ || _); [exact Hclose|]. unfold RegisterSession. cbn [s_ID newSession].
  destruct (globalSessions (l_reg l) !! id) as [s0|] eqn:Eid; [exact Hclose|]. destruct (sessionCapRefuse limits); [exact Hclose|].
  destruct ((0 <? sessionCap limits) && _); [exact Hclose|]. unfold table_ok. cbn [l_chans l_reg set_reg set_chans reg_step globalSessions].
  rewrite alter_insert. rewrite decide_True by done.
  apply (table_register _ _ ch c (mkChan (c_conn c) (c_name c) Waiting id false false)); try done.
  rewrite Session.run_op_ID. by destruct (prepareSession_same startRec now (newSession ch id (c_name c) (k_principals k))) as (-> & _).
Qed.

Lemma step_table op l : table_ok l -> table_ok (listener_step keys opts limits startRec op l).
Proof.
  intros Ht. destruct op; cbn [listener_step].
  - unfold acceptConn. destruct (negb (l_listening l) || _ || _); [done|]. destruct (Admit _ _ _) as [[[d ?] svc] ?]. destruct (negb (Allow d)); [exact Ht|].
    by destruct (trySlot _ _).
  - unfold offerKey. destruct (l_shakes l !! c); [|done]. by destruct (publicKeyCallback _ _ _ _ _ _) as [[[perms|] notes] chk].
  - unfold logAttempt. by destruct (l_shakes l !! c).
  - unfold shakeFails. destruct (l_shakes l !! c) as [h|]; [|done]. destruct (noteShake_frame ge (h_peer h) false (endShake c (h_peer h) l)) as [svc ->].
    destruct (recordLoginFailure _ _ _ _) as [[event|] fails]; [|exact Ht]. unfold table_ok. destruct (audited_table hook event (set_fails fails (set_guard svc (endShake c (h_peer h) l)))) as (-> & -> & _). exact Ht.
  - unfold shakeDone. destruct (l_shakes l !! c) as [h|]; [|done]. destruct (h_accepted h !! n) as [[[user key] perms]|]; [|done].
    destruct (noteShake_frame ge (h_peer h) true (endShake c (h_peer h) l)) as [svc ->]. set (l1 := set_guard svc _). set (ev := loginOKEvent _ _ _ _).
    destruct (audited_table hook ev l1) as (Ea & Er & _). destruct (audited opts hook ev l1) as [ok l2]. cbn [snd] in *.
    assert (Ht2 : table_ok l2) by (unfold table_ok; rewrite Ea, Er; exact Ht). destruct ok; cbn [negb]; [|done]. by destruct (principalsFromPermissions _).
  - unfold openForward. destruct (l_conns l !! c); [|done]. destruct (negb _ || _); [done|]. by destruct (trySlot _ _).
  - unfold runForward. destruct (l_forwards l !! f) as [c|] eqn:Ef; [|done]. destruct (l_conns l !! c) eqn:Ec; [|done].
    assert (He : table_ok (endForward f l)) by (unfold endForward; by rewrite Ef, Ec). by destruct (snd _).
  - unfold endForward. destruct (l_forwards l !! f); [|done]. by destruct (l_conns l !! _).
  - unfold openSession. destruct (l_conns l !! c) as [k|]; [|done]. destruct (negb (k_open k) || _) eqn:E; [done|]. bsimp. destruct (trySlot _ _); [|done].
    destruct (acquireUserSession _ _ _) as [[|] users]; [|done]. apply table_chan_idle; [exact Ht| |done]. intros c0 Hc0. exfalso. eauto.
  - by apply setupSession_table.
  - unfold requestOn. destruct (l_chans l !! ch) as [c|] eqn:Hch; [|done]. destruct (negb _ || _) eqn:E; [done|]. destruct (GetSession _ _) as [s|] eqn:Es; [|done].
    pose proof (channelRequest_ID req (c_started c) s) as Hid. destruct (channelRequest req (c_started c) s) as [[[ok eff] started] s'] eqn:Er.
    apply request_step in Er as (-> & _). cbn [snd] in Hid. unfold table_ok. cbn [l_chans l_reg set_reg set_chans globalSessions].
    apply (table_session_same _ _ _ s); [|exact Es|exact Hid]. apply (table_chan_same _ _ ch c); [exact Ht|done|done|done|]. cbn.
    intros Hp. by rewrite (running_started _ _ Ht ch c Hch Hp).
  - unfold table_ok, requestsEnd. cbn [l_chans set_chans l_reg]. destruct (l_chans l !! ch) as [c|] eqn:Hc; [|by rewrite alter_none].
    rewrite (alter_as_insert _ _ _ c Hc). apply (table_chan_same _ _ ch c); [exact Ht|done|done|done|]. cbn. by apply (running_started _ _ Ht ch c).
  - unfold startSession. destruct (l_chans l !! ch) as [c|] eqn:Hch; [|done]. destruct (negb _) eqn:E; [done|]. bsimp. destruct (l_conns l !! c_conn c) as [k|]; [|done].
    set (ev := startEvent _ _ _). destruct (audited_table hook ev l) as (Ea & Er & _). destruct (audited opts hook ev l) as [ok l2]. cbn [snd] in *.
    assert (Hl : live c = true) by (unfold live; by rewrite bool_decide_true). destruct ok.
    + unfold table_ok. cbn [l_chans l_reg add_started]. rewrite (to_phase_at ch Running l2 c) by congruence. cbn [l_reg to_phase set_chans]. rewrite Ea, Er.
      apply (table_chan_same _ _ ch c); [exact Ht|done|by rewrite Hl|done|done].
    + apply unregister_table; [unfold table_ok; rewrite Ea, Er; exact Ht|congruence|done].
  - unfold abandonSession. destruct (l_chans l !! ch) as [c|] eqn:Hch; [|done]. destruct (_ && _ && _) eqn:E; [|done]. bsimp.
    apply unregister_table; [done|done|]. unfold live. by rewrite bool_decide_true.
  - unfold endSession. destruct (l_chans l !! ch) as [c|] eqn:Hch; [|done]. case_bool_decide as E; cbn [negb]; [|done]. destruct (l_conns l !! c_conn c) as [k|]; [|done].
    destruct (sessionEndReason err) as [code reason]. set (ev := endEvent _ _ _ _ _ _). destruct (audited_table hook ev l) as (Ea & Er & _).
    apply unregister_table; [unfold table_ok; rewrite Ea, Er; exact Ht|congruence|]. unfold live. by rewrite E, orb_true_r.
  - unfold releaseSession. destruct (l_chans l !! ch) as [c|] eqn:Hch; [|done]. case_bool_decide as E; cbn [negb]; [|done]. destruct (l_conns l !! c_conn c) as [k|]; [|done].
    apply (table_chan_delete _ _ ch c); [exact Ht|done|]. unfold live. by rewrite E.
  - exact Ht.
  - unfold StopAcceptingSSH. by destruct (l_listening l).
  - unfold DisableSSH, StopAcceptingSSH. destruct (negb _); [done|]. by destruct (l_listening l).
  - unfold table_ok. cbn [l_chans l_reg set_reg reg_step globalSessions]. destruct (globalSessions (l_reg l) !! id) as [s|] eqn:Es.
    + rewrite (alter_as_insert _ _ _ s Es). apply (table_session_same _ _ id s); [exact Ht|done|by rewrite Session.run_op_ID].
    + by rewrite alter_none.
Qed.

Lemma run_table ops l : table_ok l -> table_ok (listener_run keys opts limits startRec ops l).
Proof. revert l. induction ops as [|op ops IH]; intros l Hl; [done|]. apply IH. by apply step_table. Qed.
Lemma newListener_table guard fails ledger : table_ok (newListener opts guard fails reg0 ledger).
Proof.
  split; cbn.
  - intros ch c Hc. by rewrite lookup_empty in Hc.
  - intros ch c ch' c' Hc. by rewrite lookup_empty in Hc.
  - intros id Hid. by left.
  - done.
  - intros ch c Hc. by rewrite lookup_empty in Hc.
Qed.

(** In every state the listener can reach the session table holds what it held
    at the start and exactly one session for each channel that waits or runs,
    no two under one id; so no refusal, failure or end of a channel leaves a
    session behind. *)
Theorem sessions_registered guard fails ledger ops :
  let l := listener_run keys opts limits startRec ops (newListener opts guard fails reg0 ledger) in
  (forall ch c, l_chans l !! ch = Some c -> live c = true ->
     (exists s, GetSession (c_session c) (l_reg l) = Some s /\ s_ID s = c_session c) /\ GetSession (c_session c) reg0 = None) /\
  (forall ch c ch' c', l_chans l !! ch = Some c -> l_chans l !! ch' = Some c' -> live c = true -> live c' = true ->
     c_session c = c_session c' -> ch = ch') /\
  (forall id, is_Some (GetSession id (l_reg l)) <->
     is_Some (GetSession id reg0) \/ exists ch c, l_chans l !! ch = Some c /\ live c = true /\ c_session c = id).
Proof.
  cbv zeta. destruct (run_table ops _ (newListener_table guard fails ledger)) as [T1 T2 T3 T4 _]. split_and!; [exact T1|exact T2|].
  intros id. split; [apply T3|]. intros [Hid|(ch & c & Hc & Hl & <-)]; [by apply T4|]. destruct (T1 ch c Hc Hl) as [(s & Hs & _) _]. by exists s.
Qed.

(** The steps that a session channel takes of itself: the setup, the start
    once a shell was asked for, the end of its requests without one, the end of
    its process, the release. *)
Definition own_step (ch : Z) (c : channel) (op : listener_op) : Prop :=
  match c_phase c, op with
  | Opening, LSetup ch' _ _ _ _ _ => ch' = ch
  | Waiting, LStart ch' _ => ch' = ch /\ c_started c = true
  | Waiting, LAbandon ch' => ch' = ch /\ c_started c = false /\ c_requestsDone c = true
  | Running, LEnd ch' _ _ _ => ch' = ch
  | Closing, LRelease ch' => ch' = ch
  | _, _ => False
  end.
Definition rank (p : phase) : nat := match p with Opening => 3 | Waiting => 2 | Running => 1 | Closing => 0 end.

(** A step inside a channel's life: the slots are kept, the phase moves on, and
    a channel that ends has left the session table. *)
Definition moves (ch : Z) (c : channel) (l l' : listener) : Prop :=
  exists c', l_chans l' = <[ch := c']> (l_chans l) /\ l_users l' = l_users l /\ l_conns l' = l_conns l /\
    c_conn c' = c_conn c /\ c_name c' = c_name c /\ (rank (c_phase c') < rank (c_phase c))%nat /\
    (c_phase c' = Closing -> if live c then GetSession (c_session c) (l_reg l') = None else l_reg l' = l_reg l).

Lemma closing_moves ch c l : l_chans l !! ch = Some c -> live c = false -> c_phase c <> Closing -> moves ch c l (to_phase ch Closing l).
Proof.
  intros Hc Hl Hp. exists (set_phase Closing c). rewrite (to_phase_at ch Closing l c) by done. rewrite Hl. split_and!; try done. cbn. destruct (c_phase c); cbn; [lia..|done].
Qed.
Lemma unregister_moves ch c l : l_chans l !! ch = Some c -> live c = true -> moves ch c l (unregister ch c l).
Proof.
  intros Hc Hl. unfold unregister. exists (set_phase Closing c). rewrite (to_phase_at ch Closing _ c) by done. rewrite Hl. split_and!; try done.
  - unfold live in Hl. cbn. destruct (c_phase c); first [cbn; lia|discriminate Hl].
  - intros _. cbn [l_reg set_reg to_phase set_chans]. unfold GetSession. rewrite UnregisterSession_sessions. apply lookup_delete_eq.
Qed.
(** An audit write between two states changes nothing that [moves] looks at. *)
Lemma moves_audited ch c hook ev l l' : moves ch c (snd (audited opts hook ev l)) l' -> moves ch c l l'.
Proof.
  destruct (audited_table hook ev l) as (E1 & E2 & E3 & E4). intros (c' & M1 & M2 & M3 & M4 & M5 & M6 & M7). exists c'.
  rewrite M1, M2, M3, E1, E3, E4. split_and!; try done. intros Hp. specialize (M7 Hp). destruct (live c); [done|]. by rewrite M7, E2.
Qed.
Lemma own_step_moves ch c k op l : l_chans l !! ch = Some c -> l_conns l !! c_conn c = Some k -> c_phase c <> Closing -> own_step ch c op ->
  moves ch c l (listener_step keys opts limits startRec op l).
Proof.
  intros Hc Hk Hp Ho. unfold own_step in Ho. destruct (c_phase c) eqn:Ep; [| | |done]; destruct op; try done.
  - subst ch0. cbn [listener_step]. unfold setupSession. rewrite Hc, Ep, (bool_decide_true (Opening = Opening)) by done. cbn [negb]. rewrite Hk.
    assert (Hl : live c = false) by (unfold live; by rewrite Ep). assert (Hcl : moves ch c l (to_phase ch Closing l)) by (apply closing_moves; congruence).
    destruct (_ || negb pty); [done|]. destruct (RegisterSession _ _ _ _ _) as [r|e]; [|done].
    eexists. split_and!; [reflexivity|done..| |done]. cbn. rewrite Ep. cbn. lia.
  - destruct Ho as [-> Hs]. cbn [listener_step]. unfold startSession. rewrite Hc, Ep, Hs, (bool_decide_true (Waiting = Waiting)) by done. cbn [andb negb]. rewrite Hk.
    set (ev := startEvent _ _ _). destruct (audited_table hook ev l) as (E1 & E2 & E3 & E4). destruct (audited opts hook ev l) as [ok l2] eqn:Ea. cbn [snd] in *.
    apply (moves_audited ch c hook ev). rewrite Ea. cbn [snd]. destruct ok.
    + exists (set_phase Running c). split_and!; try done; [|cbn; rewrite Ep; cbn; lia].
      change (l_chans (to_phase ch Running l2) = <[ch := set_phase Running c]> (l_chans l2)). apply to_phase_at. congruence.
    + apply unregister_moves; [congruence|]. unfold live. by rewrite Ep.
  - destruct Ho as (-> & Hs & Hd). cbn [listener_step]. unfold abandonSession. rewrite Hc, Ep, Hs, Hd, (bool_decide_true (Waiting = Waiting)) by done. cbn [andb negb].
    apply unregister_moves; [done|]. unfold live. by rewrite Ep.
  - subst ch0. cbn [listener_step]. unfold endSession. rewrite Hc, Ep, (bool_decide_true (Running = Running)) by done. cbn [negb]. rewrite Hk.
    destruct (sessionEndReason err) as [code reason]. set (ev := endEvent _ _ _ _ _ _). destruct (audited_table hook ev l) as (E1 & E2 & E3 & E4).
    apply (moves_audited ch c hook ev). apply unregister_moves; [congruence|]. unfold live. by rewrite Ep.
Qed.

(** C22: From every state the listener can reach, each step that belongs to a
    session channel alone (the setup, the start once a shell was asked for,
    the end of the requests without one, the end of the process, the release),
    whatever the audit hook and the system answer, brings the channel nearer
    its end by a measure of at most three and touches no slot before the last;
    when the channel closes, its session has left the table, and the release
    deletes the channel and gives back both its slots, the one of the
    connection and the one of the user. *)
Theorem session_slot_returns guard fails ledger ops ch c op :
  let l := listener_run keys opts limits startRec ops (newListener opts guard fails reg0 ledger) in
  l_chans l !! ch = Some c -> own_step ch c op ->
  let l' := listener_step keys opts limits startRec op l in
  exists k, l_conns l !! c_conn c = Some k /\
  if bool_decide (c_phase c = Closing) then
    l_chans l' = delete ch (l_chans l) /\ l_users l' = releaseUserSession (c_name c) (l_users l) /\
    l_conns l' = <[c_conn c := set_slots (k_sessionSlots k - 1) (k_tcpSlots k) k]> (l_conns l) /\ l_reg l' = l_reg l
  else
    exists c', l_chans l' = <[ch := c']> (l_chans l) /\ l_users l' = l_users l /\ l_conns l' = l_conns l /\
      c_conn c' = c_conn c /\ c_name c' = c_name c /\ (rank (c_phase c') < rank (c_phase c))%nat /\
      (c_phase c' = Closing -> if live c then GetSession (c_session c) (l_reg l') = None else l_reg l' = l_reg l).
Proof.
  cbv zeta. intros Hc Ho. destruct (run_slots keys opts limits startRec ops _ (newListener_slots opts guard fails reg0 ledger)) as ((_ & _ & [Hcc _ _ _ _]) & _).
  destruct (Hcc ch c Hc) as (k & Hk & _). exists k. split; [exact Hk|]. generalize dependent (listener_run keys opts limits startRec ops (newListener opts guard fails reg0 ledger)).
  intros l Hc _ Hk. case_bool_decide as Ep; [|by apply (own_step_moves ch c k)].
  unfold own_step in Ho. rewrite Ep in Ho. destruct op; try done. subst ch0. cbn [listener_step]. unfold releaseSession. rewrite Hc, Ep. cbn [negb]. by rewrite Hk.
Qed.
End Table.

(** ** Witnesses *)

Definition word32 (data : bytes) : option (Z * bytes) := if zlen data <? 4 then None else Some (be_get (take 4 data), drop 4 data).
(** The wire format read with the parser of this file. *)
#[local] Instance toy_wire : SshWire := {
  UnmarshalPty p :=
    '(term, p) ← parseSSHString p; '(cols, p) ← word32 p; '(rows, p) ← word32 p; '(width, p) ← word32 p; '(height, p) ← word32 p;
    '(modes, p) ← parseSSHString p; if bool_decide (p = []) then Some (mkPty term cols rows width height modes) else None;
  UnmarshalWindow p :=
    '(cols, p) ← word32 p; '(rows, p) ← word32 p; '(width, p) ← word32 p; '(height, p) ← word32 p;
    if bool_decide (p = []) then Some (mkWindowChange cols rows width height) else None;
  UnmarshalEnv p := '(name, p) ← parseSSHString p; '(value, p) ← parseSSHString p; if bool_decide (p = []) then Some (name, value) else None }.
Lemma word32_range data n rest : word32 data = Some (n, rest) -> 0 <= n < 2 ^ 32.
Proof.
  unfold word32. destruct (zlen data <? 4) eqn:E; [done|]. apply Z.ltb_ge in E. intros [= <- _].
  destruct (word_split data E) as (n & r & _ & -> & _ & Hn). done.
Qed.
#[local] Instance toy_wire_laws : SshWireLaws.
Proof.
  split; intros p r; cbn [UnmarshalPty UnmarshalWindow toy_wire].
  - destruct (parseSSHString p) as [[term p1]|]; [|done]. cbn [mbind option_bind]. destruct (word32 p1) as [[cols p2]|] eqn:E1; [|done]. cbn [mbind option_bind].
    destruct (word32 p2) as [[rows p3]|] eqn:E2; [|done]. cbn [mbind option_bind]. destruct (word32 p3) as [[width p4]|]; [|done]. cbn [mbind option_bind].
    destruct (word32 p4) as [[height p5]|]; [|done]. cbn [mbind option_bind]. destruct (parseSSHString p5) as [[modes p6]|]; [|done]. cbn [mbind option_bind].
    case_bool_decide; [|done]. intros [= <-]. split; by eapply word32_range.
  - destruct (word32 p) as [[cols p2]|] eqn:E1; [|done]. cbn [mbind option_bind].
    destruct (word32 p2) as [[rows p3]|] eqn:E2; [|done]. cbn [mbind option_bind]. destruct (word32 p3) as [[width p4]|]; [|done]. cbn [mbind option_bind].
    destruct (word32 p4) as [[height p5]|]; [|done]. cbn [mbind option_bind]. case_bool_decide; [|done]. intros [= <-]. split; by eapply word32_range.
Qed.
#[local] Existing Instance toy_ssh.
#[local] Existing Instance toy_ssh_laws.
#[local] Existing Instance no_document.
#[local] Existing Instance linux.

(** The user of the toy file logs in with her key and opens a shell. *)
Definition toy_audited : SSHServerOptions := mkSshOpts false [] (Some (fun _ => true)).
Definition toy_peer : bytes := lit "198.51.100.7:5022".
Definition toy_tty : tty := mkTTY None None true true true.
Definition pty_payload : bytes := ssh_string (lit "xterm-256color") ++ be_put 4 200 ++ be_put 4 0 ++ be_put 4 0 ++ be_put 4 0 ++ ssh_string [byte_of 0].
Definition env_payload (name value : string) : bytes := ssh_string (lit name) ++ ssh_string (lit value).
Definition toy_requests : list chanRequest :=
  [mkReq (lit "env") (env_payload "LANG" "en_US.UTF-8") true toy_tty; mkReq (lit "env") (env_payload "LD_PRELOAD" "x") true toy_tty;
   mkReq (lit "pty-req") pty_payload true toy_tty; mkReq shell [] true toy_tty;
   mkReq (lit "env") (env_payload "LANG" "C") true toy_tty; mkReq (lit "exec") (ssh_string (lit "id")) true toy_tty].
Definition toy_ops : list listener_op :=
  [LAccept 1 toy_peer (quiet_env day WriteFails); LOffer 1 (lit "ann") (Raw (lit "KEYA")) toy_login;
   LShakeDone 1 0 (lit "SSH-2.0-t") (quiet_env day WriteFails) (fun _ => true); LOpenSession 1 7;
   LSetup 7 (lit "s1") (fun _ => Some (lit "1000")) true true 5] ++
  map (LRequest 7) toy_requests ++ [LStart 7 (fun _ => true)].
Definition toy_listener : listener :=
  listener_run toy_keys toy_audited defaultHost (fun _ => None) toy_ops (newListener toy_audited None no_fails emptyRegistry []).

Example toy_run : l_started toy_listener = [(lit "s1", lit "ann", [])] /\ l_slots toy_listener = 0 /\ users_at (l_users toy_listener) (lit "ann") = 1 /\
  (s_envOverlay <$> GetSession (lit "s1") (l_reg toy_listener)) = Some ({[TERM := lit "xterm-256color"; lit "LANG" := lit "en_US.UTF-8"]}).
Proof. vm_compute. done. Qed.

Lemma process_needs_login_witness :
  exists peer key perms client, file_grants toy_file (lit "ann") key /\ (exists env, root_ok toy_audited env (lit "ann")) /\
    [] = match key with Raw _ => [] | Cert c => map (to_valid 0) (c_ValidPrincipals c) end /\
    p_Extensions perms !! extPubkeyFP = Some (FingerprintSHA256 key) /\
    (is_Some (Audit toy_audited) -> exists l1 l2 l3, l_ledger toy_listener =
       l1 ++ loginOKEvent peer (lit "ann") client perms :: l2 ++ startEvent (lit "s1") (lit "ann") peer :: l3).
Proof.
  unfold toy_listener. refine (process_needs_login toy_file toy_keys toy_audited defaultHost (fun _ => None) None no_fails emptyRegistry [] toy_ops (lit "s1") (lit "ann") [] _ _); vm_compute; [reflexivity|by left].
Defined.

Lemma sessions_registered_witness :
  is_Some (GetSession (lit "s1") (l_reg toy_listener)) <->
  is_Some (GetSession (lit "s1") emptyRegistry) \/ exists ch c, l_chans toy_listener !! ch = Some c /\ live c = true /\ c_session c = lit "s1".
Proof.
  destruct (sessions_registered toy_keys toy_audited defaultHost (fun _ => None) emptyRegistry None no_fails [] toy_ops) as (_ & _ & H).
  unfold toy_listener. exact (H (lit "s1")).
Defined.

(** The process of channel 7 ended: its session leaves the table; the release
    gives its slots back. *)
Lemma session_slot_returns_witness :
  let l := listener_step toy_keys toy_audited defaultHost (fun _ => None) (LEnd 7 ExitOK (lit "1s") (fun _ => false)) toy_listener in
  GetSession (lit "s1") (l_reg l) = None.
Proof.
  destruct (session_slot_returns toy_keys toy_audited defaultHost (fun _ => None) emptyRegistry None no_fails [] toy_ops 7
    (mkChan 1 (lit "ann") Running (lit "s1") true false) (LEnd 7 ExitOK (lit "1s") (fun _ => false))) as (k & _ & c' & E & _ & _ & _ & _ & _ & H);
    [vm_compute; reflexivity|vm_compute; reflexivity|].
  apply H. assert (Hp : c_phase <$> (l_chans (listener_step toy_keys toy_audited defaultHost (fun _ => None) (LEnd 7 ExitOK (lit "1s") (fun _ => false)) toy_listener) !! 7) = Some Closing)
    by (vm_compute; reflexivity).
  revert Hp. unfold toy_listener. rewrite E, lookup_insert_eq. cbn. intros Hp. injection Hp as Hp. exact Hp.
Defined.

Definition toy_session : Session := newSession 7 (lit "s1") (lit "ann") [].
Lemma channel_requests_confined_witness :
  s_envOverlay (snd (channelRequests toy_requests false toy_session)) !! TERM = Some (lit "xterm-256color") /\ client_env TERM (lit "xterm-256color").
Proof.
  assert (Hk : s_envOverlay (snd (channelRequests toy_requests false toy_session)) !! TERM = Some (lit "xterm-256color")) by (vm_compute; reflexivity).
  split; [exact Hk|]. pose proof (channel_requests_confined toy_requests toy_session eq_refl) as H. revert H Hk.
  destruct (channelRequests toy_requests false toy_session) as [[out started] s]. intros (_ & _ & H & _). exact (H _ _).
Defined.

Definition direct_payload : bytes := direct_bytes (mkDirect (lit "db.internal") 5432 (lit "127.0.0.1") 40000).
Definition toy_forward : forwardEnv :=
  mkForward (lit "g1") (Some (fun r => bool_decide (g_TargetIP r = lit "10.0.0.9"))) (fun _ => Some [[10; 0; 0; 9]]) (fun _ => true) true.
Lemma forward_authorized_witness :
  exists target, snd (fst (handleDirectTCPIP (lit "ann") [] direct_payload toy_forward)) = Some target /\ target = lit "10.0.0.9:5432".
Proof.
  destruct (handleDirectTCPIP (lit "ann") [] direct_payload toy_forward) as [[asked dialed] result] eqn:E.
  destruct (forward_authorized (lit "ann") [] direct_payload toy_forward asked dialed result) as (H1 & H2 & _); [vm_compute; reflexivity|exact E|].
  destruct (proj1 H2) as (target & Ht & _); [revert E; vm_compute; by intros [= <- <- <-]|].
  exists target. split; [exact Ht|]. revert E Ht. vm_compute. intros [= <- <- <-]. by intros [= <-].
Defined.
