(* ===== verification/SshSpawn.v ===== *)
(** * The session process

    internal/sys/ssh_spawn.go, session_limits.go, session_child.go and
    ssh_session.go: the command line, environment, credential and limits of
    the process that a login gets, and how that process reads them. *)

From S2P Require Import Prelude GoBytes GoNum GoPath Session SshAuth SshServer.
#[local] Open Scope Z_scope.
#[local] Arguments lit : simpl never.

(** ** What the listener asks for *)

Record SSHSessionSpec := mkSpec {
  sp_SessionID : bytes; sp_User : bytes; sp_Principals : list bytes; sp_Restricted : bool; sp_MenuPath : bytes;
  sp_PluginDir : bytes; sp_PTY : bool }.

Inductive spawnErr :=
| InvalidValue | NoMonitor | Unmarked | PtyNotFile | NoExecutable | UserUnresolved | HomeNotAbsolute | PairFails
| EmptyUser | BadUid | BadGid | GroupsFail | BadGroup | CannotSetSession.

Definition validateSSHSessionSpec (spec : SSHSessionSpec) : result spawnErr unit :=
  if negb (validSessionToken (sp_SessionID spec)) || negb (validSessionToken (sp_User spec)) then Err InvalidValue
  else if negb (bool_decide (sp_MenuPath spec = [])) && negb (validSessionToken (sp_MenuPath spec)) then Err InvalidValue
  else if negb (forallb validSessionToken (sp_Principals spec)) then Err InvalidValue
  else if negb (bool_decide (sp_PluginDir spec = [])) && (negb (IsAbs (sp_PluginDir spec)) || negb (validSessionToken (sp_PluginDir spec)))
  then Err InvalidValue
  else Ok tt.

(** ** The environment *)

Definition defaultSessionPath : bytes := lit "/usr/local/sbin:/usr/local/bin:/usr/sbin:/usr/bin:/sbin:/bin".
Definition sessionEnvPassthrough : list bytes :=
  map lit ["LANG"; "LC_ALL"; "ADSSH_MAX_SESSIONS"; "ADSSH_SESSION_NOFILE"; "ADSSH_SESSION_NPROC"; "ADSSH_SESSION_AS";
           "ADSSH_SESSION_FSIZE"; "ADSSH_SESSION_CPU_SECONDS"]%string.
Definition sanitizeSessionPath (path : bytes) : bytes :=
  match List.filter IsAbs (split_byte ":" path) with
  | [] => defaultSessionPath
  | keep => GoBytes.join (lit ":") keep
  end.
(** [user.User]. *)
Record account := mkAccount { a_Username : bytes; a_Uid : bytes; a_Gid : bytes; a_HomeDir : bytes }.

(** An assignment; [getenv] is the listener's [os.Getenv], where an unset
    variable is empty. *)
Definition assign (k v : bytes) : bytes := k ++ [EQb] ++ v.
Definition sshSessionEnv (getenv : bytes -> bytes) (target : account) (login home shell term : bytes) (locale : list (bytes * bytes)) : list bytes :=
  let name := if bool_decide (a_Username target = []) then login else a_Username target in
  let term := if bool_decide (term = []) then lit "xterm" else term in
  [assign (lit "HOME") home; assign (lit "USER") name; assign (lit "LOGNAME") name; assign (lit "SHELL") shell;
   assign (lit "PATH") (sanitizeSessionPath (getenv (lit "PATH"))); assign (lit "TERM") term] ++
  omap (fun key =>
    if bool_decide (key ∈ map fst locale) then None
    else let v := getenv key in
      if negb (bool_decide (v = [])) && negb (existsb (fun c => byte_val c =? 0) v) then Some (assign key v) else None) sessionEnvPassthrough ++
  map (fun kv => assign (fst kv) (snd kv)) locale.

(** ** The command *)

Record Credential := mkCred { cr_Uid : Z; cr_Gid : Z; cr_Groups : list Z }.
(** [exec.Cmd] with what is set of its [SysProcAttr]. *)
Record command := mkCmd {
  cmd_Path : bytes; cmd_Args : list bytes; cmd_Env : option (list bytes); cmd_Dir : bytes; cmd_Credential : option Credential;
  cmd_Setsid : bool; cmd_Setctty : bool }.
Definition set_Env (e : option (list bytes)) (c : command) : command :=
  mkCmd (cmd_Path c) (cmd_Args c) e (cmd_Dir c) (cmd_Credential c) (cmd_Setsid c) (cmd_Setctty c).
Definition set_Credential (cred : option Credential) (c : command) : command :=
  mkCmd (cmd_Path c) (cmd_Args c) (cmd_Env c) (cmd_Dir c) cred (cmd_Setsid c) (cmd_Setctty c).
Definition set_Args (path : bytes) (args : list bytes) (c : command) : command :=
  mkCmd path args (cmd_Env c) (cmd_Dir c) (cmd_Credential c) (cmd_Setsid c) (cmd_Setctty c).

(** [exec.Command] of an absolute path. *)
Definition Command (path : bytes) (args : list bytes) : command := mkCmd path (path :: args) None [] None false false.
Definition buildSSHSessionCmd (exe : bytes) (spec : SSHSessionSpec) (home : bytes) : command :=
  Command exe
    ([lit "--ssh-session"; lit "--session-id"; sp_SessionID spec; lit "--ssh-user"; sp_User spec; lit "--monitor-fd"; lit "3"] ++
     (if sp_Restricted spec then [lit "--restricted"] else []) ++
     (if bool_decide (sp_MenuPath spec = []) then [] else [lit "--menu"; sp_MenuPath spec]) ++
     [lit "--history"; Join home (lit ".adssh/history"); lit "--profile"; Join home (lit ".adsshprofile"); lit "--rc"; Join home (lit ".adsshrc")] ++
     concat (map (fun p => [lit "--principal"; p]) (sp_Principals spec)) ++
     (if bool_decide (sp_PluginDir spec = []) then [] else [lit "--plugin-dir"; Clean (sp_PluginDir spec)])).

(** ** Credential and limits *)

(** What the process finds: its uid, the user database and the groups of a
    user, its own path, the host limits, whether it is a test binary, and its
    environment. *)
Record procEnv := mkProc {
  pe_euid : Z; pe_lookup : bytes -> option account; pe_groups : account -> option (list bytes); pe_executable : option bytes;
  pe_host : host; pe_test : bool; pe_environ : list bytes; pe_getenv : bytes -> bytes; pe_isDir : bytes -> bool;
  pe_hook : bool; pe_pair : bool }.

Fixpoint parse_ids (l : list bytes) : option (list Z) :=
  match l with
  | [] => Some []
  | g :: l => n ← ParseUintBase 10 32 g; rest ← parse_ids l; Some (wrapu 32 n :: rest)
  end.
Definition applyCredential (e : procEnv) (s : Session) (cmd : command) : result spawnErr command :=
  if negb (pe_euid e =? 0) then Ok cmd
  else if bool_decide (s_User s = []) then Err EmptyUser
  else match pe_lookup e (s_User s) with
  | None => Err UserUnresolved
  | Some u =>
      match ParseUintBase 10 32 (a_Uid u) with
      | None => Err BadUid
      | Some uid =>
          match ParseUintBase 10 32 (a_Gid u) with
          | None => Err BadGid
          | Some gid =>
              match pe_groups e u with
              | None => Err GroupsFail
              | Some groups =>
                  match parse_ids groups with
                  | None => Err BadGroup
                  | Some gids => Ok (set_Credential (Some (mkCred (wrapu 32 uid) (wrapu 32 gid) gids)) cmd)
                  end
              end
          end
      end
  end.

Definition sessionChildFlag : bytes := lit "--session-child".
Definition limits_any (h : host) : bool :=
  negb ((limitNOFILE h =? 0) && (limitNPROC h =? 0) && (limitAS h =? 0) && (limitFSIZE h =? 0) && (limitCPU h =? 0)).
(** [fmt.Sprintf] of a limit. *)
Definition limit_spec (key : bytes) (n : Z) : bytes := assign key (FormatUint 10 n).
Definition limit_specs (h : host) : list bytes :=
  [limit_spec (lit "nofile") (limitNOFILE h); limit_spec (lit "nproc") (limitNPROC h); limit_spec (lit "as") (limitAS h);
   limit_spec (lit "fsize") (limitFSIZE h); limit_spec (lit "cpu") (limitCPU h)].
Definition wrapped (exe : bytes) (cmd : command) : bool :=
  bool_decide (cmd_Path cmd = exe) && match cmd_Args cmd with _ :: a :: _ => bool_decide (a = sessionChildFlag) | _ => false end.
Definition wrapSessionLimits (e : procEnv) (cmd : command) : result spawnErr command :=
  if pe_test e then Ok cmd
  else if negb (limits_any (pe_host e)) then Ok cmd
  else match pe_executable e with
  | None => Err NoExecutable
  | Some exe =>
      if wrapped exe cmd then Ok cmd
      else Ok (set_Args exe ([exe; sessionChildFlag] ++ limit_specs (pe_host e) ++ [lit "--"; cmd_Path cmd] ++ cmd_Args cmd) cmd)
  end.

(** [PrepareChild]; the session can be nil. *)
Definition PrepareChild (e : procEnv) (session : option Session) (cmd : command) : result spawnErr command :=
  let cmd := match cmd_Env cmd, session with
             | None, Some s => set_Env (Some (Environ (pe_environ e) s)) cmd
             | _, _ => cmd
             end in
  let! cmd := match session with
              | Some s => if s_dropPrivileges s then applyCredential e s cmd else Ok cmd
              | None => Ok cmd
              end in
  wrapSessionLimits e cmd.

Definition OverlayGet (key : bytes) (s : Session) : option bytes := s_envOverlay s !! key.
Definition client_locale (s : Session) : list (bytes * bytes) :=
  omap (fun k => v ← OverlayGet k s; Some (k, v)) clientLocaleVars.

(** [SpawnSSHSession] up to the start of the command. *)
Definition SpawnSSHSession (e : procEnv) (reg : registry) (spec : SSHSessionSpec) : result spawnErr command :=
  let! _ := validateSSHSessionSpec spec in
  if negb (pe_hook e) then Err NoMonitor
  else match GetSession (sp_SessionID spec) reg with
  | None => Err Unmarked
  | Some session =>
      if negb (s_dropPrivileges session) then Err Unmarked
      else if negb (sp_PTY spec) then Err PtyNotFile
      else match pe_executable e with
      | None => Err NoExecutable
      | Some exe =>
          match pe_lookup e (s_User session) with
          | None => Err UserUnresolved
          | Some target =>
              if negb (IsAbs (a_HomeDir target)) || negb (validSessionToken (a_HomeDir target)) then Err HomeNotAbsolute
              else
                let home := Clean (a_HomeDir target) in
                let term := default [] (OverlayGet (lit "TERM") session) in
                if negb (pe_pair e) then Err PairFails
                else
                  let cmd := buildSSHSessionCmd exe spec home in
                  let env := sshSessionEnv (pe_getenv e) target (s_User session) home exe term (client_locale session) in
                  let cmd := mkCmd (cmd_Path cmd) (cmd_Args cmd) (Some env) (if pe_isDir e home then home else lit "/") None true true in
                  let! cmd := PrepareChild e (Some session) cmd in
                  if negb (cmd_Setsid cmd) || negb (cmd_Setctty cmd) then Err CannotSetSession else Ok cmd
          end
      end
  end.

(** ** In the process *)

(** The limits of a process: soft and hard, [None] when a call for that
    resource fails. *)
Inductive resource := NOFILE | NPROC | ASPACE | FSIZE | CPU.
#[export] Instance resource_eq_dec : EqDecision resource.
Proof. solve_decision. Defined.
(** That of the Linux build; a Darwin build has [2 ^ 63 - 1]. *)
Definition RLIM_INFINITY : Z := 2 ^ 64 - 1.
Definition rlimits : Type := resource -> option (Z * Z).
Definition limitResource (key : bytes) : option resource :=
  if bool_decide (key = lit "nofile") then Some NOFILE
  else if bool_decide (key = lit "nproc") then Some NPROC
  else if bool_decide (key = lit "as") then Some ASPACE
  else if bool_decide (key = lit "fsize") then Some FSIZE
  else if bool_decide (key = lit "cpu") then Some CPU
  else None.
Inductive childErr := MissingEquals | BadNumber (key : bytes) | UnknownLimit (key : bytes) | LimitCallFails | MissingDash | MissingCommand.
Definition applyOneLimit (key : bytes) (value : Z) (rl : rlimits) : result childErr rlimits :=
  match limitResource key with
  | None => Err (UnknownLimit key)
  | Some res =>
      if value =? 0 then Ok rl
      else match rl res with
      | None => Err LimitCallFails
      | Some (_, hard) =>
          let limit := if negb (hard =? RLIM_INFINITY) && (hard <? value) then hard else value in
          Ok (fun r => if bool_decide (r = res) then Some (limit, limit) else rl r)
      end
  end.
Fixpoint apply_specs (specs : list bytes) (rl : rlimits) : result childErr rlimits :=
  match specs with
  | [] => Ok rl
  | spec :: specs =>
      match cut_byte EQb spec with
      | None => Err MissingEquals
      | Some (key, val) =>
          match ParseUintBase 10 64 val with
          | None => Err (BadNumber key)
          | Some n => let! rl := applyOneLimit key n rl in apply_specs specs rl
          end
      end
  end.
(** The words before the first [--] and, when there is one, those after. *)
Fixpoint split_dash (args : list bytes) : list bytes * option (list bytes) :=
  match args with
  | [] => ([], None)
  | a :: args => if bool_decide (a = lit "--") then ([], Some args) else let '(specs, tail) := split_dash args in (a :: specs, tail)
  end.
(** [runSessionChild] of the process's arguments: not a child, an error, or
    the exec of a target with its arguments under new limits. *)
Inductive childRun := NotChild | ChildFails (e : childErr) | ChildExec (target : bytes) (argv : list bytes) (rl : rlimits).
Definition runSessionChild (args : list bytes) (rl : rlimits) : childRun :=
  match args with
  | _ :: flag :: rest =>
      if negb (bool_decide (flag = sessionChildFlag)) then NotChild
      else
        let '(specs, tail) := split_dash rest in
        match apply_specs specs rl with
        | Err er => ChildFails er
        | Ok rl =>
            match tail with
            | None => ChildFails MissingDash
            | Some [] => ChildFails MissingCommand
            | Some [target] => ChildExec target [target] rl
            | Some (target :: argv) => ChildExec target argv rl
            end
        end
  | _ => NotChild
  end.

(** ** The session's options *)

Record sshSessionOpts := mkOpts {
  o_sessionID : bytes; o_user : bytes; o_menu : bytes; o_history : bytes; o_profile : bytes; o_rc : bytes; o_pluginDir : bytes;
  o_principals : list bytes; o_restricted : bool }.
Definition isSSHSessionArgv (args : list bytes) : bool :=
  match args with _ :: a :: _ => bool_decide (a = lit "--ssh-session") | _ => false end.

(** The loop of [parseSSHSessionArgs]: the options and which were seen (id,
    user, fd, history, profile, rc). *)
Record seenFlags := mkSeen { gotID : bool; gotUser : bool; gotFD : bool; gotHistory : bool; gotProfile : bool; gotRC : bool }.
Fixpoint session_args (args : list bytes) (o : sshSessionOpts) (g : seenFlags) : result bytes (sshSessionOpts * seenFlags) :=
  let invalid := Err (lit "adssh: ssh session: invalid value") in
  match args with
  | [] => Ok (o, g)
  | a :: args =>
      if bool_decide (a = lit "--restricted") then
        session_args args (mkOpts (o_sessionID o) (o_user o) (o_menu o) (o_history o) (o_profile o) (o_rc o) (o_pluginDir o) (o_principals o) true) g
      else if bool_decide (a = lit "--monitor-fd") then
        match args with
        | v :: args => if bool_decide (v = lit "3") then session_args args o (mkSeen (gotID g) (gotUser g) true (gotHistory g) (gotProfile g) (gotRC g))
                       else Err (lit "adssh: ssh session: monitor fd must be 3")
        | [] => Err (lit "adssh: ssh session: monitor fd must be 3")
        end
      else
        match args with
        | [] => invalid
        | v :: args =>
            if negb (validSessionToken v) then invalid
            else if bool_decide (a = lit "--session-id") then
              session_args args (mkOpts v (o_user o) (o_menu o) (o_history o) (o_profile o) (o_rc o) (o_pluginDir o) (o_principals o) (o_restricted o))
                (mkSeen true (gotUser g) (gotFD g) (gotHistory g) (gotProfile g) (gotRC g))
            else if bool_decide (a = lit "--ssh-user") then
              session_args args (mkOpts (o_sessionID o) v (o_menu o) (o_history o) (o_profile o) (o_rc o) (o_pluginDir o) (o_principals o) (o_restricted o))
                (mkSeen (gotID g) true (gotFD g) (gotHistory g) (gotProfile g) (gotRC g))
            else if bool_decide (a = lit "--menu") then
              session_args args (mkOpts (o_sessionID o) (o_user o) v (o_history o) (o_profile o) (o_rc o) (o_pluginDir o) (o_principals o) (o_restricted o)) g
            else if bool_decide (a = lit "--history") then
              session_args args (mkOpts (o_sessionID o) (o_user o) (o_menu o) v (o_profile o) (o_rc o) (o_pluginDir o) (o_principals o) (o_restricted o))
                (mkSeen (gotID g) (gotUser g) (gotFD g) true (gotProfile g) (gotRC g))
            else if bool_decide (a = lit "--profile") then
              session_args args (mkOpts (o_sessionID o) (o_user o) (o_menu o) (o_history o) v (o_rc o) (o_pluginDir o) (o_principals o) (o_restricted o))
                (mkSeen (gotID g) (gotUser g) (gotFD g) (gotHistory g) true (gotRC g))
            else if bool_decide (a = lit "--rc") then
              session_args args (mkOpts (o_sessionID o) (o_user o) (o_menu o) (o_history o) (o_profile o) v (o_pluginDir o) (o_principals o) (o_restricted o))
                (mkSeen (gotID g) (gotUser g) (gotFD g) (gotHistory g) (gotProfile g) true)
            else if bool_decide (a = lit "--plugin-dir") then
              if negb (IsAbs v) then invalid
              else session_args args (mkOpts (o_sessionID o) (o_user o) (o_menu o) (o_history o) (o_profile o) (o_rc o) (Clean v) (o_principals o) (o_restricted o)) g
            else if bool_decide (a = lit "--principal") then
              session_args args (mkOpts (o_sessionID o) (o_user o) (o_menu o) (o_history o) (o_profile o) (o_rc o) (o_pluginDir o) (o_principals o ++ [v]) (o_restricted o)) g
            else invalid
        end
  end.
Definition parseSSHSessionArgs (args : list bytes) : result bytes sshSessionOpts :=
  if negb (isSSHSessionArgv args) then Err (lit "adssh: ssh session: invalid value")
  else
    let! (o, g) := session_args (drop 2 args) (mkOpts [] [] [] [] [] [] [] [] false) (mkSeen false false false false false false) in
    if gotID g && gotUser g && gotFD g && gotHistory g && gotProfile g && gotRC g then Ok o
    else Err (lit "adssh: ssh session: invalid value").

(** [newSSHOverlaySession]. *)
Definition newSSHOverlaySession (o : sshSessionOpts) : Session :=
  mkSession (o_sessionID o) (o_user o) (o_principals o) 0 [] None 0 [] false None false false None None [] [] None ∅ false None [] [].

(** [main] as far as the session: the child wrapper first, then the session
    mode.  A process is its arguments and its limits; an exec starts over. *)
Inductive started := RunsSession (o : sshSessionOpts) (rl : rlimits) | SessionRefused (e : bytes) | ChildRefused (e : childErr) | OtherMain.
Definition main_mode (args : list bytes) (rl : rlimits) : started :=
  if isSSHSessionArgv args then
    match parseSSHSessionArgs args with Ok o => RunsSession o rl | Err e => SessionRefused e end
  else OtherMain.
(** [exe] is this program; anything else that is executed is not. *)
Definition run_command (exe : bytes) (cmd : command) (rl : rlimits) : option started :=
  if negb (bool_decide (cmd_Path cmd = exe)) then None
  else match runSessionChild (cmd_Args cmd) rl with
  | NotChild => Some (main_mode (cmd_Args cmd) rl)
  | ChildFails e => Some (ChildRefused e)
  | ChildExec target argv rl =>
      if bool_decide (target = exe) then
        match runSessionChild argv rl with
        | NotChild => Some (main_mode argv rl)
        | ChildFails e => Some (ChildRefused e)
        | ChildExec _ _ _ => None
        end
      else None
  end.

(** ** The options read back *)

Definition with_principals (ps : list bytes) (o : sshSessionOpts) : sshSessionOpts :=
  mkOpts (o_sessionID o) (o_user o) (o_menu o) (o_history o) (o_profile o) (o_rc o) (o_pluginDir o) ps (o_restricted o).

(** One flag of [session_args], before any words: its tests are of literals. *)
Ltac lit_test := match goal with |- context [bool_decide (lit ?a = lit ?b)] =>
    first [rewrite (bool_decide_false (lit a = lit b)) by discriminate | rewrite (bool_decide_true (lit a = lit b)) by reflexivity] end; cbn [negb].
Ltac value_step := intros Hv; cbn [session_args]; lit_test; lit_test; rewrite Hv; cbn [negb]; repeat lit_test; reflexivity.

Lemma arg_id v rest o g : validSessionToken v = true -> session_args (lit "--session-id" :: v :: rest) o g =
  session_args rest (mkOpts v (o_user o) (o_menu o) (o_history o) (o_profile o) (o_rc o) (o_pluginDir o) (o_principals o) (o_restricted o)) (mkSeen true (gotUser g) (gotFD g) (gotHistory g) (gotProfile g) (gotRC g)).
Proof. value_step. Qed.
Lemma arg_user v rest o g : validSessionToken v = true -> session_args (lit "--ssh-user" :: v :: rest) o g =
  session_args rest (mkOpts (o_sessionID o) v (o_menu o) (o_history o) (o_profile o) (o_rc o) (o_pluginDir o) (o_principals o) (o_restricted o)) (mkSeen (gotID g) true (gotFD g) (gotHistory g) (gotProfile g) (gotRC g)).
Proof. value_step. Qed.
Lemma arg_menu v rest o g : validSessionToken v = true -> session_args (lit "--menu" :: v :: rest) o g =
  session_args rest (mkOpts (o_sessionID o) (o_user o) v (o_history o) (o_profile o) (o_rc o) (o_pluginDir o) (o_principals o) (o_restricted o)) (g).
Proof. value_step. Qed.
Lemma arg_history v rest o g : validSessionToken v = true -> session_args (lit "--history" :: v :: rest) o g =
  session_args rest (mkOpts (o_sessionID o) (o_user o) (o_menu o) v (o_profile o) (o_rc o) (o_pluginDir o) (o_principals o) (o_restricted o)) (mkSeen (gotID g) (gotUser g) (gotFD g) true (gotProfile g) (gotRC g)).
Proof. value_step. Qed.
Lemma arg_profile v rest o g : validSessionToken v = true -> session_args (lit "--profile" :: v :: rest) o g =
  session_args rest (mkOpts (o_sessionID o) (o_user o) (o_menu o) (o_history o) v (o_rc o) (o_pluginDir o) (o_principals o) (o_restricted o)) (mkSeen (gotID g) (gotUser g) (gotFD g) (gotHistory g) true (gotRC g)).
Proof. value_step. Qed.
Lemma arg_rc v rest o g : validSessionToken v = true -> session_args (lit "--rc" :: v :: rest) o g =
  session_args rest (mkOpts (o_sessionID o) (o_user o) (o_menu o) (o_history o) (o_profile o) v (o_pluginDir o) (o_principals o) (o_restricted o)) (mkSeen (gotID g) (gotUser g) (gotFD g) (gotHistory g) (gotProfile g) true).
Proof. value_step. Qed.
Lemma arg_principal v rest o g : validSessionToken v = true -> session_args (lit "--principal" :: v :: rest) o g =
  session_args rest (mkOpts (o_sessionID o) (o_user o) (o_menu o) (o_history o) (o_profile o) (o_rc o) (o_pluginDir o) (o_principals o ++ [v]) (o_restricted o)) (g).
Proof. value_step. Qed.
Lemma arg_fd rest o g : session_args (lit "--monitor-fd" :: lit "3" :: rest) o g =
  session_args rest o (mkSeen (gotID g) (gotUser g) true (gotHistory g) (gotProfile g) (gotRC g)).
Proof. cbn [session_args]. by repeat lit_test. Qed.
Lemma args_restricted (b : bool) rest o g :
  session_args ((if b then [lit "--restricted"] else []) ++ rest) o g =
  session_args rest (mkOpts (o_sessionID o) (o_user o) (o_menu o) (o_history o) (o_profile o) (o_rc o) (o_pluginDir o) (o_principals o) (b || o_restricted o)) g.
Proof. destruct b; [|by destruct o]. cbn [app session_args]. by lit_test. Qed.
Lemma args_menu menu rest o g : menu = [] \/ validSessionToken menu = true ->
  session_args ((if bool_decide (menu = []) then [] else [lit "--menu"; menu]) ++ rest) o g =
  session_args rest (mkOpts (o_sessionID o) (o_user o) (if bool_decide (menu = []) then o_menu o else menu) (o_history o) (o_profile o) (o_rc o) (o_pluginDir o)
    (o_principals o) (o_restricted o)) g.
Proof.
  intros Hm. case_bool_decide as E; [by destruct o|]. destruct Hm as [?|Hm]; [done|]. cbn [app]. by rewrite arg_menu.
Qed.

Lemma args_principals ps rest : forall o g, forallb validSessionToken ps = true ->
  session_args (concat (map (fun p => [lit "--principal"; p]) ps) ++ rest) o g = session_args rest (with_principals (o_principals o ++ ps) o) g.
Proof.
  induction ps as [|p ps IH]; intros o g Hf.
  - unfold with_principals. rewrite app_nil_r. by destruct o.
  - cbn [forallb] in Hf. apply andb_true_iff in Hf as [Hp Hf]. cbn [map concat app]. rewrite arg_principal, IH by done. unfold with_principals. cbn. by rewrite <- app_assoc.
Qed.

Lemma args_plugin dir o g : dir = [] \/ (IsAbs dir = true /\ validSessionToken (Clean dir) = true) ->
  session_args (if bool_decide (dir = []) then [] else [lit "--plugin-dir"; Clean dir]) o g =
  Ok (mkOpts (o_sessionID o) (o_user o) (o_menu o) (o_history o) (o_profile o) (o_rc o) (if bool_decide (dir = []) then o_pluginDir o else Clean dir)
    (o_principals o) (o_restricted o), g).
Proof.
  intros Hd. case_bool_decide as E; [by destruct o|]. destruct Hd as [?|[Ha Hv]]; [done|]. cbn [session_args]. lit_test. lit_test. rewrite Hv. cbn [negb]. repeat lit_test.
  destruct (clean_abs_Clean (Clean dir) (Clean_clean dir Ha)) as [Hcc Hca]. rewrite Hca. cbn [negb]. by rewrite Hcc.
Qed.

(** ** Paths that are tokens *)

Lemma clean_elems_sub rooted l : forall acc x, In x (clean_elems rooted acc l) -> In x acc \/ In x l.
Proof.
  induction l as [|y l IH]; intros acc x Hx; cbn [clean_elems] in Hx; [left; by apply in_rev|].
  destruct (_ || _); [destruct (IH _ _ Hx); [by left|right; by right]|]. case_bool_decide.
  - destruct acc as [|top acc]; [destruct rooted|case_bool_decide]; destruct (IH _ _ Hx) as [Hin|Hin];
      try (right; by right); cbn in Hin; (try done); try (destruct Hin as [<-|Hin]; [right; by left|]); try (by left); left; by right.
  - destruct (IH _ _ Hx) as [[<-|Hin]|Hin]; [right; by left|by left|right; by right].
Qed.
Lemma split_byte_chars c s : forall x d, In x (split_byte c s) -> In d x -> In d s.
Proof.
  induction s as [|e s IH]; cbn [split_byte]; intros x d; [by intros [<-|[]]|]. destruct (c =?b e).
  - intros [<-|Hx] Hd; [done|]. right. by eapply IH.
  - destruct (split_byte c s) as [|y l] eqn:El; [intros [<-|[]] [<-|[]]; by left|]. intros [<-|Hx] Hd.
    + destruct Hd as [<-|Hd]; [by left|]. right. apply (IH y d); [by left|done].
    + right. apply (IH x d); [by right|done].
Qed.
Lemma join_chars l d : In d (GoBytes.join [SLASH] l) -> d = SLASH \/ exists x, In x l /\ In d x.
Proof.
  induction l as [|x [|y l] IH]; cbn [GoBytes.join]; intros Hd; [done|right; exists x; split; [by left|done]|].
  apply in_app_iff in Hd as [Hd|Hd]; [right; exists x; split; [by left|done]|]. destruct Hd as [<-|Hd]; [by left|].
  destruct (IH Hd) as [->|(z & Hz & Hdz)]; [by left|]. right. exists z. split; [by right|done].
Qed.
Lemma Clean_token s : IsAbs s = true -> validSessionToken s = true -> validSessionToken (Clean s) = true.
Proof.
  intros Ha Hv. rewrite Clean_abs by done. unfold validSessionToken in *. bsimp. repeat (apply andb_true_iff; split).
  - apply negb_true_iff. by rewrite bool_decide_false.
  - apply negb_true_iff, not_true_iff_false. intros Hz. apply existsb_exists in Hz as (d & Hd & Hz). destruct Hd as [<-|Hd]; [done|].
    apply join_chars in Hd as [->|(x & Hx & Hd)]; [done|]. apply clean_elems_sub in Hx as [[]|Hx]. apply (split_byte_chars _ _ _ _ Hx) in Hd.
    assert (existsb (fun c => byte_val c =? 0) s = true); [|congruence]. apply existsb_exists. by exists d.
  - done.
Qed.
Lemma Join_token home x : IsAbs home = true -> validSessionToken home = true -> existsb (fun c => byte_val c =? 0) x = false -> validSessionToken (Join home x) = true.
Proof.
  intros Ha Hv Hx. destruct (IsAbs_cons home Ha) as [h ->]. assert (Hj : Join (SLASH :: h) x = Clean ((SLASH :: h) ++ SLASH :: x)) by done.
  rewrite Hj. apply Clean_token; [done|]. unfold validSessionToken in *. bsimp. repeat (apply andb_true_iff; split); [done| |done].
  apply negb_true_iff. rewrite existsb_app. apply orb_false_iff. split; [done|exact Hx].
Qed.

(** ** The limits read back *)

Definition requested (h : host) (r : resource) : Z :=
  match r with NOFILE => limitNOFILE h | NPROC => limitNPROC h | ASPACE => limitAS h | FSIZE => limitFSIZE h | CPU => limitCPU h end.
(** A limit that is requested is soft and hard, and never above the hard one. *)
Definition limited (n : Z) (cur : option (Z * Z)) : option (Z * Z) :=
  if n =? 0 then cur
  else match cur with
  | None => None
  | Some (_, hard) => let l := if negb (hard =? RLIM_INFINITY) && (hard <? n) then hard else n in Some (l, l)
  end.
Definition host_ok (h : host) : Prop := forall r, 0 <= requested h r < 2 ^ 64.
Definition resource_key (r : resource) : bytes :=
  match r with NOFILE => lit "nofile" | NPROC => lit "nproc" | ASPACE => lit "as" | FSIZE => lit "fsize" | CPU => lit "cpu" end.

Lemma applyOneLimit_resource r n rl : (n <> 0 -> is_Some (rl r)) ->
  exists rl', applyOneLimit (resource_key r) n rl = Ok rl' /\ forall x, rl' x = if bool_decide (x = r) then limited n (rl x) else rl x.
Proof.
  intros Hr. unfold applyOneLimit, limited. assert (limitResource (resource_key r) = Some r) as -> by (by destruct r).
  destruct (n =? 0) eqn:E.
  - eexists. split; [done|]. intros x. by case_bool_decide.
  - destruct (Hr ltac:(lia)) as [[soft hard] Hs]. rewrite Hs. eexists. split; [done|]. intros x. cbn. case_bool_decide as Ex; [|done]. subst x. by rewrite Hs.
Qed.
Lemma apply_spec r n specs rl : 0 <= n < 2 ^ 64 -> (n <> 0 -> is_Some (rl r)) ->
  exists rl', apply_specs (limit_spec (resource_key r) n :: specs) rl = apply_specs specs rl' /\
    forall x, rl' x = if bool_decide (x = r) then limited n (rl x) else rl x.
Proof.
  intros Hn Hr. destruct (applyOneLimit_resource r n rl Hr) as (rl' & E & Hx). exists rl'. split; [|done]. cbn [apply_specs].
  assert (cut_byte EQb (limit_spec (resource_key r) n) = Some (resource_key r, FormatUint 10 n)) as ->.
  { apply cut_byte_spec. split; [done|]. intros Hin. destruct r; vm_compute in Hin; intuition discriminate. }
  rewrite ParseUint_Format by lia. by rewrite E.
Qed.

Lemma apply_limits h rl : host_ok h -> (forall r, requested h r <> 0 -> is_Some (rl r)) ->
  exists rl', apply_specs (limit_specs h) rl = Ok rl' /\ forall r, rl' r = limited (requested h r) (rl r).
Proof.
  intros Hh Hr. unfold limit_specs.
  destruct (apply_spec NOFILE (limitNOFILE h) [limit_spec (lit "nproc") (limitNPROC h); limit_spec (lit "as") (limitAS h);
   limit_spec (lit "fsize") (limitFSIZE h); limit_spec (lit "cpu") (limitCPU h)] rl (Hh NOFILE) (Hr NOFILE)) as (r1 & E1 & H1).
  destruct (apply_spec NPROC (limitNPROC h) [limit_spec (lit "as") (limitAS h); limit_spec (lit "fsize") (limitFSIZE h); limit_spec (lit "cpu") (limitCPU h)]
    r1 (Hh NPROC)) as (r2 & E2 & H2); [intros Hn; rewrite H1; cbn; by apply (Hr NPROC)|].
  destruct (apply_spec ASPACE (limitAS h) [limit_spec (lit "fsize") (limitFSIZE h); limit_spec (lit "cpu") (limitCPU h)] r2 (Hh ASPACE)) as (r3 & E3 & H3);
    [intros Hn; rewrite H2, H1; cbn; by apply (Hr ASPACE)|].
  destruct (apply_spec FSIZE (limitFSIZE h) [limit_spec (lit "cpu") (limitCPU h)] r3 (Hh FSIZE)) as (r4 & E4 & H4);
    [intros Hn; rewrite H3, H2, H1; cbn; by apply (Hr FSIZE)|].
  destruct (apply_spec CPU (limitCPU h) [] r4 (Hh CPU)) as (r5 & E5 & H5); [intros Hn; rewrite H4, H3, H2, H1; cbn; by apply (Hr CPU)|].
  exists r5. change (lit "nofile") with (resource_key NOFILE). rewrite E1. change (lit "nproc") with (resource_key NPROC). rewrite E2.
  change (lit "as") with (resource_key ASPACE). rewrite E3. change (lit "fsize") with (resource_key FSIZE). rewrite E4.
  change (lit "cpu") with (resource_key CPU). rewrite E5. split; [done|]. intros r. rewrite H5, H4, H3, H2, H1. by destruct r.
Qed.

Lemma limit_spec_word r n : limit_spec (resource_key r) n <> lit "--".
Proof. by destruct r. Qed.
Lemma split_dash_limits h rest : split_dash (limit_specs h ++ lit "--" :: rest) = (limit_specs h, Some rest).
Proof.
  unfold limit_specs. cbn [app split_dash].
  rewrite !bool_decide_false by (apply (limit_spec_word NOFILE) || apply (limit_spec_word NPROC) || apply (limit_spec_word ASPACE) || apply (limit_spec_word FSIZE) || apply (limit_spec_word CPU)).
  by rewrite bool_decide_true.
Qed.

(** ** The command *)

Definition spec_opts (spec : SSHSessionSpec) (home : bytes) : sshSessionOpts :=
  mkOpts (sp_SessionID spec) (sp_User spec) (sp_MenuPath spec) (Join home (lit ".adssh/history")) (Join home (lit ".adsshprofile"))
    (Join home (lit ".adsshrc")) (if bool_decide (sp_PluginDir spec = []) then [] else Clean (sp_PluginDir spec)) (sp_Principals spec) (sp_Restricted spec).

Lemma validate_ok spec : validateSSHSessionSpec spec = Ok tt ->
  validSessionToken (sp_SessionID spec) = true /\ validSessionToken (sp_User spec) = true /\
  (sp_MenuPath spec = [] \/ validSessionToken (sp_MenuPath spec) = true) /\ forallb validSessionToken (sp_Principals spec) = true /\
  (sp_PluginDir spec = [] \/ (IsAbs (sp_PluginDir spec) = true /\ validSessionToken (sp_PluginDir spec) = true)).
Proof.
  unfold validateSSHSessionSpec. destruct (negb (validSessionToken (sp_SessionID spec)) || _) eqn:E1; [done|].
  destruct (negb (bool_decide (sp_MenuPath spec = [])) && _) eqn:E2; [done|]. destruct (negb (forallb _ _)) eqn:E3; [done|].
  destruct (negb (bool_decide (sp_PluginDir spec = [])) && _) eqn:E4; [done|]. intros _. bsimp. split_and!; try done.
  - destruct (decide (sp_MenuPath spec = [])) as [|Hne]; [by left|right]. rewrite bool_decide_false in E2 by done. destruct E2 as [?|E2]; [done|]. by apply negb_false_iff in E2.
  - destruct (decide (sp_PluginDir spec = [])) as [|Hne]; [by left|right]. rewrite bool_decide_false in E4 by done. destruct E4 as [?|E4]; [done|]. by bsimp.
Qed.

(** Each flag's record of options is read back before the next is built. *)
Ltac opts :=
  cbn [o_sessionID o_user o_menu o_history o_profile o_rc o_pluginDir o_principals o_restricted gotID gotUser gotFD gotHistory gotProfile gotRC].
Lemma build_reads_back exe spec home : validateSSHSessionSpec spec = Ok tt -> IsAbs home = true -> validSessionToken home = true ->
  parseSSHSessionArgs (cmd_Args (buildSSHSessionCmd exe spec home)) = Ok (spec_opts spec home).
Proof.
  intros Hv Ha Ht. apply validate_ok in Hv as (Hid & Hu & Hm & Hps & Hpl). unfold parseSSHSessionArgs, buildSSHSessionCmd, Command, spec_opts.
  pose proof (Join_token home (lit ".adssh/history") Ha Ht eq_refl) as H1. pose proof (Join_token home (lit ".adsshprofile") Ha Ht eq_refl) as H2.
  pose proof (Join_token home (lit ".adsshrc") Ha Ht eq_refl) as H3. revert H1 H2 H3.
  generalize (Join home (lit ".adssh/history")) (Join home (lit ".adsshprofile")) (Join home (lit ".adsshrc")). intros h1 h2 h3 H1 H2 H3. cbn [cmd_Args].
  set (rest := (if sp_Restricted spec then _ else _) ++ _). change (isSSHSessionArgv _) with true. cbn [negb].
  change (drop 2 _) with (lit "--session-id" :: sp_SessionID spec :: lit "--ssh-user" :: sp_User spec :: lit "--monitor-fd" :: lit "3" :: rest).
  rewrite (arg_id _ _ _ _ Hid); opts. rewrite (arg_user _ _ _ _ Hu); opts. rewrite arg_fd; opts. unfold rest. clear rest.
  rewrite args_restricted; opts. rewrite args_menu by done. opts. cbn [app]. rewrite (arg_history _ _ _ _ H1); opts.
  rewrite (arg_profile _ _ _ _ H2); opts. rewrite (arg_rc _ _ _ _ H3); opts.
  rewrite (args_principals (sp_Principals spec) _ _ _ Hps). rewrite args_plugin by (destruct Hpl as [->|[? ?]]; [by left|right; split; [done|by apply Clean_token]]).
  cbn [rbind gotID gotUser gotFD gotHistory gotProfile gotRC andb]. unfold with_principals. cbn. f_equal. f_equal.
  - by case_bool_decide.
  - by rewrite orb_false_r.
Qed.

(** ** What a start gives *)

(** The credential that the process gets: none unless the listener is root,
    and then the resolved user's. *)
Definition session_credential (e : procEnv) (s : Session) (cred : option Credential) : Prop :=
  if pe_euid e =? 0 then
    exists u uid gid groups gids, s_User s <> [] /\ pe_lookup e (s_User s) = Some u /\ ParseUintBase 10 32 (a_Uid u) = Some uid /\
      ParseUintBase 10 32 (a_Gid u) = Some gid /\ pe_groups e u = Some groups /\ parse_ids groups = Some gids /\
      cred = Some (mkCred (wrapu 32 uid) (wrapu 32 gid) gids)
  else cred = None.
Lemma credential_inv e s c c' : cmd_Credential c = None -> applyCredential e s c = Ok c' ->
  exists cred, session_credential e s cred /\ c' = set_Credential cred c.
Proof.
  intros Hc. unfold applyCredential, session_credential. destruct (pe_euid e =? 0); cbn [negb]; [|intros [= <-]; exists None; split; [done|by destruct c; cbn in *; subst]].
  case_bool_decide; [done|]. destruct (pe_lookup e _) as [u|] eqn:E1; [|done]. destruct (ParseUintBase 10 32 (a_Uid u)) as [uid|] eqn:E2; [|done].
  destruct (ParseUintBase 10 32 (a_Gid u)) as [gid|] eqn:E3; [|done]. destruct (pe_groups e u) as [groups|] eqn:E4; [|done].
  destruct (parse_ids groups) as [gids|] eqn:E5; [|done]. intros [= <-]. eexists. split; [|reflexivity]. by exists u, uid, gid, groups, gids.
Qed.

Definition child_args (exe : bytes) (h : host) (c : command) : list bytes :=
  [exe; sessionChildFlag] ++ limit_specs h ++ [lit "--"; cmd_Path c] ++ cmd_Args c.
Lemma wrap_inv e exe c c' : pe_executable e = Some exe -> wrapped exe c = false -> wrapSessionLimits e c = Ok c' ->
  c' = if pe_test e || negb (limits_any (pe_host e)) then c else set_Args exe (child_args exe (pe_host e) c) c.
Proof.
  unfold wrapSessionLimits. intros Hexe Hw. destruct (pe_test e); cbn [orb]; [by intros [= <-]|]. destruct (limits_any _); cbn [negb]; [|by intros [= <-]].
  rewrite Hexe, Hw. by intros [= <-].
Qed.

(** The command that a login's start passes to [PrepareChild]. *)
Definition login_command (e : procEnv) (exe : bytes) (spec : SSHSessionSpec) (session : Session) (target : account) : command :=
  let home := Clean (a_HomeDir target) in
  let cmd := buildSSHSessionCmd exe spec home in
  mkCmd (cmd_Path cmd) (cmd_Args cmd)
    (Some (sshSessionEnv (pe_getenv e) target (s_User session) home exe (default [] (OverlayGet (lit "TERM") session)) (client_locale session)))
    (if pe_isDir e home then home else lit "/") None true true.
Record spawned (e : procEnv) (reg : registry) (spec : SSHSessionSpec) (session : Session) (exe : bytes) (target : account) : Prop := {
  spn_valid : validateSSHSessionSpec spec = Ok tt;
  spn_monitor : pe_hook e = true;
  spn_session : GetSession (sp_SessionID spec) reg = Some session;
  spn_marked : s_dropPrivileges session = true;
  spn_pty : sp_PTY spec = true;
  spn_exe : pe_executable e = Some exe;
  spn_user : pe_lookup e (s_User session) = Some target;
  spn_home : IsAbs (a_HomeDir target) = true /\ validSessionToken (a_HomeDir target) = true }.
Lemma spawn_inv e reg spec cmd : SpawnSSHSession e reg spec = Ok cmd ->
  exists session exe target cred, spawned e reg spec session exe target /\ session_credential e session cred /\
    let c := set_Credential cred (login_command e exe spec session target) in
    cmd = if pe_test e || negb (limits_any (pe_host e)) then c else set_Args exe (child_args exe (pe_host e) c) c.
Proof.
  unfold SpawnSSHSession. destruct (validateSSHSessionSpec spec) as [[]|] eqn:Ev; [|done]. cbn [rbind]. destruct (pe_hook e) eqn:Eh; [|done]. cbn [negb].
  destruct (GetSession _ reg) as [s|] eqn:Es; [|done]. destruct (s_dropPrivileges s) eqn:Ed; [|done]. destruct (sp_PTY spec) eqn:Ep; [|done]. cbn [negb].
  destruct (pe_executable e) as [exe|] eqn:Ee; [|done]. destruct (pe_lookup e _) as [target|] eqn:El; [|done].
  destruct (_ || _) eqn:Eab; [done|]. destruct (pe_pair e); [|done]. cbn [negb]. bsimp.
  fold (login_command e exe spec s target). set (c := login_command e exe spec s target). destruct (PrepareChild e (Some s) c) as [c'|] eqn:Ec; [|done].
  cbn [rbind]. destruct (_ || _); [done|]. intros [= <-]. exists s, exe, target. unfold PrepareChild in Ec. cbn [cmd_Env c login_command] in Ec.
  rewrite Ed in Ec. destruct (applyCredential e s c) as [c1|] eqn:Ec1; [|done]. cbn [rbind] in Ec. apply credential_inv in Ec1 as (cred & Hcr & ->); [|done].
  exists cred. split; [|split; [done|]].
  - split; try done; by split; apply negb_false_iff.
  - apply (wrap_inv e exe) in Ec; [done|done|]. unfold wrapped. cbn. by rewrite andb_false_r.
Qed.

Definition new_limits (e : procEnv) (rl : rlimits) : rlimits :=
  if pe_test e || negb (limits_any (pe_host e)) then rl else fun r => limited (requested (pe_host e) r) (rl r).
Lemma login_main exe spec home cred env dir sid ctty rl : validateSSHSessionSpec spec = Ok tt -> IsAbs home = true -> validSessionToken home = true ->
  let c := mkCmd exe (cmd_Args (buildSSHSessionCmd exe spec home)) env dir cred sid ctty in
  runSessionChild (cmd_Args c) rl = NotChild /\ main_mode (cmd_Args c) rl = RunsSession (spec_opts spec home) rl.
Proof.
  intros Hv Ha Ht c. pose proof (build_reads_back exe spec home Hv Ha Ht) as Hb. unfold main_mode. change (cmd_Args c) with (cmd_Args (buildSSHSessionCmd exe spec home)).
  rewrite Hb. split; done.
Qed.

Lemma child_exec exe h path a b args rl rl' : apply_specs (limit_specs h) rl = Ok rl' ->
  runSessionChild ([exe; sessionChildFlag] ++ limit_specs h ++ [lit "--"; path] ++ (a :: b :: args)) rl = ChildExec path (a :: b :: args) rl'.
Proof.
  intros Hap. change ([exe; sessionChildFlag] ++ ?l) with (exe :: sessionChildFlag :: l). cbn [runSessionChild]. rewrite bool_decide_true by done. cbn [negb].
  change ([lit "--"; path] ++ a :: b :: args) with (lit "--" :: path :: a :: b :: args). rewrite split_dash_limits, Hap. done.
Qed.

(** Whatever command the listener builds for a login, running it through the
    limit wrapper reaches the session mode of this program with exactly the
    session id, user, principals, restriction, menu and plugin directory of
    the specification and the paths under the user's home, and with each
    requested limit set soft and hard to the smaller of the request and the
    hard limit. *)
Theorem spawn_reads_back e reg spec cmd exe rl :
  SpawnSSHSession e reg spec = Ok cmd -> pe_executable e = Some exe -> host_ok (pe_host e) ->
  (forall r, requested (pe_host e) r <> 0 -> is_Some (rl r)) ->
  exists target rl', (exists s, GetSession (sp_SessionID spec) reg = Some s /\ pe_lookup e (s_User s) = Some target) /\
    run_command exe cmd rl = Some (RunsSession (spec_opts spec (Clean (a_HomeDir target))) rl') /\
    forall r, rl' r = new_limits e rl r.
Proof.
  intros Hs He Hh Hrl. apply spawn_inv in Hs as (s & exe' & target & cred & Hsp & _ & ->). destruct Hsp as [Hv _ Hg _ _ He' Hu [Ha Ht]].
  assert (exe' = exe) as -> by congruence.
  assert (Hca : IsAbs (Clean (a_HomeDir target)) = true) by (apply (clean_abs_Clean _ (Clean_clean _ Ha))).
  destruct (login_main exe spec _ cred (cmd_Env (login_command e exe spec s target)) (cmd_Dir (login_command e exe spec s target)) true true rl Hv Hca (Clean_token _ Ha Ht)) as [Hn Hm].
  unfold new_limits. exists target. destruct (pe_test e || _).
  - exists rl. split; [by exists s|]. split; [|done]. unfold run_command. rewrite bool_decide_true by done. cbn [negb]. cbn [cmd_Args] in Hn, Hm.
    change (cmd_Args (set_Credential _ _)) with (cmd_Args (buildSSHSessionCmd exe spec (Clean (a_HomeDir target)))). by rewrite Hn, Hm.
  - destruct (apply_limits (pe_host e) rl Hh Hrl) as (rl1 & Hap & Hrl1). exists rl1. split; [by exists s|]. split; [|done].
    destruct (login_main exe spec _ cred (cmd_Env (login_command e exe spec s target)) (cmd_Dir (login_command e exe spec s target)) true true rl1 Hv Hca (Clean_token _ Ha Ht)) as [Hn1 Hm1].
    unfold run_command. rewrite bool_decide_true by done. cbn [negb]. cbn [cmd_Args set_Args]. unfold child_args. cbn [cmd_Args cmd_Path] in *.
    unfold set_Credential, login_command. cbn [cmd_Path cmd_Args]. pose proof (child_exec exe (pe_host e) exe) as Hce.
    unfold buildSSHSessionCmd, Command in *. cbn [cmd_Path cmd_Args app] in *. rewrite (Hce _ _ _ rl rl1 Hap), bool_decide_true by done. by rewrite Hn1, Hm1.
Qed.

(** C33: A login process is started only for a valid specification, a
    registered session marked for a drop of privileges, a terminal, a monitor
    and a user who resolves to an absolute home; as root it gets exactly the
    ids and groups of that user and otherwise none, it leads a new session
    with a controlling terminal and starts in the home or in /. Outside go
    test, whenever a limit is set, it is wrapped, and where the limits asked
    for fit the integers they are read with and the system has them the
    wrapper execs the login's own command line under every limit asked for,
    each lowered to the request or to the hard limit it had, whichever is
    less, and the others untouched. *)
Theorem spawn_confined e reg spec cmd : SpawnSSHSession e reg spec = Ok cmd ->
  exists session target exe, spawned e reg spec session exe target /\
    session_credential e session (cmd_Credential cmd) /\ cmd_Path cmd = exe /\
    cmd_Setsid cmd = true /\ cmd_Setctty cmd = true /\
    cmd_Dir cmd = (if pe_isDir e (Clean (a_HomeDir target)) then Clean (a_HomeDir target) else lit "/") /\
    let login := cmd_Args (buildSSHSessionCmd exe spec (Clean (a_HomeDir target))) in
    if pe_test e || negb (limits_any (pe_host e)) then cmd_Args cmd = login
    else wrapped exe cmd = true /\
      forall rl, host_ok (pe_host e) -> (forall r, requested (pe_host e) r <> 0 -> is_Some (rl r)) ->
        exists rl', runSessionChild (cmd_Args cmd) rl = ChildExec exe login rl' /\
          forall r, rl' r = limited (requested (pe_host e) r) (rl r).
Proof.
  intros Hs. apply spawn_inv in Hs as (s & exe & target & cred & Hsp & Hcr & ->). exists s, target, exe. split; [done|].
  cbv zeta. destruct (pe_test e || negb (limits_any (pe_host e))) eqn:El; [by split_and!|]. split_and!; try done.
  - unfold wrapped. cbn [cmd_Path cmd_Args set_Args child_args app]. by rewrite !bool_decide_true.
  - intros rl Hh Hrl. destruct (apply_limits (pe_host e) rl Hh Hrl) as (rl' & Hap & Hl). exists rl'. split; [|done].
    exact (child_exec exe (pe_host e) exe _ _ _ rl rl' Hap).
Qed.

(** ** The environment's names *)

Definition entry_name (entry : bytes) : bytes := match cut_byte EQb entry with Some (k, _) => k | None => entry end.
Definition allowed_names : list bytes :=
  map lit ["HOME"; "USER"; "LOGNAME"; "SHELL"; "PATH"; "TERM"]%string ++ sessionEnvPassthrough ++ clientLocaleVars.
Lemma name_of_assign k v : ~ In EQb k -> entry_name (assign k v) = k.
Proof.
  intros Hk. unfold entry_name. assert (cut_byte EQb (assign k v) = Some (k, v)) as ->; [|done]. by apply cut_byte_spec.
Qed.

Definition passes (getenv : bytes -> bytes) (s : Session) (k : bytes) : bool :=
  bool_decide (k ∉ map fst (client_locale s)) && negb (bool_decide (getenv k = [])) && negb (existsb (fun c => byte_val c =? 0) (getenv k)).
Lemma pass_entries getenv s keys : (forall k, In k keys -> ~ In EQb k) ->
  let f := fun key => if bool_decide (key ∈ map fst (client_locale s)) then None
    else let v := getenv key in if negb (bool_decide (v = [])) && negb (existsb (fun c => byte_val c =? 0) v) then Some (assign key v) else None in
  omap f keys = map (fun k => assign k (getenv k)) (List.filter (passes getenv s) keys).
Proof.
  intros Hk f. induction keys as [|k keys IH]; [done|].
  change (omap f (k :: keys)) with (match f k with Some y => y :: omap f keys | None => omap f keys end).
  assert (f k = if passes getenv s k then Some (assign k (getenv k)) else None) as ->.
  { unfold f, passes. destruct (decide (k ∈ map fst (client_locale s))) as [E1|E1].
    - rewrite bool_decide_true by done. by rewrite bool_decide_false by auto.
    - rewrite !(bool_decide_false _ E1), (bool_decide_true _ E1). cbn [andb]. by destruct (_ && _). }
  rewrite IH by (intros; apply Hk; by right). cbn [List.filter]. by destruct (passes getenv s k).
Qed.
Definition has_overlay (s : Session) (k : bytes) : bool := bool_decide (is_Some (OverlayGet k s)).
Lemma locale_entries s keys :
  omap (fun k => v ← OverlayGet k s; Some (k, v)) keys = map (fun k => (k, default [] (OverlayGet k s))) (List.filter (has_overlay s) keys).
Proof.
  induction keys as [|k keys IH]; [done|]. change (omap ?f (k :: keys)) with (match f k with Some y => y :: omap f keys | None => omap f keys end).
  rewrite IH. cbn [List.filter]. assert (has_overlay s k = match OverlayGet k s with Some _ => true | None => false end) as ->.
  { unfold has_overlay. destruct (OverlayGet k s); [by apply bool_decide_true|]. apply bool_decide_false. by intros [? ?]. }
  destruct (OverlayGet k s) as [v|] eqn:E; [|done]. cbn. by rewrite E.
Qed.
Lemma client_locale_names s : map fst (client_locale s) = List.filter (has_overlay s) clientLocaleVars.
Proof. unfold client_locale. rewrite locale_entries, map_map. apply map_id. Qed.

Definition fixed_names : list bytes := map lit ["HOME"; "USER"; "LOGNAME"; "SHELL"; "PATH"; "TERM"]%string.
Definition fixed_value (getenv : bytes -> bytes) (target : account) (login home shell term : bytes) : list bytes :=
  let name := if bool_decide (a_Username target = []) then login else a_Username target in
  [home; name; name; shell; sanitizeSessionPath (getenv (lit "PATH")); if bool_decide (term = []) then lit "xterm" else term].
(** The environment as pairs: the six fixed names, the listener's values that
    pass, and the client's. *)
Definition env_pairs (getenv : bytes -> bytes) (target : account) (login home shell term : bytes) (s : Session) : list (bytes * bytes) :=
  combine fixed_names (fixed_value getenv target login home shell term) ++
  map (fun k => (k, getenv k)) (List.filter (passes getenv s) sessionEnvPassthrough) ++ client_locale s.
Lemma no_eq_names (l : list bytes) : forallb (fun k => negb (existsb (Ascii.eqb EQb) k)) l = true -> forall k, In k l -> ~ In EQb k.
Proof.
  intros Hf k Hk Hi. rewrite forallb_forall in Hf. specialize (Hf k Hk). apply negb_true_iff, not_true_iff_false in Hf. apply Hf, existsb_exists. exists EQb.
  split; [done|]. by rewrite Ascii.eqb_refl.
Qed.
Lemma env_is_pairs getenv target login home shell term s :
  sshSessionEnv getenv target login home shell term (client_locale s) =
  map (fun kv => assign (fst kv) (snd kv)) (env_pairs getenv target login home shell term s).
Proof.
  unfold sshSessionEnv, env_pairs. rewrite !map_app, map_map, pass_entries by (by apply no_eq_names). done.
Qed.
Lemma pairs_names getenv target login home shell term s : map fst (env_pairs getenv target login home shell term s) =
  fixed_names ++ List.filter (passes getenv s) sessionEnvPassthrough ++ List.filter (has_overlay s) clientLocaleVars.
Proof. unfold env_pairs. by rewrite !map_app, map_map, map_id, client_locale_names. Qed.

Lemma NoDup_lfilter {A} (f : A -> bool) l : NoDup l -> NoDup (List.filter f l).
Proof.
  induction 1 as [|x l Hx Hl IH]; [constructor|]. cbn. destruct (f x); [|done]. constructor; [|done]. rewrite list_elem_of_In, filter_In. rewrite list_elem_of_In in Hx. tauto.
Qed.
Lemma pairs_NoDup getenv target login home shell term s : NoDup (map fst (env_pairs getenv target login home shell term s)).
Proof.
  rewrite pairs_names. rewrite !NoDup_app. split_and!.
  - apply (bool_decide_unpack _). by vm_compute.
  - intros k Hk Hin. rewrite elem_of_app, !list_elem_of_In, !filter_In, <- !list_elem_of_In in Hin.
    assert (Hd : Forall (fun k => (k ∉ sessionEnvPassthrough) /\ (k ∉ clientLocaleVars)) fixed_names) by (apply (bool_decide_unpack _); by vm_compute).
    rewrite Forall_forall in Hd. destruct (Hd k Hk). tauto.
  - apply NoDup_lfilter, (bool_decide_unpack _). by vm_compute.
  - intros k. rewrite !list_elem_of_In, !filter_In. intros [_ Hp] Hin. unfold passes in Hp. apply andb_true_iff in Hp as [Hp _]. apply andb_true_iff in Hp as [Hp _].
    apply bool_decide_eq_true_1 in Hp. apply Hp. rewrite client_locale_names, list_elem_of_In, filter_In. done.
  - apply NoDup_lfilter, (bool_decide_unpack _). by vm_compute.
Qed.

Lemma sanitize_absolute p : Forall (fun d => IsAbs d = true) (split_byte ":" (sanitizeSessionPath p)).
Proof.
  unfold sanitizeSessionPath. destruct (List.filter IsAbs (split_byte ":" p)) as [|x l] eqn:E; [apply (bool_decide_unpack _); by vm_compute|].
  rewrite split_byte_unique.
  - rewrite <- E. apply Forall_forall. intros d Hd. by apply list_elem_of_In, filter_In in Hd as [_ ?].
  - done.
  - rewrite <- E. apply Forall_forall. intros d Hd. apply list_elem_of_In, filter_In in Hd as [Hd _].
    pose proof (split_byte_no_sep ":" p) as Hn. rewrite Forall_forall in Hn. by apply Hn, list_elem_of_In.
Qed.

Lemma pairs_lookup getenv target login home shell term s k v w :
  (k, v) ∈ env_pairs getenv target login home shell term s -> (k, w) ∈ env_pairs getenv target login home shell term s -> v = w.
Proof.
  pose proof (pairs_NoDup getenv target login home shell term s) as Hn. induction (env_pairs _ _ _ _ _ _ _) as [|kv l IH]; [by intros ?%elem_of_nil|].
  cbn [map] in Hn. apply NoDup_cons in Hn as [Hk Hn]. assert (Ht : forall x, (k, x) ∈ l -> k ∈ map fst l) by (intros x Hx; by apply (list_elem_of_fmap_2 fst _ _ Hx)).
  rewrite !elem_of_cons. intros [Hv|Hv] [Hw|Hw]; [congruence| | |by apply IH]; subst kv; cbn in Hk; destruct Hk; by eapply Ht.
Qed.

(** The environment of a login process has no name twice and none outside the
    six fixed names, the passed listener variables and the client locale
    names; a locale value of the client replaces that of the listener; and
    PATH holds absolute directories only. *)
Theorem session_env_allowlist getenv target login home shell term s :
  let env := sshSessionEnv getenv target login home shell term (client_locale s) in
  NoDup (map entry_name env) /\
  Forall (fun entry => entry_name entry ∈ allowed_names) env /\
  (forall k w v, k ∈ clientLocaleVars -> OverlayGet k s = Some w -> In (assign k w) env /\ (In (assign k v) env -> v = w)) /\
  (forall p, In (assign (lit "PATH") p) env -> Forall (fun d => IsAbs d = true) (split_byte ":" p)).
Proof.
  intros env. assert (Henv : env = map (fun kv => assign (fst kv) (snd kv)) (env_pairs getenv target login home shell term s)) by apply env_is_pairs.
  clearbody env. subst env.
  assert (Hnames : forall kv, In kv (env_pairs getenv target login home shell term s) -> fst kv ∈ allowed_names).
  { intros kv Hkv. apply (in_map fst) in Hkv. rewrite pairs_names, !in_app_iff, !filter_In in Hkv. unfold allowed_names. rewrite !elem_of_app, !list_elem_of_In. tauto. }
  assert (Heq : forall kv, In kv (env_pairs getenv target login home shell term s) -> entry_name (assign (fst kv) (snd kv)) = fst kv).
  { intros kv Hkv. apply name_of_assign, (no_eq_names allowed_names); [done|]. by apply list_elem_of_In, Hnames. }
  assert (Hin : forall k v, ~ In EQb k -> In (assign k v) (map (fun kv => assign (fst kv) (snd kv)) (env_pairs getenv target login home shell term s)) ->
    (k, v) ∈ env_pairs getenv target login home shell term s).
  { intros k v Hk (kv & E & Hkv)%in_map_iff. pose proof (Heq _ Hkv) as Hn. rewrite E, name_of_assign in Hn by done. subst k.
    unfold assign in E. apply app_inv_head in E. apply list_elem_of_In. destruct kv as [a b]. apply (f_equal (drop 1)) in E. change (b = v) in E. by subst b. }
  split_and!.
  - rewrite map_map, (map_ext_in _ fst) by exact Heq. apply pairs_NoDup.
  - apply Forall_forall. intros en (kv & <- & Hkv)%list_elem_of_In%in_map_iff. rewrite Heq by done. by apply Hnames.
  - intros k w v Hk Ho. assert (Hkw : (k, w) ∈ env_pairs getenv target login home shell term s).
    { unfold env_pairs. rewrite !elem_of_app. right. right. unfold client_locale. rewrite list_elem_of_omap. exists k. by rewrite Ho. }
    split; [apply in_map_iff; exists (k, w); split; [done|by apply list_elem_of_In]|]. intros Hv. apply Hin in Hv; [by eapply pairs_lookup|].
    apply (no_eq_names clientLocaleVars); [done|by apply list_elem_of_In].
  - intros p Hp. apply Hin in Hp; [|apply (no_eq_names fixed_names); [done|cbn; tauto]].
    assert (p = sanitizeSessionPath (getenv (lit "PATH"))) as ->; [|apply sanitize_absolute].
    eapply pairs_lookup; [exact Hp|]. unfold env_pairs. rewrite elem_of_app. left. apply list_elem_of_In. cbn [fixed_names map combine fixed_value]. right; right; right; right; by left.
Qed.

(** ** The limits of the child *)

(** A limit that changes is soft and hard, and below the hard one it
    replaces; [RLIM_INFINITY] is the largest value. *)
Definition never_raised (old new : option (Z * Z)) : Prop :=
  new = old \/ exists soft hard l, old = Some (soft, hard) /\ new = Some (l, l) /\ l <= hard.
Lemma within_trans a b c : never_raised a b -> never_raised b c -> never_raised a c.
Proof.
  intros [->|(s1 & h1 & l1 & -> & -> & H1)] [->|(s2 & h2 & l2 & E & -> & H2)]; [by left|right; eauto 6|right; eauto 6|].
  injection E as <- <-. right. exists s1, h1, l2. split_and!; [done|done|lia].
Qed.
Lemma applyOneLimit_within k n rl rl' : n <= RLIM_INFINITY -> applyOneLimit k n rl = Ok rl' -> forall r, never_raised (rl r) (rl' r).
Proof.
  intros Hn. unfold applyOneLimit. destruct (limitResource k) as [res|]; [|done]. destruct (n =? 0); [intros [= <-]; by left|].
  destruct (rl res) as [[soft hard]|] eqn:E; [|done]. intros [= <-] r. case_bool_decide as Er; [|by left]. subst r. right. rewrite E.
  eexists _, _, _. split_and!; [done|done|]. destruct (hard =? RLIM_INFINITY) eqn:Ei; cbn [negb andb]; [lia|]. destruct (hard <? n) eqn:El; lia.
Qed.
Lemma apply_specs_within specs : forall rl rl', apply_specs specs rl = Ok rl' -> forall r, never_raised (rl r) (rl' r).
Proof.
  induction specs as [|sp specs IH]; cbn [apply_specs]; intros rl rl'; [intros [= <-] r; by left|].
  destruct (cut_byte EQb sp) as [[k v]|]; [|done]. destruct (ParseUintBase 10 64 v) as [n|] eqn:En; [|done].
  destruct (applyOneLimit k n rl) as [rl1|] eqn:E1; [|done]. cbn [rbind]. intros E2 r. eapply within_trans; [|by eapply IH].
  eapply applyOneLimit_within; [|done]. apply ParseUintBase_range in En; [|lia]. unfold RLIM_INFINITY. lia.
Qed.

(** C34: Whatever its arguments, the limit wrapper reaches an exec only with
    every limit either untouched or set soft and hard to one value that is not
    above the old hard limit. *)
Theorem limits_never_raised args rl target argv rl' : runSessionChild args rl = ChildExec target argv rl' ->
  argv <> [] /\ forall r, never_raised (rl r) (rl' r).
Proof.
  unfold runSessionChild. destruct args as [|a [|flag rest]]; [done|done|]. case_bool_decide; [|done]. cbn [negb].
  destruct (split_dash rest) as [specs tail]. destruct (apply_specs specs rl) as [rl1|] eqn:Ea; [|done].
  destruct tail as [[|t [|b l]]|]; intros [= <- <- <-]; (split; [done|by eapply apply_specs_within]).
Qed.

(** ** Instances *)

Definition ann_account : account := mkAccount (lit "ann") (lit "1000") (lit "100") (lit "/home/ann/../ann").
Definition ann_session : Session :=
  set_dropPrivileges true (set_envOverlay {[TERM := lit "vt100"; lit "LANG" := lit "sv_SE.UTF-8"]} (newSession 7 (lit "s1") (lit "ann") [lit "ops"])).
Definition ann_registry : registry := mkReg {[lit "s1" := ann_session]} ∅ 0.
Definition ann_getenv (k : bytes) : bytes :=
  if bool_decide (k = lit "PATH") then lit "bin:/usr/bin::/bin" else if bool_decide (k = lit "LANG") then lit "C"
  else if bool_decide (k = lit "ADSSH_SESSION_NPROC") then lit "64" else lit "secret".
Definition root_proc : procEnv :=
  mkProc 0 (fun u => if bool_decide (u = lit "ann") then Some ann_account else None) (fun _ => Some [lit "100"; lit "27"]) (Some (lit "/usr/bin/adssh"))
    (mkHost 128 false 256 64 0 1073741824 14400) false [] ann_getenv (fun _ => true) true true.
Definition ann_spec : SSHSessionSpec := mkSpec (lit "s1") (lit "ann") [lit "ops"; lit "dba"] true [] (lit "/opt//plugins/") true.
Definition ann_limits : rlimits := fun r => match r with NOFILE => Some (100, 128) | _ => Some (RLIM_INFINITY, RLIM_INFINITY) end.
Definition ann_command : command := match SpawnSSHSession root_proc ann_registry ann_spec with Ok c => c | Err _ => Command [] [] end.
Definition ann_opts : sshSessionOpts :=
  mkOpts (lit "s1") (lit "ann") [] (lit "/home/ann/.adssh/history") (lit "/home/ann/.adsshprofile") (lit "/home/ann/.adsshrc") (lit "/opt/plugins") [lit "ops"; lit "dba"] true.

Example ann_env : cmd_Env ann_command = Some (map lit
  ["HOME=/home/ann"; "USER=ann"; "LOGNAME=ann"; "SHELL=/usr/bin/adssh"; "PATH=/usr/bin:/bin"; "TERM=vt100"; "LC_ALL=secret"; "ADSSH_MAX_SESSIONS=secret";
   "ADSSH_SESSION_NOFILE=secret"; "ADSSH_SESSION_NPROC=64"; "ADSSH_SESSION_AS=secret"; "ADSSH_SESSION_FSIZE=secret"; "ADSSH_SESSION_CPU_SECONDS=secret"; "LANG=sv_SE.UTF-8"]%string).
Proof. vm_compute. reflexivity. Qed.
Example child_limits_only : runSessionChild [lit "adssh"; sessionChildFlag; lit "nofile=64"; lit "--"] ann_limits = ChildFails MissingCommand /\
  runSessionChild [lit "adssh"; sessionChildFlag; lit "stack=64"; lit "--"; lit "/bin/sh"] ann_limits = ChildFails (UnknownLimit (lit "stack")) /\
  runSessionChild [lit "adssh"; lit "ls"; sessionChildFlag] ann_limits = NotChild.
Proof. vm_compute. done. Qed.

Lemma spawn_reads_back_witness : exists target rl', (exists s, GetSession (lit "s1") ann_registry = Some s /\ pe_lookup root_proc (s_User s) = Some target) /\
    run_command (lit "/usr/bin/adssh") ann_command ann_limits = Some (RunsSession (spec_opts ann_spec (Clean (a_HomeDir target))) rl') /\
    forall r, rl' r = new_limits root_proc ann_limits r.
Proof.
  unfold ann_command. refine (spawn_reads_back root_proc ann_registry ann_spec _ (lit "/usr/bin/adssh") ann_limits _ _ _ _); [vm_compute; reflexivity|reflexivity| |].
  - intros []; vm_compute; split; congruence.
  - intros [] _; vm_compute; eauto.
Defined.
(** The login of ann runs with its number of processes at 64 and its files
    at the hard limit. *)
Lemma spawn_confined_witness : exists session target exe, spawned root_proc ann_registry ann_spec session exe target /\
  exists rl', runSessionChild (cmd_Args ann_command) ann_limits =
    ChildExec exe (cmd_Args (buildSSHSessionCmd exe ann_spec (Clean (a_HomeDir target)))) rl' /\ rl' NOFILE = Some (128, 128) /\ rl' NPROC = Some (64, 64).
Proof.
  destruct (spawn_confined root_proc ann_registry ann_spec ann_command) as (session & target & exe & H1 & _ & _ & _ & _ & _ & H2); [vm_compute; reflexivity|].
  exists session, target, exe. split; [exact H1|]. cbv zeta in H2. destruct H2 as [_ H2].
  destruct (H2 ann_limits) as (rl' & H3 & H4); [intros []; vm_compute; split; congruence|intros [] _; vm_compute; eauto|].
  exists rl'. split; [exact H3|]. rewrite !H4. split; reflexivity.
Defined.
Lemma limits_never_raised_witness : never_raised (ann_limits NOFILE)
  (match runSessionChild [lit "adssh"; sessionChildFlag; lit "nofile=256"; lit "cpu=60"; lit "--"; lit "/bin/sh"] ann_limits with ChildExec _ _ rl => rl NOFILE | _ => None end).
Proof.
  destruct (limits_never_raised [lit "adssh"; sessionChildFlag; lit "nofile=256"; lit "cpu=60"; lit "--"; lit "/bin/sh"] ann_limits (lit "/bin/sh") [lit "/bin/sh"] _ eq_refl) as [_ H].
  exact (H NOFILE).
Defined.
