(* ===== verification/Redirect.v ===== *)
(** * The redirect policy

    security/openhandler.go: what the shell's open handler does with the path
    of a redirection.  A device /dev/tcp or /dev/udp is a gated command, a
    descriptor from 3 up is refused, and any other path is opened. *)

From S2P Require Import Prelude GoBytes GoPath NetIP Session Policy Gate.
#[local] Open Scope Z_scope.

(** ** Numbers in paths *)

(** [strings.Trim] with a cut set. *)
Definition trim_set (p : byte -> bool) (s : bytes) : bytes := trim_right_set p (drop_while p s).
Definition maxInt : Z := 2 ^ 63 - 1.
(** [strconv.Atoi] of a string of digits. *)
Definition Atoi_digits (s : bytes) : option Z := n ← parse_digits 0 s; if n <=? maxInt then Some n else None.

Definition validPort (s : bytes) : bool :=
  if bool_decide (s = []) || (5 <? zlen s) then false
  else if negb (forallb decimal s) then false
  else match Atoi_digits s with Some p => (1 <=? p) && (p <=? 65535) | None => false end.

(** ** Descriptors and devices *)

Definition resolveOpenPath (dir path : bytes) : bytes := Clean (if IsAbs path then path else Join dir path).

Definition descriptor_word (parts : list bytes) : option bytes :=
  match parts with
  | [a; b; n] => if bool_decide (a = lit "dev") && bool_decide (b = lit "fd") then Some n else None
  | [a; _; b; n] => if bool_decide (a = lit "proc") && bool_decide (b = lit "fd") then Some n else None
  | [a; _; b; _; c; n] => if bool_decide (a = lit "proc") && bool_decide (b = lit "task") && bool_decide (c = lit "fd") then Some n else None
  | _ => None
  end.
Definition descriptorPath (resolved : bytes) : option Z :=
  match descriptor_word (split_byte SLASH (if has_prefix [SLASH] resolved then drop 1 resolved else resolved)) with
  | None => None
  | Some n =>
      if bool_decide (n = []) || negb (bool_decide (trim_set decimal n = [])) then None
      else Some (match Atoi_digits n with Some fd => fd | None => maxInt end)
  end.

(** What a path names: no device, a malformed one, or an address. *)
Inductive device := NotNet | BadNet (network : bytes) | Net (network host port : bytes).
Definition dev_path (n : bytes) : bytes := lit "/dev/" ++ n.
Fixpoint parse_devices (names : list bytes) (path resolved : bytes) : device :=
  match names with
  | [] => NotNet
  | n :: names =>
      let dev := dev_path n in
      let spelled := has_prefix (dev ++ [SLASH]) path in
      if negb spelled && negb (bool_decide (resolved = dev)) && negb (has_prefix (dev ++ [SLASH]) resolved) then parse_devices names path resolved
      else if bool_decide (resolved = dev) && negb spelled then NotNet
      else if negb spelled then BadNet n
      else match split_byte SLASH (drop (length (dev ++ [SLASH])) path) with
      | [host; port] => if bool_decide (host = []) || negb (validPort port) then BadNet n else Net n host port
      | _ => BadNet n
      end
  end.
Definition parseNetDevice (path resolved : bytes) : device := parse_devices [lit "tcp"; lit "udp"] path resolved.

(** ** The handler *)

(** What it does: the default open, a refusal, or a dial. *)
Inductive openResult :=
| DefaultOpen (path : bytes) | FdRefused (fd : Z) | BadDevice (network : bytes) | RestrictedNet (network : bytes) | NetGated (e : gateErr)
| Dial (network address : bytes).

Section handler.
Context {Pt : Patterns} {AG : ApprovalGate}.

(** The session state's restriction and gate session id; without one there
    is neither.  [dir] is the interpreter's directory. *)
Definition OpenHandlerSession (env : genv) (sess : option (bool * bytes)) (dir path : bytes) (st : gstate) : openResult * gstate :=
  let resolved := resolveOpenPath dir path in
  let fd := default 0 (descriptorPath resolved) in
  if 3 <=? fd then (FdRefused fd, st)
  else match parseNetDevice path resolved with
  | NotNet => (DefaultOpen path, st)
  | BadNet n => (BadDevice n, st)
  | Net network host port =>
      let '(restricted, sid) := default (false, []) sess in
      if restricted then (RestrictedNet network, st)
      else match gateCommandContext env restricted [dev_path network; host; port] sid no_extra st with
      | (Some e, st) => (NetGated e, st)
      | (None, st) => (Dial network (JoinHostPort host port), st)
      end
  end.
End handler.

(** ** Paths by their elements *)

Lemma resolve_abs dir path : IsAbs dir = true -> exists l, Forall elem l /\ resolveOpenPath dir path = abs_path l.
Proof.
  intros Hd. unfold resolveOpenPath. apply Clean_clean. destruct (IsAbs path) eqn:Ep; [done|].
  destruct (IsAbs_cons dir Hd) as [d ->]. change (IsAbs (Clean ((SLASH :: d) ++ SLASH :: path)) = true). by rewrite Clean_IsAbs.
Qed.
Lemma under_abs l k : l <> [] -> Forall elem l -> Forall elem k ->
  has_prefix (abs_path l ++ [SLASH]) (abs_path k) = true <-> exists x r, k = l ++ x :: r.
Proof.
  intros Hne Hl Hk. rewrite has_prefix_spec. split.
  - intros [t E]. rewrite <- app_assoc in E. cbn [app] in E. apply (f_equal (split_byte SLASH)) in E. rewrite split_app, !split_abs in E by done.
    destruct l as [|a l]; [done|]. cbn [app] in E. destruct (split_byte SLASH t) as [|x r] eqn:Et; [by apply split_byte_full in Et|].
    destruct k as [|b k]; [|injection E as -> ->; by exists x, r]. injection E as E1 E2. destruct l; done.
  - intros (x & r & ->). exists (join [SLASH] (x :: r)). unfold abs_path. rewrite <- app_assoc. cbn [app]. f_equal. destruct l as [|a l]; [done|]. clear.
    revert a. induction l as [|b l IH]; intros a; [done|]. cbn [join app] in *. rewrite IH. by rewrite <- !app_assoc.
Qed.

(** The digits of a descriptor and its number, as the elements of a path name
    it; and a path below a device. *)
Definition descriptor_of (l : list bytes) : option Z :=
  match descriptor_word l with
  | Some n => if bool_decide (n = []) || negb (forallb decimal n) then None else Some (match Atoi_digits n with Some fd => fd | None => maxInt end)
  | None => None
  end.
Definition beneath (dev : list bytes) (l : list bytes) : Prop := exists x r, l = dev ++ x :: r.

Lemma drop_while_nil p s : drop_while p s = [] <-> forallb p s = true.
Proof. induction s as [|c s IH]; [done|]. cbn. destruct (p c); cbn; [done|]. split; done. Qed.
Lemma trim_set_nil p s : trim_set p s = [] <-> forallb p s = true.
Proof.
  unfold trim_set, trim_right_set. split.
  - intros E. apply (f_equal (@rev _)) in E. rewrite rev_involutive in E. cbn in E. apply drop_while_nil in E.
    rewrite <- (drop_while_nil p). destruct (drop_while p s) as [|c r] eqn:Ed; [done|].
    assert (Hc : p c = false). { clear E. revert Ed. induction s as [|d s IH]; [done|]. cbn. destruct (p d) eqn:E2; [done|]. by intros [= <- _]. }
    rewrite forallb_forall in E. specialize (E c). rewrite E in Hc; [done|]. rewrite <- in_rev. by left.
  - intros E. apply drop_while_nil in E. by rewrite E.
Qed.
Lemma descriptorPath_elems l : Forall elem l -> descriptorPath (abs_path l) = descriptor_of l.
Proof.
  intros Hl. unfold descriptorPath. change (has_prefix [SLASH] (abs_path l)) with true. cbn [drop]. change (drop 1 (abs_path l)) with (join [SLASH] l).
  assert (descriptor_word (split_byte SLASH (join [SLASH] l)) = descriptor_word l) as ->.
  { destruct l as [|a l]; [done|]. rewrite split_byte_unique; [done|done|]. eapply Forall_impl; [exact Hl|]. by intros x []. }
  unfold descriptor_of. destruct (descriptor_word l) as [n|]; [|done]. rewrite (bool_decide_ext _ _ (trim_set_nil decimal n)).
  destruct (forallb decimal n); [by rewrite (bool_decide_true (true = true))|by rewrite (bool_decide_false (false = true))].
Qed.

(** ** What a path names *)

Definition network_name (n : bytes) : Prop := n = lit "tcp" \/ n = lit "udp".
(** The one spelling of an address. *)
Definition device_path (n host port path : bytes) : Prop :=
  network_name n /\ path = dev_path n ++ SLASH :: host ++ SLASH :: port /\ host <> [] /\ ~ In SLASH host /\ validPort port = true.
Definition spelled (n path : bytes) : bool := has_prefix (dev_path n ++ [SLASH]) path.

Lemma validPort_decimal p : validPort p = true -> p <> [] /\ forallb decimal p = true.
Proof. unfold validPort. destruct (_ || _) eqn:E; [done|]. bsimp. destruct (forallb decimal p); [done|done]. Qed.
Lemma decimal_plain p : forallb decimal p = true -> ~ In SLASH p.
Proof. intros Hp Hi. rewrite forallb_forall in Hp. by specialize (Hp _ Hi). Qed.
Lemma split_two s host port : split_byte SLASH s = [host; port] <-> s = host ++ SLASH :: port /\ ~ In SLASH host /\ ~ In SLASH port.
Proof.
  split.
  - intros E. pose proof (split_byte_no_sep SLASH s) as Hn. rewrite E in Hn. inversion Hn as [|? ? H1 H2]. inversion H2 as [|? ? H3 _]. subst.
    split; [|done]. rewrite <- (split_byte_join SLASH s), E. done.
  - intros (-> & H1 & H2). apply (split_byte_unique SLASH [host; port]); [done|]. by repeat constructor.
Qed.
Lemma spelled_device n path host port : network_name n -> (spelled n path = true /\ split_byte SLASH (drop (length (dev_path n ++ [SLASH])) path) = [host; port] /\
  bool_decide (host = []) || negb (validPort port) = false) <-> device_path n host port path.
Proof.
  intros Hn. unfold spelled. rewrite has_prefix_spec, split_two. split.
  - intros ([t ->] & (E & H1 & H2) & Hb). bsimp. rewrite drop_app_length in E. subst t. split_and!; try done. by rewrite <- app_assoc.
  - intros (_ & -> & H1 & H2 & H3). split_and!.
    + exists (host ++ SLASH :: port). by rewrite <- app_assoc.
    + replace (dev_path n ++ SLASH :: host ++ SLASH :: port) with ((dev_path n ++ [SLASH]) ++ host ++ SLASH :: port) by (by rewrite <- app_assoc). by rewrite drop_app_length.
    + done.
    + by apply decimal_plain, validPort_decimal.
    + rewrite bool_decide_false, H3 by done. done.
Qed.

Definition tcp_elems : list bytes := [lit "dev"; lit "tcp"].
Definition udp_elems : list bytes := [lit "dev"; lit "udp"].
(** What is left of an address when its path is cleaned. *)
Lemma device_elems n host port path : device_path n host port path ->
  exists l, Clean path = abs_path l /\ Forall elem l /\
    (l = [lit "dev"; port] \/ l = [lit "dev"; n; port] \/ l = [lit "dev"; n; host; port]) /\ forallb decimal port = true /\ port <> [].
Proof.
  intros (Hn & -> & Hh & Hs & Hp). apply validPort_decimal in Hp as [Hp0 Hp]. assert (Hab : IsAbs (dev_path n ++ SLASH :: host ++ SLASH :: port) = true) by done.
  exists (elems (dev_path n ++ SLASH :: host ++ SLASH :: port)). split; [by apply Clean_abs|]. split; [by apply elems_abs|]. split; [|done].
  unfold elems. rewrite Hab. assert (split_byte SLASH (dev_path n ++ SLASH :: host ++ SLASH :: port) = [[]; lit "dev"; n; host; port]) as ->.
  { apply (split_byte_unique SLASH [[]; lit "dev"; n; host; port]); [done|]. rewrite !Forall_cons. split_and!; [by intros []|intros Hi; cbn in Hi; intuition discriminate| |done|by apply decimal_plain|done].
    destruct Hn as [-> | ->]; intros Hi; cbn in Hi; intuition discriminate. }
  assert (Hpe : clean_elems true [host; n; lit "dev"] [port] = [lit "dev"; n; host; port] /\ clean_elems true [n; lit "dev"] [port] = [lit "dev"; n; port] /\
    clean_elems true [lit "dev"] [port] = [lit "dev"; port]).
  { cbn [clean_elems]. rewrite !(bool_decide_false (port = _)) by (intros ->; done). done. }
  destruct Hpe as (E1 & E2 & E3). change (clean_elems true [] ([] :: lit "dev" :: ?r)) with (clean_elems true [lit "dev"] r).
  assert (forall r, clean_elems true [lit "dev"] (n :: r) = clean_elems true [n; lit "dev"] r) as -> by (intros r; by destruct Hn as [-> | ->]).
  set (r := [port]) in *. cbn [clean_elems]. rewrite (bool_decide_false (host = [])) by done. cbn [orb]. case_bool_decide as D1; [tauto|]. case_bool_decide as D2; [|tauto].
  rewrite bool_decide_false by (destruct Hn as [-> | ->]; done). tauto.
Qed.

Lemma elem_tcp : Forall elem tcp_elems.
Proof. repeat constructor; vm_compute; intuition discriminate. Qed.
Lemma elem_udp : Forall elem udp_elems.
Proof. repeat constructor; vm_compute; intuition discriminate. Qed.
Lemma tcp_at l : Forall elem l -> abs_path l = dev_path (lit "tcp") <-> l = tcp_elems.
Proof. intros Hl. split; [|by intros ->]. intros E. apply (abs_path_inj l tcp_elems); [done|apply elem_tcp|done]. Qed.
Lemma udp_at l : Forall elem l -> abs_path l = dev_path (lit "udp") <-> l = udp_elems.
Proof. intros Hl. split; [|by intros ->]. intros E. apply (abs_path_inj l udp_elems); [done|apply elem_udp|done]. Qed.
Lemma tcp_below l : Forall elem l -> has_prefix (dev_path (lit "tcp") ++ [SLASH]) (abs_path l) = true <-> beneath tcp_elems l.
Proof. intros Hl. apply (under_abs tcp_elems l); [done|apply elem_tcp|done]. Qed.
Lemma udp_below l : Forall elem l -> has_prefix (dev_path (lit "udp") ++ [SLASH]) (abs_path l) = true <-> beneath udp_elems l.
Proof. intros Hl. apply (under_abs udp_elems l); [done|apply elem_udp|done]. Qed.

(** What a path that the handler leaves to the file system may be. *)
Definition plain_path (path : bytes) (l : list bytes) : Prop :=
  spelled (lit "tcp") path = false /\ ~ beneath tcp_elems l /\
  (l = tcp_elems \/ (spelled (lit "udp") path = false /\ ~ beneath udp_elems l)).

Lemma split_cases n path (R : device) :
  match split_byte SLASH (drop (length (dev_path n ++ [SLASH])) path) with
  | [host; port] => if bool_decide (host = []) || negb (validPort port) then BadNet n else Net n host port
  | _ => BadNet n
  end = R -> R = BadNet n \/ exists host port, R = Net n host port /\ split_byte SLASH (drop (length (dev_path n ++ [SLASH])) path) = [host; port] /\
    bool_decide (host = []) || negb (validPort port) = false.
Proof.
  intros <-. destruct (split_byte _ _) as [|host [|port [|? ?]]]; try by left. destruct (_ || _) eqn:E; [by left|]. right. by exists host, port.
Qed.

Lemma parse_net path l n host port : Forall elem l -> parseNetDevice path (abs_path l) = Net n host port -> device_path n host port path.
Proof.
  intros Hl. unfold parseNetDevice. cbn [parse_devices]. fold (spelled (lit "tcp") path) (spelled (lit "udp") path).
  destruct (spelled (lit "tcp") path) eqn:Es; cbn [negb andb]; rewrite ?andb_false_r.
  - intros E. apply split_cases in E as [?|(h & p & [= -> -> ->] & E1 & E2)]; [done|]. apply (spelled_device (lit "tcp")); [by left|done].
  - rewrite !andb_true_r. destruct (_ && _); [|by case_bool_decide]. destruct (spelled (lit "udp") path) eqn:Eu; cbn [negb andb]; rewrite ?andb_false_r.
    + intros E. apply split_cases in E as [?|(h & p & [= -> -> ->] & E1 & E2)]; [done|]. apply (spelled_device (lit "udp")); [by right|done].
    + rewrite !andb_true_r. destruct (_ && _); [done|by case_bool_decide].
Qed.
Lemma parse_plain path l : Forall elem l -> parseNetDevice path (abs_path l) = NotNet <-> plain_path path l.
Proof.
  intros Hl. unfold parseNetDevice, plain_path. cbn [parse_devices]. fold (spelled (lit "tcp") path) (spelled (lit "udp") path).
  rewrite !(bool_decide_ext _ _ (tcp_at l Hl)), !(bool_decide_ext _ _ (udp_at l Hl)). pose proof (tcp_below l Hl) as Bt. pose proof (udp_below l Hl) as Bu.
  assert (Hnt : l = tcp_elems -> ~ beneath tcp_elems l /\ l <> udp_elems) by (intros ->; split; [by intros (x & r & ?)|done]).
  assert (Hnu : l = udp_elems -> ~ beneath udp_elems l) by (intros -> (x & r & ?); done).
  assert (Hs : forall n, spelled n path = true -> (match split_byte SLASH (drop (length (dev_path n ++ [SLASH])) path) with
    | [host; port] => if bool_decide (host = []) || negb (validPort port) then BadNet n else Net n host port | _ => BadNet n end) <> NotNet).
  { intros n _ E. by apply split_cases in E as [?|(? & ? & ? & _)]. }
  destruct (spelled (lit "tcp") path) eqn:Es; cbn [negb andb].
  { rewrite !andb_false_r. split; [|by intros []]. intros E. by apply Hs in E. }
  rewrite !andb_true_r. case_bool_decide as D; cbn [negb andb]; [destruct (Hnt D); intuition|].
  destruct (has_prefix _ (abs_path l)) eqn:E1; cbn [negb]; [split; [done|]; intros (_ & Hb & _); destruct Hb; by apply Bt|].
  assert (Hb : ~ beneath tcp_elems l) by (intros Hb; apply Bt in Hb; done).
  destruct (spelled (lit "udp") path) eqn:Eu; cbn [negb andb].
  { rewrite !andb_false_r. split; [intros E; by apply Hs in E|]. intros (_ & _ & [?|[? _]]); done. }
  rewrite !andb_true_r. case_bool_decide as D2; cbn [negb andb]; [specialize (Hnu D2); tauto|].
  destruct (has_prefix (dev_path (lit "udp") ++ [SLASH]) (abs_path l)) eqn:E2; cbn [negb].
  - split; [done|]. intros (_ & _ & [?|[_ Hc]]); [done|]. destruct Hc. by apply Bu.
  - split; [|done]. intros _. split_and!; [done|done|]. right. split; [done|]. intros Hc. apply Bu in Hc. done.
Qed.
Lemma device_parses n host port path l : device_path n host port path -> Clean path = abs_path l -> Forall elem l ->
  parseNetDevice path (abs_path l) = Net n host port /\ descriptor_of l = None.
Proof.
  intros Hd Hc Hl. pose proof Hd as (Hn & Hpath & _). destruct (device_elems n host port path Hd) as (k & Ek & Hk & Hcases & Hdec & Hpn).
  assert (l = k) as -> by (apply abs_path_inj; [done|done|congruence]).
  assert (Hw : descriptor_word k = None).
  { unfold descriptor_word. destruct Hcases as [-> | [-> | ->]]; [done| |by destruct Hn as [-> | ->]]. by destruct Hn as [-> | ->]. }
  split; [|unfold descriptor_of; by rewrite Hw]. destruct (proj2 (spelled_device n path host port Hn) Hd) as (E1 & E2 & E3).
  unfold parseNetDevice. cbn [parse_devices]. destruct Hn as [-> | ->].
  - unfold spelled in E1. rewrite E1. cbn [negb andb]. rewrite andb_false_r. by rewrite E2, E3.
  - fold (spelled (lit "tcp") path) (spelled (lit "udp") path). rewrite E1.
    assert (spelled (lit "tcp") path = false) as -> by (by rewrite Hpath).
    assert (Ht : k <> tcp_elems) by (intros ->; destruct Hcases as [[= <-]|[[=]|[=]]]; done).
    assert (Hb : ~ beneath tcp_elems k) by (intros (x & r & ->); destruct Hcases as [[=]|[[= ]|[=]]]).
    rewrite bool_decide_false by (by rewrite tcp_at). cbn [negb andb].
    destruct (has_prefix (dev_path (lit "tcp") ++ [SLASH]) (abs_path k)) eqn:Eb; [destruct Hb; by apply tcp_below|]. cbn [negb andb]. rewrite andb_false_r. by rewrite E2, E3.
Qed.

(** ** The host that is dialed *)

Definition bracket_or_colon (c : byte) : bool := (c =?b "[") || (c =?b "]") || (c =?b ":").
Lemma bracket_split h port : forallb decimal port = true -> existsb bracket_or_colon h = false ->
  SplitHostPort (JoinHostPort (lit "[" ++ h ++ lit "]") port) = Some h.
Proof.
  intros Hp Hh. pose proof (decimal_no ":" port Hp eq_refl) as Hc.
  assert (Hno : forall c, bracket_or_colon c = true -> has_byte c h = false).
  { intros c Hc'. apply not_true_iff_false. intros Hx. apply existsb_exists in Hx as (x & Hx & E). apply Ascii.eqb_eq in E as ->.
    assert (existsb bracket_or_colon h = true) as Ht by (apply existsb_exists; by exists c). congruence. }
  assert (Hnp : forall c, decimal c = false -> has_byte c (lit ":" ++ port) = (":"%char =?b c)).
  { intros c Hd. pose proof (decimal_no c port Hp Hd) as Hx. unfold has_byte in *. change (lit ":" ++ port) with (":"%char :: port). cbn [existsb].
    rewrite Hx. apply orb_false_r. }
  unfold JoinHostPort. assert (has_byte ":" (lit "[" ++ h ++ lit "]") = false) as ->.
  { unfold has_byte in *. rewrite !existsb_app, (Hno ":"%char) by done. done. }
  assert (Hi : last_index ":" ((lit "[" ++ h ++ lit "]") ++ lit ":" ++ port) 0 None = Some (length h + 2)%nat).
  { change (lit ":" ++ port) with (":"%char :: port). rewrite last_index_at by done. rewrite !length_app. change (length (lit "[")) with 1%nat. change (length (lit "]")) with 1%nat. f_equal. lia. }
  unfold SplitHostPort. rewrite Hi. replace ((lit "[" ++ h ++ lit "]") ++ lit ":" ++ port) with ("["%char :: h ++ "]"%char :: lit ":" ++ port) by (cbn [app lit list_ascii_of_string]; by rewrite <- app_assoc).
  change ("["%char =?b "[") with true. cbv iota. assert (cut_byte "]" (h ++ "]"%char :: lit ":" ++ port) = Some (h, lit ":" ++ port)) as -> by (apply cut_byte_first, Hno; done).
  rewrite Nat.eqb_refl. cbn [negb]. assert (has_byte "[" (h ++ "]"%char :: lit ":" ++ port) = false) as ->.
  { unfold has_byte in *. rewrite existsb_app, (Hno "["%char) by done. cbn [existsb]. rewrite (Hnp "["%char) by done. done. }
  rewrite (Hnp "]"%char) by done. done.
Qed.


Section theorems.
Context {Pt : Patterns} {AG : ApprovalGate}.

Lemma dial_complete env sess dir path st network host port st' : IsAbs dir = true ->
  device_path network host port path -> fst (default (false, []) sess) = false ->
  gateCommandContext env false [dev_path network; host; port] (snd (default (false, []) sess)) no_extra st = (None, st') ->
  OpenHandlerSession env sess dir path st = (Dial network (JoinHostPort host port), st').
Proof.
  intros Hd Hdev Hr Hg. destruct (resolve_abs dir path Hd) as (l & Hl & Er). unfold OpenHandlerSession. rewrite Er, (descriptorPath_elems l Hl).
  assert (Hab : IsAbs path = true) by (destruct Hdev as (_ & -> & _); done).
  assert (Hc : Clean path = abs_path l) by (rewrite <- Er; unfold resolveOpenPath; by rewrite Hab).
  destruct (device_parses _ _ _ _ l Hdev Hc Hl) as [-> ->]. destruct (default (false, []) sess) as [restricted sid]. cbn in Hr, Hg. subst restricted.
  unfold default. cbn. by rewrite Hg.
Qed.

(** C31: A redirection dials exactly when its path is spelled /dev/tcp or
    /dev/udp, a nonempty host without a slash and a decimal port from 1 to
    65535, the session is not restricted and the gate authorized that device
    with that host and port; what is dialed is then that host and port, or the
    host without the brackets it was spelled with. *)
Theorem dial_iff env sess dir path st network address st' : IsAbs dir = true ->
  OpenHandlerSession env sess dir path st = (Dial network address, st') <->
  exists host port, device_path network host port path /\ address = JoinHostPort host port /\ fst (default (false, []) sess) = false /\
    gateCommandContext env false [dev_path network; host; port] (snd (default (false, []) sess)) no_extra st = (None, st') /\
    forall h, SplitHostPort address = Some h -> h = host \/ host = lit "[" ++ h ++ lit "]".
Proof.
  intros Hd. destruct (resolve_abs dir path Hd) as (l & Hl & Er). split.
  - unfold OpenHandlerSession. rewrite Er, (descriptorPath_elems l Hl). destruct (3 <=? _); [done|]. destruct (parseNetDevice path (abs_path l)) as [|n|n host port] eqn:Ep; [done|done|].
    destruct (default _ sess) as [restricted sid]. destruct restricted; [done|]. apply parse_net in Ep; [|done].
    destruct (gateCommandContext _ _ _ _ _ _) as [[e|] st1] eqn:Eg; [done|]. intros [= <- <- <-]. exists host, port. split_and!; try done.
    intros h. apply join_split_host. by apply validPort_decimal, Ep.
  - intros (host & port & Hdev & -> & Hr & Hg & _). by apply dial_complete.
Qed.

(** A redirection falls through to the default open, without a gate call,
    exactly when its path resolves to no network device, however it is
    spelled, and to no descriptor of 3 or more under /dev/fd or /proc. *)
Theorem opened_iff env sess dir path st : IsAbs dir = true ->
  exists l, Forall elem l /\ resolveOpenPath dir path = abs_path l /\
    (fst (OpenHandlerSession env sess dir path st) = DefaultOpen path <->
     plain_path path l /\ forall fd, descriptor_of l = Some fd -> fd < 3) /\
    (forall p, fst (OpenHandlerSession env sess dir path st) = DefaultOpen p -> p = path /\ snd (OpenHandlerSession env sess dir path st) = st).
Proof.
  intros Hd. destruct (resolve_abs dir path Hd) as (l & Hl & Er). exists l. split; [done|]. split; [done|].
  unfold OpenHandlerSession. rewrite Er, (descriptorPath_elems l Hl), <- (parse_plain path l Hl).
  assert (Hfd : (forall fd, descriptor_of l = Some fd -> fd < 3) <-> (3 <=? default 0 (descriptor_of l)) = false).
  { destruct (descriptor_of l) as [fd|]; cbn; [|done]. rewrite Z.leb_gt. split; [intros H; by apply H|by intros ? ? [= <-]]. }
  rewrite Hfd. destruct (3 <=? _); [split; [|done]; split; [done|by intros []]|].
  destruct (parseNetDevice path (abs_path l)) as [|n|n host port]; cbn [fst snd].
  - split; [done|]. by intros p [= <-].
  - split; [|done]. split; [done|by intros []].
  - destruct (default _ sess) as [[] sid]; [split; [|done]; split; [done|by intros []]|].
    destruct (gateCommandContext env false [dev_path n; host; port] sid no_extra st) as [[e|] st1]; cbn [fst snd]; (split; [split; [done|by intros []]|done]).
Qed.
End theorems.

(** A host in brackets is authorized with them and dialed without. *)
Theorem bracketed_host_dialed `{Patterns} `{ApprovalGate} env sid dir network h port st st' :
  network_name network -> existsb (fun c => bracket_or_colon c || (c =?b SLASH)) h = false -> validPort port = true -> IsAbs dir = true ->
  gateCommandContext env false [dev_path network; lit "[" ++ h ++ lit "]"; port] sid no_extra st = (None, st') ->
  exists address, OpenHandlerSession env (Some (false, sid)) dir (dev_path network ++ SLASH :: (lit "[" ++ h ++ lit "]") ++ SLASH :: port) st = (Dial network address, st') /\
    SplitHostPort address = Some h.
Proof.
  intros Hn Hh Hp Hd Hg. exists (JoinHostPort (lit "[" ++ h ++ lit "]") port). assert (Hs : ~ In SLASH h).
  { intros Hi. assert (existsb (fun c => bracket_or_colon c || (c =?b SLASH)) h = true) as Ht by (apply existsb_exists; by exists SLASH). congruence. }
  split; [|apply bracket_split; [by apply validPort_decimal|]].
  - apply (dial_complete env (Some (false, sid)) dir _ st network (lit "[" ++ h ++ lit "]") port st'); try done. repeat split; try done. intros Hi. apply in_app_iff in Hi as [[?|[]]|Hi]; [done|].
    by apply in_app_iff in Hi as [?|[?|[]]].
  - apply not_true_iff_false. intros Hx. apply existsb_exists in Hx as (x & Hx & E).
    assert (existsb (fun c => bracket_or_colon c || (c =?b SLASH)) h = true) as Ht; [|congruence]. apply existsb_exists. exists x. split; [done|]. by rewrite E.
Qed.

(** ** Instances *)

#[local] Existing Instance literalPatterns.
#[local] Existing Instance coreApprovalGate.

(** The demo process, with a policy that allows one host. *)
Definition dial_query : query := fun v =>
  match v with
  | JObject m =>
      match get (lit "command") m, get (lit "args") m with
      | Some (JString c), Some (JArray (JString h :: _)) => Ok [JObject [(lit "allow", JBool (bool_decide (c = lit "/dev/tcp") && bool_decide (h = lit "db")))]]
      | _, _ => Ok []
      end
  | _ => Ok []
  end.
Definition dial_env : genv :=
  mkEnv 100 (lit "root", [lit "wheel"]) ∅ (Some dial_query) false None noEntitlements false false [] ∅ ∅ (Ok []) (fun _ _ _ => None) None (fun _ => None).
Definition open_result (path : string) : openResult := fst (OpenHandlerSession dial_env (Some (false, lit "s1")) (lit "/dev") (lit path) demoState).

Example open_examples :
  open_result "/dev/tcp/db/443" = Dial (lit "tcp") (lit "db:443") /\
  (exists e, open_result "/dev/tcp/evil/443" = NetGated e) /\
  open_result "tcp/db/443" = BadDevice (lit "tcp") /\ open_result "/dev/./udp/db/53" = BadDevice (lit "udp") /\ open_result "/dev/tcp/db/0443/" = BadDevice (lit "tcp") /\
  open_result "/dev/tcp/db/65536" = BadDevice (lit "tcp") /\ open_result "../proc/self/./fd/03" = FdRefused 3 /\
  open_result "/proc/1/task/2/fd/99999999999999999999" = FdRefused maxInt /\ open_result "fd/2" = DefaultOpen (lit "fd/2") /\
  open_result "/dev/tcp" = DefaultOpen (lit "/dev/tcp") /\ open_result "/dev/udp/../tcp" = DefaultOpen (lit "/dev/udp/../tcp").
Proof. repeat apply conj; try (vm_compute; reflexivity). eexists. vm_compute. reflexivity. Qed.

(** A policy that refuses one host by name lets its bracketed spelling
    through to it. *)
Definition deny_query : query := fun v =>
  match v with
  | JObject m =>
      match get (lit "args") m with
      | Some (JArray (JString h :: _)) => Ok [JObject [(lit "allow", JBool (negb (bool_decide (h = lit "evil"))))]]
      | _ => Ok []
      end
  | _ => Ok []
  end.
Definition deny_env : genv :=
  mkEnv 100 (lit "root", [lit "wheel"]) ∅ (Some deny_query) false None noEntitlements false false [] ∅ ∅ (Ok []) (fun _ _ _ => None) None (fun _ => None).
Example brackets_evade_policy :
  (exists e, fst (OpenHandlerSession deny_env (Some (false, lit "s1")) (lit "/") (lit "/dev/tcp/evil/443") demoState) = NetGated e) /\
  fst (OpenHandlerSession deny_env (Some (false, lit "s1")) (lit "/") (lit "/dev/tcp/[evil]/443") demoState) = Dial (lit "tcp") (lit "[evil]:443") /\
  SplitHostPort (lit "[evil]:443") = Some (lit "evil").
Proof. split; [eexists; vm_compute; reflexivity|]. vm_compute. done. Qed.

Lemma dial_iff_witness : exists host port, device_path (lit "tcp") host port (lit "/dev/tcp/db/443") /\ lit "db:443" = JoinHostPort host port /\
  false = false /\ fst (gateCommandContext dial_env false [dev_path (lit "tcp"); host; port] (lit "s1") no_extra demoState) = None.
Proof.
  destruct (proj1 (dial_iff dial_env (Some (false, lit "s1")) (lit "/dev") (lit "/dev/tcp/db/443") demoState (lit "tcp") (lit "db:443")
    (snd (OpenHandlerSession dial_env (Some (false, lit "s1")) (lit "/dev") (lit "/dev/tcp/db/443") demoState)) eq_refl)) as (h & p & H1 & H2 & H3 & H4 & _);
    [vm_compute; reflexivity|].
  exists h, p. split; [exact H1|]. split; [exact H2|]. split; [reflexivity|]. cbn [default snd] in H4. unfold default in H4. cbn [snd id] in H4.
  exact (f_equal fst H4).
Defined.
Lemma opened_iff_witness : exists l, resolveOpenPath (lit "/home/ann") (lit "notes/../fd") = abs_path l /\ plain_path (lit "notes/../fd") l.
Proof.
  destruct (opened_iff dial_env None (lit "/home/ann") (lit "notes/../fd") demoState eq_refl) as (l & _ & H1 & H2 & _).
  exists l. split; [exact H1|]. apply (proj1 H2). vm_compute. reflexivity.
Defined.
