(* ===== verification/Mirror.v ===== *)
(** * Session mirroring

    security/mirror.go, mirror_attach.go, mirror_share_core.go and
    mirror_share_ee.go: who may attach to a session, the share grants with
    their timers, and the mirror binary.  One operation is one locked region
    with the audit writes around it. *)

From stdpp Require Import sorting.
From S2P Require Import Prelude GoBytes GoTime Session Policy.
#[local] Open Scope Z_scope.

(** ** Grants and the state *)

Definition maxMirrorShare : Z := 24 * Hour.
Definition alnum_byte (c : byte) : bool :=
  let z := byte_val c in ((48 <=? z) && (z <=? 57)) || ((65 <=? z) && (z <=? 90)) || ((97 <=? z) && (z <=? 122)).
Definition grantee_char (c : byte) : bool := alnum_byte c || existsb (Ascii.eqb c) (lit "._@-").
(** [mirrorGranteePattern]. *)
Definition grantee_ok (s : bytes) : bool :=
  match s with [] => false | c :: s' => alnum_byte c && forallb grantee_char s' && (zlen s' <=? 63) end.

Record mirrorGrant := mkGrant { mg_owner : bytes; mg_grantee : bytes; mg_console : bool; mg_expiresAt : Z }.

Inductive mirrorErr :=
| SessionNotFound (id : bytes) | CallerUnknown | AgentAttach | CorePeer (user : bytes) | NoGrant (user : bytes) | ViewOnly (user : bytes)
| ShareUnregistered | ShareUnknown | AgentShare | ShareInvalidUser (user : bytes) | ShareOwner (user : bytes) | ShareDuration
| NoGrants | NoGrantFor (user : bytes) | EnterpriseOnly | AuditFailed (e : bytes) | RefusedAndAudit (e : mirrorErr) (a : bytes)
| NoOutput | NoTerminal | KillUnrecorded (e : bytes) | MirrorUsage | UnknownArgument (arg : bytes) | InvalidFor (v : bytes) | UnknownCommand (c : bytes).
Inductive mirrorEvent :=
| MShare (sid : bytes) (g : mirrorGrant) | MUnshare (sid : bytes) (g : mirrorGrant) | MExpired (sid : bytes) (g : mirrorGrant)
| MAttach (sid user : bytes) (console : bool) (via : bytes) | MDenied (sid user : bytes) (console : bool) (reason : mirrorErr) | MKill (sid : bytes).

(** A grant's address is its number among those made; its timer holds the
    session and the address. *)
Record mirrorState := mkWorld {
  w_reg : registry; w_grants : gmap bytes (gmap bytes nat); w_heap : list (bytes * mirrorGrant); w_timers : gset nat; w_log : list mirrorEvent }.
Definition upd_reg (r : registry) (w : mirrorState) : mirrorState := mkWorld r (w_grants w) (w_heap w) (w_timers w) (w_log w).
Definition upd_grants (g : gmap bytes (gmap bytes nat)) (w : mirrorState) : mirrorState := mkWorld (w_reg w) g (w_heap w) (w_timers w) (w_log w).
Definition upd_timers (t : gset nat) (w : mirrorState) : mirrorState := mkWorld (w_reg w) (w_grants w) (w_heap w) t (w_log w).

(** What an operation meets: the process user, the clock, the bound
    identities and which audit writes fail. *)
Record menv := mkMenv { m_os : bytes * list bytes; m_now : Z; m_ids : gmap bytes sessionIdentity; m_fail : mirrorEvent -> option bytes }.
Definition LogEvent (e : menv) (ev : mirrorEvent) (w : mirrorState) : option bytes * mirrorState :=
  match m_fail e ev with
  | Some x => (Some x, w)
  | None => (None, mkWorld (w_reg w) (w_grants w) (w_heap w) (w_timers w) (w_log w ++ [ev]))
  end.
Definition mirror_context (e : menv) (sid : bytes) (w : mirrorState) : PolicyContext * mirrorState :=
  let '(p, r) := buildPolicyContext (m_os e) (m_now e) (m_ids e) (lit "mirror") [] sid (w_reg w) in (p, upd_reg r w).

(** ** Grants *)

Definition session_grants (sid : bytes) (w : mirrorState) : gmap bytes nat := default ∅ (w_grants w !! sid).
(** The inner map written back; an empty one is deleted. *)
Definition put_grants (sid : bytes) (m : gmap bytes nat) (w : mirrorState) : mirrorState :=
  upd_grants (if bool_decide (m = ∅) then delete sid (w_grants w) else <[sid := m]> (w_grants w)) w.
Definition clearMirrorGrants (sid : bytes) (w : mirrorState) : mirrorState :=
  upd_grants (delete sid (w_grants w)) (upd_timers (w_timers w ∖ list_to_set (map snd (map_to_list (session_grants sid w)))) w).

(** [shareMirror] of the enterprise build. *)
Definition shareMirror (e : menv) (sid grantee : bytes) (d : Z) (console : bool) (w : mirrorState) : result mirrorErr unit * mirrorState :=
  match GetSession sid (w_reg w) with
  | None => (Err ShareUnregistered, w)
  | Some _ =>
      let '(owner, w) := mirror_context e sid w in
      if p_IdentityUnknown owner || bool_decide (p_User owner = []) then (Err ShareUnknown, w)
      else if match p_Agent owner with Some _ => true | None => false end then (Err AgentShare, w)
      else if negb (grantee_ok grantee) then (Err (ShareInvalidUser grantee), w)
      else if bool_decide (grantee = p_User owner) then (Err (ShareOwner grantee), w)
      else if (d <=? 0) || (maxMirrorShare <? d) then (Err ShareDuration, w)
      else
        let g := mkGrant (p_User owner) grantee console (m_now e + d) in
        let p := length (w_heap w) in
        let m := session_grants sid w in
        let timers := match m !! grantee with Some prev => w_timers w ∖ {[prev]} | None => w_timers w end in
        let w := mkWorld (w_reg w) (<[sid := <[grantee := p]> m]> (w_grants w)) (w_heap w ++ [(sid, g)]) (timers ∪ {[p]}) (w_log w) in
        match LogEvent e (MShare sid g) w with
        | (Some x, w) => (Err (AuditFailed x), w)
        | (None, w) => (Ok tt, w)
        end
  end.

Fixpoint log_revoked (e : menv) (sid : bytes) (l : list mirrorGrant) (w : mirrorState) : option bytes * mirrorState :=
  match l with
  | [] => (None, w)
  | g :: l => match LogEvent e (MUnshare sid g) w with (Some x, w) => (Some x, w) | (None, w) => log_revoked e sid l w end
  end.
(** The number of grants revoked, and the error of the first record that
    could not be written. *)
Definition unshareMirror (e : menv) (sid grantee : bytes) (w : mirrorState) : result mirrorErr Z * mirrorState :=
  let m := session_grants sid w in
  let chosen := filter (fun kv => grantee = [] \/ kv.1 = grantee) m in
  let revoked := omap (fun k => p ← chosen !! k; snd <$> w_heap w !! p) (sort_strings (elements (dom chosen))) in
  let w := put_grants sid (m ∖ chosen) (upd_timers (w_timers w ∖ list_to_set (map snd (map_to_list chosen))) w) in
  match revoked with
  | [] => (Err (if bool_decide (grantee = []) then NoGrants else NoGrantFor grantee), w)
  | _ =>
      match log_revoked e sid revoked w with
      | (Some x, w) => (Err (AuditFailed x), w)
      | (None, w) => (Ok (zlen revoked), w)
      end
  end.

(** [expireMirrorGrant]; a record that cannot be written is a warning. *)
Definition expireMirrorGrant (e : menv) (p : nat) (w : mirrorState) : mirrorState :=
  match w_heap w !! p with
  | None => w
  | Some (sid, g) =>
      if negb (bool_decide (session_grants sid w !! mg_grantee g = Some p)) then w
      else
        let w := put_grants sid (delete (mg_grantee g) (session_grants sid w)) w in
        snd (LogEvent e (MExpired sid g) (upd_timers (w_timers w ∖ {[p]}) w))
  end.
Definition liveMirrorGrant (e : menv) (sid grantee : bytes) (w : mirrorState) : option mirrorGrant * mirrorState :=
  match (p ← session_grants sid w !! grantee; g ← w_heap w !! p; Some (p, snd g)) with
  | None => (None, w)
  | Some (p, g) => if negb (m_now e <? mg_expiresAt g) then (None, expireMirrorGrant e p w) else (Some g, w)
  end.

(** ** Attaching *)

(** [mirrorPeerAccess]: the core build's refusal and the enterprise build's
    rule. *)
Definition peerAccess : Type := menv -> PolicyContext -> PolicyContext -> bytes -> bool -> mirrorState -> result mirrorErr bytes * mirrorState.
Definition corePeerAccess : peerAccess := fun _ pctx _ _ _ w => (Err (CorePeer (p_User pctx)), w).
Definition enterpriseMirrorPeerAccess : peerAccess := fun e pctx target targetID console w =>
  if existsb (fun group => bool_decide (group = lit "adssh-admin") || bool_decide (group = lit "os-root")) (p_Groups pctx) then (Ok (lit "privileged"), w)
  else
    let '(g, w) := liveMirrorGrant e targetID (p_User pctx) w in
    match g with
    | None => (Err (NoGrant (p_User pctx)), w)
    | Some g =>
        if negb (bool_decide (mg_owner g = p_User target)) then (Err (NoGrant (p_User pctx)), w)
        else if console && negb (mg_console g) then (Err (ViewOnly (p_User pctx)), w)
        else (Ok (lit "grant"), w)
    end.

(** The caller's name, and how access was granted. *)
Definition mirrorAccess (peer : peerAccess) (e : menv) (callerID targetID : bytes) (console : bool) (w : mirrorState) : bytes * result mirrorErr bytes * mirrorState :=
  match GetSession targetID (w_reg w) with
  | None => ([], Err (SessionNotFound targetID), w)
  | Some _ =>
      let '(pctx, w) := mirror_context e callerID w in
      if p_IdentityUnknown pctx || bool_decide (p_User pctx = []) then ([], Err CallerUnknown, w)
      else if match p_Agent pctx with Some _ => true | None => false end then (p_User pctx, Err AgentAttach, w)
      else
        let '(target, w) := mirror_context e targetID w in
        if negb (p_IdentityUnknown target) && negb (bool_decide (p_User target = [])) && bool_decide (p_User target = p_User pctx)
        then (p_User pctx, Ok (lit "owner"), w)
        else let '(via, w) := peer e pctx target targetID console w in (p_User pctx, via, w)
  end.
Definition mirrorAuthorizeVia (peer : peerAccess) (e : menv) (callerID targetID : bytes) (console : bool) (w : mirrorState) : result mirrorErr bytes * mirrorState :=
  let '(caller, via, w) := mirrorAccess peer e callerID targetID console w in
  match via with
  | Err r =>
      let caller := if bool_decide (caller = []) then lit "-" else caller in
      match LogEvent e (MDenied targetID caller console r) w with
      | (Some a, w) => (Err (RefusedAndAudit r a), w)
      | (None, w) => (Err r, w)
      end
  | Ok via =>
      match LogEvent e (MAttach targetID caller console via) w with
      | (Some x, w) => (Err (AuditFailed x), w)
      | (None, w) => (Ok via, w)
      end
  end.
Definition mirrorAuthorize (peer : peerAccess) (e : menv) (callerID targetID : bytes) (console : bool) (w : mirrorState) : option mirrorErr * mirrorState :=
  let '(via, w) := mirrorAuthorizeVia peer e callerID targetID console w in (match via with Ok _ => None | Err x => Some x end, w).

(** [mirrorStreamable]; [stdin] is whether the caller has an input. *)
Definition mirrorStreamable (session : Session) (console stdin : bool) : option mirrorErr :=
  match s_Out session with
  | None => Some NoOutput
  | Some _ => if console && (negb (s_hasPTY session) || negb stdin) then Some NoTerminal else None
  end.
Definition on_session (f : Session -> Session) (sid : bytes) (w : mirrorState) : mirrorState :=
  upd_reg (mkReg (alter f sid (globalSessions (w_reg w))) (unregisterHooks (w_reg w)) (unregisterHookSeq (w_reg w))) w.
(** [mirrorAttach] up to the stream, in which [listener] gets the session's
    output, and its end. *)
Definition mirrorAttach (peer : peerAccess) (e : menv) (callerID targetID : bytes) (console stdin : bool) (listener : Z) (w : mirrorState) : option mirrorErr * mirrorState :=
  let '(via, w) := mirrorAuthorizeVia peer e callerID targetID console w in
  match via with
  | Err x => (Some x, w)
  | Ok _ =>
      match GetSession targetID (w_reg w) with
      | None => (Some (SessionNotFound targetID), w)
      | Some session =>
          match mirrorStreamable session console stdin with
          | Some x => (Some x, w)
          | None => (None, on_session (fun s => set_Out (AddListener listener <$> s_Out s) s) targetID w)
          end
      end
  end.
Definition mirrorDetach (targetID : bytes) (listener : Z) (w : mirrorState) : mirrorState :=
  on_session (fun s => set_Out (RemoveListener listener <$> s_Out s) s) targetID w.

(** ** The binary *)

Record mirrorBuild := mkBuild {
  b_peer : peerAccess;
  b_share : menv -> bytes -> bytes -> Z -> bool -> mirrorState -> result mirrorErr unit * mirrorState;
  b_unshare : menv -> bytes -> bytes -> mirrorState -> result mirrorErr Z * mirrorState }.
Definition coreMirror : mirrorBuild :=
  mkBuild corePeerAccess (fun _ _ _ _ _ w => (Err EnterpriseOnly, w)) (fun _ _ _ w => (Err EnterpriseOnly, w)).
Definition enterpriseMirror : mirrorBuild := mkBuild enterpriseMirrorPeerAccess shareMirror unshareMirror.

Fixpoint share_args (args : list bytes) (grantee forValue : bytes) (console : bool) : result mirrorErr (bytes * bytes * bool) :=
  match args with
  | [] => Ok (grantee, forValue, console)
  | a :: args =>
      if bool_decide (a = lit "--with") || bool_decide (a = lit "--for") then
        match args with
        | [] => Err MirrorUsage
        | v :: args => if bool_decide (a = lit "--with") then share_args args v forValue console else share_args args grantee v console
        end
      else if bool_decide (a = lit "--console") then share_args args grantee forValue true
      else Err (UnknownArgument a)
  end.
Definition parseMirrorShareArgs (args : list bytes) : result mirrorErr (bytes * Z * bool) :=
  let! (grantee, forValue, console) := share_args args [] [] false in
  if bool_decide (grantee = []) || bool_decide (forValue = []) then Err MirrorUsage
  else match ParseDuration forValue with
  | None => Err (InvalidFor forValue)
  | Some d => Ok (grantee, d, console)
  end.

Inductive mirrorOut := Listed (infos : list SessionInfo) | Shared | Revoked (n : Z) | Killed | Streaming | MirrorFails (e : mirrorErr).
(** [sys.ListSessionInfo] in the order of ids. *)
Definition ListSessionInfo (now : Z) (r : registry) : list SessionInfo * registry :=
  (omap (fun id => fst ∘ Info now <$> globalSessions r !! id) (ListSessions r),
   mkReg (snd ∘ Info now <$> globalSessions r) (unregisterHooks r) (unregisterHookSeq r)).
Definition mirror_kill (e : menv) (targetID : bytes) (w : mirrorState) : mirrorOut * mirrorState :=
  match LogEvent e (MKill targetID) w with
  | (Some x, w) => (MirrorFails (KillUnrecorded x), w)
  | (None, w) => (Killed, on_session (Terminate (m_now e)) targetID w)
  end.
Definition mirror_Run (b : mirrorBuild) (e : menv) (sid : bytes) (args : list bytes) (stdin : bool) (listener : Z) (w : mirrorState) : mirrorOut * mirrorState :=
  match args with
  | [] | [_] => (MirrorFails MirrorUsage, w)
  | _ :: command :: rest =>
      if bool_decide (command = lit "list") then let '(l, r) := ListSessionInfo (m_now e) (w_reg w) in (Listed l, upd_reg r w)
      else if bool_decide (command = lit "share") then
        match parseMirrorShareArgs rest with
        | Err x => (MirrorFails x, w)
        | Ok (grantee, d, console) =>
            let '(r, w) := b_share b e sid grantee d console w in (match r with Ok _ => Shared | Err x => MirrorFails x end, w)
        end
      else if bool_decide (command = lit "unshare") then
        match rest with
        | [] | [_; _] =>
            if match rest with [flag; _] => negb (bool_decide (flag = lit "--with")) | _ => false end then (MirrorFails MirrorUsage, w)
            else
              let grantee := match rest with [_; g] => g | _ => [] end in
              let '(r, w) := b_unshare b e sid grantee w in (match r with Ok n => Revoked n | Err x => MirrorFails x end, w)
        | _ => (MirrorFails MirrorUsage, w)
        end
      else match rest with
      | [] => (MirrorFails MirrorUsage, w)
      | targetID :: _ =>
          match GetSession targetID (w_reg w) with
          | None => (MirrorFails (SessionNotFound targetID), w)
          | Some _ =>
              if bool_decide (command = lit "kill") then mirror_kill e targetID w
              else if bool_decide (command = lit "view") || bool_decide (command = lit "console") then
                let '(r, w) := mirrorAttach (b_peer b) e sid targetID (bool_decide (command = lit "console")) stdin listener w in
                (match r with None => Streaming | Some x => MirrorFails x end, w)
              else (MirrorFails (UnknownCommand command), w)
          end
      end
  end.

(** ** Operations in any order *)

(** [OFire] is a timer's goroutine, which may run after the timer was
    stopped; [ODetach] the end of a stream; [OSession] what else happens to the
    session table. *)
Inductive mirror_op :=
| OShare (sid grantee : bytes) (d : Z) (console : bool) | OUnshare (sid grantee : bytes) | OFire (p : nat)
| OAttach (caller target : bytes) (console stdin : bool) (listener : Z) | ODetach (target : bytes) (listener : Z) | OKill (sid : bytes) | OList
| OSession (op : registry_op).

Section run.
(** The recorder and limits of the session table, and the key of the hook that
    this package registers. *)
Context (startRec : Session -> option (Z * bytes)) (h : host) (hook : Z).

Definition session_step (op : registry_op) (w : mirrorState) : mirrorState :=
  match op with
  | Unregister id =>
      let '(_, hooks, r) := UnregisterSession id (w_reg w) in
      if bool_decide (hook ∈ hooks) then clearMirrorGrants id (upd_reg r w) else upd_reg r w
  | _ => upd_reg (reg_step startRec h op (w_reg w)) w
  end.
Definition mirror_step (eo : menv * mirror_op) (w : mirrorState) : mirrorState :=
  let '(e, op) := eo in
  match op with
  | OShare sid grantee d console => snd (shareMirror e sid grantee d console w)
  | OUnshare sid grantee => snd (unshareMirror e sid grantee w)
  | OFire p => expireMirrorGrant e p (upd_timers (w_timers w ∖ {[p]}) w)
  | OAttach caller target console stdin listener => snd (mirrorAttach enterpriseMirrorPeerAccess e caller target console stdin listener w)
  | ODetach target listener => mirrorDetach target listener w
  | OKill sid => snd (mirror_kill e sid w)
  | OList => upd_reg (snd (ListSessionInfo (m_now e) (w_reg w))) w
  | OSession op => session_step op w
  end.
Definition mirror_run (ops : list (menv * mirror_op)) (w : mirrorState) : mirrorState := foldl (fun w eo => mirror_step eo w) w ops.
End run.

(** ** What holds of the grants *)

Definition lv (w : mirrorState) (sid u : bytes) : option nat := session_grants sid w !! u.
Definition armed (w : mirrorState) (p : nat) : Prop := exists sid u, lv w sid u = Some p.
Record world_ok (hook : Z) (w : mirrorState) : Prop := {
  ok_full : forall sid m, w_grants w !! sid = Some m -> m <> ∅;
  ok_grant : forall sid u p, lv w sid u = Some p -> exists g, w_heap w !! p = Some (sid, g) /\ mg_grantee g = u /\ mg_owner g <> u /\ grantee_ok u = true;
  ok_timers : forall p, p ∈ w_timers w <-> armed w p;
  ok_session : forall sid u p, lv w sid u = Some p -> is_Some (GetSession sid (w_reg w));
  ok_hook : hook ∈ unregisterHooks (w_reg w) }.

Lemma lv_put sid m w sid' u : lv (put_grants sid m w) sid' u = if bool_decide (sid' = sid) then m !! u else lv w sid' u.
Proof.
  unfold lv, put_grants, session_grants. cbn. case_bool_decide as Em; (case_bool_decide as Es; [subst sid'|]).
  - subst m. by rewrite lookup_delete_eq, lookup_empty.
  - by rewrite lookup_delete_ne.
  - by rewrite lookup_insert_eq.
  - by rewrite lookup_insert_ne.
Qed.
Lemma full_put sid m w : (forall sid m, w_grants w !! sid = Some m -> m <> ∅) -> forall s k, w_grants (put_grants sid m w) !! s = Some k -> k <> ∅.
Proof.
  intros Hf s k. unfold put_grants. cbn. case_bool_decide as Em.
  - intros [_ Hk]%lookup_delete_Some. by eapply Hf.
  - intros [[-> <-]|[_ Hk]]%lookup_insert_Some; [done|by eapply Hf].
Qed.
Lemma LogEvent_frame e ev w : let w' := snd (LogEvent e ev w) in
  w_reg w' = w_reg w /\ w_grants w' = w_grants w /\ w_heap w' = w_heap w /\ w_timers w' = w_timers w.
Proof. unfold LogEvent. by destruct (m_fail e ev). Qed.

Lemma context_frame os now ids command args sid r :
  let r' := snd (buildPolicyContext os now ids command args sid r) in
  unregisterHooks r' = unregisterHooks r /\ unregisterHookSeq r' = unregisterHookSeq r /\ forall id, is_Some (GetSession id r') <-> is_Some (GetSession id r).
Proof.
  cbv zeta. assert (Hc : forall p, let r' := snd (match GetSession sid r with
    | Some s => let '(p', s') := addSessionClaims now p s in (p', mkReg (<[sid := s']> (globalSessions r)) (unregisterHooks r) (unregisterHookSeq r))
    | None => (p, r) end) in
    unregisterHooks r' = unregisterHooks r /\ unregisterHookSeq r' = unregisterHookSeq r /\ forall id, is_Some (GetSession id r') <-> is_Some (GetSession id r)).
  { intros p. unfold GetSession. destruct (globalSessions r !! sid) as [s|] eqn:Es; [|done]. destruct (addSessionClaims now p s) as [p' s']. cbn. split_and!; try done.
    intros id. destruct (decide (id = sid)) as [->|Hne]; [rewrite lookup_insert_eq, Es; split; by eexists|by rewrite lookup_insert_ne]. }
  unfold buildPolicyContext. case_bool_decide; [done|]. destruct (ids !! sid) as [i|]; [apply Hc|]. destruct (GetSession sid r) as [s|] eqn:Es; [|done].
  specialize (Hc (mkPctx (s_User s) (s_Principals s) command args [] (rfc3339 now) sid None None None None None None false)). exact Hc.
Qed.
(** Worlds that differ at most in their sessions' contents and the ledger. *)
Definition same_grants (w w' : mirrorState) : Prop :=
  w_grants w' = w_grants w /\ w_heap w' = w_heap w /\ w_timers w' = w_timers w /\ unregisterHooks (w_reg w') = unregisterHooks (w_reg w) /\
  forall id, is_Some (GetSession id (w_reg w)) -> is_Some (GetSession id (w_reg w')).
Lemma same_grants_refl w : same_grants w w.
Proof. done. Qed.
Lemma same_grants_trans a b c : same_grants a b -> same_grants b c -> same_grants a c.
Proof. unfold same_grants. intros (? & ? & ? & ? & ?) (? & ? & ? & ? & ?). split_and!; [congruence..|]. auto. Qed.
Lemma same_grants_log e ev w w' : same_grants w w' -> same_grants w (snd (LogEvent e ev w')).
Proof. intros Hs. eapply same_grants_trans; [exact Hs|]. unfold LogEvent. by destruct (m_fail e ev). Qed.
Lemma same_grants_context e sid w : same_grants w (snd (mirror_context e sid w)).
Proof.
  unfold mirror_context. pose proof (context_frame (m_os e) (m_now e) (m_ids e) (lit "mirror") [] sid (w_reg w)) as (H1 & _ & H2).
  destruct (buildPolicyContext _ _ _ _ _ _ _) as [p r]. cbn in *. unfold same_grants. cbn. split_and!; try done. intros id. by apply H2.
Qed.
Lemma same_grants_ok hook w w' : same_grants w w' -> world_ok hook w -> world_ok hook w' /\ forall sid u, lv w' sid u = lv w sid u.
Proof.
  intros (H1 & H2 & H3 & H4 & H5) [O1 O2 O3 O4 O5]. assert (Hl : forall sid u, lv w' sid u = lv w sid u) by (intros; unfold lv, session_grants; by rewrite H1).
  split; [|done]. split.
  - by rewrite H1.
  - intros sid u p. rewrite Hl, H2. apply O2.
  - intros p. rewrite H3, O3. unfold armed. by setoid_rewrite Hl.
  - intros sid u p. rewrite Hl. intros Hp. by eapply H5, O4.
  - by rewrite H4.
Qed.
Lemma lv_unique hook w sid u sid' u' p : world_ok hook w -> lv w sid u = Some p -> lv w sid' u' = Some p -> sid' = sid /\ u' = u.
Proof. intros Hok (g & Hg & Hu & _)%(ok_grant _ _ Hok) (g' & Hg' & Hu' & _)%(ok_grant _ _ Hok). by simplify_eq. Qed.

(** ** One operation *)

(** The operations that end a grant of a session to a user, other than a
    replacement and its own expiry. *)
Definition ends (op : mirror_op) (sid u : bytes) : Prop :=
  match op with
  | OUnshare s g => s = sid /\ (g = [] \/ g = u)
  | OSession (Unregister id) => id = sid
  | _ => False
  end.
(** A share that passed every check. *)
Record made (e : menv) (sid u : bytes) (d : Z) (console : bool) (w : mirrorState) (g : mirrorGrant) : Prop := {
  md_session : is_Some (GetSession sid (w_reg w));
  md_owner : p_IdentityUnknown (fst (mirror_context e sid w)) = false /\ p_User (fst (mirror_context e sid w)) = mg_owner g /\ mg_owner g <> [];
  md_agent : p_Agent (fst (mirror_context e sid w)) = None;
  md_user : grantee_ok u = true /\ u <> mg_owner g;
  md_for : 0 < d <= maxMirrorShare;
  md_grant : g = mkGrant (mg_owner g) u console (m_now e + d) }.
Definition mstep_ok (hook : Z) (e : menv) (op : mirror_op) (w w' : mirrorState) : Prop :=
  world_ok hook w' /\ (exists hs, w_heap w' = w_heap w ++ hs) /\
  forall sid u p, lv w' sid u = Some p ->
    (lv w sid u = Some p /\ ~ ends op sid u) \/
    (p = length (w_heap w) /\ exists d console g, op = OShare sid u d console /\ made e sid u d console w g /\ w_heap w' !! p = Some (sid, g)).

Lemma quiet_step hook e op w w' : world_ok hook w -> same_grants w w' -> (forall sid u, ~ ends op sid u) -> mstep_ok hook e op w w'.
Proof.
  intros Hok Hs He. destruct (same_grants_ok _ _ _ Hs Hok) as [Hok' Hl]. split; [done|]. split; [exists []; rewrite app_nil_r; apply Hs|].
  intros sid u p. rewrite Hl. intros Hp. left. split; [done|apply He].
Qed.
(** A state with some of the grants of the first. *)
Lemma fewer_ok hook w w' (keep : bytes -> bytes -> Prop) : world_ok hook w ->
  (forall s m, w_grants w' !! s = Some m -> m <> ∅) -> w_heap w' = w_heap w -> unregisterHooks (w_reg w') = unregisterHooks (w_reg w) ->
  (forall sid u p, lv w' sid u = Some p <-> lv w sid u = Some p /\ keep sid u) ->
  (forall p, p ∈ w_timers w' <-> p ∈ w_timers w /\ forall sid u, lv w sid u = Some p -> keep sid u) ->
  (forall sid u, keep sid u -> is_Some (GetSession sid (w_reg w)) -> is_Some (GetSession sid (w_reg w'))) -> world_ok hook w'.
Proof.
  intros Hok H1 H2 H3 H4 H5 H6. split.
  - done.
  - intros sid u p [Hp _]%H4. rewrite H2. by eapply ok_grant.
  - intros p. rewrite H5, (ok_timers _ _ Hok). split.
    + intros [(sid & u & Hp) Hk]. exists sid, u. apply H4. auto.
    + intros (sid & u & [Hp Hk]%H4). split; [by exists sid, u|]. intros sid' u' Hp'. by destruct (lv_unique _ _ _ _ _ _ _ Hok Hp Hp') as [-> ->].
  - intros sid u p [Hp Hk]%H4. apply (H6 sid u); [done|]. by eapply ok_session.
  - rewrite H3. apply Hok.
Qed.
Lemma fewer_step hook e op w w' keep : world_ok hook w ->
  (forall s m, w_grants w' !! s = Some m -> m <> ∅) -> w_heap w' = w_heap w -> unregisterHooks (w_reg w') = unregisterHooks (w_reg w) ->
  (forall sid u p, lv w' sid u = Some p <-> lv w sid u = Some p /\ keep sid u) ->
  (forall p, p ∈ w_timers w' <-> p ∈ w_timers w /\ forall sid u, lv w sid u = Some p -> keep sid u) ->
  (forall sid u, keep sid u -> is_Some (GetSession sid (w_reg w)) -> is_Some (GetSession sid (w_reg w'))) ->
  (forall sid u, keep sid u -> ~ ends op sid u) -> mstep_ok hook e op w w'.
Proof.
  intros Hok H1 H2 H3 H4 H5 H6 H7. split; [by eapply fewer_ok|]. split; [exists []; by rewrite app_nil_r|]. intros sid u p [Hp Hk]%H4. left. auto.
Qed.
Lemma step_log hook e op w w' ev : mstep_ok hook e op w w' -> mstep_ok hook e op w (snd (LogEvent e ev w')).
Proof.
  intros (H1 & H2 & H3). destruct (same_grants_ok hook w' (snd (LogEvent e ev w')) (same_grants_log _ _ _ _ (same_grants_refl w')) H1) as [H4 Hl].
  destruct (LogEvent_frame e ev w') as (_ & _ & Hh & _). split; [done|]. rewrite Hh. split; [done|]. intros sid u p. rewrite Hl. apply H3.
Qed.

Lemma expire_step hook e op p w : world_ok hook w -> (forall sid u, ~ ends op sid u) ->
  mstep_ok hook e op w (expireMirrorGrant e p (upd_timers (w_timers w ∖ {[p]}) w)) /\ mstep_ok hook e op w (expireMirrorGrant e p w).
Proof.
  intros Hok He. assert (Hdead : ~ armed w p -> forall t, (t = w_timers w \/ t = w_timers w ∖ {[p]}) -> mstep_ok hook e op w (upd_timers t w)).
  { intros Hna t Ht. apply (fewer_step hook e op w _ (fun _ _ => True)); try done; try apply Hok; try (cbn; tauto). intros q. cbn. destruct Ht as [-> | ->]; [tauto|].
    rewrite elem_of_difference, not_elem_of_singleton. split; [intros [? _]; done|]. intros [Hq _]. split; [done|]. intros ->. by apply Hna, (ok_timers _ _ Hok). }
  assert (Hgo : forall t, (t = w_timers w \/ t = w_timers w ∖ {[p]}) -> mstep_ok hook e op w (expireMirrorGrant e p (upd_timers t w))).
  { intros t Ht. unfold expireMirrorGrant. cbn [w_heap upd_timers]. destruct (w_heap w !! p) as [[sid g]|] eqn:Eh.
    2: { apply Hdead; [|done]. intros (sid & u & Hp). destruct (ok_grant _ _ Hok _ _ _ Hp) as (g & Hg & _). congruence. }
    change (session_grants sid (upd_timers t w)) with (session_grants sid w). case_bool_decide as El; cbn [negb].
    2: { apply Hdead; [|done]. intros (sid' & u & Hp). destruct (ok_grant _ _ Hok _ _ _ Hp) as (g' & Hg & Hu & _). by simplify_eq. }
    apply step_log. apply (fewer_step hook e op w _ (fun s u => ~ (s = sid /\ u = mg_grantee g))); try done.
    - by apply full_put, Hok.
    - intros s u q. change (lv (upd_timers ?t (put_grants sid ?m (upd_timers t w))) s u) with (lv (put_grants sid m w) s u). rewrite lv_put. case_bool_decide as Es.
      + subst s. rewrite lookup_delete_Some. unfold lv. split; [intros [? ?]; split; [done|by intros [_ ->]]|intros [? ?]; split; [intros <-; tauto|done]].
      + split; [intros ?; split; [done|by intros [-> _]]|by intros [? _]].
    - intros q. cbn. rewrite elem_of_difference, not_elem_of_singleton. assert (Hq : q ∈ w_timers w /\ q <> p <-> q ∈ w_timers w /\ forall s u, lv w s u = Some q -> ~ (s = sid /\ u = mg_grantee g)).
      { split; intros [Hq Hx]; (split; [done|]).
        - intros s u Hsu [-> ->]. apply Hx. unfold lv in Hsu. congruence.
        - intros ->. by apply (Hx sid (mg_grantee g) El). }
      rewrite <- Hq. destruct Ht as [-> | ->]; [done|]. rewrite elem_of_difference, not_elem_of_singleton. tauto. }
  split; [apply Hgo; by right|]. assert (Hw : upd_timers (w_timers w) w = w) by (by destruct w). rewrite <- Hw at 2. apply Hgo. by left.
Qed.


Lemma lv_insert sid grantee p w gr heap t l s u : session_grants sid w = gr ->
  lv (mkWorld (w_reg w) (<[sid := <[grantee := p]> gr]> (w_grants w)) heap t l) s u =
  if bool_decide (s = sid /\ u = grantee) then Some p else lv w s u.
Proof.
  intros <-. unfold lv, session_grants. cbn. destruct (decide (s = sid)) as [->|Hne].
  - rewrite lookup_insert_eq. cbn. destruct (decide (u = grantee)) as [->|Hu].
    + by rewrite lookup_insert_eq, bool_decide_true.
    + rewrite lookup_insert_ne, bool_decide_false by (done || by intros [_ ?]). done.
  - rewrite lookup_insert_ne, bool_decide_false by (done || by intros [? _]). done.
Qed.

Lemma share_step hook e sid grantee d console w : world_ok hook w ->
  mstep_ok hook e (OShare sid grantee d console) w (snd (shareMirror e sid grantee d console w)).
Proof.
  intros Hok. set (op := OShare sid grantee d console). assert (Hq : forall w', same_grants w w' -> mstep_ok hook e op w w') by (intros w' Hs; apply quiet_step; [done|done|by intros ? ? []]).
  unfold shareMirror. destruct (GetSession sid (w_reg w)) as [s|] eqn:Es; [|by apply Hq].
  pose proof (same_grants_context e sid w) as Hsame. destruct (mirror_context e sid w) as [owner w1] eqn:Ec. rewrite ?Ec in Hsame. cbn [snd] in Hsame.
  destruct (p_IdentityUnknown owner || bool_decide (p_User owner = [])) eqn:E1; [by apply Hq|]. destruct (p_Agent owner) eqn:E2; [by apply Hq|]. destruct (grantee_ok grantee) eqn:E3; [|by apply Hq]. cbn [negb].
  destruct (bool_decide (grantee = p_User owner)) eqn:E4; [by apply Hq|]. destruct ((d <=? 0) || (maxMirrorShare <? d)) eqn:E5; [by apply Hq|]. bsimp. destruct (same_grants_ok _ _ _ Hsame Hok) as [Hok1 Hl].
  set (g := mkGrant (p_User owner) grantee console (m_now e + d)). set (p := length (w_heap w1)). set (w2 := mkWorld _ _ _ _ _).
  assert (Hs : mstep_ok hook e op w w2); [|pose proof (step_log hook e op w w2 (MShare sid g) Hs) as Hlog; revert Hlog; destruct (LogEvent e (MShare sid g) w2) as [[x|] w3]; exact id].
  destruct Hsame as (Hg & Hh & Ht & Hr & Hses).
  assert (Hlv : forall s u, lv w2 s u = if bool_decide (s = sid /\ u = grantee) then Some p else lv w1 s u) by (intros; by apply lv_insert).
  assert (Hnew : forall s u, lv w1 s u <> Some p).
  { intros s0 u0 Hp. destruct (ok_grant _ _ Hok1 _ _ _ Hp) as (g0 & Hg0 & _). apply lookup_lt_Some in Hg0. unfold p in Hg0. lia. }
  assert (Hheap : forall q sg, w_heap w1 !! q = Some sg -> w_heap w2 !! q = Some sg) by (intros q sg Hsg; by apply lookup_app_l_Some).
  assert (Hown : is_Some (GetSession sid (w_reg w1))) by (apply Hses; by eexists).
  assert (Hp2 : w_heap w2 !! p = Some (sid, g)) by apply list_lookup_middle, eq_refl.
  split; [split|split].
  - intros s0 m. cbn. intros [[_ <-]|[_ Hm]]%lookup_insert_Some; [apply insert_non_empty|by eapply ok_full in Hm].
  - intros s0 u0 q. rewrite Hlv. case_bool_decide as Eq; [destruct Eq as [-> ->]; intros [= <-]; exists g; split_and!; try done; by intros ->|].
    intros (g0 & G0 & G1 & G2 & G3)%(ok_grant _ _ Hok1). exists g0. split_and!; try done. by apply Hheap.
  - intros q. cbn [w_timers w2]. rewrite elem_of_union, elem_of_singleton.
    assert (Hprev : (q ∈ match session_grants sid w1 !! grantee with Some prev => w_timers w1 ∖ {[prev]} | None => w_timers w1 end) <-> armed w1 q /\ lv w1 sid grantee <> Some q).
    { rewrite <- (ok_timers _ _ Hok1). unfold lv. destruct (session_grants sid w1 !! grantee) as [prev|] eqn:Ep.
      - rewrite elem_of_difference, not_elem_of_singleton. split; intros [? Hx]; (split; [done|congruence]).
      - split; [done|tauto]. }
    rewrite Hprev. unfold armed. setoid_rewrite Hlv. split.
    + intros [[(s0 & u0 & Hq0) Hne] | ->].
      * exists s0, u0. rewrite bool_decide_false; [done|]. by intros [-> ->].
      * exists sid, grantee. by rewrite bool_decide_true.
    + intros (s0 & u0 & Hx). case_bool_decide as Eq; [right; congruence|]. left. split; [by exists s0, u0|]. intros Hy.
      destruct (lv_unique _ _ _ _ _ _ _ Hok1 Hx Hy) as [-> ->]. by apply Eq.
  - intros s0 u0 q. rewrite Hlv. case_bool_decide as Eq; [by destruct Eq as [-> ->]|]. apply (ok_session _ _ Hok1).
  - apply (ok_hook _ _ Hok1).
  - cbn. rewrite Hh. by eexists.
  - intros s0 u0 q. rewrite Hlv. case_bool_decide as Eq; [|rewrite Hl; intros Hx; left; split; [done|by intros []]].
    destruct Eq as [-> ->]. intros [= <-]. right. split; [unfold p; by rewrite Hh|]. exists d, console, g. split_and!; [done| |done].
    split; rewrite ?Ec; cbn [fst]; try done; by eexists.
Qed.

Lemma unshare_step hook e sid grantee w : world_ok hook w -> mstep_ok hook e (OUnshare sid grantee) w (snd (unshareMirror e sid grantee w)).
Proof.
  intros Hok. unfold unshareMirror. set (m := session_grants sid w). set (chosen := filter _ m). set (revoked := omap _ _). set (w1 := put_grants _ _ _).
  assert (Hch : forall k p, chosen !! k = Some p <-> m !! k = Some p /\ (grantee = [] \/ k = grantee)) by (intros k p; unfold chosen; by rewrite map_lookup_filter_Some).
  assert (Hs : mstep_ok hook e (OUnshare sid grantee) w w1).
  { apply (fewer_step hook e _ w _ (fun s u => ~ (s = sid /\ (grantee = [] \/ u = grantee)))); try done.
    - by apply full_put, Hok.
    - intros s u p. unfold w1. rewrite lv_put. change (lv (upd_timers ?t w) s u) with (lv w s u). case_bool_decide as Es.
      + subst s. rewrite lookup_difference_Some, eq_None_not_Some. unfold lv. fold m. split; intros [Hp Hx]; (split; [done|]).
        * intros [_ Hy]. apply Hx. exists p. by apply Hch.
        * intros [q [Hq Hy]%Hch]. by apply Hx.
      + split; [intros ?; split; [done|by intros [-> _]]|by intros [? _]].
    - intros p. unfold w1, put_grants. cbn. rewrite elem_of_difference, elem_of_list_to_set, list_elem_of_In, in_map_iff.
      split; intros [Hp Hx]; (split; [done|]).
      + intros s u Hsu [-> Hy]. apply Hx. exists (u, p). split; [done|]. apply list_elem_of_In, elem_of_map_to_list, Hch. by split.
      + intros ([k q] & <- & Hk%list_elem_of_In%elem_of_map_to_list). apply Hch in Hk as [Hk Hy]. by apply (Hx sid k Hk).
    - cbn. intros s u Hk [-> Hy]. apply Hk. split; [done|]. destruct Hy as [?|<-]; auto. }
  assert (Hr : forall l w', mstep_ok hook e (OUnshare sid grantee) w w' -> mstep_ok hook e (OUnshare sid grantee) w (snd (log_revoked e sid l w'))).
  { induction l as [|g l IH]; intros w' Hw; [done|]. cbn [log_revoked]. pose proof (step_log hook e _ w w' (MUnshare sid g) Hw) as Hlog.
    revert Hlog. destruct (LogEvent e (MUnshare sid g) w') as [[x|] w2]; [done|]. intros Hlog. by apply IH. }
  destruct revoked as [|g l]; [exact Hs|].
  specialize (Hr (g :: l) w1 Hs). revert Hr. by destruct (log_revoked e sid (g :: l) w1) as [[x|] w2].
Qed.

Lemma step_same hook e op w w' w'' : mstep_ok hook e op w w' -> same_grants w' w'' -> mstep_ok hook e op w w''.
Proof.
  intros (H1 & H2 & H3) Hs. destruct (same_grants_ok _ _ _ Hs H1) as [H4 Hl]. pose proof Hs as (_ & Hh & _). split; [done|]. rewrite Hh. split; [done|].
  intros sid u p. rewrite Hl. apply H3.
Qed.
(** Steps that make no grant compose; [OList] stands for them. *)
Lemma step_list hook e w w' : mstep_ok hook e OList w w' <->
  world_ok hook w' /\ (exists hs, w_heap w' = w_heap w ++ hs) /\ forall sid u p, lv w' sid u = Some p -> lv w sid u = Some p.
Proof.
  unfold mstep_ok. split; intros (H1 & H2 & H3); (split_and!; [done|done|]); intros sid u p Hp.
  - by destruct (H3 sid u p Hp) as [[? _]|(_ & ? & ? & ? & ? & _)].
  - left. split; [by apply H3|by intros []].
Qed.
Lemma step_list_trans hook e w w' w'' : mstep_ok hook e OList w w' -> mstep_ok hook e OList w' w'' -> mstep_ok hook e OList w w''.
Proof.
  rewrite !step_list. intros (_ & [h1 E1] & H3) (H4 & [h2 E2] & H6). split_and!; [done| |auto]. exists (h1 ++ h2). by rewrite E2, E1, <- app_assoc.
Qed.
Lemma step_any hook e op w w' : mstep_ok hook e OList w w' -> (forall sid u, ~ ends op sid u) -> mstep_ok hook e op w w'.
Proof. rewrite step_list. intros (H1 & H2 & H3) He. split_and!; try done. intros sid u p Hp. left. split; [by apply H3|apply He]. Qed.
Lemma no_ends_list sid u : ~ ends OList sid u.
Proof. by intros []. Qed.

Lemma same_grants_on f sid w : same_grants w (on_session f sid w).
Proof.
  split_and!; try done. intros id. unfold on_session, GetSession. cbn. intros [s Hs]. destruct (decide (id = sid)) as [->|Hne].
  - rewrite lookup_alter_eq, Hs. by eexists.
  - rewrite lookup_alter_ne by done. by eexists.
Qed.
Lemma live_step hook e sid u w : world_ok hook w -> mstep_ok hook e OList w (snd (liveMirrorGrant e sid u w)).
Proof.
  intros Hok. unfold liveMirrorGrant. destruct (session_grants sid w !! u ≫= _) as [[p g]|]; [|apply quiet_step; [done|done|apply no_ends_list]].
  destruct (negb (m_now e <? mg_expiresAt g)); [|apply quiet_step; [done|done|apply no_ends_list]]. cbn [snd]. apply expire_step; [done|apply no_ends_list].
Qed.
Lemma access_step hook e caller target console w : world_ok hook w ->
  mstep_ok hook e OList w (snd (mirrorAccess enterpriseMirrorPeerAccess e caller target console w)).
Proof.
  intros Hok. assert (Hq : forall w', same_grants w w' -> mstep_ok hook e OList w w') by (intros; apply quiet_step; [done|done|apply no_ends_list]).
  unfold mirrorAccess. destruct (GetSession target (w_reg w)) as [s|]; [|by apply Hq]. pose proof (same_grants_context e caller w) as Hs1.
  destruct (mirror_context e caller w) as [pctx w1]. cbn [snd] in Hs1. destruct (p_IdentityUnknown pctx || _); [by apply Hq|].
  destruct (p_Agent pctx); [by apply Hq|]. pose proof (same_grants_context e target w1) as Hs2. destruct (mirror_context e target w1) as [tctx w2].
  cbn [snd] in Hs2. pose proof (same_grants_trans _ _ _ Hs1 Hs2) as Hs. destruct (_ && bool_decide _); [by apply Hq|].
  unfold enterpriseMirrorPeerAccess. destruct (existsb _ (p_Groups pctx)); [by apply Hq|].
  pose proof (step_list_trans _ _ _ _ _ (Hq _ Hs) (live_step hook e target (p_User pctx) w2 (proj1 (same_grants_ok _ _ _ Hs Hok)))) as Hl.
  destruct (liveMirrorGrant e target (p_User pctx) w2) as [[g|] w3]; [|done]. cbn [snd] in Hl. destruct (negb _); [done|]. by destruct (console && _).
Qed.
Lemma via_step hook e caller target console w : world_ok hook w ->
  mstep_ok hook e OList w (snd (mirrorAuthorizeVia enterpriseMirrorPeerAccess e caller target console w)).
Proof.
  intros Hok. unfold mirrorAuthorizeVia. pose proof (access_step hook e caller target console w Hok) as Ha.
  destruct (mirrorAccess _ e caller target console w) as [[name via] w1]. cbn [snd] in Ha. destruct via as [via|r].
  - pose proof (step_log hook e OList w w1 (MAttach target name console via) Ha) as Hl. revert Hl. by destruct (LogEvent e _ w1) as [[x|] w2].
  - set (c := if bool_decide _ then _ else _). pose proof (step_log hook e OList w w1 (MDenied target c console r) Ha) as Hl. revert Hl. by destruct (LogEvent e _ w1) as [[x|] w2].
Qed.
Lemma attach_step hook e caller target console stdin listener w : world_ok hook w ->
  mstep_ok hook e OList w (snd (mirrorAttach enterpriseMirrorPeerAccess e caller target console stdin listener w)).
Proof.
  intros Hok. unfold mirrorAttach. pose proof (via_step hook e caller target console w Hok) as Ha.
  destruct (mirrorAuthorizeVia _ e caller target console w) as [via w1]. cbn [snd] in Ha. destruct via as [via|r]; [|done].
  destruct (GetSession target (w_reg w1)) as [s|]; [|done]. destruct (mirrorStreamable s console stdin); [done|].
  eapply step_same; [exact Ha|apply same_grants_on].
Qed.

(** ** Any operation *)

Section run_facts.
Context (startRec : Session -> option (Z * bytes)) (h : host) (hook : Z).

Lemma session_step_ok e op w : op <> DropHook hook -> world_ok hook w -> mstep_ok hook e (OSession op) w (session_step startRec h hook op w).
Proof.
  intros Hop Hok. assert (Hq : forall r, unregisterHooks r = unregisterHooks (w_reg w) -> (forall id, is_Some (GetSession id (w_reg w)) -> is_Some (GetSession id r)) ->
    (forall sid u, ~ ends (OSession op) sid u) -> mstep_ok hook e (OSession op) w (upd_reg r w)) by (intros r H1 H2 H3; apply quiet_step; done).
  destruct op as [now s|id|id now op| |key]; cbn [session_step reg_step].
  - apply Hq; [|intros id Hid|by intros ? ? []]; (destruct (RegisterSession startRec now s h (w_reg w)) as [r'|] eqn:Er; [|done]);
      unfold RegisterSession in Er; destruct (globalSessions (w_reg w) !! s_ID s) eqn:E1; try done; destruct (sessionCapRefuse h); try done; destruct (_ && _); try done; injection Er as <-; [done|].
    unfold GetSession in *. cbn. destruct (decide (id = s_ID s)) as [->|Hne]; [rewrite lookup_insert_eq; by eexists|by rewrite lookup_insert_ne].
  - unfold UnregisterSession. destruct (globalSessions (w_reg w) !! id) as [s|] eqn:Es.
    + rewrite bool_decide_true by (unfold runUnregisterHooks; rewrite merge_sort_Permutation; apply elem_of_elements, Hok).
      unfold clearMirrorGrants. apply (fewer_step hook e _ w _ (fun s u => s <> id)); try done.
      * intros s0 m. cbn. intros [_ Hm]%lookup_delete_Some. by eapply ok_full in Hm.
      * intros s0 u p. unfold lv, session_grants. cbn. destruct (decide (s0 = id)) as [->|Hne].
        -- rewrite lookup_delete_eq. cbn. rewrite lookup_empty. by split; [|intros [_ []]].
        -- rewrite lookup_delete_ne by done. by split; [|intros [? _]].
      * intros p. cbn. rewrite elem_of_difference, elem_of_list_to_set, list_elem_of_In, in_map_iff. split; intros [Hp Hx]; (split; [done|]).
        -- intros s0 u Hsu ->. apply Hx. exists (u, p). split; [done|]. by apply list_elem_of_In, elem_of_map_to_list.
        -- intros ([k q] & <- & Hk%list_elem_of_In%elem_of_map_to_list). by apply (Hx id k Hk).
      * intros s0 u Hne. unfold GetSession. cbn. by rewrite lookup_delete_ne.
      * cbn. intros s0 u Hne ?. congruence.
    + rewrite bool_decide_false by (intros Hx; by apply elem_of_nil in Hx). apply (fewer_step hook e _ w _ (fun s u => s <> id)); try done.
      * apply Hok.
      * intros s0 u p. change (lv (upd_reg ?r w) s0 u) with (lv w s0 u). split; [|by intros [? _]]. intros Hp. split; [done|]. intros ->.
        destruct (ok_session _ _ Hok _ _ _ Hp) as [s Hs]. unfold GetSession in Hs. congruence.
      * intros p. cbn. split; [|by intros [? _]]. intros Hp. split; [done|]. intros s0 u Hsu ->. destruct (ok_session _ _ Hok _ _ _ Hsu) as [s Hs].
        unfold GetSession in Hs. congruence.
      * intros s0 u Hne. unfold GetSession. cbn. by rewrite lookup_delete_ne.
      * cbn. intros s0 u Hne ?. congruence.
  - apply Hq; [done| |by intros ? ? []]. intros id'. apply (same_grants_on (run_op now op) id w).
  - destruct (same_grants_ok hook w w (same_grants_refl w) Hok) as [_ _]. split; [|split; [exists []; by rewrite app_nil_r|intros sid u p Hp; left; split; [done|by intros []]]].
    destruct Hok as [O1 O2 O3 O4 O5]. split; try done. unfold OnSessionUnregister. cbn. rewrite elem_of_union. auto.
  - split; [|split; [exists []; by rewrite app_nil_r|intros sid u p Hp; left; split; [done|by intros []]]].
    destruct Hok as [O1 O2 O3 O4 O5]. split; try done. unfold removeHook. cbn. apply elem_of_difference. split; [done|]. rewrite elem_of_singleton. by intros ->.
Qed.

Lemma mirror_step_ok e op w : op <> OSession (DropHook hook) -> world_ok hook w -> mstep_ok hook e op w (mirror_step startRec h hook (e, op) w).
Proof.
  intros Hop Hok. destruct op as [sid grantee d console|sid grantee|p|caller target console stdin listener|target listener|sid| |op]; cbn [mirror_step].
  - by apply share_step.
  - by apply unshare_step.
  - apply expire_step; [done|by intros ? ? []].
  - apply step_any; [by apply attach_step|by intros ? ? []].
  - apply step_any; [apply quiet_step; [done|apply same_grants_on|apply no_ends_list]|by intros ? ? []].
  - apply step_any; [|by intros ? ? []]. unfold mirror_kill. pose proof (same_grants_log e (MKill sid) w w (same_grants_refl w)) as Hl.
    destruct (LogEvent e (MKill sid) w) as [[x|] w1]; cbn [snd] in *; (apply quiet_step; [done| |apply no_ends_list]); [done|].
    eapply same_grants_trans; [exact Hl|apply same_grants_on].
  - apply quiet_step; [done| |apply no_ends_list]. split_and!; try done. intros id. unfold GetSession. cbn. rewrite lookup_fmap. intros [s ->]. by eexists.
  - apply session_step_ok; [|done]. by intros ->.
Qed.

Definition allowed_op (eo : menv * mirror_op) : Prop := snd eo <> OSession (DropHook hook).
Definition start_world (r : registry) : mirrorState := mkWorld r ∅ [] ∅ [].
Lemma start_ok r : hook ∈ unregisterHooks r -> world_ok hook (start_world r).
Proof.
  intros Hr. assert (Hl : forall sid u p, lv (start_world r) sid u <> Some p).
  { intros sid u p. unfold lv, session_grants. cbn. by rewrite lookup_empty. }
  split.
  - intros sid m. cbn. by rewrite lookup_empty.
  - by intros sid u p ?%Hl.
  - intros p. split; [by intros ?%elem_of_empty|]. by intros (sid & u & ?%Hl).
  - by intros sid u p ?%Hl.
  - done.
Qed.
Lemma run_snoc ops eo w : mirror_run startRec h hook (ops ++ [eo]) w = mirror_step startRec h hook eo (mirror_run startRec h hook ops w).
Proof. unfold mirror_run. by rewrite foldl_app. Qed.
Lemma mirror_run_ok ops w : world_ok hook w -> Forall allowed_op ops -> world_ok hook (mirror_run startRec h hook ops w).
Proof.
  intros Hok. induction ops as [|[e op] ops IH] using rev_ind; [done|]. rewrite Forall_app, Forall_singleton. intros [Ho Ha]. rewrite run_snoc.
  apply mirror_step_ok; [done|by apply IH].
Qed.

(** Every grant in force comes from a share, and nothing after it ended the
    session's grants or that one. *)
Lemma grant_origin ops w : world_ok hook w -> (forall sid u, lv w sid u = None) -> Forall allowed_op ops ->
  let w' := mirror_run startRec h hook ops w in
  forall sid u p, lv w' sid u = Some p -> exists l1 e d console l2 g, ops = l1 ++ (e, OShare sid u d console) :: l2 /\
    made e sid u d console (mirror_run startRec h hook l1 w) g /\ w_heap w' !! p = Some (sid, g) /\ Forall (fun eo => ~ ends (snd eo) sid u) l2.
Proof.
  intros Hok H0. cbv zeta. induction ops as [|[e op] ops IH] using rev_ind; [by intros _ sid u p; cbn; rewrite H0|].
  rewrite Forall_app, Forall_singleton. intros [Ho Ha] sid u p. rewrite run_snoc. pose proof (mirror_run_ok ops w Hok Ho) as Hok1.
  destruct (mirror_step_ok e op _ Ha Hok1) as (_ & [hs Hh] & Hstep). intros [[Hp Hne]|(-> & d & console & g & -> & Hm & Hg)]%Hstep.
  - destruct (IH Ho sid u p Hp) as (l1 & e1 & d & console & l2 & g & -> & Hm & Hg & Hl2). exists l1, e1, d, console, (l2 ++ [(e, op)]), g.
    split_and!; [by rewrite <- app_assoc|done| |by apply Forall_app_2; [|by apply Forall_singleton]]. rewrite Hh. by apply lookup_app_l_Some.
  - exists ops, e, d, console, [], g. by split_and!.
Qed.

End run_facts.

(** ** Who may attach *)

(** The two contexts that an attach reads. *)
Definition caller_context (e : menv) (caller : bytes) (w : mirrorState) : PolicyContext := fst (mirror_context e caller w).
Definition target_context (e : menv) (caller target : bytes) (w : mirrorState) : PolicyContext := fst (mirror_context e target (snd (mirror_context e caller w))).
Definition privileged (p : PolicyContext) : bool := existsb (fun group => bool_decide (group = lit "adssh-admin") || bool_decide (group = lit "os-root")) (p_Groups p).
Definition owns (c t : PolicyContext) : Prop := p_IdentityUnknown t = false /\ p_User t <> [] /\ p_User t = p_User c.
(** How access is granted. *)
Definition access_via (e : menv) (c t : PolicyContext) (target : bytes) (console : bool) (w : mirrorState) (via : bytes) : Prop :=
  (owns c t /\ via = lit "owner") \/
  (~ owns c t /\ privileged c = true /\ via = lit "privileged") \/
  (~ owns c t /\ privileged c = false /\ via = lit "grant" /\ exists p g, lv w target (p_User c) = Some p /\ w_heap w !! p = Some (target, g) /\
     m_now e < mg_expiresAt g /\ mg_owner g = p_User t /\ (console = true -> mg_console g = true)).

Lemma access_exact hook e caller target console w via name w' : world_ok hook w ->
  mirrorAccess enterpriseMirrorPeerAccess e caller target console w = (name, Ok via, w') <->
  is_Some (GetSession target (w_reg w)) /\ p_IdentityUnknown (caller_context e caller w) = false /\ p_User (caller_context e caller w) <> [] /\
  p_Agent (caller_context e caller w) = None /\ access_via e (caller_context e caller w) (target_context e caller target w) target console w via /\
  name = p_User (caller_context e caller w) /\ w' = snd (mirror_context e target (snd (mirror_context e caller w))).
Proof.
  intros Hok. unfold mirrorAccess, caller_context, target_context. destruct (GetSession target (w_reg w)) as [s|]; [|split; [done|by intros [[? ?] _]]].
  pose proof (same_grants_context e caller w) as Hs1. destruct (mirror_context e caller w) as [c w1]. cbn [fst snd] in *.
  destruct (p_IdentityUnknown c || bool_decide (p_User c = [])) eqn:E1; [split; [done|]; intros (_ & H1 & H2 & _); rewrite H1, bool_decide_false in E1 by done; done|].
  apply orb_false_iff in E1 as [E1 E2]. apply bool_decide_eq_false_1 in E2. destruct (p_Agent c) eqn:E3; [split; [done|by intros (_ & _ & _ & ? & _)]|].
  pose proof (same_grants_context e target w1) as Hs2. destruct (mirror_context e target w1) as [t w2]. cbn [fst snd] in *.
  pose proof (same_grants_trans _ _ _ Hs1 Hs2) as Hs. destruct (same_grants_ok _ _ _ Hs Hok) as [Hok2 Hl]. pose proof Hs as (_ & Hh & _).
  assert (Hown : negb (p_IdentityUnknown t) && negb (bool_decide (p_User t = [])) && bool_decide (p_User t = p_User c) = true <-> owns c t).
  { unfold owns. rewrite !andb_true_iff, !negb_true_iff, bool_decide_eq_false, bool_decide_eq_true. tauto. }
  unfold access_via. destruct (negb (p_IdentityUnknown t) && _ && _) eqn:Eo.
  { assert (Ho : owns c t) by (by apply Hown). split.
    - intros [= <- <- <-]. split_and!; try done. left. done.
    - intros (_ & _ & _ & _ & [[_ ->]|[[? _]|[? _]]] & -> & ->); done. }
  assert (Ho : ~ owns c t) by (intros Ho; apply Hown in Ho; congruence). unfold enterpriseMirrorPeerAccess. fold (privileged c). destruct (privileged c) eqn:Ep.
  { split.
    - intros [= <- <- <-]. split_and!; try done. right. left. done.
    - intros (_ & _ & _ & _ & [[? _]|[(_ & _ & ->)|(_ & ? & _)]] & -> & ->); done. }
  unfold liveMirrorGrant. change (session_grants target w2 !! p_User c) with (lv w2 target (p_User c)). rewrite Hl.
  assert (Hnone : (forall p g, lv w target (p_User c) = Some p -> w_heap w !! p = Some (target, g) -> m_now e < mg_expiresAt g -> mg_owner g = p_User t -> (console = true -> mg_console g = true) -> False) ->
    forall x, ~ (is_Some (Some s) /\ p_IdentityUnknown c = false /\ p_User c <> [] /\ @None AgentClaim = None /\
      (owns c t /\ via = lit "owner" \/ ~ owns c t /\ false = true /\ via = lit "privileged" \/ ~ owns c t /\ false = false /\ via = lit "grant" /\
        (exists p g, lv w target (p_User c) = Some p /\ w_heap w !! p = Some (target, g) /\ m_now e < mg_expiresAt g /\ mg_owner g = p_User t /\ (console = true -> mg_console g = true))) /\
      name = p_User c /\ w' = x)).
  { intros Hno x (_ & _ & _ & _ & [[? _]|[(_ & ? & _)|(_ & _ & _ & p & g & H1 & H2 & H3 & H4 & H5)]] & _); [done|done|by eapply Hno]. }
  destruct (lv w target (p_User c)) as [p|] eqn:Elv; cbn [mbind option_bind].
  2: { split; [done|]. intros Hx. exfalso. revert Hx. apply Hnone. congruence. }
  destruct (ok_grant _ _ Hok _ _ _ Elv) as (g & Hg & _). rewrite Hh, Hg. cbn [mbind option_bind snd].
  destruct (m_now e <? mg_expiresAt g) eqn:Ex; cbn [negb].
  2: { split; [done|]. intros Hx. exfalso. revert Hx. apply Hnone. intros p0 g0 [= <-]. rewrite Hg. intros [= <-]. apply Z.ltb_ge in Ex. lia. }
  apply Z.ltb_lt in Ex. destruct (bool_decide (mg_owner g = p_User t)) eqn:Eow; [apply bool_decide_eq_true_1 in Eow|apply bool_decide_eq_false_1 in Eow]; cbn [negb].
  2: { split; [done|]. intros Hx. exfalso. revert Hx. apply Hnone. intros p0 g0 [= <-]. rewrite Hg. by intros [= <-]. }
  destruct (console && negb (mg_console g)) eqn:Ec.
  { split; [done|]. intros Hx. exfalso. revert Hx. apply Hnone. intros p0 g0 [= <-]. rewrite Hg. intros [= <-] _ _ Hc. apply andb_true_iff in Ec as [Ec1 Ec2]. rewrite Hc in Ec2; done. }
  assert (Hcon : console = true -> mg_console g = true) by (intros ->; by destruct (mg_console g)). split.
  - intros [= <- <- <-]. split_and!; try done. right. right. split_and!; try done. by exists p, g.
  - intros (_ & _ & _ & _ & [[? _]|[(_ & ? & _)|(_ & _ & -> & _)]] & -> & ->); done.
Qed.

Lemma via_exact hook e caller target console w via w' : world_ok hook w ->
  mirrorAuthorizeVia enterpriseMirrorPeerAccess e caller target console w = (Ok via, w') <->
  (is_Some (GetSession target (w_reg w)) /\ p_IdentityUnknown (caller_context e caller w) = false /\ p_User (caller_context e caller w) <> [] /\
   p_Agent (caller_context e caller w) = None /\ access_via e (caller_context e caller w) (target_context e caller target w) target console w via) /\
  LogEvent e (MAttach target (p_User (caller_context e caller w)) console via) (snd (mirror_context e target (snd (mirror_context e caller w)))) = (None, w').
Proof.
  intros Hok. unfold mirrorAuthorizeVia. split.
  - destruct (mirrorAccess _ e caller target console w) as [[name r] w1] eqn:Ea. destruct r as [via1|r].
    + destruct (LogEvent e _ w1) as [[x|] w2] eqn:El; [done|]. intros [= -> ->]. apply (access_exact hook) in Ea; [|done]. destruct Ea as (H1 & H2 & H3 & H4 & H5 & -> & ->). done.
    + destruct (LogEvent e _ w1) as [[x|] w2]; done.
  - intros [(H1 & H2 & H3 & H4 & H5) Hl].
    assert (mirrorAccess enterpriseMirrorPeerAccess e caller target console w = (p_User (caller_context e caller w), Ok via, snd (mirror_context e target (snd (mirror_context e caller w))))) as -> by (by apply (access_exact hook)).
    by rewrite Hl.
Qed.

(** The session table after a caller's context is built: an elevation that
    the named session had and that has expired is gone. *)
Definition lapsed (now : Z) (sid : bytes) (r : registry) : registry :=
  mkReg (if bool_decide (sid = []) then globalSessions r
         else alter (fun s => match s_elevation s with
                              | Some x => if now <? el_ExpiresAt x then s else set_elevation None s
                              | None => s
                              end) sid (globalSessions r))
    (unregisterHooks r) (unregisterHookSeq r).

Lemma context_lapses e sid w : w_reg (snd (mirror_context e sid w)) = lapsed (m_now e) sid (w_reg w) /\ w_log (snd (mirror_context e sid w)) = w_log w.
Proof.
  unfold mirror_context, lapsed, buildPolicyContext, GetSession. case_bool_decide as Es; [by destruct w as [[]]|].
  assert (Hc : forall p s, snd (addSessionClaims (m_now e) p s) = match s_elevation s with
      | Some x => if m_now e <? el_ExpiresAt x then s else set_elevation None s | None => s end).
  { intros p s. unfold addSessionClaims, ActiveElevation. destruct (s_elevation s) as [x|]; [|done]. by destruct (m_now e <? el_ExpiresAt x). }
  destruct (globalSessions (w_reg w) !! sid) as [s|] eqn:Eg.
  - assert (Ha : forall f : Session -> Session, alter f sid (globalSessions (w_reg w)) = <[sid := f s]> (globalSessions (w_reg w))).
    { intros f. apply map_eq. intros k. destruct (decide (k = sid)) as [->|Hk]; [by rewrite lookup_alter_eq, lookup_insert_eq, Eg|by rewrite lookup_alter_ne, lookup_insert_ne]. }
    rewrite Ha. destruct (m_ids e !! sid); (destruct (addSessionClaims _ _ s) as [p' s'] eqn:Ea; pose proof (f_equal snd Ea) as Hs; rewrite Hc in Hs; cbn [snd] in Hs; by rewrite Hs).
  - assert (Ha : forall f : Session -> Session, alter f sid (globalSessions (w_reg w)) = globalSessions (w_reg w)).
    { intros f. apply map_eq. intros k. destruct (decide (k = sid)) as [->|Hk]; [by rewrite lookup_alter_eq, Eg|by rewrite lookup_alter_ne]. }
    rewrite Ha. destruct (m_ids e !! sid); by destruct w as [[]].
Qed.

(** C32: In the enterprise build an attach is authorized exactly for a
    registered session, a known caller that is no live agent, who owns the
    session, holds a supervising role, or has an unexpired grant of the
    session's present user for the mode asked, and only if its record is
    written. What changes then is the ledger, by that record, and in the
    session table only an elevation of the caller or of the target that has
    expired, which is dropped. *)
Theorem attach_iff hook e caller target console w via w' : world_ok hook w ->
  let c := caller_context e caller w in
  let t := target_context e caller target w in
  mirrorAuthorizeVia enterpriseMirrorPeerAccess e caller target console w = (Ok via, w') <->
  is_Some (GetSession target (w_reg w)) /\ p_IdentityUnknown c = false /\ p_User c <> [] /\ p_Agent c = None /\
  access_via e c t target console w via /\ m_fail e (MAttach target (p_User c) console via) = None /\
  w' = mkWorld (lapsed (m_now e) target (lapsed (m_now e) caller (w_reg w))) (w_grants w) (w_heap w) (w_timers w)
         (w_log w ++ [MAttach target (p_User c) console via]).
Proof.
  intros Hok c t. subst c t. rewrite (via_exact hook e caller target console w via w' Hok).
  pose proof (same_grants_trans _ _ _ (same_grants_context e caller w) (same_grants_context e target (snd (mirror_context e caller w)))) as (H1 & H2 & H3 & _).
  destruct (context_lapses e caller w) as [R1 L1], (context_lapses e target (snd (mirror_context e caller w))) as [R2 L2].
  unfold LogEvent. rewrite H1, H2, H3, R2, R1, L2, L1. destruct (m_fail e _) as [x|].
  - split; [by intros [_ ?]|by intros (_ & _ & _ & _ & _ & ? & _)].
  - split; [intros [(? & ? & ? & ? & ?) [= <-]]; done|intros (? & ? & ? & ? & ? & _ & ->); done].
Qed.

Section runs.
Context (startRec : Session -> option (Z * bytes)) (h : host) (hook : Z).

(** After any operations in any order, an attach by grant goes back to one
    share of that very session to that very user, made by the session's
    present user for at most a day that has not passed, for console only if
    the share said so, and with no unshare of it and no end of the session
    since. *)
Theorem granted_attach_was_shared r ops e caller target console w' : hook ∈ unregisterHooks r -> Forall (allowed_op hook) ops ->
  let w := mirror_run startRec h hook ops (start_world r) in
  let user := p_User (caller_context e caller w) in
  mirrorAuthorizeVia enterpriseMirrorPeerAccess e caller target console w = (Ok (lit "grant"), w') ->
  exists before e1 d console1 after g,
    ops = before ++ (e1, OShare target user d console1) :: after /\
    made e1 target user d console1 (mirror_run startRec h hook before (start_world r)) g /\
    Forall (fun eo => ~ ends (snd eo) target user) after /\
    mg_owner g = p_User (target_context e caller target w) /\ m_now e < m_now e1 + d /\ (console = true -> console1 = true) /\
    p_Agent (caller_context e caller w) = None.
Proof.
  intros Hh Ho w user Hv. pose proof (start_ok hook r Hh) as Hs. pose proof (mirror_run_ok startRec h hook ops _ Hs Ho) as Hok.
  apply (via_exact hook) in Hv as [(_ & _ & _ & Hag & [[_ ?]|[(_ & _ & ?)|(_ & _ & _ & p & g & Hp & Hg & Hexp & Hown & Hc)]]) _]; [done|done| |done].
  destruct (grant_origin startRec h hook ops (start_world r) Hs) with (sid := target) (u := user) (p := p) as (l1 & e1 & d & c1 & l2 & g1 & E & Hm & Hg1 & Hl2); [|done|done|].
  { intros sid u. unfold lv, session_grants. cbn. by rewrite lookup_empty. }
  fold w in Hg1. rewrite Hg in Hg1. injection Hg1 as <-. exists l1, e1, d, c1, l2, g. split_and!; try done.
  - by rewrite (md_grant _ _ _ _ _ _ _ Hm) in Hexp.
  - intros Hcon. specialize (Hc Hcon). by rewrite (md_grant _ _ _ _ _ _ _ Hm) in Hc.
Qed.

(** In every state that operations can reach, grants belong to registered
    sessions, name a valid user other than the owner and have exactly one
    armed timer each, and the late goroutine of a timer whose grant was
    replaced or revoked changes nothing. *)
Theorem grants_well_formed r ops : hook ∈ unregisterHooks r -> Forall (allowed_op hook) ops ->
  let w := mirror_run startRec h hook ops (start_world r) in
  (forall sid u p, lv w sid u = Some p -> is_Some (GetSession sid (w_reg w)) /\ p ∈ w_timers w /\
     exists g, w_heap w !! p = Some (sid, g) /\ mg_grantee g = u /\ mg_owner g <> u /\ grantee_ok u = true) /\
  (forall p, p ∈ w_timers w -> armed w p) /\
  (forall e p, ~ armed w p -> mirror_step startRec h hook (e, OFire p) w = w).
Proof.
  intros Hh Ho w. pose proof (mirror_run_ok startRec h hook ops _ (start_ok hook r Hh) Ho) as Hok. fold w in Hok. split_and!.
  - intros sid u p Hp. split; [by eapply ok_session|]. split; [apply (ok_timers _ _ Hok); by exists sid, u|]. by eapply ok_grant.
  - intros p Hp. by apply (ok_timers _ _ Hok).
  - intros e p Hna. cbn [mirror_step]. assert (Ht : upd_timers (w_timers w ∖ {[p]}) w = w).
    { assert (w_timers w ∖ {[p]} = w_timers w) as ->; [|by destruct w]. apply leibniz_equiv. intros q. rewrite elem_of_difference, not_elem_of_singleton.
      split; [by intros [? _]|]. intros Hq. split; [done|]. intros ->. by apply Hna, (ok_timers _ _ Hok). }
    rewrite Ht. unfold expireMirrorGrant. destruct (w_heap w !! p) as [[sid g]|]; [|done]. rewrite bool_decide_false; [done|].
    intros Hx. apply Hna. by exists sid, (mg_grantee g).
Qed.
End runs.

(** ** Instances *)

Definition quiet_menv (now : Z) : menv := mkMenv (lit "root", []) now ∅ (fun _ => None).
Definition bob_session : Session := set_Out (Some []) (set_User (lit "bob") (mkSession (lit "s2") [] [] 0 [] None 0 [] false None true false None None [] [] None ∅ false None [] [])).
Definition amy_session : Session := set_Out (Some []) (set_User (lit "amy") (mkSession (lit "s1") [] [] 0 [] None 0 [] false None true false None None [] [] None ∅ false None [] [])).
Definition mirror_registry : registry := mkReg {[lit "s1" := amy_session; lit "s2" := bob_session]} {[0]} 1.
(** Amy shares with Bob for an hour, twice; the first timer still fires. *)
Definition mirror_ops : list (menv * mirror_op) :=
  [(quiet_menv 0, OShare (lit "s1") (lit "bob") (60 * Minute) true); (quiet_menv Minute, OShare (lit "s1") (lit "bob") (60 * Minute) false);
   (quiet_menv (60 * Minute), OFire 0)].
Definition mirror_world : mirrorState := mirror_run (fun _ => None) defaultHost 0 mirror_ops (start_world mirror_registry).
Definition bob_attach (now : Z) (console : bool) : result mirrorErr bytes :=
  fst (mirrorAuthorizeVia enterpriseMirrorPeerAccess (quiet_menv now) (lit "s2") (lit "s1") console mirror_world).

Example attach_runs : bob_attach (61 * Minute - 1) false = Ok (lit "grant") /\ bob_attach (61 * Minute) false = Err (NoGrant (lit "bob")) /\
  bob_attach (2 * Minute) true = Err (ViewOnly (lit "bob")) /\
  fst (mirrorAuthorizeVia corePeerAccess (quiet_menv 0) (lit "s2") (lit "s1") false mirror_world) = Err (CorePeer (lit "bob")) /\
  fst (mirrorAuthorizeVia corePeerAccess (quiet_menv 0) (lit "s1") (lit "s1") true mirror_world) = Ok (lit "owner").
Proof. vm_compute. done. Qed.
Example share_flags : parseMirrorShareArgs (map lit ["--for"; "1h"; "--with"; "bob"]%string) = Ok (lit "bob", 60 * Minute, false) /\
  parseMirrorShareArgs (map lit ["--with"]%string) = Err MirrorUsage.
Proof. vm_compute. done. Qed.

Lemma mirror_ops_allowed : Forall (allowed_op 0) mirror_ops.
Proof. repeat constructor; done. Qed.
Lemma mirror_hook : 0 ∈ unregisterHooks mirror_registry.
Proof. apply (bool_decide_unpack _). by vm_compute. Qed.

Lemma attach_iff_witness : mirrorAuthorizeVia enterpriseMirrorPeerAccess (quiet_menv 0) (lit "s1") (lit "s1") true (start_world mirror_registry) =
  (Ok (lit "owner"), mkWorld (lapsed 0 (lit "s1") (lapsed 0 (lit "s1") mirror_registry)) ∅ [] ∅
    [MAttach (lit "s1") (lit "amy") true (lit "owner")]).
Proof.
  apply (attach_iff 0 (quiet_menv 0) (lit "s1") (lit "s1") true (start_world mirror_registry) (lit "owner") _ (start_ok 0 mirror_registry mirror_hook)).
  split; [vm_compute; eauto|]. split; [vm_compute; reflexivity|]. split; [vm_compute; discriminate|]. split; [vm_compute; reflexivity|].
  split; [left; split; [|reflexivity]; split; [vm_compute; reflexivity|]; split; [vm_compute; discriminate|vm_compute; reflexivity]|].
  split; reflexivity.
Defined.
Lemma granted_attach_was_shared_witness : exists before e1 d console1 after g, mirror_ops = before ++ (e1, OShare (lit "s1") (lit "bob") d console1) :: after /\
  made e1 (lit "s1") (lit "bob") d console1 (mirror_run (fun _ => None) defaultHost 0 before (start_world mirror_registry)) g /\ Minute < m_now e1 + d.
Proof.
  destruct (granted_attach_was_shared (fun _ => None) defaultHost 0 mirror_registry mirror_ops (quiet_menv Minute) (lit "s2") (lit "s1") false
    (snd (mirrorAuthorizeVia enterpriseMirrorPeerAccess (quiet_menv Minute) (lit "s2") (lit "s1") false mirror_world)) mirror_hook mirror_ops_allowed)
    as (b & e1 & d & c1 & a & g & H1 & H2 & _ & _ & H3 & _); [vm_compute; reflexivity|].
  exists b, e1, d, c1, a, g. split; [exact H1|]. split; [exact H2|exact H3].
Defined.
Lemma grants_well_formed_witness : 1%nat ∈ w_timers mirror_world /\ armed mirror_world 1%nat.
Proof.
  assert (Hp : 1%nat ∈ w_timers mirror_world) by (apply (bool_decide_unpack _); by vm_compute). split; [exact Hp|].
  exact (proj1 (proj2 (grants_well_formed (fun _ => None) defaultHost 0 mirror_registry mirror_ops mirror_hook mirror_ops_allowed)) 1%nat Hp).
Defined.
