(* ===== verification/Dispatch.v ===== *)
(** * The exec handler

    The part of security/interceptor.go that runs after the gate: assignments
    to a session, the shell builtins that the repository implements, the
    choice between a command of the listener, a custom command, a virtual
    binary and the interpreter's own handler; with internal/sys/dirstack.go. *)

From S2P Require Import Prelude GoBytes SshMonitor Session Policy Gate.
#[local] Open Scope Z_scope.
#[local] Arguments lit : simpl never.

(** ** The directory stack *)

(** The stack, bottom first, and the previous directory. *)
Record DirStackState := mkDirs { ds_stack : list bytes; ds_oldpwd : bytes }.
Definition dirs_Init (cwd : bytes) (d : DirStackState) : DirStackState := mkDirs [cwd] (ds_oldpwd d).
Definition dirs_Push (dir : bytes) (d : DirStackState) : DirStackState :=
  mkDirs (ds_stack d ++ [dir]) (match last (ds_stack d) with Some top => top | None => ds_oldpwd d end).
Definition dirs_Pop (d : DirStackState) : bytes * DirStackState :=
  if zlen (ds_stack d) <=? 1 then ([], d)
  else (default [] (last (ds_stack d)), mkDirs (take (length (ds_stack d) - 1) (ds_stack d)) (ds_oldpwd d)).
Definition SetOldPwd (dir : bytes) (d : DirStackState) : DirStackState := mkDirs (ds_stack d) dir.
Definition Dirs (d : DirStackState) : list bytes := rev (ds_stack d).

(** ** The session's globals *)

(** The Starlark values that the handler looks into; any other is known by
    its text. *)
#[local] Set Warnings "-register-all".
Inductive value := VString (s : bytes) | VBool (b : bool) | VDict (items : list (bytes * value)) | VCallable (id : Z) | VOther (text : bytes).
Definition dict_get (k : bytes) (d : list (bytes * value)) : option value :=
  match List.find (fun kv => bool_decide (fst kv = k)) d with Some kv => Some (snd kv) | None => None end.
(** [SetKey] keeps the place of a key that is there. *)
Fixpoint dict_set (k : bytes) (v : value) (d : list (bytes * value)) : list (bytes * value) :=
  match d with
  | [] => [(k, v)]
  | kv :: d => if bool_decide (fst kv = k) then (k, v) :: d else kv :: dict_set k v d
  end.
Definition dict_delete (k : bytes) (d : list (bytes * value)) : list (bytes * value) :=
  List.filter (fun kv => negb (bool_decide (fst kv = k))) d.

(** A nil dict has no globals. *)
Definition globalsT : Type := option (gmap bytes value).
Definition globals_dict (name : bytes) (g : globalsT) : option (list (bytes * value)) :=
  m ← g; v ← m !! name; match v with VDict d => Some d | _ => None end.
Definition sessionIDFromGlobals (g : globalsT) : bytes :=
  match (m ← g; m !! lit "SESSION_ID") with Some (VString s) => s | _ => [] end.

(** What of [SessionState] is not state: the restriction and the fixed id. *)
Record sessState := mkSess { se_Restricted : bool; se_SessionID : bytes }.
Definition gateSessionID (s : sessState) (g : globalsT) : bytes :=
  if bool_decide (se_SessionID s = []) then sessionIDFromGlobals g else se_SessionID s.

(** ** What a handler does *)

(** A call of the next handler, a virtual binary with the session it runs
    under, a custom command, a command sent to the listener, or output. *)
Inductive xevent :=
| ENext (args : list bytes) | EVBin (name : bytes) (args : list bytes) (sid : bytes) (restricted : bool) | ECustom (id : Z) (args : list bytes)
| EListener (args : list bytes) (sid : bytes) | EText (text : bytes) | EVars (vars : list (bytes * value)).
Inductive xerr :=
| NextFails (e : bytes) | VBinFails (e : bytes) | CustomFails (e : bytes) | ListenerFails (e : bytes) | SSHRefused (e : gateErr)
| SetUsage | Reserved (name : bytes) | NotRegistered (sid : bytes) | EnvFails (e : envErr) | Setenv | AliasNotFound (name : bytes)
| Usage (cmd : bytes) | NotFound (name : bytes) | ReadFails | NoOtherDir | DirsEmpty | RestrictedSlash | RestrictedCmd (cmd : bytes).
(** Go code can also panic, on a value of a type it does not expect. *)
Inductive xres := XOk | XErr (e : xerr) | XPanic.

Record xstate := mkX { x_globals : globalsT; x_dirs : DirStackState; x_reg : registry; x_env : gmap bytes bytes; x_trace : list xevent }.
Definition xemit (e : xevent) (st : xstate) : xstate := mkX (x_globals st) (x_dirs st) (x_reg st) (x_env st) (x_trace st ++ [e]).
Definition text (s : bytes) : xstate -> xstate := xemit (EText s).
Definition set_globals (g : globalsT) (st : xstate) : xstate := mkX g (x_dirs st) (x_reg st) (x_env st) (x_trace st).
Definition set_dirs (d : DirStackState) (st : xstate) : xstate := mkX (x_globals st) d (x_reg st) (x_env st) (x_trace st).
Definition set_global (k : bytes) (v : value) (st : xstate) : xstate :=
  match x_globals st with Some m => set_globals (Some (<[k := v]> m)) st | None => st end.

(** What the handler meets: the gate's process, the registered binaries, and
    what it calls. The next handler, a binary (under a session id and a
    restriction) and a custom command get the state and may change any part of
    it; the listener is another process and only answers. *)
Definition effect : Type := xstate -> option bytes * xstate.
Record xenv := mkXEnv {
  v_gate : genv; v_vbins : gset bytes; v_next : list bytes -> effect; v_vbin : list bytes -> bytes -> bool -> effect; v_custom : Z -> list bytes -> effect;
  v_listener : list bytes -> option bytes; v_dir : bytes; v_path : bytes -> option bytes; v_stdin : bytes }.
(** The call that an event records, and its error. *)
Definition callee (env : xenv) (e : xevent) : effect :=
  match e with
  | ENext w => v_next env w
  | EVBin _ w sid restricted => v_vbin env w sid restricted
  | ECustom id w => v_custom env id w
  | EListener w _ => fun st => (v_listener env w, st)
  | EText _ | EVars _ => fun st => (None, st)
  end.
Definition fails (e : xevent) (x : bytes) : xerr :=
  match e with
  | EVBin _ _ _ _ => VBinFails x | ECustom _ _ => CustomFails x | EListener _ _ => ListenerFails x | _ => NextFails x
  end.
(** One call, which the trace records; what runs inside it is its own. *)
Definition xcall (env : xenv) (e : xevent) (st : xstate) : xres * xstate :=
  let '(o, st') := callee env e st in
  (match o with None => XOk | Some x => XErr (fails e x) end,
   mkX (x_globals st') (x_dirs st') (x_reg st') (x_env st') (x_trace st ++ [e])).
Definition next (env : xenv) (args : list bytes) (st : xstate) : xres * xstate := xcall env (ENext args) st.

(** ** Assignments *)

Definition reservedSessionName (name : bytes) : bool :=
  bool_decide (name = lit "SESSION_ID") || has_prefix (lit "__") name || has_prefix (lit "ADSSH_SESSION") name.
(** [os.Setenv]. *)
Definition os_Setenv (key val : bytes) (st : xstate) : option xerr * xstate :=
  if bool_decide (key = []) || existsb (fun c => (c =?b EQb) || (c =?b NULc)) key || existsb (fun c => c =?b NULc) val then (Some Setenv, st)
  else (None, mkX (x_globals st) (x_dirs st) (x_reg st) (<[key := val]> (x_env st)) (x_trace st)).
Definition assignProcessOrSessionEnv (id key val : bytes) (st : xstate) : option xerr * xstate :=
  if bool_decide (id = []) then os_Setenv key val st
  else match GetSession id (x_reg st) with
  | None => (Some (NotRegistered id), st)
  | Some s =>
      match SetEnv key val s with
      | Err e => (Some (EnvFails e), st)
      | Ok s => (None, mkX (x_globals st) (x_dirs st) (mkReg (<[id := s]> (globalSessions (x_reg st))) (unregisterHooks (x_reg st)) (unregisterHookSeq (x_reg st)))
                         (x_env st) (x_trace st))
      end
  end.
(** The name and value that [set] gives, when it is not a flag. *)
Definition flag_word (a : bytes) : bool := has_prefix (lit "-") a || has_prefix (lit "+") a.
Definition applySetAssignment (sid : bytes) (args : list bytes) (st : xstate) : option xres * xstate :=
  match args with
  | cmd :: a1 :: rest =>
      if negb (bool_decide (cmd = lit "set")) || flag_word a1 then (None, st)
      else
        let assignment := match cut_byte EQb a1, rest with
                          | Some nv, _ => Some nv
                          | None, a2 :: _ => Some (a1, a2)
                          | None, [] => None
                          end in
        match assignment with
        | None => (Some (XErr SetUsage), st)
        | Some (name, val) =>
            if reservedSessionName name then (Some (XErr (Reserved name)), st)
            else match assignProcessOrSessionEnv sid name val st with
            | (Some e, st) => (Some (XErr e), st)
            | (None, st) => (Some XOk, set_global name (VString val) st)
            end
        end
  | _ => (None, st)
  end.

(** ** The builtins *)

(** [__shopts__] and [__aliases__], made when they are missing. *)
Definition get_dict (name : bytes) (st : xstate) : option (list (bytes * value)) * xstate :=
  match x_globals st with
  | None => (None, st)
  | Some _ =>
      match globals_dict name (x_globals st) with
      | Some d => (Some d, st)
      | None => (Some [], set_global name (VDict []) st)
      end
  end.
Definition shopts : bytes := lit "__shopts__".
Definition aliases : bytes := lit "__aliases__".
Definition internal_name (k : bytes) : bool := has_prefix (lit "__") k && has_suffix (lit "__") k.
Definition LFs : bytes := [ascii_of_nat 10].
Definition alias_line (name val : bytes) : bytes := lit "alias " ++ name ++ lit "='" ++ val ++ lit "'" ++ LFs.

(** [set] that is no assignment: the variables, which are printed in no
    order, or a flag. *)
Definition set_builtin (sess : sessState) (args : list bytes) (st : xstate) : xres * xstate :=
  match args with
  | [] | [_] => (XOk, match x_globals st with
                      | Some m => xemit (EVars (List.filter (fun kv => negb (internal_name (fst kv))) (map_to_list m))) st
                      | None => st
                      end)
  | _ :: a1 :: rest =>
      if flag_word a1 then
        let '(d, st) := get_dict shopts st in
        match d with
        | None => (XOk, st)
        | Some d =>
            let flag := drop 1 a1 in
            let opt := if bool_decide (flag = lit "e") then lit "errexit"
                       else if bool_decide (flag = lit "u") then lit "nounset"
                       else if bool_decide (flag = lit "x") then lit "xtrace"
                       else if bool_decide (flag = lit "o") then match rest with a2 :: _ => if bool_decide (a2 = lit "pipefail") then a2 else [] | [] => [] end
                       else [] in
            (XOk, if bool_decide (opt = []) then st else set_global shopts (VDict (dict_set opt (VBool (has_prefix (lit "-") a1)) d)) st)
        end
      else match applySetAssignment (gateSessionID sess (x_globals st)) args st with
      | (Some r, st) => (r, st)
      | (None, st) => (XOk, st)
      end
  end.

(** Printing an alias expects a string. *)
Fixpoint print_aliases (items : list (bytes * value)) (st : xstate) : xres * xstate :=
  match items with
  | [] => (XOk, st)
  | (k, VString v) :: items => print_aliases items (text (alias_line k v) st)
  | _ => (XPanic, st)
  end.
Definition quote_char (c : byte) : bool := (c =?b "'") || (c =?b ascii_of_nat 34).
Definition alias_builtin (args : list bytes) (st : xstate) : xres * xstate :=
  match args with
  | _ :: arg :: _ =>
      let '(d, st') := get_dict aliases st in
      match cut_byte EQb arg with
      | None =>
          match d with
          | None => (XOk, st')
          | Some d =>
              match dict_get arg d with
              | None => (XErr (AliasNotFound arg), st')
              | Some (VString v) => (XOk, text (alias_line arg v) st')
              | Some _ => (XPanic, st')
              end
          end
      | Some (name, raw) =>
          let v := trim_right_set quote_char (drop_while quote_char raw) in
          match d with
          | None => (XOk, st')
          | Some d => (XOk, text (alias_line name v) (set_global aliases (VDict (dict_set name (VString v) d)) st'))
          end
      end
  | _ => let '(d, st) := get_dict aliases st in print_aliases (default [] d) st
  end.
Definition unalias_builtin (args : list bytes) (st : xstate) : xres * xstate :=
  match args with
  | _ :: name :: _ =>
      let '(d, st) := get_dict aliases st in
      (XOk, match d with Some d => set_global aliases (VDict (dict_delete name d)) st | None => st end)
  | _ => (XErr (Usage (lit "unalias")), st)
  end.

(** [resolveType]: a virtual binary, a custom command, an alias, a file. *)
Definition resolveType (env : xenv) (name : bytes) (scripting : bool) (st : xstate) : xres * xstate :=
  if bool_decide (name ∈ v_vbins env) then (XOk, text ((if scripting then name else name ++ lit " is a virtual binary") ++ LFs) st)
  else if bool_decide (is_Some (d ← globals_dict (lit "__custom_commands__") (x_globals st); dict_get name d))
  then (XOk, text ((if scripting then name else name ++ lit " is a shell function") ++ LFs) st)
  else match (d ← globals_dict aliases (x_globals st); dict_get name d) with
  | Some (VString v) => (XOk, text (alias_line name v) st)
  | Some _ => (XPanic, st)
  | None =>
      match v_path env name with
      | Some p => (XOk, text ((if scripting then p else name ++ lit " is " ++ p) ++ LFs) st)
      | None => (XErr (NotFound name), st)
      end
  end.

(** [read]: the first line of the input, which must end. *)
Definition read_builtin (env : xenv) (sess : sessState) (args : list bytes) (st : xstate) : xres * xstate :=
  let '(prompt, var) := match args with
                        | _ :: p :: t :: v :: _ => if bool_decide (p = lit "-p") then (t, Some v) else ([], Some p)
                        | _ :: v :: _ => ([], Some v)
                        | _ => ([], None)
                        end in
  match var with
  | None => (XErr (Usage (lit "read")), st)
  | Some var =>
      let st := if bool_decide (prompt = []) then st else text prompt st in
      match cut_byte (ascii_of_nat 10) (v_stdin env) with
      | None => (XErr ReadFails, st)
      | Some (val, _) =>
          if reservedSessionName var then (XErr (Reserved var), st)
          else match assignProcessOrSessionEnv (gateSessionID sess (x_globals st)) var val st with
          | (Some e, st) => (XErr e, st)
          | (None, st) => (XOk, set_global var (VString val) st)
          end
      end
  end.

Definition printDirStack (env : xenv) (st : xstate) : xstate := text (GoBytes.join (lit " ") (v_dir env :: Dirs (x_dirs st)) ++ LFs) st.
Definition cd (env : xenv) (dir : bytes) (st : xstate) : xres * xstate := next env [lit "cd"; dir] st.
Definition pushd_builtin (env : xenv) (args : list bytes) (st : xstate) : xres * xstate :=
  match args with
  | _ :: dir :: _ =>
      match cd env dir (set_dirs (dirs_Push (v_dir env) (x_dirs st)) st) with
      | (XOk, st) => (XOk, printDirStack env st)
      | r => r
      end
  | _ =>
      let '(prev, d) := dirs_Pop (x_dirs st) in
      if bool_decide (prev = []) then (XErr NoOtherDir, set_dirs d st)
      else match cd env prev (set_dirs (dirs_Push (v_dir env) d) st) with
      | (XOk, st) => (XOk, printDirStack env st)
      | r => r
      end
  end.
Definition popd_builtin (env : xenv) (st : xstate) : xres * xstate :=
  let '(prev, d) := dirs_Pop (x_dirs st) in
  if bool_decide (prev = []) then (XErr DirsEmpty, set_dirs d st)
  else match cd env prev (set_dirs d st) with
  | (XOk, st) => (XOk, printDirStack env (set_dirs (SetOldPwd (v_dir env) (x_dirs st)) st))
  | r => r
  end.

(** [time]; the duration is not modelled. *)
Definition time_builtin (env : xenv) (args : list bytes) (st : xstate) : xres * xstate :=
  match args with
  | _ :: (_ :: _) => let '(r, st) := next env (tail args) st in (r, text (LFs ++ lit "real") st)
  | _ => (XErr (Usage (lit "time")), st)
  end.

(** The switch on the command's name; [None] is no builtin. *)
Definition builtin (env : xenv) (sess : sessState) (args : list bytes) (st : xstate) : option (xres * xstate) :=
  let cmd := name_of args in
  if bool_decide (cmd = lit "set") then Some (set_builtin sess args st)
  else if bool_decide (cmd = lit "alias") then Some (alias_builtin args st)
  else if bool_decide (cmd = lit "unalias") then Some (unalias_builtin args st)
  else if bool_decide (cmd = lit "type") then
    Some (match args with _ :: name :: _ => resolveType env name false st | _ => (XErr (Usage (lit "type")), st) end)
  else if bool_decide (cmd = lit "command") then
    Some (match args with
          | _ :: a :: name :: _ => if bool_decide (a = lit "-v") then resolveType env name true st else next env args st
          | _ => next env args st
          end)
  else if bool_decide (cmd = lit "time") then Some (time_builtin env args st)
  else if bool_decide (cmd = lit "read") then Some (read_builtin env sess args st)
  else if bool_decide (cmd = lit "pushd") then Some (pushd_builtin env args st)
  else if bool_decide (cmd = lit "popd") then Some (popd_builtin env st)
  else if bool_decide (cmd = lit "dirs") then Some (XOk, text (GoBytes.join (lit " ") (Dirs (x_dirs st)) ++ LFs) st)
  else None.

(** ** The handler *)

Definition xtrace_on (g : globalsT) : bool :=
  match (d ← globals_dict shopts g; dict_get (lit "xtrace") d) with Some (VBool b) => b | _ => false end.
Definition custom_command (name : bytes) (g : globalsT) : option Z :=
  match (d ← globals_dict (lit "__custom_commands__") g; dict_get name d) with Some (VCallable id) => Some id | _ => None end.
(** [DispatchVBin]: the help of a binary, or its run. *)
Definition DispatchVBin (env : xenv) (sess : sessState) (args : list bytes) (st : xstate) : xres * xstate :=
  if match args with _ :: a :: _ => bool_decide (a = lit "--help") || bool_decide (a = lit "help") | _ => false end
  then (XOk, text (name_of args) st)
  else xcall env (EVBin (name_of args) args (gateSessionID sess (x_globals st)) (se_Restricted sess)) st.

(** [execHandlerSession] on the words that the interpreter gives it. *)
Definition execHandler (env : xenv) (sess : sessState) (args : list bytes) (st : xstate) : xres * xstate :=
  match args with
  | [] => next env [] st
  | _ =>
      let args := unshadowBuiltinVBin args in
      let sid := gateSessionID sess (x_globals st) in
      match applySetAssignment sid args st with
      | (Some r, st) => (r, st)
      | (None, st) =>
          let st := if xtrace_on (x_globals st) then text (lit "+ " ++ GoBytes.join (lit " ") args ++ LFs) st else st in
          if RemoteGateProcess (v_gate env) && sshRunsInListener args
          then xcall env (EListener args sid) st
          else match custom_command (name_of args) (x_globals st) with
          | Some id => xcall env (ECustom id args) st
          | None =>
              match builtin env sess args st with
              | Some r => r
              | None =>
                  if bool_decide (name_of args ∈ v_vbins env) then
                    match refuseInRemoteGateProcess (v_gate env) (se_Restricted sess) args sid with
                    | Some e => (XErr (SSHRefused e), st)
                    | None => DispatchVBin env sess args st
                    end
                  else if se_Restricted sess && contains (lit "/") (name_of args) then (XErr RestrictedSlash, st)
                  else if se_Restricted sess && (bool_decide (name_of args = lit "cd") || bool_decide (name_of args = lit "export"))
                  then (XErr (RestrictedCmd (name_of args)), st)
                  else next env args st
              end
          end
      end
  end.

(** ** What the handler can change *)

Definition glookup (k : bytes) (g : globalsT) : option value := m ← g; m !! k.
(** Nothing but the overlay of the session [sid], or the process environment
    without a session, and no reserved global other than the options and the
    aliases. *)
Record confined (sid : bytes) (st st' : xstate) : Prop := {
  cf_reserved : forall k, reservedSessionName k = true -> k <> shopts -> k <> aliases -> glookup k (x_globals st') = glookup k (x_globals st);
  cf_sessions : forall id, id <> sid -> GetSession id (x_reg st') = GetSession id (x_reg st);
  cf_own : match GetSession sid (x_reg st) with
           | Some s => exists ov, GetSession sid (x_reg st') = Some (set_envOverlay ov s)
           | None => GetSession sid (x_reg st') = None
           end;
  cf_process : sid <> [] -> x_env st' = x_env st;
  cf_table : sid = [] -> x_reg st' = x_reg st }.

Lemma confined_refl sid st : confined sid st st.
Proof.
  split; try done. destruct (GetSession sid (x_reg st)) as [s|]; [|done]. exists (s_envOverlay s). by destruct s.
Qed.
Lemma confined_trans sid a b c : confined sid a b -> confined sid b c -> confined sid a c.
Proof.
  intros [A1 A2 A3 A4 A5] [B1 B2 B3 B4 B5]. split.
  - intros k Hk H1 H2. by rewrite B1, A1.
  - intros id Hid. by rewrite B2, A2.
  - destruct (GetSession sid (x_reg a)) as [s|]; [|by rewrite A3 in B3]. destruct A3 as [ov1 E1]. rewrite E1 in B3. destruct B3 as [ov2 E2]. by exists ov2.
  - intros Hs. by rewrite B4, A4.
  - intros Hs. by rewrite B5, A5.
Qed.
(** States that differ in their trace, stack and free globals. *)
Lemma confined_same sid st st' : x_reg st' = x_reg st -> x_env st' = x_env st ->
  (forall k, reservedSessionName k = true -> k <> shopts -> k <> aliases -> glookup k (x_globals st') = glookup k (x_globals st)) -> confined sid st st'.
Proof.
  intros H1 H2 H3. split; try done; try (by rewrite H1). rewrite H1. apply (cf_own sid st st), confined_refl.
Qed.
Lemma confined_emit sid e st : confined sid st (xemit e st).
Proof. by apply confined_same. Qed.
Lemma confined_dirs sid d st : confined sid st (set_dirs d st).
Proof. by apply confined_same. Qed.
Lemma confined_global sid k v st : reservedSessionName k = false \/ k = shopts \/ k = aliases -> confined sid st (set_global k v st).
Proof.
  intros Hk. unfold set_global. destruct (x_globals st) as [m|] eqn:Eg; [|apply confined_refl]. apply confined_same; [done|done|]. intros j Hj H1 H2.
  unfold glookup. rewrite Eg. cbn. rewrite lookup_insert_ne; [done|]. intros ->. destruct Hk as [?|[?|?]]; congruence.
Qed.
Lemma confined_dict sid name st : name = shopts \/ name = aliases -> confined sid st (snd (get_dict name st)).
Proof.
  intros Hn. unfold get_dict. destruct (x_globals st) eqn:Eg; [|apply confined_refl]. destruct (globals_dict name _); [apply confined_refl|]. apply confined_global. tauto.
Qed.
Lemma SetEnv_overlay key val s s' : SetEnv key val s = Ok s' -> exists ov, s' = set_envOverlay ov s.
Proof. unfold SetEnv. repeat (case_match; try done). intros [= <-]. by eexists. Qed.
Lemma confined_assign sid key val st : confined sid st (snd (assignProcessOrSessionEnv sid key val st)).
Proof.
  unfold assignProcessOrSessionEnv, os_Setenv. case_bool_decide as E1.
  - destruct (_ || _); [apply confined_refl|]. split; try done. cbn. destruct (GetSession sid (x_reg st)) as [s|]; [|done]. exists (s_envOverlay s). by destruct s.
  - destruct (GetSession sid (x_reg st)) as [s|] eqn:Es; [|apply confined_refl]. destruct (SetEnv key val s) as [s'|] eqn:E2; [|apply confined_refl].
    apply SetEnv_overlay in E2 as [ov ->]. split; try done; unfold GetSession; cbn.
    + intros id Hid. by rewrite lookup_insert_ne.
    + unfold GetSession in Es. rewrite Es, lookup_insert_eq. by eexists.
Qed.
Lemma confined_set sid args st : confined sid st (snd (applySetAssignment sid args st)).
Proof.
  unfold applySetAssignment. destruct args as [|cmd [|a1 rest]]; [apply confined_refl|apply confined_refl|]. destruct (_ || _); [apply confined_refl|].
  destruct (match cut_byte EQb a1 with Some nv => Some nv | None => _ end) as [[name val]|]; [|apply confined_refl].
  destruct (reservedSessionName name) eqn:Er; [apply confined_refl|]. pose proof (confined_assign sid name val st) as Ha.
  destruct (assignProcessOrSessionEnv sid name val st) as [[e|] st1]; cbn [snd] in *; [done|]. eapply confined_trans; [exact Ha|]. apply confined_global. by left.
Qed.
#[local] Hint Resolve confined_refl confined_emit confined_dirs : core.

Ltac conf := first [apply confined_refl | apply confined_emit | eapply confined_trans; [|apply confined_emit]; conf | eapply confined_trans; [|apply confined_dirs]; conf
  | apply confined_dirs | assumption].
Lemma confined_print sid items : forall st, confined sid st (snd (print_aliases items st)).
Proof.
  induction items as [|[k v] items IH]; intros st; [apply confined_refl|]. cbn [print_aliases]. destruct v; try apply confined_refl. eapply confined_trans; [apply confined_emit|apply IH].
Qed.
Lemma confined_resolve sid env name b st : confined sid st (snd (resolveType env name b st)).
Proof. unfold resolveType. repeat (case_match; try apply confined_refl; try apply confined_emit). Qed.

Lemma confined_then sid a b c : confined sid a b -> (confined sid a b -> confined sid b c) -> confined sid a c.
Proof. intros H1 H2. eapply confined_trans; eauto. Qed.
Lemma confined_set_builtin sess sid args st : sid = gateSessionID sess (x_globals st) -> confined sid st (snd (set_builtin sess args st)).
Proof.
  intros ->. unfold set_builtin. destruct args as [|cmd [|a1 rest]]; [destruct (x_globals st); cbn [snd]; auto|destruct (x_globals st); cbn [snd]; auto|].
  destruct (flag_word a1).
  - pose proof (confined_dict (gateSessionID sess (x_globals st)) shopts st (or_introl eq_refl)) as Hd. destruct (get_dict shopts st) as [[d|] st1]; cbn [snd] in *; [|done].
    case_bool_decide; [done|]. eapply confined_trans; [exact Hd|]. apply confined_global. tauto.
  - pose proof (confined_set (gateSessionID sess (x_globals st)) (cmd :: a1 :: rest) st) as Hs. by destruct (applySetAssignment _ _ st) as [[r|] st1].
Qed.
Lemma confined_alias sid args st : confined sid st (snd (alias_builtin args st)) /\ confined sid st (snd (unalias_builtin args st)).
Proof.
  pose proof (confined_dict sid aliases st (or_intror eq_refl)) as Hd.
  assert (Hg : forall v st1, confined sid st st1 -> confined sid st (set_global aliases v st1)) by (intros v st1 H1; eapply confined_trans; [exact H1|apply confined_global; tauto]).
  split.
  - unfold alias_builtin. destruct args as [|cmd [|arg rest]]; try (destruct (get_dict aliases st) as [d st1]; cbn [snd] in *; eapply confined_trans; [exact Hd|apply confined_print]).
    destruct (get_dict aliases st) as [d st1]. cbn [snd] in Hd. destruct (cut_byte EQb arg) as [[name raw]|].
    + destruct d as [d|]; cbn [snd]; [|done]. eapply confined_trans; [apply Hg, Hd|apply confined_emit].
    + destruct d as [d|]; cbn [snd]; [|done]. destruct (dict_get arg d) as [[]|]; cbn [snd]; try done. eapply confined_trans; [exact Hd|apply confined_emit].
  - unfold unalias_builtin. destruct args as [|cmd [|name rest]]; [apply confined_refl|apply confined_refl|].
    destruct (get_dict aliases st) as [[d|] st1]; cbn [snd] in *; [by apply Hg|done].
Qed.
Lemma confined_read env sess args st : confined (gateSessionID sess (x_globals st)) st (snd (read_builtin env sess args st)).
Proof.
  unfold read_builtin. destruct (match args with _ :: p :: t :: v :: _ => _ | _ => _ end) as [prompt [var|]]; [|apply confined_refl].
  set (st0 := if bool_decide (prompt = []) then st else text prompt st). assert (H0 : confined (gateSessionID sess (x_globals st)) st st0) by (unfold st0; case_bool_decide; [apply confined_refl|apply confined_emit]).
  assert (Hg : x_globals st0 = x_globals st) by (unfold st0; by case_bool_decide). destruct (cut_byte _ _) as [[val rest]|]; [|done].
  destruct (reservedSessionName var) eqn:Er; [done|]. rewrite Hg. pose proof (confined_assign (gateSessionID sess (x_globals st)) var val st0) as Ha.
  destruct (assignProcessOrSessionEnv _ var val st0) as [[e|] st1]; cbn [snd] in *; (eapply confined_trans; [exact H0|]); [done|].
  eapply confined_trans; [exact Ha|]. apply confined_global. by left.
Qed.
(** What the handler itself does: it stays confined and calls nothing, or it
    is confined up to one call, and the globals, the session table and the
    process environment are then as the callee left them. *)
Definition is_run (e : xevent) : bool := match e with EText _ | EVars _ => false | _ => true end.
Definition runs (l : list xevent) : list xevent := List.filter is_run l.
Definition left_by (a b : xstate) : Prop := x_globals b = x_globals a /\ x_reg b = x_reg a /\ x_env b = x_env a.
Inductive handled (env : xenv) (sid : bytes) (st st' : xstate) : Prop :=
| handled_alone out : confined sid st st' -> x_trace st' = x_trace st ++ out -> runs out = [] -> handled env sid st st'
| handled_call e st1 out : confined sid st st1 -> left_by (snd (callee env e st1)) st' ->
    x_trace st' = x_trace st ++ out -> runs out = [e] -> handled env sid st st'.
Lemma confined_gate sid sess st st' : confined sid st st' -> gateSessionID sess (x_globals st') = gateSessionID sess (x_globals st).
Proof.
  intros Hc. unfold gateSessionID. case_bool_decide; [|done]. unfold sessionIDFromGlobals.
  pose proof (cf_reserved _ _ _ Hc (lit "SESSION_ID") eq_refl ltac:(done) ltac:(done)) as Hk. unfold glookup in Hk. by rewrite Hk.
Qed.

(** ** What the handler runs *)

(** At most one thing ran, of the kind [P]; or nothing ran. *)
Definition emits (P : xevent -> Prop) (st st' : xstate) : Prop :=
  exists out, x_trace st' = x_trace st ++ out /\ (runs out = [] \/ exists e, runs out = [e] /\ P e).
Definition silent (st st' : xstate) : Prop := emits (fun _ => False) st st'.

Lemma silent_same st st' : x_trace st' = x_trace st -> silent st st'.
Proof. intros E. exists []. rewrite app_nil_r. auto. Qed.
Lemma silent_then P a b c : silent a b -> emits P b c -> emits P a c.
Proof.
  intros (o1 & E1 & [H1|(e & _ & [])]) (o2 & E2 & H2). exists (o1 ++ o2). rewrite E2, E1, app_assoc. split; [done|]. unfold runs in *. rewrite List.filter_app, H1. done.
Qed.
Lemma silent_trans a b c : silent a b -> silent b c -> silent a c.
Proof. apply silent_then. Qed.
Lemma silent_text s st : silent st (text s st).
Proof. exists [EText s]. auto. Qed.

Lemma silent_global k v st : silent st (set_global k v st).
Proof. unfold set_global. destruct (x_globals st); by apply silent_same. Qed.
Lemma silent_dict name st : silent st (snd (get_dict name st)).
Proof. unfold get_dict. destruct (x_globals st); [|by apply silent_same]. destruct (globals_dict name _); [by apply silent_same|apply silent_global]. Qed.
Lemma silent_assign sid key val st : silent st (snd (assignProcessOrSessionEnv sid key val st)).
Proof. unfold assignProcessOrSessionEnv, os_Setenv. repeat case_match; by apply silent_same. Qed.
Lemma silent_set sid args st : silent st (snd (applySetAssignment sid args st)).
Proof.
  unfold applySetAssignment. destruct args as [|cmd [|a1 rest]]; [by apply silent_same..|]. destruct (_ || _); [by apply silent_same|].
  destruct (match cut_byte EQb a1 with Some nv => Some nv | None => _ end) as [[name val]|]; [|by apply silent_same]. destruct (reservedSessionName name); [by apply silent_same|].
  pose proof (silent_assign sid name val st) as Ha. destruct (assignProcessOrSessionEnv sid name val st) as [[e|] st1]; cbn [snd] in *; [done|].
  eapply silent_trans; [exact Ha|apply silent_global].
Qed.
Lemma silent_set_builtin sess args st : silent st (snd (set_builtin sess args st)).
Proof.
  unfold set_builtin. assert (Hv : forall vars, silent st (xemit (EVars vars) st)) by (intros vars; exists [EVars vars]; auto).
  destruct args as [|cmd [|a1 rest]]; [destruct (x_globals st); cbn [snd]; [apply Hv|by apply silent_same]..|]. destruct (flag_word a1).
  - pose proof (silent_dict shopts st) as Hd. destruct (get_dict shopts st) as [[d|] st1]; cbn [snd] in *; [|done]. case_bool_decide; [done|].
    eapply silent_trans; [exact Hd|apply silent_global].
  - pose proof (silent_set (gateSessionID sess (x_globals st)) (cmd :: a1 :: rest) st) as Hs. by destruct (applySetAssignment _ _ st) as [[r|] st1].
Qed.
Lemma silent_print items : forall st, silent st (snd (print_aliases items st)).
Proof.
  induction items as [|[k v] items IH]; intros st; [by apply silent_same|]. cbn [print_aliases]. destruct v; try (by apply silent_same). eapply silent_trans; [apply silent_text|apply IH].
Qed.
Lemma silent_alias args st : silent st (snd (alias_builtin args st)) /\ silent st (snd (unalias_builtin args st)).
Proof.
  pose proof (silent_dict aliases st) as Hd. split.
  - unfold alias_builtin. destruct args as [|cmd [|arg rest]]; try (destruct (get_dict aliases st) as [d st1]; cbn [snd] in *; eapply silent_trans; [exact Hd|apply silent_print]).
    destruct (get_dict aliases st) as [d st1]. cbn [snd] in Hd. destruct (cut_byte EQb arg) as [[name raw]|].
    + destruct d as [d|]; cbn [snd]; [|done]. eapply silent_trans; [exact Hd|]. eapply silent_trans; [apply silent_global|apply silent_text].
    + destruct d as [d|]; cbn [snd]; [|done]. destruct (dict_get arg d) as [[]|]; cbn [snd]; try done. eapply silent_trans; [exact Hd|apply silent_text].
  - unfold unalias_builtin. destruct args as [|cmd [|name rest]]; [by apply silent_same..|].
    destruct (get_dict aliases st) as [[d|] st1]; cbn [snd] in *; [|done]. eapply silent_trans; [exact Hd|apply silent_global].
Qed.
Lemma silent_resolve env name b st : silent st (snd (resolveType env name b st)).
Proof. unfold resolveType. repeat (case_match; try (by apply silent_same); try apply silent_text). Qed.
Lemma silent_read env sess args st : silent st (snd (read_builtin env sess args st)).
Proof.
  unfold read_builtin. destruct (match args with _ :: p :: t :: v :: _ => _ | _ => _ end) as [prompt [var|]]; [|by apply silent_same].
  set (st0 := if bool_decide (prompt = []) then st else text prompt st). assert (H0 : silent st st0) by (unfold st0; case_bool_decide; [by apply silent_same|apply silent_text]).
  destruct (cut_byte _ _) as [[val rest]|]; [|done]. destruct (reservedSessionName var); [done|].
  pose proof (silent_assign (gateSessionID sess (x_globals st0)) var val st0) as Ha.
  destruct (assignProcessOrSessionEnv _ var val st0) as [[e|] st1]; cbn [snd] in *; (eapply silent_trans; [exact H0|]); [done|]. eapply silent_trans; [exact Ha|apply silent_global].
Qed.



(** ** What the handler itself changes *)

Lemma handled_quiet env sid st st' : confined sid st st' -> silent st st' -> handled env sid st st'.
Proof. intros Hc (out & E & [H|(e & _ & [])]). by eapply handled_alone. Qed.
Lemma handled_then env sid a b c : confined sid a b -> silent a b -> handled env sid b c -> handled env sid a c.
Proof.
  intros Hc (o1 & E1 & [H1|(e & _ & [])]). intros [o2 Hc2 E2 H2|e st1 o2 Hc2 Hl E2 H2].
  - apply (handled_alone _ _ _ _ (o1 ++ o2)); [by eapply confined_trans|by rewrite E2, E1, app_assoc|]. unfold runs in *. by rewrite List.filter_app, H1.
  - apply (handled_call _ _ _ _ e st1 (o1 ++ o2)); [by eapply confined_trans|done|by rewrite E2, E1, app_assoc|]. unfold runs in *. by rewrite List.filter_app, H1.
Qed.
Lemma handled_xcall env sid e st : is_run e = true -> handled env sid st (snd (xcall env e st)).
Proof.
  intros He. unfold xcall. destruct (callee env e st) as [o s] eqn:Ec. apply (handled_call _ _ _ _ e st [e]).
  - apply confined_refl.
  - by rewrite Ec.
  - done.
  - unfold runs. cbn. by rewrite He.
Qed.
Lemma handled_after env sid a b c : handled env sid a b -> left_by b c -> silent b c -> handled env sid a c.
Proof.
  intros Hab (Hg & Hr & He) (o2 & E2 & [H2|(e & _ & [])]). destruct Hab as [o1 Hc E1 H1|e st1 o1 Hc (Ig & Ir & Ie) E1 H1].
  - apply (handled_alone _ _ _ _ (o1 ++ o2)); [|by rewrite E2, E1, app_assoc|unfold runs in *; by rewrite List.filter_app, H1].
    eapply confined_trans; [exact Hc|]. apply confined_same; [done|done|]. intros k _ _ _. by rewrite Hg.
  - apply (handled_call _ _ _ _ e st1 (o1 ++ o2)); [done| |by rewrite E2, E1, app_assoc|unfold runs in *; by rewrite List.filter_app, H1, H2].
    split_and!; congruence.
Qed.
Lemma handled_pushd env sid args st : handled env sid st (snd (pushd_builtin env args st)) /\ handled env sid st (snd (popd_builtin env st)).
Proof.
  assert (Hc : forall dir d, handled env sid st (snd (cd env dir (set_dirs d st)))).
  { intros dir d. apply (handled_then _ _ _ (set_dirs d st)); [apply confined_dirs|by apply silent_same|]. by apply handled_xcall. }
  assert (Hprint : forall st1, handled env sid st st1 -> handled env sid st (printDirStack env st1)) by (intros st1 H1; eapply handled_after; [exact H1|done|apply silent_text]).
  assert (Hq : forall d, handled env sid st (set_dirs d st)) by (intros d; apply handled_quiet; [apply confined_dirs|by apply silent_same]).
  split.
  - unfold pushd_builtin. destruct args as [|cmd [|dir rest]];
      try (destruct (dirs_Pop (x_dirs st)) as [prev d]; case_bool_decide; [apply Hq|]; specialize (Hc prev (dirs_Push (v_dir env) d)); destruct (cd env prev _) as [[|e|] st1]; cbn [snd] in *; auto).
    specialize (Hc dir (dirs_Push (v_dir env) (x_dirs st))). destruct (cd env dir _) as [[|e|] st1]; cbn [snd] in *; auto.
  - unfold popd_builtin. destruct (dirs_Pop (x_dirs st)) as [prev d]. case_bool_decide; [apply Hq|]. specialize (Hc prev d).
    destruct (cd env prev _) as [[|e|] st1]; cbn [snd] in *; [|done..]. apply Hprint. eapply handled_after; [exact Hc|done|by apply silent_same].
Qed.
Lemma handled_builtin env sess args st r : builtin env sess args st = Some r -> handled env (gateSessionID sess (x_globals st)) st (snd r).
Proof.
  unfold builtin. set (sid := gateSessionID sess (x_globals st)).
  destruct (bool_decide (name_of args = lit "set")); [intros [= <-]; apply handled_quiet; [by apply confined_set_builtin|apply silent_set_builtin]|].
  destruct (bool_decide (name_of args = lit "alias")); [intros [= <-]; apply handled_quiet; [apply confined_alias|apply silent_alias]|].
  destruct (bool_decide (name_of args = lit "unalias")); [intros [= <-]; apply handled_quiet; [apply confined_alias|apply silent_alias]|].
  destruct (bool_decide (name_of args = lit "type")).
  { intros [= <-]. apply handled_quiet; (destruct args as [|? [|? ?]]; [first [apply confined_refl|by apply silent_same]..|first [apply confined_resolve|apply silent_resolve]]). }
  destruct (bool_decide (name_of args = lit "command")).
  { intros [= <-]. destruct args as [|? [|? [|? ?]]]; try (by apply handled_xcall). case_bool_decide; [|by apply handled_xcall].
    apply handled_quiet; [apply confined_resolve|apply silent_resolve]. }
  destruct (bool_decide (name_of args = lit "time")).
  { intros [= <-]. unfold time_builtin. destruct args as [|? [|b l]]; [apply handled_quiet; [apply confined_refl|by apply silent_same]..|].
    cbn [tail]. rewrite (surjective_pairing (next env (b :: l) st)). cbn [snd]. apply (handled_after _ _ _ (snd (next env (b :: l) st))); [by apply handled_xcall|repeat split|apply silent_text]. }
  destruct (bool_decide (name_of args = lit "read")); [intros [= <-]; apply handled_quiet; [apply confined_read|apply silent_read]|].
  destruct (bool_decide (name_of args = lit "pushd")); [intros [= <-]; apply handled_pushd|].
  destruct (bool_decide (name_of args = lit "popd")); [intros [= <-]; apply (handled_pushd env sid [] st)|].
  destruct (bool_decide (name_of args = lit "dirs")); [intros [= <-]; apply handled_quiet; [apply confined_emit|apply silent_text]|done].
Qed.
Lemma handler_handled env sess args st : handled env (gateSessionID sess (x_globals st)) st (snd (execHandler env sess args st)).
Proof.
  unfold execHandler. destruct args as [|a l]; [by apply handled_xcall|]. set (args := unshadowBuiltinVBin (a :: l)). set (sid := gateSessionID sess (x_globals st)).
  pose proof (confined_set sid args st) as Hs. pose proof (silent_set sid args st) as Hq.
  destruct (applySetAssignment sid args st) as [[r|] st1]; cbn [snd] in *; [by apply handled_quiet|].
  set (st2 := if xtrace_on (x_globals st1) then _ else _).
  assert (H2 : confined sid st st2) by (unfold st2; destruct (xtrace_on _); [eapply confined_trans; [exact Hs|apply confined_emit]|done]).
  assert (Q2 : silent st st2) by (unfold st2; destruct (xtrace_on _); [eapply silent_trans; [exact Hq|apply silent_text]|done]).
  apply (handled_then _ _ _ _ _ H2 Q2). assert (Hsid : gateSessionID sess (x_globals st2) = sid) by (by apply (confined_gate sid)).
  assert (Hdone : forall r : xres, handled env sid st2 (snd (r, st2))) by (intros r; apply handled_quiet; [apply confined_refl|by apply silent_same]).
  destruct (_ && sshRunsInListener args); [by apply handled_xcall|].
  destruct (custom_command (name_of args) (x_globals st2)); [by apply handled_xcall|].
  destruct (builtin env sess args st2) as [r|] eqn:Eb; [apply handled_builtin in Eb; by rewrite Hsid in Eb|].
  case_bool_decide.
  - destruct (refuseInRemoteGateProcess _ _ _ _); [apply Hdone|]. unfold DispatchVBin. destruct (match args with _ :: _ :: _ => _ | _ => false end); [|by apply handled_xcall].
    apply handled_quiet; [apply confined_emit|apply silent_text].
  - destruct (se_Restricted sess && contains _ _); [apply Hdone|]. destruct (se_Restricted sess && _); [apply Hdone|]. by apply handled_xcall.
Qed.

(** The interpreter hands [command] and [exec] their target without a second
    call of the call handler. *)
Definition wrapper (args : list bytes) : bool := is_one_of (name_of args) ["command"; "exec"]%string.


Section composed.
Context {Pt : Patterns} {AG : ApprovalGate}.
(** What the interpreter makes of the words that the call handler lets
    through: the words that it calls the exec handler on, if it does. *)
Context (interp : list bytes -> option (list bytes))
  (interp_plain : forall words given, wrapper words = false -> interp words = Some given -> given = words).


End composed.

(** C23: What the exec handler itself does is confined, whatever the command:
    it changes no session but the one it is gated under, and of that one only
    the environment overlay; the process environment only without a session;
    no reserved global but the options and aliases; and the session id that
    the gate uses stays. It calls at most one binary, custom command, listener
    or next handler, in such a confined state, and leaves the globals, the
    sessions and the process environment exactly as that callee left them. *)
Theorem assignments_confined env sess args st :
  let sid := gateSessionID sess (x_globals st) in let st' := snd (execHandler env sess args st) in
  exists out, x_trace st' = x_trace st ++ out /\
    ((runs out = [] /\ confined sid st st' /\ gateSessionID sess (x_globals st') = sid) \/
     exists e st1, runs out = [e] /\ confined sid st st1 /\ gateSessionID sess (x_globals st1) = sid /\ left_by (snd (callee env e st1)) st').
Proof.
  cbv zeta. destruct (handler_handled env sess args st) as [out Hc E H|e st1 out Hc Hl E H]; exists out; (split; [done|]).
  - left. split_and!; [done|done|]. by eapply confined_gate.
  - right. exists e, st1. split_and!; [done|done| |done..]. by eapply confined_gate.
Qed.

(** The word after a [time] that the interpreter does not take for its
    keyword is run as it stands, in a restricted session too. *)
Theorem time_escapes_restriction env sess words st : words <> [] -> RemoteGateProcess (v_gate env) = false ->
  custom_command (lit "time") (x_globals st) = None ->
  In (ENext words) (x_trace (snd (execHandler env sess (lit "time" :: words) st))).
Proof.
  intros Hne Hr Hc. unfold execHandler. assert (unshadowBuiltinVBin (lit "time" :: words) = lit "time" :: words) as -> by done. cbv zeta.
  destruct words as [|b l]; [done|]. assert (applySetAssignment (gateSessionID sess (x_globals st)) (lit "time" :: b :: l) st = (None, st)) as -> by done.
  rewrite Hr. cbn [andb]. set (st2 := if xtrace_on (x_globals st) then _ else _). assert (x_globals st2 = x_globals st) as -> by (unfold st2; by destruct (xtrace_on _)).
  change (name_of (lit "time" :: b :: l)) with (lit "time"). rewrite Hc.
  assert (builtin env sess (lit "time" :: b :: l) st2 = Some (time_builtin env (lit "time" :: b :: l) st2)) as -> by done.
  cbn [time_builtin tail]. unfold next, xcall. destruct (callee env (ENext (b :: l)) st2) as [o s]. cbn [snd]. unfold text, xemit. cbn [x_trace].
  rewrite !in_app_iff. left. right. by left.
Qed.

(** ** The directory stack *)

Lemma dirs_Pop_Push dir d : ds_stack d <> [] -> dirs_Pop (dirs_Push dir d) = (dir, mkDirs (ds_stack d) (ds_oldpwd (dirs_Push dir d))).
Proof.
  intros Hne. unfold dirs_Pop, dirs_Push. cbn [ds_stack ds_oldpwd]. rewrite zlen_app, last_snoc, length_app. change (zlen [dir]) with 1. change (length [dir]) with 1%nat.
  assert (0 < zlen (ds_stack d)) by (destruct (ds_stack d); [done|unfold zlen; cbn [length]; lia]).
  destruct (zlen (ds_stack d) + 1 <=? 1) eqn:E; [lia|]. cbn [default]. f_equal. f_equal. by replace (length (ds_stack d) + 1 - 1)%nat with (length (ds_stack d)) by lia; rewrite take_app_length.
Qed.

(** The next handler leaves the directory stack of the session alone: only
    the handler of this file holds it. *)
Definition keeps_dirs (env : xenv) : Prop := forall w st, x_dirs (snd (v_next env w st)) = x_dirs st.
Lemma cd_ok env dir st st' : keeps_dirs env -> cd env dir st = (XOk, st') ->
  x_dirs st' = x_dirs st /\ x_trace st' = x_trace st ++ [ENext [lit "cd"; dir]].
Proof.
  intros Hk. unfold cd, next, xcall. cbn [callee]. specialize (Hk [lit "cd"; dir] st). destruct (v_next env _ st) as [[x|] s]; [done|]. by intros [= <-].
Qed.

(** From a stack that is not empty, a pushd and a popd that succeed change to
    the directory and back to the one before, leave the stack as it was and
    record the directory left. *)
Theorem pushd_popd env env' sess cmd cmd' dir rest st st1 st2 :
  keeps_dirs env -> keeps_dirs env' -> cmd = lit "pushd" -> cmd' = lit "popd" -> ds_stack (x_dirs st) <> [] ->
  builtin env sess (cmd :: dir :: rest) st = Some (XOk, st1) -> builtin env' sess [cmd'] st1 = Some (XOk, st2) ->
  ds_stack (x_dirs st2) = ds_stack (x_dirs st) /\ ds_oldpwd (x_dirs st2) = v_dir env' /\
  exists out, x_trace st2 = x_trace st ++ out /\ runs out = [ENext [lit "cd"; dir]; ENext [lit "cd"; v_dir env]].
Proof.
  intros Hk Hk' -> -> Hne. change (builtin env sess (lit "pushd" :: dir :: rest) st) with (Some (pushd_builtin env (lit "pushd" :: dir :: rest) st)).
  change (builtin env' sess [lit "popd"] st1) with (Some (popd_builtin env' st1)). unfold pushd_builtin.
  destruct (cd env dir _) as [[|x|] s1] eqn:E1; [|done..]. apply cd_ok in E1 as [D1 T1]; [|done]. intros [= <-].
  unfold popd_builtin. change (x_dirs (printDirStack env s1)) with (x_dirs s1). rewrite D1. change (x_dirs (set_dirs ?d ?s)) with d.
  rewrite dirs_Pop_Push by done. case_bool_decide as E; [done|].
  destruct (cd env' _ _) as [[|x|] s2] eqn:E2; [|done..]. apply cd_ok in E2 as [D2 T2]; [|done]. intros [= <-].
  unfold printDirStack, text, xemit, set_dirs. cbn [x_dirs SetOldPwd ds_stack ds_oldpwd x_trace].
  split; [by rewrite D2|]. split; [done|]. eexists. split; [rewrite T2; unfold printDirStack, text, xemit, set_dirs; cbn [x_trace]; rewrite T1; cbn [x_trace]; rewrite <- !app_assoc; reflexivity|].
  unfold runs. cbn. done.
Qed.

(** ** Instances *)

#[local] Existing Instance literalPatterns.
#[local] Existing Instance coreApprovalGate.

(** A binary that drops the sessions, as a logout does. *)
Definition toy_vbin (args : list bytes) (sid : bytes) (restricted : bool) : effect :=
  fun st => (None, mkX (x_globals st) (x_dirs st) (mkReg ∅ ∅ 0) (x_env st) (x_trace st)).
Definition toy_xenv : xenv :=
  mkXEnv demoEnv {[lit "history"]} (fun _ st => (None, st)) toy_vbin (fun _ _ st => (None, st)) (fun _ => None) (lit "/home/a") (fun _ => None) (lit "yes" ++ LFs).
Definition toy_sess : sessState := mkSess true (lit "s1").
Definition toy_x : xstate :=
  mkX (Some {[shopts := VDict [(lit "xtrace", VBool false)]; lit "SESSION_ID" := VString (lit "s2")]}) (mkDirs [lit "/"] []) (g_reg demoState) ∅ [].
Definition run_words (words : list string) : xres * list xevent :=
  let '(r, st) := execHandler toy_xenv toy_sess (map lit words) toy_x in (r, x_trace st).

Example handler_examples :
  run_words ["set"; "SESSION_ID=s9"]%string = (XErr (Reserved (lit "SESSION_ID")), []) /\
  run_words ["read"; "__custom_commands__"]%string = (XErr (Reserved (lit "__custom_commands__")), []) /\
  run_words ["./x"]%string = (XErr RestrictedSlash, []) /\ run_words ["time"; "./x"]%string = (XOk, [ENext [lit "./x"]; EText (LFs ++ lit "real")]) /\
  run_words ["history"; "5"]%string = (XOk, [EVBin (lit "history") [lit "history"; lit "5"] (lit "s1") true]) /\
  run_words ["alias"; "ll='ls -l'"]%string = (XOk, [EText (alias_line (lit "ll") (lit "ls -l"))]) /\
  run_words ["pushd"]%string = (XErr NoOtherDir, []) /\ run_words ["ls"; "-l"]%string = (XOk, [ENext [lit "ls"; lit "-l"]]) /\
  globalSessions (x_reg (snd (execHandler toy_xenv toy_sess [lit "history"] toy_x))) = ∅.
Proof. vm_compute. repeat split. Qed.

(** The interpreter of the example unwraps [command] and [exec]. *)
Definition toy_interp (words : list bytes) : option (list bytes) := if wrapper words then Some (tail words) else Some words.


(** [command] is gated, its target is not: [sh] reaches the next handler
    though the gate never saw its name. *)
Example wrapper_target_ungated :
  toy_interp [lit "command"; lit "sh"] = Some [lit "sh"] /\
  run_words ["sh"]%string = (XOk, [ENext [lit "sh"]]).
Proof. vm_compute. done. Qed.

Lemma pushd_popd_witness : exists st2, builtin toy_xenv toy_sess [lit "popd"] (match builtin toy_xenv toy_sess [lit "pushd"; lit "/tmp"] toy_x with Some r => snd r | None => toy_x end) = Some (XOk, st2) /\
  ds_stack (x_dirs st2) = [lit "/"].
Proof.
  eexists. split; [vm_compute; reflexivity|].
  refine (proj1 (pushd_popd toy_xenv toy_xenv toy_sess (lit "pushd") (lit "popd") (lit "/tmp") [] toy_x _ _ (fun _ _ => eq_refl) (fun _ _ => eq_refl) eq_refl eq_refl _ _ _));
    [discriminate|vm_compute; reflexivity|vm_compute; reflexivity].
Defined.
