(* ===== verification/CallbackUrl.v ===== *)
(** * Callback URLs

    security/callback_url.go: which operator-supplied URLs are accepted, and
    which addresses a request to one may connect to, whatever DNS answers at
    either time; with approvalLink and sendApprovalNotice of
    security/approval_notice_ee.go.  url.Parse, the resolver and IDNA are
    parameters. *)

From S2P Require Import Prelude GoBytes NetIP Policy.
#[local] Open Scope Z_scope.
#[local] Arguments lit : simpl never.

(** ** URLs *)

Record URL := mkURL3 {
  l_Scheme : bytes; l_Opaque : bytes; l_User : bool; l_Host : bytes; l_Path : bytes;
  l_RawQuery : bytes; l_ForceQuery : bool; l_Fragment : bytes }.

(** [url.Parse] and [URL.String]; [strings.ToLower] and the transport's IDNA
    mapping of a text that is not ASCII. *)
Class NetURL := {
  Parse : bytes -> option URL; URL_String : URL -> bytes;
  unicode_lower : bytes -> bytes; idna_ToASCII : bytes -> option bytes }.

Definition ascii_byte (c : byte) : bool := byte_val c <? 128.
Definition is_ascii (s : bytes) : bool := forallb ascii_byte s.

(** [validOptionalPort] and [URL.Hostname], [URL.Port]. *)
Definition validOptionalPort (s : bytes) : bool :=
  match s with [] => true | c :: s' => (c =?b ":") && forallb decimal s' end.
Definition splitHost (hostPort : bytes) : bytes * bytes :=
  let '(host, port) :=
    match last_index ":" hostPort 0 None with
    | Some i => if validOptionalPort (drop i hostPort) then (take i hostPort, drop (S i) hostPort) else (hostPort, [])
    | None => (hostPort, [])
    end in
  (if has_prefix (lit "[") host && has_suffix (lit "]") host then take (length host - 2) (drop 1 host) else host, port).
Definition URL_Hostname (u : URL) : bytes := fst (splitHost (l_Host u)).
Definition URL_Port (u : URL) : bytes := snd (splitHost (l_Host u)).

(** ** Addresses *)

Definition cgnatBlock : IPNet := mkNet [100; 64; 0; 0] (CIDRMask 10 4).

Definition callbackAllowPrivate (getenv : bytes -> bytes) : bool :=
  is_one_of (to_lower (trim_space (getenv (lit "ADSSH_CALLBACK_ALLOW_PRIVATE")))) ["1"; "true"; "yes"]%string.

Definition callbackIPAlwaysBlocked (ip : IP) : bool :=
  bool_decide (ip = []) || IsLinkLocalUnicast ip || IsLinkLocalMulticast ip || IsUnspecified ip || IsMulticast ip
  || match To4 ip with Some ip4 => IP_Equal ip4 (v4InV6Prefix ++ [169; 254; 169; 254]) | None => false end
  || match ParseIP (lit "fd00:ec2::254") with Some m => IP_Equal ip m | None => false end.

Definition is_private (ip : IP) : bool := IsPrivate ip || Contains cgnatBlock ip.

Definition callbackIPBlocked (getenv : bytes -> bytes) (ip : IP) : bool :=
  callbackIPAlwaysBlocked ip || (is_private ip && negb (callbackAllowPrivate getenv)).

Definition callbackIPNeedsPrivateOverride (getenv : bytes -> bytes) (ip : IP) : bool :=
  negb (bool_decide (ip = [])) && negb (callbackIPAlwaysBlocked ip) && is_private ip && negb (callbackAllowPrivate getenv).

Definition exactLoopbackHost (host : bytes) : bool :=
  bool_decide (host = lit "127.0.0.1") || bool_decide (host = lit "::1").

(** ** Validation *)

(** What a rejection wraps: [urlRejectedError] with this cause. *)
Inductive rejectCause := errPrivateHost | errHostUnresolved | errDialDenied.
#[export] Instance rejectCause_eq : EqDecision rejectCause.
Proof. solve_decision. Defined.
Definition urlRejected : Type := option rejectCause.

Section Validation.
Context `{NetURL}.

Definition ToLower (s : bytes) : bytes := if is_ascii s then to_lower s else unicode_lower s.

Definition callbackHost (u : URL) : bytes := ToLower (trim_suffix (lit ".") (URL_Hostname u)).

Definition bad_byte (c : byte) : bool := (byte_val c =? 13) || (byte_val c =? 10) || (byte_val c =? 0).

Definition blockedName (host : bytes) : bool :=
  is_one_of host ["localhost"; "metadata.google.internal"; "metadata.goog"]%string.

Definition validateCallbackURLSyntax (getenv : bytes -> bytes) (raw : bytes) : result urlRejected URL :=
  if (zlen raw =? 0) || (2048 <? zlen raw) || existsb bad_byte raw then Err None
  else match Parse raw with
  | None => Err None
  | Some parsed =>
      if bool_decide (l_Host parsed = []) || bool_decide (URL_Hostname parsed = []) || l_User parsed then Err None
      else
        let host := callbackHost parsed in
        if blockedName host then Err None
        else if negb (bool_decide (l_Scheme parsed = lit "https"))
                && negb (bool_decide (l_Scheme parsed = lit "http") && exactLoopbackHost host) then Err None
        else match ParseIP host with
        | Some ip =>
            if callbackIPNeedsPrivateOverride getenv ip then Err (Some errPrivateHost)
            else if callbackIPBlocked getenv ip || (IsLoopback ip && negb (exactLoopbackHost host)) then Err None
            else Ok parsed
        | None => Ok parsed
        end
  end.

Fixpoint check_addrs (getenv : bytes -> bytes) (private : bool) (addrs : list IP) : option rejectCause :=
  match addrs with
  | [] => if private then Some errPrivateHost else None
  | addr :: rest =>
      if callbackIPNeedsPrivateOverride getenv addr then check_addrs getenv true rest
      else if callbackIPBlocked getenv addr || IsLoopback addr then Some errDialDenied
      else check_addrs getenv private rest
  end.
Definition checkResolvedIPs (getenv : bytes -> bytes) (addrs : list IP) : option rejectCause := check_addrs getenv false addrs.

(** The resolver answers within its time, or not. *)
Definition validateCallbackURL (getenv : bytes -> bytes) (lookup : bytes -> option (list IP)) (raw : bytes) : result urlRejected URL :=
  let! parsed := validateCallbackURLSyntax getenv raw in
  let host := callbackHost parsed in
  if bool_decide (is_Some (ParseIP host)) then Ok parsed
  else match lookup host with
  | None | Some [] => Err (Some errHostUnresolved)
  | Some addrs => match checkResolvedIPs getenv addrs with Some e => Err (Some e) | None => Ok parsed end
  end.

(** ** Connections *)

(** An address the dialer tries, with the zone of a link-local one. *)
Record target := mkTarget { t_ip : IP; t_zone : bytes }.

(** [TCPAddr.String]. *)
Definition target_address (port : bytes) (t : target) : bytes :=
  JoinHostPort (IP_String (t_ip t) ++ match t_zone t with [] => [] | z => lit "%" ++ z end) port.

(** [Dialer.Control] of [callbackDialContext]. *)
Definition dialControl (getenv : bytes -> bytes) (literalLoopback : bool) (address : bytes) : bool :=
  match SplitHostPort address with
  | None => false
  | Some connected =>
      match ParseIP connected with
      | None => false
      | Some ip => negb (callbackIPBlocked getenv ip || (IsLoopback ip && negb literalLoopback))
      end
  end.

(** The addresses [DialContext] tries: a literal one, or the resolver's
    answer at that time. *)
Definition Dialer_targets (resolve : bytes -> list target) (host : bytes) : list target :=
  match ParseIP host with Some ip => [mkTarget ip []] | None => resolve host end.

(** The port of what [SplitHostPort] splits. *)
Definition split_port (addr : bytes) : bytes :=
  match last_index ":" addr 0 None with Some i => drop (S i) addr | None => [] end.

(** The targets a connection is opened to; absent is [errDialDenied]. *)
Definition callbackDialContext (getenv : bytes -> bytes) (resolve : bytes -> list target) (addr : bytes) : option (list target) :=
  match SplitHostPort addr with
  | None => None
  | Some host =>
      Some (List.filter (fun t => dialControl getenv (exactLoopbackHost host) (target_address (split_port addr) t))
              (Dialer_targets resolve host))
  end.

(** The address the transport dials for a URL. *)
Definition idnaASCII (host : bytes) : bytes :=
  if is_ascii host then host else default host (idna_ToASCII host).
Definition canonicalAddr (u : URL) : bytes :=
  let port := match URL_Port u with
              | [] => if bool_decide (l_Scheme u = lit "https") then lit "443" else lit "80"
              | p => p end in
  JoinHostPort (idnaASCII (URL_Hostname u)) port.

(** [callbackHTTPClient(...).Do]: the peers a request to the URL may reach.
    There is no proxy and no redirect is followed, so there are no others. *)
Definition client_reaches (getenv : bytes -> bytes) (resolve : bytes -> list target) (u : URL) : list target :=
  default [] (callbackDialContext getenv resolve (canonicalAddr u)).

(** What the peer answers: a redirect is refused by [CheckRedirect].  [first]
    says which of the targets connects first, if one does. *)
Inductive httpAnswer := Moved (location : bytes) | Response (status : Z) (body : bytes) | NoAnswer.
Inductive clientErr := errRedirectDenied | RequestFailed.
Definition client_Do (getenv : bytes -> bytes) (resolve : bytes -> list target) (first : nat) (serve : target -> httpAnswer) (u : URL)
    : result clientErr (Z * bytes) :=
  match client_reaches getenv resolve u !! first with
  | None => Err RequestFailed
  | Some t => match serve t with
              | Moved _ => Err errRedirectDenied
              | Response status body => Ok (status, body)
              | NoAnswer => Err RequestFailed
              end
  end.

(** ** Approval notices *)

Definition lower_hex (c : byte) : bool := decimal c || ((97 <=? byte_val c) && (byte_val c <=? 102)).
Definition approvalFingerprint (s : bytes) : bool := (zlen s =? 64) && forallb lower_hex s.

Definition approvalLink (getenv : bytes -> bytes) (lookup : bytes -> option (list IP)) (base fingerprint : bytes) : result urlRejected bytes :=
  if negb (approvalFingerprint fingerprint) then Err None
  else
    let! p := validateCallbackURL getenv lookup base in
    Ok (URL_String (mkURL3 (l_Scheme p) (l_Opaque p) (l_User p) (l_Host p)
         (trim_right_set (fun c => c =?b "/") (l_Path p) ++ lit "/approvals/" ++ fingerprint) [] (l_ForceQuery p) [])).

Record approvalNotice := mkNotice {
  an_Event : bytes; an_Kind : bytes; an_Command : bytes; an_RequiredApprover : bytes; an_Fingerprint : bytes; an_ApprovalLink : bytes }.

Inductive noticeErr := NoticeURL (e : urlRejected) | NoticeRequest (e : clientErr) | NoticeStatus (status : Z).

(** The POSTed notice, when one is, and the outcome. *)
Definition sendApprovalNotice (getenv : bytes -> bytes) (lookup : bytes -> option (list IP)) (resolve : bytes -> list target)
    (first : nat) (serve : target -> approvalNotice -> httpAnswer) (n : approvalNotice) : result noticeErr (option (URL * approvalNotice)) :=
  match getenv (lit "ADSSH_4EYES_WEBHOOK") with
  | [] => Ok None
  | webhook =>
      match validateCallbackURL getenv lookup webhook with
      | Err e => Err (NoticeURL e)
      | Ok parsed =>
          let link := match getenv (lit "ADSSH_APPROVAL_LINK_BASE") with
                      | [] => an_ApprovalLink n
                      | base => match approvalLink getenv lookup base (an_Fingerprint n) with Ok l => l | Err _ => an_ApprovalLink n end
                      end in
          let n := mkNotice (an_Event n) (an_Kind n) (an_Command n) (an_RequiredApprover n) (an_Fingerprint n) link in
          match client_Do getenv resolve first (fun t => serve t n) parsed with
          | Err e => Err (NoticeRequest e)
          | Ok (status, _) => if 300 <=? status then Err (NoticeStatus status) else Ok (Some (parsed, n))
          end
      end
  end.
End Validation.

(** ** Addresses by network *)

(** An address as Go has it. *)
Definition ip_wf (ip : IP) : Prop := (length ip = 4%nat \/ length ip = 16%nat) /\ Forall octet ip.

Definition nets (l : list string) : list IPNet :=
  omap (fun s => '(_, n, _, _) ← ParseCIDR (lit s); Some n) l.
Definition in_nets (l : list string) (ip : IP) : bool := existsb (fun n => Contains n ip) (nets l).

(** The networks no callback reaches, and those the override opens. *)
Definition never_nets : list string :=
  ["0.0.0.0/32"; "::/128"; "169.254.0.0/16"; "fe80::/10"; "224.0.0.0/4"; "ff00::/8"; "fd00:ec2::254/128"]%string.
Definition private_nets : list string :=
  ["10.0.0.0/8"; "172.16.0.0/12"; "192.168.0.0/16"; "100.64.0.0/10"; "fc00::/7"]%string.
Definition loopback_nets : list string := ["127.0.0.0/8"; "::1/128"]%string.

Lemma decide_cons (x y : Z) l k : bool_decide (x :: l = y :: k) = (x =? y) && bool_decide (l = k).
Proof. apply eq_true_iff_eq. rewrite andb_true_iff, !bool_decide_eq_true, Z.eqb_eq. split; [by intros [= -> ->]|by intros [-> ->]]. Qed.
Lemma decide_cons_nil (x : Z) l {D : Decision (x :: l = [])} : bool_decide (x :: l = []) = false.
Proof. by apply bool_decide_eq_false. Qed.
Lemma decide_nil {D : Decision (@nil Z = [])} : bool_decide (@nil Z = []) = true.
Proof. by apply bool_decide_eq_true. Qed.
Lemma land_255 a : octet a -> Z.land a 255 = a.
Proof. intros [? ?]. change 255 with (Z.ones 8). rewrite Z.land_ones by lia. by apply Z.mod_small. Qed.

(** Both forms of an address, byte by byte. *)
Lemma ip_cases ip : ip_wf ip ->
  (exists a b c d, To4 ip = Some [a; b; c; d] /\ Forall octet [a; b; c; d] /\ (ip = [a; b; c; d] \/ ip = v4InV6Prefix ++ [a; b; c; d])) \/
  (To4 ip = None /\ exists x0 x1 x2 x3 x4 x5 x6 x7 x8 x9 x10 x11 x12 x13 x14 x15,
     ip = [x0; x1; x2; x3; x4; x5; x6; x7; x8; x9; x10; x11; x12; x13; x14; x15]).
Proof.
  intros [[Hl|Hl] Ho].
  - left. destruct ip as [|a [|b [|c [|d [|]]]]]; try done. exists a, b, c, d. split_and!; [done|done|by left].
  - destruct (To4 ip) as [v4|] eqn:E.
    + left. destruct (To4_Some ip v4 E Hl) as [-> H4]. destruct v4 as [|a [|b [|c [|d [|]]]]]; try done.
      apply Forall_app in Ho as [_ Ho]. exists a, b, c, d. split_and!; [done|done|by right].
    + right. split; [done|]. do 16 (destruct ip as [|? ip]; [done|]). destruct ip; [|done]. by do 16 eexists.
Qed.

(** Membership, with the networks' bytes computed. *)
Definition norm (ip : IP) : IP := match To4 ip with Some v4 => v4 | None => ip end.
Definition net_pairs (l : list string) : list (IP * list Z) :=
  map (fun n => (norm (n_ip n), if Nat.eqb (length (norm (n_ip n))) 4 && Nat.eqb (length (n_mask n)) 16 then drop 12 (n_mask n) else n_mask n)) (nets l).
Definition contains_at (nn m ip : IP) : bool :=
  Nat.eqb (length ip) (length nn) && Nat.eqb (length m) (length nn) && bool_decide (mask_bytes nn m = mask_bytes ip m).
Lemma in_nets_at l ip : in_nets l ip = existsb (fun p => contains_at (fst p) (snd p) (norm ip)) (net_pairs l).
Proof.
  unfold in_nets, net_pairs. induction (nets l) as [|n ns IH]; [done|]. cbn [existsb map]. by rewrite IH.
Qed.

(** A network of one address. *)
Lemma contains_one (k ip : IP) : length k = 16%nat -> length ip = 16%nat -> Forall octet k -> Forall octet ip ->
  contains_at k (repeat 255 16) ip = bool_decide (ip = k).
Proof.
  intros Hk Hi Ok Oi. unfold contains_at. rewrite Hk, Hi. cbn [Nat.eqb length repeat andb].
  assert (Hm : forall l n, length l = n -> Forall octet l -> mask_bytes l (repeat 255 n) = l).
  { intros l n <-. induction 1 as [|x l Hx Hl IH]; [done|]. cbn [length repeat mask_bytes]. by rewrite land_255, IH. }
  change ([255; 255; 255; 255; 255; 255; 255; 255; 255; 255; 255; 255; 255; 255; 255; 255]) with (repeat 255 16).
  rewrite !Hm by done. by apply bool_decide_ext.
Qed.

(** The tests on a concrete form, as conditions on its bytes. *)
Ltac ip_norm :=
  unfold contains_at, IP_Equal, at_byte;
  cbn [existsb length Nat.eqb app v4InV6Prefix repeat andb orb mask_bytes fst snd nth hd];
  rewrite ?decide_cons, ?decide_nil, ?decide_cons_nil, ?Z.land_0_r, ?Z.eqb_refl; cbn [andb].
Ltac nets_of l := let x := eval vm_compute in (net_pairs l) in change (net_pairs l) with x.
Ltac ip_open ip Hw :=
  destruct (ip_cases ip Hw) as [(a & b & c & d & H4 & Ho & Hip)|(H4 & x0 & x1 & x2 & x3 & x4 & x5 & x6 & x7 & x8 & x9 & x10 & x11 & x12 & x13 & x14 & x15 & Hip)].
Ltac octets := repeat match goal with H : Forall octet (_ :: _) |- _ => apply Forall_cons in H as [? H] end.
Ltac lands := repeat match goal with
  | |- context [Z.land ?a ?m] => match a with Z0 => idtac | Zpos _ => idtac end; let v := eval vm_compute in (Z.land a m) in change (Z.land a m) with v
  end.
(** Conditions on bytes, decided. *)
Ltac bytes_lia :=
  octets; lands; rewrite ?land_255 by assumption; apply eq_true_iff_eq;
  repeat rewrite ?orb_true_iff, ?andb_true_iff, ?bool_decide_eq_true, ?Z.eqb_eq; try lia.
Lemma always_blocked_nets ip : ip_wf ip -> callbackIPAlwaysBlocked ip = in_nets never_nets ip.
Proof.
  intros Hw. rewrite in_nets_at. nets_of never_nets.
  unfold callbackIPAlwaysBlocked, IsLinkLocalUnicast, IsLinkLocalMulticast, IsMulticast, IsUnspecified, ip_test, norm.
  let m := eval vm_compute in (ParseIP (lit "fd00:ec2::254")) in change (ParseIP (lit "fd00:ec2::254")) with m.
  ip_open ip Hw; rewrite H4.
  - assert (a = 224 -> Z.land a 240 = 224) by by intros ->. destruct Hip as [-> | ->]; ip_norm; bytes_lia.
  - destruct Hw as [Hl Ho]. assert (Hl16 : length ip = 16%nat) by (by rewrite Hip).
    cbn [existsb fst snd]. change ([255; 255; 255; 255; 255; 255; 255; 255; 255; 255; 255; 255; 255; 255; 255; 255]) with (repeat 255 16).
    rewrite !contains_one by (try done; repeat constructor; unfold octet; lia).
    assert (IP_Equal ip (v4InV6Prefix ++ repeat 0 4) = false) as ->.
    { unfold IP_Equal. rewrite Hl16. apply bool_decide_eq_false. intros ->. by vm_compute in H4. }
    assert (forall k, length k = 16%nat -> IP_Equal ip k = bool_decide (ip = k)) as HE by (intros k Hk; unfold IP_Equal; by rewrite Hl16, Hk).
    rewrite !HE by done. change (repeat 0 16) with (repeat (Z0) 16). rewrite (bool_decide_false (ip = [])) by (by rewrite Hip).
    rewrite Hl16. change [0; 0; 0; 0; 0; 0; 0; 0; 0; 0; 0; 0; 0; 0; 0; 0] with (repeat 0 16).
    generalize (bool_decide (ip = repeat 0 16)) (bool_decide (ip = [253; 0; 14; 194; 0; 0; 0; 0; 0; 0; 0; 0; 0; 0; 2; 84])).
    rewrite Hip in Ho |- *. clear Hip HE Hl Hl16 H4. intros zero ec2. ip_norm. clear - Ho. destruct zero, ec2; bytes_lia.
Qed.

Lemma private_nets_ok ip : ip_wf ip -> is_private ip = in_nets private_nets ip.
Proof.
  intros Hw. rewrite in_nets_at. nets_of private_nets. unfold is_private, IsPrivate, ip_test, Contains. fold (norm ip).
  let x := eval vm_compute in cgnatBlock in change cgnatBlock with x.
  ip_open ip Hw; rewrite H4; unfold norm; rewrite H4; cbn [n_ip n_mask To4 length Nat.eqb andb].
  - ip_norm. bytes_lia.
  - destruct Hw as [_ Ho]. rewrite Hip in Ho |- *. clear Hip H4. ip_norm. bytes_lia.
Qed.

Lemma loopback_nets_ok ip : ip_wf ip -> IsLoopback ip = in_nets loopback_nets ip.
Proof.
  intros Hw. rewrite in_nets_at. nets_of loopback_nets. unfold IsLoopback, norm.
  ip_open ip Hw; rewrite H4.
  - ip_norm. bytes_lia.
  - destruct Hw as [Hl Ho]. assert (Hl16 : length ip = 16%nat) by (by rewrite Hip).
    cbn [existsb fst snd]. change ([255; 255; 255; 255; 255; 255; 255; 255; 255; 255; 255; 255; 255; 255; 255; 255]) with (repeat 255 16).
    rewrite contains_one by (try done; repeat constructor; unfold octet; lia).
    unfold contains_at. rewrite Hl16. cbn [length Nat.eqb andb orb repeat app]. by rewrite orb_false_r.
Qed.

(** ** What is dialed *)

Lemma IP_String_16 ip : ip_wf ip -> exists ip', To16 ip = Some ip' /\ ip_wf ip' /\ norm ip' = norm ip /\ IP_String ip' = IP_String ip /\ length ip' = 16%nat.
Proof.
  intros Hw. ip_open ip Hw.
  - exists (v4InV6Prefix ++ [a; b; c; d]). assert (Ho' : ip_wf (v4InV6Prefix ++ [a; b; c; d])).
    { split; [by right|]. apply Forall_app. split; [|done]. repeat constructor; unfold octet; lia. }
    destruct Hip as [-> | ->]; split_and!; done.
  - exists ip. split_and!; try done; by rewrite Hip.
Qed.

Lemma IP_String_unbracketed ip : ip_wf ip -> ParseIP (IP_String ip) = To16 ip /\ has_byte "[" (IP_String ip) = false /\ has_byte "]" (IP_String ip) = false /\ IP_String ip <> [].
Proof.
  intros Hw. destruct (IP_String_16 ip Hw) as (ip' & E & [_ Ho] & _ & <- & Hl). rewrite E. split; [by apply ParseIP_String|].
  destruct (To4 ip') as [v4|] eqn:H4.
  - unfold IP_String. rewrite H4. destruct (To4_Some _ _ H4 Hl) as [-> Hl4]. apply Forall_app in Ho as [_ Ho].
    destruct v4 as [|a [|b [|c [|d [|]]]]]; try done. cbn [map GoBytes.join]. octets.
    assert (Hd : forall x, octet x -> forallb decimal (dec x) = true /\ dec x <> []).
    { intros x Hx. split.
      - revert Hx. apply (forallb_range (fun x => forallb decimal (dec x)) 256). by vm_compute.
      - pose proof (dec_length x Hx) as Hp. intros En. rewrite En in Hp. done. }
    unfold has_byte. rewrite !existsb_app. repeat match goal with Hx : octet ?x |- _ => destruct (Hd x Hx) as [? ?]; clear Hx end.
    repeat match goal with Hx : forallb decimal ?x = true |- _ => pose proof (decimal_no "[" x Hx eq_refl); pose proof (decimal_no "]" x Hx eq_refl); clear Hx end.
    unfold has_byte in *. repeat match goal with Hx : existsb _ _ = false |- _ => rewrite Hx; clear Hx end.
    split_and!; [done|done|]. intros En. by apply app_eq_nil in En as [? _].
  - destruct (v6_text ip' Hl Ho H4) as [Hp Hc]. rewrite forallb_forall in Hc.
    assert (Hn : forall c, hex_colon c = false -> has_byte c (IP_String ip') = false).
    { intros c Hx. apply not_true_iff_false. intros Hy. apply existsb_exists in Hy as (y & Hy & Ey). apply Ascii.eqb_eq in Ey as ->. specialize (Hc _ Hy). congruence. }
    split_and!; [by apply Hn|by apply Hn|]. intros En. by rewrite En in Hp.
Qed.

(** A host without brackets reads back from the joined address. *)
Lemma split_join host port : forallb decimal port = true -> has_byte "[" host = false -> has_byte "]" host = false ->
  SplitHostPort (JoinHostPort host port) = Some host.
Proof.
  intros Hp Hl Hr. pose proof (fun c => decimal_no c port Hp) as Hd. unfold JoinHostPort. destruct (has_byte ":" host) eqn:Eh.
  - assert (Hi : last_index ":" ("["%char :: host ++ lit "]:" ++ port) 0 None = Some (length host + 2)%nat).
    { replace ("["%char :: host ++ lit "]:" ++ port) with (("["%char :: host ++ lit "]") ++ ":"%char :: port) by (cbn [app]; by rewrite <- !app_assoc).
      rewrite last_index_at by (by apply Hd). f_equal. cbn [length]. rewrite length_app. change (length (lit "]")) with 1%nat. lia. }
    change (lit "[" ++ ?r) with ("["%char :: r). unfold SplitHostPort. rewrite Hi. change ("["%char =?b "[") with true. cbv iota.
    change (lit "]:" ++ port) with ("]"%char :: ":"%char :: port). rewrite cut_byte_first by done. rewrite Nat.eqb_refl.
    unfold has_byte in *. rewrite existsb_app, Hl. cbn [existsb]. by rewrite !Hd.
  - assert (Hi : last_index ":" (host ++ lit ":" ++ port) 0 None = Some (length host)) by (apply (last_index_at ":" host port 0 None); by apply Hd).
    unfold SplitHostPort. rewrite Hi. unfold has_byte in *. rewrite !existsb_app, Hl, Hr, take_app_length, Eh. cbn [existsb lit list_ascii_of_string].
    change (lit ":" ++ port) with (":"%char :: port). cbn [existsb]. rewrite !Hd by done. destruct host as [|x host]; [done|]. cbn [app].
    cbn [existsb] in Hl. apply orb_false_iff in Hl as [Hx _]. rewrite Ascii.eqb_sym in Hx. destruct (x =?b "[") eqn:E; [|done]. apply Ascii.eqb_eq in E as ->. done.
Qed.

Lemma split_port_join host port : forallb decimal port = true -> split_port (JoinHostPort host port) = port.
Proof.
  intros Hp. assert (exists h, JoinHostPort host port = h ++ ":"%char :: port) as [h ->].
  { unfold JoinHostPort. destruct (has_byte ":" host); [exists (lit "[" ++ host ++ lit "]")|by exists host].
    change (lit "]:" ++ port) with (lit "]" ++ ":"%char :: port). by rewrite <- !app_assoc. }
  unfold split_port. rewrite last_index_at by (by apply decimal_no). cbn [Nat.add]. change (S (length h)) with (1 + length h)%nat.
  rewrite Nat.add_comm, <- drop_drop, drop_app_length. done.
Qed.

Definition spoken_ip (ip : IP) : IP := default ip (To16 ip).
Lemma in_nets_16 l ip ip' : norm ip' = norm ip -> in_nets l ip' = in_nets l ip.
Proof. intros H. by rewrite !in_nets_at, H. Qed.

Lemma v4_fields_zone s : existsb (fun c => c =?b "%") s = true -> forall val digits dn, v4_fields s val digits dn = None.
Proof.
  induction s as [|c s IH]; [done|]. cbn [existsb v4_fields]. intros H val digits dn.
  destruct (c =?b "%") eqn:E; [apply Ascii.eqb_eq in E as ->; done|]. cbn [orb] in H.
  repeat case_match; try done; by apply IH.
Qed.
Lemma ParseIP_zone s : existsb (fun c => c =?b "%") s = true -> ParseIP s = None.
Proof.
  intros H. unfold ParseIP, ParseAddr. destruct (addr_kind s) as [[]|]; [by rewrite v4_fields_zone|by rewrite H|done].
Qed.

(** The dialer's check of one address. *)
Lemma dialControl_iff getenv literal port t : ip_wf (t_ip t) -> forallb decimal port = true ->
  dialControl getenv literal (target_address port t) = true <->
  t_zone t = [] /\ in_nets never_nets (t_ip t) = false /\ (in_nets private_nets (t_ip t) = true -> callbackAllowPrivate getenv = true) /\
  (in_nets loopback_nets (t_ip t) = true -> literal = true).
Proof.
  intros Hw Hp. destruct (IP_String_unbracketed _ Hw) as (Hparse & Hl & Hr & Hne). destruct (IP_String_16 _ Hw) as (ip' & E16 & Hw' & Hn & _ & _).
  unfold dialControl, target_address. destruct (t_zone t) as [|z zs] eqn:Ez.
  - rewrite app_nil_r, split_join, Hparse, E16 by done. unfold callbackIPBlocked. rewrite always_blocked_nets, private_nets_ok, loopback_nets_ok by done.
    rewrite !(in_nets_16 _ (t_ip t) ip') by done.
    destruct (in_nets never_nets _), (in_nets private_nets _), (in_nets loopback_nets _), literal, (callbackAllowPrivate getenv); cbn; clear; intuition congruence.
  - split; [|by intros [? _]]. destruct (SplitHostPort _) as [h|] eqn:Es; [|done].
    apply join_split_host in Es; [|done]. destruct (ParseIP h) as [ip|] eqn:Eh; [exfalso|done].
    assert (Hpct : existsb (fun c => c =?b "%") h = true).
    { assert (Hz : existsb (fun c => c =?b "%") (IP_String (t_ip t) ++ lit "%" ++ z :: zs) = true)
        by (rewrite existsb_app; change (lit "%" ++ z :: zs) with ("%"%char :: z :: zs); cbn [existsb]; apply orb_true_r).
      destruct Es as [-> | Es]; [done|]. rewrite Es, !existsb_app in Hz. change (existsb _ (lit "[")) with false in Hz.
      change (existsb _ (lit "]")) with false in Hz. by rewrite orb_false_r in Hz. }
    by rewrite ParseIP_zone in Eh.
Qed.

(** ** Requests *)

Section Requests.
Context `{NetURL}.

Lemma URL_Port_decimal u : forallb decimal (URL_Port u) = true.
Proof.
  unfold URL_Port, splitHost. destruct (last_index ":" (l_Host u) 0 None) as [i|]; [|done].
  destruct (validOptionalPort (drop i (l_Host u))) eqn:E; [|done]. cbn [snd].
  rewrite <- Nat.add_1_r, <- drop_drop. unfold validOptionalPort in E. destruct (drop i (l_Host u)) as [|c s]; [done|]. by apply andb_true_iff in E as [_ E].
Qed.

(** The host a request dials: the one it was given, or what its brackets hold. *)
Definition dialed_host (u : URL) (h : bytes) : Prop := SplitHostPort (canonicalAddr u) = Some h.

Lemma client_reaches_iff getenv resolve u t : (forall h t, In t (resolve h) -> ip_wf (t_ip t)) ->
  In t (client_reaches getenv resolve u) <->
  exists h, dialed_host u h /\ In t (Dialer_targets resolve h) /\ t_zone t = [] /\ in_nets never_nets (t_ip t) = false /\
    (in_nets private_nets (t_ip t) = true -> callbackAllowPrivate getenv = true) /\
    (in_nets loopback_nets (t_ip t) = true -> exactLoopbackHost h = true).
Proof.
  intros Hr. unfold client_reaches, callbackDialContext, dialed_host. destruct (SplitHostPort (canonicalAddr u)) as [h|] eqn:E; cbn [default].
  - assert (Hw : In t (Dialer_targets resolve h) -> ip_wf (t_ip t)).
    { unfold Dialer_targets. destruct (ParseIP h) as [ip|] eqn:Ep; [|apply Hr]. intros [<-|[]]. apply ParseIP_wf in Ep as [? ?]. split; [by right|done]. }
    assert (Hp : exists p, forallb decimal p = true /\ split_port (canonicalAddr u) = p).
    { unfold canonicalAddr. destruct (URL_Port u) as [|c p] eqn:Ep.
      - destruct (bool_decide _); (eexists; split; [|by apply split_port_join]); done.
      - pose proof (URL_Port_decimal u) as Hd. rewrite Ep in Hd. exists (c :: p). split; [done|by apply split_port_join]. }
    destruct Hp as (p & Hp & ->). split.
    + intros Hin. apply filter_In in Hin as [Hin Hc]. apply dialControl_iff in Hc; [|by apply Hw|done]. exists h. split; [done|]. by split.
    + intros (h' & [= <-] & Hin & Hrest). apply filter_In. split; [done|]. apply dialControl_iff; [by apply Hw|done|done].
  - split; [done|]. by intros (h & ? & _).
Qed.

Lemma lower_id c d : lower c = d -> (byte_val d <? 97) = true -> c = d.
Proof.
  unfold lower. case_match eqn:E; [|done]. intros <- Hd. bsimp. rewrite byte_val_of, Z.mod_small in Hd by lia. lia.
Qed.
Lemma to_lower_id s d : to_lower s = d -> forallb (fun c => byte_val c <? 97) d = true -> s = d.
Proof.
  revert d. induction s as [|c s IH]; intros d <-; [done|]. cbn [to_lower map forallb]. intros Hf. apply andb_true_iff in Hf as [Hc Hf].
  f_equal; [by apply lower_id|by apply IH].
Qed.

(** The URLs that validation lets through. *)
Lemma validated_url getenv lookup raw u : validateCallbackURL getenv lookup raw = Ok u ->
  Parse raw = Some u /\ l_User u = false /\ blockedName (callbackHost u) = false /\
  (l_Scheme u = lit "https" \/ l_Scheme u = lit "http" /\ exactLoopbackHost (callbackHost u) = true).
Proof.
  unfold validateCallbackURL, rbind. destruct (validateCallbackURLSyntax getenv raw) as [p|] eqn:E; [|done].
  cbv zeta. intros Hu. assert (u = p) as ->.
  { destruct (bool_decide _); [congruence|]. destruct (lookup _) as [[|a l]|]; [done| |done]. destruct (checkResolvedIPs _ _); [done|congruence]. }
  clear Hu. unfold validateCallbackURLSyntax in E. cbv zeta in E. destruct (_ || _ || existsb _ _); [done|]. destruct (Parse raw) as [q|]; [|done].
  destruct (_ || _ || l_User q) eqn:E1; [done|]. destruct (blockedName _) eqn:E2; [done|]. destruct (negb _ && negb _) eqn:E3; [done|].
  assert (q = p) as -> by (destruct (ParseIP _); [destruct (callbackIPNeedsPrivateOverride _ _); [done|]; destruct (_ || _ && _); [done|]|]; congruence).
  clear E. bsimp. split_and!; try done. destruct E3 as [E3|E3]; bsimp; auto.
Qed.

(** C27: Whatever DNS answers when an accepted callback URL is checked and
    later when it is dialed, a request connects to no zoned, unspecified,
    link-local, multicast or metadata address; to a private one only under the
    override; to loopback only when the host that is dialed, after the
    transport maps it by IDNA, is literally 127.0.0.1 or ::1; and in plaintext
    only to loopback when the URL names an ASCII host without a final dot. *)
Theorem callback_confined getenv getenv' lookup resolve raw u t :
  (forall h t, In t (resolve h) -> ip_wf (t_ip t)) ->
  validateCallbackURL getenv lookup raw = Ok u -> In t (client_reaches getenv' resolve u) ->
  (l_Scheme u = lit "https" \/ l_Scheme u = lit "http" /\ exactLoopbackHost (callbackHost u) = true) /\
  t_zone t = [] /\ in_nets never_nets (t_ip t) = false /\
  (in_nets private_nets (t_ip t) = true -> callbackAllowPrivate getenv' = true) /\
  (in_nets loopback_nets (t_ip t) = true -> exists h, dialed_host u h /\ exactLoopbackHost h = true) /\
  (l_Scheme u = lit "http" -> is_ascii (URL_Hostname u) = true -> has_suffix (lit ".") (URL_Hostname u) = false ->
   in_nets loopback_nets (t_ip t) = true).
Proof.
  intros Hr Hv Hin. destruct (validated_url _ _ _ _ Hv) as (_ & _ & _ & Hs). apply client_reaches_iff in Hin as (h & Hh & Hin & Hz & Hn & Hp & Hl); [|done].
  split_and!; try done; [by intros ?; exists h; split; [|apply Hl]|]. intros Hhttp Ha Hd. destruct Hs as [Hs|[_ Hx]]; [by rewrite Hs in Hhttp|].
  assert (Hc : callbackHost u = to_lower (URL_Hostname u)).
  { unfold callbackHost, trim_suffix. rewrite Hd. unfold ToLower. by rewrite Ha. }
  assert (He : URL_Hostname u = lit "127.0.0.1" \/ URL_Hostname u = lit "::1").
  { rewrite Hc in Hx. unfold exactLoopbackHost in Hx. apply orb_true_iff in Hx as [Hx|Hx]; apply bool_decide_eq_true in Hx; [left|right]; by apply to_lower_id. }
  assert (Hdial : h = URL_Hostname u).
  { unfold dialed_host, canonicalAddr, idnaASCII in Hh. rewrite Ha in Hh. rewrite split_join in Hh; [by injection Hh| |by destruct He as [-> | ->]..].
    destruct (URL_Port u) as [|c p] eqn:Ep; [by destruct (bool_decide _)|]. rewrite <- Ep. apply URL_Port_decimal. }
  subst h. destruct He as [He|He]; rewrite He in Hin; unfold Dialer_targets in Hin.
  - replace (ParseIP (lit "127.0.0.1")) with (Some (v4InV6Prefix ++ [127; 0; 0; 1])) in Hin by (by vm_compute). destruct Hin as [<-|[]]. by vm_compute.
  - replace (ParseIP (lit "::1")) with (Some (repeat 0 15 ++ [1])) in Hin by (by vm_compute). destruct Hin as [<-|[]]. by vm_compute.
Qed.
End Requests.

(** ** The private override *)

Section Override.
Context `{NetURL} (off on : bytes -> bytes).
Hypotheses (Hoff : callbackAllowPrivate off = false) (Hon : callbackAllowPrivate on = true).

Lemma private_not_loopback ip : is_private ip = true -> IsLoopback ip = false.
Proof.
  unfold is_private, IsPrivate, IsLoopback, ip_test, Contains. let x := eval vm_compute in cgnatBlock in change cgnatBlock with x.
  cbn [n_ip n_mask To4 length Nat.eqb andb]. intros Hp. apply not_true_iff_false. intros Hl. revert Hp. destruct (To4 ip) as [v4|] eqn:E.
  - destruct v4 as [|a v4]; [done|]. unfold at_byte in *. cbn [hd nth] in *. apply bool_decide_eq_true in Hl as ->.
    cbn [mask_bytes]. lands. rewrite decide_cons. change (100 =? 127) with false. cbn [andb]. by rewrite andb_false_r.
  - apply bool_decide_eq_true in Hl as ->. by vm_compute.
Qed.

Lemma override_ip ip :
  if callbackIPNeedsPrivateOverride off ip
  then callbackIPBlocked on ip = false /\ IsLoopback ip = false /\ callbackIPNeedsPrivateOverride on ip = false
  else callbackIPBlocked on ip = callbackIPBlocked off ip /\ callbackIPNeedsPrivateOverride on ip = false.
Proof.
  pose proof (private_not_loopback ip) as Hp. unfold callbackIPNeedsPrivateOverride, callbackIPBlocked. rewrite Hoff, Hon. cbn [negb].
  rewrite !andb_true_r, !andb_false_r. destruct (bool_decide (ip = [])) eqn:E.
  - apply bool_decide_eq_true in E as ->. by vm_compute.
  - destruct (callbackIPAlwaysBlocked ip), (is_private ip); cbn; auto.
Qed.

Lemma check_addrs_override addrs : forall p q, 
  match check_addrs off p addrs with
  | None => check_addrs on false addrs = None /\ p = false
  | Some errPrivateHost => check_addrs on false addrs = None
  | Some e => check_addrs on q addrs = Some e
  end.
Proof.
  induction addrs as [|a l IH]; intros p q; cbn [check_addrs]; [by destruct p|].
  pose proof (override_ip a) as Ho. destruct (callbackIPNeedsPrivateOverride off a).
  - destruct Ho as (Hb & Hl & Hn). rewrite Hb, Hl, Hn. cbn [orb]. specialize (IH true q). by destruct (check_addrs off true l) as [[]|]; [..|destruct IH].
  - destruct Ho as (-> & ->). destruct (callbackIPBlocked off a || IsLoopback a); [done|]. apply IH.
Qed.

(** x *)
Theorem override_effect lookup raw :
  match validateCallbackURL off lookup raw with
  | Ok u => validateCallbackURL on lookup raw = Ok u
  | Err (Some errPrivateHost) => exists u, validateCallbackURL on lookup raw = Ok u
  | Err e => validateCallbackURL on lookup raw = Err e
  end.
Proof.
  unfold validateCallbackURL, rbind, validateCallbackURLSyntax. destruct (_ || _ || existsb _ _); [done|].
  destruct (Parse raw) as [p|]; [|done]. destruct (_ || _ || l_User p); [done|]. cbv zeta.
  destruct (blockedName _); [done|]. destruct (negb _ && negb _); [done|].
  destruct (ParseIP (callbackHost p)) as [ip|] eqn:Ep.
  - pose proof (override_ip ip) as Ho. destruct (callbackIPNeedsPrivateOverride off ip).
    + destruct Ho as (-> & -> & ->). cbn [orb andb]. rewrite Ep, bool_decide_true by done. by exists p.
    + destruct Ho as (-> & ->). destruct (_ || _ && _); [done|]. by rewrite Ep, !bool_decide_true by done.
  - rewrite Ep, !bool_decide_false by (by intros [? ?]). destruct (lookup (callbackHost p)) as [[|a l]|]; [done| |done].
    pose proof (check_addrs_override (a :: l) false false) as Hc. unfold checkResolvedIPs. destruct (check_addrs off false (a :: l)) as [[]|].
    + rewrite Hc. by exists p.
    + by rewrite Hc.
    + by rewrite Hc.
    + by destruct Hc as [-> _].
Qed.
End Override.

(** ** Notices *)

(** A delivered notice went to the operator's webhook, at an address that
    passed the dial check; only its link was filled in. *)
Theorem notice_delivered `{NetURL} getenv lookup resolve first serve n u n' :
  sendApprovalNotice getenv lookup resolve first serve n = Ok (Some (u, n')) ->
  validateCallbackURL getenv lookup (getenv (lit "ADSSH_4EYES_WEBHOOK")) = Ok u /\
  (exists t status body, In t (client_reaches getenv resolve u) /\ serve t n' = Response status body /\ status < 300) /\
  an_Command n' = an_Command n /\ an_Fingerprint n' = an_Fingerprint n /\
  (an_ApprovalLink n' = an_ApprovalLink n \/ approvalFingerprint (an_Fingerprint n) = true /\
   approvalLink getenv lookup (getenv (lit "ADSSH_APPROVAL_LINK_BASE")) (an_Fingerprint n) = Ok (an_ApprovalLink n')).
Proof.
  unfold sendApprovalNotice. destruct (getenv (lit "ADSSH_4EYES_WEBHOOK")) as [|w ws]; [done|].
  destruct (validateCallbackURL _ _ _) as [p|]; [|done]. cbv zeta. set (link := match getenv (lit "ADSSH_APPROVAL_LINK_BASE") with [] => _ | _ => _ end).
  assert (Hlink : link = an_ApprovalLink n \/ approvalFingerprint (an_Fingerprint n) = true /\
    approvalLink getenv lookup (getenv (lit "ADSSH_APPROVAL_LINK_BASE")) (an_Fingerprint n) = Ok link).
  { subst link. destruct (getenv (lit "ADSSH_APPROVAL_LINK_BASE")) as [|b bs]; [by left|]. destruct (approvalLink _ _ _ _) as [l|] eqn:E; [|by left].
    right. split; [|done]. unfold approvalLink in E. by destruct (approvalFingerprint _). }
  clearbody link. unfold client_Do. destruct (client_reaches _ _ _ !! first) as [t|] eqn:Et; [|done].
  destruct (serve t _) as [| status body |] eqn:Es; [done| |done]. destruct (300 <=? status) eqn:E3; [done|]. intros [= <- <-]. bsimp.
  split_and!; [done| |done|done|done]. exists t, status, body. split_and!; [|done|done]. apply list_elem_of_In. by eapply list_elem_of_lookup_2.
Qed.

(** ** On concrete URLs *)

Definition demo_url (raw : bytes) : option URL :=
  if bool_decide (raw = lit "https://idp.example/keys") then Some (mkURL3 (lit "https") [] false (lit "idp.example") (lit "/keys") [] false [])
  else if bool_decide (raw = lit "http://127.0.0.1:8080/") then Some (mkURL3 (lit "http") [] false (lit "127.0.0.1:8080") (lit "/") [] false [])
  else if bool_decide (raw = lit "https://[::1]/") then Some (mkURL3 (lit "https") [] false (lit "[::1]") (lit "/") [] false [])
  else if bool_decide (raw = lit "https://10.0.0.7/") then Some (mkURL3 (lit "https") [] false (lit "10.0.0.7") (lit "/") [] false [])
  else None.
#[local] Instance demo_net : NetURL :=
  {| Parse := demo_url; URL_String u := l_Host u; unicode_lower s := s; idna_ToASCII _ := None |}.
Definition no_env : bytes -> bytes := fun _ => [].
Definition allow_env : bytes -> bytes := fun _ => lit " Yes ".
Definition v4 (a b c d : Z) : IP := v4InV6Prefix ++ [a; b; c; d].

Example validate_samples :
  let dns := fun h => if bool_decide (h = lit "idp.example") then Some [v4 93 184 216 34] else None in
  is_ok (validateCallbackURL no_env dns (lit "https://idp.example/keys")) = true /\
  validateCallbackURL no_env (fun _ => None) (lit "https://idp.example/keys") = Err (Some errHostUnresolved) /\
  validateCallbackURL no_env (fun _ => Some [v4 10 0 0 1; v4 127 0 0 1]) (lit "https://idp.example/keys") = Err (Some errDialDenied) /\
  is_ok (validateCallbackURL no_env dns (lit "http://127.0.0.1:8080/")) = true /\
  is_ok (validateCallbackURL no_env dns (lit "https://[::1]/")) = true /\
  validateCallbackURL no_env dns (lit "https://10.0.0.7/") = Err (Some errPrivateHost) /\
  is_ok (validateCallbackURL allow_env dns (lit "https://10.0.0.7/")) = true.
Proof. vm_compute. by split_and!. Qed.

(** DNS answers a public address for the check and private, loopback and
    metadata ones for the dial. *)
Definition rebound (h : bytes) : list target :=
  [mkTarget (v4 10 0 0 1) []; mkTarget (v4 169 254 169 254) []; mkTarget (v4 127 0 0 1) []; mkTarget (v4 93 184 216 34) []].
Lemma rebound_wf h t : In t (rebound h) -> ip_wf (t_ip t).
Proof.
  intros Ht. cbn in Ht. destruct Ht as [<-|[<-|[<-|[<-|[]]]]]; (split; [by right|]); repeat constructor; unfold octet; lia.
Qed.
Lemma callback_confined_witness : exists u,
  validateCallbackURL no_env (fun _ => Some [v4 93 184 216 34]) (lit "https://idp.example/keys") = Ok u /\
  client_reaches no_env rebound u = [mkTarget (v4 93 184 216 34) []] /\ in_nets never_nets (v4 93 184 216 34) = false.
Proof.
  eexists. split; [by vm_compute|]. split; [by vm_compute|].
  eapply (callback_confined no_env no_env (fun _ => Some [v4 93 184 216 34]) rebound (lit "https://idp.example/keys") _ (mkTarget (v4 93 184 216 34) []) rebound_wf); [by vm_compute|]. vm_compute. by left.
Defined.
Lemma override_effect_witness : exists u, validateCallbackURL allow_env (fun _ => None) (lit "https://10.0.0.7/") = Ok u.
Proof.
  assert (E : validateCallbackURL no_env (fun _ => None) (lit "https://10.0.0.7/") = Err (Some errPrivateHost)) by by vm_compute.
  pose proof (override_effect no_env allow_env ltac:(by vm_compute) ltac:(by vm_compute) (fun _ => None) (lit "https://10.0.0.7/")) as H.
  rewrite E in H. exact H.
Defined.
