(* ===== verification/AuditSink.v ===== *)
(** * The audit sinks

    security/audit.go and RedactSensitiveText of security/redact.go: the flat
    log, the chained ledger of [AuditChain] and the best-effort copies to
    syslog and a webhook; the webhook's POST over [CallbackUrl]; and the record
    that evalOnce of main.go writes.  The regular expressions, strconv.Quote
    and the clock are parameters. *)

From S2P Require Import Prelude GoBytes FlowScan Json NetIP AuditChain Session Policy CallbackUrl.
#[local] Open Scope Z_scope.
#[local] Arguments lit : simpl never.

(** ** Redaction *)

(** The patterns of redact.go, in the order they are applied. *)
Inductive redactPattern := PrivateKeyBlock | CloudKey | ForgeToken | ChatToken | WebToken | Assignment.
Definition redactPatterns : list redactPattern := [PrivateKeyBlock; CloudKey; ForgeToken; ChatToken; WebToken; Assignment].
(** [Regexp.ReplaceAllString] with the pattern's replacement, and [%q]. *)
Class TextLib := { ReplaceAllString : redactPattern -> bytes -> bytes; quote : bytes -> bytes }.

Section Sink.
Context `{TextLib} `{Crypto} `{NetURL}.

Definition RedactSensitiveText (text : bytes) : bytes :=
  match text with [] => [] | _ => fold_left (fun t p => ReplaceAllString p t) redactPatterns text end.

(** ** Engine and sinks *)

(** The parts of the engine that the sinks use. *)
Record auditEngine := mkAudit {
  ae_chain : chainEngine; ae_changeID : bytes; ae_syslog : bool; ae_url : bytes; ae_token : bytes }.

(** The flat log ([nil] when it is not configured), the ledger's file, the
    syslog lines with their severity, and the POSTs handed to goroutines:
    target, bearer and body. *)
Record sinks := mkSinks {
  k_flat : option bytes; k_chain : option bytes; k_syslog : list (bool * bytes); k_posts : list (bytes * bytes * bytes) }.

(** What the clock and the disk answer during one call: the stamps, how many
    bytes a failing flat write leaves, its sync, and the ledger's answers. *)
Record sinkEnv := mkSinkEnv { se_stamp : bytes; se_time : bytes; se_flat : option nat; se_sync : bool; se_chain : appendEnv }.

Inductive sinkErr := FlatLog | Ledger (e : chainErr).


Definition flat_line (stamp message : bytes) : bytes :=
  let message := if has_suffix [LFb] message then message else message ++ [LFb] in
  lit "AUDIT: " ++ stamp ++ lit " " ++ message.

Definition writeAuditLine (env : sinkEnv) (message : bytes) (k : sinks) : result sinkErr unit * sinks :=
  match k_flat k with
  | None => (Ok tt, k)
  | Some f =>
      let line := flat_line (se_stamp env) message in
      match se_flat env with
      | Some n => (Err FlatLog, mkSinks (Some (f ++ take n line)) (k_chain k) (k_syslog k) (k_posts k))
      | None =>
          let k := mkSinks (Some (f ++ line)) (k_chain k) (k_syslog k) (k_posts k) in
          if se_sync env then (Ok tt, k) else (Err FlatLog, k)
      end
  end.

Definition appendChain (g : auditEngine) (env : sinkEnv) (e : ChainEntry) (k : sinks) : result sinkErr unit * sinks :=
  let '(r, file) := AppendChain (ae_chain g) (se_chain env) e (k_chain k) in
  (match r with Ok _ => Ok tt | Err e => Err (Ledger e) end, mkSinks (k_flat k) file (k_syslog k) (k_posts k)).

(** The flat line, then the ledger's entry. *)
Definition record_both (g : auditEngine) (env : sinkEnv) (message : bytes) (e : ChainEntry) (k : sinks) : result sinkErr unit * sinks :=
  match writeAuditLine env message k with
  | (Err e, k) => (Err e, k)
  | (Ok _, k) => appendChain g env e k
  end.

(** A map[string]interface{} of strings and booleans, as [json.Marshal]
    writes it: by key. *)
Inductive jsonValue := PText (s : bytes) | PFlag (b : bool).
Definition json_value (v : jsonValue) : bytes := match v with PText s => json_string s | PFlag b => json_bool b end.
Fixpoint insert_key (kv : bytes * jsonValue) (l : list (bytes * jsonValue)) : list (bytes * jsonValue) :=
  match l with [] => [kv] | kv' :: l' => if bytes_leb (fst kv) (fst kv') then kv :: l else kv' :: insert_key kv l' end.
Definition json_map (l : list (bytes * jsonValue)) : bytes :=
  json_object (map (fun kv => json_string (fst kv) ++ [COLON] ++ json_value (snd kv)) (fold_right insert_key [] l)).

Definition dispatchAuditEvent (g : auditEngine) (env : sinkEnv) (payload : list (bytes * jsonValue)) (k : sinks) : sinks :=
  match ae_url g with
  | [] => k
  | url => mkSinks (k_flat k) (k_chain k) (k_syslog k)
             (k_posts k ++ [(url, ae_token g, json_map (payload ++ [(lit "time", PText (se_time env))]))])
  end.

(** The members of an entry that callers set. *)
Definition entry (type user command source : bytes) (allowed : option bool) (reason change : bytes) : ChainEntry :=
  mkEntry 0 [] [] user [] type command source allowed reason change [] [].

(** ** The records *)

Definition LogCommand (g : auditEngine) (env : sinkEnv) (source cmd : bytes) (k : sinks) : result sinkErr unit * sinks :=
  let cmd := RedactSensitiveText cmd in
  match record_both g env (lit "[" ++ source ++ lit "] " ++ cmd ++ [LFb]) (entry (lit "cmd") [] cmd source None [] (ae_changeID g)) k with
  | (Ok _, k) => (Ok tt, dispatchAuditEvent g env [(lit "type", PText (lit "command")); (lit "source", PText source); (lit "command", PText cmd)] k)
  | r => r
  end.





(** The record that [evalOnce] writes of the text of adssh -c. *)
Definition evalOnce_record (g : auditEngine) (env : sinkEnv) (src : bytes) (k : sinks) : result sinkErr unit * sinks :=
  LogCommand g env src [] k.

(** ** Opening *)

Inductive initErr := PrivateWebhook | BadWebhook | NoDirectory | NoFile.

(** [disk_ok]: whether the directory and the file open; [old] is the file's
    text.  The syslog writer is independent of both. *)
Definition InitAuditLog (getenv : bytes -> bytes) (dir_ok : bool) (old : option bytes) (url token : bytes) (g : auditEngine) (k : sinks)
    : result initErr (auditEngine * sinks) :=
  let! url := match url with
              | [] => Ok []
              | _ => match validateCallbackURLSyntax getenv url with
                     | Err (Some errPrivateHost) => Err PrivateWebhook
                     | Err _ => Err BadWebhook
                     | Ok parsed => if negb (bool_decide (l_Scheme parsed = lit "https")) || has_byte "#" url then Err BadWebhook
                                    else Ok (URL_String parsed)
                     end
              end in
  if negb dir_ok then Err NoDirectory
  else match old with
  | None => Err NoFile
  | Some f => Ok (mkAudit (ae_chain g) (ae_changeID g) (ae_syslog g) url token, mkSinks (Some f) (k_chain k) (k_syslog k) (k_posts k))
  end.

(** ** The webhook *)

Inductive resolveErr := NotResolved | PrivateAddress | BlockedAddress.

Definition auditResolveHost (getenv : bytes -> bytes) (lookup : bytes -> option (list IP)) (host : bytes) : result resolveErr (list IP) :=
  match lookup host with
  | None | Some [] => Err NotResolved
  | Some ips => match checkResolvedIPs getenv ips with
                | None => Ok ips
                | Some errPrivateHost => Err PrivateAddress
                | Some _ => Err BlockedAddress
                end
  end.

Inductive dialErr := DialDenied | Resolve (e : resolveErr).

(** The targets a connection is opened to, in the order they are tried. *)
Definition auditDialContext (getenv : bytes -> bytes) (lookup : bytes -> option (list IP)) (resolve : bytes -> list target) (addr : bytes)
    : result dialErr (list target) :=
  match SplitHostPort addr with
  | None => Err DialDenied
  | Some host =>
      if bool_decide (is_Some (ParseIP host)) then
        match callbackDialContext getenv resolve addr with None => Err DialDenied | Some l => Ok l end
      else match auditResolveHost getenv lookup host with
      | Err e => Err (Resolve e)
      | Ok ips => Ok (concat (map (fun ip => default [] (callbackDialContext getenv resolve (JoinHostPort (IP_String ip) (split_port addr)))) ips))
      end
  end.

(** The peers that [postAuditEvent] may send the event and its bearer to. *)
Definition postAuditEvent_reaches (getenv : bytes -> bytes) (lookup : bytes -> option (list IP)) (resolve : bytes -> list target) (u : URL) : list target :=
  match auditDialContext getenv lookup resolve (canonicalAddr u) with Ok l => l | Err _ => [] end.

Definition auditWarnInterval : Z := 60000000000.

(** [auditWarn]: the last warning's time, 0 for none, and what stderr got. *)
Definition auditWarn (now : Z) (line : bytes) (st : Z * list (Z * bytes)) : Z * list (Z * bytes) :=
  let '(last, out) := st in
  if negb (last =? 0) && (wraps 64 (now - last) <? auditWarnInterval) then st else (now, out ++ [(now, line)]).

(** ** What a call records *)


(** The flat log takes the line: unconfigured, or written and synced. *)
Definition flat_ok (env : sinkEnv) (k : sinks) : Prop := k_flat k = None \/ se_flat env = None /\ se_sync env = true.

(** What the durable sinks hold after a call: the old text and at most the
    line, and the ledger as [AppendChain] leaves it, or untouched. *)
Definition durable (g : auditEngine) (env : sinkEnv) (line : bytes) (e : ChainEntry) (k : sinks) (r : result sinkErr unit) (k' : sinks) : Prop :=
  (r = Ok tt <-> flat_ok env k /\ fst (AppendChain (ae_chain g) (se_chain env) e (k_chain k)) = Ok tt) /\
  (flat_ok env k -> k_flat k' = (f ← k_flat k; Some (f ++ flat_line (se_stamp env) line)) /\
     k_chain k' = snd (AppendChain (ae_chain g) (se_chain env) e (k_chain k))) /\
  (~ flat_ok env k -> r = Err FlatLog /\ k_chain k' = k_chain k /\
     exists f n, k_flat k = Some f /\ k_flat k' = Some (f ++ take n (flat_line (se_stamp env) line))) /\
  (r <> Ok tt -> k_syslog k' = k_syslog k /\ k_posts k' = k_posts k).


Lemma record_both_durable g env line e k r k' : record_both g env line e k = (r, k') -> durable g env line e k r k'.
Proof.
  unfold record_both, writeAuditLine, appendChain, durable, flat_ok. destruct k as [fl ch sy po]. cbn [k_flat k_chain k_syslog k_posts].
  destruct fl as [f|].
  - destruct (se_flat env) as [n|] eqn:En.
    + intros [= <- <-]. split_and!; cbn; [by intuition congruence|by intuition congruence| |done]. intros _. by split_and!; [..|exists f, n].
    + destruct (se_sync env) eqn:Es.
      * cbn. destruct (AppendChain _ _ e ch) as [q file] eqn:Ea. intros [= <- <-]. cbn. split_and!.
        -- destruct q as [[]|]; intuition congruence.
        -- done.
        -- intros Hn. destruct Hn. by right.
        -- done.
      * intros [= <- <-]. cbn. split_and!; [by intuition congruence|by intuition congruence| |done]. intros _. split_and!; [done|done|].
        exists f, (length (flat_line (se_stamp env) line)). by rewrite firstn_all.
  - cbn. destruct (AppendChain _ _ e ch) as [q file] eqn:Ea. intros [= <- <-]. cbn. split_and!.
    + destruct q as [[]|]; intuition congruence.
    + done.
    + intros Hn. destruct Hn. by left.
    + done.
Qed.





End Sink.

(** ** The webhook's peers *)

Section Webhook.
Context `{NetURL}.

Lemma checked_ips getenv ips : forall p, check_addrs getenv p ips = None ->
  Forall (fun ip => callbackIPBlocked getenv ip = false /\ IsLoopback ip = false) ips.
Proof.
  induction ips as [|ip ips IH]; intros p; cbn [check_addrs]; [by constructor|].
  destruct (callbackIPNeedsPrivateOverride getenv ip) eqn:En.
  - intros Hc. exfalso. revert Hc. clear. induction ips as [|x l IH]; cbn [check_addrs]; [done|].
    destruct (callbackIPNeedsPrivateOverride getenv x); [done|]. by destruct (_ || _).
  - destruct (callbackIPBlocked getenv ip || IsLoopback ip) eqn:Eb; [done|]. intros Hc. bsimp. constructor; [done|by eapply IH].
Qed.

Lemma literal_targets resolve ip : ip_wf ip -> Dialer_targets resolve (IP_String ip) = [mkTarget (spoken_ip ip) []].
Proof.
  intros Hw. destruct (IP_String_unbracketed ip Hw) as (Hp & _). destruct (IP_String_16 ip Hw) as (ip' & E & _). unfold Dialer_targets, spoken_ip. by rewrite Hp, E.
Qed.

Lemma canonical_port u : exists host p, canonicalAddr u = JoinHostPort host p /\ forallb decimal p = true /\ split_port (canonicalAddr u) = p.
Proof.
  unfold canonicalAddr. destruct (URL_Port u) as [|c p] eqn:Ep.
  - destruct (bool_decide _); (do 2 eexists; split; [reflexivity|]; split; [|by apply split_port_join]); done.
  - pose proof (URL_Port_decimal u) as Hd. rewrite Ep in Hd. do 2 eexists. split; [reflexivity|]. split; [done|by apply split_port_join].
Qed.

(** C29: The audit POST and its bearer reach only an address that the dialed
    host literally is, as the dial check admits it, or one of the addresses of
    a single DNS answer for it all of which are public or allowed. The dialed
    host is the host of the URL as the transport maps it by IDNA, so a name of
    full-width digits counts as the literal it maps to; no second DNS answer
    is used, and a host that is a name when dialed reaches no loopback
    address. *)
Theorem audit_post_confined getenv lookup resolve u t :
  (forall h ips, lookup h = Some ips -> Forall ip_wf ips) -> (forall h t, In t (resolve h) -> ip_wf (t_ip t)) ->
  In t (postAuditEvent_reaches getenv lookup resolve u) ->
  t_zone t = [] /\ in_nets never_nets (t_ip t) = false /\
  (in_nets private_nets (t_ip t) = true -> callbackAllowPrivate getenv = true) /\
  exists h, dialed_host u h /\
    (ParseIP h = Some (t_ip t) /\ (in_nets loopback_nets (t_ip t) = true -> exactLoopbackHost h = true) \/
     ParseIP h = None /\ in_nets loopback_nets (t_ip t) = false /\
       exists ips ip, lookup h = Some ips /\ In ip ips /\ t_ip t = spoken_ip ip /\
         Forall (fun ip => callbackIPBlocked getenv ip = false /\ IsLoopback ip = false) ips).
Proof.
  intros Hlk Hr. unfold postAuditEvent_reaches, auditDialContext, dialed_host.
  destruct (SplitHostPort (canonicalAddr u)) as [h|] eqn:Eh; [|done]. destruct (ParseIP h) as [lit_ip|] eqn:Ep.
  - rewrite bool_decide_true by done. intros Hin. assert (Hc : In t (client_reaches getenv resolve u)).
    { unfold client_reaches. by destruct (callbackDialContext _ _ _). }
    apply client_reaches_iff in Hc as (h' & Hd & Ht & Hz & Hn & Hp & Hl); [|done]. unfold dialed_host in Hd. rewrite Eh in Hd. injection Hd as <-.
    unfold Dialer_targets in Ht. rewrite Ep in Ht. destruct Ht as [<-|[]]. cbn [t_ip] in *. split_and!; try done. exists h. split; [done|]. by left.
  - rewrite bool_decide_false by (by intros [? ?]). unfold auditResolveHost. destruct (lookup h) as [[|ip0 l]|] eqn:El; [done| |done].
    destruct (checkResolvedIPs getenv (ip0 :: l)) as [[]|] eqn:Ec; [done..|]. intros Hin. apply in_concat in Hin as (ts & Hts & Hin).
    apply in_map_iff in Hts as (ip & <- & Hip). pose proof (checked_ips _ _ _ Ec) as Hck. pose proof (Hlk _ _ El) as Hwf.
    assert (Hw : ip_wf ip) by (rewrite Forall_forall in Hwf; apply Hwf; by apply list_elem_of_In).
    destruct (canonical_port u) as (host & p & _ & Hp & Hsp). rewrite Hsp in Hin.
    unfold callbackDialContext in Hin. destruct (IP_String_unbracketed ip Hw) as (_ & Hb1 & Hb2 & _). rewrite split_join, split_port_join in Hin by done.
    cbn [default] in Hin. apply filter_In in Hin as [Hin Hctl]. rewrite literal_targets in Hin by done. destruct Hin as [<-|[]].
    destruct (IP_String_16 ip Hw) as (ip' & E16 & Hw' & Hn & _). unfold spoken_ip in *. rewrite E16 in *. cbn [default] in *.
    apply dialControl_iff in Hctl as (_ & Hnv & Hpr & _); [|done|done]. cbn [t_ip t_zone] in *. split_and!; try done.
    exists h. split; [done|]. right. split; [done|]. rewrite Forall_forall in Hck. split.
    + rewrite (in_nets_16 _ ip ip') by done. rewrite <- loopback_nets_ok by done. apply (Hck ip). by apply list_elem_of_In.
    + exists (ip0 :: l), ip. rewrite E16. split_and!; try done. by apply Forall_forall.
Qed.
End Webhook.

(** ** Lines that hold several records *)

Section Flat.
Context `{TextLib} `{Crypto} `{NetURL}.

(** A command whose text goes on after a newline writes what two records
    would have written to the flat log. *)
Theorem flat_line_forged g env k src cmd src' cmd' f :
  k_flat k = Some f -> se_flat env = None -> se_sync env = true ->
  let forged := cmd ++ [LFb] ++ lit "AUDIT: " ++ se_stamp env ++ lit " [" ++ src' ++ lit "] " ++ cmd' in
  RedactSensitiveText forged = forged -> RedactSensitiveText cmd = cmd -> RedactSensitiveText cmd' = cmd' ->
  fst (LogCommand g env src cmd k) = Ok tt ->
  k_flat (snd (LogCommand g env src forged k)) = k_flat (snd (LogCommand g env src' cmd' (snd (LogCommand g env src cmd k)))).
Proof.
  intros Hf Hw Hs forged R1 R2 R3 Hok.
  assert (Hc : forall s c k, k_flat k <> None -> k_flat (snd (LogCommand g env s c k)) =
    (f ← k_flat k; Some (f ++ flat_line (se_stamp env) (lit "[" ++ s ++ lit "] " ++ RedactSensitiveText c ++ [LFb])))).
  { intros s c k0 Hk. destruct (record_both g env (lit "[" ++ s ++ lit "] " ++ RedactSensitiveText c ++ [LFb])
      (entry (lit "cmd") [] (RedactSensitiveText c) s None [] (ae_changeID g)) k0) as [r k1] eqn:Er.
    pose proof (record_both_durable _ _ _ _ _ _ _ Er) as (_ & D2 & _). destruct (D2 ltac:(by right)) as [Hflat _].
    unfold LogCommand. rewrite Er. destruct r; cbn [snd]; [|done]. unfold dispatchAuditEvent. by destruct (ae_url g). }
  assert (Hl : forall s c, flat_line (se_stamp env) (lit "[" ++ s ++ lit "] " ++ c ++ [LFb]) =
    lit "AUDIT: " ++ se_stamp env ++ lit " [" ++ s ++ lit "] " ++ c ++ [LFb]).
  { intros s c. unfold flat_line. replace (has_suffix [LFb] _) with true; [done|]. symmetry. apply has_suffix_spec.
    exists (lit "[" ++ s ++ lit "] " ++ c). by rewrite <- !app_assoc. }
  rewrite (Hc src' cmd'); rewrite (Hc src cmd k); rewrite ?Hf; try done. rewrite (Hc src forged k) by (by rewrite Hf).
  rewrite Hf, R1, R2, R3, !Hl. cbn. f_equal. unfold forged. by rewrite <- !app_assoc.
Qed.

(** The record of adssh -c is not redacted: the text stands where the source
    of a record stands. *)
Theorem eval_record_unredacted g env k src f :
  k_flat k = Some f -> se_flat env = None -> se_sync env = true ->
  k_flat (snd (evalOnce_record g env src k)) = Some (f ++ lit "AUDIT: " ++ se_stamp env ++ lit " [" ++ src ++ lit "] " ++ [LFb]).
Proof.
  intros Hf Hw Hs. unfold evalOnce_record, LogCommand. cbn [RedactSensitiveText].
  destruct (record_both _ _ _ _ k) as [r k1] eqn:Er. pose proof (record_both_durable _ _ _ _ _ _ _ Er) as (_ & D2 & _).
  destruct (D2 ltac:(by right)) as [Hflat _]. rewrite Hf in Hflat. cbn in Hflat.
  assert (Hl : has_suffix [LFb] (lit "[" ++ src ++ lit "] " ++ [LFb]) = true).
  { apply has_suffix_spec. exists (lit "[" ++ src ++ lit "] "). by rewrite <- !app_assoc. }
  unfold flat_line in Hflat. rewrite Hl in Hflat. destruct r; cbn [snd]; [|by rewrite Hflat]. unfold dispatchAuditEvent. destruct (ae_url g); by rewrite Hflat.
Qed.
End Flat.

(** ** Warnings *)

Fixpoint spaced (last : Z) (out : list (Z * bytes)) : Prop :=
  match out with [] => True | (t, _) :: l => (last = 0 \/ last + auditWarnInterval <= t) /\ spaced t l end.
Definition warn_run (calls : list (Z * bytes)) (st : Z * list (Z * bytes)) : Z * list (Z * bytes) :=
  fold_left (fun st c => auditWarn (fst c) (snd c) st) calls st.
Lemma spaced_snoc out : forall last t line, spaced last out -> (let l := match rev out with [] => last | (x, _) :: _ => x end in l = 0 \/ l + auditWarnInterval <= t) ->
  spaced last (out ++ [(t, line)]).
Proof.
  induction out as [|[x y] out IH]; intros last t line; cbn [app spaced rev]; [auto|]. intros [H1 H2] H3. split; [done|].
  apply IH; [done|]. cbn in H3 |- *. destruct (rev out) as [|[a b] r]; done.
Qed.

(** Whatever the clock reads, two warnings in a row are an interval apart. *)
Theorem warnings_spaced calls : Forall (fun c => 0 < fst c < 2 ^ 63) calls -> spaced 0 (snd (warn_run calls (0, []))).
Proof.
  unfold warn_run.
  assert (Hinv : forall calls last out, Forall (fun c => 0 < fst c < 2 ^ 63) calls -> 0 <= last < 2 ^ 63 -> spaced 0 out ->
    last = match rev out with [] => 0 | (x, _) :: _ => x end ->
    spaced 0 (snd (fold_left (fun st c => auditWarn (fst c) (snd c) st) calls (last, out)))); [|intros Hc; by apply Hinv].
  clear calls. intros calls. induction calls as [|[now line] calls IH]; intros last out Hc Hl Hs Hlast; [done|].
  apply Forall_cons in Hc as [Hn Hc]. cbn [fst] in Hn. cbn [fold_left]. unfold auditWarn at 2. cbn [fst snd].
  destruct (negb (last =? 0) && (wraps 64 (now - last) <? auditWarnInterval)) eqn:E; [by apply IH|].
  rewrite wraps_small in E by lia. apply IH; [done|lia| |by rewrite rev_app_distr].
  apply spaced_snoc; [done|]. cbv zeta. rewrite <- Hlast. apply andb_false_iff in E as [E|E]; bsimp; [left|right]; lia.
Qed.

(** ** On concrete inputs *)

(** A host of full-width digits and ideographic stops, in UTF-8, and the UTS 46
    mapping of those characters. *)
Definition wide_digit (d : Z) : bytes := map byte_of [239; 188; 144 + d].
Definition wide_host : bytes :=
  concat (map wide_digit [1; 2; 7]) ++ lit "." ++ wide_digit 0 ++ lit "." ++ wide_digit 0 ++ lit "." ++ wide_digit 1.
Fixpoint wide_map (s : bytes) : bytes :=
  match s with
  | a :: ((b :: ((c :: s3) as s2)) as s1) =>
      if (byte_val a =? 239) && (byte_val b =? 188) && (144 <=? byte_val c) && (byte_val c <=? 153)
      then byte_of (byte_val c - 96) :: wide_map s3 else a :: wide_map s1
  | _ => s
  end.
Definition sink_url (raw : bytes) : option URL :=
  if bool_decide (raw = lit "https://" ++ wide_host ++ lit "/") then Some (mkURL3 (lit "https") [] false wide_host (lit "/") [] false [])
  else if bool_decide (raw = lit "https://siem.example/") then Some (mkURL3 (lit "https") [] false (lit "siem.example") (lit "/") [] false [])
  else None.
#[local] Instance sink_net : NetURL :=
  {| Parse := sink_url; URL_String u := lit "https://" ++ l_Host u ++ lit "/"; unicode_lower s := s; idna_ToASCII s := Some (wide_map s) |}.
#[local] Instance plain_text : TextLib := {| ReplaceAllString _ s := s; quote s := s |}.
#[local] Instance sink_crypto : Crypto := demoCrypto [].

Definition sink_engine : auditEngine := mkAudit (mkEngine true (Some (lit "k")) (lit "s")) [] true (lit "https://siem.example/") (lit "tok").
Definition sink_env : sinkEnv := mkSinkEnv (lit "2026/01/02 03:04:05") (lit "t") None true demoEnv.
Definition no_sinks : sinks := mkSinks (Some []) (Some []) [] [].

(** The webhook is accepted although its host becomes a literal loopback
    address, and the POST with its bearer reaches it. *)
Theorem wide_host_reaches_loopback :
  exists g u, InitAuditLog (fun _ => []) true (Some []) (lit "https://" ++ wide_host ++ lit "/") (lit "tok") sink_engine no_sinks = Ok (g, no_sinks) /\
  Parse (ae_url g) = Some u /\ exactLoopbackHost (URL_Hostname u) = false /\ ParseIP (callbackHost u) = None /\
  map t_ip (postAuditEvent_reaches (fun _ => []) (fun _ => None) (fun _ => []) u) = [v4 127 0 0 1].
Proof. do 2 eexists. split; [vm_compute; reflexivity|]. split; [vm_compute; reflexivity|]. vm_compute. by split_and!. Qed.

(** A command with a newline leaves the text of two records. *)
Example forged_record :
  k_flat (snd (LogCommand sink_engine sink_env (lit "BASH")
    (lit "id" ++ [LFb] ++ lit "AUDIT: 2026/01/02 03:04:05 [BASH] logout") no_sinks)) =
  Some (lit "AUDIT: 2026/01/02 03:04:05 [BASH] id" ++ [LFb] ++ lit "AUDIT: 2026/01/02 03:04:05 [BASH] logout" ++ [LFb]).
Proof. vm_compute. reflexivity. Qed.

Definition siem : URL := mkURL3 (lit "https") [] false (lit "siem.example") (lit "/") [] false [].
Lemma audit_post_confined_witness :
  postAuditEvent_reaches (fun _ => []) (fun _ => Some [v4 93 184 216 34]) rebound siem = [mkTarget (v4 93 184 216 34) []] /\
  in_nets never_nets (v4 93 184 216 34) = false.
Proof.
  split; [by vm_compute|].
  apply (audit_post_confined (fun _ => []) (fun _ => Some [v4 93 184 216 34]) rebound siem (mkTarget (v4 93 184 216 34) [])).
  - intros h ips [= <-]. constructor; [|constructor]. split; [by right|]. repeat constructor; unfold octet; lia.
  - apply rebound_wf.
  - vm_compute. by left.
Defined.
Lemma flat_line_forged_witness :
  k_flat (snd (LogCommand sink_engine sink_env (lit "BASH") (lit "id" ++ [LFb] ++ lit "AUDIT: 2026/01/02 03:04:05 [BASH] logout") no_sinks)) =
  k_flat (snd (LogCommand sink_engine sink_env (lit "BASH") (lit "logout") (snd (LogCommand sink_engine sink_env (lit "BASH") (lit "id") no_sinks)))).
Proof.
  apply (flat_line_forged sink_engine sink_env no_sinks (lit "BASH") (lit "id") (lit "BASH") (lit "logout") []); reflexivity.
Defined.
