(* ===== verification/Oidc.v ===== *)
(** * OIDC identities

    identity oidc import of security/vbin_identity_ee.go: the operator's trust
    anchors, the fetch of the key set over [CallbackUrl], the checks of a token,
    and the change of the session's identity; with the SSH CA's certificates.
    The JSON decoders, RSA, SHA-256 and the SSH library are parameters. *)

From S2P Require Import Prelude GoBytes GoTime NetIP MonitorProto Session Policy Lease CallbackUrl.
From Stdlib Require Import SpecFloat.
#[local] Open Scope Z_scope.
#[local] Arguments lit : simpl never.

Definition OIDCProviderAdmin : bytes := lit "admin".
Definition OIDCProviderLogin : bytes := lit "login".

(** ** Tokens *)

#[local] Set Warnings "-register-all".
(** A claim's value; numbers are float64. *)
Inductive claimValue :=
| CNull | CBool (b : bool) | CNumber (f : spec_float) | CString (s : bytes) | CArray (l : list claimValue) | CObject.
Definition claimMap : Type := gmap bytes claimValue.

Record oidcJWTHeader := mkHeader { h_alg : bytes; h_kid : bytes; h_typ : bytes }.
Record oidcJWK := mkJWK { j_kty : bytes; j_kid : bytes; j_alg : bytes; j_use : bytes; j_n : bytes; j_e : bytes }.

(** json.Unmarshal of the three documents; PKCS #1 v1.5 over SHA-256 of a
    message; and what a conversion to int64 gives for a float that has no
    int64 value, which Go leaves to the machine. *)
Class OIDCLib := {
  decode_header : bytes -> option oidcJWTHeader;
  decode_claims : bytes -> option claimMap;
  decode_jwks : bytes -> option (list oidcJWK);
  rsa_verify : Z -> Z -> bytes -> bytes -> bool;
  int64_out : spec_float -> Z }.

Inductive oidcErr :=
| NeedsValue (flag : bytes) | UnknownOption (arg : bytes) | TokenFile | TokenRequired
| NotJWT | BadProvider | NotConfigured | SameAudiences
| BadEncoding (part : nat) | BadDocument (part : nat) | BadAlgorithm (alg : bytes)
| FetchURL | FetchPrivate (host : bytes) | FetchRedirect | FetchRequest | FetchStatus (status : Z) | FetchTooLarge | FetchDocument
| NoKey | BadModulus | BadExponent | EmptyExponent | BadSignature
| IssuerMismatch | AudienceMismatch | NoExp | Expired | LifetimeExceeded | NotYetValid | BadNbf | BadIat
| NoUserClaim | NoSession | AuditWrite.

(** ** Claims *)

Definition stringClaim (claims : claimMap) (key : bytes) : bytes := match claims !! key with Some (CString s) => s | _ => [] end.
Definition numericClaim (claims : claimMap) (key : bytes) : option spec_float := match claims !! key with Some (CNumber f) => Some f | _ => None end.
Definition stringSliceClaim (claims : claimMap) (key : bytes) : list bytes :=
  match claims !! key with
  | Some (CArray l) => omap (fun v => match v with CString s => if bool_decide (s = []) then None else Some s | _ => None end) l
  | Some (CString s) => if bool_decide (s = []) then [] else split_byte "," s
  | _ => []
  end.
Definition claimContains (value : option claimValue) (needle : bytes) : bool :=
  match value with
  | Some (CString v) => bool_decide (v = needle)
  | Some (CArray l) => existsb (fun v => match v with CString s => bool_decide (s = needle) | _ => false end) l
  | _ => false
  end.

(** ** Times *)

Definition oidcMaxLifetime : Z := 24 * Hour.
Definition oidcClockSkew : Z := Minute.

(** A float64 rounded towards zero. *)
Definition ftrunc (f : spec_float) : option Z :=
  match f with
  | S754_zero _ => Some 0
  | S754_finite s m e =>
      let z := if e <? 0 then Z.pos m / 2 ^ (- e) else Z.pos m * 2 ^ e in
      Some (if s then - z else z)
  | _ => None
  end.

Section Oidc.
Context `{OIDCLib} `{NetURL} `{Sha256}.

(** [int64(f)] and [time.Unix(sec, 0)], whose second count wraps. *)
Definition int64_of (f : spec_float) : Z :=
  match ftrunc f with
  | Some z => if (- 2 ^ 63 <=? z) && (z <? 2 ^ 63) then z else wraps 64 (int64_out f)
  | None => wraps 64 (int64_out f)
  end.
Definition time_Unix (sec : Z) : Z := wraps 64 (sec + 62135596800) * Second.

Definition checkOIDCTimes (claims : claimMap) (now : Z) : option oidcErr :=
  match numericClaim claims (lit "exp") with
  | None => Some NoExp
  | Some exp =>
      let expAt := time_Unix (int64_of exp) in
      if negb (now <? expAt) then Some Expired
      else if oidcMaxLifetime <? time_sub expAt now then Some LifetimeExceeded
      else
        let nbf := match numericClaim claims (lit "nbf") with
                   | Some nbf => if now + oidcClockSkew <? time_Unix (int64_of nbf) then Some NotYetValid else None
                   | None => if bool_decide (is_Some (claims !! lit "nbf")) then Some BadNbf else None
                   end in
        match nbf with
        | Some e => Some e
        | None =>
            match numericClaim claims (lit "iat") with
            | Some iat =>
                let iatAt := time_Unix (int64_of iat) in
                if now + oidcClockSkew <? iatAt then Some NotYetValid
                else if oidcMaxLifetime <? time_sub expAt iatAt then Some LifetimeExceeded else None
            | None => if bool_decide (is_Some (claims !! lit "iat")) then Some BadIat else None
            end
        end
  end.

(** ** Trust anchors *)

Record oidcProviderConfig := mkProvider { pr_Issuer : bytes; pr_JWKSURL : bytes; pr_Audience : bytes; pr_OtherAudience : bytes }.

Definition oidcProviderSettings (getenv : bytes -> bytes) (provider : bytes) : result oidcErr oidcProviderConfig :=
  let env s := trim_space (getenv (lit s)) in
  let loginAud := env "ADSSH_OIDC_LOGIN_AUDIENCE"%string in
  let adminAud := env "ADSSH_OIDC_ADMIN_AUDIENCE"%string in
  let! cfg :=
    if bool_decide (provider = []) || bool_decide (provider = OIDCProviderLogin)
    then Ok (mkProvider (env "ADSSH_OIDC_ISSUER"%string) (env "ADSSH_OIDC_JWKS_URL"%string) loginAud adminAud)
    else if bool_decide (provider = OIDCProviderAdmin)
    then Ok (mkProvider (env "ADSSH_OIDC_ADMIN_ISSUER"%string) (env "ADSSH_OIDC_ADMIN_JWKS_URL"%string) adminAud loginAud)
    else Err BadProvider in
  if bool_decide (pr_Issuer cfg = []) || bool_decide (pr_JWKSURL cfg = []) || bool_decide (pr_Audience cfg = []) then Err NotConfigured
  else if bool_decide (pr_Audience cfg = pr_OtherAudience cfg) then Err SameAudiences
  else Ok cfg.

(** ** The key set *)

(** What a run meets: the environment, DNS for the check and for the dial,
    which target connects, what it serves for a URL, and the clock. *)
Record netEnv := mkNet3 {
  ne_getenv : bytes -> bytes; ne_lookup : bytes -> option (list IP); ne_resolve : bytes -> list target; ne_first : nat;
  ne_serve : target -> URL -> httpAnswer; ne_now : Z; ne_read : bytes -> option bytes }.

Definition oidcResponseLimit : Z := Z.shiftl 1 20.
#[local] Arguments oidcResponseLimit : simpl never.

Definition fetchOIDCJSON (e : netEnv) (rawURL : bytes) : result oidcErr (list oidcJWK) :=
  match validateCallbackURL (ne_getenv e) (ne_lookup e) rawURL with
  | Err (Some errPrivateHost) => Err (FetchPrivate (match Parse rawURL with Some p => URL_Hostname p | None => [] end))
  | Err _ => Err FetchURL
  | Ok parsed =>
      if negb (bool_decide (l_Scheme parsed = lit "https")) then Err FetchURL
      else match client_Do (ne_getenv e) (ne_resolve e) (ne_first e) (fun t => ne_serve e t parsed) parsed with
      | Err errRedirectDenied => Err FetchRedirect
      | Err RequestFailed => Err FetchRequest
      | Ok (status, body) =>
          if (status <? 200) || (300 <=? status) then Err (FetchStatus status)
          else if oidcResponseLimit <? zlen body then Err FetchTooLarge
          else match decode_jwks body with None => Err FetchDocument | Some keys => Ok keys end
      end
  end.

(** The modulus and the exponent; the exponent is an int. *)
Definition be_int (l : bytes) : Z := fold_left (fun a b => a * 256 + byte_val b) l 0.
Definition be_int64 (l : bytes) : Z := fold_left (fun a b => wraps 64 (wraps 64 (a * 256) + byte_val b)) l 0.
Definition jwkRSAPublicKey (key : oidcJWK) : result oidcErr (Z * Z) :=
  match b64_decode UrlAlphabet false (j_n key), b64_decode UrlAlphabet false (j_e key) with
  | None, _ => Err BadModulus
  | _, None => Err BadExponent
  | Some n, Some e => if be_int64 e =? 0 then Err EmptyExponent else Ok (be_int n, be_int64 e)
  end.

Definition usable_key (keyID algorithm : bytes) (key : oidcJWK) : bool :=
  bool_decide (j_kty key = lit "RSA")
  && (bool_decide (keyID = []) || bool_decide (j_kid key = keyID))
  && (bool_decide (j_alg key = []) || bool_decide (j_alg key = algorithm))
  && (bool_decide (j_use key = []) || bool_decide (j_use key = lit "sig")).
Fixpoint selectOIDCRSAKey (jwks : list oidcJWK) (keyID algorithm : bytes) : result oidcErr (Z * Z) :=
  match jwks with
  | [] => Err NoKey
  | key :: rest => if usable_key keyID algorithm key then jwkRSAPublicKey key else selectOIDCRSAKey rest keyID algorithm
  end.

(** ** Verification *)

Definition verifyOIDCTokenSignature (e : netEnv) (p0 p1 p2 jwksURL : bytes) : result oidcErr unit :=
  match b64_decode UrlAlphabet false p0 with
  | None => Err (BadEncoding 0)
  | Some data =>
      match decode_header data with
      | None => Err (BadDocument 0)
      | Some header =>
          if negb (bool_decide (h_alg header = lit "RS256")) then Err (BadAlgorithm (h_alg header))
          else
            let! jwks := fetchOIDCJSON e jwksURL in
            let! key := selectOIDCRSAKey jwks (h_kid header) (h_alg header) in
            match b64_decode UrlAlphabet false p2 with
            | None => Err (BadEncoding 2)
            | Some signature =>
                if rsa_verify (fst key) (snd key) (p0 ++ lit "." ++ p1) signature then Ok tt else Err BadSignature
            end
      end
  end.

Record oidcImportOptions := mkImport { io_Token : bytes; io_Provider : bytes; io_UserClaim : bytes; io_GroupClaim : bytes }.

Definition parseOIDCIdentity (e : netEnv) (opts : oidcImportOptions) : result oidcErr (claimMap * bytes * list bytes) :=
  match split_byte "." (io_Token opts) with
  | [p0; p1; p2] =>
      let! provider := oidcProviderSettings (ne_getenv e) (io_Provider opts) in
      let! _ := verifyOIDCTokenSignature e p0 p1 p2 (pr_JWKSURL provider) in
      match b64_decode UrlAlphabet false p1 with
      | None => Err (BadEncoding 1)
      | Some payload =>
          match decode_claims payload with
          | None => Err (BadDocument 1)
          | Some claims =>
              let iss := stringClaim claims (lit "iss") in
              if bool_decide (iss = []) || negb (bool_decide (iss = pr_Issuer provider)) then Err IssuerMismatch
              else if negb (claimContains (claims !! lit "aud") (pr_Audience provider))
                      || (negb (bool_decide (pr_OtherAudience provider = [])) && claimContains (claims !! lit "aud") (pr_OtherAudience provider))
              then Err AudienceMismatch
              else match checkOIDCTimes claims (ne_now e) with
              | Some err => Err err
              | None =>
                  let user := match stringClaim claims (io_UserClaim opts) with [] => stringClaim claims (lit "sub") | u => u end in
                  if bool_decide (user = []) then Err NoUserClaim
                  else Ok (claims, user, stringSliceClaim claims (io_GroupClaim opts))
              end
          end
      end
  | _ => Err NotJWT
  end.
End Oidc.

(** ** The import *)

(** The records of the identity commands. *)
Inductive identityEvent :=
| EImport (sid user issuer provider fingerprint : bytes) (principals eligible : list bytes)
| EDeviceLogin (user fingerprint : bytes)
| EElevate (sid user role : bytes) (ttl : Z) (reason : bytes) (expires : Z)
| EElevateDrop (sid user role reason : bytes)
| ECAInit (path : bytes)
| ECertIssue (out : bytes) (principals : list bytes) (ttl : Z).

(** The session table, the ledger's new records, and the files, with their
    modes. *)
Record identityState := mkIdentity { is_reg : registry; is_log : list identityEvent; is_files : gmap bytes (bytes * Z) }.
Definition with_session (sid : bytes) (s : Session) (st : identityState) : identityState :=
  mkIdentity (mkReg (<[sid := s]> (globalSessions (is_reg st))) (unregisterHooks (is_reg st)) (unregisterHookSeq (is_reg st))) (is_log st) (is_files st).
(** An audit write succeeds or fails. *)
Definition log_identity (fails : identityEvent -> bool) (ev : identityEvent) (st : identityState) : bool * identityState :=
  if fails ev then (false, st) else (true, mkIdentity (is_reg st) (is_log st ++ [ev]) (is_files st)).

(** Options that take a value, in any order; the last one wins. *)
Fixpoint parse_import (e : netEnv) (args : list bytes) (opts : oidcImportOptions) : result oidcErr oidcImportOptions :=
  match args with
  | [] => Ok opts
  | flag :: rest =>
      if negb (is_one_of flag ["--token"; "--token-file"; "--env"; "--provider"; "--user-claim"; "--group-claim"]%string)
      then Err (UnknownOption flag)
      else match rest with
      | [] => Err (NeedsValue flag)
      | v :: rest =>
          let '(mkImport token provider user group) := opts in
          if bool_decide (flag = lit "--token") then parse_import e rest (mkImport v provider user group)
          else if bool_decide (flag = lit "--token-file") then
            match ne_read e v with None => Err TokenFile | Some data => parse_import e rest (mkImport (trim_space data) provider user group) end
          else if bool_decide (flag = lit "--env") then parse_import e rest (mkImport (ne_getenv e v) provider user group)
          else if bool_decide (flag = lit "--provider") then parse_import e rest (mkImport token v user group)
          else if bool_decide (flag = lit "--user-claim") then parse_import e rest (mkImport token provider v group)
          else parse_import e rest (mkImport token provider user v)
      end
  end.

Section Importing.
Context `{OIDCLib} `{NetURL} `{Sha256}.

(** The identity that a verified token gives a session. *)
Definition imported (now : Z) (provider user : bytes) (principals eligible : list bytes) (s : Session) : Session :=
  let s := SetIdentity now user principals s in
  let s := if bool_decide (provider = OIDCProviderAdmin) then SetOIDC now OIDCProviderAdmin eligible s
           else if bool_decide (provider = OIDCProviderLogin) then SetOIDC now OIDCProviderLogin [] s
           else SetOIDC now [] [] s in
  SetIdentitySource IdentitySourceOIDCVerified s.

Definition import_opts (e : netEnv) (fails : identityEvent -> bool) (sid : bytes) (opts : oidcImportOptions) (st : identityState)
    : result oidcErr (bytes * list bytes * list bytes) * identityState :=
  if bool_decide (io_Token opts = []) then (Err TokenRequired, st)
  else match parseOIDCIdentity e opts with
  | Err err => (Err err, st)
  | Ok (claims, user, groups) =>
      match GetSession sid (is_reg st) with
      | None => (Err NoSession, st)
      | Some session =>
          let principals := FilterUnprivileged groups in
          let eligible := if bool_decide (io_Provider opts = OIDCProviderAdmin) then PrivilegedEligible groups else [] in
          let ev := EImport (s_ID session) user (stringClaim claims (lit "iss")) (io_Provider opts) (sha256_hex (io_Token opts)) principals eligible in
          match log_identity fails ev st with
          | (false, st) => (Err AuditWrite, st)
          | (true, st) => (Ok (user, principals, eligible), with_session sid (imported (ne_now e) (io_Provider opts) user principals eligible session) st)
          end
      end
  end.

Definition identityOIDCImport (e : netEnv) (fails : identityEvent -> bool) (sid : bytes) (args : list bytes) (st : identityState)
    : result oidcErr (bytes * list bytes * list bytes) * identityState :=
  match parse_import e args (mkImport [] [] (lit "email") (lit "groups")) with
  | Err err => (Err err, st)
  | Ok opts => import_opts e fails sid opts st
  end.
End Importing.

(** ** The SSH CA *)

Record userCert := mkCert {
  uc_Key : bytes; uc_Serial : Z; uc_KeyId : bytes; uc_Principals : list bytes; uc_ValidAfter : Z; uc_ValidBefore : Z;
  uc_Extensions : list bytes; uc_CA : bytes }.
(** Parsing of a private and of a public key, a generated key pair, the
    certificate's signature and the line of an authorized_keys file. *)
Class CALib := {
  ParsePrivateKey : bytes -> option bytes; ParseAuthorizedKey : bytes -> option bytes;
  SignCert : userCert -> bool; MarshalAuthorizedKey : userCert -> bytes }.

Inductive caErr :=
| CAUsage | CAUnknown (arg : bytes) | CANeedsValue (flag : bytes) | CADuration | CARequired | CAKeyFile | CAKey | CAPubFile | CAPub | CARandom | CASign
| CAAudit | CAWrite | CAGenerate.

Record sshIssueOptions := mkIssue { so_CA : bytes; so_Pub : bytes; so_Out : bytes; so_Principals : list bytes; so_TTL : Z }.
Fixpoint parse_issue (args : list bytes) (o : sshIssueOptions) : result caErr sshIssueOptions :=
  match args with
  | [] => Ok o
  | flag :: rest =>
      if negb (is_one_of flag ["--ca"; "--pub"; "--principal"; "--for"; "--out"]%string) then Err (CAUnknown flag)
      else match rest with
      | [] => Err (CANeedsValue flag)
      | v :: rest =>
          let '(mkIssue ca pub out ps ttl) := o in
          if bool_decide (flag = lit "--ca") then parse_issue rest (mkIssue v pub out ps ttl)
          else if bool_decide (flag = lit "--pub") then parse_issue rest (mkIssue ca v out ps ttl)
          else if bool_decide (flag = lit "--principal") then parse_issue rest (mkIssue ca pub out (ps ++ [v]) ttl)
          else if bool_decide (flag = lit "--for") then
            match ParseDuration v with
            | Some d => if (d <=? 0) || (24 * Hour <? d) then Err CADuration else parse_issue rest (mkIssue ca pub out ps d)
            | None => Err CADuration
            end
          else parse_issue rest (mkIssue ca pub v ps ttl)
      end
  end.

Section CA.
Context `{CALib}.

(** [serial]: eight random bytes, if there are any. *)
Definition issueSSHCertificate (read : bytes -> option bytes) (serial : option Z) (now : Z) (o : sshIssueOptions) : result caErr userCert :=
  if bool_decide (so_CA o = []) || bool_decide (so_Pub o = []) || bool_decide (so_Out o = []) || bool_decide (so_Principals o = []) then Err CARequired
  else match read (so_CA o) with
  | None => Err CAKeyFile
  | Some caData =>
      match ParsePrivateKey caData with
      | None => Err CAKey
      | Some ca =>
          match read (so_Pub o) with
          | None => Err CAPubFile
          | Some pubData =>
              match ParseAuthorizedKey pubData with
              | None => Err CAPub
              | Some pub =>
                  match serial with
                  | None => Err CARandom
                  | Some n =>
                      let cert := mkCert pub n (lit "adssh-" ++ dec n) (so_Principals o) (wrapu 64 (Unix (now - Minute))) (wrapu 64 (Unix (now + so_TTL o)))
                                    [lit "permit-pty"] ca in
                      if SignCert cert then Ok cert else Err CASign
                  end
              end
          end
      end
  end.

(** [write_ok]: whether a file is written. *)
Definition identitySSHCAIssue (read : bytes -> option bytes) (serial : option Z) (now : Z) (fails : identityEvent -> bool) (write_ok : bytes -> bool)
    (args : list bytes) (st : identityState) : result caErr userCert * identityState :=
  match parse_issue args (mkIssue [] [] [] [] (15 * Minute)) with
  | Err err => (Err err, st)
  | Ok o =>
      match issueSSHCertificate read serial now o with
      | Err err => (Err err, st)
      | Ok cert =>
          match log_identity fails (ECertIssue (so_Out o) (so_Principals o) (so_TTL o)) st with
          | (false, st) => (Err CAAudit, st)
          | (true, st) =>
              if write_ok (so_Out o) then (Ok cert, mkIdentity (is_reg st) (is_log st) (<[so_Out o := (MarshalAuthorizedKey cert, 420)]> (is_files st)))
              else (Err CAWrite, st)
          end
      end
  end.

(** The last --out; [key]: the generated pair as it is written. *)
Fixpoint parse_init (args : list bytes) (out : bytes) : result caErr bytes :=
  match args with
  | [] => Ok out
  | flag :: rest =>
      if negb (bool_decide (flag = lit "--out")) then Err (CAUnknown flag)
      else match rest with [] => Err (CANeedsValue flag) | v :: rest => parse_init rest v end
  end.
Definition identitySSHCAInit (key : option (bytes * bytes)) (fails : identityEvent -> bool) (write_ok : bytes -> bool) (args : list bytes) (st : identityState)
    : result caErr bytes * identityState :=
  match parse_init args [] with
  | Err err => (Err err, st)
  | Ok out =>
      if bool_decide (out = []) then (Err CARequired, st)
      else match key with
      | None => (Err CAGenerate, st)
      | Some (private, public) =>
          match log_identity fails (ECAInit out) st with
          | (false, st) => (Err CAAudit, st)
          | (true, st) =>
              if negb (write_ok out) then (Err CAWrite, st)
              else
                let st := mkIdentity (is_reg st) (is_log st) (<[out := (private, 384)]> (is_files st)) in
                if negb (write_ok (out ++ lit ".pub")) then (Err CAWrite, st)
                else (Ok out, mkIdentity (is_reg st) (is_log st) (<[out ++ lit ".pub" := (public, 420)]> (is_files st)))
          end
      end
  end.
End CA.

(** ** Accepted tokens *)

Section Accepted.
Context `{OIDCLib} `{NetURL} `{Sha256}.

(** The times of an acceptable token: an expiry within a day, and a start and
    an issue, when there are any, that are past. *)
Definition times_ok (claims : claimMap) (now : Z) : Prop :=
  exists exp, numericClaim claims (lit "exp") = Some exp /\
    let expAt := time_Unix (int64_of exp) in
    now < expAt <= now + 24 * Hour /\
    (claims !! lit "nbf" = None \/ exists nbf, numericClaim claims (lit "nbf") = Some nbf /\ time_Unix (int64_of nbf) <= now + Minute) /\
    (claims !! lit "iat" = None \/ exists iat, numericClaim claims (lit "iat") = Some iat /\
       time_Unix (int64_of iat) <= now + Minute /\ expAt <= time_Unix (int64_of iat) + 24 * Hour).

Lemma sub_day t u : (oidcMaxLifetime <? time_sub t u) = (24 * Hour <? t - u).
Proof.
  unfold oidcMaxLifetime, time_sub, Hour, Minute, Second. apply eq_true_iff_eq. rewrite !Z.ltb_lt. lia.
Qed.
Lemma numeric_present claims k f : numericClaim claims k = Some f -> claims !! k = Some (CNumber f).
Proof. unfold numericClaim. destruct (claims !! k) as [[]|]; congruence. Qed.

Lemma checkOIDCTimes_iff claims now : checkOIDCTimes claims now = None <-> times_ok claims now.
Proof.
  unfold checkOIDCTimes, times_ok, oidcClockSkew. destruct (numericClaim claims (lit "exp")) as [exp|]; [|split; [done|by intros (? & ? & _)]].
  cbv zeta. rewrite !sub_day. set (x := time_Unix (int64_of exp)).
  assert (Hopt : forall k, numericClaim claims k = None -> bool_decide (is_Some (claims !! k)) = false <-> claims !! k = None).
  { intros k _. rewrite bool_decide_eq_false, eq_None_not_Some. done. }
  split.
  - destruct (now <? x) eqn:E1; [|done]. destruct (24 * Hour <? x - now) eqn:E2; [done|]. cbn [negb]. intros Hc.
    exists exp. split; [done|]. bsimp. split; [lia|].
    destruct (numericClaim claims (lit "nbf")) as [nbf|] eqn:En.
    + destruct (now + Minute <? time_Unix (int64_of nbf)) eqn:E3; [done|]. bsimp. split; [right; by exists nbf|]. revert Hc.
      destruct (numericClaim claims (lit "iat")) as [iat|] eqn:Ei.
      * rewrite sub_day. destruct (now + Minute <? _) eqn:E4; [done|]. destruct (24 * Hour <? _) eqn:E5; [done|]. bsimp. intros _. right. exists iat. split; [done|]. lia.
      * destruct (bool_decide _) eqn:Eb; [done|]. intros _. left. by apply Hopt.
    + destruct (bool_decide (is_Some (claims !! lit "nbf"))) eqn:Eb; [done|]. split; [left; by apply Hopt|]. revert Hc.
      destruct (numericClaim claims (lit "iat")) as [iat|] eqn:Ei.
      * rewrite sub_day. destruct (now + Minute <? _) eqn:E4; [done|]. destruct (24 * Hour <? _) eqn:E5; [done|]. bsimp. intros _. right. exists iat. split; [done|]. lia.
      * destruct (bool_decide (is_Some (claims !! lit "iat"))) eqn:Eb'; [done|]. intros _. left. by apply Hopt.
  - intros (exp' & [= <-] & [Hx1 Hx2] & Hn & Hi). fold x in Hx1, Hx2, Hi. rewrite (proj2 (Z.ltb_lt now x)) by lia. cbn [negb].
    rewrite (proj2 (Z.ltb_ge (24 * Hour) (x - now))) by lia.
    assert (match numericClaim claims (lit "nbf") with
            | Some nbf => if now + Minute <? time_Unix (int64_of nbf) then Some NotYetValid else None
            | None => if bool_decide (is_Some (claims !! lit "nbf")) then Some BadNbf else None end = None) as ->.
    { destruct Hn as [Hn|(nbf & -> & Hn)]; [|by rewrite (proj2 (Z.ltb_ge _ _))]. unfold numericClaim. rewrite Hn. by rewrite bool_decide_false by (by intros [? ?]). }
    destruct Hi as [Hi|(iat & -> & Hi1 & Hi2)].
    + unfold numericClaim. rewrite Hi. by rewrite bool_decide_false by (by intros [? ?]).
    + rewrite sub_day, !(proj2 (Z.ltb_ge _ _)) by lia. done.
Qed.

(** The keys came from the operator's URL, over https, from an address that
    the callback dial let through, without a redirect and of bounded size. *)
Definition fetched (e : netEnv) (rawURL : bytes) (jwks : list oidcJWK) : Prop :=
  exists u t status body, validateCallbackURL (ne_getenv e) (ne_lookup e) rawURL = Ok u /\ l_Scheme u = lit "https" /\
    In t (client_reaches (ne_getenv e) (ne_resolve e) u) /\ ne_serve e t u = Response status body /\ 200 <= status < 300 /\
    zlen body <= oidcResponseLimit /\ decode_jwks body = Some jwks.
Lemma fetch_ok e raw jwks : fetchOIDCJSON e raw = Ok jwks -> fetched e raw jwks.
Proof.
  unfold fetchOIDCJSON, client_Do. destruct (validateCallbackURL _ _ raw) as [u|[[]|]] eqn:Ev; [|done..].
  destruct (bool_decide (l_Scheme u = lit "https")) eqn:Es; [|done]. cbn [negb].
  destruct (client_reaches _ _ u !! ne_first e) as [t|] eqn:Et; [|done]. destruct (ne_serve e t u) as [|status body|] eqn:Eb; [done| |done].
  destruct (_ || _) eqn:E1; [done|]. destruct (oidcResponseLimit <? zlen body) eqn:E2; [done|]. destruct (decode_jwks body) as [k|] eqn:Ed; [|done].
  intros [= <-]. bsimp. exists u, t, status, body. split_and!; try done; try lia. apply list_elem_of_In. by eapply list_elem_of_lookup_2.
Qed.

Lemma select_ok jwks kid alg n x : selectOIDCRSAKey jwks kid alg = Ok (n, x) ->
  exists key, In key jwks /\ usable_key kid alg key = true /\ jwkRSAPublicKey key = Ok (n, x).
Proof.
  induction jwks as [|key jwks IH]; [done|]. cbn [selectOIDCRSAKey]. destruct (usable_key kid alg key) eqn:E.
  - intros Hk. exists key. split; [by left|done].
  - intros Hk. destruct (IH Hk) as (key' & Hin & ?). exists key'. split; [by right|done].
Qed.

(** What an accepted token shows. *)
Definition accepted (e : netEnv) (opts : oidcImportOptions) (claims : claimMap) (user : bytes) (groups : list bytes) : Prop :=
  exists p0 p1 p2 cfg header key n x jwks sig,
    split_byte "." (io_Token opts) = [p0; p1; p2] /\
    oidcProviderSettings (ne_getenv e) (io_Provider opts) = Ok cfg /\
    (b64_decode UrlAlphabet false p0 ≫= decode_header) = Some header /\ h_alg header = lit "RS256" /\
    fetched e (pr_JWKSURL cfg) jwks /\ In key jwks /\ usable_key (h_kid header) (lit "RS256") key = true /\ jwkRSAPublicKey key = Ok (n, x) /\
    b64_decode UrlAlphabet false p2 = Some sig /\ rsa_verify n x (p0 ++ lit "." ++ p1) sig = true /\
    (b64_decode UrlAlphabet false p1 ≫= decode_claims) = Some claims /\
    stringClaim claims (lit "iss") = pr_Issuer cfg /\ pr_Issuer cfg <> [] /\
    claimContains (claims !! lit "aud") (pr_Audience cfg) = true /\
    (pr_OtherAudience cfg <> [] -> claimContains (claims !! lit "aud") (pr_OtherAudience cfg) = false) /\
    times_ok claims (ne_now e) /\ user <> [] /\
    user = match stringClaim claims (io_UserClaim opts) with [] => stringClaim claims (lit "sub") | u => u end /\
    groups = stringSliceClaim claims (io_GroupClaim opts).

Lemma parse_accepted e opts claims user groups : parseOIDCIdentity e opts = Ok (claims, user, groups) -> accepted e opts claims user groups.
Proof.
  unfold parseOIDCIdentity. destruct (split_byte "." (io_Token opts)) as [|p0 [|p1 [|p2 [|]]]] eqn:Ep; try done.
  unfold rbind at 1. destruct (oidcProviderSettings _ _) as [cfg|] eqn:Ecfg; [|done]. unfold verifyOIDCTokenSignature, rbind.
  destruct (b64_decode UrlAlphabet false p0) as [d0|] eqn:E0; [|done]. destruct (decode_header d0) as [header|] eqn:Eh; [|done].
  destruct (bool_decide (h_alg header = lit "RS256")) eqn:Ea; [|done]. cbn [negb].
  destruct (fetchOIDCJSON e (pr_JWKSURL cfg)) as [jwks|] eqn:Ef; [|done]. destruct (selectOIDCRSAKey _ _ _) as [[n x]|] eqn:Ek; [|done].
  destruct (b64_decode UrlAlphabet false p2) as [sig|] eqn:E2; [|done]. cbn [fst snd]. destruct (rsa_verify n x _ sig) eqn:Er; [|done].
  destruct (b64_decode UrlAlphabet false p1) as [d1|] eqn:E1; [|done]. destruct (decode_claims d1) as [cl|] eqn:Ec; [|done]. cbv zeta.
  destruct (_ || negb (bool_decide (stringClaim cl _ = _))) eqn:Ei; [done|]. destruct (negb _ || _) eqn:Eaud; [done|].
  destruct (checkOIDCTimes cl (ne_now e)) eqn:Et; [done|]. set (u := match stringClaim cl (io_UserClaim opts) with [] => _ | _ => _ end).
  destruct (bool_decide (u = [])) eqn:Eu; [done|]. intros [= <- <- <-]. bsimp. apply select_ok in Ek as (key & Hin & Hus & Hk). rewrite Ea in Hus.
  exists p0, p1, p2, cfg, header, key, n, x, jwks, sig. split_and!; try done; try congruence.
  - by rewrite E0.
  - by apply fetch_ok.
  - by rewrite E1.
  - intros Ho. match goal with Hx : _ \/ _ |- _ => destruct Hx as [Hx|Hx]; [|done] end. bsimp. done.
  - by apply checkOIDCTimes_iff.
Qed.

Lemma settings_ok getenv provider cfg : oidcProviderSettings getenv provider = Ok cfg ->
  let env s := trim_space (getenv (lit s)) in
  pr_Audience cfg <> [] /\
  ((provider = [] \/ provider = OIDCProviderLogin) /\ pr_Audience cfg = env "ADSSH_OIDC_LOGIN_AUDIENCE"%string /\ pr_OtherAudience cfg = env "ADSSH_OIDC_ADMIN_AUDIENCE"%string \/
   provider = OIDCProviderAdmin /\ pr_Audience cfg = env "ADSSH_OIDC_ADMIN_AUDIENCE"%string /\ pr_OtherAudience cfg = env "ADSSH_OIDC_LOGIN_AUDIENCE"%string).
Proof.
  unfold oidcProviderSettings. cbv zeta. destruct (bool_decide (provider = []) || _) eqn:E; [|destruct (bool_decide (provider = OIDCProviderAdmin)) eqn:E2; [|done]].
  all: cbn [rbind pr_Issuer pr_JWKSURL pr_Audience pr_OtherAudience].
  all: match goal with |- context [if ?a || ?b || ?c then _ else _] => destruct (a || b || c) eqn:Ec; [done|] end.
  all: match goal with |- context [if bool_decide (?a = ?b) then _ else _] => destruct (bool_decide (a = b)); [done|] end.
  all: intros [= <-]; cbn [pr_Audience pr_OtherAudience]; bsimp; split; [done|].
  - left. split; [|done]. destruct E as [E|E]; bsimp; auto.
  - right. by split.
Qed.

(** C25: Under one environment no token that the default or login provider
    accepts is accepted by the admin provider, whatever the two key sets and
    clocks are. *)
Theorem token_serves_one_provider e e' opts opts' claims claims' user user' groups groups' :
  ne_getenv e = ne_getenv e' -> io_Token opts = io_Token opts' -> io_Provider opts <> OIDCProviderAdmin -> io_Provider opts' = OIDCProviderAdmin ->
  parseOIDCIdentity e opts = Ok (claims, user, groups) -> parseOIDCIdentity e' opts' <> Ok (claims', user', groups').
Proof.
  intros Hg Ht Hp Hp' T1 T2. apply parse_accepted in T1, T2.
  destruct T1 as (p0 & p1 & p2 & cfg & header & key & n & x & jwks & sig & S1 & C1 & _ & _ & _ & _ & _ & _ & _ & _ & D1 & _ & _ & A1 & O1 & _).
  destruct T2 as (q0 & q1 & q2 & cfg' & header' & key' & n' & x' & jwks' & sig' & S2 & C2 & _ & _ & _ & _ & _ & _ & _ & _ & D2 & _ & _ & A2 & _ & _).
  rewrite Ht, S2 in S1. injection S1 as -> -> ->. rewrite D2 in D1. injection D1 as ->. rewrite <- Hg in C2.
  apply settings_ok in C1 as (Hne & Ha). apply settings_ok in C2 as (Hne' & Ha').
  destruct Ha as [(Hl & Ha & Ho)|(Hl & _)]; [|done]. destruct Ha' as [([Hl'|Hl'] & _)|(_ & Ha' & _)]; [by rewrite Hp' in Hl'..|].
  rewrite Ha' in A2, Hne'. rewrite Ho in O1. by rewrite O1 in A2.
Qed.

Definition eligible_roles (provider : bytes) (groups : list bytes) : list bytes :=
  if bool_decide (provider = OIDCProviderAdmin) then PrivilegedEligible groups else [].

(** An import either leaves everything as it was, or records an accepted token
    and then gives the session its identity. *)
Lemma import_cases e fails sid args st r st' : identityOIDCImport e fails sid args st = (r, st') ->
  (exists err, r = Err err /\ st' = st) \/
  exists opts claims user groups s ev,
    r = Ok (user, FilterUnprivileged groups, eligible_roles (io_Provider opts) groups) /\
    parse_import e args (mkImport [] [] (lit "email") (lit "groups")) = Ok opts /\
    accepted e opts claims user groups /\ GetSession sid (is_reg st) = Some s /\ fails ev = false /\
    st' = with_session sid (imported (ne_now e) (io_Provider opts) user (FilterUnprivileged groups) (eligible_roles (io_Provider opts) groups) s)
            (mkIdentity (is_reg st) (is_log st ++ [ev]) (is_files st)).
Proof.
  unfold identityOIDCImport. destruct (parse_import _ _ _) as [opts|] eqn:Eo; [|intros [= <- <-]; eauto]. unfold import_opts.
  destruct (bool_decide (io_Token opts = [])); [intros [= <- <-]; eauto|].
  destruct (parseOIDCIdentity e opts) as [[[claims user] groups]|] eqn:Ep; [|intros [= <- <-]; eauto].
  destruct (GetSession sid (is_reg st)) as [s|] eqn:Es; [|intros [= <- <-]; eauto]. cbv zeta. unfold log_identity. destruct (fails _) eqn:Ef; [intros [= <- <-]; eauto|].
  intros [= <- <-]. right. exists opts, claims, user, groups, s. eexists. split; [done|]. split; [done|]. split; [by apply parse_accepted|]. split; [done|]. split; [exact Ef|done].
Qed.

Lemma accepted_user e opts claims user groups : accepted e opts claims user groups -> user <> [].
Proof. by intros (? & ? & ? & ? & ? & ? & ? & ? & ? & ? & ? & ? & ? & ? & ? & ? & ? & ? & ? & ? & ? & ? & ? & ? & ? & ? & Hu & _). Qed.

Lemma eligible_from provider groups g : In g (eligible_roles provider groups) -> provider = OIDCProviderAdmin /\ IsPrivilegedRole g = true /\ In g groups.
Proof.
  unfold eligible_roles. destruct (bool_decide (provider = OIDCProviderAdmin)) eqn:E; [|done]. bsimp. intros Hg. split; [done|].
  unfold PrivilegedEligible in Hg. revert Hg. generalize (@nil bytes) as seen. clear. induction groups as [|x l IH]; intros seen; [done|]. cbn [privileged_from].
  destruct (negb (IsPrivilegedRole x) || _) eqn:E; [intros Hg; destruct (IH _ Hg) as [? ?]; split; [done|by right]|].
  bsimp. intros [<-|Hg]; [split; [done|by left]|]. destruct (IH _ Hg) as [? ?]; split; [done|by right].
Qed.

Lemma imported_fields now provider user principals eligible s s' : user <> [] -> imported now provider user principals eligible s = s' ->
  s_User s' = user /\ s_Principals s' = principals /\ s_identitySource s' = IdentitySourceOIDCVerified /\ s_elevation s' = s_elevation s /\
  (s_oidcProvider s' = OIDCProviderAdmin <-> provider = OIDCProviderAdmin) /\
  s_eligibleRoles s' = if bool_decide (provider = OIDCProviderAdmin) then eligible else [].
Proof.
  intros Hu <-. unfold imported, SetIdentity. rewrite (bool_decide_false (user = [])) by done.
  destruct (bool_decide (provider = OIDCProviderAdmin)) eqn:E1; bsimp; [by split_and!|].
  destruct (bool_decide (provider = OIDCProviderLogin)); cbn; by split_and!.
Qed.

(** C24: An import that fails changes nothing; one that succeeds had an RS256
    token that a usable key verifies, fetched over https from the operator's
    key set URL, with the operator's issuer and audience and not the other one
    and times within a day; it is recorded before the session gets the user,
    unprivileged groups as principals and, from the admin provider only,
    privileged groups as eligible roles; no other session changes. *)
Theorem import_verified e fails sid args st r st' :
  identityOIDCImport e fails sid args st = (r, st') ->
  match r with
  | Err _ => st' = st
  | Ok (user, principals, eligible) =>
      exists opts claims groups s ev s', accepted e opts claims user groups /\ GetSession sid (is_reg st) = Some s /\
        fails ev = false /\ is_log st' = is_log st ++ [ev] /\ is_files st' = is_files st /\
        principals = FilterUnprivileged groups /\ (forall g, In g principals -> IsPrivilegedRole g = false) /\
        (forall g, In g eligible -> io_Provider opts = OIDCProviderAdmin /\ IsPrivilegedRole g = true /\ In g groups) /\
        (forall id, id <> sid -> GetSession id (is_reg st') = GetSession id (is_reg st)) /\
        GetSession sid (is_reg st') = Some s' /\ s_User s' = user /\ s_Principals s' = principals /\ s_eligibleRoles s' = eligible /\
        (s_oidcProvider s' = OIDCProviderAdmin <-> io_Provider opts = OIDCProviderAdmin) /\
        s_identitySource s' = IdentitySourceOIDCVerified /\ s_elevation s' = s_elevation s
  end.
Proof.
  intros Hi. apply import_cases in Hi as [(err & -> & ->)|(opts & claims & user & groups & s & ev & -> & _ & Ha & Es & Ef & ->)]; [done|].
  destruct (imported_fields (ne_now e) (io_Provider opts) user (FilterUnprivileged groups) (eligible_roles (io_Provider opts) groups) s _ (accepted_user _ _ _ _ _ Ha) eq_refl)
    as (F1 & F2 & F3 & F4 & F5 & F6).
  exists opts, claims, groups, s, ev. eexists. split_and!; [exact Ha|done|exact Ef|done|done|done| | | |unfold GetSession; cbn; by rewrite lookup_insert_eq|..]; try done.
  - intros g Hg. apply filter_In in Hg as [_ Hg]. by apply negb_true_iff in Hg.
  - intros g Hg. by apply eligible_from in Hg.
  - intros id Hid. unfold GetSession. cbn. by rewrite lookup_insert_ne.
  - rewrite F6. unfold eligible_roles. by destruct (bool_decide _).
Qed.
End Accepted.

(** ** Certificates *)

Section Issue.
Context `{CALib}.

Definition ttl_ok (o : sshIssueOptions) : Prop := 0 < so_TTL o <= 24 * Hour.
Lemma parse_issue_ttl args : forall o o', ttl_ok o -> parse_issue args o = Ok o' -> ttl_ok o'.
Proof.
  assert (Hind : forall n args, (length args <= n)%nat -> forall o o', ttl_ok o -> parse_issue args o = Ok o' -> ttl_ok o'); [|by intros; eapply Hind].
  clear args. induction n as [|n IH]; intros [|flag [|v rest]] Hn o o' Ho; cbn [parse_issue length] in *; try (by intros [= <-]); try lia.
  - by destruct (negb _).
  - destruct (negb _); [done|]. destruct o as [ca pub out ps ttl]. assert (Hr : (length rest <= n)%nat) by lia.
    destruct (bool_decide _); [by apply IH|]. destruct (bool_decide _); [by apply IH|]. destruct (bool_decide _); [by apply IH|].
    destruct (bool_decide _); [|by apply IH]. destruct (ParseDuration v) as [d|]; [|done]. destruct (_ || _) eqn:E; [done|].
    bsimp. apply IH; [done|]. split; cbn; lia.
Qed.

(** Seconds of an instant after 1970 that an unsigned 64-bit field holds. *)
Lemma unix_le t u : t <= u -> Unix t <= Unix u.
Proof. intros Ht. unfold Unix. pose proof (Z.div_le_mono t u Second). unfold Second in *. lia. Qed.
Lemma unix_field t m : 62135596800 * Second <= t -> t <= m -> Unix m < 2 ^ 64 -> wrapu 64 (Unix t) = Unix t.
Proof.
  intros Hl Hm Hu. pose proof (unix_le t m Hm). apply Z.mod_small. split; [|lia]. unfold Unix.
  pose proof (Z.div_le_lower_bound t Second 62135596800). unfold Second in *. lia.
Qed.

(** A certificate that is issued is a record in the ledger first, names the
    principals asked for and no others, allows a terminal and nothing else,
    and ends within a day. *)
Theorem issued_certificate read serial now fails write_ok args st r st' :
  Minute + 62135596800 * Second <= now -> Unix (now + 24 * Hour) < 2 ^ 64 ->
  identitySSHCAIssue read serial now fails write_ok args st = (r, st') ->
  is_reg st' = is_reg st /\
  match r with
  | Err _ => is_files st' = is_files st
  | Ok cert => exists o, parse_issue args (mkIssue [] [] [] [] (15 * Minute)) = Ok o /\
      is_log st' = is_log st ++ [ECertIssue (so_Out o) (so_Principals o) (so_TTL o)] /\
      is_files st' = <[so_Out o := (MarshalAuthorizedKey cert, 420)]> (is_files st) /\
      uc_Principals cert = so_Principals o /\ so_Principals o <> [] /\ uc_Extensions cert = [lit "permit-pty"] /\ SignCert cert = true /\
      uc_ValidAfter cert <= Unix now /\ uc_ValidBefore cert <= Unix now + 24 * 3600
  end.
Proof.
  intros Hn1 Hn2. unfold identitySSHCAIssue. destruct (parse_issue args _) as [o|] eqn:Ep; [|by intros [= <- <-]].
  assert (Ht : ttl_ok o) by (eapply parse_issue_ttl; [|exact Ep]; by split; vm_compute).
  unfold issueSSHCertificate. destruct (_ || _ || _ || bool_decide (so_Principals o = [])) eqn:Er; [by intros [= <- <-]|].
  destruct (read (so_CA o)) as [cad|]; [|by intros [= <- <-]]. destruct (ParsePrivateKey cad) as [ca|]; [|by intros [= <- <-]].
  destruct (read (so_Pub o)) as [pd|]; [|by intros [= <- <-]]. destruct (ParseAuthorizedKey pd) as [pub|]; [|by intros [= <- <-]].
  destruct serial as [k|]; [|by intros [= <- <-]]. cbv zeta. set (cert := mkCert _ _ _ _ _ _ _ _). destruct (SignCert cert) eqn:Es; [|by intros [= <- <-]].
  unfold log_identity. destruct (fails _); [by intros [= <- <-]|]. destruct (write_ok _); intros [= <- <-]; [|done]. split; [done|]. bsimp.
  exists o. split_and!; try done; subst cert; cbn [uc_ValidAfter uc_ValidBefore].
  all: destruct Ht as [Ht1 Ht2]; rewrite (unix_field _ (now + 24 * Hour)); try done; try (unfold Hour, Minute, Second in *; lia).
  - apply unix_le. unfold Minute, Second. lia.
  - etrans; [apply (unix_le _ (now + 24 * Hour)); lia|]. unfold Unix, Hour, Minute, Second.
    pose proof (Z.div_add now (24 * 3600) 1000000000 ltac:(done)) as Hd.
    replace (now + 24 * 3600 * 1000000000) with (now + 24 * (60 * (60 * 1000000000))) in Hd by lia. lia.
Qed.
End Issue.

(** ** On a concrete token *)

Definition toy_now : Z := (62135596800 + 1700000000) * Second.
Definition toy_claims : claimMap :=
  list_to_map [(lit "iss", CString (lit "https://idp.example")); (lit "aud", CArray [CString (lit "adssh-admin-api"); CNull]);
               (lit "exp", CNumber (to_float (1700000000 + 3600))); (lit "iat", CNumber (to_float 1700000000));
               (lit "email", CString (lit "alice")); (lit "groups", CArray [CString (lit "ops"); CString (lit "os-root"); CBool true])].
#[local] Instance toy_oidc : OIDCLib := {|
  decode_header d := if bool_decide (d = lit "h") then Some (mkHeader (lit "RS256") (lit "k1") []) else None;
  decode_claims d := if bool_decide (d = lit "p") then Some toy_claims else None;
  decode_jwks d := if bool_decide (d = lit "keys") then Some [mkJWK (lit "EC") (lit "k1") [] [] [] []; mkJWK (lit "RSA") (lit "k1") [] (lit "sig") (lit "Aw") (lit "AQAB")] else None;
  rsa_verify n x m s := (n =? 3) && (x =? 65537) && bool_decide (m = lit "aA.cA") && bool_decide (s = lit "s");
  int64_out _ := - 2 ^ 63 |}.
#[local] Instance toy_digest : Sha256 := {| sha256_hex s := lit "#" ++ s |}.
#[local] Existing Instance CallbackUrl.demo_net.
Definition toy_env (k : bytes) : bytes :=
  if bool_decide (k = lit "ADSSH_OIDC_ADMIN_ISSUER") then lit "https://idp.example"
  else if bool_decide (k = lit "ADSSH_OIDC_ADMIN_JWKS_URL") then lit "https://idp.example/keys "
  else if bool_decide (k = lit "ADSSH_OIDC_ADMIN_AUDIENCE") then lit "adssh-admin-api"
  else if bool_decide (k = lit "ADSSH_OIDC_LOGIN_AUDIENCE") then lit "adssh-login"
  else if bool_decide (k = lit "ADSSH_OIDC_ISSUER") then lit "https://idp.example"
  else if bool_decide (k = lit "ADSSH_OIDC_JWKS_URL") then lit "https://idp.example/keys"
  else if bool_decide (k = lit "TOKEN") then lit "aA.cA.cw" else [].
Definition toy_net : netEnv :=
  mkNet3 toy_env (fun _ => Some [v4 93 184 216 34]) rebound 0 (fun _ _ => Response 200 (lit "keys")) toy_now (fun _ => None).
Definition toy_session : Session :=
  mkSession (lit "s1") (lit "bob") [] 0 [] None 0 [] false None false false None None [] [] None ∅ false None [] [].
Definition toy_state : identityState := mkIdentity (mkReg {[lit "s1" := toy_session]} ∅ 0) [] ∅.
Definition no_failure : identityEvent -> bool := fun _ => false.

Example import_admin :
  let '(r, st) := identityOIDCImport toy_net no_failure (lit "s1") [lit "--env"; lit "TOKEN"; lit "--provider"; lit "admin"] toy_state in
  r = Ok (lit "alice", [lit "ops"], [lit "os-root"]) /\
  is_log st = [EImport (lit "s1") (lit "alice") (lit "https://idp.example") (lit "admin") (lit "#aA.cA.cw") [lit "ops"] [lit "os-root"]].
Proof. vm_compute. by split. Qed.
Example import_login_refused :
  fst (identityOIDCImport toy_net no_failure (lit "s1") [lit "--env"; lit "TOKEN"] toy_state) = Err AudienceMismatch.
Proof. vm_compute. reflexivity. Qed.

Definition toy_result : result oidcErr (bytes * list bytes * list bytes) * identityState :=
  identityOIDCImport toy_net no_failure (lit "s1") [lit "--env"; lit "TOKEN"; lit "--provider"; lit "admin"] toy_state.
Lemma import_verified_witness : exists opts claims groups, accepted toy_net opts claims (lit "alice") groups /\ [lit "ops"] = FilterUnprivileged groups.
Proof.
  pose proof (import_verified toy_net no_failure (lit "s1") [lit "--env"; lit "TOKEN"; lit "--provider"; lit "admin"] toy_state (fst toy_result) (snd toy_result) (surjective_pairing _)) as Hr.
  replace (fst toy_result) with (@Ok oidcErr _ (lit "alice", [lit "ops"], [lit "os-root"])) in Hr by (by vm_compute).
  destruct Hr as (opts & claims & groups & s & ev & s' & Ha & _ & _ & _ & _ & Hp & _). exists opts, claims, groups. by split.
Defined.
Lemma token_serves_one_provider_witness : exists r,
  parseOIDCIdentity toy_net (mkImport (lit "aA.cA.cw") OIDCProviderAdmin (lit "email") (lit "groups")) = Ok r /\
  parseOIDCIdentity toy_net (mkImport (lit "aA.cA.cw") [] (lit "email") (lit "groups")) <> Ok r.
Proof.
  destruct (parseOIDCIdentity toy_net (mkImport (lit "aA.cA.cw") OIDCProviderAdmin (lit "email") (lit "groups"))) as [[[c u] g]|] eqn:E; [|by vm_compute in E].
  exists (c, u, g). split; [done|]. intros E'.
  exact (token_serves_one_provider toy_net toy_net
    (mkImport (lit "aA.cA.cw") [] (lit "email") (lit "groups")) (mkImport (lit "aA.cA.cw") OIDCProviderAdmin (lit "email") (lit "groups"))
    c c u u g g eq_refl eq_refl ltac:(by vm_compute) eq_refl E' E).
Defined.
