(* ===== verification/Identity.v ===== *)
(** * Identity commands

    security/device_login_ee.go and security/vbin_elevate_ee.go: the device
    flow against the operator's control plane, over an explicit clock, with the
    storing of its bearer; and elevation.  With [Oidc] these are the commands
    that change who a session is and which roles it holds. *)

From S2P Require Import Prelude GoBytes GoTime GoPath NetIP MonitorProto Session Policy Lease CallbackUrl Oidc.
#[local] Open Scope Z_scope.
#[local] Arguments lit : simpl never.

(** ** Parameters *)

Record deviceStartBody := mkStart { ds_DeviceCode : bytes; ds_VerificationURL : bytes; ds_ExpiresIn : Z; ds_Interval : Z }.
Record deviceTokenBody := mkTokenBody { dt_AccessToken : bytes; dt_TokenType : bytes }.
(** Unicode letters and digits in a name that is not ASCII, the JSON decoders
    of the flow's bodies, the query's keys, the endpoint that a path resolves
    to, and [strings.EqualFold] of texts that are not ASCII. *)
Class DeviceLib := {
  unicode_name : bytes -> bool;
  decode_start : bytes -> option deviceStartBody;
  decode_token : bytes -> option deviceTokenBody;
  decode_error : bytes -> option bytes;
  query_has : bytes -> bytes -> bool;
  resolve_ref : URL -> bytes -> bytes;
  unicode_fold : bytes -> bytes -> bool }.

(** ** Elevation *)

Definition name_char (c : byte) : bool :=
  (c =?b "_") || ((65 <=? byte_val c) && (byte_val c <=? 90)) || ((97 <=? byte_val c) && (byte_val c <=? 122)).

Inductive elevateErr :=
| ElevateUsage | ElevateNoSession | AgentElevation | NeedsRole | ForNeedsValue | BadFor | ReasonNeedsValue | ElevateUnknown (arg : bytes)
| ReasonRequired | InvalidRole (role : bytes) | NeedsAdminAudience (role : bytes) | ElevateAudit | DropAudit (role : bytes) | BadAction (action : bytes).
Inductive elevateOut := Elevated (role reason : bytes) (expires : Z) | NoElevation | Active (e : Elevation) | Dropped (e : Elevation).

Section Elevate.
Context `{DeviceLib}.

Definition validEnvironmentName (name : bytes) : bool :=
  match name with
  | [] => false
  | c :: name' => if is_ascii name then name_char c && forallb (fun c => name_char c || decimal c) name' else unicode_name name
  end.

Fixpoint parse_elevate (args : list bytes) (ttl : Z) (reason : bytes) : result elevateErr (Z * bytes) :=
  match args with
  | [] => Ok (ttl, reason)
  | flag :: rest =>
      if bool_decide (flag = lit "--for") then
        match rest with
        | [] => Err ForNeedsValue
        | v :: rest => match ParseDuration v with
                       | Some d => if (d <=? 0) || (24 * Hour <? d) then Err BadFor else parse_elevate rest d reason
                       | None => Err BadFor
                       end
        end
      else if bool_decide (flag = lit "--reason") then
        match rest with [] => Err ReasonNeedsValue | v :: rest => parse_elevate rest ttl v end
      else Err (ElevateUnknown flag)
  end.

Definition parseElevationRequest (args : list bytes) : result elevateErr (bytes * Z * bytes) :=
  match args with
  | [] => Err NeedsRole
  | role :: rest =>
      if has_prefix (lit "-") role then Err NeedsRole
      else
        let! (ttl, reason) := parse_elevate rest (10 * Minute) [] in
        if bool_decide (trim_space reason = []) then Err ReasonRequired
        else if negb (validEnvironmentName (replace_all (lit "-") (lit "_") role)) then Err (InvalidRole role)
        else Ok (role, ttl, reason)
  end.

(** [elevateBinary.Run]; the words after elevate. *)
Definition elevateRun (fails : identityEvent -> bool) (now : Z) (sid : bytes) (args : list bytes) (st : identityState)
    : result elevateErr elevateOut * identityState :=
  match args with
  | [] => (Err ElevateUsage, st)
  | action :: rest =>
      match GetSession sid (is_reg st) with
      | None => (Err ElevateNoSession, st)
      | Some session =>
          if bool_decide (is_Some (s_agentBinding session)) then (Err AgentElevation, st)
          else if bool_decide (action = lit "request") then
            match parseElevationRequest rest with
            | Err e => (Err e, st)
            | Ok (role, ttl, reason) =>
                if IsPrivilegedRole role
                   && (negb (bool_decide (s_oidcProvider session = OIDCProviderAdmin)) || negb (bool_decide (role ∈ s_eligibleRoles session)))
                then (Err (NeedsAdminAudience role), st)
                else
                  let expires := now + ttl in
                  match log_identity fails (EElevate sid (s_User session) role ttl reason expires) st with
                  | (false, st) => (Err ElevateAudit, st)
                  | (true, st) => (Ok (Elevated role reason expires), with_session sid (ActivateElevation now role reason expires session) st)
                  end
            end
          else if bool_decide (action = lit "status") then
            let '(e, session) := ActiveElevation now session in
            (Ok (match e with None => NoElevation | Some e => Active e end), with_session sid session st)
          else if bool_decide (action = lit "drop") then
            match DropElevation now session with
            | (None, _) => (Ok NoElevation, st)
            | (Some dropped, session) =>
                let st := with_session sid session st in
                match log_identity fails (EElevateDrop sid (s_User session) (el_Role dropped) (el_Reason dropped)) st with
                | (false, st) => (Err (DropAudit (el_Role dropped)), st)
                | (true, st) => (Ok (Dropped dropped), st)
                end
            end
          else (Err (BadAction action), st)
      end
  end.
End Elevate.

(** ** The bearer's file *)

(** What the file system answers to [writeDeviceToken]: the parent, the
    destination, and each step on the temporary file. *)
Inductive parentLook := ParentMissing (made chmoded : bool) | ParentError | ParentFile | ParentDir.
Inductive destLook := DestRegular | DestOther | DestMissing | DestError.
Record tokenDisk := mkTokenDisk {
  td_parent : parentLook; td_dest : destLook; td_random : bool; td_open : bool; td_write : bool; td_chmod : bool;
  td_perm : option Z; td_sync : bool; td_close : bool; td_rename : bool }.

Definition writeDeviceToken (d : tokenDisk) (path secret : bytes) (files : gmap bytes (bytes * Z)) : bool * gmap bytes (bytes * Z) :=
  let parent := match td_parent d with ParentMissing made chmoded => made && chmoded | ParentError | ParentFile => false | ParentDir => true end in
  let dest := match td_dest d with DestRegular | DestMissing => true | _ => false end in
  if negb parent || negb dest || negb (td_random d) || negb (td_open d) || negb (td_write d) || negb (td_chmod d) then (false, files)
  else match td_perm d with
  | None => (false, files)
  | Some perm =>
      if negb (Z.land perm 63 =? 0) || negb (td_sync d) || negb (td_close d) || negb (td_rename d) then (false, files)
      else (true, <[path := (secret, perm)]> files)
  end.

(** ** The device flow *)

Inductive originErr := OriginUnset | NotOrigin | PrivateOrigin (host : bytes) | UnresolvedOrigin (host : bytes) | BlockedOrigin.
Inductive deviceErr := DeviceNoSession | Code (c : bytes) | Detail (c : bytes) (why : originErr).
Definition code {A} (c : string) : result deviceErr A := Err (Code (lit c)).

Definition user_head (c : byte) : bool := decimal c || ((65 <=? byte_val c) && (byte_val c <=? 90)) || ((97 <=? byte_val c) && (byte_val c <=? 122)).
Definition user_char (c : byte) : bool := user_head c || is_one_of [c] ["."; "_"; "@"; "-"]%string.
(** [deviceUsernamePattern]. *)
Definition deviceUsername (s : bytes) : bool :=
  match s with [] => false | c :: s' => user_head c && forallb user_char s' && (zlen s' <=? 128) end.

Record DeviceLoginRequest := mkDevice {
  dl_URL : bytes; dl_Username : bytes; dl_TokenFile : bytes; dl_Interval : Z; dl_IntervalSet : bool; dl_Timeout : Z }.

Definition deviceTokenPath (home : option bytes) (path : bytes) : option bytes :=
  let path := match path with
              | [] => match home with None | Some [] => None | Some h => Some (Join (Join h (lit ".adssh")) (lit "device.token")) end
              | p => Some p
              end in
  p ← path; if IsAbs p then Some p else None.

Definition deviceMinInterval : Z := Second.
(** [time.Duration(n) * time.Second]. *)
Definition seconds (n : Z) : Z := wraps 64 (n * Second).

Section Device.
Context `{DeviceLib} `{NetURL} `{Sha256}.

Definition controlPlaneOrigin (e : netEnv) : result deviceErr URL :=
  let reject why := Err (Detail (lit "url_rejected") why) in
  match trim_space (ne_getenv e (lit "ADSSH_CONTROLPLANE_URL")) with
  | [] => Err (Detail (lit "control plane not configured") OriginUnset)
  | raw =>
      match Parse raw with
      | None => reject NotOrigin
      | Some p =>
          if negb (bool_decide (l_Scheme p = lit "https")) || l_User p || negb (bool_decide (l_Opaque p = []))
             || (negb (bool_decide (l_Path p = [])) && negb (bool_decide (l_Path p = lit "/")))
             || negb (bool_decide (l_RawQuery p = [])) || l_ForceQuery p || negb (bool_decide (l_Fragment p = [])) || has_byte "#" raw
          then reject NotOrigin
          else match validateCallbackURL (ne_getenv e) (ne_lookup e) raw with
          | Err (Some errPrivateHost) => reject (PrivateOrigin (URL_Hostname p))
          | Err (Some errHostUnresolved) => reject (UnresolvedOrigin (URL_Hostname p))
          | Err _ => reject BlockedOrigin
          | Ok v => Ok (mkURL3 (l_Scheme v) [] false (l_Host v) [] [] false [])
          end
      end
  end.

Definition host_fold (pinned host : bytes) : bool := if is_ascii pinned then EqualFold host pinned else unicode_fold host pinned.
Definition sameControlPlaneOrigin (pinned : URL) (raw : bytes) : bool :=
  match Parse (trim_space raw) with
  | None => false
  | Some p =>
      if l_User p || negb (bool_decide (l_Opaque p = [])) || negb (bool_decide (l_RawQuery p = [])) || l_ForceQuery p || negb (bool_decide (l_Fragment p = []))
      then false
      else if negb (bool_decide (l_Path p = [])) && negb (bool_decide (l_Path p = lit "/")) then false
      else bool_decide (l_Scheme p = l_Scheme pinned) && host_fold (l_Host pinned) (l_Host p)
  end.

Definition checkVerificationURL (e : netEnv) (base : URL) (raw : bytes) : option deviceErr :=
  let rejected := Some (Code (lit "url_rejected")) in
  match validateCallbackURL (ne_getenv e) (ne_lookup e) raw with
  | Err _ => rejected
  | Ok p =>
      if negb (bool_decide (l_Scheme p = l_Scheme base)) || negb (bool_decide (l_Host p = l_Host base)) then rejected
      else if query_has (l_RawQuery p) (lit "device_code") || query_has (l_RawQuery p) (lit "access_token") then rejected else None
  end.

(** What the control plane answers to each POST, in order, and how long the
    POST and the sleep after it take; when the context is canceled; and the
    disk and the home directory. *)
Record deviceEnv := mkDeviceEnv {
  de_net : netEnv; de_answer : nat -> bytes -> list (bytes * bytes) -> httpAnswer; de_post : nat -> Z; de_slack : nat -> Z;
  de_cancel : nat -> bool; de_wake : nat -> bool; de_disk : tokenDisk; de_home : option bytes }.

Definition bodyLimit : Z := 65536.
(** One POST of the flow, to the pinned host. *)
Definition postDeviceForm (e : deviceEnv) (i : nat) (base : URL) (path : bytes) (form : list (bytes * bytes)) : result deviceErr (Z * bytes) :=
  match resolve_ref base path with
  | [] => code "url_rejected"
  | endpoint =>
      match Parse endpoint with
      | None => code "device_login_failed"
      | Some u =>
          match client_Do (ne_getenv (de_net e)) (ne_resolve (de_net e)) (ne_first (de_net e)) (fun _ => de_answer e i path form) u with
          | Err errRedirectDenied => code "redirect_denied"
          | Err RequestFailed => code "device_login_failed"
          | Ok (status, body) => if bodyLimit <? zlen body then code "device_login_failed" else Ok (status, body)
          end
      end
  end.

(** The code of a status; absent when the flow goes on. *)
Definition deviceStatusCode (status : Z) (body : bytes) : option bytes :=
  if (300 <=? status) && (status <? 400) then Some (lit "redirect_denied")
  else if status =? 200 then None
  else if status =? 403 then Some (lit "login_denied")
  else if status =? 429 then Some (lit "slow_down")
  else if status =? 503 then Some (lit "oauth_unavailable")
  else if status =? 400 then
    match decode_error body with
    | None => Some (lit "device_login_failed")
    | Some err => Some (if is_one_of err ["expired_token"; "slow_down"; "authorization_pending"]%string then err else lit "device_login_failed")
    end
  else Some (lit "device_login_failed").

(** [deviceSleep] from the instant [t]: when it wakes. *)
Definition deviceSleep (e : deviceEnv) (i : nat) (deadline interval t : Z) : result deviceErr Z :=
  if interval <=? 0 then Ok t
  else
    let remaining := time_sub deadline t in
    if remaining <=? 0 then code "expired_token"
    else if de_wake e i then code "device_login_failed"
    else Ok (t + Z.min interval remaining + de_slack e i).

(** The polling loop from the instant [t]: the token, and the instants of the
    polls.  Absent when the fuel is out. *)
Fixpoint devicePoll (fuel : nat) (e : deviceEnv) (i : nat) (base : URL) (deviceCode : bytes) (deadline interval t : Z) (polls : list Z)
    : option (result deviceErr bytes * list Z) :=
  match fuel with
  | O => None
  | S fuel =>
      if de_cancel e i then Some (code "device_login_failed", polls)
      else if deadline <? t then Some (code "expired_token", polls)
      else
        let polls := polls ++ [t] in
        match postDeviceForm e i base (lit "/oauth/token")
                [(lit "grant_type", lit "urn:ietf:params:oauth:grant-type:device_code"); (lit "device_code", deviceCode)] with
        | Err err => Some (Err err, polls)
        | Ok (status, body) =>
            let t := t + de_post e i in
            match deviceStatusCode status body with
            | Some c =>
                if bool_decide (c = lit "authorization_pending") then
                  match deviceSleep e i deadline interval t with
                  | Err err => Some (Err err, polls)
                  | Ok t => devicePoll fuel e (S i) base deviceCode deadline interval t polls
                  end
                else if bool_decide (c = lit "slow_down") then
                  let interval := wraps 64 (interval + 5 * Second) in
                  match deviceSleep e i deadline interval t with
                  | Err err => Some (Err err, polls)
                  | Ok t => devicePoll fuel e (S i) base deviceCode deadline interval t polls
                  end
                else Some (Err (Code c), polls)
            | None =>
                match decode_token body with
                | None => Some (code "device_login_failed", polls)
                | Some token =>
                    if negb (bool_decide (dt_TokenType token = lit "Bearer")) || bool_decide (dt_AccessToken token = [])
                    then Some (code "device_login_failed", polls)
                    else Some (Ok (dt_AccessToken token), polls)
                end
            end
        end
  end.

(** The deadline and the first interval, at the instant [now]. *)
Definition deviceDeadline (req : DeviceLoginRequest) (start : deviceStartBody) (now : Z) : Z :=
  let timeout := if dl_Timeout req <=? 0 then 10 * Minute else dl_Timeout req in
  let deadline := now + timeout in
  if 0 <? ds_ExpiresIn start then Z.min deadline (now + seconds (ds_ExpiresIn start)) else deadline.
Definition deviceInterval (req : DeviceLoginRequest) (start : deviceStartBody) : Z :=
  let interval := if dl_IntervalSet req then dl_Interval req
                  else if 0 <? ds_Interval start then seconds (ds_Interval start) else 5 * Second in
  if interval <? deviceMinInterval then deviceMinInterval else interval.

(** Everything before the first poll: the token's path, the origin and the
    start's answer. *)
Definition deviceStart (e : deviceEnv) (sid : bytes) (req : DeviceLoginRequest) (st : identityState)
    : result deviceErr (Session * bytes * URL * deviceStartBody) :=
  match GetSession sid (is_reg st) with
  | None => Err DeviceNoSession
  | Some session =>
      if negb (deviceUsername (dl_Username req)) then code "login_denied"
      else if dl_IntervalSet req && (dl_Interval req <? 0) then code "device_login_failed"
      else match deviceTokenPath (de_home e) (dl_TokenFile req) with
      | None => code "token_file_rejected"
      | Some path =>
          let! base := controlPlaneOrigin (de_net e) in
          if negb (bool_decide (dl_URL req = [])) && negb (sameControlPlaneOrigin base (dl_URL req)) then code "url_rejected"
          else
            let! (status, body) := postDeviceForm e 0 base (lit "/oauth/device") [(lit "username", dl_Username req)] in
            match deviceStatusCode status body with
            | Some c => Err (Code c)
            | None =>
                match decode_start body with
                | None => code "device_login_failed"
                | Some start =>
                    if bool_decide (ds_DeviceCode start = []) || bool_decide (ds_VerificationURL start = []) then code "device_login_failed"
                    else match checkVerificationURL (de_net e) base (ds_VerificationURL start) with
                    | Some err => Err err
                    | None => Ok (session, path, base, start)
                    end
                end
            end
      end
  end.

(** The session that a device login leaves. *)
Definition logged_in (now : Z) (user : bytes) (s : Session) : Session :=
  SetOIDC now [] [] (SetIdentitySource IdentitySourceDeviceLogin (SetIdentity now user [] s)).

Definition DeviceLogin (fuel : nat) (e : deviceEnv) (fails : identityEvent -> bool) (sid : bytes) (req : DeviceLoginRequest) (st : identityState)
    : option (result deviceErr (bytes * bytes) * identityState) :=
  match deviceStart e sid req st with
  | Err err => Some (Err err, st)
  | Ok (session, path, base, start) =>
      let t := ne_now (de_net e) + de_post e 0 in
      '(r, polls) ← devicePoll fuel e 1 base (ds_DeviceCode start) (deviceDeadline req start t) (deviceInterval req start) t [];
      Some match r with
      | Err err => (Err err, st)
      | Ok secret =>
          match writeDeviceToken (de_disk e) path secret (is_files st) with
          | (false, _) => (code "token_file_rejected", st)
          | (true, files) =>
              let st := mkIdentity (is_reg st) (is_log st) files in
              match log_identity fails (EDeviceLogin (dl_Username req) (sha256_hex secret)) st with
              | (false, st) => (code "audit_failed", mkIdentity (is_reg st) (is_log st) (delete path (is_files st)))
              | (true, st) => (Ok (path, sha256_hex secret), with_session sid (logged_in (default t (last polls)) (dl_Username req) session) st)
              end
          end
      end
  end.
End Device.

(** ** Polling *)

Section Polling.
Context `{DeviceLib} `{NetURL} `{Sha256}.

(** Each poll starts a second after the one before it, or at the deadline. *)
Fixpoint polls_spaced (deadline t : Z) (polls : list Z) : Prop :=
  match polls with [] => True | p :: l => (t + Second <= p \/ deadline <= p) /\ polls_spaced deadline p l end.

Lemma sleep_wakes e i deadline interval t t' : Second <= interval -> 0 <= de_slack e i -> deviceSleep e i deadline interval t = Ok t' ->
  0 < deadline - t /\ t + Z.min Second (deadline - t) <= t'.
Proof.
  intros Hi Hs. unfold deviceSleep. unfold Second in *. rewrite (proj2 (Z.leb_gt interval 0)) by lia. cbv zeta.
  destruct (time_sub deadline t <=? 0) eqn:E; [done|]. destruct (de_wake e i); [done|]. intros [= <-]. bsimp. unfold time_sub in *. lia.
Qed.

(** C30: Unless the interval overflows, the polling loop returns within one
    poll per second left to the deadline and one more, and each poll starts a
    second or more after the one before it or at the deadline. *)
Theorem device_polls_end fuel : forall e i base dc deadline interval t polls,
  (forall i, 0 <= de_post e i) -> (forall i, 0 <= de_slack e i) ->
  Second <= interval -> interval + 5 * Second * Z.of_nat fuel < 2 ^ 63 ->
  (0 < fuel)%nat -> deadline - t <= (Z.of_nat fuel - 1) * Second ->
  exists r new, devicePoll fuel e i base dc deadline interval t polls = Some (r, polls ++ new) /\
    (length new <= fuel)%nat /\ (match new with [] => True | p :: l => p = t /\ polls_spaced deadline p l end).
Proof.
  induction fuel as [|fuel IH]; intros e i base dc deadline interval t polls Hp Hs Hi Ho Hf Hd; [lia|]. cbn [devicePoll].
  assert (Hend : forall r ps, exists r' new, Some (r, ps) = Some (r' : result deviceErr bytes, ps ++ new) /\ (length new <= S fuel)%nat /\
    match new with [] => True | p :: l => p = t /\ polls_spaced deadline p l end).
  { intros r ps. exists r, []. rewrite app_nil_r. split_and!; [done|cbn; lia|done]. }
  assert (Hone : forall r, exists r' new, Some (r, polls ++ [t]) = Some (r' : result deviceErr bytes, polls ++ new) /\ (length new <= S fuel)%nat /\
    match new with [] => True | p :: l => p = t /\ polls_spaced deadline p l end).
  { intros r. exists r, [t]. split_and!; [done|cbn; lia|done|done]. }
  destruct (de_cancel e i); [apply Hend|]. destruct (deadline <? t) eqn:Ed; [apply Hend|]. bsimp. cbv zeta.
  destruct (postDeviceForm _ _ _ _ _) as [[status body]|err]; [|apply Hone].
  destruct (deviceStatusCode status body) as [c|]; [|destruct (decode_token body) as [tok|]; [destruct (_ || _)|]; apply Hone].
  assert (Hnext : forall interval', Second <= interval' -> interval' + 5 * Second * Z.of_nat fuel < 2 ^ 63 ->
    exists r' new, match deviceSleep e i deadline interval' (t + de_post e i) with
                   | Err err => Some (Err err, polls ++ [t])
                   | Ok t' => devicePoll fuel e (S i) base dc deadline interval' t' (polls ++ [t])
                   end = Some (r', polls ++ new) /\ (length new <= S fuel)%nat /\
      match new with [] => True | p :: l => p = t /\ polls_spaced deadline p l end).
  { intros interval' Hi' Ho'. destruct (deviceSleep _ _ _ _ _) as [t'|err] eqn:Es; [|apply Hone].
    apply sleep_wakes in Es as [Hg Ht']; [|done|done]. pose proof (Hp i) as Hpi. unfold Second in *.
    destruct (IH e (S i) base dc deadline interval' t' (polls ++ [t])) as (r & new & -> & Hl & Hsp); [done|done|done|lia|lia|lia|].
    exists r, (t :: new). rewrite <- app_assoc. split; [done|]. split; [cbn; lia|]. split; [done|].
    destruct new as [|p l]; [done|]. destruct Hsp as [-> Hsp]. cbn [polls_spaced]. split; [|done]. unfold Second. lia. }
  destruct (bool_decide (c = lit "authorization_pending")); [apply Hnext; unfold Second in *; lia|].
  destruct (bool_decide (c = lit "slow_down")); [|apply Hone].
  rewrite wraps_small by (unfold Second in *; lia). apply Hnext; unfold Second in *; lia.
Qed.

(** ** What a login changes *)

(** A login that fails leaves every session as it was, and of the files
    removes at most the bearer that it stored and could not record. *)
Theorem device_login_effect fuel e fails sid req st r st' : DeviceLogin fuel e fails sid req st = Some (r, st') ->
  match r with
  | Err _ => is_reg st' = is_reg st /\ is_log st' = is_log st /\
      (is_files st' = is_files st \/ exists path, deviceTokenPath (de_home e) (dl_TokenFile req) = Some path /\ is_files st' = delete path (is_files st))
  | Ok (path, fp) => exists s s' base secret perm,
      GetSession sid (is_reg st) = Some s /\ deviceUsername (dl_Username req) = true /\
      controlPlaneOrigin (de_net e) = Ok base /\ (dl_URL req <> [] -> sameControlPlaneOrigin base (dl_URL req) = true) /\
      deviceTokenPath (de_home e) (dl_TokenFile req) = Some path /\ fp = sha256_hex secret /\
      is_files st' = <[path := (secret, perm)]> (is_files st) /\ Z.land perm 63 = 0 /\
      is_log st' = is_log st ++ [EDeviceLogin (dl_Username req) fp] /\
      (forall id, id <> sid -> GetSession id (is_reg st') = GetSession id (is_reg st)) /\
      GetSession sid (is_reg st') = Some s' /\ s_User s' = dl_Username req /\ s_Principals s' = [] /\ s_oidcProvider s' = [] /\ s_eligibleRoles s' = [] /\
      s_identitySource s' = IdentitySourceDeviceLogin /\ s_elevation s' = s_elevation s
  end.
Proof.
  unfold DeviceLogin, code. destruct (deviceStart e sid req st) as [[[[s path] base] start]|err] eqn:Es; [|intros [= <- <-]; auto].
  destruct (devicePoll _ _ _ _ _ _ _ _ _) as [[[secret|err] polls]|]; cbn [mbind option_bind]; [|intros [= <- <-]; auto|done].
  assert (Hs : GetSession sid (is_reg st) = Some s /\ deviceUsername (dl_Username req) = true /\ deviceTokenPath (de_home e) (dl_TokenFile req) = Some path /\
    controlPlaneOrigin (de_net e) = Ok base /\ (dl_URL req <> [] -> sameControlPlaneOrigin base (dl_URL req) = true)).
  { revert Es. unfold deviceStart. destruct (GetSession sid (is_reg st)) as [s0|]; [|done]. destruct (deviceUsername _); [|done]. cbn [negb].
    destruct (_ && _); [done|]. destruct (deviceTokenPath _ _) as [p|]; [|done]. unfold rbind. destruct (controlPlaneOrigin _) as [b|]; [|done].
    destruct (negb (bool_decide (dl_URL req = [])) && _) eqn:Eu; [done|]. destruct (postDeviceForm _ _ _ _ _) as [[status body]|]; [|done].
    destruct (deviceStatusCode _ _); [done|]. destruct (decode_start body) as [sb|]; [|done]. destruct (_ || _); [done|].
    destruct (checkVerificationURL _ _ _); [done|]. intros [= -> -> -> ->]. split_and!; try done. intros Hu. bsimp. destruct Eu as [Eu|Eu]; bsimp; done. }
  destruct Hs as (Hg & Hu & Hpath & Hbase & Hurl). unfold writeDeviceToken. destruct (_ || _ || _ || _ || _ || _); [cbv beta iota zeta; intros [= <- <-]; auto|].
  destruct (td_perm (de_disk e)) as [perm|]; [|cbv beta iota zeta; intros [= <- <-]; auto].
  destruct (_ || _ || _ || _) eqn:Eperm; cbv beta iota zeta; [intros [= <- <-]; auto|].
  unfold log_identity. destruct (fails _); intros [= <- <-].
  - split_and!; [done|done|]. right. exists path. split; [done|]. cbn. by rewrite delete_insert_eq.
  - bsimp. assert (Hne : dl_Username req <> []) by (intros En; by rewrite En in Hu).
    exists s. eexists. exists base, secret, perm.
    assert (Hl : s_User (logged_in (default (ne_now (de_net e) + de_post e 0) (last polls)) (dl_Username req) s) = dl_Username req)
      by (unfold logged_in, SetIdentity; by rewrite (bool_decide_false (dl_Username req = []))).
    split_and!; try done; [|unfold GetSession; cbn; by rewrite lookup_insert_eq|].
    + intros id Hid. unfold GetSession. cbn. by rewrite lookup_insert_ne.
    + unfold logged_in, SetIdentity. by destruct (bool_decide (dl_Username req = [])).
Qed.
End Polling.

(** ** Who may be elevated *)

Section Vouched.
Context `{DeviceLib} `{OIDCLib} `{NetURL} `{Sha256} (fails : identityEvent -> bool) (sid : bytes).

(** The commands that change a session's identity and roles. *)
Inductive identity_op :=
| OpImport (e : netEnv) (args : list bytes)
| OpDevice (fuel : nat) (e : deviceEnv) (req : DeviceLoginRequest)
| OpElevate (now : Z) (args : list bytes).
Definition run_op (op : identity_op) (st : identityState) : identityState :=
  match op with
  | OpImport e args => snd (identityOIDCImport e fails sid args st)
  | OpDevice fuel e req => match DeviceLogin fuel e fails sid req st with Some (_, st) => st | None => st end
  | OpElevate now args => snd (elevateRun fails now sid args st)
  end.
Definition run_identity (ops : list identity_op) (st : identityState) : identityState := fold_left (fun st op => run_op op st) ops st.

(** An import among the commands verified a token of the admin audience that
    names the role. *)
Definition vouched (ops : list identity_op) (role : bytes) : Prop :=
  exists e args opts claims user groups, In (OpImport e args) ops /\
    parse_import e args (mkImport [] [] (lit "email") (lit "groups")) = Ok opts /\ io_Provider opts = OIDCProviderAdmin /\
    accepted e opts claims user groups /\ In role groups.

Definition roles_vouched (ops : list identity_op) (s : Session) : Prop :=
  (s_oidcProvider s = OIDCProviderAdmin -> forall r, In r (s_eligibleRoles s) -> vouched ops r) /\
  (forall x, s_elevation s = Some x -> IsPrivilegedRole (el_Role x) = true -> vouched ops (el_Role x)).

Lemma vouched_snoc ops op r : vouched ops r -> vouched (ops ++ [op]) r.
Proof. intros (e & args & opts & claims & user & groups & Hin & Hrest). exists e, args, opts, claims, user, groups. split; [apply in_or_app; by left|done]. Qed.
Lemma roles_same ops op s s' : roles_vouched ops s -> s_oidcProvider s' = s_oidcProvider s -> s_eligibleRoles s' = s_eligibleRoles s ->
  (s_elevation s' = s_elevation s \/ s_elevation s' = None) -> roles_vouched (ops ++ [op]) s'.
Proof.
  intros [H1' H2'] E1 E2 E3. split.
  - rewrite E1, E2. intros Hp r Hr. by apply vouched_snoc, H1'.
  - intros x Hx Hr. destruct E3 as [E3|E3]; [|congruence]. rewrite E3 in Hx. by apply vouched_snoc, H2'.
Qed.

Lemma elevate_session now args st s : GetSession sid (is_reg st) = Some s ->
  exists s', GetSession sid (is_reg (snd (elevateRun fails now sid args st))) = Some s' /\
    s_oidcProvider s' = s_oidcProvider s /\ s_eligibleRoles s' = s_eligibleRoles s /\
    (s_elevation s' = s_elevation s \/ s_elevation s' = None \/
     exists x, s_elevation s' = Some x /\ (IsPrivilegedRole (el_Role x) = true -> s_oidcProvider s = OIDCProviderAdmin /\ In (el_Role x) (s_eligibleRoles s))).
Proof.
  intros Hs. unfold elevateRun. destruct args as [|action rest]; [by exists s; split_and!; [exact Hs|..|left]|]. rewrite Hs. destruct (bool_decide (is_Some _)); [by exists s; split_and!; [exact Hs|..|left]|].
  destruct (bool_decide (action = lit "request")).
  - destruct (parseElevationRequest rest) as [[[role ttl] reason]|]; [|by exists s; split_and!; [exact Hs|..|left]].
    destruct (IsPrivilegedRole role && _) eqn:Ep; [by exists s; split_and!; [exact Hs|..|left]|]. unfold log_identity. destruct (fails _); [by exists s; split_and!; [exact Hs|..|left]|].
    eexists. split; [unfold GetSession; cbn; by rewrite lookup_insert_eq|]. cbn. split_and!; [done|done|]. right. right. eexists. split; [done|]. cbn.
    intros Hr. rewrite Hr in Ep. cbn [andb] in Ep. bsimp. split; [done|]. by apply list_elem_of_In.
  - destruct (bool_decide (action = lit "status")).
    + unfold ActiveElevation. destruct (s_elevation s) as [x|] eqn:Ex; [destruct (now <? el_ExpiresAt x)|];
        (eexists; split; [unfold GetSession; cbn; by rewrite lookup_insert_eq|]); cbn; rewrite ?Ex; split_and!; auto.
    + destruct (bool_decide (action = lit "drop")); [|by exists s; split_and!; [exact Hs|..|left]]. unfold DropElevation. destruct (s_elevation s) as [x|] eqn:Ex; [|by exists s; rewrite Ex; split_and!; [exact Hs|..|left]].
      unfold log_identity. destruct (fails _); (eexists; split; [unfold GetSession; cbn; by rewrite lookup_insert_eq|]); cbn; split_and!; auto.
Qed.

Lemma step_vouched ops op st s : GetSession sid (is_reg st) = Some s -> roles_vouched ops s ->
  exists s', GetSession sid (is_reg (run_op op st)) = Some s' /\ roles_vouched (ops ++ [op]) s'.
Proof.
  intros Hs Hv. destruct op as [e args|fuel e req|now args]; cbn [run_op].
  - destruct (identityOIDCImport e fails sid args st) as [r st'] eqn:Ei. cbn [snd].
    apply import_cases in Ei as [(err & -> & ->)|(opts & claims & user & groups & s0 & ev & _ & Hp & Ha & Hs0 & _ & ->)];
      [exists s; split; [done|]; by apply (roles_same ops _ s s); auto|].
    rewrite Hs in Hs0. injection Hs0 as <-.
    destruct (imported_fields (ne_now e) (io_Provider opts) user (FilterUnprivileged groups) (eligible_roles (io_Provider opts) groups) s _ (accepted_user _ _ _ _ _ Ha) eq_refl)
      as (_ & _ & _ & F4 & F5 & F6).
    eexists. split; [unfold GetSession; cbn; by rewrite lookup_insert_eq|]. split.
    + intros Hadm g Hr. rewrite F5 in Hadm. rewrite F6 in Hr. rewrite bool_decide_true in Hr by done. apply eligible_from in Hr as (_ & _ & Hr).
      exists e, args, opts, claims, user, groups. split_and!; try done. apply in_or_app. right. by left.
    + intros x Hx Hr. rewrite F4 in Hx. by apply vouched_snoc, (proj2 Hv).
  - destruct (DeviceLogin fuel e fails sid req st) as [[r st']|] eqn:Ed; [|exists s; split; [done|]; by apply (roles_same ops _ s s); auto].
    apply device_login_effect in Ed. destruct r as [[path fp]|err].
    + destruct Ed as (s0 & s' & base & secret & perm & Hs0 & _ & _ & _ & _ & _ & _ & _ & _ & _ & Hs' & _ & _ & Ho & He & _ & Hel).
      rewrite Hs in Hs0. injection Hs0 as <-. exists s'. split; [done|]. split; [by rewrite Ho|]. intros x Hx Hr. rewrite Hel in Hx. by apply vouched_snoc, (proj2 Hv).
    + destruct Ed as (Hr & _). rewrite Hr. exists s. split; [done|]. apply (roles_same ops _ s s); auto.
  - destruct (elevate_session now args st s Hs) as (s' & Hs' & Ho & He & Hel). exists s'. split; [done|].
    destruct Hel as [Hel|[Hel|(x & Hx & Hr)]]; [by apply (roles_same ops _ s s'); auto..|]. split.
    + rewrite Ho, He. intros Hp r Hr'. by apply vouched_snoc, (proj1 Hv).
    + intros y Hy Hpr. rewrite Hx in Hy. injection Hy as <-. destruct (Hr Hpr) as [Hp Hin]. by apply vouched_snoc, (proj1 Hv).
Qed.

(** C26: Over any sequence of imports, device logins and elevate commands,
    failing audit writes included, a session that began without elevation and
    without the admin provider is elevated to a privileged role only if one of
    the imports verified a token of the admin audience whose groups name that
    role. *)
Theorem elevation_needs_admin_token ops st s0 s x :
  GetSession sid (is_reg st) = Some s0 -> s_oidcProvider s0 <> OIDCProviderAdmin -> s_elevation s0 = None ->
  GetSession sid (is_reg (run_identity ops st)) = Some s -> s_elevation s = Some x -> IsPrivilegedRole (el_Role x) = true ->
  vouched ops (el_Role x).
Proof.
  intros Hs0 Hp He.
  assert (Hinv : exists s', GetSession sid (is_reg (run_identity ops st)) = Some s' /\ roles_vouched ops s').
  { unfold run_identity. induction ops as [|op ops IH] using rev_ind.
    - exists s0. split; [done|]. split; [by intros ?|]. intros y Hy. congruence.
    - rewrite fold_left_app. cbn [fold_left]. destruct IH as (s' & Hs' & Hv). by apply (step_vouched ops op _ s'). }
  destruct Hinv as (s' & Hs' & Hv). intros Hs Hx Hr. rewrite Hs in Hs'. injection Hs' as <-. by apply (proj2 Hv).
Qed.
End Vouched.

(** ** Findings *)

(** A device login gives the session a new user without groups, but an active
    elevation stays: the policy then sees the new user with its role. *)
Theorem elevation_survives_login `{DeviceLib} `{NetURL} `{Sha256} fuel e fails sid req st s x path fp st' os now ids command args :
  DeviceLogin fuel e fails sid req st = Some (Ok (path, fp), st') -> GetSession sid (is_reg st) = Some s ->
  s_elevation s = Some x -> now < el_ExpiresAt x -> sid <> [] -> ids !! sid = None ->
  let p := fst (buildPolicyContext os now ids command args sid (is_reg st')) in
  p_User p = dl_Username req /\ p_Groups p = [el_Role x].
Proof.
  intros Hd Hs Hx Hn Hsid Hids. apply device_login_effect in Hd as (s0 & s' & base & secret & perm & Hs0 & _ & _ & _ & _ & _ & _ & _ & _ & _ & Hs' & Hu & Hp & _ & _ & _ & Hel).
  rewrite Hs in Hs0. injection Hs0 as <-. rewrite Hx in Hel. cbv zeta. unfold buildPolicyContext. rewrite bool_decide_false by done. rewrite Hids, Hs'.
  unfold addSessionClaims, ActiveElevation. rewrite Hel, (proj2 (Z.ltb_lt _ _)) by done. cbn. by rewrite Hp.
Qed.

(** ** On concrete runs *)

#[local] Existing Instance Oidc.toy_oidc.
#[local] Existing Instance Oidc.toy_digest.
Definition plane_url (raw : bytes) : option URL :=
  let at_path p := Some (mkURL3 (lit "https") [] false (lit "cp.example") p [] false []) in
  if bool_decide (raw = lit "https://cp.example") then at_path []
  else if bool_decide (raw = lit "https://cp.example/oauth/device") then at_path (lit "/oauth/device")
  else if bool_decide (raw = lit "https://cp.example/oauth/token") then at_path (lit "/oauth/token")
  else if bool_decide (raw = lit "https://cp.example/verify") then at_path (lit "/verify")
  else demo_url raw.
#[local] Instance plane_net : NetURL := {| Parse := plane_url; URL_String u := l_Host u; unicode_lower s := s; idna_ToASCII _ := None |}.
#[local] Instance plane_device : DeviceLib := {|
  unicode_name _ := false;
  decode_start b := if bool_decide (b = lit "start") then Some (mkStart (lit "dc") (lit "https://cp.example/verify") 600 1) else None;
  decode_token b := if bool_decide (b = lit "token") then Some (mkTokenBody (lit "bearer") (lit "Bearer")) else None;
  decode_error b := Some b;
  query_has _ _ := false;
  resolve_ref u p := lit "https://" ++ l_Host u ++ p;
  unicode_fold _ _ := false |}.

Definition plane_env (k : bytes) : bytes := if bool_decide (k = lit "ADSSH_CONTROLPLANE_URL") then lit "https://cp.example" else toy_env k.
(** The control plane answers the start, [n] times slow_down, and the token. *)
Definition plane_world (n : nat) : deviceEnv := {|
  de_net := mkNet3 plane_env (fun _ => Some [v4 93 184 216 34]) rebound 0 (fun _ _ => Response 200 (lit "keys")) toy_now (fun _ => None);
  de_answer i _ _ := if Nat.eqb i 0 then Response 200 (lit "start") else if (i <=? n)%nat then Response 429 [] else Response 200 (lit "token");
  de_post _ := 0; de_slack _ := 0; de_cancel _ := false; de_wake _ := false;
  de_disk := mkTokenDisk ParentDir DestMissing true true true true (Some 384) true true true; de_home := Some (lit "/home/u") |}.
Definition plane_req (interval : Z) : DeviceLoginRequest := mkDevice [] (lit "mallory") [] interval true 0.

Definition plane_base : URL := mkURL3 (lit "https") [] false (lit "cp.example") [] [] false [].
(** An interval near the largest duration wraps on slow_down: the flow then
    polls again at the same instant. *)
Theorem slow_down_busy_polls : 
  controlPlaneOrigin (de_net (plane_world 3)) = Ok plane_base /\
  devicePoll 10 (plane_world 3) 1 plane_base (lit "dc") (toy_now + 10 * Minute) (2 ^ 63 - 1) toy_now [] =
    Some (Ok (lit "bearer"), [toy_now; toy_now; toy_now; toy_now]) /\
  devicePoll 10 (plane_world 3) 1 plane_base (lit "dc") (toy_now + 10 * Minute) Second toy_now [] =
    Some (Ok (lit "bearer"), [toy_now; toy_now + 6 * Second; toy_now + 17 * Second; toy_now + 33 * Second]).
Proof. split; [vm_compute; reflexivity|]. split; vm_compute; reflexivity. Qed.

Lemma device_polls_end_witness : exists r new,
  devicePoll 6 (plane_world 3) 1 plane_base (lit "dc") (toy_now + 5 * Second) Second toy_now [] = Some (r, new) /\ (length new <= 6)%nat.
Proof.
  destruct (device_polls_end 6 (plane_world 3) 1 plane_base (lit "dc") (toy_now + 5 * Second) Second toy_now []) as (r & new & Hr & Hl & _).
  - intros i. exact (Z.le_refl 0).
  - intros i. exact (Z.le_refl 0).
  - exact (Z.le_refl _).
  - reflexivity.
  - exact (Nat.lt_0_succ 5).
  - vm_compute. discriminate.
  - exists r, new. split; [exact Hr|exact Hl].
Defined.

Definition admin_then_login : list identity_op :=
  [OpImport (de_net (plane_world 0)) [lit "--env"; lit "TOKEN"; lit "--provider"; lit "admin"];
   OpElevate toy_now [lit "request"; lit "os-root"; lit "--reason"; lit "x"];
   OpDevice 10 (plane_world 1) (plane_req Second)].
Example admin_then_login_run :
  let st := run_identity no_failure (lit "s1") admin_then_login toy_state in
  (s_User <$> GetSession (lit "s1") (is_reg st)) = Some (lit "mallory") /\
  (el_Role <$> (GetSession (lit "s1") (is_reg st) ≫= s_elevation)) = Some (lit "os-root") /\
  p_Groups (fst (buildPolicyContext ([], []) toy_now ∅ (lit "id") [] (lit "s1") (is_reg st))) = [lit "os-root"] /\
  is_files st !! lit "/home/u/.adssh/device.token" = Some (lit "bearer", 384).
Proof. vm_compute. by split_and!. Qed.
Lemma admin_then_login_final : exists s x,
  GetSession (lit "s1") (is_reg (run_identity no_failure (lit "s1") admin_then_login toy_state)) = Some s /\
  s_elevation s = Some x /\ el_Role x = lit "os-root".
Proof. vm_compute. do 2 eexists. split; [reflexivity|]. split; reflexivity. Qed.
Lemma elevation_needs_admin_token_witness : vouched admin_then_login (lit "os-root").
Proof.
  destruct admin_then_login_final as (s & x & Es & Ex & Er). rewrite <- Er.
  refine (elevation_needs_admin_token no_failure (lit "s1") admin_then_login toy_state toy_session s x _ _ _ Es Ex _).
  - reflexivity.
  - discriminate.
  - reflexivity.
  - rewrite Er. vm_compute. reflexivity.
Defined.
